(* ===== verification/_CoqProject ===== *)
-Q . S2P
Prelude.v
CString.v
Md5.v
Pmsg.v
HttpAuth.v
SendBuf.v
Base64.v
Frame.v
Conversions.v
Pixels.v
JpegEnc.v
V4L.v
Oss.v
OssPlay.v
Clock.v
TextOverlap.v
TextSpec.v
Caption.v
ImgOverlap.v
Stream.v
Encoder.v
Capture.v
JpegLoop.v
AlawLoop.v
Rtcp.v
Rtp.v
RtpMedia.v
Mpeg.v
ConfParse.v
ConfScan.v
ConfText.v
ConfSpell.v
Log.v
Cgi.v
Event.v
Meter.v
SoftQueue.v
Server.v
ServerInv.v
ServerOps.v
Reply.v
Rtsp.v
RtspSafe.v
Live.v
LiveSafe.v
Http.v
Tcp.v
TcpSafe.v
TcpStep.v
Config.v
System.v
RtspSpec.v
LiveSpec.v
Spook.v
