(* ===== verification/Prelude.v ===== *)
(** * A verification of the NuWicam streaming server

    The program under [src/sources/applications/RTSPServer/src] is the server of a small
    network camera.  Encoder threads take pictures and sound from the drivers, put them
    into frames of a shared pool and hand the frames over an exchanger to the main thread.
    There, a stream delivers each frame to whoever waits for it: a live source, which cuts
    the frame into RTP packets and sends them to the sessions that play it, or an HTTP
    location, which sends the picture itself.  Clients control this over TCP connections
    with RTSP or HTTP requests; everything in the main thread happens in callbacks of an
    event loop.  The files below model these parts bottom up, in the order of
    [_CoqProject]; names are those of the sources.

    ** Conventions

    Functions of the sources are Rocq functions on explicit states.  Integers are [Z], with
    the wrap-around of their width written out ([u8], [u32], [i32] ...); bytes are integers
    from 0 to 255, and C strings the lists of their non-zero bytes.  Where C code can go
    wrong a function returns an [outcome]: [Ok] with its result, [Fail] for an error return
    or [exit], [Undef] for an access outside an object, through [NULL] or to a freed object,
    [Diverge] for a loop that outlives the fuel of the model.  Objects that point at one
    another are named by numbers, their addresses, and kept in maps.  What the system
    answers -- sockets, clocks, [random()], the contents of new blocks, [getopt], the
    drivers -- is an argument.  A property of the form [returns o P] or [o = Ok a] says that
    the code finishes, without undefined behaviour, in such a state.

    ** The files

    - [Prelude], [CString]: C integers, outcomes, reads and writes in arrays; the string
      functions of the C library.
    - [Md5] ([md5.c]), [Pmsg] ([pmsg.c]), [HttpAuth] ([http-auth.c]), [Base64] ([tcp.c],
      [rtp-h264.c]), [Reply]: digests, requests and replies, digest authentication.
    - [Frame], [Meter] ([frame.c]), [Conversions] ([conversions.c]), [Stream] ([stream.c]),
      [Encoder] ([encoder-alaw.c], [encoder-jpeg.c]), [Capture]: from the encoders to the
      streams.
    - [V4L] ([V4L.c]), [JpegEnc] ([JpegEnc.c]), [Oss] and [OssPlay] ([OSS.c]), [Clock]
      ([utils.c], [OSS.c]): the camera, the JPEG device, the sound device for recording and
      playing, and the clocks.  The camera's functions are programs over a type of requests;
      what its driver promises is the class [camera], of which the clients' theorems make
      use.
    - [Pixels], [TextOverlap], [TextSpec] ([TextOverlap.c]), [Caption] ([Digit_8_16.h],
      [encoder-jpeg.c]), [ImgOverlap] ([ImgOverlap.c]): the date and other pictures drawn
      into a picture.
    - [JpegLoop], [AlawLoop] ([encoder-jpeg.c], [encoder-alaw.c]): the two threads composed
      of all these parts, interleaved with the main loop.
    - [Rtcp] ([rtcp-parse.c], [qos-analyzer.c]), [Rtp] ([rtp.c]), [RtpMedia] ([rtp-jpeg.c],
      [rtp-rawaudio.c], [rtp-h264.c] and the other formats), [SendBuf] ([tcp.c],
      [rtsp.c]): packets and the buffers they leave through.
    - [Mpeg] ([rtp-mpeg4.c], [rtp-mpv.c]): the packets of MPEG video.
    - [ConfParse] ([conf_parse.c]), [ConfScan] ([conf_scan.c]), [ConfText] and [ConfSpell]
      (its correctness: the buffer, the automaton, the lexical grammar), [Event] and
      [SoftQueue] ([event.c]): directives and blocks of the configuration, from the bytes of
      the file; the event loop and the queues between threads.
    - [Log] ([log.c], [access_log.c]): the ring of the last log lines and the access log.
    - [Cgi] ([httpd-cgi/param.c], [restart.c], [common.c]): the web programs that list and
      change the parameters of the device.
    - [Server] ([session.c], [rtp.h], parts of [rtsp.c] and [live.c]), [Rtsp] ([rtsp.c]),
      [Live] ([live.c]), [Http] ([http.c]), [Tcp] ([tcp.c]), [Config] (the directives of
      [live.c] and [http.c]), [System]: the objects of a running server, its handlers, and
      one step function for all events.
    - [ServerInv], [ServerOps], [RtspSafe], [LiveSafe], [TcpSafe], [TcpStep]: the invariant
      of those objects and its preservation.  It is built in layers: [server_inv] (every
      pointer leads to a live object of its type and back), [idle] (no encoder runs for
      nobody), [served] and [running] (send buffers are queues, media and locations are
      well formed), [tcp_inv] (connections, HTTP), [booted] (while the configuration is
      read).
    - [RtspSpec], [LiveSpec]: what requests promise and what clients receive.
    - [Spook] ([spook.c], [RTSPServer.c]): [main], from the command line to the event loop.

    ** The theorems

    - Safety of the whole: [System.server_safe] and [Spook.device_runs] -- after any
      acceptable configuration, or any command line, every sequence of events is handled
      without undefined behaviour and keeps the invariant; [System.proto_state_typed],
      [System.encoders_rest].  [Spook.device_serves] says what the program serves.
    - Behaviour of the server: who gets a frame and as which packets
      ([LiveSpec.frame_delivered]), authentication ([HttpAuth], [RtspSpec.setup_protected]),
      PLAY and TEARDOWN, multipart pictures.
    - Refinement: ring buffers, soft queues, exchangers and the line from the microphone to
      the client are bounded queues; the stream of packets on both transports; the token
      loop of the configuration runs what the file says.
    - Round trips and references: JPEG, H.264, interleaved and tunnelled data come back;
      MD5 is RFC 1321; A-law is G.711; requests and replies parse back.
    - The configuration file: [ConfText.scanner_reads] (the generated scanner, with its
      buffer that is refilled and the automaton in tables, yields the longest matches of the
      text), [ConfText.scanner_ends] (it ends on every file with lines of fewer than 256
      characters), [ConfSpell.config_text_runs] (scanner and parser together run what the
      text of a file spells).
    - The pipelines: [JpegLoop.video_pipeline] and [AlawLoop.audio_pipeline] (from the
      drivers to a client, in any interleaving: nothing goes wrong, and what arrives is what
      the devices delivered, through a bounded queue; the video with the date switched off
      and drivers that keep their promises, the sound with a clock without gaps), [V4L.pictures_in_turn],
      [OssPlay.player_balanced], [JpegEnc.rate_control], [Caption.caption_drawn].
    - Around the server: [Log.log_keeps_lines] (the ring of 4096 bytes holds the most
      recent whole lines, of messages shorter than 1024 bytes), [Cgi.update_request]
      (parameters that are changed are read back, and the file of the other group keeps its
      bytes).
    - Errors: theorems that exhibit where the code does less than it means to
      ([LiveSpec.limits_are_real], [LiveSpec.first_frame_starves],
      [RtspSpec.describe_refused_leaks], [Pmsg.parse_request_overflow],
      [Oss.gap_overflows], [OssPlay.refused_volume_blocks], [Caption.date_needs_room]).

    Theorems about objects of a running server assume what [event_ok] says of an event: it
    comes from an object that is there, the path and the address of a request fit the
    arrays they are copied into, and a channel is used after its SETUP; the theorems under
    Errors show that these assumptions are needed.

    ** Fuel

    Recursion is on the data wherever the code walks a list or a buffer.  Where it is not,
    the fuel is a bound the state gives: [set_waiting] and [get_framerate] follow
    converters to older streams, so [st_fresh] is enough ([streams_inv] orders them);
    [deliver_frame_to_stream] likewise; the loops over received bytes and headers take the
    length of the buffer; [Event] takes the number of events.  The scanner takes a bound in
    the length of the text, and [ConfText.scanner_ends] shows that it is enough.  The loops
    around [VIDIOCSYNC] have the limits of the code, 500 and 100 failures.  [Diverge] is
    excluded by the safety theorems.  Two loops have no bound but what the system answers:
    [query_private] of [V4L], over the controls of a driver, and [uptime_ms] of [Clock],
    which reads the time again while it is 0; no theorem says that they end.

    ** Not modelled

    - The drivers and the kernel: what system calls answer is an argument, or the promise of
      a class.  [dumpV4LBuffer], which writes a test file.
    - Of the flex skeleton, the functions that nothing calls.
    - The encoders that the Makefile does not build ([encoder-h264.c], [encoder-aac.c],
      [encoder-adpcm.c], [encoder-g726.c], [encoder-mp3.c], [encoder-ulaw.c]), which include
      the header [msf.h] of a framework that is not in the sources; of the packetizers it does
      not build, some session descriptions.
    - [malloc] is taken to succeed where the code does not look, mutexes and condition
      variables to work: an operation under a mutex is one step; [OssPlay] has the mutex as
      part of its state.
    - What is only printed.
    - Everything outside the two applications: busybox, the web server, [ser2net], the
      kernel. *)

From Stdlib Require Export ZArith Lia.
From stdpp Require Export base numbers option gmap.
From stdpp Require Export list.

#[export] Set Default Goal Selector "!".

(** ** Notations for C's bit operators *)

Declare Scope c_scope.
Delimit Scope c_scope with c.

Notation "x .& y" := (Z.land x y) (at level 45, left associativity) : c_scope.
Notation "x .| y" := (Z.lor x y) (at level 48, left associativity) : c_scope.
Notation "x .^ y" := (Z.lxor x y) (at level 47, left associativity) : c_scope.
Notation "x <<< y" := (Z.shiftl x y) (at level 42, left associativity) : c_scope.
Notation "x >>> y" := (Z.shiftr x y) (at level 42, left associativity) : c_scope.

#[export] Set Warnings "-notation-overridden,-clear-no-such-hyp".

Local Open Scope Z_scope.
Local Open Scope c_scope.

(** ** Machine integers

    A C integer is a [Z]; the functions below are the conversions to the
    widths the sources use.  [i32] is the two's-complement reading the ARM
    toolchain gives to a value that leaves the range of [int]. *)

Definition u8 (z : Z) : Z := z mod 2 ^ 8.
Definition u16 (z : Z) : Z := z mod 2 ^ 16.
Definition u32 (z : Z) : Z := z mod 2 ^ 32.
Definition u64 (z : Z) : Z := z mod 2 ^ 64.
Definition i32 (z : Z) : Z := (z + 2 ^ 31) mod 2 ^ 32 - 2 ^ 31.

(** C's boolean reading of an integer, and its converse. *)
Definition truth (z : Z) : bool := negb (z =? 0).

(** [u8], [u16], ... are [mod] with the modulus written out, which is the form
    [lia] reads. *)
Ltac unfold_widths :=
  unfold u8, u16, u32, u64, i32 in *;
  change (2 ^ 8) with 256 in *; change (2 ^ 16) with 65536 in *;
  change (2 ^ 31) with 2147483648 in *; change (2 ^ 32) with 4294967296 in *;
  change (2 ^ 64) with 18446744073709551616 in *.

(** [width_lia]: linear arithmetic after the width conversions are unfolded; Euclidean
    division facts are supplied by [Z.div_mod_to_equations]. *)
Ltac width_lia := unfold_widths; Z.div_mod_to_equations; lia.

Lemma u8_range z : 0 <= u8 z < 256.
Proof. width_lia. Qed.

Lemma u16_range z : 0 <= u16 z < 65536.
Proof. width_lia. Qed.

Lemma u32_range z : 0 <= u32 z < 4294967296.
Proof. width_lia. Qed.

Lemma u8_small z : 0 <= z < 256 → u8 z = z.
Proof. intros; apply Z.mod_small; done. Qed.

Lemma u16_small z : 0 <= z < 65536 → u16 z = z.
Proof. intros; apply Z.mod_small; done. Qed.

Lemma u32_small z : 0 <= z < 4294967296 → u32 z = z.
Proof. intros; apply Z.mod_small; done. Qed.

Lemma i32_small z : -2147483648 <= z < 2147483648 → i32 z = z.
Proof. width_lia. Qed.

Lemma i32_range z : -2147483648 <= i32 z < 2147483648.
Proof. width_lia. Qed.

Lemma u32_add_u32_l a b : u32 (u32 a + b) = u32 (a + b).
Proof. apply Zplus_mod_idemp_l. Qed.

Lemma u32_idem a : u32 (u32 a) = u32 a.
Proof. apply Zmod_mod. Qed.

(** ** Assignment

    [x ::= e;; k] is the statement [x = e] followed by [k].  Unlike a [let] it is
    a constant application, so a long straight-line program can be stepped through
    one statement at a time. *)

Definition assign {A B} (e : A) (k : A → B) : B := k e.

Notation "x ::= e ;; k" := (assign e (λ x, k))
  (at level 100, e at next level, right associativity, format "x  ::=  e ;;  '//' k") : c_scope.

Lemma assign_eq {A B} (e v : A) (k : A → B) rhs : e = v → k v = rhs → assign e k = rhs.
Proof. intros -> <-. reflexivity. Qed.

(** ** Outcomes

    The result of a C function on the model's objects: a value, the error return of
    the function, an access outside an object (undefined behaviour), or a loop that
    outlived the fuel the model gave it.  Theorems rule the last two out. *)

Inductive outcome (A : Type) : Type :=
| Ok (a : A)
| Fail
| Undef
| Diverge.
Arguments Ok {A} a.
Arguments Fail {A}.
Arguments Undef {A}.
Arguments Diverge {A}.

#[export] Instance outcome_ret : MRet outcome := λ A a, Ok a.
#[export] Instance outcome_bind : MBind outcome := λ A B f m,
  match m with Ok a => f a | Fail => Fail | Undef => Undef | Diverge => Diverge end.

(** [d[i]] and [d[i] = v] on an object. *)
Definition rd {A} (d : list A) (i : nat) : outcome A :=
  match d !! i with Some v => Ok v | None => Undef end.

Definition wr {A} (d : list A) (i : nat) (v : A) : outcome (list A) :=
  if (i <? length d)%nat then Ok (<[i := v]> d) else Undef.

(** The outcome is defined: neither undefined behaviour nor divergence. *)
Definition defined {A} (o : outcome A) : Prop := o ≠ Undef ∧ o ≠ Diverge.

Lemma rd_Ok {A} (d : list A) i v : d !! i = Some v → rd d i = Ok v.
Proof. intros E. unfold rd. by rewrite E. Qed.

Lemma wr_Ok {A} (d : list A) i v : (i < length d)%nat → wr d i v = Ok (<[i := v]> d).
Proof. intros E. unfold wr. by destruct (Nat.ltb_spec i (length d)); [|lia]. Qed.

Lemma bind_Ok {A B} (a : A) (f : A → outcome B) : (Ok a ≫= f) = f a.
Proof. reflexivity. Qed.

(** [safe o P]: the outcome is defined, and a value it returns satisfies [P]. *)
Definition safe {A} (o : outcome A) (P : A → Prop) : Prop :=
  match o with Ok a => P a | Fail => True | Undef | Diverge => False end.

Lemma safe_bind {A B} (o : outcome A) (P : A → Prop) (f : A → outcome B) Q :
  safe o P → (∀ a, P a → safe (f a) Q) → safe (o ≫= f) Q.
Proof. destruct o; simpl; auto. Qed.

Lemma safe_mono {A} (o : outcome A) (P Q : A → Prop) : safe o P → (∀ a, P a → Q a) → safe o Q.
Proof. destruct o; simpl; auto. Qed.

Lemma safe_defined {A} (o : outcome A) P : safe o P → defined o.
Proof. destruct o; simpl; intros; split; done. Qed.

Lemma safe_rd {A} (d : list A) i (P : A → Prop) :
  (i < length d)%nat → (∀ v, d !! i = Some v → P v) → safe (rd d i) P.
Proof.
  intros Hi HP. unfold rd. destruct (d !! i) eqn:E; simpl; [by apply HP|].
  apply lookup_ge_None in E. lia.
Qed.

Lemma safe_wr {A} (d : list A) i v (P : list A → Prop) :
  (i < length d)%nat → P (<[i := v]> d) → safe (wr d i v) P.
Proof. intros Hi HP. by rewrite wr_Ok. Qed.

(** [returns o P]: the function returns, with a value that satisfies [P]. *)
Definition returns {A} (o : outcome A) (P : A → Prop) : Prop := ∃ a, o = Ok a ∧ P a.

Lemma returns_Ok {A} (a : A) (P : A → Prop) : P a → returns (Ok a) P.
Proof. by exists a. Qed.

Lemma returns_bind {A B} (o : outcome A) (P : A → Prop) (f : A → outcome B) Q :
  returns o P → (∀ a, P a → returns (f a) Q) → returns (o ≫= f) Q.
Proof. intros (a & -> & Ha) H. by apply H. Qed.

Lemma returns_mono {A} (o : outcome A) (P Q : A → Prop) : returns o P → (∀ a, P a → Q a) → returns o Q.
Proof. intros (a & -> & Ha) H. exists a. auto. Qed.

(** [terminates o P]: the fuel was enough, and a value returned satisfies [P]; unlike
    [safe] it says nothing about undefined behaviour. *)
Definition terminates {A} (o : outcome A) (P : A → Prop) : Prop :=
  match o with Ok a => P a | Fail | Undef => True | Diverge => False end.

Lemma terminates_bind {A B} (o : outcome A) (P : A → Prop) (f : A → outcome B) Q :
  terminates o P → (∀ a, P a → terminates (f a) Q) → terminates (o ≫= f) Q.
Proof. destruct o; simpl; auto. Qed.

Lemma terminates_mono {A} (o : outcome A) (P Q : A → Prop) :
  terminates o P → (∀ a, P a → Q a) → terminates o Q.
Proof. destruct o; simpl; auto. Qed.

Lemma terminates_rd {A} (d : list A) i (P : A → Prop) :
  (∀ v, d !! i = Some v → P v) → terminates (rd d i) P.
Proof. intros HP. unfold rd. destruct (d !! i) eqn:E; simpl; auto. Qed.

Lemma terminates_wr {A} (d : list A) i v (P : list A → Prop) :
  P (<[i := v]> d) → terminates (wr d i v) P.
Proof. intros HP. unfold wr. by destruct (_ <? _)%nat. Qed.

(** Stepping through straight-line code in a proof about [terminates]. *)
Ltac term_step :=
  match goal with
  | |- terminates (if ?b then _ else _) _ =>
      destruct b eqn:?; [first [exact I | idtac] | first [exact I | idtac]]
  | |- terminates (rd ?d ?i ≫= _) _ =>
      eapply (terminates_bind _ (λ v, d !! i = Some v)); [by apply terminates_rd|intros ? ?]
  | |- terminates (wr ?d ?i ?v ≫= _) _ =>
      eapply (terminates_bind _ (λ d', d' = <[i := v]> d)); [by apply terminates_wr|intros ? ->]
  end.

Create Rewrite HintDb outcome.
#[export] Hint Rewrite @bind_Ok : outcome.

(** ** Bit operations as arithmetic *)

Lemma land_255 x : x .& 255 = x mod 256.
Proof. apply (Z.land_ones x 8); lia. Qed.

Lemma land_65535 x : x .& 65535 = x mod 65536.
Proof. apply (Z.land_ones x 16); lia. Qed.

Lemma land_u32 x : x .& 0xFFFFFFFF = u32 x.
Proof. apply (Z.land_ones x 32); lia. Qed.

Lemma shiftr_div x n : 0 <= n → x >>> n = x / 2 ^ n.
Proof. apply Z.shiftr_div_pow2. Qed.

Lemma shiftl_mul x n : 0 <= n → x <<< n = x * 2 ^ n.
Proof. apply Z.shiftl_mul_pow2. Qed.

(** Or-ing a value into the low bits a shift has cleared is an addition. *)
Lemma lor_shiftl_add a b n :
  0 <= n → 0 <= b < 2 ^ n → (a <<< n) .| b = a * 2 ^ n + b.
Proof.
  intros Hn Hb. rewrite <- (Z.shiftl_mul_pow2 a n) by done.
  rewrite Z.add_nocarry_lor; [done|].
  apply Z.bits_inj'; intros i Hi.
  rewrite Z.land_spec, Z.bits_0.
  destruct (Z.lt_ge_cases i n).
  - by rewrite Z.shiftl_spec_low.
  - replace (Z.testbit b i) with false; [by rewrite andb_false_r|].
    symmetry. destruct (Z.eq_dec b 0) as [->|]; [by rewrite Z.bits_0|].
    apply Z.bits_above_log2; [lia|].
    apply Z.log2_lt_pow2; [lia|].
    eapply Z.lt_le_trans; [apply Hb|]. apply Z.pow_le_mono_r; lia.
Qed.

(** ** Bytes and network byte order (the macros of [rtp.h]) *)

Definition is_byte (b : Z) : Prop := 0 <= b < 256.

#[export] Instance is_byte_dec b : Decision (is_byte b).
Proof. unfold is_byte. apply _. Defined.

Definition PUT_16 (v : Z) : list Z := [(v >>> 8) .& 255; v .& 255].

Definition PUT_32 (v : Z) : list Z :=
  [(v >>> 24) .& 255; (v >>> 16) .& 255; (v >>> 8) .& 255; v .& 255].

(** [GET_16 p] and [GET_32 p] read at the head of [p]; [None] is a read past the
    end of the object. *)
Definition GET_16 (p : list Z) : option Z :=
  match p with
  | a :: b :: _ => Some ((a <<< 8) .| b)
  | _ => None
  end.

Definition GET_32 (p : list Z) : option Z :=
  match p with
  | a :: b :: c :: d :: _ =>
      Some (u32 ((a <<< 24) .| (b <<< 16) .| (c <<< 8) .| d))
  | _ => None
  end.

Lemma land_255_byte v : is_byte (v .& 255).
Proof. unfold is_byte. rewrite land_255. apply Z.mod_pos_bound; lia. Qed.

Lemma PUT_16_bytes v : Forall is_byte (PUT_16 v).
Proof. repeat constructor; apply land_255_byte. Qed.

Lemma PUT_32_bytes v : Forall is_byte (PUT_32 v).
Proof. repeat constructor; apply land_255_byte. Qed.

(** Reading back what [PUT_16]/[PUT_32] wrote gives the value modulo the width. *)
Lemma GET_PUT_16 v rest : GET_16 (PUT_16 v ++ rest) = Some (u16 v).
Proof.
  simpl. f_equal. rewrite lor_shiftl_add.
  - rewrite !land_255, shiftr_div by lia. width_lia.
  - lia.
  - apply (land_255_byte v).
Qed.

Lemma GET_32_value a b c d rest :
  is_byte a → is_byte b → is_byte c → is_byte d →
  GET_32 (a :: b :: c :: d :: rest) = Some (a * 2 ^ 24 + b * 2 ^ 16 + c * 2 ^ 8 + d).
Proof.
  unfold is_byte; intros Ha Hb Hc Hd. simpl. f_equal.
  rewrite <- !Z.lor_assoc, (lor_shiftl_add c d 8) by lia.
  rewrite (lor_shiftl_add b _ 16) by (change (2 ^ 16) with 65536; change (2 ^ 8) with 256; lia).
  rewrite (lor_shiftl_add a _ 24)
    by (change (2 ^ 24) with 16777216; change (2 ^ 16) with 65536; change (2 ^ 8) with 256; lia).
  rewrite u32_small; [lia|].
  change (2 ^ 24) with 16777216; change (2 ^ 16) with 65536; change (2 ^ 8) with 256; lia.
Qed.

Lemma GET_PUT_32 v rest : GET_32 (PUT_32 v ++ rest) = Some (u32 v).
Proof.
  change (PUT_32 v ++ rest) with
    ((v >>> 24) .& 255 :: (v >>> 16) .& 255 :: (v >>> 8) .& 255 :: v .& 255 :: rest).
  rewrite GET_32_value by apply land_255_byte.
  f_equal. rewrite !land_255, !shiftr_div by lia.
  change (2 ^ 24) with 16777216; change (2 ^ 16) with 65536; change (2 ^ 8) with 256.
  unfold u32; change (2 ^ 32) with 4294967296.
  Z.div_mod_to_equations; lia.
Qed.

Create HintDb wire.
#[export] Hint Resolve PUT_16_bytes PUT_32_bytes land_255_byte u8_range : wire.
Create Rewrite HintDb wire.
#[export] Hint Rewrite GET_PUT_16 GET_PUT_32 : wire.

(** ** Buffers *)

(** [memcpy(buf + off, d, length d)] on an object of [length buf] bytes. *)
Definition splice {A} (off : nat) (d buf : list A) : list A :=
  take off buf ++ d ++ drop (off + length d) buf.

Lemma splice_length {A} off (d buf : list A) :
  (off + length d <= length buf)%nat → length (splice off d buf) = length buf.
Proof.
  intros. unfold splice. rewrite !length_app, length_take, length_drop. lia.
Qed.

Lemma splice_take {A} off (d buf : list A) n :
  (n <= off <= length buf)%nat → take n (splice off d buf) = take n buf.
Proof.
  intros. unfold splice. rewrite take_app_le by (rewrite length_take; lia).
  rewrite take_take. f_equal; lia.
Qed.

Lemma splice_read {A} off (d buf : list A) :
  (off <= length buf)%nat → take (length d) (drop off (splice off d buf)) = d.
Proof.
  intros. unfold splice. rewrite drop_app_length'.
  - by rewrite take_app_length.
  - rewrite length_take; lia.
Qed.

Lemma splice_take_part {A} off k (d buf : list A) :
  (off <= length buf)%nat → (k <= length d)%nat →
  take (off + k) (splice off d buf) = take off buf ++ take k d.
Proof.
  intros. unfold splice. rewrite take_app_ge by (rewrite length_take; lia). f_equal.
  rewrite length_take, take_app_le by lia. f_equal. lia.
Qed.

(** What follows the copied bytes is unchanged. *)
Lemma splice_drop {A} off n (d buf : list A) :
  (off + length d <= n)%nat → (off + length d <= length buf)%nat →
  drop n (splice off d buf) = drop n buf.
Proof.
  intros. unfold splice. rewrite app_assoc, drop_app_ge by (rewrite length_app, length_take; lia).
  rewrite drop_drop. f_equal. rewrite length_app, length_take. lia.
Qed.

Lemma splice_take_all {A} off (d buf : list A) :
  (off <= length buf)%nat → take (off + length d) (splice off d buf) = take off buf ++ d.
Proof.
  intros. unfold splice. rewrite (app_assoc (take off buf) d).
  apply take_app_length'. rewrite length_app, length_take. lia.
Qed.

(** ** Lists *)

#[export] Hint Resolve Forall_drop Forall_take : wire.

(** Lists equal up to the association of [++], and lengths of such lists. *)
Ltac app_eq := repeat first [rewrite <- app_assoc | progress cbn [app]]; done.
Ltac len_eq := repeat first [rewrite length_app | progress cbn [length]]; lia.

(** Boolean comparisons of naturals in the context, as propositions. *)
Ltac nat_bools :=
  repeat match goal with
  | H : (_ <=? _)%nat = true |- _ => apply Nat.leb_le in H
  | H : (_ <=? _)%nat = false |- _ => apply Nat.leb_gt in H
  | H : (_ <? _)%nat = true |- _ => apply Nat.ltb_lt in H
  | H : (_ <? _)%nat = false |- _ => apply Nat.ltb_ge in H
  | H : (_ =? _)%nat = true |- _ => apply Nat.eqb_eq in H
  | H : (_ =? _)%nat = false |- _ => apply Nat.eqb_neq in H
  end.
