(* ===== verification/CString.v ===== *)
(** * C strings

    What the sources use of the C library's string functions.  A string is the list
    of its non-zero bytes; a pointer into a string is the suffix it points to, so
    [strchr], [strstr] and the end pointer of [strtol] return suffixes.  Character
    classification and case folding are those of the C locale. *)

From Stdlib Require Import String Ascii.
From S2P Require Import Prelude.

Local Open Scope Z_scope.
Local Open Scope c_scope.

(** A string literal of the source.  [%string] literals hold no double quote; the
    quote is [dquote]. *)
Definition lit (s : string) : list Z :=
  map (λ a, Z.of_N (N_of_ascii a)) (list_ascii_of_string s).

Definition dquote : Z := 34.
Definition CR : Z := 13.
Definition LF : Z := 10.
Definition SP : Z := 32.

Definition tolower (c : Z) : Z := if (65 <=? c) && (c <=? 90) then c + 32 else c.
Definition isdigit (c : Z) : bool := (48 <=? c) && (c <=? 57).
Definition isspace (c : Z) : bool := (c =? 32) || ((9 <=? c) && (c <=? 13)).

(** [!strcmp(a, b)], [!strncmp(a, b, n)] and their case-insensitive forms. *)
Definition streq (a b : list Z) : bool := bool_decide (a = b).
Definition strneq (a b : list Z) (n : nat) : bool := bool_decide (take n a = take n b).
Definition strcaseeq (a b : list Z) : bool := bool_decide (map tolower a = map tolower b).
Definition strncaseeq (a b : list Z) (n : nat) : bool :=
  bool_decide (take n (map tolower a) = take n (map tolower b)).

Fixpoint strchr (s : list Z) (c : Z) : option (list Z) :=
  match s with
  | [] => None
  | x :: s' => if x =? c then Some s else strchr s' c
  end.

Fixpoint strrchr (s : list Z) (c : Z) : option (list Z) :=
  match s with
  | [] => None
  | x :: s' =>
      match strrchr s' c with
      | Some r => Some r
      | None => if x =? c then Some s else None
      end
  end.

(** A C string: the bytes before the first NUL. *)
Fixpoint upto_nul (l : list Z) : list Z :=
  match l with [] => [] | c :: l => if c =? 0 then [] else c :: upto_nul l end.

Fixpoint strstr (s t : list Z) : option (list Z) :=
  if bool_decide (take (length t) s = t) then Some s
  else match s with [] => None | _ :: s' => strstr s' t end.

(** The longest prefix of decimal digits, accumulated. *)
Fixpoint scan_digits (acc : Z) (s : list Z) : Z * list Z :=
  match s with
  | c :: s' => if isdigit c then scan_digits (acc * 10 + (c - 48)) s' else (acc, s)
  | [] => (acc, [])
  end.

Fixpoint skip_space (s : list Z) : list Z :=
  match s with
  | c :: s' => if isspace c then skip_space s' else s
  | [] => []
  end.

(** [long] has 32 bits on the target; [strtol] saturates. *)
Definition clamp_long (z : Z) : Z := Z.max (-2147483648) (Z.min 2147483647 z).

(** [strtol(s, &end, 10)]: the value and the suffix [end] points to, which is [s]
    itself when no digit was found. *)
Definition strtol (s : list Z) : Z * list Z :=
  let p := skip_space s in
  let '(sign, p) :=
    match p with
    | c :: p' => if c =? 45 then (-1, p') else if c =? 43 then (1, p') else (1, p)
    | [] => (1, [])
    end in
  match p with
  | c :: _ =>
      if isdigit c then
        let '(v, rest) := scan_digits 0 p in (clamp_long (sign * v), rest)
      else (0, s)
  | [] => (0, s)
  end.

(** [%d]: decimal digits, most significant first. *)
Fixpoint digits_aux (fuel : nat) (n : Z) (acc : list Z) : list Z :=
  match fuel with
  | O => acc
  | S fuel =>
      let acc := 48 + n mod 10 :: acc in
      if n / 10 =? 0 then acc else digits_aux fuel (n / 10) acc
  end.

Definition udec (n : Z) : list Z := digits_aux (S (Z.to_nat (Z.log2 n))) n [].
Definition dec (n : Z) : list Z := if n <? 0 then 45 :: udec (- n) else udec n.

(** [%02x] and [%02X] of a byte. *)
Definition hexdigit (d : Z) : Z := if d <? 10 then 48 + d else 87 + d.
Definition HEXdigit (d : Z) : Z := if d <? 10 then 48 + d else 55 + d.
Definition hex2 (b : Z) : list Z := [hexdigit (b / 16); hexdigit (b mod 16)].
Definition HEX2 (b : Z) : list Z := [HEXdigit (b / 16); HEXdigit (b mod 16)].

(** The string a [char] pointer at offset [off] of an object denotes: the bytes up to
    the first NUL, [None] when there is none before the end of the object. *)
Fixpoint take_string (l : list Z) : option (list Z) :=
  match l with
  | [] => None
  | c :: l' => if c =? 0 then Some [] else cons c <$> take_string l'
  end.

Definition string_at (buf : list Z) (off : nat) : option (list Z) := take_string (drop off buf).

(** ** Lemmas *)

Definition no_nul (s : list Z) : Prop := Forall (λ c, c ≠ 0) s.

Lemma streq_true a b : streq a b = true ↔ a = b.
Proof. apply bool_decide_eq_true. Qed.

Lemma streq_refl a : streq a a = true.
Proof. by apply streq_true. Qed.

Lemma strcaseeq_refl a : strcaseeq a a = true.
Proof. by apply bool_decide_eq_true. Qed.

Lemma take_string_app s rest : no_nul s → take_string (s ++ 0 :: rest) = Some s.
Proof.
  induction 1 as [|c s Hc Hs IH]; simpl; [done|].
  destruct (Z.eqb_spec c 0); [done|]. by rewrite IH.
Qed.

Lemma take_string_no_nul l s : take_string l = Some s → no_nul s.
Proof.
  revert s. induction l as [|c l IH]; intros s; simpl; [done|].
  destruct (Z.eqb_spec c 0) as [->|Hc]; [intros [= <-]; constructor|].
  destruct (take_string l); simpl; [|done]. intros [= <-]. constructor; [done|]. by apply IH.
Qed.

Lemma scan_digits_app acc s rest :
  Forall (λ c, isdigit c = true) s →
  (∀ c r, rest = c :: r → isdigit c = false) →
  scan_digits acc (s ++ rest) = (foldl (λ a c, a * 10 + (c - 48)) acc s, rest).
Proof.
  intros Hs Hr. revert acc. induction Hs as [|c s Hc Hs IH]; intros acc; simpl.
  - destruct rest as [|c r]; [done|]. simpl. by rewrite (Hr c r).
  - rewrite Hc. apply IH.
Qed.

Lemma digits_aux_spec fuel n acc :
  0 <= n < 10 ^ Z.of_nat fuel → (0 < fuel)%nat →
  ∃ ds, digits_aux fuel n acc = ds ++ acc ∧ ds ≠ [] ∧ Forall (λ c, isdigit c = true) ds ∧
    ∀ a, foldl (λ a c, a * 10 + (c - 48)) a ds = a * 10 ^ Z.of_nat (length ds) + n.
Proof.
  revert n acc. induction fuel as [|fuel IH]; intros n acc Hn Hf; [lia|]. simpl.
  assert (isdigit (48 + n mod 10) = true) as Hd.
  { unfold isdigit. pose proof (Z.mod_pos_bound n 10). lia. }
  destruct (Z.eqb_spec (n / 10) 0) as [E|E].
  - exists [48 + n mod 10]. split_and!; [done|done|by constructor|]. intros a. simpl.
    change (Z.pow_pos 10 1) with 10. Z.div_mod_to_equations; lia.
  - assert (0 < fuel)%nat.
    { destruct fuel; [|lia]. simpl in Hn. change (Z.pow_pos 10 1) with 10 in Hn.
      Z.div_mod_to_equations; lia. }
    destruct (IH (n / 10) (48 + n mod 10 :: acc)) as (ds & E1 & E2 & E3 & E4); [|done|].
    { rewrite Nat2Z.inj_succ, Z.pow_succ_r in Hn by lia.
      split; [apply Z.div_pos; lia|]. apply Z.div_lt_upper_bound; lia. }
    exists (ds ++ [48 + n mod 10]). split_and!.
    + by rewrite E1, <- app_assoc.
    + by destruct ds.
    + apply Forall_app; split; [done|by constructor].
    + intros a. rewrite foldl_app, E4, length_app, Nat2Z.inj_add, Z.pow_add_r by lia. simpl.
      change (Z.pow_pos 10 1) with 10. Z.div_mod_to_equations; lia.
Qed.

Lemma udec_spec n :
  0 <= n →
  udec n ≠ [] ∧ Forall (λ c, isdigit c = true) (udec n) ∧
  foldl (λ a c, a * 10 + (c - 48)) 0 (udec n) = n.
Proof.
  intros Hn. unfold udec.
  destruct (digits_aux_spec (S (Z.to_nat (Z.log2 n))) n []) as (ds & E1 & E2 & E3 & E4).
  - rewrite Nat2Z.inj_succ, Z2Nat.id by apply Z.log2_nonneg. split; [done|].
    destruct (Z.eq_dec n 0) as [->|]; [done|].
    apply Z.lt_le_trans with (2 ^ Z.succ (Z.log2 n)); [apply Z.log2_spec; lia|].
    apply Z.pow_le_mono_l. lia.
  - lia.
  - rewrite E1, app_nil_r. split_and!; [done|done|]. rewrite E4. lia.
Qed.

(** Reading back a printed non-negative number with [strtol]. *)
Lemma strtol_udec n rest :
  0 <= n <= 2147483647 → (∀ c r, rest = c :: r → isdigit c = false) →
  strtol (udec n ++ rest) = (n, rest).
Proof.
  intros Hn Hr. destruct (udec_spec n) as (E1 & E2 & E3); [lia|].
  unfold strtol. destruct (udec n) as [|c ds] eqn:E; [done|].
  pose proof (Forall_inv E2) as Hc. cbn [skip_space app].
  assert (isspace c = false) as -> by (unfold isspace, isdigit in *; lia).
  assert ((c =? 45) = false) as -> by (unfold isdigit in *; lia).
  assert ((c =? 43) = false) as -> by (unfold isdigit in *; lia).
  rewrite Hc, app_comm_cons, (scan_digits_app 0 (c :: ds) rest) by done.
  unfold clamp_long. rewrite E3. f_equal. lia.
Qed.

Lemma udec_no_nul n : 0 <= n → no_nul (udec n).
Proof.
  intros Hn. destruct (udec_spec n Hn) as (_ & H & _).
  eapply Forall_impl; [exact H|]. intros c Hc. unfold isdigit in Hc. lia.
Qed.

Lemma upto_nul_id s : no_nul s → upto_nul s = s.
Proof. induction 1 as [|c s Hc _ IH]; [done|]. cbn [upto_nul]. destruct (Z.eqb_spec c 0); [done|]. by rewrite IH. Qed.
