(* ===== verification/Md5.v ===== *)
(** * MD5 ([md5.c], [md5.h])

    The digest behind HTTP/RTSP digest authentication.  [MD5Init], [MD5Update],
    [MD5Final] and [MD5Transform] are the functions of the source on a
    little-endian machine ([byteReverse] is then empty).  The reference is the
    algorithm of RFC 1321 written from its tables: pad, cut into 64-byte blocks,
    run 64 table-driven operations per block.  The result is that feeding a
    message in any pieces computes the reference digest of the whole message. *)

From S2P Require Import Prelude.

Local Open Scope Z_scope.
Local Open Scope c_scope.

(** The accumulator [u32 buf[4]]. *)
Record words := Words { wa : Z; wb : Z; wc : Z; wd : Z }.

(** [struct MD5Context]: the accumulator, the bit count (low word first) and the
    64-byte block being filled. *)
Record MD5Context := MkMD5Context {
  ctx_buf : words;
  ctx_bits0 : Z;
  ctx_bits1 : Z;
  ctx_in : list Z }.

Definition F1 (x y z : Z) : Z := z .^ (x .& (y .^ z)).
Definition F2 (x y z : Z) : Z := F1 z x y.
Definition F3 (x y z : Z) : Z := x .^ y .^ z.
Definition F4 (x y z : Z) : Z := y .^ (x .| u32 (Z.lnot z)).

(** [w += f(x, y, z) + data, w = w<<s | w>>(32-s), w += x] on 32-bit words. *)
Definition MD5STEP (f : Z → Z → Z → Z) (w x y z data s : Z) : Z :=
  let w := u32 (w + (f x y z + data)) in
  let w := u32 (w <<< s) .| (w >>> (32 - s)) in
  u32 (w + x).

(** [((u32 const * ) in)[i]], a little-endian load from the 64-byte block. *)
Definition le_word (block : list Z) (i : nat) : Z :=
  block !!! (4 * i)%nat + block !!! (4 * i + 1)%nat * 2 ^ 8 +
  block !!! (4 * i + 2)%nat * 2 ^ 16 + block !!! (4 * i + 3)%nat * 2 ^ 24.

Definition MD5Transform (buf : words) (block : list Z) : words :=
  a ::= wa buf;;
  b ::= wb buf;;
  c ::= wc buf;;
  d ::= wd buf;;

  a ::= MD5STEP F1 a b c d (le_word block 0 + 0xd76aa478) 7;;
  d ::= MD5STEP F1 d a b c (le_word block 1 + 0xe8c7b756) 12;;
  c ::= MD5STEP F1 c d a b (le_word block 2 + 0x242070db) 17;;
  b ::= MD5STEP F1 b c d a (le_word block 3 + 0xc1bdceee) 22;;
  a ::= MD5STEP F1 a b c d (le_word block 4 + 0xf57c0faf) 7;;
  d ::= MD5STEP F1 d a b c (le_word block 5 + 0x4787c62a) 12;;
  c ::= MD5STEP F1 c d a b (le_word block 6 + 0xa8304613) 17;;
  b ::= MD5STEP F1 b c d a (le_word block 7 + 0xfd469501) 22;;
  a ::= MD5STEP F1 a b c d (le_word block 8 + 0x698098d8) 7;;
  d ::= MD5STEP F1 d a b c (le_word block 9 + 0x8b44f7af) 12;;
  c ::= MD5STEP F1 c d a b (le_word block 10 + 0xffff5bb1) 17;;
  b ::= MD5STEP F1 b c d a (le_word block 11 + 0x895cd7be) 22;;
  a ::= MD5STEP F1 a b c d (le_word block 12 + 0x6b901122) 7;;
  d ::= MD5STEP F1 d a b c (le_word block 13 + 0xfd987193) 12;;
  c ::= MD5STEP F1 c d a b (le_word block 14 + 0xa679438e) 17;;
  b ::= MD5STEP F1 b c d a (le_word block 15 + 0x49b40821) 22;;

  a ::= MD5STEP F2 a b c d (le_word block 1 + 0xf61e2562) 5;;
  d ::= MD5STEP F2 d a b c (le_word block 6 + 0xc040b340) 9;;
  c ::= MD5STEP F2 c d a b (le_word block 11 + 0x265e5a51) 14;;
  b ::= MD5STEP F2 b c d a (le_word block 0 + 0xe9b6c7aa) 20;;
  a ::= MD5STEP F2 a b c d (le_word block 5 + 0xd62f105d) 5;;
  d ::= MD5STEP F2 d a b c (le_word block 10 + 0x02441453) 9;;
  c ::= MD5STEP F2 c d a b (le_word block 15 + 0xd8a1e681) 14;;
  b ::= MD5STEP F2 b c d a (le_word block 4 + 0xe7d3fbc8) 20;;
  a ::= MD5STEP F2 a b c d (le_word block 9 + 0x21e1cde6) 5;;
  d ::= MD5STEP F2 d a b c (le_word block 14 + 0xc33707d6) 9;;
  c ::= MD5STEP F2 c d a b (le_word block 3 + 0xf4d50d87) 14;;
  b ::= MD5STEP F2 b c d a (le_word block 8 + 0x455a14ed) 20;;
  a ::= MD5STEP F2 a b c d (le_word block 13 + 0xa9e3e905) 5;;
  d ::= MD5STEP F2 d a b c (le_word block 2 + 0xfcefa3f8) 9;;
  c ::= MD5STEP F2 c d a b (le_word block 7 + 0x676f02d9) 14;;
  b ::= MD5STEP F2 b c d a (le_word block 12 + 0x8d2a4c8a) 20;;

  a ::= MD5STEP F3 a b c d (le_word block 5 + 0xfffa3942) 4;;
  d ::= MD5STEP F3 d a b c (le_word block 8 + 0x8771f681) 11;;
  c ::= MD5STEP F3 c d a b (le_word block 11 + 0x6d9d6122) 16;;
  b ::= MD5STEP F3 b c d a (le_word block 14 + 0xfde5380c) 23;;
  a ::= MD5STEP F3 a b c d (le_word block 1 + 0xa4beea44) 4;;
  d ::= MD5STEP F3 d a b c (le_word block 4 + 0x4bdecfa9) 11;;
  c ::= MD5STEP F3 c d a b (le_word block 7 + 0xf6bb4b60) 16;;
  b ::= MD5STEP F3 b c d a (le_word block 10 + 0xbebfbc70) 23;;
  a ::= MD5STEP F3 a b c d (le_word block 13 + 0x289b7ec6) 4;;
  d ::= MD5STEP F3 d a b c (le_word block 0 + 0xeaa127fa) 11;;
  c ::= MD5STEP F3 c d a b (le_word block 3 + 0xd4ef3085) 16;;
  b ::= MD5STEP F3 b c d a (le_word block 6 + 0x04881d05) 23;;
  a ::= MD5STEP F3 a b c d (le_word block 9 + 0xd9d4d039) 4;;
  d ::= MD5STEP F3 d a b c (le_word block 12 + 0xe6db99e5) 11;;
  c ::= MD5STEP F3 c d a b (le_word block 15 + 0x1fa27cf8) 16;;
  b ::= MD5STEP F3 b c d a (le_word block 2 + 0xc4ac5665) 23;;

  a ::= MD5STEP F4 a b c d (le_word block 0 + 0xf4292244) 6;;
  d ::= MD5STEP F4 d a b c (le_word block 7 + 0x432aff97) 10;;
  c ::= MD5STEP F4 c d a b (le_word block 14 + 0xab9423a7) 15;;
  b ::= MD5STEP F4 b c d a (le_word block 5 + 0xfc93a039) 21;;
  a ::= MD5STEP F4 a b c d (le_word block 12 + 0x655b59c3) 6;;
  d ::= MD5STEP F4 d a b c (le_word block 3 + 0x8f0ccc92) 10;;
  c ::= MD5STEP F4 c d a b (le_word block 10 + 0xffeff47d) 15;;
  b ::= MD5STEP F4 b c d a (le_word block 1 + 0x85845dd1) 21;;
  a ::= MD5STEP F4 a b c d (le_word block 8 + 0x6fa87e4f) 6;;
  d ::= MD5STEP F4 d a b c (le_word block 15 + 0xfe2ce6e0) 10;;
  c ::= MD5STEP F4 c d a b (le_word block 6 + 0xa3014314) 15;;
  b ::= MD5STEP F4 b c d a (le_word block 13 + 0x4e0811a1) 21;;
  a ::= MD5STEP F4 a b c d (le_word block 4 + 0xf7537e82) 6;;
  d ::= MD5STEP F4 d a b c (le_word block 11 + 0xbd3af235) 10;;
  c ::= MD5STEP F4 c d a b (le_word block 2 + 0x2ad7d2bb) 15;;
  b ::= MD5STEP F4 b c d a (le_word block 9 + 0xeb86d391) 21;;

  Words (u32 (wa buf + a)) (u32 (wb buf + b)) (u32 (wc buf + c)) (u32 (wd buf + d)).

(** The previous content of [in] is left as it was. *)
Definition MD5Init (ctx : MD5Context) : MD5Context :=
  MkMD5Context (Words 0x67452301 0xefcdab89 0x98badcfe 0x10325476) 0 0 (ctx_in ctx).

(** The [while (len >= 64)] loop and the final [memcpy] of [MD5Update]; each
    round consumes 64 bytes, so the length of the data bounds the rounds. *)
Fixpoint update_blocks (fuel : nat) (st : words) (inb data : list Z) : words * list Z :=
  match fuel with
  | S fuel =>
      if (64 <=? length data)%nat then
        let inb := splice 0 (take 64 data) inb in
        update_blocks fuel (MD5Transform st inb) inb (drop 64 data)
      else (st, splice 0 data inb)
  | O => (st, splice 0 data inb)
  end.

Definition MD5Update (ctx : MD5Context) (data : list Z) : MD5Context :=
  let len := Z.of_nat (length data) in
  let t := ctx_bits0 ctx in
  let bits0 := u32 (t + u32 (len <<< 3)) in
  let bits1 := if bits0 <? t then u32 (ctx_bits1 ctx + 1) else ctx_bits1 ctx in
  let bits1 := u32 (bits1 + (len >>> 29)) in
  let t := Z.to_nat ((t >>> 3) .& 0x3f) in
  if (t =? 0)%nat then
    let '(st, inb) := update_blocks (length data) (ctx_buf ctx) (ctx_in ctx) data in
    MkMD5Context st bits0 bits1 inb
  else
    let r := (64 - t)%nat in
    if (length data <? r)%nat then
      MkMD5Context (ctx_buf ctx) bits0 bits1 (splice t data (ctx_in ctx))
    else
      let inb := splice t (take r data) (ctx_in ctx) in
      let st := MD5Transform (ctx_buf ctx) inb in
      let '(st, inb) := update_blocks (length data) st inb (drop r data) in
      MkMD5Context st bits0 bits1 inb.

(** A 32-bit word stored little-endian. *)
Definition le_bytes (w : Z) : list Z :=
  [w .& 255; (w >>> 8) .& 255; (w >>> 16) .& 255; (w >>> 24) .& 255].

(** The digest, and the context as the call leaves it: [memset(ctx, 0,
    sizeof(ctx))] clears the size of the pointer, which is the first word. *)
Definition MD5Final (ctx : MD5Context) : list Z * MD5Context :=
  let count := Z.to_nat ((ctx_bits0 ctx >>> 3) .& 0x3F) in
  let inb := splice count [0x80] (ctx_in ctx) in
  let room := (64 - 1 - count)%nat in
  let '(st, inb) :=
    if (room <? 8)%nat then
      let inb := splice (S count) (replicate room 0) inb in
      (MD5Transform (ctx_buf ctx) inb, splice 0 (replicate 56 0) inb)
    else (ctx_buf ctx, splice (S count) (replicate (room - 8) 0) inb) in
  let inb := splice 56 (le_bytes (ctx_bits0 ctx)) inb in
  let inb := splice 60 (le_bytes (ctx_bits1 ctx)) inb in
  let st := MD5Transform st inb in
  (le_bytes (wa st) ++ le_bytes (wb st) ++ le_bytes (wc st) ++ le_bytes (wd st),
   MkMD5Context (Words 0 (wb st) (wc st) (wd st)) (ctx_bits0 ctx) (ctx_bits1 ctx) inb).

(** ** The reference: RFC 1321 *)

Module RFC1321.

(** The sine table: entry [i] is the integer part of [2^32 * |sin (i+1)|]. *)
Definition T : list Z :=
    [0xd76aa478; 0xe8c7b756; 0x242070db; 0xc1bdceee;
     0xf57c0faf; 0x4787c62a; 0xa8304613; 0xfd469501;
     0x698098d8; 0x8b44f7af; 0xffff5bb1; 0x895cd7be;
     0x6b901122; 0xfd987193; 0xa679438e; 0x49b40821;
     0xf61e2562; 0xc040b340; 0x265e5a51; 0xe9b6c7aa;
     0xd62f105d; 0x02441453; 0xd8a1e681; 0xe7d3fbc8;
     0x21e1cde6; 0xc33707d6; 0xf4d50d87; 0x455a14ed;
     0xa9e3e905; 0xfcefa3f8; 0x676f02d9; 0x8d2a4c8a;
     0xfffa3942; 0x8771f681; 0x6d9d6122; 0xfde5380c;
     0xa4beea44; 0x4bdecfa9; 0xf6bb4b60; 0xbebfbc70;
     0x289b7ec6; 0xeaa127fa; 0xd4ef3085; 0x04881d05;
     0xd9d4d039; 0xe6db99e5; 0x1fa27cf8; 0xc4ac5665;
     0xf4292244; 0x432aff97; 0xab9423a7; 0xfc93a039;
     0x655b59c3; 0x8f0ccc92; 0xffeff47d; 0x85845dd1;
     0x6fa87e4f; 0xfe2ce6e0; 0xa3014314; 0x4e0811a1;
     0xf7537e82; 0xbd3af235; 0x2ad7d2bb; 0xeb86d391].

(** Shift amounts, by round and position in the round. *)
Definition S : list Z :=
  [7; 12; 17; 22; 5; 9; 14; 20; 4; 11; 16; 23; 6; 10; 15; 21].

Definition F (x y z : Z) : Z := (x .& y) .| (Z.lnot x .& z).
Definition G (x y z : Z) : Z := (x .& z) .| (y .& Z.lnot z).
Definition H (x y z : Z) : Z := x .^ y .^ z.
Definition I (x y z : Z) : Z := y .^ (x .| Z.lnot z).

(** Left rotation of a 32-bit word, as arithmetic. *)
Definition rotl (w s : Z) : Z := (w * 2 ^ s) mod 2 ^ 32 + w / 2 ^ (32 - s).

(** Operation [i]: the auxiliary function and the word of the block it uses. *)
Definition aux (i : nat) : Z → Z → Z → Z :=
  match (i / 16)%nat with 0%nat => F | 1%nat => G | 2%nat => H | _ => I end.

Definition index (i : nat) : nat :=
  match (i / 16)%nat with
  | 0%nat => i
  | 1%nat => (5 * i + 1) mod 16
  | 2%nat => (3 * i + 5) mod 16
  | _ => (7 * i) mod 16
  end%nat.

Definition op (block : list Z) (st : words) (i : nat) : words :=
  let '(Words a b c d) := st in
  let s := S !!! (4 * (i / 16) + i mod 4)%nat in
  let sum := u32 (a + aux i b c d + le_word block (index i) + T !!! i) in
  Words d (u32 (b + rotl sum s)) b c.

Definition compress (st : words) (block : list Z) : words :=
  let r := foldl (op block) st (seq 0 64) in
  Words (u32 (wa st + wa r)) (u32 (wb st + wb r)) (u32 (wc st + wc r)) (u32 (wd st + wd r)).

(** Fold the compression function over the first [k] 64-byte blocks. *)
Fixpoint absorb (k : nat) (st : words) (msg : list Z) : words :=
  match k with
  | O => st
  | Datatypes.S k => absorb k (compress st (take 64 msg)) (drop 64 msg)
  end.

Definition init : words := Words 0x67452301 0xefcdab89 0x98badcfe 0x10325476.

(** The message, a one bit, zeros up to 56 modulo 64, the bit length modulo
    [2^64] as two little-endian words. *)
Definition pad (msg : list Z) : list Z :=
  let n := length msg in
  let bits := (8 * Z.of_nat n) mod 2 ^ 64 in
  msg ++ [0x80] ++ replicate ((119 - n mod 64) mod 64)%nat 0 ++
  le_bytes (bits mod 2 ^ 32) ++ le_bytes (bits / 2 ^ 32).

Definition digest (msg : list Z) : list Z :=
  let p := pad msg in
  let st := absorb (length p / 64) init p in
  le_bytes (wa st) ++ le_bytes (wb st) ++ le_bytes (wc st) ++ le_bytes (wd st).

End RFC1321.

(** [MD5Init]; one [MD5Update] per chunk; [MD5Final]. *)
Definition md5_of_chunks (ctx : MD5Context) (chunks : list (list Z)) : list Z :=
  fst (MD5Final (foldl MD5Update (MD5Init ctx) chunks)).

(** ** The compression function *)

Ltac bitwise :=
  apply Z.bits_inj'; intros ? ?;
  rewrite ?Z.lxor_spec, ?Z.land_spec, ?Z.lor_spec, ?Z.lnot_spec, ?Z.lxor_spec, ?Z.land_spec,
    ?Z.lor_spec, ?Z.lnot_spec by done;
  repeat match goal with |- context [Z.testbit ?a ?i] => destruct (Z.testbit a i) end;
  reflexivity.

Lemma F1_F x y z : F1 x y z = RFC1321.F x y z.
Proof. unfold F1, RFC1321.F. bitwise. Qed.

Lemma F2_G x y z : F2 x y z = RFC1321.G x y z.
Proof. unfold F2, F1, RFC1321.G. bitwise. Qed.

Lemma F4_I x y z : u32 (F4 x y z) = u32 (RFC1321.I x y z).
Proof.
  unfold F4, RFC1321.I. rewrite <- !land_u32. change 0xFFFFFFFF with (Z.ones 32).
  apply Z.bits_inj'; intros i Hi.
  rewrite !Z.land_spec, !Z.lxor_spec, !Z.lor_spec, Z.land_spec.
  destruct (Z.testbit (Z.ones 32) i); rewrite ?andb_true_r, ?andb_false_r; reflexivity.
Qed.

Lemma rotl_or w s :
  0 <= w < 2 ^ 32 → 0 <= s <= 32 →
  u32 (w <<< s) .| (w >>> (32 - s)) = RFC1321.rotl w s.
Proof.
  intros Hw Hs. unfold RFC1321.rotl, u32.
  rewrite shiftl_mul, shiftr_div by lia.
  assert (2 ^ 32 = 2 ^ (32 - s) * 2 ^ s) as E by (rewrite <- Z.pow_add_r; f_equal; lia).
  assert (0 < 2 ^ (32 - s)) by (apply Z.pow_pos_nonneg; lia).
  assert (0 < 2 ^ s) by (apply Z.pow_pos_nonneg; lia).
  rewrite E, Z.mul_mod_distr_r by lia.
  rewrite <- (shiftl_mul (w mod _) s) at 1 by lia.
  apply lor_shiftl_add; [lia|].
  split; [apply Z.div_pos; lia|]. apply Z.div_lt_upper_bound; lia.
Qed.

(** One [MD5STEP] is one RFC 1321 operation, for an auxiliary function that agrees
    with the reference on 32 bits. *)
Lemma MD5STEP_op f g w x y z m k s :
  u32 (f x y z) = u32 (g x y z) → 0 <= s <= 32 →
  MD5STEP f w x y z (m + k) s = u32 (x + RFC1321.rotl (u32 (w + g x y z + m + k)) s).
Proof.
  intros Hf Hs. unfold MD5STEP. rewrite rotl_or by (apply u32_range || done).
  replace (u32 (w + (f x y z + (m + k)))) with (u32 (w + g x y z + m + k)).
  - f_equal. apply Z.add_comm.
  - replace (w + g x y z + m + k) with (g x y z + (w + m + k)) by lia.
    replace (w + (f x y z + (m + k))) with (f x y z + (w + m + k)) by lia.
    rewrite <- u32_add_u32_l, <- Hf, u32_add_u32_l. done.
Qed.

Definition agree1 w x y z m k s :=
  MD5STEP_op F1 RFC1321.F w x y z m k s (f_equal u32 (F1_F x y z)).
Definition agree2 w x y z m k s :=
  MD5STEP_op F2 RFC1321.G w x y z m k s (f_equal u32 (F2_G x y z)).
Definition agree3 w x y z m k s :=
  MD5STEP_op F3 RFC1321.H w x y z m k s (eq_refl (u32 (F3 x y z))).
Definition agree4 w x y z m k s :=
  MD5STEP_op F4 RFC1321.I w x y z m k s (F4_I x y z).

Lemma op_at block a b c d i f g k s :
  RFC1321.aux i = f → RFC1321.index i = g → RFC1321.T !!! i = k →
  RFC1321.S !!! (4 * (i / 16) + i mod 4)%nat = s →
  RFC1321.op block (Words a b c d) i =
  Words d (u32 (b + RFC1321.rotl (u32 (a + f b c d + le_word block g + k)) s)) b c.
Proof. by intros <- <- <- <-. Qed.

Lemma foldl_cons {A B} (f : A → B → A) a x l : foldl f a (x :: l) = foldl f (f a x) l.
Proof. reflexivity. Qed.

(** Read operation [i] of the reference from its tables in [H]. *)
Ltac md5_op H i :=
  let f := eval cbv -[RFC1321.F RFC1321.G RFC1321.H RFC1321.I] in (RFC1321.aux i) in
  let g := eval cbv in (RFC1321.index i) in
  let k := eval cbv in (RFC1321.T !!! i) in
  let s := eval cbv in (RFC1321.S !!! (4 * (i / 16) + i mod 4)%nat) in
  rewrite (op_at _ _ _ _ _ i f g k s) in H by (vm_compute; reflexivity).

Lemma MD5Transform_compress st block : MD5Transform st block = RFC1321.compress st block.
Proof.
  unfold RFC1321.compress.
  remember (foldl (RFC1321.op block) st (seq 0 64)) as r eqn:Hr.
  destruct st as [a b c d]. unfold MD5Transform.
  do 4 (eapply assign_eq; [reflexivity|]).
  let l := eval cbv in (seq 0 64) in change (seq 0 64) with l in Hr.
  do 64 (
    lazymatch type of Hr with
    | _ = foldl _ _ (?i :: _) => rewrite foldl_cons in Hr; md5_op Hr i
    end;
    lazymatch type of Hr with
    | context [Words _ (u32 ?v) _ _] =>
        apply (assign_eq _ (u32 v));
        [ first [simple apply agree1 | simple apply agree2
                | simple apply agree3 | simple apply agree4]; lia
        | generalize dependent (u32 v); intros ? Hr ]
    end).
  simpl in Hr. subst r. reflexivity.
Qed.

(** ** Feeding a message in pieces *)

#[local] Arguments MD5Transform : simpl never.
#[local] Arguments RFC1321.compress : simpl never.

Lemma absorb_app k1 k2 st m :
  RFC1321.absorb (k1 + k2) st m = RFC1321.absorb k2 (RFC1321.absorb k1 st m) (drop (64 * k1) m).
Proof.
  revert st m. induction k1 as [|k1 IH]; intros st m; [by rewrite drop_0|].
  change (S k1 + k2)%nat with (S (k1 + k2)). cbn [RFC1321.absorb].
  rewrite IH, drop_drop. do 2 f_equal. lia.
Qed.

Lemma absorb_prefix k st m m' :
  (64 * k <= length m)%nat → RFC1321.absorb k st (m ++ m') = RFC1321.absorb k st m.
Proof.
  revert st m. induction k as [|k IH]; intros st m Hlen; [done|]. cbn [RFC1321.absorb].
  rewrite take_app_le, drop_app_le by lia. apply IH. rewrite length_drop. lia.
Qed.

Lemma absorb_one st m : RFC1321.absorb 1 st m = RFC1321.compress st (take 64 m).
Proof. reflexivity. Qed.

Lemma absorb_two st m :
  RFC1321.absorb 2 st m = RFC1321.compress (RFC1321.compress st (take 64 m)) (take 64 (drop 64 m)).
Proof. reflexivity. Qed.

(** Two [splice]s of adjacent data read as one. *)
Lemma splice_full {A} off (d buf : list A) :
  (off + length d = length buf)%nat → splice off d buf = take off buf ++ d.
Proof. intros. unfold splice. rewrite drop_ge by lia. by rewrite app_nil_r. Qed.

Lemma update_blocks_spec fuel st inb data :
  length inb = 64%nat → (length data <= fuel * 64)%nat →
  (update_blocks fuel st inb data).1 = RFC1321.absorb (length data / 64) st data ∧
  length (update_blocks fuel st inb data).2 = 64%nat ∧
  take (length data mod 64) (update_blocks fuel st inb data).2
    = drop (64 * (length data / 64)) data.
Proof.
  revert st inb data. induction fuel as [|fuel IH]; intros st inb data Hin Hf;
    cbn [update_blocks].
  - assert (data = []) as -> by (apply nil_length_inv; lia).
    cbn [fst snd]. split_and!; [done| |done]. rewrite splice_length; simpl; lia.
  - destruct (Nat.leb_spec 64 (length data)) as [H64|H64].
    + assert (splice 0 (take 64 data) inb = take 64 data) as ->.
      { rewrite splice_full; [done|]. rewrite length_take. lia. }
      assert (length data / 64 = S (length (drop 64 data) / 64))%nat as Eq.
      { rewrite length_drop. replace (length data) with ((length data - 64) + 1 * 64)%nat at 1 by lia.
        rewrite Nat.div_add by lia. lia. }
      assert (length data mod 64 = length (drop 64 data) mod 64)%nat as Er.
      { rewrite length_drop. replace (length data) with ((length data - 64) + 1 * 64)%nat at 1 by lia.
        by rewrite Nat.Div0.mod_add. }
      rewrite Eq, Er, MD5Transform_compress.
      destruct (IH (RFC1321.compress st (take 64 data)) (take 64 data) (drop 64 data))
        as (H1 & H2 & H3); [rewrite length_take; lia|rewrite length_drop; lia|].
      split_and!; [done|done|]. rewrite H3, drop_drop. f_equal. lia.
    + rewrite Nat.div_small, Nat.mod_small by lia. cbn [fst snd].
      split_and!; [done| |].
      * rewrite splice_length; lia.
      * rewrite drop_0. apply (splice_read 0). lia.
Qed.

(** The context stands for the message [msg]: complete blocks are absorbed, the
    rest is at the head of the block buffer, and the two counters hold its length
    in bits modulo [2^64]. *)
Record ctx_inv (ctx : MD5Context) (msg : list Z) : Prop := {
  inv_buf : ctx_buf ctx = RFC1321.absorb (length msg / 64) RFC1321.init msg;
  inv_len : length (ctx_in ctx) = 64%nat;
  inv_in : take (length msg mod 64) (ctx_in ctx) = drop (64 * (length msg / 64)) msg;
  inv_bits0 : 0 <= ctx_bits0 ctx < 2 ^ 32;
  inv_bits1 : 0 <= ctx_bits1 ctx < 2 ^ 32;
  inv_bits : ctx_bits0 ctx + 2 ^ 32 * ctx_bits1 ctx = (8 * Z.of_nat (length msg)) mod 2 ^ 64 }.

Lemma MD5Init_inv ctx : length (ctx_in ctx) = 64%nat → ctx_inv (MD5Init ctx) [].
Proof. intros. constructor; simpl; try done; lia. Qed.

(** The bytes pending in the block, as the code reads them off the bit count. *)
Lemma pending_bytes ctx msg :
  ctx_inv ctx msg → Z.to_nat ((ctx_bits0 ctx >>> 3) .& 63) = (length msg mod 64)%nat.
Proof.
  intros Hi. pose proof (inv_bits _ _ Hi). pose proof (inv_bits0 _ _ Hi).
  pose proof (inv_bits1 _ _ Hi).
  rewrite shiftr_div by lia. rewrite (Z.land_ones _ 6) by lia.
  change (2 ^ 3) with 8. change (2 ^ 6) with 64.
  change (2 ^ 32) with 4294967296 in *. change (2 ^ 64) with 18446744073709551616 in *.
  apply Nat2Z.inj. rewrite Nat2Z.inj_mod, Z2Nat.id by (apply Z.mod_pos_bound; lia).
  change (Z.of_nat 64) with 64. Z.div_mod_to_equations. lia.
Qed.

(** The counter update of [MD5Update]. *)
Lemma bit_count_update b0 b1 n len b0' b1' :
  0 <= b0 < 2 ^ 32 → 0 <= b1 < 2 ^ 32 → 0 <= len < 2 ^ 32 → 0 <= n →
  b0 + 2 ^ 32 * b1 = (8 * n) mod 2 ^ 64 →
  b0' = u32 (b0 + u32 (len <<< 3)) →
  b1' = u32 ((if b0' <? b0 then u32 (b1 + 1) else b1) + (len >>> 29)) →
  0 <= b0' < 2 ^ 32 ∧ 0 <= b1' < 2 ^ 32 ∧ b0' + 2 ^ 32 * b1' = (8 * (n + len)) mod 2 ^ 64.
Proof.
  intros H0 H1 Hl Hn Hb E0 E1.
  rewrite shiftl_mul in E0 by lia. rewrite shiftr_div in E1 by lia.
  change (2 ^ 3) with 8 in *. change (2 ^ 29) with 536870912 in *.
  unfold_widths. change (2 ^ 32) with 4294967296 in *.
  destruct (Z.ltb_spec b0' b0); subst b1'; Z.div_mod_to_equations; lia.
Qed.

(** Absorbing [data] after a message that ends on a block boundary. *)
Lemma aligned_update msg data st inb fuel :
  (length msg mod 64 = 0)%nat → length inb = 64%nat → (length data <= fuel * 64)%nat →
  st = RFC1321.absorb (length msg / 64) RFC1321.init msg →
  let n := length (msg ++ data) in
  (update_blocks fuel st inb data).1 = RFC1321.absorb (n / 64) RFC1321.init (msg ++ data) ∧
  length (update_blocks fuel st inb data).2 = 64%nat ∧
  take (n mod 64) (update_blocks fuel st inb data).2 = drop (64 * (n / 64)) (msg ++ data).
Proof.
  intros Hm Hin Hf -> n.
  destruct (update_blocks_spec fuel (RFC1321.absorb (length msg / 64) RFC1321.init msg) inb data)
    as (H1 & H2 & H3); [done..|].
  pose proof (Nat.div_mod_eq (length msg) 64) as Ek.
  set (k := (length msg / 64)%nat) in *.
  assert (n = length data + k * 64)%nat as En by (unfold n; rewrite length_app; lia).
  rewrite En, Nat.div_add, Nat.Div0.mod_add by lia. rewrite H1, H3.
  split_and!; [|done|].
  - rewrite (Nat.add_comm (length data / 64)), absorb_app.
    rewrite absorb_prefix by lia. by rewrite drop_app_length' by lia.
  - replace (64 * (length data / 64 + k))%nat with (length msg + 64 * (length data / 64))%nat by lia.
    by rewrite drop_app_add' by done.
Qed.

Lemma MD5Update_inv ctx msg data :
  ctx_inv ctx msg → Z.of_nat (length data) < 2 ^ 32 → ctx_inv (MD5Update ctx data) (msg ++ data).
Proof.
  intros Hi Hlen. pose proof Hi as [Hbuf Hin Htk Hb0 Hb1 Hb].
  unfold MD5Update. rewrite (pending_bytes _ _ Hi).
  set (bits0 := u32 (ctx_bits0 ctx + _)). set (bits1 := u32 (_ + _)).
  assert (0 <= bits0 < 2 ^ 32 ∧ 0 <= bits1 < 2 ^ 32 ∧
    bits0 + 2 ^ 32 * bits1 = (8 * Z.of_nat (length (msg ++ data))) mod 2 ^ 64) as (C0 & C1 & C).
  { rewrite length_app, Nat2Z.inj_add.
    eapply bit_count_update; [exact Hb0|exact Hb1|lia|lia|exact Hb|reflexivity|reflexivity]. }
  clearbody bits0 bits1.
  set (t := (length msg mod 64)%nat) in *.
  pose proof (Nat.mod_upper_bound (length msg) 64 ltac:(lia)) as Ht.
  pose proof (Nat.div_mod_eq (length msg) 64) as Ek. fold t in Ht, Ek.
  set (k := (length msg / 64)%nat) in *.
  destruct (Nat.eqb_spec t 0) as [Ht0|Ht0].
  { destruct (aligned_update msg data (ctx_buf ctx) (ctx_in ctx) (length data))
      as (A1 & A2 & A3); [done|done|lia|done|].
    destruct (update_blocks _ _ _ _) as [st inb]. by constructor. }
  destruct (Nat.ltb_spec (length data) (64 - t)) as [Hs|Hs].
  - assert (length (msg ++ data) / 64 = k)%nat as Ed.
    { rewrite length_app. symmetry. apply (Nat.div_unique _ _ _ (t + length data)); lia. }
    assert (length (msg ++ data) mod 64 = t + length data)%nat as Em.
    { rewrite length_app. symmetry. apply (Nat.mod_unique _ _ k); lia. }
    constructor; cbn [ctx_buf ctx_in ctx_bits0 ctx_bits1]; [| | |done|done|done].
    + rewrite Ed, absorb_prefix by lia. done.
    + rewrite splice_length; lia.
    + rewrite Ed, Em, splice_take_all, Htk by lia. by rewrite drop_app_le by lia.
  - set (r := (64 - t)%nat). set (msg' := msg ++ take r data).
    assert (length msg' = (k + 1) * 64)%nat as Hm'.
    { unfold msg', r. rewrite length_app, length_take. lia. }
    assert (splice t (take r data) (ctx_in ctx) = take 64 (drop (64 * k) msg')) as ->.
    { rewrite splice_full by (rewrite length_take; lia).
      rewrite Htk. unfold msg'. rewrite drop_app_le by lia.
      symmetry. apply take_ge. rewrite length_app, length_drop, length_take. lia. }
    destruct (aligned_update msg' (drop r data)
      (MD5Transform (ctx_buf ctx) (take 64 (drop (64 * k) msg'))) (take 64 (drop (64 * k) msg'))
      (length data)) as (A1 & A2 & A3).
    + rewrite Hm'. apply Nat.Div0.mod_mul.
    + rewrite length_take, length_drop. lia.
    + rewrite length_drop. lia.
    + rewrite Hm', Nat.div_mul, absorb_app, absorb_one, MD5Transform_compress, Hbuf by lia.
      unfold msg'. by rewrite absorb_prefix by lia.
    + assert (msg' ++ drop r data = msg ++ data) as Em
        by (unfold msg'; rewrite <- app_assoc, take_drop; done).
      rewrite Em in *.
      destruct (update_blocks _ _ _ _) as [st inb]. by constructor.
Qed.

(** The last block of a padded message: [pre] is what the buffer holds, and the
    zeros and the bit count fill it up. *)
Lemma fill_last_block inb pre z b0 b1 :
  length inb = 64%nat → take (length pre) inb = pre → (length pre + z = 56)%nat →
  splice 60 (le_bytes b1) (splice 56 (le_bytes b0) (splice (length pre) (replicate z 0) inb))
  = pre ++ replicate z 0 ++ le_bytes b0 ++ le_bytes b1.
Proof.
  intros Hin Hpre Hz.
  set (x2 := splice (length pre) (replicate z 0) inb).
  assert (length x2 = 64%nat) as L2.
  { unfold x2. rewrite splice_length; [done|]. rewrite length_replicate. lia. }
  assert (take 56 x2 = pre ++ replicate z 0) as T2.
  { unfold x2.
    replace 56%nat with (length pre + length (replicate z 0%Z))%nat by (rewrite length_replicate; lia).
    rewrite splice_take_all; [by rewrite Hpre|lia]. }
  set (x3 := splice 56 (le_bytes b0) x2).
  assert (length x3 = 64%nat) as L3 by (unfold x3; rewrite splice_length; simpl; lia).
  assert (take 60 x3 = pre ++ replicate z 0 ++ le_bytes b0) as T3.
  { unfold x3. rewrite (splice_take_all 56 (le_bytes b0)) by lia. by rewrite T2, <- app_assoc. }
  rewrite splice_full by (simpl; lia). by rewrite T3, <- !app_assoc.
Qed.

Lemma MD5Final_digest ctx msg : ctx_inv ctx msg → fst (MD5Final ctx) = RFC1321.digest msg.
Proof.
  intros Hi. pose proof Hi as [Hbuf Hin Htk Hb0 Hb1 Hb].
  unfold MD5Final, RFC1321.digest. cbv zeta. rewrite (pending_bytes _ _ Hi).
  pose proof (Nat.mod_upper_bound (length msg) 64 ltac:(lia)) as Ht.
  pose proof (Nat.div_mod_eq (length msg) 64) as Ek.
  unfold RFC1321.pad. rewrite <- Hb.
  assert ((ctx_bits0 ctx + 2 ^ 32 * ctx_bits1 ctx) mod 2 ^ 32 = ctx_bits0 ctx) as ->.
  { rewrite Z.mul_comm, Z.mod_add by done. apply Z.mod_small. done. }
  assert ((ctx_bits0 ctx + 2 ^ 32 * ctx_bits1 ctx) / 2 ^ 32 = ctx_bits1 ctx) as ->.
  { rewrite Z.mul_comm, Z.div_add, Z.div_small by done. lia. }
  set (t := (length msg mod 64)%nat) in *. set (k := (length msg / 64)%nat) in *.
  set (x1 := splice t [128] (ctx_in ctx)).
  set (tl := drop (64 * k) msg) in *.
  assert (length tl = t) as Htl by (unfold tl; rewrite length_drop; lia).
  assert (length x1 = 64%nat) as L1 by (unfold x1; rewrite splice_length; simpl; lia).
  assert (take (S t) x1 = tl ++ [128]) as T1.
  { unfold x1. replace (S t) with (t + length [128%Z])%nat by (simpl; lia).
    rewrite splice_take_all, Htk by lia. done. }
  assert (length (tl ++ [128]) = S t) as Ltl by (rewrite length_app; simpl; lia).
  assert (∀ p, drop (64 * k) (msg ++ p) = tl ++ p) as Hdrop
    by (intros; rewrite drop_app_le by lia; done).
  destruct (Nat.ltb_spec (64 - 1 - t) 8) as [Hr|Hr].
  - replace ((119 - t) mod 64)%nat with (119 - t)%nat by (rewrite Nat.mod_small; lia).
    set (p := [128] ++ _ ++ _).
    assert (length (msg ++ p) = (k + 2) * 64)%nat as Hp.
    { unfold p. rewrite !length_app, length_replicate. simpl. lia. }
    rewrite Hp, Nat.div_mul, (absorb_app k 2), absorb_prefix, <- Hbuf, Hdrop by lia.
    rewrite absorb_two.
    assert (splice (S t) (replicate (64 - 1 - t) 0) x1 = tl ++ [128] ++ replicate (63 - t) 0) as ->.
    { rewrite splice_full by (rewrite length_replicate; lia). by rewrite T1, <- app_assoc. }
    assert (tl ++ p = (tl ++ [128] ++ replicate (63 - t) 0) ++
      (replicate 56 0 ++ le_bytes (ctx_bits0 ctx) ++ le_bytes (ctx_bits1 ctx))) as ->.
    { unfold p. replace (119 - t)%nat with (63 - t + 56)%nat by lia.
      rewrite replicate_add, <- !app_assoc. done. }
    assert (length (tl ++ [128] ++ replicate (63 - t) 0) = 64%nat) as L64
      by (rewrite !length_app, length_replicate; simpl; lia).
    rewrite take_app_length', drop_app_length' by done.
    rewrite (take_ge (replicate 56 0 ++ _)) by done.
    rewrite !MD5Transform_compress.
    pose proof (fill_last_block (tl ++ [128] ++ replicate (63 - t) 0) [] 56 (ctx_bits0 ctx)
      (ctx_bits1 ctx) L64 eq_refl eq_refl) as E.
    change (length []) with 0%nat in E. rewrite E. reflexivity.
  - replace ((119 - t) mod 64)%nat with (55 - t)%nat.
    2:{ replace (119 - t)%nat with (55 - t + 1 * 64)%nat by lia.
        rewrite Nat.Div0.mod_add, Nat.mod_small; lia. }
    set (p := [128] ++ _ ++ _).
    assert (length (msg ++ p) = (k + 1) * 64)%nat as Hp.
    { unfold p. rewrite !length_app, length_replicate. simpl. lia. }
    rewrite Hp, Nat.div_mul, (absorb_app k 1), absorb_prefix, <- Hbuf, Hdrop, absorb_one by lia.
    rewrite MD5Transform_compress.
    pose proof (fill_last_block x1 (tl ++ [128]) (55 - t) (ctx_bits0 ctx) (ctx_bits1 ctx)) as E.
    rewrite Ltl in E. replace (64 - 1 - t - 8)%nat with (55 - t)%nat by lia.
    rewrite E by (done || lia). unfold p.
    rewrite <- app_assoc, take_ge; [reflexivity|].
    rewrite !length_app, length_replicate. simpl. lia.
Qed.

Lemma foldl_update_inv chunks ctx msg :
  ctx_inv ctx msg → Forall (λ c, Z.of_nat (length c) < 2 ^ 32) chunks →
  ctx_inv (foldl MD5Update ctx chunks) (msg ++ concat chunks).
Proof.
  intros Hi Hc. revert ctx msg Hi.
  induction Hc as [|c cs Hc _ IH]; intros ctx msg Hi; simpl.
  - by rewrite app_nil_r.
  - rewrite app_assoc. by apply IH, MD5Update_inv.
Qed.

(** C35: The streaming implementation computes MD5 -- whatever the earlier content
    of the context and however the message is cut into [MD5Update] calls (each
    shorter than [2^32] bytes), [MD5Final] returns the RFC 1321 digest of the
    concatenated message. *)
Theorem md5_chunks_correct ctx chunks :
  length (ctx_in ctx) = 64%nat →
  Forall (λ c, Z.of_nat (length c) < 2 ^ 32) chunks →
  md5_of_chunks ctx chunks = RFC1321.digest (concat chunks).
Proof.
  intros Hin Hc. unfold md5_of_chunks. apply MD5Final_digest.
  apply (foldl_update_inv chunks _ []); [by apply MD5Init_inv|done].
Qed.

(** An instance with the digest of [abc], fed as [a] and [bc]. *)
Lemma md5_chunks_correct_witness :
  let ctx := MkMD5Context (Words 0 0 0 0) 0 0 (replicate 64 7) in
  md5_of_chunks ctx [[97]; [98; 99]] = RFC1321.digest [97; 98; 99] ∧
  RFC1321.digest [97; 98; 99] =
    [0x90; 0x01; 0x50; 0x98; 0x3c; 0xd2; 0x4f; 0xb0; 0xd6; 0x96; 0x3f; 0x7d; 0x28; 0xe1; 0x7f; 0x72].
Proof.
  split; [|vm_compute; reflexivity].
  apply (md5_chunks_correct (MkMD5Context (Words 0 0 0 0) 0 0 (replicate 64 7)) [[97]; [98; 99]]).
  - reflexivity.
  - repeat constructor.
Defined.
