(* ===== verification/Pmsg.v ===== *)
(** * Protocol messages ([pmsg.c], [pmsg.h])

    The request/response messages of RTSP and HTTP.  A message owns one buffer
    ([msg], of [max_len] bytes); method, URI, protocol, reason and header fields are
    pointers into that buffer, here offsets, and the strings they denote end at the
    first NUL.  [parse_pmsg] works in place: it overwrites separators with NULs. *)

From Stdlib Require Import String.
From S2P Require Import Prelude CString.

Local Open Scope Z_scope.

Definition MAX_FIELDS : nat := 32.

(** [struct hdrf]. *)
Record hdrf := Hdrf { h_name : nat; h_value : nat }.

(** The [type] tag with the union [sl] it selects; a pointer may be NULL. *)
Inductive sline :=
| PMSG_REQ (method uri : nat)
| PMSG_RESP (code : Z) (reason : option nat).

(** [struct pmsg]; [p_fields] is the live prefix of [fields[MAX_FIELDS]], so
    [header_count] is its length, and [max_len] is the length of the buffer. *)
Record pmsg := MkPmsg {
  p_msg : list Z;
  p_msg_len : nat;
  p_fields : list hdrf;
  p_sl : option sline;
  p_proto_id : option nat }.

Definition p_max_len (m : pmsg) : nat := length (p_msg m).
Definition header_count (m : pmsg) : nat := length (p_fields m).

(** The string a pointer of the message denotes. *)
Definition str_of (m : pmsg) (off : nat) : list Z := default [] (string_at (p_msg m) off).

(** [malloc] gives a block of unspecified content, or NULL. *)
Definition new_pmsg (block : option (list Z)) : option pmsg :=
  (λ b, MkPmsg b 0 [] None None) <$> block.

Definition add_pmsg_string (m : pmsg) (s : list Z) : option nat * pmsg :=
  let len := S (length s) in
  if (p_max_len m <? p_msg_len m + len)%nat then (None, m)
  else
    let p := p_msg_len m in
    (Some p, MkPmsg (splice p (s ++ [0]) (p_msg m)) (p + len) (p_fields m) (p_sl m) (p_proto_id m)).

(** ** Parsing *)

(** [delim(d + off, n, term1, term2)]. *)
Fixpoint delim (d : list Z) (off n : nat) (term1 term2 : Z) : outcome nat :=
  match n with
  | O => Ok 0%nat
  | S n =>
      c ← rd d off;
      if (c =? term1) || (c =? term2) || (c =? CR) || (c =? LF) then Ok 0%nat
      else s ← delim d (S off) n term1 term2; Ok (S s)
  end.

(** [while (i < len && p(d[i])) ++i], where [n] is [len - i]. *)
Fixpoint skip (p : Z → bool) (d : list Z) (i n : nat) : outcome nat :=
  match n with
  | O => Ok i
  | S n => c ← rd d i; if p c then skip p d (S i) n else Ok i
  end.

Definition is_sp (c : Z) : bool := c =? SP.
Definition is_ws (c : Z) : bool := (c =? SP) || (c =? 9).

(** [if (i < len && d[i] == '\r') ++i]. *)
Definition skip_cr (d : list Z) (len i : nat) : outcome nat :=
  if (i <? len)%nat then c ← rd d i; Ok (if c =? CR then S i else i) else Ok i.

(** [if (i >= len || d[i++] != '\n') return -1]. *)
Definition expect_lf (d : list Z) (len i : nat) : outcome nat :=
  if (len <=? i)%nat then Fail
  else c ← rd d i; if c =? LF then Ok (S i) else Fail.

(** The first line of a response: protocol, three-digit code, reason. *)
Definition parse_status_line (d : list Z) (len : nat) : outcome (list Z * nat * sline * nat) :=
  i ← delim d 0 len SP 0;
  c ← rd d i;
  if negb (c =? SP) then Fail else
  d ← wr d i 0;
  i ← skip is_sp d (S i) (len - S i);
  if (len - i <? 4)%nat then Fail else
  c0 ← rd d i; c1 ← rd d (i + 1); c2 ← rd d (i + 2); c3 ← rd d (i + 3);
  if negb (isdigit c0) || negb (isdigit c1) || negb (isdigit c2) || negb (c3 =? SP) then Fail else
  let code := fst (strtol (drop i d)) in
  let i := (i + 4)%nat in
  i ← skip is_sp d i (len - i);
  let reason := i in
  s ← delim d i (len - i) 0 0;
  d ← wr d (i + s) 0;
  Ok (d, S (i + s), PMSG_RESP code (Some reason), 0%nat).

(** The first line of a request: method, URI, protocol. *)
Definition parse_request_line (d : list Z) (len : nat) : outcome (list Z * nat * sline * nat) :=
  i ← delim d 0 len SP 0;
  if (len <=? i)%nat then Fail else
  c ← rd d i;
  if negb (c =? SP) then Fail else
  d ← wr d i 0;
  i ← skip is_sp d (S i) (len - S i);
  let uri := i in
  s ← delim d i (len - i) SP 0;
  let i := (i + s)%nat in
  if (len <=? i)%nat then Fail else
  c ← rd d i;
  if negb (c =? SP) then Fail else
  d ← wr d i 0;
  i ← skip is_sp d (S i) (len - S i);
  let proto := i in
  s ← delim d i (len - i) 0 0;
  d ← wr d (i + s) 0;
  Ok (d, S (i + s), PMSG_REQ 0 uri, proto).

(** One header line from [i]: the updated buffer, the index after the line and the
    field. *)
Definition parse_header (d : list Z) (len i : nat) : outcome (list Z * nat * hdrf) :=
  let name := i in
  s ← delim d i (len - i) SP 58;
  let i := (i + s)%nat in
  if (len <=? i)%nat then Fail else
  c ← rd d i;
  '(d, i) ←
    (if c =? SP then
       d ← wr d i 0; i ← skip is_sp d (S i) (len - S i); Ok (d, i)
     else Ok (d, i));
  if (len <=? i)%nat then Fail else
  c ← rd d i;
  if negb (c =? 58) then Fail else
  d ← wr d i 0;
  i ← skip is_ws d (S i) (len - S i);
  let value := i in
  s ← delim d i (len - i) 0 0;
  d ← wr d (i + s) 0;
  i ← expect_lf d len (S (i + s));
  Ok (d, i, Hdrf name value).

(** The [for (;;)] over header lines.  Writing [fields[header_count]] beyond the
    array is undefined.  Every round consumes at least the colon of its line, so
    [fuel > len - i] is enough. *)
Fixpoint parse_headers (fuel : nat) (d : list Z) (len i : nat) (fs : list hdrf)
    : outcome (list Z * list hdrf * nat) :=
  match fuel with
  | O => Diverge
  | S fuel =>
      i ← skip_cr d len i;
      if (i =? len)%nat then Ok (d, fs, len) else
      c ← rd d i;
      if c =? LF then Ok (d, fs, S i) else
      if (c =? 9) || (c =? SP) then Fail else
      if (MAX_FIELDS <=? length fs)%nat then Undef else
      '(d, i, f) ← parse_header d len i;
      parse_headers fuel d len i (fs ++ [f])
  end.

(** Returns the message as parsed and the number of bytes consumed; [Fail] is
    [return -1]. *)
Definition parse_pmsg (m : pmsg) : outcome (pmsg * nat) :=
  let d := p_msg m in
  let len := p_msg_len m in
  if (len <? 4)%nat then Fail else
  i ← skip (λ c, negb (c =? SP) && negb (c =? 47)) d 0 len;
  if (i =? len)%nat then Fail else
  c ← rd d i;
  '(d, i, sl, proto) ←
    (if c =? 47 then parse_status_line d len else parse_request_line d len);
  i ← skip is_sp d i (len - i);
  i ← skip_cr d len i;
  i ← expect_lf d len i;
  '(d, fs, n) ← parse_headers (S len) d len i [];
  Ok (MkPmsg d len fs (Some sl) (Some proto), n).

(** ** Header fields *)

Definition get_header (m : pmsg) (name : list Z) : option (list Z) :=
  '(_, f) ← list_find (λ f, strcaseeq (str_of m (h_name f)) name = true) (p_fields m);
  Some (str_of m (h_value f)).

(** [add_header]: [true] is [return 0].  A failed call keeps what it had already
    copied into the buffer. *)
Definition add_header (m : pmsg) (name value : list Z) : bool * pmsg :=
  if (header_count m =? MAX_FIELDS)%nat then (false, m) else
  match add_pmsg_string m name with
  | (None, m) => (false, m)
  | (Some n, m) =>
      match add_pmsg_string m value with
      | (None, m) => (false, m)
      | (Some v, m) =>
          (true, MkPmsg (p_msg m) (p_msg_len m) (p_fields m ++ [Hdrf n v]) (p_sl m) (p_proto_id m))
      end
  end.

(** [add_header_printf] with the formatted text [text]: [vsnprintf] stores at most
    the room there is, NUL included, before the checks are made. *)
Definition add_header_printf (m : pmsg) (name text : list Z) : bool * pmsg :=
  let room := (p_max_len m - p_msg_len m)%nat in
  let stored := if (room =? 0)%nat then [] else take (room - 1) text ++ [0] in
  let m := MkPmsg (splice (p_msg_len m) stored (p_msg m)) (p_msg_len m) (p_fields m) (p_sl m)
             (p_proto_id m) in
  if (header_count m =? MAX_FIELDS)%nat then (false, m) else
  if (p_max_len m <=? p_msg_len m + length text)%nat then (false, m) else
  let v := p_msg_len m in
  let m := MkPmsg (p_msg m) (v + length text + 1) (p_fields m) (p_sl m) (p_proto_id m) in
  match add_pmsg_string m name with
  | (None, m) => (false, m)
  | (Some n, m) =>
      (true, MkPmsg (p_msg m) (p_msg_len m) (p_fields m ++ [Hdrf n v]) (p_sl m) (p_proto_id m))
  end.

(** [replace_header]: reuse the space of the old value when the new one fits. *)
Definition replace_header (m : pmsg) (name value : list Z) : bool * pmsg :=
  match list_find (λ f, strcaseeq (str_of m (h_name f)) name = true) (p_fields m) with
  | Some (i, f) =>
      if (length (str_of m (h_value f)) <? length value)%nat then
        match add_pmsg_string m value with
        | (None, m) => (false, m)
        | (Some p, m) =>
            (true, MkPmsg (p_msg m) (p_msg_len m) (<[i := Hdrf (h_name f) p]> (p_fields m))
                     (p_sl m) (p_proto_id m))
        end
      else
        (true, MkPmsg (splice (h_value f) (value ++ [0]) (p_msg m)) (p_msg_len m) (p_fields m)
                 (p_sl m) (p_proto_id m))
  | None => add_header m name value
  end.

(** [copy_headers(dest, src, name)]: the number of matching fields of [src], and
    [dest] with each of them appended while there is room. *)
Definition copy_headers (dest src : pmsg) (name : list Z) : nat * pmsg :=
  foldl (λ '(count, dest) f,
           (S count, snd (add_header dest (str_of src (h_name f)) (str_of src (h_value f)))))
        (0%nat, dest)
        (filter (λ f, strcaseeq (str_of src (h_name f)) name = true) (p_fields src)).

(** [get_param(value, tag, dest, size)] with a non-NULL [value]; [Fail] is
    [return -1].  [stored] is the string left in [dest], when it is written at all. *)
Inductive param :=
| NotFound
| Found (stored : option (list Z)).

(** The bytes of [c] up to a [;] or the end of the string. *)
Fixpoint upto_semi (c : list Z) : list Z :=
  match c with
  | x :: c => if x =? 59 then [] else x :: upto_semi c
  | [] => []
  end.

(** Each round starts at the first byte of [value] or at a [;], and looks for the tag
    right after it; [++c] on an empty string would step over its terminator. *)
Fixpoint get_param_loop (fuel : nat) (c tag : list Z) (size : nat) : outcome param :=
  match fuel with
  | O => Diverge
  | S fuel =>
      match c with
      | [] => Undef
      | _ :: c =>
          let next (c : list Z) :=
            match strchr c 59 with
            | Some c => get_param_loop fuel c tag size
            | None => Ok NotFound
            end in
          if strncaseeq c tag (length tag) then
            match drop (length tag) c with
            | [] => Ok (Found (if (0 <? size)%nat then Some [] else None))
            | x :: c' =>
                if x =? 59 then Ok (Found (if (0 <? size)%nat then Some [] else None))
                else if x =? 61 then
                  if (size =? 0)%nat then Ok (Found None)
                  else if (size <=? length (upto_semi c'))%nat then Fail
                  else Ok (Found (Some (upto_semi c')))
                else next (x :: c')
            end
          else next c
      end
  end.

Definition get_param (value tag : list Z) (size : nat) : outcome param :=
  get_param_loop (S (length value)) value tag size.

(** ** Memory safety of the parser *)

(** The number of line feeds. *)
Definition nlf (l : list Z) : nat := length (filter (λ c, c = LF) l).

Lemma skip_bounds p d i n :
  (i + n <= length d)%nat → safe (skip p d i n) (λ j, (i <= j <= i + n)%nat).
Proof.
  revert i. induction n as [|n IH]; intros i Hn; simpl; [lia|].
  apply (safe_bind _ (λ _, True)); [apply safe_rd; [lia|done]|].
  intros c _. destruct (p c); simpl; [|lia].
  eapply safe_mono; [apply IH; lia|]. simpl; lia.
Qed.

Section safety.
(** [d0] is the message as received, with an empty line at [q]: the end of the last line
    and the empty line are the bytes CR LF CR LF.  [d] is the buffer during the parse,
    which is only written before the parser's position [i]. *)
Context (d0 : list Z) (q : nat).
Abbreviation len := (length d0).
Hypothesis at_q : take 4 (drop q d0) = [CR; LF; CR; LF].

Definition ahead (d : list Z) (i : nat) : Prop := length d = len ∧ drop i d = drop i d0.

Lemma at_q_lookup k : (k < 4)%nat → d0 !! (q + k)%nat = [CR; LF; CR; LF] !! k.
Proof. intros. by rewrite <- at_q, lookup_take_lt, lookup_drop by done. Qed.

Lemma at_q_length : (q + 4 <= len)%nat.
Proof.
  pose proof (f_equal length at_q) as E. rewrite length_take, length_drop in E. change (length [CR; LF; CR; LF]) with 4%nat in E. lia.
Qed.

Lemma ahead_lookup d i j : ahead d i → (i <= j)%nat → d !! j = d0 !! j.
Proof.
  intros [_ E] Hij. replace j with (i + (j - i))%nat by lia. by rewrite <- !lookup_drop, E.
Qed.

Lemma ahead_le d i j : ahead d i → (i <= j)%nat → ahead d j.
Proof.
  intros [L E] Hij. split; [done|]. replace j with (i + (j - i))%nat by lia.
  by rewrite <- !drop_drop, E.
Qed.

Lemma ahead_wr d i j v : ahead d i → (i <= j)%nat → ahead (<[j := v]> d) (S j).
Proof.
  intros H Hij. destruct (ahead_le d i (S j) H) as [L E]; [lia|].
  split; [by rewrite length_insert|]. rewrite drop_insert_lt by lia. done.
Qed.

Lemma ahead_in d i j : ahead d i → (j <= q + 3)%nat → (j < length d)%nat.
Proof. intros [-> _] Hj. pose proof at_q_length. lia. Qed.

Lemma ahead_q d i : ahead d i → (i <= q)%nat → d !! q = Some CR.
Proof.
  intros H Hi. rewrite (ahead_lookup d i q) by done.
  rewrite <- (Nat.add_0_r q), at_q_lookup by lia. done.
Qed.

(** A scan that does not accept a carriage return stops at [q] or before. *)
Lemma skip_safe p d i n :
  ahead d i → p CR = false → (i <= q)%nat → n = (len - i)%nat →
  safe (skip p d i n) (λ j, (i <= j <= q)%nat).
Proof.
  intros H Hp. pose proof at_q_length as HL. revert i H.
  induction n as [|n IH]; intros i H Hi Hn; simpl; [lia|].
  eapply (safe_bind _ (λ v, d !! i = Some v)); [apply safe_rd; [destruct H; lia|done]|].
  intros c Hc. destruct (p c) eqn:Ep; simpl; [|lia].
  assert (S i <= q)%nat.
  { destruct (decide (i = q)) as [->|]; [|lia]. rewrite (ahead_q d q) in Hc by done. congruence. }
  eapply safe_mono; [apply IH; [by eapply ahead_le; eauto|lia|lia]|]. simpl; lia.
Qed.

Lemma delim_safe d i n t1 t2 :
  ahead d i → (i <= q)%nat → n = (len - i)%nat →
  safe (delim d i n t1 t2) (λ s, (i + s <= q)%nat).
Proof.
  pose proof at_q_length as HL.
  revert i. induction n as [|n IH]; intros i H Hi Hn; simpl; [lia|].
  eapply (safe_bind _ (λ v, d !! i = Some v)); [apply safe_rd; [destruct H; lia|done]|].
  intros c Hc. destruct (_ || _ || _ || _) eqn:Ep; simpl; [lia|].
  assert (S i <= q)%nat.
  { destruct (decide (i = q)) as [->|]; [|lia]. rewrite (ahead_q d q) in Hc by done.
    simplify_eq. by rewrite !orb_true_r in Ep. }
  eapply safe_bind; [apply IH; [by eapply ahead_le; eauto|lia|lia]|]. simpl; lia.
Qed.

(** A byte that is not a carriage return is before [q]. *)
Lemma before_q d i j c :
  ahead d i → (i <= j <= q)%nat → d !! j = Some c → c ≠ CR → (S j <= q)%nat.
Proof.
  intros H Hj Hc Hn. destruct (decide (j = q)) as [->|]; [|lia].
  rewrite (ahead_q d i) in Hc by (done || lia). congruence.
Qed.

Lemma expect_lf_safe d i :
  ahead d i →
  safe (expect_lf d len i) (λ j, j = S i ∧ (i < len)%nat ∧ d0 !! i = Some LF).
Proof.
  intros H. unfold expect_lf. destruct (Nat.leb_spec len i); [done|].
  eapply (safe_bind _ (λ v, d !! i = Some v)); [apply safe_rd; [destruct H; lia|done]|].
  intros c Hc. destruct (Z.eqb_spec c LF); simpl; [|done].
  rewrite <- (ahead_lookup d i i) by done. subst. done.
Qed.

(** The line feeds from [i] to the end of the last line. *)
Definition lines_from (i : nat) : nat := nlf (drop i (take (q + 2) d0)).

Lemma lines_from_le i j : (i <= j)%nat → (lines_from j <= lines_from i)%nat.
Proof.
  intros. unfold lines_from. set (l := take _ _). replace j with (i + (j - i))%nat by lia.
  rewrite <- drop_drop. rewrite <- (take_drop (j - i) (drop i l)) at 2. unfold nlf.
  rewrite filter_app, length_app. lia.
Qed.

Lemma lines_from_lf i j :
  (i <= j <= q + 1)%nat → d0 !! j = Some LF → (lines_from (S j) < lines_from i)%nat.
Proof.
  intros Hij Hj. pose proof (lines_from_le i j ltac:(lia)) as H. unfold lines_from in *.
  rewrite (drop_S (take (q + 2) d0) LF j) in H; [|by rewrite lookup_take_lt by lia].
  unfold nlf in H at 1. rewrite filter_cons, decide_True in H by done. simpl in H.
  unfold nlf in *. lia.
Qed.

(** A line feed is not at [q], so a line that ends at [q + 1] or before leaves the
    parser at [q] or before, or at the empty line. *)
Lemma lf_not_q j : d0 !! j = Some LF → j ≠ q.
Proof.
  intros Hj ->. pose proof (at_q_lookup 0 ltac:(lia)) as E. rewrite Nat.add_0_r, Hj in E. done.
Qed.
End safety.

(** Stepping through a parser body in a proof about [safe]. *)
Ltac safe_step :=
  match goal with
  | |- safe (if ?b then _ else _) _ => destruct b eqn:?; [first [done | idtac] | first [done | idtac]]
  | |- safe (rd ?d ?i ≫= _) _ =>
      eapply (safe_bind _ (λ v, d !! i = Some v)); [apply safe_rd; [|done]|intros]
  | |- safe (wr ?d ?i ?v ≫= _) _ =>
      eapply (safe_bind _ (λ d', d' = <[i := v]> d)); [apply safe_wr; [|done]|intros ? ->]
  end.

Section safety_of_lines.
Context (d0 : list Z) (q : nat).
Abbreviation len := (length d0).
Hypothesis at_q : take 4 (drop q d0) = [CR; LF; CR; LF].

(** Where a line may start: before the last CR, or at the empty line. *)
Definition line_start (i : nat) : Prop := (i <= q ∨ i = q + 2)%nat.

(** What every line parser promises: it consumed a line feed, and left the rest of the
    buffer alone. *)
Definition consumed_line (i : nat) (d : list Z) (j : nat) : Prop :=
  ahead d0 d j ∧ line_start j ∧ (i < j)%nat ∧ (lines_from d0 q j < lines_from d0 q i)%nat.

Lemma expect_lf_line d i j :
  ahead d0 d j → (i <= j <= q + 1)%nat →
  safe (expect_lf d len j) (consumed_line i d).
Proof.
  intros H Hj. eapply safe_mono; [by apply expect_lf_safe|]. intros e (-> & He & Elf).
  pose proof (lf_not_q d0 q at_q j Elf). split_and!.
  - eapply ahead_le; [done|lia].
  - unfold line_start. lia.
  - lia.
  - by apply lines_from_lf.
Qed.

Lemma parse_header_safe d i :
  ahead d0 d i → (i <= q)%nat →
  safe (parse_header d len i) (λ '(d', j, _), consumed_line i d' j).
Proof.
  intros H Hi. unfold parse_header.
  eapply safe_bind; [by eapply delim_safe|]. intros s Hs. cbv beta in Hs.
  assert (ahead d0 d (i + s)) as HA1 by (eapply ahead_le; [done|lia]).
  safe_step. safe_step; [eapply ahead_in; eauto; lia|].
  eapply (safe_bind _ (λ '(d', j), ahead d0 d' j ∧ (i <= j <= q)%nat)).
  { destruct (Z.eqb_spec a SP) as [->|]; [|simpl; split; [done|lia]].
    safe_step; [eapply ahead_in; eauto; lia|].
    assert (S (i + s) <= q)%nat by (eapply (before_q d0 q at_q d (i + s)); eauto; lia).
    eapply safe_bind; [eapply (skip_safe d0 q); eauto using ahead_wr|].
    intros j Hj. cbv beta in Hj. simpl. split; [|lia].
    eapply ahead_le; [by eapply (ahead_wr d0 d (i + s))|lia]. }
  intros [d' j] [H' Hj]. safe_step. safe_step; [eapply ahead_in; eauto; lia|]. safe_step.
  safe_step; [eapply ahead_in; eauto; lia|].
  assert (S j <= q)%nat.
  { eapply (before_q d0 q at_q d' j); [eauto|lia|eauto|by intros ->]. }
  pose proof (ahead_wr d0 d' j j 0 H' (le_n _)) as HA2.
  eapply safe_bind; [by eapply (skip_safe d0 q)|]. intros k Hk. cbv beta in Hk.
  eapply safe_bind; [eapply delim_safe; eauto; [eapply ahead_le; eauto; lia|lia]|].
  intros s' Hs'. cbv beta in Hs'. safe_step; [eapply ahead_in; eauto; lia|].
  assert (ahead d0 (<[(k + s')%nat:=0]> (<[j:=0]> d')) (S (k + s'))) as HA3
    by (eapply (ahead_wr d0 _ (S j)); [done|lia]).
  eapply safe_bind; [apply (expect_lf_line _ i); [done|lia]|]. by intros e He.
Qed.

Lemma parse_request_line_safe d :
  ahead d0 d 0 →
  safe (parse_request_line d len) (λ '(d', i, _, _), ahead d0 d' i ∧ (i <= q + 1)%nat).
Proof.
  intros H. unfold parse_request_line.
  eapply safe_bind; [eapply delim_safe; eauto; lia|]. intros s Hs. cbv beta in Hs. simpl in Hs.
  assert (ahead d0 d s) as HA1 by (eapply ahead_le; [done|lia]).
  safe_step. safe_step; [eapply ahead_in; eauto; lia|]. safe_step.
  safe_step; [eapply ahead_in; eauto; lia|].
  assert (S s <= q)%nat.
  { eapply (before_q d0 q at_q d s); [eauto|lia|eauto|by intros ->]. }
  pose proof (ahead_wr d0 d s s 0 HA1 (le_n _)) as HA2.
  eapply safe_bind; [by eapply (skip_safe d0 q)|]. intros k Hk. cbv beta in Hk.
  eapply safe_bind; [eapply delim_safe; eauto; [eapply ahead_le; eauto; lia|lia]|].
  intros s' Hs'. cbv beta in Hs'. safe_step. safe_step; [eapply ahead_in; eauto; lia|]. safe_step.
  safe_step; [eapply ahead_in; eauto; lia|].
  assert (S (k + s') <= q)%nat.
  { eapply (before_q d0 q at_q _ (S s)); [eauto|lia|eauto|by intros ->]. }
  pose proof (ahead_wr d0 _ (S s) (k + s') 0 HA2 ltac:(lia)) as HA3.
  eapply safe_bind; [by eapply (skip_safe d0 q)|]. intros k' Hk'. cbv beta in Hk'.
  eapply safe_bind; [eapply delim_safe; eauto; [eapply ahead_le; eauto; lia|lia]|].
  intros s'' Hs''. cbv beta in Hs''. safe_step; [eapply ahead_in; eauto; lia|]. simpl.
  split; [eapply (ahead_wr d0 _ (S (k + s'))); [done|lia]|lia].
Qed.

Lemma parse_status_line_safe d :
  ahead d0 d 0 →
  safe (parse_status_line d len) (λ '(d', i, _, _), ahead d0 d' i ∧ (i <= q + 1)%nat).
Proof.
  intros H. unfold parse_status_line. pose proof (at_q_length d0 q at_q) as HL.
  eapply safe_bind; [eapply delim_safe; eauto; lia|]. intros s Hs. cbv beta in Hs. simpl in Hs.
  assert (ahead d0 d s) as HA1 by (eapply ahead_le; [done|lia]).
  safe_step; [eapply ahead_in; eauto; lia|]. safe_step. safe_step; [eapply ahead_in; eauto; lia|].
  assert (S s <= q)%nat.
  { eapply (before_q d0 q at_q d s); [eauto|lia|eauto|by intros ->]. }
  pose proof (ahead_wr d0 d s s 0 HA1 (le_n _)) as HA2.
  eapply safe_bind; [by eapply (skip_safe d0 q)|]. intros k Hk. cbv beta in Hk.
  destruct (Nat.ltb_spec (len - k) 4); [done|].
  do 4 (safe_step; [destruct HA2; lia|]).
  destruct (negb (isdigit _) || _ || _ || _) eqn:HD; [done|].
  apply orb_false_iff in HD as [HD HSP]. apply orb_false_iff in HD as [HD HD2].
  apply orb_false_iff in HD as [HD0 HD1].
  assert (∀ c, negb (isdigit c) = false → c ≠ CR) as Hdig by (intros c Hc ->; done).
  assert (S (k + 3) <= q)%nat.
  { assert (S k <= q)%nat by (eapply (before_q d0 q at_q _ (S s)); eauto; lia).
    assert (S (k + 1) <= q)%nat by (eapply (before_q d0 q at_q _ (S s)); eauto; lia).
    assert (S (k + 2) <= q)%nat by (eapply (before_q d0 q at_q _ (S s)); eauto; lia).
    eapply (before_q d0 q at_q _ (S s)); [eauto|lia|eauto|by intros ->]. }
  eapply safe_bind; [eapply (skip_safe d0 q); eauto; [eapply ahead_le; eauto; lia|lia]|].
  intros k' Hk'. cbv beta in Hk'.
  eapply safe_bind; [eapply delim_safe; eauto; [eapply ahead_le; eauto; lia|lia]|].
  intros s' Hs'. cbv beta in Hs'. safe_step; [eapply ahead_in; eauto; lia|]. simpl.
  split; [eapply (ahead_wr d0 _ (S s)); [done|lia]|lia].
Qed.

(** The rest of the start line, from the character after its last NUL. *)
Lemma end_of_line_safe d i :
  ahead d0 d i → (i <= q + 1)%nat →
  safe (skip is_sp d i (len - i)) (λ j, (i <= j <= q + 1)%nat ∧
    safe (skip_cr d len j) (λ k, (j <= k <= q + 1)%nat)).
Proof.
  intros H Hi. pose proof (at_q_length d0 q at_q) as HL. destruct (decide (i <= q)%nat) as [Hq|Hq].
  - eapply safe_mono; [by eapply (skip_safe d0 q)|]. intros j Hj. cbv beta in Hj. split; [lia|].
    unfold skip_cr. destruct (Nat.ltb_spec j len); [|simpl; lia].
    safe_step; [eapply ahead_in; eauto; lia|]. simpl. destruct (_ =? _); lia.
  - assert (i = q + 1)%nat as -> by lia.
    assert (d !! (q + 1)%nat = Some LF) as E.
    { rewrite (ahead_lookup d0 d (q + 1)) by done. by rewrite at_q_lookup by (done || lia). }
    destruct (len - (q + 1))%nat as [|n] eqn:En; [lia|]. cbn [skip]. rewrite (rd_Ok _ _ _ E).
    rewrite bind_Ok. change (is_sp LF) with false. simpl. split; [lia|].
    unfold skip_cr. destruct (Nat.ltb_spec (q + 1) len); [|simpl; lia].
    rewrite (rd_Ok _ _ _ E). simpl. lia.
Qed.

(** At the empty line the parse is over. *)
Lemma parse_headers_last fuel d fs :
  ahead d0 d (q + 2) → safe (parse_headers (S fuel) d len (q + 2) fs) (λ _, True).
Proof.
  intros H. pose proof (at_q_length d0 q at_q) as HL. cbn [parse_headers]. unfold skip_cr.
  assert (∀ k, (2 <= k < 4)%nat → d !! (q + k)%nat = [CR; LF; CR; LF] !! k) as E.
  { intros k Hk. rewrite (ahead_lookup d0 d (q + 2)) by (done || lia). apply at_q_lookup; [done|lia]. }
  destruct (Nat.ltb_spec (q + 2) len); [|lia].
  rewrite (rd_Ok _ _ CR) by (by rewrite E by lia). rewrite !bind_Ok.
  change (CR =? CR) with true. cbv iota. destruct (Nat.eqb_spec (S (q + 2)) len); [lia|].
  replace (S (q + 2)) with (q + 3)%nat by lia.
  rewrite (rd_Ok _ _ LF) by (by rewrite E by lia). done.
Qed.

Lemma parse_headers_safe fuel d i fs :
  ahead d0 d i → line_start i → (len < fuel + i)%nat →
  (length fs + lines_from d0 q i <= MAX_FIELDS)%nat →
  safe (parse_headers fuel d len i fs) (λ _, True).
Proof.
  pose proof (at_q_length d0 q at_q) as HL.
  revert d i fs. induction fuel as [|fuel IH]; intros d i fs H Hi Hf Hn.
  { destruct Hi; lia. }
  destruct (decide (i = q + 2)%nat) as [->|Hne]; [by apply parse_headers_last|].
  assert (i <= q)%nat as Hq by (destruct Hi; [done|lia]). cbn [parse_headers]. unfold skip_cr.
  destruct (Nat.ltb_spec i len); [|lia].
  eapply (safe_bind _ (λ j, (i <= j)%nat ∧ (j <= q ∨ j = q + 1)%nat)).
  { safe_step; [eapply ahead_in; eauto; lia|]. simpl. destruct (_ =? _); lia. }
  intros j [Hij Hj]. assert (ahead d0 d j) as Hd by (eapply ahead_le; [done|lia]).
  destruct (Nat.eqb_spec j len); [done|]. safe_step; [eapply ahead_in; eauto; lia|].
  safe_step. safe_step.
  assert (j <= q)%nat as Hjq.
  { destruct Hj as [?| ->]; [done|]. exfalso.
    match goal with H : d !! (q + 1)%nat = Some _ |- _ =>
      rewrite (ahead_lookup d0 d (q + 1)), at_q_lookup in H by (done || lia); injection H as <- end.
    done. }
  assert (0 < lines_from d0 q i)%nat.
  { pose proof (lines_from_lf d0 q i (q + 1) ltac:(lia) (at_q_lookup d0 q at_q 1 ltac:(lia))). lia. }
  destruct (Nat.leb_spec MAX_FIELDS (length fs)) as [Hmax|]; [lia|].
  eapply safe_bind; [by apply parse_header_safe|].
  intros [[d' k] f] (Hd' & Hk & Hlt & Hlines). pose proof (lines_from_le d0 q i j ltac:(lia)).
  apply IH; [done|done|lia|]. rewrite length_app. simpl. lia.
Qed.

Lemma parse_pmsg_safe m :
  p_msg m = d0 → p_msg_len m = len → (lines_from d0 q 0 <= S MAX_FIELDS)%nat →
  safe (parse_pmsg m) (λ _, True).
Proof.
  intros Em El Hn. assert (ahead d0 d0 0) as HA0 by done.
  unfold parse_pmsg. rewrite Em, El. safe_step.
  eapply safe_bind; [apply skip_bounds; lia|]. intros j Hj. cbv beta in Hj.
  destruct (Nat.eqb_spec j len) as [|Hne]; [done|]. safe_step; [lia|].
  eapply (safe_bind _ (λ '(d, i, _, _), ahead d0 d i ∧ (i <= q + 1)%nat)).
  { destruct (_ =? _); [by apply parse_status_line_safe|by apply parse_request_line_safe]. }
  intros [[[d i] sl] proto] [HA Hi]. eapply safe_bind; [by apply end_of_line_safe|].
  intros k [Hk Hcr]. eapply safe_bind; [exact Hcr|]. intros k' Hk'. cbv beta in Hk'.
  eapply safe_bind; [apply (expect_lf_line _ 0); [eapply ahead_le; [done|lia]|lia]|].
  intros e (He & Hs & _ & Hlines).
  eapply safe_bind; [apply parse_headers_safe; [done|done|lia|simpl; lia]|]. by intros [[??]?].
Qed.
End safety_of_lines.

(** ** Termination of the parser *)

Lemma skip_terminates p d i n : terminates (skip p d i n) (λ j, (i <= j)%nat).
Proof.
  revert i. induction n as [|n IH]; intros i; simpl; [lia|]. term_step. term_step; [|simpl; lia].
  eapply terminates_mono; [apply IH|]. simpl; lia.
Qed.

Lemma delim_terminates d i n t1 t2 : terminates (delim d i n t1 t2) (λ _, True).
Proof.
  revert i. induction n as [|n IH]; intros i; simpl; [done|]. term_step. term_step.
  eapply terminates_bind; [apply IH|]. done.
Qed.

Lemma expect_lf_terminates d len i :
  terminates (expect_lf d len i) (λ j, j = S i ∧ (i < len)%nat).
Proof.
  unfold expect_lf. destruct (Nat.leb_spec len i); [done|]. term_step. by term_step.
Qed.

Lemma skip_cr_terminates d len i : terminates (skip_cr d len i) (λ j, (i <= j)%nat).
Proof.
  unfold skip_cr. term_step; [|simpl; lia]. term_step. simpl. destruct (_ =? _); lia.
Qed.

Lemma parse_header_terminates d len i :
  terminates (parse_header d len i) (λ '(_, j, _), (i < j <= len)%nat).
Proof.
  unfold parse_header. eapply terminates_bind; [apply delim_terminates|]. intros s _.
  term_step. term_step.
  eapply (terminates_bind _ (λ '(_, j), (i <= j)%nat)).
  { term_step; [|simpl; lia]. term_step.
    eapply terminates_bind; [apply skip_terminates|]. simpl; lia. }
  intros [d' j] Hj. do 4 term_step.
  eapply terminates_bind; [apply skip_terminates|]. intros k Hk.
  eapply terminates_bind; [apply delim_terminates|]. intros s' _. term_step.
  eapply terminates_bind; [apply expect_lf_terminates|]. intros e [-> He]. simpl in *. lia.
Qed.

Lemma parse_headers_terminates fuel d len i fs :
  (i <= len)%nat → (len < fuel + i)%nat →
  terminates (parse_headers fuel d len i fs)
    (λ '(_, fs', n), (n <= len)%nat ∧ (length fs <= MAX_FIELDS → length fs' <= MAX_FIELDS)%nat).
Proof.
  revert d i fs. induction fuel as [|fuel IH]; intros d i fs Hi Hf; [lia|]. cbn [parse_headers].
  unfold skip_cr.
  eapply (terminates_bind _ (λ j, (i <= j <= len)%nat)).
  { destruct (Nat.ltb_spec i len); [|simpl; lia]. term_step. simpl. destruct (_ =? _); lia. }
  intros j Hj. destruct (Nat.eqb_spec j len) as [|Hne]; [simpl; lia|]. term_step.
  term_step; [simpl; lia|]. term_step.
  destruct (Nat.leb_spec MAX_FIELDS (length fs)); [done|].
  eapply terminates_bind; [apply parse_header_terminates|]. intros [[d' k] f] Hk.
  eapply terminates_mono; [apply IH; lia|]. intros [[? fs'] m]. rewrite length_app. simpl. lia.
Qed.

Lemma start_line_terminates d len :
  terminates (parse_status_line d len) (λ _, True) ∧
  terminates (parse_request_line d len) (λ _, True).
Proof.
  split; unfold parse_status_line, parse_request_line.
  - eapply terminates_bind; [apply delim_terminates|]. intros s _. do 3 term_step.
    eapply terminates_bind; [apply skip_terminates|]. intros k _. do 6 term_step.
    eapply terminates_bind; [apply skip_terminates|]. intros k' _.
    eapply terminates_bind; [apply delim_terminates|]. intros s' _. by term_step.
  - eapply terminates_bind; [apply delim_terminates|]. intros s _. do 4 term_step.
    eapply terminates_bind; [apply skip_terminates|]. intros k _.
    eapply terminates_bind; [apply delim_terminates|]. intros s' _. do 4 term_step.
    eapply terminates_bind; [apply skip_terminates|]. intros k' _.
    eapply terminates_bind; [apply delim_terminates|]. intros s'' _. by term_step.
Qed.

Lemma parse_pmsg_total m :
  terminates (parse_pmsg m)
    (λ '(m', n), (n <= p_msg_len m)%nat ∧ (header_count m' <= MAX_FIELDS)%nat).
Proof.
  unfold parse_pmsg. term_step. eapply terminates_bind; [apply skip_terminates|]. intros i _.
  do 2 term_step. destruct (start_line_terminates (p_msg m) (p_msg_len m)) as [HS HR].
  eapply terminates_bind; [destruct (a =? 47); eassumption|]. intros [[[d j] sl] proto] _.
  eapply terminates_bind; [apply skip_terminates|]. intros k _.
  eapply terminates_bind; [apply skip_cr_terminates|]. intros k' _.
  eapply terminates_bind; [apply expect_lf_terminates|]. intros e [-> He].
  eapply terminates_bind; [apply parse_headers_terminates; lia|]. intros [[d' fs] n].
  unfold header_count, MAX_FIELDS. simpl. lia.
Qed.

(** The parser terminates on every buffer, whatever the peer sent; a message it
    accepts consumed at most the bytes received and has at most [MAX_FIELDS] header
    fields. *)
Theorem parse_pmsg_terminates m :
  parse_pmsg m ≠ Diverge ∧
  ∀ m' n, parse_pmsg m = Ok (m', n) →
    (n <= p_msg_len m)%nat ∧ (header_count m' <= MAX_FIELDS)%nat.
Proof.
  pose proof (parse_pmsg_total m) as H. destruct (parse_pmsg m) as [[m' n]| | |]; try done.
  split; [done|]. by intros ? ? [= <- <-].
Qed.

Lemma parse_pmsg_line_safe pre rest fs sl proto :
  (nlf pre <= MAX_FIELDS)%nat →
  let d := pre ++ [CR; LF; CR; LF] ++ rest in
  safe (parse_pmsg (MkPmsg d (length d) fs sl proto)) (λ _, True).
Proof.
  intros Hn d. unfold d.
  apply (parse_pmsg_safe d (length pre)); [|done|done|].
  - unfold d. by rewrite drop_app_length.
  - unfold lines_from, d. rewrite drop_0. rewrite (take_app_ge pre) by lia.
    replace (length pre + 2 - length pre)%nat with 2%nat by lia.
    unfold nlf in *. rewrite filter_app, length_app.
    change (take 2 ([CR; LF; CR; LF] ++ rest)) with [CR; LF].
    change (length (filter (λ c, c = LF) [CR; LF])) with 1%nat. lia.
Qed.

(** A message in which the TCP layer has found an empty line ([strstr] for CR LF CR
    LF), with at most 32 header lines before it, is parsed without an access outside the
    buffer or the field table, whatever follows the empty line. *)
Theorem parse_pmsg_defined pre rest :
  (nlf pre <= MAX_FIELDS)%nat →
  let d := pre ++ [CR; LF; CR; LF] ++ rest in
  ∀ fs sl proto, defined (parse_pmsg (MkPmsg d (length d) fs sl proto)).
Proof. intros Hn d fs sl proto. eapply safe_defined. by apply parse_pmsg_line_safe. Qed.

(** ** Parsing what was rendered *)

(** The grammar the parser accepts, as the peers write it. *)
Definition plain (stop : list Z) (s : list Z) : Prop := Forall (λ c, c ∉ 0 :: CR :: LF :: stop) s.
Definition no_lead (ws : list Z) (s : list Z) : Prop := ∀ c, head s = Some c → c ∉ ws.

Definition wf_header (h : list Z * list Z) : Prop :=
  plain [SP; 9; 58] h.1 ∧ plain [] h.2 ∧ no_lead [SP; 9] h.2.

#[export] Instance plain_dec stop s : Decision (plain stop s).
Proof. unfold plain. apply _. Defined.

#[export] Instance no_lead_dec ws s : Decision (no_lead ws s).
Proof.
  destruct s as [|c s].
  - left. done.
  - destruct (decide (c ∈ ws)); [right|left].
    + intros H. by apply (H c).
    + by intros ? [= <-].
Defined.

#[export] Instance wf_header_dec h : Decision (wf_header h).
Proof. unfold wf_header. apply _. Defined.

Definition render_header (h : list Z * list Z) : list Z := h.1 ++ 58 :: SP :: h.2 ++ [CR; LF].
Definition render_headers (hs : list (list Z * list Z)) : list Z := concat (map render_header hs).

Definition render_request (method uri proto : list Z) (hs : list (list Z * list Z)) : list Z :=
  method ++ SP :: uri ++ SP :: proto ++ CR :: LF :: render_headers hs ++ [CR; LF].

Definition render_response (proto : list Z) (code : Z) (reason : list Z)
    (hs : list (list Z * list Z)) : list Z :=
  proto ++ SP :: udec code ++ SP :: reason ++ CR :: LF :: render_headers hs ++ [CR; LF].

(** A header line once the parser has terminated its strings, and where it left them. *)
Definition cooked_header (h : list Z * list Z) : list Z := h.1 ++ 0 :: SP :: h.2 ++ [0; LF].

Fixpoint field_offsets (base : nat) (hs : list (list Z * list Z)) : list hdrf :=
  match hs with
  | [] => []
  | h :: hs => Hdrf base (base + length h.1 + 2) :: field_offsets (base + length (render_header h)) hs
  end.

(** The header fields of a message as the pairs of strings they denote. *)
Definition headers_of (m : pmsg) : list (list Z * list Z) :=
  map (λ f, (str_of m (h_name f), str_of m (h_value f))) (p_fields m).

Lemma rd_at (d a rest : list Z) i x : d = a ++ x :: rest → i = length a → rd d i = Ok x.
Proof. intros -> ->. apply rd_Ok. by rewrite list_lookup_middle. Qed.

Lemma wr_at (d a rest : list Z) i x v :
  d = a ++ x :: rest → i = length a → wr d i v = Ok (a ++ v :: rest).
Proof.
  intros -> ->. rewrite wr_Ok by (rewrite length_app; simpl; lia).
  by rewrite insert_app_r_alt, Nat.sub_diag by lia.
Qed.

Lemma delim_at d a w t rest i n t1 t2 :
  d = a ++ w ++ t :: rest → i = length a → (length w < n)%nat →
  Forall (λ c, c ∉ [t1; t2; CR; LF]) w → t ∈ [t1; t2; CR; LF] →
  delim d i n t1 t2 = Ok (length w).
Proof.
  intros -> -> Hn Hw Ht. revert a n Hn. induction Hw as [|c w Hc Hw IH]; intros a n Hn;
    (destruct n as [|n]; [simpl in Hn; lia|]); cbn [delim app];
    erewrite rd_at by reflexivity; rewrite bind_Ok.
  - assert ((t =? t1) || (t =? t2) || (t =? CR) || (t =? LF) = true) as ->; [|done].
    rewrite !elem_of_cons in Ht. unfold CR, LF in *. set_unfold in Ht. lia.
  - assert ((c =? t1) || (c =? t2) || (c =? CR) || (c =? LF) = false) as ->.
    { rewrite !not_elem_of_cons in Hc. unfold CR, LF in *. lia. }
    specialize (IH (a ++ [c]) n). rewrite <- app_assoc, length_app, Nat.add_1_r in IH.
    cbn [app] in IH. rewrite IH by (simpl in Hn; lia). done.
Qed.

Lemma skip_at (p : Z → bool) d a w t rest i n :
  d = a ++ w ++ t :: rest → i = length a → (length w < n)%nat →
  Forall (λ c, p c = true) w → p t = false → skip p d i n = Ok (i + length w)%nat.
Proof.
  intros -> -> Hn Hw Ht. revert a n Hn. induction Hw as [|c w Hc Hw IH]; intros a n Hn;
    (destruct n as [|n]; [simpl in Hn; lia|]); cbn [skip app];
    erewrite rd_at by reflexivity; rewrite bind_Ok.
  - rewrite Ht. simpl. f_equal. lia.
  - rewrite Hc. specialize (IH (a ++ [c]) n). rewrite <- app_assoc, length_app, Nat.add_1_r in IH.
    cbn [app] in IH. rewrite IH by (simpl in Hn; lia). f_equal. simpl. lia.
Qed.

(** A scan that has nothing to skip. *)
Lemma skip_none (p : Z → bool) d a t rest i n :
  d = a ++ t :: rest → i = length a → p t = false → skip p d i n = Ok i.
Proof.
  intros -> -> Ht. destruct n; [done|]. cbn [skip].
  erewrite rd_at by reflexivity. rewrite bind_Ok. by rewrite Ht.
Qed.

Lemma no_lead_split ws s t rest :
  no_lead ws s → t ∉ ws → ∃ x r, s ++ t :: rest = x :: r ∧ x ∉ ws.
Proof. destruct s as [|c s]; intros Hs Ht; [by exists t, rest|]. exists c, (s ++ t :: rest). auto. Qed.

Lemma plain_no_nul stop s : plain stop s → no_nul s.
Proof. intros H. eapply Forall_impl; [exact H|]. intros c. simpl. rewrite not_elem_of_cons. by intros [? _]. Qed.

Lemma plain_delim stop s t1 t2 :
  t1 ∈ 0 :: stop → t2 ∈ 0 :: stop → plain stop s → Forall (λ c, c ∉ [t1; t2; CR; LF]) s.
Proof.
  intros H1 H2 H. eapply Forall_impl; [exact H|]. intros c Hc.
  rewrite !not_elem_of_cons in *. rewrite !elem_of_cons in *.
  destruct Hc as (? & ? & ? & Hc). split_and!; [| |done|done|by apply not_elem_of_nil].
  - intros ->. destruct H1 as [->|]; done.
  - intros ->. destruct H2 as [->|]; done.
Qed.

Lemma string_at_app d a s rest off :
  d = a ++ s ++ 0 :: rest → off = length a → no_nul s → string_at d off = Some s.
Proof.
  intros -> -> Hs. unfold string_at. rewrite drop_app_length. by apply take_string_app.
Qed.

Lemma parse_header_render a h rest :
  wf_header h →
  let d := a ++ render_header h ++ rest in
  parse_header d (length d) (length a)
  = Ok (a ++ cooked_header h ++ rest, (length a + length (render_header h))%nat,
        Hdrf (length a) (length a + length h.1 + 2)).
Proof.
  destruct h as [n v]. intros (Hn & Hv & Hl) d. unfold render_header, cooked_header in *.
  simpl fst in *; simpl snd in *. set (len := length d).
  assert (len = length a + length n + length v + 4 + length rest)%nat as Hlen
    by (unfold len, d; len_eq).
  unfold parse_header.
  rewrite (delim_at d a n 58 (SP :: v ++ CR :: LF :: rest)); [|unfold d; app_eq|done|lia| |set_solver];
    [|by eapply plain_delim; [| |done]; set_solver].
  rewrite bind_Ok. destruct (Nat.leb_spec len (length a + length n)); [lia|].
  erewrite (rd_at d (a ++ n)); [|unfold d; app_eq|len_eq].
  rewrite bind_Ok. change (58 =? SP) with false. cbv iota. rewrite bind_Ok.
  destruct (Nat.leb_spec len (length a + length n)); [lia|].
  erewrite (rd_at d (a ++ n)); [|unfold d; app_eq|len_eq].
  rewrite bind_Ok. change (58 =? 58) with true. cbv iota. cbn [negb].
  erewrite (wr_at d (a ++ n)); [|unfold d; app_eq|len_eq]. rewrite bind_Ok.
  destruct (no_lead_split [SP; 9] v CR (LF :: rest)) as (x & r & E & Hx); [done|set_solver|].
  rewrite (skip_at is_ws _ (a ++ n ++ [0]) [SP] x r); cycle 1.
  { rewrite <- E. app_eq. }
  { len_eq. }
  { simpl. lia. }
  { by constructor. }
  { unfold is_ws, SP in *. set_unfold in Hx. lia. }
  rewrite bind_Ok.
  rewrite (delim_at _ (a ++ n ++ [0; SP]) v CR (LF :: rest)); cycle 1.
  { app_eq. } { len_eq. } { simpl. lia. } { by eapply plain_delim; [| |done]; set_solver. } { set_solver. }
  rewrite bind_Ok.
  erewrite (wr_at _ (a ++ n ++ [0; SP] ++ v) (LF :: rest)); [|app_eq|len_eq]. rewrite bind_Ok.
  unfold expect_lf. simpl length. destruct (Nat.leb_spec len (S (S (length a + length n) + 1 + length v))); [lia|].
  erewrite (rd_at _ (a ++ n ++ [0; SP] ++ v ++ [0]) rest); [|app_eq|len_eq].
  rewrite !bind_Ok. change (LF =? LF) with true. cbv iota. rewrite bind_Ok.
  f_equal. f_equal; [f_equal|f_equal]; [app_eq|len_eq|lia].
Qed.

Lemma parse_headers_step fuel a h rest fs :
  wf_header h →
  let d := a ++ render_header h ++ rest in
  parse_headers (S fuel) d (length d) (length a) fs =
  if (MAX_FIELDS <=? length fs)%nat then Undef else
  parse_headers fuel (a ++ cooked_header h ++ rest) (length d)
    (length a + length (render_header h)) (fs ++ [Hdrf (length a) (length a + length h.1 + 2)]).
Proof.
  intros Hh d. cbn [parse_headers]. unfold skip_cr.
  assert (length a < length d)%nat as Hlt.
  { unfold d, render_header. destruct h. len_eq. }
  destruct (Nat.ltb_spec (length a) (length d)); [|lia].
  assert (∃ c r, render_header h ++ rest = c :: r ∧ c ∉ [CR; LF; 9; SP]) as (c & r & E & Hc).
  { destruct h as [[|c n] v]; destruct Hh as (Hn & _ & _); unfold render_header; simpl in *.
    - exists 58. eexists. split; [done|set_solver].
    - exists c. eexists. split; [done|]. inversion_clear Hn. set_solver. }
  assert (d !! length a = Some c) as Ed by (unfold d; by rewrite E, list_lookup_middle).
  rewrite (rd_Ok _ _ _ Ed), bind_Ok.
  assert ((c =? CR) = false ∧ (c =? LF) = false ∧ (c =? 9) || (c =? SP) = false) as (E1 & E2 & E3).
  { unfold CR, LF, SP in *. set_unfold in Hc. lia. }
  rewrite E1, bind_Ok. destruct (Nat.eqb_spec (length a) (length d)); [lia|].
  rewrite (rd_Ok _ _ _ Ed), bind_Ok, E2, E3.
  destruct (_ <=? _)%nat; [done|]. unfold d. by rewrite parse_header_render.
Qed.

Lemma length_cooked h : length (cooked_header h) = length (render_header h).
Proof. destruct h. unfold cooked_header, render_header. len_eq. Qed.

Lemma parse_headers_render hs fuel a fs :
  Forall wf_header hs → (length hs < fuel)%nat →
  let d := a ++ render_headers hs ++ [CR; LF] in
  parse_headers fuel d (length d) (length a) fs =
  if (length fs + length hs <=? MAX_FIELDS)%nat || (length hs =? 0)%nat then
    Ok (a ++ concat (map cooked_header hs) ++ [CR; LF], fs ++ field_offsets (length a) hs, length d)
  else Undef.
Proof.
  intros Hhs. revert fuel a fs. induction Hhs as [|h hs Hh Hhs IH]; intros fuel a fs Hf d;
    (destruct fuel as [|fuel]; [simpl in Hf; lia|]).
  - rewrite orb_true_r. cbn [parse_headers]. unfold d, skip_cr. cbn [render_headers concat map app].
    destruct (Nat.ltb_spec (length a) (length (a ++ [CR; LF]))) as [|Hx];
      [|rewrite length_app in Hx; simpl in Hx; lia].
    rewrite (rd_at _ a [LF] _ CR) by done. rewrite !bind_Ok. change (CR =? CR) with true. cbv iota.
    destruct (Nat.eqb_spec (S (length a)) (length (a ++ [CR; LF]))) as [Hx|];
      [rewrite length_app in Hx; simpl in Hx; lia|].
    rewrite (rd_at _ (a ++ [CR]) [] _ LF); [|app_eq|len_eq]. rewrite bind_Ok.
    change (LF =? LF) with true. cbv iota. cbn [field_offsets]. rewrite app_nil_r.
    do 2 f_equal. len_eq.
  - replace d with (a ++ render_header h ++ render_headers hs ++ [CR; LF])
      by (unfold d; cbn [render_headers map concat]; app_eq).
    rewrite parse_headers_step by done. destruct (Nat.leb_spec MAX_FIELDS (length fs)) as [Hm|Hm].
    { destruct (Nat.leb_spec (length fs + length (h :: hs)) MAX_FIELDS) as [Hx|]; [simpl in Hx; lia|done]. }
    set (X := render_headers hs ++ [CR; LF]).
    assert (length (a ++ render_header h ++ X) = length ((a ++ cooked_header h) ++ X)) as El
      by (rewrite !length_app, length_cooked; lia).
    rewrite El, (app_assoc a (cooked_header h) X).
    replace (length a + length (render_header h))%nat with (length (a ++ cooked_header h))
      by (rewrite length_app, length_cooked; done).
    unfold X. rewrite IH by (simpl in Hf; lia). rewrite (length_app fs). cbn [length].
    destruct (Nat.leb_spec (length fs + 1 + length hs) MAX_FIELDS);
      destruct (Nat.leb_spec (length fs + S (length hs)) MAX_FIELDS); try lia; cbn [orb].
    + cbn [map concat field_offsets]. rewrite (length_app a), length_cooked.
      f_equal. f_equal. f_equal; app_eq.
    + destruct (Nat.eqb_spec (length hs) 0); [lia|done].
Qed.

(** The strings the field offsets denote in a buffer that holds the cooked lines. *)
Lemma field_offsets_strings hs a d rest :
  Forall wf_header hs → d = a ++ concat (map cooked_header hs) ++ rest →
  map (λ f, (default [] (string_at d (h_name f)), default [] (string_at d (h_value f))))
    (field_offsets (length a) hs) = hs.
Proof.
  intros Hhs. revert a. induction Hhs as [|[n v] hs (Hn & Hv & _) Hhs IH]; intros a Ed; [done|].
  cbn [map concat field_offsets fst snd] in *.
  specialize (IH (a ++ cooked_header (n, v))). rewrite length_app, length_cooked in IH.
  rewrite IH by (rewrite Ed; app_eq).
  unfold cooked_header in Ed; cbn [fst snd h_name h_value] in *. f_equal. f_equal.
  - erewrite string_at_app; [done| |done|by eapply plain_no_nul]. rewrite Ed. app_eq.
  - erewrite (string_at_app d (a ++ n ++ [0; SP])); [done| |len_eq|by eapply plain_no_nul].
    rewrite Ed. app_eq.
Qed.

Lemma parse_request_line_render method uri proto rest :
  plain [SP; 47] method → plain [SP] uri → uri ≠ [] → plain [] proto → no_lead [SP] proto →
  let d := method ++ SP :: uri ++ SP :: proto ++ CR :: LF :: rest in
  parse_request_line d (length d)
  = Ok (method ++ 0 :: uri ++ 0 :: proto ++ 0 :: LF :: rest,
        (length method + length uri + length proto + 3)%nat,
        PMSG_REQ 0 (length method + 1), (length method + length uri + 2)%nat).
Proof.
  intros Hm Hu Hne Hp Hl d. set (len := length d).
  assert (len = length method + length uri + length proto + 4 + length rest)%nat as Hlen
    by (unfold len, d; len_eq).
  destruct uri as [|u uri]; [done|]. clear Hne.
  assert (is_sp u = false) as Hu0.
  { inversion_clear Hu. unfold is_sp, SP in *. set_unfold. lia. }
  destruct (no_lead_split [SP] proto CR (LF :: rest)) as (x & r & E & Hx); [done|set_solver|].
  unfold parse_request_line.
  rewrite (delim_at d [] method SP (u :: uri ++ SP :: proto ++ CR :: LF :: rest));
    [|done|done|cbn [length] in *; lia|eapply plain_delim; [| |done]; set_solver|set_solver].
  rewrite bind_Ok. cbn [length] in Hlen. destruct (Nat.leb_spec len (length method)); [lia|].
  rewrite (rd_at d method (u :: uri ++ SP :: proto ++ CR :: LF :: rest) _ SP), bind_Ok by done.
  change (negb (SP =? SP)) with false. cbv iota.
  erewrite (wr_at d method) by done. rewrite bind_Ok.
  rewrite (skip_none is_sp _ (method ++ [0]) u (uri ++ SP :: proto ++ CR :: LF :: rest));
    [|app_eq|len_eq|done]. rewrite bind_Ok.
  rewrite (delim_at _ (method ++ [0]) (u :: uri) SP (proto ++ CR :: LF :: rest));
    [|app_eq|len_eq|cbn [length]; lia|eapply plain_delim; [| |done]; set_solver|set_solver].
  rewrite bind_Ok. cbn [length]. destruct (Nat.leb_spec len (S (length method) + S (length uri))); [lia|].
  erewrite (rd_at _ (method ++ 0 :: u :: uri)); [|app_eq|len_eq]. rewrite bind_Ok.
  change (negb (SP =? SP)) with false. cbv iota.
  erewrite (wr_at _ (method ++ 0 :: u :: uri)); [|app_eq|len_eq]. rewrite bind_Ok.
  rewrite (skip_none is_sp _ (method ++ 0 :: u :: uri ++ [0]) x r);
    [|rewrite <- E; app_eq|len_eq|unfold is_sp, SP in *; set_unfold in Hx; lia]. rewrite bind_Ok.
  rewrite (delim_at _ (method ++ 0 :: u :: uri ++ [0]) proto CR (LF :: rest));
    [|app_eq|len_eq|lia|eapply plain_delim; [| |done]; set_solver|set_solver]. rewrite bind_Ok.
  erewrite (wr_at _ (method ++ 0 :: u :: uri ++ 0 :: proto)); [|app_eq|len_eq]. rewrite bind_Ok.
  f_equal. f_equal; [|lia]. f_equal; [|f_equal; lia]. f_equal; [app_eq|lia].
Qed.

(** What follows the start line: the line feed, the header lines and the empty line. *)
Definition parse_rest (d : list Z) (len i : nat) (sl : sline) (proto : nat) : outcome (pmsg * nat) :=
  i ← skip is_sp d i (len - i);
  i ← skip_cr d len i;
  i ← expect_lf d len i;
  '(d, fs, n) ← parse_headers (S len) d len i [];
  Ok (MkPmsg d len fs (Some sl) (Some proto), n).

Lemma length_render_headers hs : (length hs <= length (render_headers hs))%nat.
Proof.
  induction hs as [|h hs IH]; [done|]. unfold render_headers in *. cbn [map concat].
  rewrite length_app. unfold render_header at 1. len_eq.
Qed.

Lemma parse_rest_render a hs i sl proto :
  Forall wf_header hs → i = length a →
  let d := a ++ LF :: render_headers hs ++ [CR; LF] in
  parse_rest d (length d) i sl proto =
  if (length hs <=? MAX_FIELDS)%nat then
    Ok (MkPmsg (a ++ LF :: concat (map cooked_header hs) ++ [CR; LF]) (length d)
          (field_offsets (S i) hs) (Some sl) (Some proto), length d)
  else Undef.
Proof.
  intros Hhs -> d. unfold parse_rest.
  assert (length a < length d)%nat as Hlt by (unfold d; len_eq).
  rewrite (skip_none is_sp d a LF (render_headers hs ++ [CR; LF])), bind_Ok by done.
  unfold skip_cr. destruct (Nat.ltb_spec (length a) (length d)); [|lia].
  rewrite (rd_at d a (render_headers hs ++ [CR; LF]) _ LF), !bind_Ok by done.
  change (LF =? CR) with false. cbv iota. unfold expect_lf.
  destruct (Nat.leb_spec (length d) (length a)); [lia|].
  rewrite (rd_at d a (render_headers hs ++ [CR; LF]) _ LF), !bind_Ok by done.
  change (LF =? LF) with true. cbv iota. rewrite bind_Ok.
  pose proof (parse_headers_render hs (S (length d)) (a ++ [LF]) [] Hhs) as E.
  replace ((a ++ [LF]) ++ render_headers hs ++ [CR; LF]) with d in E by (unfold d; app_eq).
  replace (length (a ++ [LF])) with (S (length a)) in E by len_eq. cbn zeta in E. rewrite E.
  - cbn [length Nat.add]. destruct (Nat.leb_spec (length hs) MAX_FIELDS); cbn [orb].
    + rewrite bind_Ok. do 2 f_equal. f_equal. app_eq.
    + destruct (Nat.eqb_spec (length hs) 0); [lia|done].
  - unfold d. pose proof (length_render_headers hs). len_eq.
Qed.

Lemma plain_skip stop s :
  SP ∈ stop → 47 ∈ stop → plain stop s →
  Forall (λ c, negb (c =? SP) && negb (c =? 47) = true) s.
Proof.
  intros H1 H2 H. eapply Forall_impl; [exact H|]. intros c Hc. cbv beta.
  destruct (Z.eqb_spec c SP), (Z.eqb_spec c 47); subst; try done; set_solver.
Qed.

(** Discharging the grammar's side conditions on closed strings. *)
Ltac plain_witness := first [by refine (bool_decide_unpack _ _); vm_compute | done | by vm_compute; lia].

(** The parse of a rendered request, before its strings are read off. *)
Lemma parse_request_render method uri proto hs :
  plain [SP; 47] method → plain [SP] uri → uri ≠ [] → plain [] proto → no_lead [SP] proto →
  Forall wf_header hs →
  let d := render_request method uri proto hs in
  let a := method ++ 0 :: uri ++ 0 :: proto ++ [0] in
  parse_pmsg (MkPmsg d (length d) [] None None) =
  if (length hs <=? MAX_FIELDS)%nat then
    Ok (MkPmsg (a ++ LF :: concat (map cooked_header hs) ++ [CR; LF]) (length d)
          (field_offsets (S (length a)) hs)
          (Some (PMSG_REQ 0 (length method + 1))) (Some (length method + length uri + 2)%nat),
        length d)
  else Undef.
Proof.
  intros Hm Hu Hne Hp Hl Hhs d a. unfold parse_pmsg. cbn [p_msg p_msg_len].
  assert (length d = length method + length uri + length proto + 6 + length (render_headers hs))%nat
    as Hlen by (unfold d, render_request; len_eq).
  destruct (Nat.ltb_spec (length d) 4); [lia|].
  rewrite (skip_at _ d [] method SP (uri ++ SP :: proto ++ CR :: LF :: render_headers hs ++ [CR; LF]));
    [|done|done|lia|by eapply plain_skip; [| |done]; set_solver|done].
  rewrite bind_Ok. cbn [length Nat.add]. destruct (Nat.eqb_spec (length method) (length d)); [lia|].
  rewrite (rd_at d method (uri ++ SP :: proto ++ CR :: LF :: render_headers hs ++ [CR; LF]) _ SP),
    bind_Ok by done.
  change (SP =? 47) with false. cbv iota.
  pose proof (parse_request_line_render method uri proto (render_headers hs ++ [CR; LF])
    Hm Hu Hne Hp Hl) as E0. cbv zeta in E0. fold (render_request method uri proto hs) in E0. fold d in E0.
  rewrite E0, bind_Ok. cbv beta iota. clear E0.
  pose proof (parse_rest_render a hs (length method + length uri + length proto + 3)
    (PMSG_REQ 0 (length method + 1)) (length method + length uri + 2) Hhs ltac:(unfold a; len_eq)) as E.
  cbv zeta in E. replace (length (a ++ LF :: render_headers hs ++ [CR; LF])) with (length d) in E
    by (unfold a; rewrite Hlen; len_eq).
  replace (length method + length uri + length proto + 3)%nat with (length a) in *
    by (unfold a; len_eq).
  replace (method ++ 0 :: uri ++ 0 :: proto ++ 0 :: LF :: render_headers hs ++ [CR; LF])
    with (a ++ LF :: render_headers hs ++ [CR; LF]) by (unfold a; app_eq).
  exact E.
Qed.

(** C36: A request of at most [MAX_FIELDS] header lines, written as the RTSP and HTTP
    grammars say, is parsed back to its method, URI, protocol and header fields, in
    order, and all of its bytes are consumed. *)
Theorem parse_request_roundtrip method uri proto hs :
  plain [SP; 47] method → plain [SP] uri → uri ≠ [] → plain [] proto → no_lead [SP] proto →
  Forall wf_header hs → (length hs <= MAX_FIELDS)%nat →
  let d := render_request method uri proto hs in
  ∃ m i j k,
    parse_pmsg (MkPmsg d (length d) [] None None) = Ok (m, length d) ∧
    p_sl m = Some (PMSG_REQ i j) ∧ p_proto_id m = Some k ∧
    str_of m i = method ∧ str_of m j = uri ∧ str_of m k = proto ∧ headers_of m = hs.
Proof.
  intros Hm Hu Hne Hp Hl Hhs Hn d. unfold d. rewrite parse_request_render by done.
  destruct (Nat.leb_spec (length hs) MAX_FIELDS); [|lia].
  do 4 eexists. split; [done|]. split; [done|]. split; [done|]. unfold str_of, headers_of.
  cbn [p_msg p_fields]. split_and!.
  - erewrite (string_at_app _ []); [done|app_eq|done|by eapply plain_no_nul].
  - erewrite (string_at_app _ (method ++ [0])); [done|app_eq|len_eq|by eapply plain_no_nul].
  - erewrite (string_at_app _ (method ++ 0 :: uri ++ [0])); [done|app_eq|len_eq|by eapply plain_no_nul].
  - replace (S (length (method ++ 0 :: uri ++ 0 :: proto ++ [0]))) with
      (length (method ++ 0 :: uri ++ 0 :: proto ++ [0; LF])) by len_eq.
    eapply field_offsets_strings; [done|app_eq].
Qed.

(** The same request with more than [MAX_FIELDS] header lines makes the parser
    store a field outside [fields[MAX_FIELDS]]. *)
Theorem parse_request_overflow method uri proto hs :
  plain [SP; 47] method → plain [SP] uri → uri ≠ [] → plain [] proto → no_lead [SP] proto →
  Forall wf_header hs → (MAX_FIELDS < length hs)%nat →
  let d := render_request method uri proto hs in
  parse_pmsg (MkPmsg d (length d) [] None None) = Undef.
Proof.
  intros Hm Hu Hne Hp Hl Hhs Hn d. unfold d. rewrite parse_request_render by done.
  by destruct (Nat.leb_spec (length hs) MAX_FIELDS); [lia|].
Qed.

Lemma udec_code code :
  100 <= code <= 999 →
  udec code = [48 + code / 100; 48 + code / 10 mod 10; 48 + code mod 10].
Proof.
  intros H.
  assert (forallb (λ n, bool_decide (udec n = [48 + n / 100; 48 + n / 10 mod 10; 48 + n mod 10]))
    (seqZ 100 900) = true) as HF by (vm_compute; reflexivity).
  rewrite forallb_forall in HF. specialize (HF code). rewrite bool_decide_eq_true in HF.
  apply HF, list_elem_of_In, elem_of_seqZ. lia.
Qed.

Lemma parse_status_line_render p1 p2 code reason rest :
  let proto := p1 ++ 47 :: p2 in
  plain [SP] proto → 100 <= code <= 999 → plain [] reason → no_lead [SP] reason →
  let d := proto ++ SP :: udec code ++ SP :: reason ++ CR :: LF :: rest in
  parse_status_line d (length d)
  = Ok (proto ++ 0 :: udec code ++ SP :: reason ++ 0 :: LF :: rest,
        (length proto + length reason + 6)%nat,
        PMSG_RESP code (Some (length proto + 5)%nat), 0%nat).
Proof.
  intros proto Hp Hc Hr Hl d. set (len := length d).
  assert (length (udec code) = 3%nat) as Hu by by rewrite udec_code.
  assert (len = length proto + length reason + 7 + length rest)%nat as Hlen
    by (unfold len, d; len_eq).
  clearbody len. clear Hu.
  pose proof (strtol_udec code (SP :: reason ++ CR :: LF :: rest)
    ltac:(lia) ltac:(by intros ?? [= <- <-])) as Hcode.
  subst d. rewrite (udec_code code Hc) in *.
  set (c0 := 48 + code / 100) in *. set (c1 := 48 + code / 10 mod 10) in *.
  set (c2 := 48 + code mod 10) in *.
  assert (isdigit c0 = true ∧ isdigit c1 = true ∧ isdigit c2 = true) as (D0 & D1 & D2).
  { unfold isdigit, c0, c1, c2. Z.div_mod_to_equations; lia. }
  set (tail := reason ++ CR :: LF :: rest) in *. cbn [app] in *.
  set (d := proto ++ SP :: c0 :: c1 :: c2 :: SP :: tail) in *.
  destruct (no_lead_split [SP] reason CR (LF :: rest)) as (x & r & E & Hx); [done|set_solver|].
  unfold parse_status_line.
  rewrite (delim_at d [] proto SP (c0 :: c1 :: c2 :: SP :: tail));
    [|done|done|lia|eapply plain_delim; [| |done]; set_solver|set_solver].
  rewrite bind_Ok, (rd_at d proto (c0 :: c1 :: c2 :: SP :: tail) _ SP), bind_Ok by done.
  change (negb (SP =? SP)) with false. cbv iota.
  erewrite (wr_at d proto) by done. rewrite bind_Ok.
  rewrite (skip_none is_sp _ (proto ++ [0]) c0 (c1 :: c2 :: SP :: tail));
    [|app_eq|len_eq|unfold is_sp, SP, isdigit in *; lia]. rewrite bind_Ok.
  destruct (Nat.ltb_spec (len - S (length proto)) 4); [lia|].
  erewrite (rd_at _ (proto ++ [0]) _ (S (length proto))); [|app_eq|len_eq]. rewrite bind_Ok.
  erewrite (rd_at _ (proto ++ [0; c0]) _ (S (length proto) + 1)); [|app_eq|len_eq]. rewrite bind_Ok.
  erewrite (rd_at _ (proto ++ [0; c0; c1]) _ (S (length proto) + 2)); [|app_eq|len_eq]. rewrite bind_Ok.
  erewrite (rd_at _ (proto ++ [0; c0; c1; c2]) _ (S (length proto) + 3)); [|app_eq|len_eq]. rewrite bind_Ok.
  rewrite D0, D1, D2. change (negb true || negb true || negb true || negb (SP =? SP)) with false.
  cbv iota.
  replace (drop (S (length proto)) (proto ++ 0 :: c0 :: c1 :: c2 :: SP :: tail))
    with (c0 :: c1 :: c2 :: SP :: tail); cycle 1.
  { replace (S (length proto)) with (length (proto ++ [0])) by len_eq.
    rewrite (app_assoc proto [0] (c0 :: c1 :: c2 :: SP :: tail) : proto ++ 0 :: _ = _).
    by rewrite drop_app_length. }
  rewrite Hcode. cbn [fst].
  rewrite (skip_none is_sp _ (proto ++ [0; c0; c1; c2; SP]) x r);
    [|rewrite <- E; unfold tail; app_eq|len_eq|unfold is_sp, SP in *; set_unfold in Hx; lia].
  rewrite bind_Ok.
  rewrite (delim_at _ (proto ++ [0; c0; c1; c2; SP]) reason CR (LF :: rest));
    [|unfold tail; app_eq|len_eq|lia|eapply plain_delim; [| |done]; set_solver|set_solver].
  rewrite bind_Ok.
  erewrite (wr_at _ (proto ++ 0 :: c0 :: c1 :: c2 :: SP :: reason)); [|unfold tail; app_eq|len_eq].
  rewrite bind_Ok. f_equal. f_equal. f_equal; [|do 2 f_equal; lia]. f_equal; [app_eq|lia].
Qed.

(** The parse of a rendered response, before its strings are read off. *)
Lemma parse_response_render p1 p2 code reason hs :
  let proto := p1 ++ 47 :: p2 in
  plain [SP; 47] p1 → plain [SP] p2 → 100 <= code <= 999 → plain [] reason → no_lead [SP] reason →
  Forall wf_header hs → (length hs <= MAX_FIELDS)%nat →
  let d := render_response proto code reason hs in
  let a := proto ++ 0 :: udec code ++ SP :: reason ++ [0] in
  parse_pmsg (MkPmsg d (length d) [] None None) =
  Ok (MkPmsg (a ++ LF :: concat (map cooked_header hs) ++ [CR; LF]) (length d)
        (field_offsets (S (length a)) hs)
        (Some (PMSG_RESP code (Some (length proto + 5)%nat))) (Some 0%nat), length d).
Proof.
  intros proto H1 H2 Hc Hr Hl Hhs Hn d a. unfold parse_pmsg. cbn [p_msg p_msg_len].
  assert (plain [SP] proto) as Hp.
  { apply Forall_app; split; [|constructor; [set_solver|done]].
    eapply Forall_impl; [exact H1|]. set_solver. }
  assert (length (udec code) = 3%nat) as Hu by by rewrite udec_code.
  assert (length d = length proto + length reason + 9 + length (render_headers hs))%nat as Hlen
    by (unfold d, render_response; repeat first [rewrite length_app | progress cbn [length]]; lia).
  destruct (Nat.ltb_spec (length d) 4); [lia|].
  assert (length p1 < length d)%nat by (rewrite Hlen; unfold proto; len_eq).
  rewrite (skip_at _ d [] p1 47 (p2 ++ SP :: udec code ++ SP :: reason ++ CR :: LF :: render_headers hs ++ [CR; LF]));
    [|unfold d, render_response, proto; app_eq|done|lia|by eapply plain_skip; [| |done]; set_solver|done].
  rewrite bind_Ok. cbn [length Nat.add]. destruct (Nat.eqb_spec (length p1) (length d)); [lia|].
  erewrite (rd_at d p1 _ _ 47); [|unfold d, render_response, proto; app_eq|done].
  rewrite bind_Ok. change (47 =? 47) with true. cbv iota.
  pose proof (parse_status_line_render p1 p2 code reason (render_headers hs ++ [CR; LF])
    Hp Hc Hr Hl) as E0. cbv zeta in E0. fold proto in E0.
  fold (render_response proto code reason hs) in E0. fold d in E0.
  rewrite E0, bind_Ok. cbv beta iota. clear E0.
  pose proof (parse_rest_render a hs (length proto + length reason + 6)
    (PMSG_RESP code (Some (length proto + 5)%nat)) 0 Hhs ltac:(unfold a; len_eq)) as E.
  cbv zeta in E. replace (length (a ++ LF :: render_headers hs ++ [CR; LF])) with (length d) in E
    by (unfold a; rewrite Hlen; len_eq).
  replace (length proto + length reason + 6)%nat with (length a) in * by (unfold a; len_eq).
  replace (proto ++ 0 :: udec code ++ SP :: reason ++ 0 :: LF :: render_headers hs ++ [CR; LF])
    with (a ++ LF :: render_headers hs ++ [CR; LF]) by (unfold a; app_eq).
  destruct (Nat.leb_spec (length hs) MAX_FIELDS); [exact E|lia].
Qed.

(** Its strings. *)
Lemma response_strings p1 p2 code reason hs :
  let proto := p1 ++ 47 :: p2 in
  plain [SP; 47] p1 → plain [SP] p2 → 100 <= code <= 999 → plain [] reason → Forall wf_header hs →
  let a := proto ++ 0 :: udec code ++ SP :: reason ++ [0] in
  let m := MkPmsg (a ++ LF :: concat (map cooked_header hs) ++ [CR; LF])
             (length (render_response proto code reason hs)) (field_offsets (S (length a)) hs)
             (Some (PMSG_RESP code (Some (length proto + 5)%nat))) (Some 0%nat) in
  str_of m 0 = proto ∧ str_of m (length proto + 5) = reason ∧ headers_of m = hs.
Proof.
  intros proto H1 H2 Hc Hr Hhs. assert (no_nul proto) as Hp.
  { apply Forall_app; split; [by eapply plain_no_nul|constructor; [done|by eapply plain_no_nul]]. }
  assert (length (udec code) = 3%nat) as Hu by by rewrite udec_code.
  clearbody proto. unfold str_of, headers_of. cbn [p_msg p_fields]. split_and!.
  - erewrite (string_at_app _ []); [done|app_eq|done|done].
  - erewrite (string_at_app _ (proto ++ 0 :: udec code ++ [SP])); [done|app_eq|len_eq|by eapply plain_no_nul].
  - replace (S (length (proto ++ 0 :: udec code ++ SP :: reason ++ [0]))) with
      (length (proto ++ 0 :: udec code ++ SP :: reason ++ [0; LF])) by len_eq.
    eapply field_offsets_strings; [done|app_eq].
Qed.

(** A response is parsed back to its protocol, status code, reason and header
    fields, and all of its bytes are consumed. *)
Theorem parse_response_roundtrip p1 p2 code reason hs :
  plain [SP; 47] p1 → plain [SP] p2 → 100 <= code <= 999 → plain [] reason → no_lead [SP] reason →
  Forall wf_header hs → (length hs <= MAX_FIELDS)%nat →
  let proto := p1 ++ 47 :: p2 in
  let d := render_response proto code reason hs in
  ∃ m j k,
    parse_pmsg (MkPmsg d (length d) [] None None) = Ok (m, length d) ∧
    p_sl m = Some (PMSG_RESP code (Some j)) ∧ p_proto_id m = Some k ∧
    str_of m j = reason ∧ str_of m k = proto ∧ headers_of m = hs.
Proof.
  intros H1 H2 Hc Hr Hl Hhs Hn proto d. unfold d, proto. rewrite parse_response_render by done.
  destruct (response_strings p1 p2 code reason hs) as (Ep & Er & Eh); [done..|].
  do 3 eexists. split; [done|]. by split_and!.
Qed.

(** ** Building messages *)

(** A pointer of a well-formed message denotes a string inside the used part of the
    buffer. *)
Definition wf_ptr (m : pmsg) (off : nat) : Prop :=
  is_Some (string_at (take (p_msg_len m) (p_msg m)) off).

Definition sline_ptrs (sl : option sline) : list nat :=
  match sl with
  | Some (PMSG_REQ i j) => [i; j]
  | Some (PMSG_RESP _ (Some j)) => [j]
  | _ => []
  end.

Definition ptrs (m : pmsg) : list nat :=
  option_list (p_proto_id m) ++ sline_ptrs (p_sl m) ++
  concat (map (λ f, [h_name f; h_value f]) (p_fields m)).

Definition wf_pmsg (m : pmsg) : Prop :=
  (p_msg_len m <= p_max_len m)%nat ∧ (header_count m <= MAX_FIELDS)%nat ∧
  Forall (wf_ptr m) (ptrs m).

(** [m'] has the strings of [m] where they were. *)
Definition extends (m m' : pmsg) : Prop :=
  p_max_len m' = p_max_len m ∧ (p_msg_len m <= p_msg_len m')%nat ∧
  take (p_msg_len m) (p_msg m') = take (p_msg_len m) (p_msg m).

#[export] Instance extends_preorder : PreOrder extends.
Proof.
  split; [done|]. intros a b c (E1 & L1 & T1) (E2 & L2 & T2). split_and!; [congruence|lia|].
  rewrite <- T1, <- (Nat.min_l (p_msg_len a) (p_msg_len b)) by lia.
  by rewrite <- !take_take, T2.
Qed.

Lemma string_at_weaken (b : list Z) n off s : string_at (take n b) off = Some s → string_at b off = Some s.
Proof.
  unfold string_at. rewrite skipn_firstn_comm. generalize (drop off b) as l, (n - off)%nat as k.
  intros l. revert s. induction l as [|c l IH]; intros s k; destruct k as [|k]; simpl; try done.
  destruct (c =? 0); [done|]. destruct (take_string (take k l)) eqn:E; simpl; [|done].
  by rewrite (IH _ _ E).
Qed.

Lemma extends_str m m' off :
  extends m m' → wf_ptr m off → str_of m' off = str_of m off ∧ wf_ptr m' off.
Proof.
  intros (E & L & T) [s Hs]. unfold str_of. rewrite (string_at_weaken _ _ _ _ Hs).
  rewrite <- T in Hs. rewrite (string_at_weaken _ _ _ _ Hs). split; [done|].
  exists s. rewrite <- (Nat.min_l (p_msg_len m) (p_msg_len m')) in Hs by lia.
  rewrite <- take_take in Hs. by apply string_at_weaken in Hs.
Qed.

Lemma extends_ptrs m m' : extends m m' → Forall (wf_ptr m) (ptrs m) → Forall (wf_ptr m') (ptrs m).
Proof. intros HE H. eapply Forall_impl; [exact H|]. intros off Ho. by eapply extends_str. Qed.

Lemma add_pmsg_string_spec m s :
  no_nul s → (p_msg_len m <= p_max_len m)%nat →
  match add_pmsg_string m s with
  | (None, m') => m' = m ∧ (p_max_len m < p_msg_len m + S (length s))%nat
  | (Some p, m') =>
      (p_msg_len m + S (length s) <= p_max_len m)%nat ∧ extends m m' ∧
      p_msg_len m' = (p_msg_len m + S (length s))%nat ∧
      wf_ptr m' p ∧ str_of m' p = s ∧
      p_fields m' = p_fields m ∧ p_sl m' = p_sl m ∧ p_proto_id m' = p_proto_id m
  end.
Proof.
  intros Hs Hm. unfold add_pmsg_string, p_max_len in *.
  destruct (Nat.ltb_spec (length (p_msg m)) (p_msg_len m + S (length s))); [done|].
  split; [done|]. unfold extends, p_max_len, wf_ptr, str_of. cbn [p_msg p_msg_len p_fields p_sl p_proto_id].
  assert (length (s ++ [0]) = S (length s)) as Hlen by len_eq.
  assert (string_at (take (p_msg_len m + S (length s)) (splice (p_msg_len m) (s ++ [0]) (p_msg m)))
            (p_msg_len m) = Some s) as Hat.
  { rewrite <- Hlen, splice_take_all by lia.
    apply (string_at_app _ (take (p_msg_len m) (p_msg m)) s []); [done| |done].
    rewrite length_take. lia. }
  split_and!; try done.
  - apply splice_length. rewrite Hlen. lia.
  - lia.
  - apply splice_take. lia.
  - by rewrite (string_at_weaken _ _ _ _ Hat).
Qed.

(** The header fields do not move when the buffer grows. *)
Lemma extends_headers m m' :
  extends m m' → wf_pmsg m → p_fields m' = p_fields m → headers_of m' = headers_of m.
Proof.
  intros HE (_ & _ & HW) Ef. unfold headers_of. rewrite Ef. apply map_ext_in. intros f Hf.
  assert (wf_ptr m (h_name f) ∧ wf_ptr m (h_value f)) as [H1 H2].
  { apply Forall_app in HW as [_ HW]. apply Forall_app in HW as [_ HW].
    apply Forall_concat in HW. rewrite Forall_forall in HW.
    specialize (HW [h_name f; h_value f]). rewrite Forall_cons, Forall_singleton in HW.
    apply HW, list_elem_of_In, in_map_iff. eauto. }
  by rewrite (proj1 (extends_str m m' _ HE H1)), (proj1 (extends_str m m' _ HE H2)).
Qed.

Lemma ptrs_fields m m' f :
  p_fields m' = p_fields m ++ [f] → p_sl m' = p_sl m → p_proto_id m' = p_proto_id m →
  ptrs m' = ptrs m ++ [h_name f; h_value f].
Proof.
  intros E1 E2 E3. unfold ptrs. rewrite E1, E2, E3, map_app, concat_app. simpl.
  by rewrite <- !app_assoc.
Qed.

Lemma wf_with_field m m1 f :
  wf_pmsg m → (header_count m < MAX_FIELDS)%nat → extends m m1 → (p_msg_len m1 <= p_max_len m1)%nat →
  p_fields m1 = p_fields m → p_sl m1 = p_sl m → p_proto_id m1 = p_proto_id m →
  wf_ptr m1 (h_name f) → wf_ptr m1 (h_value f) →
  let m2 := MkPmsg (p_msg m1) (p_msg_len m1) (p_fields m1 ++ [f]) (p_sl m1) (p_proto_id m1) in
  wf_pmsg m2 ∧ headers_of m2 = headers_of m ++ [(str_of m1 (h_name f), str_of m1 (h_value f))].
Proof.
  intros Hm Hc HE Hl Ef Es Ep Hn Hv m2. split.
  - split_and!; [done| |].
    + unfold header_count, m2. cbn [p_fields]. rewrite Ef. unfold header_count in Hc. len_eq.
    + rewrite (ptrs_fields m m2 f) by (unfold m2; cbn; congruence).
      apply Forall_app; split; [|by repeat constructor].
      apply (extends_ptrs m m2); [done|apply Hm].
  - rewrite <- (extends_headers m m1) by done. unfold headers_of, m2. cbn [p_fields].
    by rewrite map_app.
Qed.

(** [add_header] on a well-formed message.  It succeeds exactly when a slot of
    [fields] and room for both strings are left, and then appends the field; whether it
    succeeds or not, the message stays well-formed and no other field changes. *)
Lemma add_header_spec m name value :
  wf_pmsg m → no_nul name → no_nul value →
  let fits := (header_count m <? MAX_FIELDS)%nat &&
              (p_msg_len m + length name + length value + 2 <=? p_max_len m)%nat in
  let '(ok, m') := add_header m name value in
  wf_pmsg m' ∧ ok = fits ∧
  headers_of m' = headers_of m ++ (if fits then [(name, value)] else []) ∧
  p_max_len m' = p_max_len m ∧
  (fits = true → p_msg_len m' = (p_msg_len m + length name + length value + 2)%nat).
Proof.
  intros Hm Hn Hv fits. unfold add_header, fits. pose proof Hm as (Hlen & Hcnt & _).
  destruct (Nat.eqb_spec (header_count m) MAX_FIELDS) as [E|E].
  { destruct (Nat.ltb_spec (header_count m) MAX_FIELDS); [lia|]. simpl. by rewrite app_nil_r. }
  destruct (Nat.ltb_spec (header_count m) MAX_FIELDS); [|lia]. cbn [andb].
  pose proof (add_pmsg_string_spec m name Hn Hlen) as HA.
  destruct (add_pmsg_string m name) as [[p|] m1]; cycle 1.
  { destruct HA as [-> HA]. destruct (Nat.leb_spec (p_msg_len m + length name + length value + 2)
      (p_max_len m)); [lia|]. by rewrite app_nil_r. }
  destruct HA as (Hr & HE & El & Hp & Hs & Ef & Es & Epr).
  assert (p_msg_len m1 <= p_max_len m1)%nat as Hl1 by (destruct HE as [-> _]; lia).
  pose proof (add_pmsg_string_spec m1 value Hv Hl1) as HB.
  destruct (add_pmsg_string m1 value) as [[q|] m2]; cycle 1.
  { destruct HB as [-> HB]. rewrite (proj1 HE), El in HB.
    destruct (Nat.leb_spec (p_msg_len m + length name + length value + 2) (p_max_len m)); [lia|].
    rewrite app_nil_r. split_and!; [split_and!; [done|by unfold header_count; rewrite Ef|]|done| | |].
    - unfold ptrs. rewrite Ef, Es, Epr. apply (extends_ptrs m m1 HE). apply Hm.
    - by apply extends_headers.
    - apply HE.
    - done. }
  destruct HB as (Hr2 & HE2 & El2 & Hq & Hs2 & Ef2 & Es2 & Epr2).
  rewrite (proj1 HE), El in Hr2.
  destruct (Nat.leb_spec (p_msg_len m + length name + length value + 2) (p_max_len m)); [|lia].
  destruct (extends_str m1 m2 p HE2 Hp) as [Hsp Hwp].
  destruct (wf_with_field m m2 (Hdrf p q)) as [HW HH]; try done; try congruence.
  - by transitivity m1.
  - destruct HE2 as [-> _], HE as [-> _]. lia.
  - split_and!; [done|done| | |].
    + rewrite HH. cbn [h_name h_value]. by rewrite Hsp, Hs, Hs2.
    + destruct HE as [<- _], HE2 as [<- _]. done.
    + intros _. cbn [p_msg_len]. lia.
Qed.

Lemma get_header_headers m name :
  get_header m name =
  (λ x, x.2.2) <$> list_find (λ h, strcaseeq h.1 name = true) (headers_of m).
Proof.
  unfold get_header, headers_of. induction (p_fields m) as [|f fs IH]; [done|]. simpl in *.
  repeat case_decide; try done.
  destruct (list_find _ fs) as [[? ?]|], (list_find _ (map _ fs)) as [[? ?]|]; done.
Qed.

Lemma list_find_app_first {A} (P : A → Prop) `{∀ x, Decision (P x)} l x :
  snd <$> list_find P (l ++ [x]) =
  match list_find P l with Some y => Some y.2 | None => if decide (P x) then Some x else None end.
Proof.
  destruct (list_find P l) as [[i y]|] eqn:E.
  - by erewrite list_find_app_l.
  - rewrite list_find_app_r by done. simpl. by case_decide.
Qed.

(** After an [add_header] that found room, [get_header] answers what it answered
    before, and the new value for a name that had no field, letter case ignored; an
    [add_header] without room changes no answer.  The message stays well-formed. *)
Theorem get_header_add m name value x :
  wf_pmsg m → no_nul name → no_nul value →
  let '(ok, m') := add_header m name value in
  wf_pmsg m' ∧
  ok = (header_count m <? MAX_FIELDS)%nat &&
       (p_msg_len m + length name + length value + 2 <=? p_max_len m)%nat ∧
  get_header m' x =
    match get_header m x with
    | Some v => Some v
    | None => if ok && strcaseeq name x then Some value else None
    end.
Proof.
  intros Hm Hn Hv. pose proof (add_header_spec m name value Hm Hn Hv) as H.
  destruct (add_header m name value) as [ok m']. destruct H as (HW & Hok & HH & _).
  split_and!; [done|done|]. rewrite !get_header_headers, HH, <- Hok. destruct ok; cbn [andb].
  - pose proof (list_find_app_first (λ h, strcaseeq h.1 x = true) (headers_of m) (name, value)) as E.
    destruct (list_find _ (headers_of m ++ _)) as [[? [? ?]]|];
      destruct (list_find _ (headers_of m)) as [[? [? ?]]|]; simpl in *; try congruence;
      case_decide; simplify_eq; destruct (strcaseeq name x); done.
  - rewrite app_nil_r. by destruct (list_find _ (headers_of m)).
Qed.

Lemma headers_of_no_nul m : wf_pmsg m → Forall (λ h, no_nul h.1 ∧ no_nul h.2) (headers_of m).
Proof.
  intros _. unfold headers_of. apply Forall_map, Forall_forall. intros f _. cbn [fst snd].
  unfold str_of. split.
  - destruct (string_at _ (h_name f)) eqn:E; [by eapply take_string_no_nul|constructor].
  - destruct (string_at _ (h_value f)) eqn:E; [by eapply take_string_no_nul|constructor].
Qed.

Lemma add_headers_room hs n m :
  wf_pmsg m → Forall (λ h, no_nul h.1 ∧ no_nul h.2) hs →
  (header_count m + length hs <= MAX_FIELDS)%nat →
  (p_msg_len m + sum_list_with (λ h, length h.1 + length h.2 + 2) hs <= p_max_len m)%nat →
  let '(n', m') := foldl (λ '(c, d) h, (S c, snd (add_header d h.1 h.2))) (n, m) hs in
  n' = (n + length hs)%nat ∧ wf_pmsg m' ∧ headers_of m' = headers_of m ++ hs.
Proof.
  intros Hm Hhs. revert n m Hm. induction Hhs as [|[nm v] hs [Hn Hv] Hhs IH]; intros n m Hm Hc Hr.
  { simpl. by rewrite app_nil_r. }
  cbn [foldl fst snd] in *. cbn [length sum_list_with fst snd] in Hc, Hr.
  pose proof (add_header_spec m nm v Hm Hn Hv) as HA. destruct (add_header m nm v) as [ok m1].
  destruct (Nat.ltb_spec (header_count m) MAX_FIELDS); [|lia].
  destruct (Nat.leb_spec (p_msg_len m + length nm + length v + 2) (p_max_len m)); [|lia].
  cbn [andb snd] in *. destruct HA as (HW & _ & HH & HM & HL). specialize (HL eq_refl).
  assert (header_count m1 = S (header_count m)) as Hc1.
  { apply (f_equal length) in HH. unfold headers_of in HH. rewrite length_app, !length_map in HH.
    unfold header_count. rewrite HH. simpl. lia. }
  specialize (IH (S n) m1 HW). destruct (foldl _ _ hs) as [n' m']. destruct IH as (-> & HW' & HH').
  - lia.
  - rewrite HM, HL. lia.
  - split_and!; [simpl; lia|done|]. rewrite HH', HH. app_eq.
Qed.

Lemma copy_headers_fold dest src name :
  copy_headers dest src name =
  foldl (λ '(c, d) h, (S c, snd (add_header d h.1 h.2))) (0%nat, dest)
    (filter (λ h, strcaseeq h.1 name = true) (headers_of src)).
Proof.
  unfold copy_headers, headers_of. generalize 0%nat as c. revert dest.
  induction (p_fields src) as [|f fs IH]; intros dest c; [done|].
  cbn [map]. rewrite !filter_cons. cbn [fst]. case_decide; cbn [foldl fst snd]; apply IH.
Qed.

(** [copy_headers] counts the fields of [src] with the given name and, when [dest]
    has room for all of them, appends exactly these, in order. *)
Theorem copy_headers_spec dest src name :
  wf_pmsg dest → wf_pmsg src →
  let hs := filter (λ h, strcaseeq h.1 name = true) (headers_of src) in
  (header_count dest + length hs <= MAX_FIELDS)%nat →
  (p_msg_len dest + sum_list_with (λ h, length h.1 + length h.2 + 2) hs <= p_max_len dest)%nat →
  let '(n, dest') := copy_headers dest src name in
  n = length hs ∧ wf_pmsg dest' ∧ headers_of dest' = headers_of dest ++ hs.
Proof.
  intros Hd Hs hs Hc Hr. rewrite copy_headers_fold. apply (add_headers_room hs 0 dest); try done.
  apply Forall_forall. intros h [_ Hh]%list_elem_of_filter. revert h Hh.
  by apply Forall_forall, headers_of_no_nul.
Qed.

(** ** Witnesses *)

Definition OPTIONS_request : list (list Z * list Z) → list Z :=
  render_request (lit "OPTIONS") (lit "rtsp://cam/cam1") (lit "RTSP/1.0").

Lemma parse_pmsg_defined_witness :
  let d := lit "OPTIONS * RTSP/1.0" ++ [CR; LF; CR; LF] ++ lit "$" in
  defined (parse_pmsg (MkPmsg d (length d) [] None None)).
Proof. apply (parse_pmsg_defined (lit "OPTIONS * RTSP/1.0") (lit "$")). vm_compute. lia. Defined.

Lemma parse_request_roundtrip_witness :
  let d := OPTIONS_request [(lit "CSeq", lit "2"); (lit "User-Agent", lit "x y")] in
  ∃ m i j k,
    parse_pmsg (MkPmsg d (length d) [] None None) = Ok (m, length d) ∧
    p_sl m = Some (PMSG_REQ i j) ∧ p_proto_id m = Some k ∧
    str_of m i = lit "OPTIONS" ∧ str_of m j = lit "rtsp://cam/cam1" ∧ str_of m k = lit "RTSP/1.0" ∧
    headers_of m = [(lit "CSeq", lit "2"); (lit "User-Agent", lit "x y")].
Proof.
  apply (parse_request_roundtrip (lit "OPTIONS") (lit "rtsp://cam/cam1") (lit "RTSP/1.0"));
    plain_witness.
Defined.

Lemma parse_request_overflow_witness :
  let d := OPTIONS_request (replicate 33 (lit "X", lit "y")) in
  parse_pmsg (MkPmsg d (length d) [] None None) = Undef.
Proof.
  apply (parse_request_overflow (lit "OPTIONS") (lit "rtsp://cam/cam1") (lit "RTSP/1.0"));
    plain_witness.
Defined.

Lemma parse_response_roundtrip_witness :
  let d := render_response (lit "RTSP" ++ 47 :: lit "1.0") 200 (lit "OK") [(lit "CSeq", lit "2")] in
  ∃ m j k,
    parse_pmsg (MkPmsg d (length d) [] None None) = Ok (m, length d) ∧
    p_sl m = Some (PMSG_RESP 200 (Some j)) ∧ p_proto_id m = Some k ∧
    str_of m j = lit "OK" ∧ str_of m k = lit "RTSP/1.0" ∧ headers_of m = [(lit "CSeq", lit "2")].
Proof. apply (parse_response_roundtrip (lit "RTSP") (lit "1.0")); plain_witness. Defined.

Definition empty_reply : pmsg := MkPmsg (replicate 64 0) 0 [] None None.

Lemma get_header_add_witness :
  get_header (snd (add_header empty_reply (lit "CSeq") (lit "7"))) (lit "cseq") = Some (lit "7").
Proof.
  pose proof (get_header_add empty_reply (lit "CSeq") (lit "7") (lit "cseq")) as H.
  destruct (add_header empty_reply (lit "CSeq") (lit "7")) as [ok m'] eqn:E. cbn [snd].
  destruct H as (_ & Hok & ->); [| | |rewrite Hok; reflexivity].
  - split_and!; [vm_compute; lia|vm_compute; lia|constructor].
  - repeat constructor; vm_compute; discriminate.
  - repeat constructor; vm_compute; discriminate.
Defined.

Lemma copy_headers_spec_witness :
  let src := snd (add_header empty_reply (lit "CSeq") (lit "7")) in
  fst (copy_headers empty_reply src (lit "cseq")) = 1%nat.
Proof.
  intros src. pose proof (copy_headers_spec empty_reply src (lit "cseq")) as H.
  destruct (copy_headers empty_reply src (lit "cseq")) as [n d] eqn:E. cbn [fst].
  destruct H as (-> & _); [| | | |reflexivity].
  - split_and!; [vm_compute; lia|vm_compute; lia|constructor].
  - split_and!; [vm_compute; lia|vm_compute; lia|].
    repeat constructor; vm_compute; eexists; reflexivity.
  - vm_compute. lia.
  - vm_compute. lia.
Defined.
