(* ===== verification/HttpAuth.v ===== *)
(** * Digest authentication ([http-auth.c])

    Challenges, the parser of the [Authorization] header and the check of a response.
    The character arrays of [struct digest_auth_info] are the strings they hold; the
    module's two static variables are a record, [random()] a stream of its results and
    [gettimeofday] the [tv_sec] it returns. *)

From Stdlib Require Import String.
From S2P Require Import Prelude CString Md5 Pmsg.

Local Open Scope Z_scope.
Local Open Scope c_scope.

(** ** Random numbers ([spook.c]) *)

Definition random_stream := nat → Z.

Definition advance (r : random_stream) (n : nat) : random_stream := λ i, r (n + i)%nat.

Definition random_bytes (r : random_stream) (len : nat) : list Z * random_stream :=
  (map (λ i, r i .& 255) (seq 0 len), advance r len).

Definition random_id (r : random_stream) (len : nat) : list Z * random_stream :=
  (concat (map (λ i, HEX2 (r i .& 255)) (seq 0 (len / 2))), advance r (len / 2)).

(** ** State and data *)

Record digest_auth_info := MkAuth {
  a_realm : list Z; a_uri : list Z; a_nonce : list Z;
  a_opaque : list Z; a_username : list Z; a_response : list Z }.

(** [memset(&auth, 0, sizeof(auth))]. *)
Definition auth_zero : digest_auth_info := MkAuth [] [] [] [] [] [].

(** [digest_secret] and [secret_created]. *)
Record secret := MkSecret { digest_secret : list Z; secret_created : bool }.

Definition create_digest_secret (r : random_stream) : secret * random_stream :=
  let '(id, r) := random_id r 16 in (MkSecret id true, r).

(** ** Hashing *)

Fixpoint colon_chunks (v : list (list Z)) : list (list Z) :=
  match v with
  | [] => []
  | [s] => [s]
  | s :: v => s :: lit ":" :: colon_chunks v
  end.

Definition hex_string (b : list Z) : list Z := concat (map hex2 b).

(** [md5] is the uninitialised context on the stack; [MD5Init] overwrites all of it but
    the block buffer. *)
Definition md5_hash_on (md5 : MD5Context) (v : list (list Z)) : list Z :=
  hex_string (md5_of_chunks md5 (colon_chunks v)).

Definition md5_hash : list (list Z) → list Z :=
  md5_hash_on (MkMD5Context (Words 0 0 0 0) 0 0 (replicate 64 0)).

(** ** Challenges *)

(** [create_nonce]: the nonce, with the module state and random stream it leaves. *)
Definition create_nonce (st : secret) (now : Z) (r : random_stream) : list Z * secret * random_stream :=
  let '(st, r) := if secret_created st then (st, r) else create_digest_secret r in
  let '(rnd, r) := random_bytes r 12 in
  let token := hex_string (PUT_32 now ++ rnd) in
  (token ++ md5_hash [token; digest_secret st], st, r).

Definition challenge_text (realm nonce : list Z) (stale : bool) : list Z :=
  lit "Digest realm=" ++ [dquote] ++ realm ++ [dquote] ++ lit ", nonce=" ++
  [dquote] ++ nonce ++ [dquote] ++ (if stale then lit ", stale=true" else []).

(** [add_digest_challenge]; [strcpy(auth.realm, realm)] needs room for the NUL. *)
Definition add_digest_challenge (st : secret) (now : Z) (r : random_stream)
    (msg : pmsg) (realm : list Z) (stale : bool) : outcome (bool * pmsg * secret * random_stream) :=
  if (128 <=? length realm)%nat then Undef else
  let '(nonce, st, r) := create_nonce st now r in
  let '(ok, msg) := add_header_printf msg (lit "WWW-Authenticate") (challenge_text realm nonce stale) in
  Ok (ok, msg, st, r).

(** ** The [Authorization] header *)

(** Characters up to the closing quote; the end of the string is an error. *)
Fixpoint quoted_len (v : list Z) : outcome nat :=
  match v with
  | [] => Fail
  | c :: v => if c =? dquote then Ok 0%nat else n ← quoted_len v; Ok (S n)
  end.

(** Characters up to a comma, a space or the NUL. *)
Fixpoint token_len (v : list Z) : nat :=
  match v with
  | [] => 0
  | c :: v => if (c =? 44) || (c =? SP) then 0 else S (token_len v)
  end.

Fixpoint skip_sep (n : list Z) : list Z :=
  match n with
  | c :: n' => if (c =? dquote) || (c =? 44) || (c =? SP) then skip_sep n' else n
  | [] => []
  end.

(** The chain of [strncasecmp] tests: [n] starts at the directive's name, its value is
    [v[0..len)]. *)
Definition set_directive (n v : list Z) (len : nat) (auth : digest_auth_info)
    : outcome digest_auth_info :=
  let '(MkAuth realm uri nonce opaque username response) := auth in
  let s := take len v in
  if strncaseeq n (lit "realm=") 6 then
    if (128 <=? len)%nat then Fail else Ok (MkAuth s uri nonce opaque username response)
  else if strncaseeq n (lit "uri=") 4 then
    if (512 <=? len)%nat then Fail else Ok (MkAuth realm s nonce opaque username response)
  else if strncaseeq n (lit "nonce=") 6 then
    if (128 <=? len)%nat then Fail else Ok (MkAuth realm uri s opaque username response)
  else if strncaseeq n (lit "opaque=") 7 then
    if (128 <=? len)%nat then Fail else Ok (MkAuth realm uri nonce s username response)
  else if strncaseeq n (lit "username=") 9 then
    if (128 <=? len)%nat then Fail else Ok (MkAuth realm uri nonce opaque s response)
  else if strncaseeq n (lit "response=") 9 then
    if (33 <=? len)%nat then Fail else Ok (MkAuth realm uri nonce opaque username s)
  else if strncaseeq n (lit "algorithm=") 10 then
    if strncaseeq v (lit "md5") 3 then Ok auth else Fail
  else Ok auth.

(** The loop over directives; every round passes the [=] of its directive, so
    [fuel > length n] is enough. *)
Fixpoint parse_directives (fuel : nat) (n : list Z) (auth : digest_auth_info)
    : outcome digest_auth_info :=
  match fuel with
  | O => Diverge
  | S fuel =>
      match n with
      | [] => Ok auth
      | _ =>
          match strchr n 61 with
          | None => Fail
          | Some v =>
              match tail v with
              | [] => Fail
              | c :: v' =>
                  '(v, len) ←
                    (if c =? dquote then len ← quoted_len v'; Ok (v', len)
                     else Ok (c :: v', token_len (c :: v')));
                  auth ← set_directive n v len auth;
                  parse_directives fuel (skip_sep (drop len v)) auth
              end
          end
      end
  end.

Definition parse_auth_header (header : list Z) (auth : digest_auth_info) : outcome digest_auth_info :=
  if strncaseeq header (lit "digest ") 7 then
    parse_directives (S (length header)) (drop 7 header) auth
  else Fail.

(** ** Checking a response *)

Definition create_response (auth : digest_auth_info) (method password : list Z) : list Z :=
  let ha1 := md5_hash [a_username auth; a_realm auth; password] in
  let ha2 := md5_hash [method; a_uri auth] in
  md5_hash [ha1; a_nonce auth; ha2].

(** [get_hex_u32], with its loop bound [k] (8 at the call). *)
Fixpoint get_hex_u32_from (k : nat) (val : Z) (hex : list Z) : Z :=
  match k, hex with
  | S k, c :: hex =>
      if (48 <=? c) && (c <=? 57) then get_hex_u32_from k (u32 (val <<< 4) .| (c - 0)) hex
      else if (65 <=? c) && (c <=? 70) then get_hex_u32_from k (u32 (val <<< 4) .| (c - 65 + 10)) hex
      else if (97 <=? c) && (c <=? 102) then get_hex_u32_from k (u32 (val <<< 4) .| (c - 97 + 10)) hex
      else val
  | _, _ => val
  end.

Definition get_hex_u32 (hex : list Z) : Z := get_hex_u32_from 8 0 hex.

(** [check_digest_response]: -1 refused, 0 stale, 1 granted.  The comparison of the
    times is one of unsigned numbers. *)
Definition check_digest_response (st : secret) (now : Z) (msg : pmsg)
    (realm username password : list Z) : outcome Z :=
  match get_header msg (lit "authorization") with
  | None => Ok (-1)
  | Some hdr =>
      match parse_auth_header hdr auth_zero with
      | Fail => Ok (-1)
      | Undef => Undef
      | Diverge => Diverge
      | Ok auth =>
          if negb (streq (a_realm auth) realm) then Ok (-1) else
          if (0 <? length username)%nat && negb (strcaseeq (a_username auth) username) then Ok (-1) else
          match p_sl msg with
          | Some (PMSG_REQ method uri) =>
              let long := bool_decide (a_uri auth = []) && (512 <=? length (str_of msg uri))%nat in
              if long then Ok (-1) else
              let auth :=
                if bool_decide (a_uri auth = []) then
                  MkAuth (a_realm auth) (str_of msg uri) (a_nonce auth) (a_opaque auth)
                    (a_username auth) (a_response auth)
                else auth in
              let expected :=
                create_response auth (str_of msg method)
                  (if (0 <? length username)%nat && (0 <? length password)%nat then password else []) in
              if negb (strcaseeq (a_response auth) expected) then Ok (-1) else
              if negb (secret_created st) || negb (length (a_nonce auth) =? 64)%nat then Ok 0 else
              let token := take 32 (a_nonce auth) in
              if negb (streq (drop 32 (a_nonce auth)) (md5_hash [token; digest_secret st])) then Ok 0 else
              if u32 (get_hex_u32 token + 15) <? u32 now then Ok 0 else
              Ok 1
          | _ => Undef   (* [sl.req] of a message that is not a request *)
          end
      end
  end.

(** ** Reference: RFC 2617 with MD5 *)

Module RFC2617.

Fixpoint join (v : list (list Z)) : list Z :=
  match v with
  | [] => []
  | [s] => s
  | s :: v => s ++ lit ":" ++ join v
  end.

(** [H(s)] in hexadecimal. *)
Definition H (v : list (list Z)) : list Z := hex_string (RFC1321.digest (join v)).

Definition request_digest (username realm password method uri nonce : list Z) : list Z :=
  H [H [username; realm; password]; nonce; H [method; uri]].

Definition quoted (name value : list Z) : list Z := name ++ 61 :: dquote :: value ++ [dquote].

(** The header a client sends. *)
Definition authorization (username realm nonce uri response : list Z) : list Z :=
  lit "Digest " ++ quoted (lit "username") username ++ lit ", " ++
  quoted (lit "realm") realm ++ lit ", " ++ quoted (lit "nonce") nonce ++ lit ", " ++
  quoted (lit "uri") uri ++ lit ", " ++ quoted (lit "response") response.

End RFC2617.

(** A string that may be written between quotes. *)
Definition unquoted (s : list Z) : Prop := Forall (λ c, c ≠ dquote) s.

(** ** Hashing *)

Lemma concat_colon_chunks v : concat (colon_chunks v) = RFC2617.join v.
Proof.
  induction v as [|s v IH]; [done|]. destruct v as [|s' v]; [apply app_nil_r|].
  cbn [colon_chunks concat RFC2617.join] in *. by rewrite IH.
Qed.

Lemma colon_chunks_short v :
  Forall (λ s, Z.of_nat (length s) < 2 ^ 32) v →
  Forall (λ s, Z.of_nat (length s) < 2 ^ 32) (colon_chunks v).
Proof.
  induction 1 as [|s v Hs Hv IH]; [constructor|]. destruct v as [|s' v]; [by repeat constructor|].
  by repeat constructor.
Qed.

(** [md5_hash] computes the hexadecimal digest of the strings joined by colons, whatever
    was on the stack. *)
Lemma md5_hash_on_spec md5 v :
  length (ctx_in md5) = 64%nat → Forall (λ s, Z.of_nat (length s) < 2 ^ 32) v →
  md5_hash_on md5 v = RFC2617.H v.
Proof.
  intros Hm Hv. unfold md5_hash_on, RFC2617.H, md5_of_chunks. f_equal.
  rewrite <- concat_colon_chunks. apply MD5Final_digest.
  apply (foldl_update_inv _ _ []); [by apply MD5Init_inv|by apply colon_chunks_short].
Qed.

Lemma md5_hash_spec v :
  Forall (λ s, Z.of_nat (length s) < 2 ^ 32) v → md5_hash v = RFC2617.H v.
Proof. by apply md5_hash_on_spec. Qed.

Lemma length_hex_string b : length (hex_string b) = (2 * length b)%nat.
Proof. unfold hex_string. induction b as [|x b IH]; [done|]. simpl in *. lia. Qed.

Lemma length_H v : length (RFC2617.H v) = 32%nat.
Proof. unfold RFC2617.H. by rewrite length_hex_string. Qed.

Lemma hex_string_chars b : Forall is_byte b → Forall (λ c, 48 <= c <= 102) (hex_string b).
Proof.
  intros Hb. unfold hex_string. induction Hb as [|x b Hx Hb IH]; [constructor|].
  cbn [map concat]. apply Forall_app; split; [|done]. unfold hex2, is_byte in *.
  assert (∀ d, 0 <= d < 16 → 48 <= hexdigit d <= 102) as Hd.
  { intros d. unfold hexdigit. destruct (Z.ltb_spec d 10); lia. }
  repeat constructor; apply Hd; Z.div_mod_to_equations; lia.
Qed.

Lemma H_chars v : Forall (λ c, 48 <= c <= 102) (RFC2617.H v).
Proof.
  apply hex_string_chars. unfold RFC1321.digest. cbv zeta.
  repeat (apply Forall_app; split); unfold le_bytes; repeat constructor; apply land_255_byte.
Qed.

Lemma create_response_spec auth method password :
  Forall (λ s, Z.of_nat (length s) < 2 ^ 32)
    [a_username auth; a_realm auth; password; method; a_uri auth; a_nonce auth] →
  create_response auth method password =
  RFC2617.request_digest (a_username auth) (a_realm auth) password method (a_uri auth) (a_nonce auth).
Proof.
  rewrite !Forall_cons. intros (H1 & H2 & H3 & H4 & H5 & H6 & _).
  unfold create_response, RFC2617.request_digest.
  rewrite (md5_hash_spec [a_username auth; a_realm auth; password]) by by repeat constructor.
  rewrite (md5_hash_spec [method; a_uri auth]) by by repeat constructor.
  apply md5_hash_spec. rewrite !Forall_cons, !length_H. by split_and!.
Qed.

(** ** The parser of the header *)

Lemma skip_sep_length n : (length (skip_sep n) <= length n)%nat.
Proof. induction n as [|c n IH]; simpl; [lia|]. destruct (_ || _ || _); simpl; lia. Qed.

Lemma strchr_suffix s c r : strchr s c = Some r → (0 < length r <= length s)%nat.
Proof.
  induction s as [|x s IH]; simpl; [done|]. destruct (x =? c); [intros [= <-]; simpl; lia|].
  intros Hr. apply IH in Hr. lia.
Qed.

Definition fits (auth : digest_auth_info) : Prop :=
  (length (a_realm auth) < 128 ∧ length (a_uri auth) < 512 ∧ length (a_nonce auth) < 128 ∧
   length (a_opaque auth) < 128 ∧ length (a_username auth) < 128 ∧ length (a_response auth) < 33)%nat.

Lemma set_directive_fits n v len auth :
  fits auth → safe (set_directive n v len auth) fits.
Proof.
  destruct auth as [realm uri nonce opaque username response]. intros Hf. unfold set_directive.
  repeat (case_match; try done); unfold fits in *;
    cbn [safe a_realm a_uri a_nonce a_opaque a_username a_response] in *; rewrite ?length_take; nat_bools; lia.
Qed.

Lemma quoted_len_safe v : safe (quoted_len v) (λ n, (n < length v)%nat).
Proof.
  induction v as [|c v IH]; simpl; [done|]. destruct (c =? dquote); simpl; [lia|].
  eapply safe_bind; [exact IH|]. simpl; lia.
Qed.

Lemma parse_directives_safe fuel n auth :
  (length n < fuel)%nat → fits auth → safe (parse_directives fuel n auth) fits.
Proof.
  revert n auth. induction fuel as [|fuel IH]; intros n auth Hf Ha; [lia|]. cbn [parse_directives].
  destruct n as [|x n]; [done|]. destruct (strchr (x :: n) 61) as [v|] eqn:Ev; [|done].
  apply strchr_suffix in Ev. destruct v as [|y v]; [simpl in Ev; lia|]. cbn [tail].
  destruct v as [|c v]; [done|].
  eapply (safe_bind _ (λ '(w, _), (length w <= length n)%nat)).
  { destruct (c =? dquote); [|simpl in *; lia].
    eapply safe_bind; [apply quoted_len_safe|]. simpl in *. lia. }
  intros [w len] Hw. eapply safe_bind; [by apply set_directive_fits|]. intros auth' Ha'.
  apply IH; [|done]. pose proof (skip_sep_length (drop len w)) as Hs. rewrite length_drop in Hs.
  simpl in Hf. lia.
Qed.

Lemma parse_auth_header_safe header auth : fits auth → safe (parse_auth_header header auth) fits.
Proof.
  intros Ha. unfold parse_auth_header. destruct (strncaseeq _ _ _); [|done].
  apply parse_directives_safe; [rewrite length_drop; lia|done].
Qed.

(** The parser of the [Authorization] header terminates on every string, and never
    copies a value that does not fit its array together with the NUL. *)
Theorem parse_auth_header_bounds header :
  defined (parse_auth_header header auth_zero) ∧
  ∀ auth, parse_auth_header header auth_zero = Ok auth → fits auth.
Proof.
  assert (fits auth_zero) as Hz by (unfold fits; simpl; lia).
  pose proof (parse_auth_header_safe header auth_zero Hz) as H.
  split; [by eapply safe_defined|]. intros auth E. by rewrite E in H.
Qed.

(** ** What a client sends is read back *)

Lemma strchr_app s c rest : Forall (λ x, x ≠ c) s → strchr (s ++ c :: rest) c = Some (c :: rest).
Proof.
  induction 1 as [|x s Hx Hs IH]; simpl; [by rewrite Z.eqb_refl|].
  by destruct (Z.eqb_spec x c).
Qed.

Lemma quoted_len_app s rest : unquoted s → quoted_len (s ++ dquote :: rest) = Ok (length s).
Proof.
  induction 1 as [|x s Hx Hs IH]; cbn [quoted_len app]; [done|].
  destruct (Z.eqb_spec x dquote); [done|]. by rewrite IH.
Qed.

Lemma parse_directives_quoted fuel name value rest auth :
  Forall (λ c, c ≠ 61) name → unquoted value →
  parse_directives (S fuel) (RFC2617.quoted name value ++ rest) auth =
  auth' ← set_directive (RFC2617.quoted name value ++ rest) (value ++ dquote :: rest) (length value) auth;
  parse_directives fuel (skip_sep rest) auth'.
Proof.
  intros Hn Hv. unfold RFC2617.quoted.
  replace ((name ++ 61 :: dquote :: value ++ [dquote]) ++ rest)
    with (name ++ 61 :: dquote :: value ++ dquote :: rest) by app_eq.
  set (n := name ++ 61 :: dquote :: value ++ dquote :: rest). cbn [parse_directives].
  assert (strchr n 61 = Some (61 :: dquote :: value ++ dquote :: rest)) as -> by by apply strchr_app.
  assert (∀ A (a b : A), match n with [] => a | _ => b end = b) as -> by (intros; by destruct name).
  cbn [tail]. change (dquote =? dquote) with true. cbv iota. rewrite quoted_len_app by done.
  cbn [mbind outcome_bind]. by rewrite drop_app_length.
Qed.

(** One directive of a header with known names. *)
Ltac directive :=
  rewrite parse_directives_quoted; [|by refine (bool_decide_unpack _ _); vm_compute|done];
  unfold set_directive at 1; cbv zeta; cbv iota;
  repeat match goal with
  | |- context [strncaseeq ?n ?t ?k] =>
      first [change (strncaseeq n t k) with false | change (strncaseeq n t k) with true]; cbv iota
  end;
  match goal with |- context [(?a <=? ?b)%nat] => destruct (Nat.leb_spec a b); [lia|] end;
  rewrite bind_Ok, take_app_length;
  try match goal with |- context [skip_sep (lit ", " ++ ?x)] =>
    change (skip_sep (lit ", " ++ x)) with x
  end.

Lemma parse_authorization username realm nonce uri response :
  Forall unquoted [username; realm; nonce; uri; response] →
  fits (MkAuth realm uri nonce [] username response) →
  parse_auth_header (RFC2617.authorization username realm nonce uri response) auth_zero =
  Ok (MkAuth realm uri nonce [] username response).
Proof.
  rewrite !Forall_cons. intros (H1 & H2 & H3 & H4 & H5 & _) (L1 & L2 & L3 & _ & L5 & L6).
  cbn [a_realm a_uri a_nonce a_username a_response] in *.
  unfold parse_auth_header. set (header := RFC2617.authorization _ _ _ _ _).
  assert (strncaseeq header (lit "digest ") 7 = true) as -> by reflexivity.
  assert (∃ k, S (length header) = S (S (S (S (S (S k)))))) as [k ->].
  { exists (length header - 5)%nat. unfold header, RFC2617.authorization.
    rewrite !length_app. change (length (lit "Digest ")) with 7%nat. lia. }
  change (drop 7 header) with (RFC2617.quoted (lit "username") username ++ lit ", " ++
    RFC2617.quoted (lit "realm") realm ++ lit ", " ++ RFC2617.quoted (lit "nonce") nonce ++ lit ", " ++
    RFC2617.quoted (lit "uri") uri ++ lit ", " ++ RFC2617.quoted (lit "response") response).
  unfold auth_zero. rewrite <- (app_nil_r (RFC2617.quoted (lit "response") response)).
  do 5 directive. done.
Qed.

(** ** The time in a nonce *)

(** The bits of [a] are bits of [b]. *)
Definition bits_in (a b : Z) : Prop := ∀ i, 0 <= i → Z.testbit a i = true → Z.testbit b i = true.

Lemma bits_in_le a b : 0 <= b → bits_in a b → a <= b.
Proof.
  intros Hb H. apply Z.ldiff_le; [done|]. apply Z.bits_inj'. intros i Hi.
  rewrite Z.ldiff_spec, Z.bits_0. specialize (H i Hi). destruct (Z.testbit a i); [|done].
  by rewrite H.
Qed.

(** What the loop ors in for the hexadecimal digit [d]: 48 too much for a decimal one. *)
Definition read_digit (d : Z) : Z := if d <? 10 then 48 + d else d.

Lemma get_hex_step k val d hex :
  0 <= d < 16 →
  get_hex_u32_from (S k) val (hexdigit d :: hex) =
  get_hex_u32_from k (u32 (val <<< 4) .| read_digit d) hex.
Proof.
  intros Hd. unfold hexdigit, read_digit. cbn [get_hex_u32_from].
  destruct (Z.ltb_spec d 10).
  - destruct (Z.leb_spec 48 (48 + d)); [|lia]. destruct (Z.leb_spec (48 + d) 57); [|lia].
    cbn [andb]. by rewrite Z.sub_0_r.
  - destruct (Z.leb_spec (87 + d) 57); [lia|]. rewrite andb_false_r.
    destruct (Z.leb_spec (87 + d) 70); [lia|]. rewrite andb_false_r.
    destruct (Z.leb_spec 97 (87 + d)); [|lia]. destruct (Z.leb_spec (87 + d) 102); [|lia].
    cbn [andb]. do 3 f_equal. lia.
Qed.

Lemma read_digit_bits d : 0 <= d < 16 → bits_in d (read_digit d) ∧ 0 <= read_digit d < 64.
Proof.
  intros Hd. assert (Forall (λ d, (d .| read_digit d = read_digit d) ∧ 0 <= read_digit d < 64)
    (seqZ 0 16)) as HF by (repeat (constructor; [by vm_compute|]); constructor).
  rewrite Forall_forall in HF. destruct (HF d) as [E ?]; [apply elem_of_seqZ; lia|].
  split; [|done]. intros i Hi Hb. by rewrite <- E, Z.lor_spec, Hb.
Qed.

Lemma u32_testbit x i : 0 <= i < 32 → Z.testbit (u32 x) i = Z.testbit x i.
Proof. intros. unfold u32. apply Z.mod_pow2_bits_low. lia. Qed.

(** One more digit keeps the true value's bits, and passes the high bits on. *)
Lemma hex_step_bits v val d :
  0 <= v < 2 ^ 28 → bits_in v val → 0 <= d < 16 →
  bits_in (v * 16 + d) (u32 (val <<< 4) .| read_digit d).
Proof.
  intros Hv Hval Hd i Hi. destruct (read_digit_bits d Hd) as [Hr _].
  replace (v * 16 + d) with ((v <<< 4) .| d) by (rewrite lor_shiftl_add; lia).
  rewrite !Z.lor_spec, !orb_true_iff. intros [Hb|Hb]; [left|right; auto].
  destruct (Z.lt_ge_cases i 4); [by rewrite Z.shiftl_spec_low in Hb|].
  rewrite Z.shiftl_spec in Hb by done.
  assert (i < 32).
  { destruct (Z.lt_ge_cases i 32); [done|]. rewrite Z.bits_above_log2 in Hb; [done|lia|].
    destruct (Z.eq_dec v 0) as [->|]; [simpl; lia|].
    apply Z.lt_le_trans with 28; [apply Z.log2_lt_pow2; lia|lia]. }
  rewrite u32_testbit, Z.shiftl_spec by lia. apply Hval; [lia|done].
Qed.

Lemma hex_step_high val d i :
  0 <= d < 16 → 2 <= i < 28 →
  Z.testbit (u32 (val <<< 4) .| read_digit d) (i + 4) = Z.testbit val i.
Proof.
  intros Hd Hi. destruct (read_digit_bits d Hd) as [_ Hr].
  rewrite Z.lor_spec, u32_testbit, Z.shiftl_spec by lia. replace (i + 4 - 4) with i by lia.
  replace (Z.testbit (read_digit d) (i + 4)) with false; [by rewrite orb_false_r|].
  symmetry. destruct (Z.eq_dec (read_digit d) 0) as [->|]; [apply Z.bits_0|].
  apply Z.bits_above_log2; [lia|].
  apply Z.lt_le_trans with 6; [apply Z.log2_lt_pow2; lia|lia].
Qed.

(** The decoded time is the true time with more bits set, below [2^31] as the true one. *)
Lemma get_hex_u32_bounds d0 d1 d2 d3 d4 d5 d6 d7 rest :
  0 <= d0 < 8 → Forall (λ d, 0 <= d < 16) [d1; d2; d3; d4; d5; d6; d7] →
  let t := ((((((d0 * 16 + d1) * 16 + d2) * 16 + d3) * 16 + d4) * 16 + d5) * 16 + d6) * 16 + d7 in
  t <= get_hex_u32 (map hexdigit [d0; d1; d2; d3; d4; d5; d6; d7] ++ rest) < 2 ^ 31.
Proof.
  rewrite !Forall_cons. intros H0 (H1 & H2 & H3 & H4 & H5 & H6 & H7 & _) t.
  unfold get_hex_u32. cbn [map app]. rewrite !get_hex_step by lia.
  set (v1 := u32 (0 <<< 4) .| read_digit d0). set (v2 := u32 (v1 <<< 4) .| read_digit d1).
  set (v3 := u32 (v2 <<< 4) .| read_digit d2). set (v4 := u32 (v3 <<< 4) .| read_digit d3).
  set (v5 := u32 (v4 <<< 4) .| read_digit d4). set (v6 := u32 (v5 <<< 4) .| read_digit d5).
  set (v7 := u32 (v6 <<< 4) .| read_digit d6). set (v8 := u32 (v7 <<< 4) .| read_digit d7).
  assert (get_hex_u32_from 0 v8 rest = v8) as -> by done.
  assert (0 <= v8 < 2 ^ 32) as Hv8.
  { destruct (read_digit_bits d7) as [_ Hr]; [lia|]. unfold v8.
    pose proof (u32_range (v7 <<< 4)) as Hu. split; [apply Z.lor_nonneg; lia|].
    apply Z.log2_lt_cancel. rewrite Z.log2_lor, Z.log2_pow2 by lia.
    apply Z.max_lub_lt.
    - destruct (Z.eq_dec (u32 (v7 <<< 4)) 0) as [->|]; [done|apply Z.log2_lt_pow2; lia].
    - destruct (Z.eq_dec (read_digit d7) 0) as [->|]; [done|apply Z.log2_lt_pow2; lia]. }
  split.
  - apply bits_in_le; [lia|]. unfold t.
    repeat (apply hex_step_bits; [lia| |lia]).
    change v1 with (read_digit d0). by apply read_digit_bits; lia.
  - destruct (Z.lt_ge_cases v8 (2 ^ 31)) as [|Hge]; [done|exfalso].
    assert (Z.testbit v8 31 = true) as Hb.
    { rewrite Z.testbit_true by done. replace (v8 / 2 ^ 31) with 1; [done|].
      apply Z.div_unique with (v8 - 2 ^ 31); lia. }
    revert Hb. unfold v8, v7, v6, v5, v4, v3, v2.
    rewrite (hex_step_high _ d7 27), (hex_step_high _ d6 23), (hex_step_high _ d5 19),
      (hex_step_high _ d4 15), (hex_step_high _ d3 11), (hex_step_high _ d2 7),
      (hex_step_high _ d1 3) by lia.
    change v1 with (read_digit d0).
    assert (Forall (λ d, Z.testbit (read_digit d) 3 = false) (seqZ 0 8)) as HF
      by (repeat (constructor; [by vm_compute|]); constructor).
    rewrite Forall_forall in HF. rewrite HF; [done|apply elem_of_seqZ; lia].
Qed.

Lemma hex_string_PUT_32 t :
  0 <= t < 2 ^ 32 →
  hex_string (PUT_32 t) = map hexdigit
    [t / 2 ^ 28; t / 2 ^ 24 mod 16; t / 2 ^ 20 mod 16; t / 2 ^ 16 mod 16;
     t / 2 ^ 12 mod 16; t / 2 ^ 8 mod 16; t / 2 ^ 4 mod 16; t mod 16].
Proof.
  intros Ht. unfold hex_string, PUT_32. cbn [map concat hex2 app].
  rewrite !land_255, !shiftr_div by lia.
  repeat (apply (f_equal2 (@cons Z)); [apply (f_equal hexdigit); Z.div_mod_to_equations; lia|]). done.
Qed.

Lemma get_hex_u32_nonce t rest :
  0 <= t < 2 ^ 31 → t <= get_hex_u32 (hex_string (PUT_32 t) ++ rest) < 2 ^ 31.
Proof.
  intros Ht. rewrite hex_string_PUT_32 by lia.
  match goal with |- context [map hexdigit [?a; ?b; ?c; ?d; ?e; ?f; ?g; ?h]] =>
    pose proof (get_hex_u32_bounds a b c d e f g h rest) as H end.
  cbv zeta in H. destruct H as [H1 H2].
  - Z.div_mod_to_equations; lia.
  - repeat constructor; apply Z.mod_pos_bound; lia.
  - split; [|done]. etransitivity; [|exact H1]. clear. Z.div_mod_to_equations; lia.
Qed.

(** ** Challenge and response *)

(** [create_digest_secret] writes 16 characters. *)
Definition wf_secret (st : secret) : Prop := secret_created st = true → length (digest_secret st) = 16%nat.

Definition effective_password (username password : list Z) : list Z :=
  if (0 <? length username)%nat && (0 <? length password)%nat then password else [].

Definition short (s : list Z) : Prop := Z.of_nat (length s) < 2 ^ 32.

(** The shape of a nonce: a 32-character token that starts with the time, and its MAC. *)
Lemma create_nonce_spec st t r nonce st' r' :
  wf_secret st → create_nonce st t r = (nonce, st', r') →
  secret_created st' = true ∧ length (digest_secret st') = 16%nat ∧
  ∃ rnd, length rnd = 12%nat ∧ Forall is_byte rnd ∧
    let token := hex_string (PUT_32 t ++ rnd) in
    nonce = token ++ RFC2617.H [token; digest_secret st'] ∧ length token = 32%nat.
Proof.
  intros Hst. unfold create_nonce.
  destruct (if secret_created st then (st, r) else create_digest_secret r) as [st1 r1] eqn:E1.
  assert (secret_created st1 = true ∧ length (digest_secret st1) = 16%nat) as [H1 H2].
  { destruct (secret_created st) eqn:E; [simplify_eq; auto|]. unfold create_digest_secret, random_id in E1.
    simplify_eq. by split. }
  unfold random_bytes. rewrite !pair_eq. intros [[<- <-] <-]. split_and!; [done|done|].
  exists (map (λ k, r1 k .& 255) (seq 0 12)). split; [by rewrite length_map|]. split.
  { apply Forall_forall. intros x Hx. apply list_elem_of_In, in_map_iff in Hx.
    destruct Hx as (i & <- & _). apply land_255_byte. }
  split; [|rewrite length_hex_string, length_app, length_map; done].
  f_equal. apply md5_hash_spec. rewrite !Forall_cons.
  rewrite length_hex_string, length_app, length_map, H2. by split_and!.
Qed.

Section exchange.
Context (st st' : secret) (r r' : random_stream) (t : Z) (nonce : list Z).
Context (msg : pmsg) (i j : nat) (user uri realm username password : list Z).
Abbreviation method := (str_of msg i).
Abbreviation pw := (effective_password username password).

(** The server issued [nonce] at time [t]; a client that knows the password answers with
    the RFC 2617 digest in a request for [uri]. *)
Hypothesis Hst : wf_secret st.
Hypothesis Hnonce : create_nonce st t r = (nonce, st', r').
Hypothesis Ht : 0 <= t < 2 ^ 31.
Hypothesis Hreq : p_sl msg = Some (PMSG_REQ i j).
Hypothesis Huser : username = [] ∨ strcaseeq user username = true.
Hypothesis Hquote : Forall unquoted [user; realm; uri].
Hypothesis Hlen : (length user < 128 ∧ length realm < 128 ∧ 0 < length uri < 512)%nat.
Hypothesis Hshort : short method ∧ short password.
Hypothesis Hauth : get_header msg (lit "authorization") =
  Some (RFC2617.authorization user realm nonce uri
          (RFC2617.request_digest user realm pw method uri nonce)).

Lemma pw_short : short pw.
Proof. unfold effective_password. destruct (_ && _); [apply Hshort|done]. Qed.

(** The exchange is accepted up to the time the nonce decodes to, plus 15 seconds. *)
Lemma exchange_until now :
  0 <= now < 2 ^ 32 →
  check_digest_response st' now msg realm username password =
  Ok (if now <=? get_hex_u32 (take 32 nonce) + 15 then 1 else 0).
Proof.
  intros Hnow. destruct (create_nonce_spec _ _ _ _ _ _ Hst Hnonce) as (Hc & Hs & rnd & Hr & Hrb & En & Htok).
  set (token := hex_string (PUT_32 t ++ rnd)) in *.
  pose proof Hquote as HQ. rewrite !Forall_cons in HQ. destruct HQ as (Q1 & Q2 & Q3 & _).
  assert (length nonce = 64%nat) as Hn by (rewrite En, length_app, length_H; lia).
  assert (Forall (λ c, 48 <= c <= 102) nonce) as Hnc.
  { rewrite En. apply Forall_app; split; [|apply H_chars]. apply hex_string_chars.
    apply Forall_app; split; [apply PUT_32_bytes|done]. }
  assert (∀ s, Forall (λ c, 48 <= c <= 102) s → unquoted s) as Hu.
  { intros s HF. eapply Forall_impl; [exact HF|]. unfold dquote. simpl. lia. }
  unfold check_digest_response. rewrite Hauth, parse_authorization; cycle 1.
  { rewrite !Forall_cons. split_and!; auto. apply Hu, H_chars. }
  { unfold fits. cbn [a_realm a_uri a_nonce a_opaque a_username a_response].
    unfold RFC2617.request_digest. rewrite length_H. simpl. lia. }
  cbn [a_realm a_uri a_nonce a_opaque a_username a_response]. rewrite streq_refl. cbn [negb].
  assert ((0 <? length username)%nat && negb (strcaseeq user username) = false) as ->.
  { destruct Huser as [->|Hx]; [done|]. rewrite Hx. apply andb_false_r. }
  rewrite Hreq. destruct uri as [|u uri'] eqn:Euri; [simpl in Hlen; lia|]. rewrite <- Euri in *.
  assert (bool_decide (uri = []) = false) as -> by (apply bool_decide_eq_false; by rewrite Euri).
  cbn [andb]. fold pw. rewrite create_response_spec; cycle 1.
  { cbn [a_realm a_uri a_nonce a_opaque a_username a_response]. rewrite !Forall_cons.
    destruct Hshort. pose proof pw_short. unfold short in *. split_and!; try done; lia. }
  cbn [a_realm a_uri a_nonce a_opaque a_username a_response]. rewrite strcaseeq_refl, Hc, Hn.
  cbn [negb orb Nat.eqb].
  assert (take 32 nonce = token) as Etk by (rewrite En, <- Htok; by rewrite take_app_length).
  rewrite Etk. assert (drop 32 nonce = RFC2617.H [token; digest_secret st']) as ->
    by (rewrite En, <- Htok; by rewrite drop_app_length).
  rewrite md5_hash_spec, streq_refl; [|rewrite !Forall_cons, Htok, Hs; by split_and!].
  cbn [negb]. unfold token, hex_string. rewrite map_app, concat_app.
  pose proof (get_hex_u32_nonce t (concat (map hex2 rnd)) Ht) as Hg.
  fold (hex_string (PUT_32 t)). set (g := get_hex_u32 _) in *.
  rewrite !u32_small by lia. destruct (Z.ltb_spec (g + 15) now), (Z.leb_spec now (g + 15)); try lia; done.
Qed.

Lemma nonce_time_lower : t <= get_hex_u32 (take 32 nonce).
Proof.
  destruct (create_nonce_spec _ _ _ _ _ _ Hst Hnonce) as (Hc & Hs & rnd & Hr & Hrb & En & Htok).
  rewrite En, <- Htok, take_app_length. unfold hex_string. rewrite map_app, concat_app.
  by apply get_hex_u32_nonce.
Qed.

(** A client that knows the user name and password, and answers a challenge within
    15 seconds with the digest of RFC 2617, is granted access. *)
Theorem digest_exchange_granted now :
  t <= now <= t + 15 → check_digest_response st' now msg realm username password = Ok 1.
Proof.
  intros Hnow. rewrite exchange_until by lia. pose proof nonce_time_lower.
  by destruct (Z.leb_spec now (get_hex_u32 (take 32 nonce) + 15)); [|lia].
Qed.
End exchange.

Lemma take_string_length l s : take_string l = Some s → (length s <= length l)%nat.
Proof.
  revert s. induction l as [|c l IH]; intros s; simpl; [done|].
  destruct (c =? 0); [intros [= <-]; simpl; lia|].
  destruct (take_string l); simpl; [|done]. intros [= <-]. simpl. specialize (IH _ eq_refl). lia.
Qed.

Lemma str_of_short msg i : short (p_msg msg) → short (str_of msg i).
Proof.
  unfold short, str_of, string_at. intros H.
  destruct (take_string (drop i (p_msg msg))) eqn:E; simpl; [|lia].
  apply take_string_length in E. rewrite length_drop in E. lia.
Qed.


(** ** Witnesses *)

Definition w_time : Z := 0x60000000.
Definition w_random : random_stream := λ i, 7 * Z.of_nat i.
Definition w_challenge : list Z * secret * random_stream :=
  create_nonce (MkSecret [] false) w_time w_random.
Definition w_nonce : list Z := w_challenge.1.1.
Definition w_secret : secret := w_challenge.1.2.

Definition w_request : pmsg :=
  let d := render_request (lit "DESCRIBE") (lit "rtsp://cam/a") (lit "RTSP/1.0")
    [(lit "CSeq", lit "2");
     (lit "Authorization",
      RFC2617.authorization (lit "Admin") (lit "cam") w_nonce (lit "rtsp://cam/a")
        (RFC2617.request_digest (lit "Admin") (lit "cam") (lit "secret") (lit "DESCRIBE")
           (lit "rtsp://cam/a") w_nonce))] in
  match parse_pmsg (MkPmsg d (length d) [] None None) with Ok (m, _) => m | _ => MkPmsg [] 0 [] None None end.

Lemma digest_exchange_granted_witness :
  check_digest_response w_secret (w_time + 9) w_request (lit "cam") (lit "admin") (lit "secret") = Ok 1.
Proof.
  apply (digest_exchange_granted (MkSecret [] false) w_secret w_random w_challenge.2 w_time w_nonce
    w_request 0 9 (lit "Admin") (lit "rtsp://cam/a") (lit "cam") (lit "admin") (lit "secret")).
  - done.
  - by vm_compute.
  - done.
  - by vm_compute.
  - right. reflexivity.
  - rewrite !Forall_cons. split_and!; try by refine (bool_decide_unpack _ _); vm_compute.
  - vm_compute. lia.
  - by vm_compute.
  - by vm_compute.
  - unfold w_time. lia.
Defined.


(** The check does not enforce the 15 seconds its comment names -- a nonce issued at
    [0x60000000] is still good ten years later, because [get_hex_u32] subtracts 0 instead
    of the character code of 0 from a decimal digit. *)
Theorem nonce_outlives_its_term :
  check_digest_response w_secret (w_time + 10 * 365 * 24 * 3600) w_request
    (lit "cam") (lit "admin") (lit "secret") = Ok 1.
Proof. by vm_compute. Qed.
