(* ===== verification/SendBuf.v ===== *)
(** * The send side of a TCP connection ([tcp.c], [rtsp.c])

    Each connection has a ring buffer ([send_buf] with its read and write indices) that
    [send_data] fills and the write event drains.  The file models the buffer and its
    users -- [avail_send_buf], [send_data], [conn_write], [tcp_conn_flush],
    [interleave_send], [tcp_send_pmsg] -- and relates it to the queue of bytes it
    implements. *)

From Stdlib Require Import String.
From S2P Require Import Prelude CString Pmsg.

Local Open Scope Z_scope.
Local Open Scope c_scope.

(** [send_buf], [send_buf_r], [send_buf_w] and whether [write_event] is enabled;
    [sizeof(c->send_buf)] is the length of the list. *)
Record ring := MkRing {
  send_buf : list Z;
  send_buf_r : nat;
  send_buf_w : nat;
  write_enabled : bool }.

(** [next_index]: an index after [++], back to 0 at the end of the array. *)
Definition next_index (c : ring) (i : nat) : nat :=
  if (S i =? length (send_buf c))%nat then 0%nat else S i.

Definition avail_send_buf (c : ring) : nat :=
  if (send_buf_w c <? send_buf_r c)%nat then send_buf_r c - send_buf_w c - 1
  else length (send_buf c) - send_buf_w c + send_buf_r c - 1.

(** The [while (--len >= 0)] loop of [send_data]. *)
Fixpoint store (c : ring) (d : list Z) : ring :=
  match d with
  | [] => c
  | b :: d =>
      store (MkRing (<[send_buf_w c := b]> (send_buf c)) (send_buf_r c) (next_index c (send_buf_w c))
               (write_enabled c)) d
  end.

(** [true] is [return 0]; [return 1] leaves the buffer alone. *)
Definition send_data (c : ring) (d : list Z) : bool * ring :=
  if (avail_send_buf c <? length d)%nat then (false, c)
  else
    let c := store c d in
    (true, MkRing (send_buf c) (send_buf_r c) (send_buf_w c) true).

(** What [write] answers to one call: how many bytes it took, [EAGAIN], or another
    failure (which includes the 0 of a closed socket). *)
Inductive write_result :=
| Wrote (n : nat)
| Again
| Failed.

(** The length of the contiguous stretch at the read index. *)
Definition stretch (c : ring) : nat :=
  if (send_buf_w c <? send_buf_r c)%nat then length (send_buf c) - send_buf_r c
  else send_buf_w c - send_buf_r c.

Definition consume (c : ring) (n : nat) : ring :=
  let r := (send_buf_r c + n)%nat in
  MkRing (send_buf c) (if (r =? length (send_buf c))%nat then 0%nat else r) (send_buf_w c)
    (write_enabled c).

(** The drain loop shared by [conn_write] and [tcp_conn_flush]: [ws] are the results of
    the successive [write] calls, [out] the bytes handed to the kernel so far.  A loop
    that is still running when [ws] ends has not returned. *)
Fixpoint drain (ws : list write_result) (c : ring) (out : list Z) : outcome (bool * ring * list Z) :=
  if (send_buf_r c =? send_buf_w c)%nat then Ok (true, c, out) else
  match ws with
  | [] => Diverge
  | Again :: ws => drain ws c out
  | Failed :: _ => Ok (false, c, out)
  | Wrote n :: ws =>
      if (n =? 0)%nat then Ok (false, c, out)
      else if (stretch c <? n)%nat then Undef
      else drain ws (consume c n) (out ++ take n (drop (send_buf_r c) (send_buf c)))
  end.

(** [tcp_conn_flush]: a failure stops the loop and is not reported. *)
Definition tcp_conn_flush (ws : list write_result) (c : ring) : outcome (ring * list Z) :=
  '(ok, c, out) ← drain ws c []; Ok (c, out).

(** [conn_write]: [true] when the connection is to be dropped, after a failure or when
    everything is sent and [drop_after] is set. *)
Definition conn_write (ws : list write_result) (c : ring) (drop_after : bool)
    : outcome (bool * ring * list Z) :=
  '(ok, c, out) ← drain ws c [];
  if (ok : bool) then
    if drop_after then Ok (true, c, out)
    else Ok (false, MkRing (send_buf c) (send_buf_r c) (send_buf_w c) false, out)
  else Ok (true, c, out).

(** [interleave_send]: an RTP or RTCP packet, given as its iovec, behind a four-byte
    header; [true] is [return 0].  The data is what the packet layer passes, so the
    results of [send_data] are not looked at. *)
Definition interleave_head (chan : Z) (len : nat) : list Z :=
  [36; u8 chan] ++ PUT_16 (Z.of_nat len).

Definition interleave_send (ws : list write_result) (c : ring) (chan : Z) (v : list (list Z))
    : outcome (bool * ring * list Z) :=
  let len := sum_list_with length v in
  '(c, out) ←
    (if (avail_send_buf c <? len + 4)%nat then tcp_conn_flush ws c else Ok (c, []));
  if (avail_send_buf c <? len + 4)%nat then Ok (false, c, out) else
  let c := snd (send_data c (interleave_head chan len)) in
  Ok (true, foldl (λ c b, snd (send_data c b)) c v, out).

(** [%s] of a pointer that may be NULL, as the C library prints it. *)
Definition str_or_null (m : pmsg) (p : option nat) : list Z :=
  match p with Some off => str_of m off | None => lit "(null)" end.

Definition crlf : list Z := [CR; LF].

(** The bytes [tcp_send_pmsg] formats into [buf[2048]] for a response. *)
Definition format_response (m : pmsg) (code : Z) (reason : option nat) (len : option Z) : list Z :=
  str_or_null m (p_proto_id m) ++ [SP] ++ dec code ++ [SP] ++ str_or_null m reason ++ crlf ++
  concat (map (λ f, str_of m (h_name f) ++ lit ": " ++ str_of m (h_value f) ++ crlf) (p_fields m)) ++
  match len with
  | Some n => lit "Content-Length: " ++ dec n ++ crlf ++ crlf
  | None => crlf
  end.

(** [tcp_send_pmsg]; [len] is [None] for a negative length.  [Fail] is [return -1]; the
    text with its NUL has to fit [buf]. *)
Definition tcp_send_pmsg (c : ring) (m : pmsg) (len : option Z) : outcome ring :=
  match p_sl m with
  | Some (PMSG_RESP code reason) =>
      let text := format_response m code reason len in
      if (2048 <=? length text)%nat then Undef else
      if Z.of_nat (avail_send_buf c) <? Z.of_nat (length text) + default 0 len then Fail
      else Ok (snd (send_data c text))
  | _ => Fail
  end.

(** ** The queue the buffer implements *)

Definition wf_ring (c : ring) : Prop :=
  (send_buf_r c < length (send_buf c) ∧ send_buf_w c < length (send_buf c))%nat.

Definition queue (c : ring) : list Z :=
  if (send_buf_w c <? send_buf_r c)%nat then
    drop (send_buf_r c) (send_buf c) ++ take (send_buf_w c) (send_buf c)
  else take (send_buf_w c - send_buf_r c) (drop (send_buf_r c) (send_buf c)).

Lemma queue_length c :
  wf_ring c →
  length (queue c) =
  if (send_buf_w c <? send_buf_r c)%nat then (length (send_buf c) - send_buf_r c + send_buf_w c)%nat
  else (send_buf_w c - send_buf_r c)%nat.
Proof.
  intros [Hr Hw]. unfold queue. destruct (_ <? _)%nat eqn:E; nat_bools.
  - rewrite length_app, length_drop, length_take. lia.
  - rewrite length_take, length_drop. lia.
Qed.

(** One slot always stays free. *)
Lemma avail_queue c :
  wf_ring c → (avail_send_buf c + length (queue c) + 1 = length (send_buf c))%nat.
Proof.
  intros Hc. rewrite queue_length by done. destruct Hc. unfold avail_send_buf.
  destruct (Nat.ltb_spec (send_buf_w c) (send_buf_r c)); lia.
Qed.

Lemma take_insert_snoc (l : list Z) i b : (i < length l)%nat → take (S i) (<[i := b]> l) = take i l ++ [b].
Proof.
  intros Hi. rewrite insert_take_drop by done.
  replace (S i) with (length (take i l ++ [b])) at 1 by (rewrite length_app, length_take; simpl; lia).
  by rewrite (app_assoc (take i l) [b] (drop (S i) l) : take i l ++ b :: _ = _), take_app_length.
Qed.

Definition put (c : ring) (b : Z) : ring :=
  MkRing (<[send_buf_w c := b]> (send_buf c)) (send_buf_r c) (next_index c (send_buf_w c)) (write_enabled c).

(** A byte goes to the end of the queue. *)
Lemma put_queue c b :
  wf_ring c → (0 < avail_send_buf c)%nat → wf_ring (put c b) ∧ queue (put c b) = queue c ++ [b].
Proof.
  intros Hc Ha. pose proof Hc as [Hr Hw]. unfold put, wf_ring, queue, next_index, avail_send_buf in *.
  cbn [send_buf send_buf_r send_buf_w].
  destruct (Nat.ltb_spec (send_buf_w c) (send_buf_r c)) as [Hlt|Hge].
  - destruct (Nat.eqb_spec (S (send_buf_w c)) (length (send_buf c))); [lia|].
    destruct (Nat.ltb_spec (S (send_buf_w c)) (send_buf_r c)); [|lia].
    rewrite length_insert. split; [lia|].
    rewrite drop_insert_lt by lia. rewrite take_insert_snoc by done. app_eq.
  - destruct (Nat.eqb_spec (S (send_buf_w c)) (length (send_buf c))) as [E|E].
    + destruct (Nat.ltb_spec 0 (send_buf_r c)); [|lia]. rewrite length_insert. split; [lia|].
      rewrite take_0, app_nil_r, drop_insert_ge by lia.
      rewrite <- (take_insert_snoc (drop (send_buf_r c) (send_buf c))) by (rewrite length_drop; lia).
      symmetry. apply take_ge. rewrite length_insert, length_drop. lia.
    + destruct (Nat.ltb_spec (S (send_buf_w c)) (send_buf_r c)); [lia|].
      rewrite length_insert. split; [lia|]. rewrite drop_insert_ge by lia.
      replace (S (send_buf_w c) - send_buf_r c)%nat with (S (send_buf_w c - send_buf_r c)) by lia.
      apply take_insert_snoc. rewrite length_drop. lia.
Qed.

Lemma store_queue d c :
  wf_ring c → (length d <= avail_send_buf c)%nat →
  wf_ring (store c d) ∧ queue (store c d) = queue c ++ d ∧
  length (send_buf (store c d)) = length (send_buf c).
Proof.
  revert c. induction d as [|b d IH]; intros c Hc Hd; simpl; [by rewrite app_nil_r|].
  fold (put c b). simpl in Hd. destruct (put_queue c b Hc) as [Hp Eq]; [lia|].
  assert (length (send_buf (put c b)) = length (send_buf c)) as El by apply length_insert.
  destruct (IH (put c b) Hp) as (H1 & H2 & H3).
  { pose proof (avail_queue c Hc). pose proof (avail_queue _ Hp).
    rewrite Eq, length_app, El in *. simpl in *. lia. }
  split_and!; [done|rewrite H2, Eq; app_eq|congruence].
Qed.

Lemma send_data_queue c d :
  wf_ring c →
  let '(ok, c') := send_data c d in
  ok = (length d <=? avail_send_buf c)%nat ∧ wf_ring c' ∧
  queue c' = queue c ++ (if ok then d else []) ∧
  length (send_buf c') = length (send_buf c).
Proof.
  intros Hc. unfold send_data.
  destruct (Nat.ltb_spec (avail_send_buf c) (length d)), (Nat.leb_spec (length d) (avail_send_buf c)); try lia.
  - by rewrite app_nil_r.
  - destruct (store_queue d c) as (H1 & H2 & H3); [done|done|]. split_and!; done.
Qed.

Lemma consume_queue c n :
  wf_ring c → (0 < n <= stretch c)%nat →
  wf_ring (consume c n) ∧
  queue c = take n (drop (send_buf_r c) (send_buf c)) ++ queue (consume c n).
Proof.
  intros [Hr Hw] Hn. unfold consume, wf_ring, queue, stretch in *.
  cbn [send_buf send_buf_r send_buf_w].
  destruct (Nat.ltb_spec (send_buf_w c) (send_buf_r c)) as [Hlt|Hge];
    destruct (Nat.eqb_spec (send_buf_r c + n) (length (send_buf c))) as [E|E].
  - destruct (Nat.ltb_spec (send_buf_w c) 0); [lia|]. split; [lia|].
    rewrite drop_0, Nat.sub_0_r, (take_ge (drop _ _) n) by (rewrite length_drop; lia). done.
  - destruct (Nat.ltb_spec (send_buf_w c) (send_buf_r c + n)); [|lia]. split; [lia|].
    by rewrite app_assoc, <- drop_drop, take_drop.
  - lia.
  - destruct (Nat.ltb_spec (send_buf_w c) (send_buf_r c + n)); [lia|]. split; [lia|].
    rewrite <- drop_drop. set (l := drop (send_buf_r c) (send_buf c)).
    rewrite <- (take_drop n (take (send_buf_w c - send_buf_r c) l)). f_equal.
    + rewrite take_take. f_equal. lia.
    + rewrite skipn_firstn_comm. f_equal. lia.
Qed.

Lemma empty_queue c : wf_ring c → send_buf_r c = send_buf_w c ↔ queue c = [].
Proof.
  intros Hc. rewrite <- length_zero_iff_nil, queue_length by done. destruct Hc.
  destruct (Nat.ltb_spec (send_buf_w c) (send_buf_r c)); lia.
Qed.

(** [write] never takes more than it was given. *)
Fixpoint write_ok (ws : list write_result) (c : ring) : Prop :=
  match ws with
  | [] => True
  | Wrote n :: ws => (n <= stretch c)%nat ∧ write_ok ws (consume c n)
  | _ :: ws => write_ok ws c
  end.

Lemma drain_Ok ws c out ok c' out' :
  wf_ring c → drain ws c out = Ok (ok, c', out') →
  wf_ring c' ∧ (ok = true → queue c' = []) ∧ length (send_buf c') = length (send_buf c) ∧
  ∃ sent, out' = out ++ sent ∧ queue c = sent ++ queue c'.
Proof.
  revert c out. induction ws as [|w ws IH]; intros c out Hc; cbn [drain];
    (destruct (Nat.eqb_spec (send_buf_r c) (send_buf_w c)) as [E|E];
     [intros [= <- <- <-];
      split_and!; [done|intros _; by apply empty_queue|done|exists []; by rewrite app_nil_r]|]).
  - done.
  - destruct w as [n| |].
    + destruct (Nat.eqb_spec n 0) as [->|].
      { intros [= <- <- <-]. split_and!; [done|done|done|exists []; by rewrite app_nil_r]. }
      destruct (Nat.ltb_spec (stretch c) n); [done|]. intros E1.
      destruct (consume_queue c n Hc ltac:(lia)) as [Hc' Eq].
      destruct (IH _ _ Hc' E1) as (H1 & H2 & H3 & sent & -> & E2). split_and!; [done|done|done|].
      exists (take n (drop (send_buf_r c) (send_buf c)) ++ sent). rewrite Eq, E2. split; app_eq.
    + by apply IH.
    + intros [= <- <- <-]. split_and!; [done|done|done|exists []; by rewrite app_nil_r].
Qed.

(** ** Sequences of sends and drains *)

Inductive sb_op :=
| Send (d : list Z)
| Drain (ws : list write_result).

(** The bytes [send_data] accepted and the bytes handed to the kernel along a sequence
    of operations; a drain that has not returned, because its [write] calls are exhausted
    or one of them claims more than it was given, ends the run. *)
Fixpoint run_ops (ops : list sb_op) (c : ring) (acc out : list Z) : ring * list Z * list Z :=
  match ops with
  | [] => (c, acc, out)
  | Send d :: ops =>
      let '(ok, c) := send_data c d in run_ops ops c (if ok then acc ++ d else acc) out
  | Drain ws :: ops =>
      match drain ws c [] with
      | Ok (_, c, o) => run_ops ops c acc (out ++ o)
      | _ => (c, acc, out)
      end
  end.

Lemma run_ops_fifo ops c acc out :
  wf_ring c → acc = out ++ queue c →
  let '(c', acc', out') := run_ops ops c acc out in
  wf_ring c' ∧ acc' = out' ++ queue c'.
Proof.
  revert c acc out. induction ops as [|[d|ws] ops IH]; intros c acc out Hc E; simpl in *; [done| |].
  - pose proof (send_data_queue c d Hc) as H. destruct (send_data c d) as [ok c1].
    destruct H as (_ & Hc1 & Eq & _). apply IH; [done|]. rewrite Eq, E.
    destruct ok; [app_eq|by rewrite app_nil_r].
  - destruct (drain ws c []) as [[[ok c1] o]| | |] eqn:Ed; try done.
    destruct (drain_Ok _ _ _ _ _ _ Hc Ed) as (Hc1 & _ & _ & sent & -> & Eq). apply IH; [done|]. rewrite E, Eq. app_eq.
Qed.

Definition empty_ring (size : nat) : ring := MkRing (replicate size 0) 0 0 false.

Lemma empty_ring_wf size : (0 < size)%nat → wf_ring (empty_ring size) ∧ queue (empty_ring size) = [].
Proof. intros. split; [|done]. unfold wf_ring. simpl. by rewrite length_replicate. Qed.

(** C12: The send buffer is a bounded FIFO -- whatever the sequence of [send_data] calls
    and of drains, with whatever short writes and [EAGAIN]s, the bytes accepted are
    exactly the bytes handed to the kernel followed by the bytes still queued, in order. *)
Theorem send_buffer_fifo size ops :
  (0 < size)%nat →
  let '(c, accepted, out) := run_ops ops (empty_ring size) [] [] in
  wf_ring c ∧ accepted = out ++ queue c.
Proof. intros Hs. apply run_ops_fifo; [by apply empty_ring_wf|done]. Qed.

(** The results of a socket that keeps taking data. *)
Definition progressing (w : write_result) : bool :=
  match w with Wrote n => (0 <? n)%nat | Again => true | Failed => false end.

Definition is_wrote (w : write_result) : bool := match w with Wrote _ => true | _ => false end.

Lemma drain_empties ws c out :
  wf_ring c → write_ok ws c → Forall (λ w, progressing w = true) ws →
  (length (queue c) <= length (filter (λ w, is_wrote w = true) ws))%nat →
  ∃ c', drain ws c out = Ok (true, c', out ++ queue c) ∧ queue c' = [] ∧ wf_ring c'.
Proof.
  intros Hc Hw Hp. revert c out Hc Hw. induction Hp as [|w ws Hp Hps IH]; intros c out Hc Hw Hn;
    cbn [drain]; destruct (Nat.eqb_spec (send_buf_r c) (send_buf_w c)) as [E|E];
    try (apply empty_queue in E; [|done]; exists c; rewrite E, app_nil_r; done).
  - simpl in Hn. exfalso. apply E, empty_queue; [done|]. by apply nil_length_inv; lia.
  - destruct w as [n| |]; [| |done].
    + destruct Hw as [Hle Hw]. simpl in Hp. apply Nat.ltb_lt in Hp.
      destruct (Nat.eqb_spec n 0); [lia|]. destruct (Nat.ltb_spec (stretch c) n); [lia|].
      destruct (consume_queue c n Hc ltac:(lia)) as [Hc' Eq].
      destruct (IH (consume c n) (out ++ take n (drop (send_buf_r c) (send_buf c))) Hc' Hw)
        as (c' & Ed & Hq & Hwf).
      { apply (f_equal length) in Eq. rewrite length_app, length_take, length_drop in Eq.
        rewrite filter_cons, decide_True in Hn by done. simpl in Hn.
        assert (stretch c <= length (send_buf c) - send_buf_r c)%nat.
        { destruct Hc. unfold stretch. destruct (_ <? _)%nat; lia. }
        lia. }
      exists c'. split_and!; [|done|done]. rewrite Ed, Eq. do 2 f_equal. app_eq.
    + apply IH; [done|done|]. rewrite filter_cons, decide_False in Hn by done. done.
Qed.

(** A drain ends -- on a socket that goes on taking at least one byte at a time
    (with any number of [EAGAIN]s between), [conn_write] sends all that was queued, in
    order, and then switches its event off, or drops the connection if [drop_after]
    asks for it. *)
Theorem conn_write_drains ws c drop_after :
  wf_ring c → write_ok ws c → Forall (λ w, progressing w = true) ws →
  (length (queue c) <= length (filter (λ w, is_wrote w = true) ws))%nat →
  ∃ c', conn_write ws c drop_after = Ok (drop_after, c', queue c) ∧ queue c' = [] ∧
        (drop_after = false → write_enabled c' = false).
Proof.
  intros Hc Hw Hp Hn. destruct (drain_empties ws c [] Hc Hw Hp Hn) as (c' & E & Hq & _).
  unfold conn_write. rewrite E, bind_Ok. destruct drop_after; eexists; by split_and!.
Qed.

(** ** Interleaved packets *)

Lemma foldl_send_data v c :
  wf_ring c → (sum_list_with length v <= avail_send_buf c)%nat →
  let c' := foldl (λ c b, snd (send_data c b)) c v in
  wf_ring c' ∧ queue c' = queue c ++ concat v ∧ length (send_buf c') = length (send_buf c).
Proof.
  revert c. induction v as [|b v IH]; intros c Hc Hv; simpl; [by rewrite app_nil_r|].
  pose proof (send_data_queue c b Hc) as H. destruct (send_data c b) as [ok c1]. simpl in *.
  destruct H as (-> & Hc1 & Eq & El).
  destruct (Nat.leb_spec (length b) (avail_send_buf c)) as [Hb|]; [|lia].
  destruct (IH c1 Hc1) as (H1 & H2 & H3).
  { pose proof (avail_queue c Hc). pose proof (avail_queue c1 Hc1).
    rewrite Eq, length_app in *. lia. }
  split_and!; [done|rewrite H2, Eq; app_eq|congruence].
Qed.

Lemma interleave_head_length chan len : length (interleave_head chan len) = 4%nat.
Proof. done. Qed.

Definition frame_packet (p : Z * list (list Z)) : list Z :=
  interleave_head p.1 (sum_list_with length p.2) ++ concat p.2.

Lemma interleave_send_Ok ws c chan v ok c' out :
  wf_ring c → interleave_send ws c chan v = Ok (ok, c', out) →
  wf_ring c' ∧ out ++ queue c' = queue c ++ (if ok then frame_packet (chan, v) else []).
Proof.
  intros Hc. unfold interleave_send. set (len := sum_list_with length v).
  destruct (if (avail_send_buf c <? len + 4)%nat then tcp_conn_flush ws c else Ok (c, []))
    as [[c1 out1]| | |] eqn:E1; try done.
  assert (wf_ring c1 ∧ out1 ++ queue c1 = queue c) as [Hc1 Eq1].
  { destruct (_ <? _)%nat; [|by simplify_eq]. unfold tcp_conn_flush in E1.
    destruct (drain ws c []) as [[[ok1 c2] o]| | |] eqn:Ed; simplify_eq/=.
    destruct (drain_Ok _ _ _ _ _ _ Hc Ed) as (Hc1 & _ & _ & sent & -> & Eq). by rewrite Eq. }
  rewrite bind_Ok.
  destruct (Nat.ltb_spec (avail_send_buf c1) (len + 4)) as [|Hroom];
    [intros [= <- <- <-]; by rewrite app_nil_r|].
  pose proof (send_data_queue c1 (interleave_head chan len) Hc1) as H.
  destruct (send_data c1 (interleave_head chan len)) as [ok2 c2]. destruct H as (-> & Hc2 & Eq & El).
  rewrite interleave_head_length in Eq. destruct (Nat.leb_spec 4 (avail_send_buf c1)); [|lia].
  destruct (foldl_send_data v c2 Hc2) as (H1 & H2 & _).
  { pose proof (avail_queue c1 Hc1). pose proof (avail_queue c2 Hc2).
    rewrite Eq, length_app, interleave_head_length in *. unfold len in *. lia. }
  cbn [snd]. intros [= <- <- <-]. split; [done|]. rewrite H2, Eq, <- Eq1. unfold frame_packet. app_eq.
Qed.

(** What a client reads off the connection: [$], channel, 16-bit length, data. *)
Fixpoint deframe (fuel : nat) (s : list Z) : option (list (Z * list Z)) :=
  match fuel, s with
  | _, [] => Some []
  | S fuel, 36 :: ch :: a :: b :: s =>
      n ← GET_16 [a; b];
      if (length s <? Z.to_nat n)%nat then None
      else cons (ch, take (Z.to_nat n) s) <$> deframe fuel (drop (Z.to_nat n) s)
  | _, _ => None
  end.

Definition wf_packet (p : Z * list (list Z)) : Prop :=
  0 <= p.1 < 256 ∧ Z.of_nat (sum_list_with length p.2) < 65536.

Lemma length_concat_sum {A} (v : list (list A)) : length (concat v) = sum_list_with length v.
Proof. induction v as [|b v IH]; simpl; [done|]. by rewrite length_app, IH. Qed.

Lemma deframe_frame fuel p s :
  wf_packet p → deframe (S fuel) (frame_packet p ++ s) = cons (p.1, concat p.2) <$> deframe fuel s.
Proof.
  intros [Hc Hl]. unfold frame_packet, interleave_head. cbn [app deframe].
  pose proof (GET_PUT_16 (Z.of_nat (sum_list_with length p.2)) []) as E. rewrite app_nil_r in E.
  change (PUT_16 _) with [Z.shiftr (Z.of_nat (sum_list_with length p.2)) 8 .& 255;
    Z.of_nat (sum_list_with length p.2) .& 255] in *. cbn [app]. rewrite E. cbn [mbind option_bind].
  rewrite u16_small, u8_small, Nat2Z.id by lia. rewrite <- length_concat_sum.
  destruct (Nat.ltb_spec (length (concat p.2 ++ s)) (length (concat p.2))) as [H|_];
    [rewrite length_app in H; lia|].
  by rewrite take_app_length, drop_app_length.
Qed.

Lemma deframe_stream ps fuel :
  Forall wf_packet ps → (length ps < fuel)%nat →
  deframe fuel (concat (map frame_packet ps)) = Some (map (λ p, (p.1, concat p.2)) ps).
Proof.
  intros Hps. revert fuel. induction Hps as [|p ps Hp Hps IH]; intros [|fuel] Hf; try (simpl in Hf; lia).
  - done.
  - cbn [map concat]. rewrite deframe_frame, IH by (done || simpl in Hf; lia). done.
Qed.

(** A run of [interleave_send] calls, each with the results of the [write] calls it may
    make: the packets that were accepted and the bytes handed to the kernel. *)
Fixpoint send_packets (ps : list (list write_result * (Z * list (list Z)))) (c : ring)
    : outcome (ring * list (Z * list (list Z)) * list Z) :=
  match ps with
  | [] => Ok (c, [], [])
  | (ws, (chan, v)) :: ps =>
      '(ok, c, out) ← interleave_send ws c chan v;
      '(c, sent, out') ← send_packets ps c;
      Ok (c, if (ok : bool) then (chan, v) :: sent else sent, out ++ out')
  end.

Lemma send_packets_Ok ps c c' sent out :
  wf_ring c → Forall (λ p, wf_packet p.2) ps → send_packets ps c = Ok (c', sent, out) →
  wf_ring c' ∧ Forall wf_packet sent ∧ out ++ queue c' = queue c ++ concat (map frame_packet sent).
Proof.
  intros Hc Hps. revert c c' sent out Hc.
  induction Hps as [|[ws [chan v]] ps Hp Hps IH]; intros c c' sent out Hc; simpl.
  { intros [= <- <- <-]. by rewrite app_nil_r. }
  destruct (interleave_send ws c chan v) as [[[ok c1] out1]| | |] eqn:E1; simpl; try done.
  destruct (interleave_send_Ok _ _ _ _ _ _ _ Hc E1) as [Hc1 Eq1].
  destruct (send_packets ps c1) as [[[c2 sent2] out2]| | |] eqn:E2; simpl; try done.
  intros [= <- <- <-]. destruct (IH _ _ _ _ Hc1 E2) as (Hc2 & Hs & Eq2).
  split_and!; [done|by destruct ok; [constructor|]|].
  rewrite <- app_assoc, Eq2, app_assoc, Eq1. destruct ok; cbn [map concat]; [app_eq|].
  by rewrite app_nil_r.
Qed.

(** Interleaved framing is atomic -- however the kernel cuts the writes, the bytes
    sent and queued after a run of [interleave_send] calls are read by a client as
    exactly the packets the calls accepted, whole and in order, each on its channel; a
    packet that finds no room leaves no trace. *)
Theorem interleave_stream size ps c sent out :
  (0 < size)%nat → Forall (λ p, wf_packet p.2) ps →
  send_packets ps (empty_ring size) = Ok (c, sent, out) →
  deframe (S (length sent)) (out ++ queue c) = Some (map (λ p, (p.1, concat p.2)) sent).
Proof.
  intros Hs Ho E. destruct (empty_ring_wf size Hs) as [Hw Hq].
  destruct (send_packets_Ok _ _ _ _ _ Hw Ho E) as (_ & Hp & Eq).
  rewrite Eq, Hq. apply deframe_stream; [done|lia].
Qed.

(** ** Responses *)

Lemma dec_udec n : 0 <= n → dec n = udec n.
Proof. intros. unfold dec. by destruct (Z.ltb_spec n 0); [lia|]. Qed.

(** What is formatted is the rendering the parser's theorems are about. *)
Lemma format_response_render m code reason proto :
  p_proto_id m = Some proto → 0 <= code →
  format_response m code (Some reason) None =
  render_response (str_of m proto) code (str_of m reason) (headers_of m).
Proof.
  intros Hp Hc. unfold format_response, render_response. rewrite Hp, dec_udec by done. cbn [str_or_null].
  unfold crlf, render_headers, headers_of. rewrite map_map.
  assert (map (λ f, str_of m (h_name f) ++ lit ": " ++ str_of m (h_value f) ++ [CR; LF]) (p_fields m) =
    map (λ f, render_header (str_of m (h_name f), str_of m (h_value f))) (p_fields m)) as ->.
  { apply map_ext. intros f. unfold render_header. simpl. done. }
  app_eq.
Qed.


(** ** Witnesses *)

Lemma send_buffer_fifo_witness :
  let ops := [Send [1; 2; 3]; Drain [Wrote 2; Again; Wrote 1]; Send [4; 5]; Send [6; 7; 8]] in
  let '(c, accepted, out) := run_ops ops (empty_ring 5) [] [] in
  wf_ring c ∧ accepted = out ++ queue c.
Proof.
  apply (send_buffer_fifo 5
    [Send [1; 2; 3]; Drain [Wrote 2; Again; Wrote 1]; Send [4; 5]; Send [6; 7; 8]]).
  lia.
Defined.

Definition wrapped_ring : ring := MkRing [3; 0; 0; 1; 2] 3 1 true.

Lemma conn_write_drains_witness :
  ∃ c', conn_write [Wrote 1; Again; Wrote 1; Wrote 1] wrapped_ring false = Ok (false, c', [1; 2; 3]) ∧
        queue c' = [] ∧ (false = false → write_enabled c' = false).
Proof.
  apply (conn_write_drains [Wrote 1; Again; Wrote 1; Wrote 1] wrapped_ring false).
  - vm_compute. lia.
  - vm_compute. split_and!; lia.
  - by repeat constructor.
  - vm_compute. lia.
Defined.

Lemma interleave_stream_witness :
  deframe 3 ([36; 0; 0; 2; 7; 8] ++ [36; 1; 0; 1; 9]) = Some [(0, [7; 8]); (1, [9])].
Proof.
  apply (interleave_stream 8
    [([], (0, [[7]; [8]])); ([Wrote 6], (1, [[9]]))]
    (MkRing [0; 1; 9; 2; 7; 8; 36; 1] 6 3 true)
    [(0, [[7]; [8]]); (1, [[9]])] [36; 0; 0; 2; 7; 8]).
  - lia.
  - by repeat constructor; vm_compute.
  - by vm_compute.
Defined.

Definition ok_reply : pmsg :=
  snd (add_header
    (MkPmsg (lit "RTSP/1.0" ++ [0] ++ lit "OK" ++ [0] ++ replicate 52 0) 12 []
       (Some (PMSG_RESP 200 (Some 9%nat))) (Some 0%nat))
    (lit "CSeq") (lit "2")).

