(* ===== verification/Base64.v ===== *)
(** * Base64 ([base64_table.h], [unbase64] of [tcp.c], [base64_encode] of [rtp-h264.c])

    QuickTime tunnels RTSP in base64 over HTTP POST; [unbase64] decodes each read in
    place and leaves an incomplete group of four for the next read.  [base64_encode]
    writes the parameter sets of an H.264 stream description. *)

From Stdlib Require Import String.
From S2P Require Import Prelude CString.

Local Open Scope Z_scope.
Local Open Scope c_scope.

(** The table [base64[]]: -1 for a character to skip; the padding character is 0. *)
Definition base64_table : list Z :=
  [-1; -1; -1; -1; -1; -1; -1; -1; -1; -1; -1; -1; -1; -1; -1; -1;
   -1; -1; -1; -1; -1; -1; -1; -1; -1; -1; -1; -1; -1; -1; -1; -1;
   -1; -1; -1; -1; -1; -1; -1; -1; -1; -1; -1; 62; -1; -1; -1; 63;
   52; 53; 54; 55; 56; 57; 58; 59; 60; 61; -1; -1; -1; 0; -1; -1;
   -1; 0; 1; 2; 3; 4; 5; 6; 7; 8; 9; 10; 11; 12; 13; 14;
   15; 16; 17; 18; 19; 20; 21; 22; 23; 24; 25; -1; -1; -1; -1; -1;
   -1; 26; 27; 28; 29; 30; 31; 32; 33; 34; 35; 36; 37; 38; 39; 40;
   41; 42; 43; 44; 45; 46; 47; 48; 49; 50; 51; -1; -1; -1; -1; -1;
   -1; -1; -1; -1; -1; -1; -1; -1; -1; -1; -1; -1; -1; -1; -1; -1;
   -1; -1; -1; -1; -1; -1; -1; -1; -1; -1; -1; -1; -1; -1; -1; -1;
   -1; -1; -1; -1; -1; -1; -1; -1; -1; -1; -1; -1; -1; -1; -1; -1;
   -1; -1; -1; -1; -1; -1; -1; -1; -1; -1; -1; -1; -1; -1; -1; -1;
   -1; -1; -1; -1; -1; -1; -1; -1; -1; -1; -1; -1; -1; -1; -1; -1;
   -1; -1; -1; -1; -1; -1; -1; -1; -1; -1; -1; -1; -1; -1; -1; -1;
   -1; -1; -1; -1; -1; -1; -1; -1; -1; -1; -1; -1; -1; -1; -1; -1;
   -1; -1; -1; -1; -1; -1; -1; -1; -1; -1; -1; -1; -1; -1; -1; -1].

Definition base64 (c : Z) : Z := nth (Z.to_nat c) base64_table (-1).

(** ** Decoding *)

(** The three bytes of a complete group, and how many of them count. *)
Definition group_bytes (e0 e1 e2 e3 : Z) : list Z :=
  [((base64 e0 <<< 2) .& 0xFC) .| (base64 e1 >>> 4);
   ((base64 e1 <<< 4) .& 0xF0) .| (base64 e2 >>> 2);
   ((base64 e2 <<< 6) .& 0xC0) .| base64 e3].

Definition group_len (e2 e3 : Z) : nat :=
  if e3 =? 61 then if e2 =? 61 then 1 else 2 else 3.

(** [unbase64(d, len, &remain)]: [n] is [len - src] and [enc] the characters of the
    group so far.  Returns the buffer, the value returned and [*remain]. *)
Fixpoint unbase64_from (n : nat) (d : list Z) (src dest : nat) (enc : list Z)
    : outcome (list Z * nat * nat) :=
  match n with
  | O => Ok (splice dest enc d, (dest + length enc)%nat, length enc)
  | S n =>
      c ← rd d src;
      if base64 c <? 0 then unbase64_from n d (S src) dest enc
      else
        match enc ++ [c] with
        | [e0; e1; e2; e3] =>
            if (length d <? dest + 3)%nat then Undef
            else unbase64_from n (splice dest (group_bytes e0 e1 e2 e3) d) (S src)
                   (dest + group_len e2 e3) []
        | enc => unbase64_from n d (S src) dest enc
        end
  end.

Definition unbase64 (d : list Z) (len : nat) : outcome (list Z * nat * nat) :=
  unbase64_from len d 0 0 [].

(** ** Encoding *)

Definition b64 : list Z := lit "ABCDEFGHIJKLMNOPQRSTUVWXYZabcdefghijklmnopqrstuvwxyz0123456789+/".

Definition b64_char (i_bits i_shift : Z) : Z :=
  nth (Z.to_nat ((u32 (i_bits <<< 6) >>> i_shift) .& 0x3f)) b64 0.

(** The [do ... while]: at most three characters per input byte. *)
Fixpoint emit (fuel : nat) (i_bits i_shift : Z) (last : bool) : outcome (list Z * Z) :=
  match fuel with
  | O => Diverge
  | S fuel =>
      let c := b64_char i_bits i_shift in
      let i_shift := i_shift - 6 in
      if (6 <? i_shift) || (last && (0 <? i_shift)) then
        '(cs, i_shift) ← emit fuel i_bits i_shift last; Ok (c :: cs, i_shift)
      else Ok ([c], i_shift)
  end.

Fixpoint encode_from (i_bits i_shift : Z) (data : list Z) : outcome (list Z) :=
  match data with
  | [] => Ok []
  | b :: data =>
      let i_bits := u32 (u32 (i_bits <<< 8) + b) in
      '(cs, i_shift) ← emit 3 i_bits (i_shift + 8) (bool_decide (data = []));
      cs' ← encode_from i_bits i_shift data;
      Ok (cs ++ cs')
  end.

(** [while ((dst - ret) & 3)]: up to a multiple of four characters. *)
Definition pad4 (n : nat) : list Z := replicate ((4 - n mod 4) mod 4)%nat 61.

(** [base64_encode]; [Fail] is the NULL for an output that is too small. *)
Definition base64_encode (out_size : nat) (data : list Z) : outcome (list Z) :=
  if (out_size <? (length data + 2) / 3 * 4 + 1)%nat then Fail
  else cs ← encode_from 0 0 data; Ok (cs ++ pad4 (length cs)).

(** ** The decoder as a function on streams *)

(** The bytes a stream of characters stands for, and the group left incomplete. *)
Fixpoint decode (enc s : list Z) : list Z * list Z :=
  match s with
  | [] => ([], enc)
  | c :: s =>
      if base64 c <? 0 then decode enc s
      else
        match enc ++ [c] with
        | [e0; e1; e2; e3] =>
            let '(out, rest) := decode [] s in
            (take (group_len e2 e3) (group_bytes e0 e1 e2 e3) ++ out, rest)
        | enc => decode enc s
        end
  end.

(** A group in progress: fewer than four characters, none of them skipped. *)
Definition partial (enc : list Z) : Prop :=
  (length enc < 4)%nat ∧ Forall (λ c, (base64 c <? 0) = false) enc.

Lemma partial_snoc enc c :
  partial enc → (base64 c <? 0) = false →
  (∃ e0 e1 e2 e3, enc ++ [c] = [e0; e1; e2; e3]) ∨ partial (enc ++ [c]).
Proof.
  intros [Hl Hf] Hc. unfold partial. rewrite length_app, Forall_app, Forall_singleton.
  destruct enc as [|a [|b [|e [|x enc]]]]; simpl in *; try (right; split; [lia|done]).
  left. eauto.
Qed.

Lemma group_len_3 e2 e3 : (1 <= group_len e2 e3 <= 3)%nat.
Proof. unfold group_len. destruct (_ =? _); [destruct (_ =? _)|]; lia. Qed.

(** In-place decoding never overtakes its input, so it computes [decode]. *)
Lemma unbase64_from_spec n d src dest enc :
  partial enc → (dest + length enc <= src)%nat → (src + n <= length d)%nat →
  let '(out, rest) := decode enc (take n (drop src d)) in
  ∃ d', unbase64_from n d src dest enc = Ok (d', (dest + length out + length rest)%nat, length rest) ∧
    length d' = length d ∧ partial rest ∧
    take (dest + length out + length rest) d' = take dest d ++ out ++ rest ∧
    (dest + length out + length rest <= src + n)%nat ∧
    drop (src + n) d' = drop (src + n) d.
Proof.
  revert d src dest enc. induction n as [|n IH]; intros d src dest enc Hp Hd Hn; simpl.
  - exists (splice dest enc d). rewrite !Nat.add_0_r.
    assert (dest + length enc <= length d)%nat by lia.
    rewrite splice_take_all, splice_length by lia. split_and!; try done.
    apply splice_drop; lia.
  - destruct (lookup_lt_is_Some_2 d src) as [c Hc]; [lia|].
    rewrite (drop_S _ _ _ Hc). cbn [take decode]. rewrite (rd_Ok _ _ _ Hc), bind_Ok.
    destruct (base64 c <? 0) eqn:Eb.
    { specialize (IH d (S src) dest enc Hp ltac:(lia) ltac:(lia)).
      destruct (decode enc (take n (drop (S src) d))) as [out rest].
      by replace (src + S n)%nat with (S src + n)%nat by lia. }
    destruct (partial_snoc enc c Hp Eb) as [(e0 & e1 & e2 & e3 & E)|Hp'].
    + assert (length enc = 3%nat) as Hl.
      { apply (f_equal length) in E. rewrite length_app in E. simpl in E. lia. }
      rewrite E. destruct (Nat.ltb_spec (length d) (dest + 3)); [lia|].
      set (g := group_bytes e0 e1 e2 e3). set (d1 := splice dest g d).
      assert (length d1 = length d) as L1 by (apply splice_length; simpl; lia).
      assert (drop (S src) d1 = drop (S src) d) as D1 by (apply splice_drop; simpl; lia).
      pose proof (group_len_3 e2 e3) as Hg.
      assert (partial []) as Hnil by (split; [simpl; lia|constructor]).
      specialize (IH d1 (S src) (dest + group_len e2 e3)%nat [] Hnil).
      cbn [length] in IH. specialize (IH ltac:(lia) ltac:(lia)).
      rewrite D1 in IH. destruct (decode [] (take n (drop (S src) d))) as [out rest].
      destruct IH as (d' & E1 & E2 & E3 & E4 & E5 & E6).
      assert (length (take (group_len e2 e3) g) = group_len e2 e3) as Lg
        by (rewrite length_take; simpl; lia).
      exists d'. rewrite length_app, Lg, !Nat.add_assoc. replace (src + S n)%nat with (S src + n)%nat by lia.
      split_and!; [done|congruence|done| |lia|].
      * rewrite E4. unfold d1. rewrite splice_take_part by (simpl; lia). app_eq.
      * by rewrite E6, <- !drop_drop, D1.
    + specialize (IH d (S src) dest (enc ++ [c]) Hp' ltac:(rewrite length_app; simpl; lia) ltac:(lia)).
      replace (src + S n)%nat with (S src + n)%nat by lia.
      destruct Hp' as [Hl _]. rewrite length_app in Hl.
      destruct enc as [|a [|b [|e enc]]]; simpl in Hl; try lia; exact IH.
Qed.

Lemma decode_app enc x y :
  decode enc (x ++ y) =
  let '(o1, r1) := decode enc x in let '(o2, r2) := decode r1 y in (o1 ++ o2, r2).
Proof.
  revert enc. induction x as [|c x IH]; intros enc; cbn [decode app].
  - by destruct (decode enc y).
  - destruct (base64 c <? 0); [apply IH|].
    destruct (enc ++ [c]) as [|e0 [|e1 [|e2 [|e3 [|e4 l]]]]]; try apply IH.
    rewrite IH. destruct (decode [] x) as [o1 r1]. destruct (decode r1 y) as [o2 r2]. app_eq.
Qed.

(** A group in progress decodes to itself. *)
Lemma decode_partial rest : partial rest → decode [] rest = ([], rest).
Proof.
  intros [Hl Hf]. destruct rest as [|a [|b [|e [|f rest]]]]; simpl in Hl; try lia;
    repeat match goal with H : Forall _ (_ :: _) |- _ => inversion_clear H end;
    simpl; repeat match goal with H : (_ <? 0) = false |- _ => rewrite H; clear H end; done.
Qed.

Lemma decode_resume rest y : partial rest → decode [] (rest ++ y) = decode rest y.
Proof. intros H. rewrite decode_app, decode_partial by done. by destruct (decode rest y). Qed.

(** What is decoded are bytes. *)
Lemma base64_range c : (base64 c <? 0) = false → 0 <= base64 c < 64.
Proof.
  intros H. assert (Forall (λ x, -1 <= x < 64) base64_table) as Ht
    by (refine (bool_decide_unpack _ _); by vm_compute).
  apply Z.ltb_ge in H. split; [done|]. unfold base64 in *.
  destruct (nth_in_or_default (Z.to_nat c) base64_table (-1)) as [Hin|E]; [|lia].
  apply list_elem_of_In in Hin. rewrite Forall_forall in Ht. apply (Ht _ Hin).
Qed.

Lemma lor_byte a b : is_byte a → is_byte b → is_byte (a .| b).
Proof.
  intros Ha Hb. unfold is_byte in *. replace (a .| b) with ((a .| b) .& 255); [apply land_255_byte|].
  rewrite Z.land_lor_distr_l, !land_255, !Z.mod_small by lia. done.
Qed.

Lemma land_byte a m : is_byte m → is_byte (a .& m).
Proof.
  intros Hm. unfold is_byte in Hm. replace (a .& m) with ((a .& m) .& 255); [apply land_255_byte|].
  by rewrite <- Z.land_assoc, (land_255 m), Z.mod_small by lia.
Qed.

Lemma group_bytes_bytes e0 e1 e2 e3 :
  Forall (λ c, (base64 c <? 0) = false) [e0; e1; e2; e3] → Forall is_byte (group_bytes e0 e1 e2 e3).
Proof.
  intros H. inversion_clear H as [|? ? H0 H']. inversion_clear H' as [|? ? H1 H'']. inversion_clear H'' as [|? ? H2 H3'].
  inversion_clear H3' as [|? ? H3 _]. apply base64_range in H0, H1, H2, H3. unfold group_bytes.
  assert (∀ x k, 0 <= x < 64 → 0 <= k → is_byte (x >>> k)) as Hs.
  { intros x k Hx Hk. unfold is_byte. rewrite Z.shiftr_div_pow2 by done.
    pose proof (Z.pow_pos_nonneg 2 k ltac:(lia) Hk). split; [apply Z.div_pos; lia|].
    apply Z.le_lt_trans with x; [|lia]. apply Z.div_le_upper_bound; nia. }
  repeat (apply Forall_cons; split); [..|constructor]; apply lor_byte;
    try (apply land_byte; unfold is_byte; lia); try (apply Hs; lia). unfold is_byte. lia.
Qed.

Lemma decode_bytes s enc :
  partial enc → Forall is_byte enc → Forall is_byte s →
  let '(out, rest) := decode enc s in Forall is_byte out ∧ Forall is_byte rest.
Proof.
  intros Hp He Hs. revert enc Hp He. induction Hs as [|c s Hc Hs IH]; intros enc Hp He; cbn [decode]; [done|].
  destruct (base64 c <? 0) eqn:Ec; [by apply IH|].
  destruct (partial_snoc enc c Hp Ec) as [(e0 & e1 & e2 & e3 & E)|Hp'].
  - rewrite E. pose proof (IH [] ltac:(split; [simpl; lia|constructor]) ltac:(constructor)) as H.
    destruct (decode [] s) as [out rest]. destruct H as [H1 H2]. split; [|done]. apply Forall_app; split; [|done].
    apply Forall_take, group_bytes_bytes. rewrite <- E. apply Forall_app; split; [apply Hp|by apply Forall_singleton].
  - assert (Forall is_byte (enc ++ [c])) as He' by (apply Forall_app; split; [done|by apply Forall_singleton]).
    destruct Hp' as [Hl Hf]. destruct (enc ++ [c]) as [|x0 [|x1 [|x2 [|x3 [|]]]]] eqn:E; try (by apply IH; [split|]).
    simpl in Hl. lia.
Qed.

(** ** Reading a tunnelled stream ([do_read]) *)

(** One [read] of [data] into a connection whose buffer [buf] holds [req_len] bytes, the
    last [count] of them an incomplete group. *)
Definition tunnel_read (buf : list Z) (req_len count : nat) (data : list Z)
    : outcome (list Z * nat * nat) :=
  let buf := splice req_len data buf in
  let base := (req_len - count)%nat in
  '(d, n, count) ← unbase64 (drop base buf) (length data + count);
  Ok (take base buf ++ d, (base + n)%nat, count).

Fixpoint tunnel_reads (buf : list Z) (req_len count : nat) (chunks : list (list Z))
    : outcome (list Z * nat * nat) :=
  match chunks with
  | [] => Ok (buf, req_len, count)
  | data :: chunks =>
      '(buf, req_len, count) ← tunnel_read buf req_len count data;
      tunnel_reads buf req_len count chunks
  end.

(** The buffer holds the decoded bytes [out] and then the group [rest] in progress. *)
Definition holds (buf : list Z) (req_len count : nat) (out rest : list Z) : Prop :=
  take req_len buf = out ++ rest ∧ req_len = (length out + length rest)%nat ∧ count = length rest ∧
  partial rest ∧ (req_len <= length buf)%nat.

Lemma tunnel_read_spec buf req_len count data out rest :
  holds buf req_len count out rest → (req_len + length data <= length buf)%nat →
  let '(o, r) := decode rest data in
  ∃ buf' len' count', tunnel_read buf req_len count data = Ok (buf', len', count') ∧
    length buf' = length buf ∧ holds buf' len' count' (out ++ o) r ∧
    (len' <= req_len + length data)%nat.
Proof.
  intros (Ht & -> & -> & Hp & Hl) Hd. unfold tunnel_read.
  replace (length out + length rest - length rest)%nat with (length out) by lia.
  set (buf1 := splice _ data buf).
  assert (length buf1 = length buf) as L1 by (apply splice_length; lia).
  assert (take (length out + length rest + length data) buf1 = out ++ rest ++ data) as T1.
  { unfold buf1. rewrite splice_take_all by lia. rewrite Ht. app_eq. }
  assert (take (length out) buf1 = out) as T0.
  { replace (length out) with (length out `min` (length out + length rest + length data))%nat at 1 by lia.
    by rewrite <- take_take, T1, take_app_length. }
  pose proof (unbase64_from_spec (length data + length rest) (drop (length out) buf1) 0 0 []) as H.
  cbn [length Nat.add] in H. rewrite drop_0, take_0 in H.
  replace (take (length data + length rest) (drop (length out) buf1)) with (rest ++ data) in H; cycle 1.
  { rewrite take_drop_commute. replace (length out + (length data + length rest))%nat with
      (length out + length rest + length data)%nat by lia. by rewrite T1, drop_app_length. }
  rewrite decode_resume in H by done. destruct (decode rest data) as [o r].
  destruct H as (d' & E1 & E2 & E3 & E4 & E5 & _).
  { split; [simpl; lia|constructor]. }
  { lia. }
  { rewrite length_drop. lia. }
  unfold unbase64. rewrite E1, bind_Ok, T0. do 3 eexists. split; [done|]. rewrite length_drop in E2.
  split_and!.
  - rewrite length_app, E2. lia.
  - unfold holds. rewrite !length_app. split_and!; try done; try lia.
    rewrite take_app_ge by lia. replace (_ + _ - length out)%nat with (length o + length r)%nat by lia.
    rewrite E4. app_eq.
  - lia.
Qed.

Lemma tunnel_reads_spec chunks buf req_len count out rest :
  holds buf req_len count out rest →
  (req_len + length (concat chunks) <= length buf)%nat →
  let '(o, r) := decode rest (concat chunks) in
  ∃ buf' len' count', tunnel_reads buf req_len count chunks = Ok (buf', len', count') ∧
    holds buf' len' count' (out ++ o) r.
Proof.
  revert buf req_len count out rest.
  induction chunks as [|data chunks IH]; intros buf req_len count out rest Hh Hl; cbn [concat tunnel_reads] in *.
  { cbn [decode]. rewrite app_nil_r. eauto. }
  rewrite length_app in Hl. pose proof (tunnel_read_spec buf req_len count data out rest Hh ltac:(lia)) as H.
  rewrite decode_app. destruct (decode rest data) as [o1 r1].
  destruct H as (buf1 & len1 & count1 & E1 & L1 & H1 & Hle). rewrite E1, bind_Ok.
  specialize (IH buf1 len1 count1 (out ++ o1) r1 H1 ltac:(lia)).
  destruct (decode r1 (concat chunks)) as [o2 r2]. by rewrite app_assoc.
Qed.

(** ** Encoding *)

Definition sextet (s : Z) : Z := nth (Z.to_nat s) b64 0.

(** RFC 4648 on groups of three bytes. *)
Fixpoint encode_groups (data : list Z) : list Z :=
  match data with
  | a :: b :: c :: data =>
      [sextet (a / 4); sextet (a mod 4 * 16 + b / 16); sextet (b mod 16 * 4 + c / 64); sextet (c mod 64)]
      ++ encode_groups data
  | [a; b] => [sextet (a / 4); sextet (a mod 4 * 16 + b / 16); sextet (b mod 16 * 4); 61]
  | [a] => [sextet (a / 4); sextet (a mod 4 * 16); 61; 61]
  | [] => []
  end.

Lemma b64_char_at bits shift :
  0 <= bits < 2 ^ 32 → shift ∈ [2; 4; 6; 8; 10; 12; 14] →
  b64_char bits shift = sextet (bits * 64 / 2 ^ shift mod 64).
Proof.
  intros Hb Hs. unfold b64_char, sextet. do 2 f_equal.
  rewrite (Z.land_ones _ 6), Z.shiftl_mul_pow2 by lia. change (2 ^ 6) with 64. unfold u32.
  rewrite !elem_of_cons, elem_of_nil in Hs. change (2 ^ 32) with 4294967296 in *.
  destruct_or! Hs; subst; try done; rewrite Z.shiftr_div_pow2 by lia; cbn [Z.pow Z.pow_pos Pos.iter];
    Z.div_mod_to_equations; lia.
Qed.

Lemma list3_ind {A} (P : list A → Prop) :
  P [] → (∀ a, P [a]) → (∀ a b, P [a; b]) → (∀ a b c l, P l → P (a :: b :: c :: l)) → ∀ l, P l.
Proof.
  intros H0 H1 H2 H3. fix IH 1. intros [|a [|b [|c l]]]; [apply H0|apply H1|apply H2|apply H3, IH].
Qed.

(** The characters before padding. *)
Fixpoint encode_raw (data : list Z) : list Z :=
  match data with
  | a :: b :: c :: data =>
      [sextet (a / 4); sextet (a mod 4 * 16 + b / 16); sextet (b mod 16 * 4 + c / 64); sextet (c mod 64)]
      ++ encode_raw data
  | [a; b] => [sextet (a / 4); sextet (a mod 4 * 16 + b / 16); sextet (b mod 16 * 4)]
  | [a] => [sextet (a / 4); sextet (a mod 4 * 16)]
  | [] => []
  end.

Definition push (bits b : Z) : Z := u32 (u32 (bits <<< 8) + b).

Lemma push_range bits b : 0 <= push bits b < 2 ^ 32.
Proof. apply u32_range. Qed.

Lemma push_low bits b : is_byte b → 0 <= bits → push bits b mod 65536 = bits mod 256 * 256 + b.
Proof.
  unfold is_byte, push. rewrite Z.shiftl_mul_pow2 by lia. change (2 ^ 8) with 256. intros.
  unfold u32. change (2 ^ 32) with 4294967296. Z.div_mod_to_equations. lia.
Qed.

Lemma sextet_ext x y : x = y → sextet x = sextet y.
Proof. by intros ->. Qed.

Lemma encode_pending bits x rest :
  0 <= bits < 2 ^ 32 → is_byte x →
  encode_from bits 6 (x :: rest) =
  cs ← encode_from bits 0 (x :: rest); Ok (sextet (bits mod 64) :: cs).
Proof.
  intros Hb Hx. cbn [encode_from]. fold (push bits x). set (last := bool_decide (rest = [])).
  pose proof (push_low bits x Hx ltac:(lia)) as Hp. pose proof (push_range bits x) as Hr.
  change (6 + 8) with 14. change (0 + 8) with 8. cbn [emit].
  change (14 - 6) with 8. cbn [Z.ltb Z.compare Pos.compare Pos.compare_cont orb].
  change (8 - 6) with 2. change (2 - 6) with (-4). cbn [Z.ltb Z.compare Pos.compare Pos.compare_cont orb andb].
  rewrite (b64_char_at _ 14) by (done || set_solver).
  assert (sextet (push bits x * 64 / 2 ^ 14 mod 64) = sextet (bits mod 64)) as ->.
  { apply sextet_ext. change (2 ^ 14) with 16384. unfold is_byte in *. Z.div_mod_to_equations. lia. }
  destruct last; cbn [andb]; rewrite ?bind_Ok;
    by destruct (encode_from (push bits x) _ rest).
Qed.

Lemma emit_eq bits shift last :
  shift ∈ [0; 2; 4] →
  emit 3 bits (shift + 8) last =
  if last then Ok ([b64_char bits (shift + 8); b64_char bits (shift + 2)], shift - 4)
  else Ok ([b64_char bits (shift + 8)], shift + 2).
Proof.
  rewrite !elem_of_cons, elem_of_nil. intros Hs. destruct_or! Hs; subst; by destruct last.
Qed.

Lemma b64_char_push bits b k :
  0 <= bits → is_byte b → k ∈ [2; 4; 6; 8; 10; 12] →
  b64_char (push bits b) k = sextet ((bits mod 256 * 256 + b) * 64 / 2 ^ k mod 64).
Proof.
  intros Hb Hx Hk. rewrite b64_char_at by (apply push_range || set_solver). apply sextet_ext.
  rewrite <- (push_low bits b Hx Hb). pose proof (push_range bits b) as Hr.
  rewrite !elem_of_cons, elem_of_nil in Hk.
  destruct_or! Hk; subst; try done; cbn [Z.pow Z.pow_pos Pos.iter Pos.mul];
    Z.div_mod_to_equations; lia.
Qed.

(** One byte when [shift] bits are pending, and the characters it completes. *)
Lemma encode_step bits shift b rest :
  0 <= bits → is_byte b → shift ∈ [0; 2; 4] →
  encode_from bits shift (b :: rest) =
  let x := bits mod 256 * 256 + b in
  let c := sextet (x * 64 / 2 ^ (shift + 8) mod 64) in
  match rest with
  | [] => Ok [c; sextet (x * 64 / 2 ^ (shift + 2) mod 64)]
  | _ => cs ← encode_from (push bits b) (shift + 2) rest; Ok (c :: cs)
  end.
Proof.
  intros Hb Hx Hs. cbn [encode_from]. fold (push bits b). rewrite emit_eq by done.
  assert (shift + 8 ∈ [2; 4; 6; 8; 10; 12] ∧ shift + 2 ∈ [2; 4; 6; 8; 10; 12]) as [H1 H2].
  { rewrite !elem_of_cons in *. set_unfold. lia. }
  rewrite !b64_char_push by done. destruct rest; [done|].
  rewrite bool_decide_false by done. done.
Qed.

Lemma push_mod256 bits b : is_byte b → 0 <= bits → push bits b mod 256 = b.
Proof. intros Hb H. pose proof (push_low bits b Hb H). unfold is_byte in *. Z.div_mod_to_equations; lia. Qed.

Ltac sextets :=
  repeat (apply (f_equal2 (@cons Z));
    [apply sextet_ext; cbn [Z.pow Z.pow_pos Pos.iter Pos.mul Z.add Pos.add Pos.succ];
     Z.div_mod_to_equations; lia|]).

Lemma encode_raw_spec data : ∀ bits,
  Forall is_byte data → 0 <= bits < 2 ^ 32 → encode_from bits 0 data = Ok (encode_raw data).
Proof.
  induction data as [|a|a b|a b c data IH] using list3_ind; intros bits Hd Hb; [done|..];
    repeat match goal with H : Forall is_byte (_ :: _) |- _ => inversion_clear H end;
    pose proof (λ x y, proj1 (push_range x y)) as Hp;
    rewrite encode_step by (done || lia || set_solver); cbv zeta;
    rewrite ?encode_step by (done || apply Hp || set_solver); cbv zeta; rewrite ?bind_Ok;
    rewrite ?push_mod256 by (done || lia || apply Hp); cbn [encode_raw app]; unfold is_byte in *.
  - f_equal. by sextets.
  - f_equal. by sextets.
  - destruct data as [|x data]; rewrite ?bind_Ok.
    + f_equal. by sextets.
    + change (0 + 2 + 2 + 2) with 6. rewrite encode_pending, IH, !bind_Ok; try done; try apply push_range.
      * f_equal. sextets. f_equal. apply sextet_ext.
        pose proof (push_mod256 (push (push bits a) b) c ltac:(done) ltac:(apply Hp)).
        Z.div_mod_to_equations; lia.
      * match goal with H : Forall _ (x :: _) |- _ => by inversion_clear H end.
Qed.

Lemma length_encode_raw data :
  length (encode_raw data ++ pad4 (length (encode_raw data))) = ((length data + 2) / 3 * 4)%nat ∧
  encode_raw data ++ pad4 (length (encode_raw data)) = encode_groups data.
Proof.
  induction data as [|a|a b|a b c data [IH1 IH2]] using list3_ind; [done..|].
  cbn [encode_raw encode_groups app length].
  assert (pad4 (S (S (S (S (length (encode_raw data)))))) = pad4 (length (encode_raw data))) as ->.
  { unfold pad4. do 2 f_equal. replace (S (S (S (S (length (encode_raw data))))))
      with (length (encode_raw data) + 1 * 4)%nat by lia. by rewrite Nat.Div0.mod_add. }
  rewrite IH1, IH2. split; [|done].
  replace (S (S (S (length data))) + 2)%nat with (length data + 2 + 1 * 3)%nat by lia.
  rewrite Nat.div_add by lia. lia.
Qed.

Lemma base64_encode_groups out_size data :
  Forall is_byte data →
  base64_encode out_size data =
  if (out_size <? (length data + 2) / 3 * 4 + 1)%nat then Fail else Ok (encode_groups data).
Proof.
  intros Hd. unfold base64_encode. destruct (_ <? _)%nat; [done|].
  rewrite encode_raw_spec, bind_Ok by (done || lia). f_equal. apply length_encode_raw.
Qed.

(** ** Decoding what was encoded *)

Lemma sextet_base64 s : 0 <= s < 64 → base64 (sextet s) = s ∧ (sextet s =? 61) = false.
Proof.
  intros Hs. assert (forallb (λ s, (base64 (sextet s) =? s) && negb (sextet s =? 61)) (seqZ 0 64) = true)
    as HF by (vm_compute; reflexivity).
  rewrite forallb_forall in HF. specialize (HF s).
  rewrite andb_true_iff, Z.eqb_eq, negb_true_iff in HF. apply HF, list_elem_of_In, elem_of_seqZ. lia.
Qed.

Lemma group_bytes_value s0 s1 s2 s3 e0 e1 e2 e3 :
  0 <= s0 < 64 → 0 <= s1 < 64 → 0 <= s2 < 64 → 0 <= s3 < 64 →
  base64 e0 = s0 → base64 e1 = s1 → base64 e2 = s2 → base64 e3 = s3 →
  group_bytes e0 e1 e2 e3 = [s0 * 4 + s1 / 16; s1 mod 16 * 16 + s2 / 4; s2 mod 4 * 64 + s3].
Proof.
  intros H0 H1 H2 H3 E0 E1 E2 E3. unfold group_bytes. rewrite E0, E1, E2, E3.
  assert (forallb (λ s, forallb (λ t,
      ((((s <<< 2) .& 0xFC) .| (t >>> 4)) =? s * 4 + t / 16) &&
      ((((s <<< 4) .& 0xF0) .| (t >>> 2)) =? s mod 16 * 16 + t / 4) &&
      ((((s <<< 6) .& 0xC0) .| t) =? s mod 4 * 64 + t)) (seqZ 0 64)) (seqZ 0 64) = true) as HF
    by (vm_compute; reflexivity).
  rewrite forallb_forall in HF.
  assert (∀ s t, 0 <= s < 64 → 0 <= t < 64 →
      ((s <<< 2) .& 0xFC) .| (t >>> 4) = s * 4 + t / 16 ∧
      ((s <<< 4) .& 0xF0) .| (t >>> 2) = s mod 16 * 16 + t / 4 ∧
      ((s <<< 6) .& 0xC0) .| t = s mod 4 * 64 + t) as HG.
  { intros s t Hs Ht. specialize (HF s). rewrite forallb_forall in HF.
    specialize (HF ltac:(apply list_elem_of_In, elem_of_seqZ; lia) t
      ltac:(apply list_elem_of_In, elem_of_seqZ; lia)).
    rewrite !andb_true_iff, !Z.eqb_eq in HF. tauto. }
  destruct (HG s0 s1) as (-> & _ & _); [done..|]. destruct (HG s1 s2) as (_ & -> & _); [done..|].
  by destruct (HG s2 s3) as (_ & _ & ->); [done..|].
Qed.

Lemma sextet_valid s : 0 <= s < 64 → (base64 (sextet s) <? 0) = false.
Proof. intros Hs. destruct (sextet_base64 s Hs) as [-> _]. apply Z.ltb_ge. lia. Qed.

(** One complete group of characters with values [s0] to [s3]. *)
Lemma decode_group s0 s1 s2 s3 e2 e3 rest :
  0 <= s0 < 64 → 0 <= s1 < 64 → 0 <= s2 < 64 → 0 <= s3 < 64 → base64 e2 = s2 → base64 e3 = s3 →
  decode [] (sextet s0 :: sextet s1 :: e2 :: e3 :: rest) =
  let '(out, r) := decode [] rest in
  (take (group_len e2 e3) [s0 * 4 + s1 / 16; s1 mod 16 * 16 + s2 / 4; s2 mod 4 * 64 + s3] ++ out, r).
Proof.
  intros H0 H1 H2 H3 E2 E3. cbn [decode]. rewrite !sextet_valid by done.
  assert ((base64 e2 <? 0) = false) as -> by (apply Z.ltb_ge; lia).
  assert ((base64 e3 <? 0) = false) as -> by (apply Z.ltb_ge; lia). cbn [app].
  by rewrite (group_bytes_value s0 s1 s2 s3) by (done || by apply sextet_base64).
Qed.

Lemma decode_encode data : Forall is_byte data → decode [] (encode_groups data) = (data, []).
Proof.
  induction data as [|a|a b|a b c data IH] using list3_ind; intros Hd; [done|..];
    repeat match goal with H : Forall is_byte (_ :: _) |- _ => inversion_clear H end;
    unfold is_byte in *; cbn [encode_groups app].
  - rewrite (decode_group _ _ 0 0) by (done || Z.div_mod_to_equations; lia). cbn.
    do 2 f_equal. Z.div_mod_to_equations; lia.
  - rewrite (decode_group _ _ (b mod 16 * 4) 0)
      by (done || (apply sextet_base64; Z.div_mod_to_equations; lia) || (Z.div_mod_to_equations; lia)).
    cbn [decode]. unfold group_len. change (61 =? 61) with true. cbv iota.
    destruct (sextet_base64 (b mod 16 * 4)) as [_ ->]; [Z.div_mod_to_equations; lia|].
    cbn [take app]. do 2 f_equal; [|f_equal]; Z.div_mod_to_equations; lia.
  - rewrite (decode_group _ _ (b mod 16 * 4 + c / 64) (c mod 64))
      by (done || (apply sextet_base64; Z.div_mod_to_equations; lia) || (Z.div_mod_to_equations; lia)).
    rewrite IH by done. unfold group_len.
    destruct (sextet_base64 (c mod 64)) as [_ ->]; [Z.div_mod_to_equations; lia|].
    cbn [take app]. f_equal. repeat (apply (f_equal2 (@cons Z)); [Z.div_mod_to_equations; lia|]). done.
Qed.

(** C37: A tunnelled request survives its encoding and the network -- the base64 text
    [base64_encode] makes of any bytes, cut into reads in any way, is decoded in place to
    exactly these bytes, with no incomplete group left. *)
Theorem tunnel_roundtrip out_size data text chunks buf :
  Forall is_byte data → base64_encode out_size data = Ok text → concat chunks = text →
  (length text <= length buf)%nat →
  ∃ buf', tunnel_reads buf 0 0 chunks = Ok (buf', length data, 0%nat) ∧
          take (length data) buf' = data.
Proof.
  intros Hd He Hc Hl. rewrite base64_encode_groups in He by done.
  destruct (_ <? _)%nat; [done|]. injection He as <-.
  pose proof (tunnel_reads_spec chunks buf 0 0 [] []) as H. rewrite Hc, decode_encode in H by done.
  destruct H as (buf' & len' & count' & E & Ht & -> & -> & _).
  - split_and!; [done|done|done|split; [simpl; lia|constructor]|lia].
  - done.
  - exists buf'. cbn [app length] in *. rewrite app_nil_r, Nat.add_0_r in *. done.
Qed.

Lemma tunnel_roundtrip_witness :
  ∃ buf', tunnel_reads (replicate 12 0) 0 0 [lit "QU"; lit "JDR"; lit "A=="] = Ok (buf', 4%nat, 0%nat) ∧
          take 4 buf' = lit "ABCD".
Proof.
  apply (tunnel_roundtrip 9 (lit "ABCD") (lit "QUJDRA==")).
  - by refine (bool_decide_unpack _ _); vm_compute.
  - by vm_compute.
  - done.
  - vm_compute. lia.
Defined.
