(* ===== verification/Frame.v ===== *)
(** * Frame buffers and exchangers ([frame.c])

    The pool of frames, reference counts and clones, and the exchanger that carries
    frames from an encoder thread to the main thread.  A frame is named by a number, its
    address; [f->d] names the frame whose storage it points to, so a clone shares the
    storage of its original.  A mutex is held across the whole of each operation below,
    so an interleaving of threads is a sequence of operations; a mutex that is locked and
    never unlocked makes the next operation [Diverge]. *)

From S2P Require Import Prelude.

Local Open Scope Z_scope.
Local Open Scope c_scope.

(** ** Formats *)

Definition FORMAT_EMPTY : Z := 0.
Definition FORMAT_RAW_RGB24 : Z := 1.
Definition FORMAT_RAW_UYVY : Z := 2.
Definition FORMAT_PCM : Z := 64.
Definition FORMAT_MPEG4 : Z := 100.
Definition FORMAT_JPEG : Z := 101.
Definition FORMAT_MPV : Z := 102.
Definition FORMAT_H263 : Z := 103.
Definition FORMAT_H264 : Z := 104.
Definition FORMAT_MPA : Z := 200.
Definition FORMAT_ALAW : Z := 201.
Definition FORMAT_ADPCM : Z := 202.
Definition FORMAT_ULAW : Z := 203.
Definition FORMAT_AAC : Z := 204.
Definition FORMAT_G726 : Z := 205.

(** ** Frames *)

(** [f_destructor] is the original of a clone: [clone_destructor] is the only destructor
    the program installs.  [f_data] is the storage behind the structure. *)
Record frame := MkFrame {
  f_ref_count : Z;
  f_size : Z;
  f_destructor : option nat;
  f_format : Z; f_width : Z; f_height : Z; f_length : Z; f_key : Z; f_step : Z;
  f_d : nat;
  f_timestamp : Z;
  f_data : list Z }.

Record frame_heap := MkHeap {
  h_frames : gmap nat frame;
  h_slots : list (option nat);   (* frame_slot.f around the ring *)
  h_take : nat;
  h_put : nat;
  h_locked : bool }.

(** [slot->next] in a ring of [n] slots. *)
Definition next_slot (n i : nat) : nat := if (S i =? n)%nat then O else S i.

(** [init_frame_heap]; [malloc] leaves [junk] in the fields that are not set. *)
Definition init_frame_heap (size : Z) (count : nat) (junk : nat → frame) : outcome frame_heap :=
  match count with
  | O => Undef      (* frame_heap_take->prev with frame_heap_take == NULL *)
  | _ =>
      let mk i :=
        let j := junk i in
        (i, MkFrame (f_ref_count j) size (f_destructor j) (f_format j) (f_width j) (f_height j)
              (f_length j) (f_key j) (f_step j) (f_d j) (f_timestamp j) (f_data j)) in
      Ok (MkHeap (list_to_map (map mk (seq 0 count))) (map Some (seq 0 count)) 0 0 false)
  end.

Definition with_frames (h : frame_heap) (m : gmap nat frame) : frame_heap :=
  MkHeap m (h_slots h) (h_take h) (h_put h) (h_locked h).

Definition set_ref (f : frame) (r : Z) : frame :=
  MkFrame r (f_size f) (f_destructor f) (f_format f) (f_width f) (f_height f) (f_length f)
    (f_key f) (f_step f) (f_d f) (f_timestamp f) (f_data f).

(** What [new_frame] writes into the frame it takes. *)
Definition fresh_frame (id : nat) (f : frame) : frame :=
  MkFrame 1 (f_size f) None FORMAT_EMPTY 0 0 0 0 (f_step f) id (f_timestamp f) (f_data f).

Definition new_frame (h : frame_heap) : outcome (option nat * frame_heap) :=
  if h_locked h then Diverge else
  slot ← rd (h_slots h) (h_take h);
  match slot with
  | Some id =>
      match h_frames h !! id with
      | None => Undef
      | Some f =>
          Ok (Some id,
              MkHeap (<[id := fresh_frame id f]> (h_frames h)) (<[h_take h := None]> (h_slots h))
                (next_slot (length (h_slots h)) (h_take h)) (h_put h) false)
      end
  | None => Ok (None, h)
  end.

Definition ref_frame (h : frame_heap) (id : nat) : outcome frame_heap :=
  match h_frames h !! id with
  | None => Undef
  | Some f => Ok (with_frames h (<[id := set_ref f (i32 (f_ref_count f + 1))]> (h_frames h)))
  end.

(** The end of [unref_frame]: the frame goes back to the pool.  Finding a frame in the
    slot returns with the mutex still locked. *)
Definition put_frame (h : frame_heap) (id : nat) : outcome frame_heap :=
  if h_locked h then Diverge else
  slot ← rd (h_slots h) (h_put h);
  match slot with
  | Some _ => Ok (MkHeap (h_frames h) (h_slots h) (h_take h) (h_put h) true)
  | None =>
      Ok (MkHeap (h_frames h) (<[h_put h := Some id]> (h_slots h)) (h_take h)
            (next_slot (length (h_slots h)) (h_put h)) false)
  end.

(** [unref_frame]; the recursion is through [clone_destructor], which returns 0. *)
Fixpoint unref_frame (fuel : nat) (h : frame_heap) (id : nat) : outcome frame_heap :=
  match fuel with
  | O => Diverge
  | S fuel =>
      match h_frames h !! id with
      | None => Undef
      | Some f =>
          let r := i32 (f_ref_count f - 1) in
          let h := with_frames h (<[id := set_ref f r]> (h_frames h)) in
          if 0 <? r then Ok h else
          h ← match f_destructor f with
              | Some orig => unref_frame fuel (with_frames h (<[id := set_ref f 1]> (h_frames h))) orig
              | None => Ok h
              end;
          put_frame h id
      end
  end.

(** [unref_frame] with the fuel that is always enough: one call per frame of the pool. *)
Definition unref (h : frame_heap) (id : nat) : outcome frame_heap :=
  unref_frame (length (h_slots h)) h id.

Definition clone_of (orig : nat) (o f : frame) : frame :=
  MkFrame (f_ref_count f) (f_size f) (Some orig) (f_format o) (f_width o) (f_height o) (f_length o)
    (f_key o) (f_step o) (f_d o) (f_timestamp f) (f_data f).

Definition clone_frame (h : frame_heap) (orig : nat) : outcome (option nat * frame_heap) :=
  '(r, h) ← new_frame h;
  match r with
  | None => Ok (None, h)
  | Some id =>
      match h_frames h !! orig, h_frames h !! id with
      | Some o, Some f =>
          h ← ref_frame (with_frames h (<[id := clone_of orig o f]> (h_frames h))) orig;
          Ok (Some id, h)
      | _, _ => Undef
      end
  end.

(** ** Exchangers *)

Record exchanger := MkEx {
  x_slots : list (option nat * bool);    (* f and pending *)
  x_slave_cur : nat;
  x_master_read : nat;
  x_master_write : nat;
  x_pipe : nat }.                        (* bytes in the pipe *)

Definition new_exchanger (slots : nat) : outcome exchanger :=
  match slots with
  | O => Undef
  | _ => Ok (MkEx (replicate slots (None, false)) 0 0 0 0)
  end.

(** The master's side: [exchange_frame] is [false] for -1. *)
Definition exchange_frame (x : exchanger) (f : nat) : outcome (bool * exchanger) :=
  s ← rd (x_slots x) (x_master_write x);
  match s.1 with
  | Some _ => Ok (false, x)
  | None =>
      Ok (true, MkEx (<[x_master_write x := (Some f, true)]> (x_slots x)) (x_slave_cur x)
                  (x_master_read x) (next_slot (length (x_slots x)) (x_master_write x)) (x_pipe x))
  end.

(** [get_next_frame] without waiting. *)
Definition get_next_frame (x : exchanger) : outcome (option nat) :=
  s ← rd (x_slots x) (x_slave_cur x); Ok (if (s.2 : bool) then s.1 else None).

(** The slave's side: a frame that finds the exchanger full is released. *)
Definition deliver_frame (x : exchanger) (h : frame_heap) (f : nat)
    : outcome (bool * exchanger * frame_heap) :=
  let n := length (x_slots x) in
  if (next_slot n (x_slave_cur x) =? x_master_read x)%nat then
    h ← unref h f; Ok (false, x, h)
  else
    slots ← wr (x_slots x) (x_slave_cur x) (Some f, false);
    Ok (true, MkEx slots (next_slot n (x_slave_cur x)) (x_master_read x) (x_master_write x)
                (S (x_pipe x)), h).

(** [exchanger_read]: the frame that is handed to [ex->f], if any.  With an empty pipe
    [read] fails with [EAGAIN]. *)
Definition exchanger_read (x : exchanger) : outcome (option nat * exchanger) :=
  match x_pipe x with
  | O => Ok (None, x)
  | S pipe =>
      s ← rd (x_slots x) (x_master_read x);
      let slots := <[x_master_read x := (None, s.2)]> (x_slots x) in
      match s.1 with
      | None => Ok (None, MkEx slots (x_slave_cur x) (x_slave_cur x) (x_master_write x) pipe)
      | Some f =>
          Ok (Some f, MkEx slots (x_slave_cur x) (next_slot (length (x_slots x)) (x_master_read x))
                        (x_master_write x) pipe)
      end
  end.

(** ** Rings as queues *)

(** A ring of slots read from [take]: the queue [q], then empty slots. *)
Definition ring_rep (slots : list (option nat)) (take put : nat) (q : list nat) : Prop :=
  let n := length slots in
  (take < n)%nat ∧ (length q <= n)%nat ∧ put = ((take + length q) mod n)%nat ∧
  ∀ i, (i < n)%nat → slots !! ((take + i) mod n)%nat = Some (q !! i).

Lemma next_slot_mod n i : (i < n)%nat → next_slot n i = ((i + 1) mod n)%nat.
Proof.
  intros Hi. unfold next_slot. destruct (Nat.eqb_spec (S i) n) as [<-|].
  - rewrite Nat.add_1_r, Nat.Div0.mod_same. done.
  - rewrite Nat.mod_small; lia.
Qed.

Lemma mod_add_inj n a i j :
  (i < n)%nat → (j < n)%nat → ((a + i) mod n = (a + j) mod n)%nat → i = j.
Proof.
  intros Hi Hj E. apply (f_equal Z.of_nat) in E. rewrite !Nat2Z.inj_mod, !Nat2Z.inj_add in E.
  assert ((Z.of_nat i - Z.of_nat j) mod Z.of_nat n = 0) as Hz.
  { replace (Z.of_nat i - Z.of_nat j) with ((Z.of_nat a + Z.of_nat i) - (Z.of_nat a + Z.of_nat j)) by lia.
    rewrite Zminus_mod, E, Z.sub_diag. apply Z.mod_0_l. lia. }
  apply Z.mod_divide in Hz as [k Hk]; [|lia].
  destruct (Z.lt_trichotomy k 0) as [Hlt|[->|Hgt]]; [|lia|]; exfalso; nia.
Qed.

Lemma ring_rep_take slots take put q : ring_rep slots take put q → slots !! take = Some (q !! O).
Proof.
  intros (Ht & _ & _ & H). specialize (H O ltac:(lia)). by rewrite Nat.add_0_r, Nat.mod_small in H.
Qed.

Lemma ring_rep_pop slots take put x q :
  ring_rep slots take put (x :: q) →
  ring_rep (<[take := None]> slots) (next_slot (length slots) take) put q.
Proof.
  intros (Ht & Hq & -> & H). unfold ring_rep. rewrite length_insert. set (n := length slots) in *.
  rewrite next_slot_mod by done. cbn [length] in *.
  split; [apply Nat.mod_upper_bound; lia|]. split; [lia|]. split.
  { rewrite Nat.Div0.add_mod_idemp_l. f_equal. lia. }
  intros i Hi. rewrite Nat.Div0.add_mod_idemp_l.
  replace (take + 1 + i)%nat with (take + S i)%nat by lia.
  destruct (decide (S i = n)) as [E|E].
  - replace ((take + S i) mod n)%nat with take.
    2:{ rewrite E, <- (Nat.mod_small take n) at 1 by done.
        by rewrite Nat.Div0.add_mod, Nat.Div0.mod_same, Nat.add_0_r, Nat.Div0.mod_mod. }
    rewrite list_lookup_insert_eq by done. symmetry. f_equal. apply lookup_ge_None. lia.
  - rewrite list_lookup_insert_ne.
    + apply (H (S i)). lia.
    + intros E2. apply E. rewrite <- (Nat.mod_small take n) in E2 at 1 by done.
      rewrite <- (Nat.add_0_r take) in E2 at 1. apply mod_add_inj in E2; lia.
Qed.

Lemma ring_rep_push slots take put q x :
  ring_rep slots take put q → (length q < length slots)%nat →
  slots !! put = Some None ∧
  ring_rep (<[put := Some x]> slots) take (next_slot (length slots) put) (q ++ [x]).
Proof.
  intros (Ht & Hq & -> & H) Hl. set (n := length slots) in *.
  assert ((take + length q) mod n < n)%nat as Hput by (apply Nat.mod_upper_bound; lia). split.
  { rewrite H by done. f_equal. by apply lookup_ge_None. }
  unfold ring_rep. rewrite length_insert. fold n. rewrite length_app. cbn [length].
  split; [done|]. split; [lia|]. split.
  { rewrite next_slot_mod by done. rewrite Nat.Div0.add_mod_idemp_l. f_equal. lia. }
  intros i Hi. destruct (decide (i = length q)) as [->|Hne].
  - rewrite list_lookup_insert_eq by done. by rewrite list_lookup_middle.
  - rewrite list_lookup_insert_ne.
    + rewrite H by done. f_equal. destruct (decide (i < length q)%nat).
      * by rewrite lookup_app_l.
      * rewrite !lookup_ge_None_2; [done| |lia]. rewrite length_app. cbn [length]. lia.
    + intros E. apply mod_add_inj in E; lia.
Qed.

(** ** The invariant of the pool *)

(** How often [f] occurs in a list of references. *)
Definition cnt (f : nat) (l : list nat) : nat := length (filter (λ x, x = f) l).

Lemma cnt_cons f x l : cnt f (x :: l) = ((if decide (x = f) then 1 else 0) + cnt f l)%nat.
Proof. unfold cnt. rewrite filter_cons. by case_decide. Qed.

Lemma cnt_app f l k : cnt f (l ++ k) = (cnt f l + cnt f k)%nat.
Proof. unfold cnt. by rewrite filter_app, length_app. Qed.

#[export] Instance cnt_proper f : Proper ((≡ₚ) ==> eq) (cnt f).
Proof. intros l k E. unfold cnt. by rewrite E. Qed.

Lemma cnt_pos f l : (0 < cnt f l)%nat ↔ f ∈ l.
Proof.
  induction l as [|x l IH]; [unfold cnt; simpl; split; [lia|by intros ?%not_elem_of_nil]|].
  rewrite cnt_cons, elem_of_cons, <- IH. case_decide; naive_solver lia.
Qed.

Lemma cnt_le f l : (cnt f l <= length l)%nat.
Proof. apply length_filter. Qed.

(** The references that live clones hold on their originals. *)
Definition dests (m : gmap nat frame) (live : list nat) : list nat :=
  omap (λ c, m !! c ≫= f_destructor) live.

(** Newest first, a clone comes before its original. *)
Fixpoint chain (m : gmap nat frame) (live : list nat) : Prop :=
  match live with
  | [] => True
  | c :: live => (∀ o, m !! c ≫= f_destructor = Some o → o ∈ live) ∧ chain m live
  end.

(** [held] are the references the program holds, [limbo] the frames on their way back to
    the pool, [q] the free frames in the order they will be taken, [live] the frames in
    use. *)
Record pool_inv (h : frame_heap) (held limbo q live : list nat) : Prop := {
  pi_ring : ring_rep (h_slots h) (h_take h) (h_put h) q;
  pi_locked : h_locked h = false;
  pi_ids : q ++ limbo ++ live ≡ₚ seq 0 (length (h_slots h));
  pi_frames i : (i < length (h_slots h))%nat → is_Some (h_frames h !! i);
  pi_refs f fr : f ∈ live → h_frames h !! f = Some fr →
    f_ref_count fr = Z.of_nat (cnt f (held ++ dests (h_frames h) live)) ∧ 0 < f_ref_count fr;
  pi_live f : f ∈ held ++ dests (h_frames h) live → f ∈ live;
  pi_chain : chain (h_frames h) live }.

(** Changing a frame that is not in use, or keeping its destructor, moves no reference. *)
Lemma dests_insert m live id f' :
  id ∉ live ∨ m !! id ≫= f_destructor = f_destructor f' → dests (<[id := f']> m) live = dests m live.
Proof.
  intros H. unfold dests. induction live as [|c live IH]; [done|]. cbn.
  rewrite not_elem_of_cons in H. rewrite IH by tauto.
  destruct (decide (c = id)) as [->|]; [|by rewrite lookup_insert_ne].
  rewrite lookup_insert_eq. cbn. destruct H as [[? _]|E]; [done|]. by rewrite E.
Qed.

Lemma chain_insert m live id f' :
  id ∉ live ∨ m !! id ≫= f_destructor = f_destructor f' → chain m live → chain (<[id := f']> m) live.
Proof.
  intros H. induction live as [|c live IH]; [done|]. cbn. rewrite not_elem_of_cons in H.
  intros [H1 H2]. split; [|apply IH; tauto].
  destruct (decide (c = id)) as [->|]; [|by rewrite lookup_insert_ne].
  rewrite lookup_insert_eq. cbn. destruct H as [[? _]|E]; [done|]. by rewrite <- E.
Qed.

Lemma dests_app m l k : dests m (l ++ k) = dests m l ++ dests m k.
Proof. apply omap_app. Qed.

Lemma length_dests m live : (length (dests m live) <= length live)%nat.
Proof.
  unfold dests. induction live as [|c live IH]; cbn [omap list_omap]; [done|].
  destruct (m !! c ≫= f_destructor); cbn [length]; lia.
Qed.

Lemma pool_nodup h held limbo q live : pool_inv h held limbo q live → NoDup (q ++ limbo ++ live).
Proof. intros H. rewrite (pi_ids _ _ _ _ _ H). apply NoDup_seq. Qed.

Lemma pool_in_range h held limbo q live f :
  pool_inv h held limbo q live → f ∈ q ++ limbo ++ live → (f < length (h_slots h))%nat.
Proof. intros H. rewrite (pi_ids _ _ _ _ _ H), elem_of_seq. lia. Qed.

Lemma pool_lookup h held limbo q live f :
  pool_inv h held limbo q live → f ∈ q ++ limbo ++ live → is_Some (h_frames h !! f).
Proof. intros H Hf. apply (pi_frames _ _ _ _ _ H). by eapply pool_in_range. Qed.

(** Updating the count of a live frame by one reference. *)
Lemma pool_set_ref h held held' limbo q live id fr r :
  pool_inv h held limbo q live → id ∈ live → h_frames h !! id = Some fr →
  r = Z.of_nat (cnt id (held' ++ dests (h_frames h) live)) → 0 < r →
  (∀ f, f ≠ id → cnt f held' = cnt f held) → (∀ f, f ∈ held' → f ∈ live) →
  pool_inv (with_frames h (<[id := set_ref fr r]> (h_frames h))) held' limbo q live.
Proof.
  intros Hp Hid E Hr Hpos Hother Hin.
  assert (dests (<[id := set_ref fr r]> (h_frames h)) live = dests (h_frames h) live) as Ed
    by (apply dests_insert; right; by rewrite E).
  destruct Hp as [H1 H2 H3 H4 H5 H6 H7].
  split; cbn [h_frames h_slots h_take h_put h_locked with_frames]; rewrite ?Ed; try done.
  - intros i Hi. rewrite lookup_insert_is_Some. destruct (decide (id = i)); [by left|right; auto].
  - intros f fr' Hf Hl. destruct (decide (id = f)) as [<-|Hne].
    + rewrite lookup_insert_eq in Hl. simplify_eq/=. done.
    + rewrite lookup_insert_ne in Hl by done. rewrite cnt_app, Hother by done. rewrite <- cnt_app. auto.
  - intros f. rewrite elem_of_app. intros [?|?]; [auto|]. apply H6, elem_of_app. by right.
  - apply chain_insert; [right; by rewrite E|done].
Qed.

Lemma ref_frame_inv h held limbo q live id :
  pool_inv h held limbo q live → id ∈ live →
  Z.of_nat (length held + length live + 1) < 2 ^ 31 →
  ∃ fr, h_frames h !! id = Some fr ∧
    let h' := with_frames h (<[id := set_ref fr (f_ref_count fr + 1)]> (h_frames h)) in
    ref_frame h id = Ok h' ∧ pool_inv h' (id :: held) limbo q live.
Proof.
  intros Hp Hid Hb.
  destruct (pool_lookup _ _ _ _ _ id Hp) as [fr E]; [set_solver|].
  destruct (pi_refs _ _ _ _ _ Hp id fr Hid E) as [Er Hpos].
  exists fr. split; [done|]. intros h'. subst h'.
  assert (f_ref_count fr <= Z.of_nat (length held + length live)) as Hle.
  { rewrite Er. pose proof (cnt_le id (held ++ dests (h_frames h) live)). rewrite length_app in *.
    pose proof (length_dests (h_frames h) live). lia. }
  unfold ref_frame. rewrite E, i32_small by lia. split; [done|].
  apply (pool_set_ref h held); try done.
  - cbn [app]. rewrite cnt_cons, decide_True by done. lia.
  - lia.
  - intros f Hf. rewrite cnt_cons, decide_False by done. lia.
  - intros f. rewrite elem_of_cons. intros [-> | Hf]; [done|]. apply (pi_live _ _ _ _ _ Hp), elem_of_app. by left.
Qed.

Lemma new_frame_inv h held q live :
  pool_inv h held [] q live →
  match q with
  | [] => new_frame h = Ok (None, h)
  | id :: q' => ∃ fr h', h_frames h !! id = Some fr ∧ new_frame h = Ok (Some id, h') ∧
      h_frames h' = <[id := fresh_frame id fr]> (h_frames h) ∧
      length (h_slots h') = length (h_slots h) ∧ pool_inv h' (id :: held) [] q' (id :: live)
  end.
Proof.
  intros Hp. pose proof (pool_nodup _ _ _ _ _ Hp) as Hnd.
  unfold new_frame. rewrite (pi_locked _ _ _ _ _ Hp).
  rewrite (rd_Ok _ _ _ (ring_rep_take _ _ _ _ (pi_ring _ _ _ _ _ Hp))), bind_Ok.
  destruct q as [|id q']; cbn [lookup list_lookup]; [done|].
  destruct (pool_lookup _ _ _ _ _ id Hp) as [fr E]; [set_solver|]. rewrite E.
  exists fr. eexists. split; [done|]. split; [done|]. split; [done|]. split; [apply length_insert|].
  assert (id ∉ live) as Hid by (cbn [app] in Hnd; apply NoDup_cons in Hnd as [Hnd _]; set_solver).
  assert (dests (<[id := fresh_frame id fr]> (h_frames h)) (id :: live) = dests (h_frames h) live) as Ed.
  { unfold dests at 1. cbn [omap list_omap]. rewrite lookup_insert_eq. cbn [mbind option_bind f_destructor fresh_frame].
    by apply dests_insert; left. }
  destruct Hp as [H1 H2 H3 H4 H5 H6 H7].
  split; cbn [h_frames h_slots h_take h_put h_locked]; rewrite ?Ed, ?length_insert; try done.
  - by eapply ring_rep_pop.
  - rewrite <- H3. cbn [app]. symmetry. apply Permutation_middle.
  - intros i Hi. rewrite lookup_insert_is_Some. destruct (decide (id = i)); [by left|right; auto].
  - intros f fr' Hf Hl. cbn [app]. rewrite cnt_cons. destruct (decide (id = f)) as [<-|Hne].
    + rewrite lookup_insert_eq in Hl. simplify_eq/=. split; [|done].
      enough (cnt id (held ++ dests (h_frames h) live) = 0%nat) by lia.
      destruct (cnt id _) eqn:Ec; [done|]. exfalso. apply Hid, H6, cnt_pos. lia.
    + rewrite lookup_insert_ne in Hl by done. apply H5; [set_solver|done].
  - intros f. cbn [app]. rewrite !elem_of_cons. intros [?|?]; [by left|right; by apply H6].
  - cbn [chain]. rewrite lookup_insert_eq. cbn [mbind option_bind f_destructor fresh_frame].
    split; [done|]. by apply chain_insert; [left|].
Qed.

Lemma chain_remove m l1 f l2 :
  f ∉ dests m (l1 ++ f :: l2) → chain m (l1 ++ f :: l2) → chain m (l1 ++ l2).
Proof.
  induction l1 as [|c l1 IH]; cbn [app chain]; [tauto|].
  intros Hn [H1 H2]. split.
  - intros o Ho. assert (o ≠ f) as Hof.
    { intros ->. apply Hn. unfold dests. cbn [omap list_omap]. rewrite Ho. by left. }
    specialize (H1 o Ho). set_solver.
  - apply IH; [|done]. intros Hi. apply Hn. unfold dests in *. cbn [omap list_omap].
    destruct (m !! c ≫= f_destructor); [by right|done].
Qed.

(** The last reference goes: the frame leaves the live ones, and the reference a clone
    holds on its original is left to be released. *)
Lemma pool_release h held limbo q live id fr r :
  pool_inv h (id :: held) limbo q live → h_frames h !! id = Some fr →
  cnt id (held ++ dests (h_frames h) live) = O →
  ∃ live', (length live = S (length live'))%nat ∧
    pool_inv (with_frames h (<[id := set_ref fr r]> (h_frames h)))
      (option_list (f_destructor fr) ++ held) (id :: limbo) q live'.
Proof.
  intros Hp E Hc. pose proof (pool_nodup _ _ _ _ _ Hp) as Hnd.
  assert (id ∈ live) as Hid by (apply (pi_live _ _ _ _ _ Hp); set_solver).
  apply list_elem_of_split in Hid as (l1 & l2 & ->).
  assert (id ∉ held ++ dests (h_frames h) (l1 ++ id :: l2)) as Hni by (rewrite <- cnt_pos; lia).
  assert (id ∉ l1 ++ l2) as Hnl.
  { apply NoDup_app in Hnd as (_ & _ & Hnd). apply NoDup_app in Hnd as (_ & _ & Hnd).
    rewrite <- Permutation_middle in Hnd. by apply NoDup_cons in Hnd as [? _]. }
  exists (l1 ++ l2). split; [rewrite !length_app; cbn [length]; lia|].
  assert (dests (<[id := set_ref fr r]> (h_frames h)) (l1 ++ l2) = dests (h_frames h) (l1 ++ l2)) as Ed
    by (by apply dests_insert; left).
  assert (dests (h_frames h) (l1 ++ id :: l2) ≡ₚ
    option_list (f_destructor fr) ++ dests (h_frames h) (l1 ++ l2)) as Ed2.
  { rewrite !dests_app. unfold dests at 2. cbn [omap list_omap]. rewrite E. cbn [mbind option_bind].
    destruct (f_destructor fr); cbn [option_list app]; [by rewrite <- Permutation_middle|done]. }
  assert (∀ f, f ≠ id → cnt f ((option_list (f_destructor fr) ++ held) ++ dests (h_frames h) (l1 ++ l2)) =
    cnt f ((id :: held) ++ dests (h_frames h) (l1 ++ id :: l2))) as Ecnt.
  { intros f Hf. rewrite (cnt_app _ (id :: held)), Ed2, cnt_cons, !cnt_app, decide_False by done. lia. }
  destruct Hp as [H1 H2 H3 H4 H5 H6 H7].
  split; cbn [h_frames h_slots h_take h_put h_locked with_frames]; rewrite ?Ed; try done.
  - rewrite <- H3. apply Permutation_app_head. cbn [app]. rewrite !app_assoc. apply Permutation_middle.
  - intros i Hi. rewrite lookup_insert_is_Some. destruct (decide (id = i)); [by left|right; auto].
  - intros f fr' Hf Hl. assert (f ≠ id) as Hne by (intros ->; done).
    rewrite lookup_insert_ne in Hl by done. rewrite Ecnt by done. apply H5; [set_solver|done].
  - intros f Hf. assert (f ≠ id) as Hne.
    { intros ->. apply Hni. rewrite Ed2. set_solver. }
    rewrite <- cnt_pos, Ecnt, cnt_pos in Hf by done. apply H6 in Hf. set_solver.
  - apply chain_insert; [by left|]. apply (chain_remove _ _ id); [set_solver|done].
Qed.

Lemma put_frame_inv h held limbo q live id :
  pool_inv h held (id :: limbo) q live →
  ∃ h', put_frame h id = Ok h' ∧ length (h_slots h') = length (h_slots h) ∧
    pool_inv h' held limbo (q ++ [id]) live.
Proof.
  intros Hp. unfold put_frame. rewrite (pi_locked _ _ _ _ _ Hp).
  assert (length q < length (h_slots h))%nat as Hl.
  { pose proof (Permutation_length (pi_ids _ _ _ _ _ Hp)) as E.
    rewrite !length_app, length_seq in E. cbn [length] in E. lia. }
  destruct (ring_rep_push _ _ _ _ id (pi_ring _ _ _ _ _ Hp) Hl) as [E Hr].
  rewrite (rd_Ok _ _ _ E), bind_Ok. eexists. split; [done|]. split; [apply length_insert|].
  destruct Hp as [H1 H2 H3 H4 H5 H6 H7].
  split; cbn [h_frames h_slots h_take h_put h_locked]; rewrite ?length_insert; try done.
  rewrite <- H3, <- app_assoc. done.
Qed.

Lemma unref_frame_inv fuel h held limbo q live id :
  pool_inv h (id :: held) limbo q live → (length live <= fuel)%nat →
  Z.of_nat (length held + length live + 1) < 2 ^ 31 →
  ∃ h' q' live', unref_frame fuel h id = Ok h' ∧ length (h_slots h') = length (h_slots h) ∧
    pool_inv h' held limbo q' live'.
Proof.
  revert h held limbo q live id. induction fuel as [|fuel IH]; intros h held limbo q live id Hp Hf Hb.
  { assert (id ∈ live) as Hid by (apply (pi_live _ _ _ _ _ Hp); set_solver).
    destruct live; [by apply not_elem_of_nil in Hid|cbn [length] in Hf; lia]. }
  cbn [unref_frame]. assert (id ∈ live) as Hid by (apply (pi_live _ _ _ _ _ Hp); set_solver).
  destruct (pool_lookup _ _ _ _ _ id Hp) as [fr E]; [set_solver|]. rewrite E.
  destruct (pi_refs _ _ _ _ _ Hp id fr Hid E) as [Er Hpos].
  cbn [app] in Er. rewrite cnt_cons, decide_True in Er by done.
  assert (f_ref_count fr <= Z.of_nat (length held + length live + 1)) as Hle.
  { rewrite Er. pose proof (cnt_le id (held ++ dests (h_frames h) live)). rewrite length_app in *.
    pose proof (length_dests (h_frames h) live). lia. }
  rewrite i32_small by lia. destruct (Z.ltb_spec 0 (f_ref_count fr - 1)) as [Hr|Hr].
  - do 3 eexists. split; [done|]. split; [done|].
    apply (pool_set_ref h (id :: held)); try done.
    + rewrite Er. lia.
    + intros f Hne. rewrite cnt_cons, decide_False by done. done.
    + intros f Hfh. apply (pi_live _ _ _ _ _ Hp). set_solver.
  - assert (cnt id (held ++ dests (h_frames h) live) = O) as Hc by lia.
    destruct (f_destructor fr) as [orig|] eqn:Ed.
    + match goal with |- context [unref_frame fuel ?hh orig] =>
        replace hh with (with_frames h (<[id := set_ref fr 1]> (h_frames h)))
          by (unfold with_frames; cbn; by rewrite insert_insert_eq) end.
      destruct (pool_release _ _ _ _ _ _ _ 1 Hp E Hc) as (live' & Hll & Hp').
      rewrite Ed in Hp'. cbn [option_list app] in Hp'.
      destruct (IH _ _ _ _ _ _ Hp') as (h1 & q1 & live1 & E1 & Hs1 & Hp1); [lia|lia|].
      rewrite E1, bind_Ok.
      destruct (put_frame_inv _ _ _ _ _ _ Hp1) as (h2 & E2 & Hs2 & Hp2). rewrite E2.
      do 3 eexists. split; [done|]. split; [by rewrite Hs2, Hs1|done].
    + destruct (pool_release _ _ _ _ _ _ _ (f_ref_count fr - 1) Hp E Hc) as (live' & Hll & Hp').
      rewrite Ed in Hp'. cbn [option_list app] in Hp'. rewrite bind_Ok.
      destruct (put_frame_inv _ _ _ _ _ _ Hp') as (h2 & E2 & Hs2 & Hp2). rewrite E2.
      do 3 eexists. split; [done|]. split; [by rewrite Hs2|done].
Qed.

Lemma unref_inv h held q live id :
  pool_inv h (id :: held) [] q live →
  Z.of_nat (length held + length (h_slots h) + 1) < 2 ^ 31 →
  ∃ h' q' live', unref h id = Ok h' ∧ length (h_slots h') = length (h_slots h) ∧
    pool_inv h' held [] q' live'.
Proof.
  intros Hp Hb. assert (length live <= length (h_slots h))%nat as Hl.
  { pose proof (Permutation_length (pi_ids _ _ _ _ _ Hp)) as E.
    rewrite !length_app, length_seq in E. cbn [length] in E. lia. }
  unfold unref. eapply unref_frame_inv; [done|done|lia].
Qed.

(** A reference that the program holds on [orig] becomes the one its clone holds. *)
Lemma pool_set_clone h held limbo q live c orig fr fr' :
  pool_inv h (orig :: held) limbo q (c :: live) → h_frames h !! c = Some fr →
  f_destructor fr = None → orig ≠ c → f_destructor fr' = Some orig → f_ref_count fr' = f_ref_count fr →
  pool_inv (with_frames h (<[c := fr']> (h_frames h))) held limbo q (c :: live).
Proof.
  intros Hp E Hn Hoc Hd Hr. pose proof (pool_nodup _ _ _ _ _ Hp) as Hnd.
  assert (c ∉ live) as Hcl.
  { apply NoDup_app in Hnd as (_ & _ & Hnd). apply NoDup_app in Hnd as (_ & _ & Hnd).
    by apply NoDup_cons in Hnd as [? _]. }
  assert (dests (<[c := fr']> (h_frames h)) (c :: live) = orig :: dests (h_frames h) live) as Ed.
  { unfold dests at 1. cbn [omap list_omap]. rewrite lookup_insert_eq. cbn [mbind option_bind].
    rewrite Hd. f_equal. by apply dests_insert; left. }
  assert (dests (h_frames h) (c :: live) = dests (h_frames h) live) as Ed2.
  { unfold dests. cbn [omap list_omap]. rewrite E. cbn [mbind option_bind]. by rewrite Hn. }
  assert (held ++ orig :: dests (h_frames h) live ≡ₚ
    (orig :: held) ++ dests (h_frames h) (c :: live)) as Ep.
  { rewrite Ed2. cbn [app]. symmetry. apply Permutation_middle. }
  assert (orig ∈ c :: live) as Hol by (apply (pi_live _ _ _ _ _ Hp); set_solver).
  destruct Hp as [H1 H2 H3 H4 H5 H6 H7].
  split; cbn [h_frames h_slots h_take h_put h_locked with_frames]; rewrite ?Ed; try done.
  - intros i Hi. rewrite lookup_insert_is_Some. destruct (decide (c = i)); [by left|right; auto].
  - intros f f1 Hf Hl. rewrite Ep. destruct (decide (c = f)) as [<-|Hne].
    + rewrite lookup_insert_eq in Hl. simplify_eq. rewrite Hr. auto.
    + rewrite lookup_insert_ne in Hl by done. auto.
  - intros f. rewrite Ep. apply H6.
  - cbn [chain] in *. rewrite lookup_insert_eq. cbn [mbind option_bind]. rewrite Hd.
    split; [intros o [= <-]; set_solver|]. apply chain_insert; [by left|tauto].
Qed.

Lemma clone_frame_inv h held q live orig :
  pool_inv h held [] q live → orig ∈ held →
  Z.of_nat (length held + length (h_slots h) + 2) < 2 ^ 31 →
  match q with
  | [] => clone_frame h orig = Ok (None, h)
  | id :: q' => ∃ h', clone_frame h orig = Ok (Some id, h') ∧
      length (h_slots h') = length (h_slots h) ∧ pool_inv h' (id :: held) [] q' (id :: live)
  end.
Proof.
  intros Hp Ho Hb. pose proof (new_frame_inv _ _ _ _ Hp) as Hnew. unfold clone_frame.
  pose proof (pool_nodup _ _ _ _ _ Hp) as Hnd.
  assert (orig ∈ live) as Hol by (apply (pi_live _ _ _ _ _ Hp); set_solver).
  destruct q as [|id q']; [by rewrite Hnew, bind_Ok|].
  destruct Hnew as (fr & h1 & E & -> & Ef & Hs & Hp1). rewrite bind_Ok.
  assert (id ≠ orig) as Hne by (intros ->; apply NoDup_cons in Hnd as [Hnd _]; set_solver).
  assert (length (id :: live) <= length (h_slots h1))%nat as Hl.
  { pose proof (Permutation_length (pi_ids _ _ _ _ _ Hp1)) as El.
    rewrite !length_app, length_seq in El. cbn [length] in El |- *. lia. }
  destruct (ref_frame_inv _ _ _ _ _ orig Hp1) as (fo & Eo & _ & Hp2); [set_solver|cbn [length] in *; lia|].
  rewrite Eo. assert (h_frames h1 !! id = Some (fresh_frame id fr)) as Eid by (by rewrite Ef, lookup_insert_eq).
  rewrite Eid. unfold ref_frame. cbn [h_frames with_frames]. rewrite lookup_insert_ne, Eo by done.
  rewrite bind_Ok. rewrite i32_small.
  2:{ destruct (pi_refs _ _ _ _ _ Hp1 orig fo) as [Er Hpos]; [set_solver|done|].
      pose proof (cnt_le orig ((id :: held) ++ dests (h_frames h1) (id :: live))) as Hc.
      rewrite length_app in Hc. pose proof (length_dests (h_frames h1) (id :: live)).
      cbn [length] in *. lia. }
  eexists. split; [done|]. split; [done|].
  rewrite insert_insert_ne by done.
  apply (pool_set_clone _ _ _ _ _ id orig (fresh_frame id fr) (clone_of orig fo (fresh_frame id fr)) Hp2);
    try done. cbn [h_frames with_frames]. by rewrite lookup_insert_ne.
Qed.

(** ** The pool under any use *)

Inductive frame_op :=
| New
| Clone (f : nat)
| Ref (f : nat)
| Unref (f : nat).

(** One reference on [f] less. *)
Fixpoint give_one (f : nat) (held : list nat) : option (list nat) :=
  match held with
  | [] => None
  | x :: held => if decide (x = f) then Some held else cons x <$> give_one f held
  end.

(** A run of operations by a program that uses only frames it holds a reference on, and
    gives a reference up with each [unref_frame]; [held] are its references. *)
Fixpoint run_frames (ops : list frame_op) (h : frame_heap) (held : list nat)
    : outcome (frame_heap * list nat) :=
  match ops with
  | [] => Ok (h, held)
  | New :: ops =>
      '(r, h) ← new_frame h; run_frames ops h (option_list r ++ held)
  | Clone f :: ops =>
      if decide (f ∈ held) then
        '(r, h) ← clone_frame h f; run_frames ops h (option_list r ++ held)
      else run_frames ops h held
  | Ref f :: ops =>
      if decide (f ∈ held) then h ← ref_frame h f; run_frames ops h (f :: held)
      else run_frames ops h held
  | Unref f :: ops =>
      match give_one f held with
      | Some held => h ← unref h f; run_frames ops h held
      | None => run_frames ops h held
      end
  end.

(** The frames in the slots of the pool. *)
Definition pool (h : frame_heap) : list nat := omap id (h_slots h).

Lemma ring_rep_elem slots take put q f :
  ring_rep slots take put q → f ∈ omap id slots ↔ f ∈ q.
Proof.
  intros (Ht & Hq & _ & H). rewrite list_elem_of_omap. split.
  - intros (o & Ho & E). cbn in E. subst o. apply list_elem_of_lookup in Ho as [j Hj].
    pose proof (lookup_lt_Some _ _ _ Hj) as Hlt. set (n := length slots) in *.
    specialize (H ((j + n - take) mod n)%nat ltac:(apply Nat.mod_upper_bound; lia)).
    rewrite Nat.Div0.add_mod_idemp_r in H. replace (take + (j + n - take))%nat with (j + 1 * n)%nat in H by lia.
    rewrite Nat.Div0.mod_add, Nat.mod_small, Hj in H by done. apply list_elem_of_lookup. eexists. by simplify_eq.
  - intros [i Hi]%list_elem_of_lookup. pose proof (lookup_lt_Some _ _ _ Hi).
    exists (Some f). split; [|done]. apply list_elem_of_lookup. eexists. rewrite (H i) by lia. by rewrite Hi.
Qed.

Lemma give_one_perm f held held' : give_one f held = Some held' → held ≡ₚ f :: held'.
Proof.
  revert held'. induction held as [|x held IH]; intros held'; cbn [give_one]; [done|].
  case_decide as E; [by intros [= <-]; subst|].
  destruct (give_one f held) as [k|]; [|done]. intros [= <-]. rewrite (IH k eq_refl). constructor.
Qed.

Lemma pool_inv_perm h held held' limbo q live :
  held ≡ₚ held' → pool_inv h held limbo q live → pool_inv h held' limbo q live.
Proof.
  intros Ep [H1 H2 H3 H4 H5 H6 H7]. split; try done.
  - intros f fr. rewrite <- Ep. apply H5.
  - intros f. rewrite <- Ep. apply H6.
Qed.

Lemma run_frames_inv ops h held q live :
  pool_inv h held [] q live → Z.of_nat (length ops + length held + length (h_slots h) + 2) < 2 ^ 31 →
  ∃ h' held' q' live', run_frames ops h held = Ok (h', held') ∧
    length (h_slots h') = length (h_slots h) ∧ pool_inv h' held' [] q' live'.
Proof.
  revert h held q live. induction ops as [|op ops IH]; intros h held q live Hp Hb.
  { eexists _, _, _, _. done. }
  cbn [length] in Hb. destruct op as [|f|f|f]; cbn [run_frames].
  - pose proof (new_frame_inv _ _ _ _ Hp) as Hn. destruct q as [|id q'].
    + rewrite Hn, bind_Ok. apply (IH _ _ _ _ Hp). cbn [option_list app]. lia.
    + destruct Hn as (fr & h1 & _ & -> & _ & Hs & Hp1). rewrite bind_Ok, <- Hs.
      apply (IH _ _ _ _ Hp1). cbn [length]. lia.
  - case_decide as Hf; [|apply (IH _ _ _ _ Hp); lia].
    pose proof (clone_frame_inv _ _ _ _ f Hp Hf ltac:(lia)) as Hn. destruct q as [|id q'].
    + rewrite Hn, bind_Ok. apply (IH _ _ _ _ Hp). cbn [option_list app]. lia.
    + destruct Hn as (h1 & -> & Hs & Hp1). rewrite bind_Ok, <- Hs.
      apply (IH _ _ _ _ Hp1). cbn [length]. lia.
  - case_decide as Hf; [|apply (IH _ _ _ _ Hp); lia].
    assert (length live <= length (h_slots h))%nat as Hl.
    { pose proof (Permutation_length (pi_ids _ _ _ _ _ Hp)) as E.
      rewrite !length_app, length_seq in E. cbn [length] in E. lia. }
    destruct (ref_frame_inv _ _ _ _ _ f Hp) as (fr & _ & -> & Hp1);
      [apply (pi_live _ _ _ _ _ Hp); set_solver|lia|].
    rewrite bind_Ok. apply (IH _ _ _ _ Hp1). cbn [length h_slots with_frames]. lia.
  - destruct (give_one f held) as [held1|] eqn:Er; [|apply (IH _ _ _ _ Hp); lia].
    apply give_one_perm in Er. pose proof (Permutation_length Er) as El. cbn [length] in El.
    apply (pool_inv_perm _ _ _ _ _ _ Er) in Hp.
    destruct (unref_inv _ _ _ _ _ Hp) as (h1 & q1 & live1 & -> & Hs & Hp1); [lia|].
    rewrite bind_Ok, <- Hs. apply (IH _ _ _ _ Hp1). lia.
Qed.

Lemma lookup_mk_frames {A} (g : nat → A) n i :
  (i < n)%nat → (list_to_map (map (λ i, (i, g i)) (seq 0 n)) : gmap nat A) !! i = Some (g i).
Proof.
  intros Hi. apply elem_of_list_to_map_1.
  - change (fmap fst) with (map (@fst nat A)). rewrite map_map. cbn [fst]. rewrite map_id. apply NoDup_seq.
  - apply list_elem_of_fmap. exists i. split; [done|]. apply elem_of_seq. lia.
Qed.

Lemma init_frame_heap_inv size count junk :
  (0 < count)%nat →
  ∃ h, init_frame_heap size count junk = Ok h ∧ length (h_slots h) = count ∧
    pool_inv h [] [] (seq 0 count) [].
Proof.
  intros Hc. destruct count as [|n]; [lia|]. unfold init_frame_heap. eexists. split; [reflexivity|].
  revert Hc. generalize (S n) as count. clear n. intros count Hc. split; [cbn; by rewrite length_map, length_seq|].
  split; cbn [h_frames h_slots h_take h_put h_locked]; rewrite ?length_map, ?length_seq; try done.
  - unfold ring_rep. rewrite length_map, !length_seq. split; [done|]. split; [done|].
    split; [by rewrite Nat.add_0_l, Nat.Div0.mod_same|].
    intros i Hi. rewrite Nat.add_0_l, Nat.mod_small by done.
    change (map Some) with (fmap (M := list) (Some (A := nat))). rewrite list_lookup_fmap.
    by rewrite lookup_seq_lt.
  - cbn [app]. by rewrite app_nil_r.
  - intros i Hi. rewrite (lookup_mk_frames (λ i, MkFrame _ _ _ _ _ _ _ _ _ _ _ _)) by done. eauto.
  - intros f fr Hf. by apply not_elem_of_nil in Hf.
Qed.

(** The frames keep what [malloc] left in their storage. *)
Lemma init_frame_heap_data size count junk h i :
  init_frame_heap size count junk = Ok h → (i < count)%nat →
  ∃ fr, h_frames h !! i = Some fr ∧ f_data fr = f_data (junk i).
Proof.
  destruct count as [|c]; [done|]. intros E Hi.
  set (g := λ i, let j := junk i in MkFrame (f_ref_count j) size (f_destructor j) (f_format j) (f_width j) (f_height j)
    (f_length j) (f_key j) (f_step j) (f_d j) (f_timestamp j) (f_data j)).
  assert (h_frames h = list_to_map (map (λ i, (i, g i)) (seq 0 (S c)))) as -> by (injection E as <-; reflexivity).
  exists (g i). split; [by apply lookup_mk_frames|done].
Qed.

Lemma no_refs_no_live h q live : pool_inv h [] [] q live → live = [].
Proof.
  intros Hp. destruct live as [|c live]; [done|exfalso].
  destruct (pool_lookup _ _ _ _ _ c Hp) as [fr E]; [set_solver|].
  destruct (pi_refs _ _ _ _ _ Hp c fr ltac:(set_solver) E) as [Er Hpos].
  assert (c ∈ dests (h_frames h) (c :: live)) as Hc by (apply cnt_pos; cbn [app] in Er; lia).
  unfold dests in Hc. apply list_elem_of_omap in Hc as (x & Hx & Ex).
  assert (∀ l, chain (h_frames h) l → x ∈ l → c ∈ tail l ∨ False) as Hch.
  { induction l as [|y l IH]; [by intros _ ?%not_elem_of_nil|]. cbn [chain tail]. intros [H1 H2].
    rewrite elem_of_cons. intros [-> | Hi]; [left; auto|]. destruct (IH H2 Hi) as [Ht|[]].
    left. destruct l; [done|]. by right. }
  destruct (Hch _ (pi_chain _ _ _ _ _ Hp) Hx) as [Ht|[]]. cbn [tail] in Ht.
  pose proof (pool_nodup _ _ _ _ _ Hp) as Hnd. apply NoDup_app in Hnd as (_ & _ & Hnd).
  cbn [app] in Hnd. by apply NoDup_cons in Hnd as [? _].
Qed.

(** C16: The frame pool -- whatever a program that respects ownership does with new
    frames, clones, references and releases, every call returns, the pool is never left
    locked, no frame a reference is held on is in the pool (so none is handed out twice),
    [new_frame] fails only when every frame is in use, and once all references are given
    up every frame is back. *)
Theorem frame_pool_safe size count junk ops :
  (0 < count)%nat → Z.of_nat (length ops + count + 2) < 2 ^ 31 →
  ∃ h0 h held, init_frame_heap size count junk = Ok h0 ∧ run_frames ops h0 [] = Ok (h, held) ∧
    h_locked h = false ∧
    (∀ f, f ∈ held → f ∉ pool h) ∧
    (new_frame h = Ok (None, h) ↔ pool h = []) ∧
    (held = [] → ∀ f, (f < count)%nat → f ∈ pool h).
Proof.
  intros Hc Hb. destruct (init_frame_heap_inv size count junk Hc) as (h0 & E0 & Hs0 & Hp0).
  destruct (run_frames_inv ops _ _ _ _ Hp0) as (h & held & q & live & E & Hs & Hp);
    [cbn [length]; lia|].
  exists h0, h, held. split; [done|]. split; [done|]. split; [apply (pi_locked _ _ _ _ _ Hp)|].
  pose proof (λ f, ring_rep_elem _ _ _ _ f (pi_ring _ _ _ _ _ Hp)) as Hel. fold (pool h) in Hel.
  split; [|split].
  - intros f Hf. rewrite Hel. intros Hq. pose proof (pool_nodup _ _ _ _ _ Hp) as Hnd.
    apply NoDup_app in Hnd as (_ & Hnd & _). apply (Hnd f Hq). cbn [app].
    apply (pi_live _ _ _ _ _ Hp). set_solver.
  - pose proof (new_frame_inv _ _ _ _ Hp) as Hn. destruct q as [|id q'].
    + split; [|done]. intros _. apply elem_of_nil_inv. intros x. rewrite Hel. apply not_elem_of_nil.
    + destruct Hn as (fr & h' & _ & -> & _). split; [done|]. intros En.
      specialize (Hel id). rewrite En in Hel. exfalso. apply (not_elem_of_nil id), Hel. by left.
  - intros -> f Hf. rewrite Hel. pose proof (no_refs_no_live _ _ _ Hp) as ->.
    pose proof (pi_ids _ _ _ _ _ Hp) as Hi. rewrite !app_nil_r in Hi. rewrite Hi, elem_of_seq.
    rewrite Hs, Hs0. lia.
Qed.

(** ** The exchanger is a bounded queue *)

(** The encoder thread delivers, the main thread reads; [exchange_frame] is not called. *)
Inductive ex_op :=
| Deliver (f : nat)
| Read.

Inductive ex_event :=
| Delivered (ok : bool)
| Got (f : option nat).

Fixpoint run_exchanger (ops : list ex_op) (x : exchanger) (h : frame_heap)
    : outcome (list ex_event * frame_heap) :=
  match ops with
  | [] => Ok ([], h)
  | Deliver f :: ops =>
      '(ok, x, h) ← deliver_frame x h f;
      '(tr, h) ← run_exchanger ops x h; Ok (Delivered ok :: tr, h)
  | Read :: ops =>
      '(f, x) ← exchanger_read x;
      '(tr, h) ← run_exchanger ops x h; Ok (Got f :: tr, h)
  end.

(** The same on a queue that holds at most [cap] frames and releases what does not fit. *)
Fixpoint run_queue (cap : nat) (ops : list ex_op) (q : list nat) (h : frame_heap)
    : outcome (list ex_event * frame_heap) :=
  match ops with
  | [] => Ok ([], h)
  | Deliver f :: ops =>
      if (length q <? cap)%nat then
        '(tr, h) ← run_queue cap ops (q ++ [f]) h; Ok (Delivered true :: tr, h)
      else
        h ← unref h f; '(tr, h) ← run_queue cap ops q h; Ok (Delivered false :: tr, h)
  | Read :: ops =>
      '(tr, h) ← run_queue cap ops (tail q) h; Ok (Got (head q) :: tr, h)
  end.

Definition ex_rep (x : exchanger) (q : list nat) : Prop :=
  ring_rep (map fst (x_slots x)) (x_master_read x) (x_slave_cur x) q ∧ x_pipe x = length q ∧
  (length q < length (x_slots x))%nat.

Lemma map_fst_insert (l : list (option nat * bool)) i a b :
  map fst (<[i := (a, b)]> l) = <[i := a]> (map fst l).
Proof. change (map fst) with (fmap (M := list) (@fst (option nat) bool)). by rewrite list_fmap_insert. Qed.

(** The test for a full exchanger. *)
Lemma ex_full slots take put q :
  ring_rep slots take put q → (length q < length slots)%nat →
  (next_slot (length slots) put =? take)%nat = negb (length q <? length slots - 1)%nat.
Proof.
  intros (Ht & Hq & -> & _) Hl. set (n := length slots) in *.
  assert ((take + length q) mod n < n)%nat by (apply Nat.mod_upper_bound; lia).
  rewrite next_slot_mod, Nat.Div0.add_mod_idemp_l by done.
  destruct (Nat.ltb_spec (length q) (n - 1)); cbn [negb].
  - apply Nat.eqb_neq. rewrite <- (Nat.mod_small take n) at 2 by done.
    rewrite <- (Nat.add_0_r take) at 2. rewrite <- Nat.add_assoc. intros E%mod_add_inj; lia.
  - apply Nat.eqb_eq. replace (take + length q + 1)%nat with (take + n)%nat by lia.
    by rewrite Nat.Div0.add_mod, Nat.Div0.mod_same, Nat.add_0_r, Nat.Div0.mod_mod, Nat.mod_small.
Qed.

Lemma deliver_frame_rep x h q f :
  ex_rep x q →
  if (length q <? length (x_slots x) - 1)%nat then
    ∃ x', deliver_frame x h f = Ok (true, x', h) ∧ ex_rep x' (q ++ [f]) ∧
      length (x_slots x') = length (x_slots x)
  else deliver_frame x h f = (h ← unref h f; Ok (false, x, h)).
Proof.
  intros (Hr & Hp & Hl). unfold deliver_frame.
  assert (length (map fst (x_slots x)) = length (x_slots x)) as Elen by apply length_map.
  pose proof (ex_full _ _ _ _ Hr) as Hf. rewrite Elen in Hf. rewrite Hf by done.
  destruct (Nat.ltb_spec (length q) (length (x_slots x) - 1)) as [Hlt|]; cbn [negb]; [|done].
  destruct (ring_rep_push _ _ _ _ f Hr) as [E Hr']; [by rewrite Elen|]. rewrite Elen in Hr'.
  apply lookup_lt_Some in E. rewrite Elen in E. rewrite wr_Ok, bind_Ok by done.
  eexists. split; [done|]. unfold ex_rep. cbn [x_slots x_master_read x_slave_cur x_pipe].
  rewrite map_fst_insert, !length_insert, length_app. cbn [length]. split_and!; try done; lia.
Qed.

Lemma exchanger_read_rep x q :
  ex_rep x q →
  ∃ x', exchanger_read x = Ok (head q, x') ∧ ex_rep x' (tail q) ∧
    length (x_slots x') = length (x_slots x).
Proof.
  intros (Hr & Hp & Hl). unfold exchanger_read. rewrite Hp. destruct q as [|f q]; cbn [length head tail].
  { exists x. by split_and!. }
  pose proof (ring_rep_take _ _ _ _ Hr) as E.
  change (map fst) with (fmap (M := list) (@fst (option nat) bool)) in E.
  rewrite list_lookup_fmap in E. apply fmap_Some in E as ([o b] & E & Eo). cbn in Eo. subst o.
  rewrite (rd_Ok _ _ _ E), bind_Ok. cbn [fst snd].
  eexists. split; [done|]. unfold ex_rep. cbn [x_slots x_master_read x_slave_cur x_pipe].
  apply ring_rep_pop in Hr. rewrite length_map in Hr. cbn [length] in Hl.
  rewrite map_fst_insert, !length_insert. split_and!; try done; lia.
Qed.

Lemma run_exchanger_queue ops x q h :
  ex_rep x q → run_exchanger ops x h = run_queue (length (x_slots x) - 1) ops q h.
Proof.
  revert x q h. induction ops as [|[f|] ops IH]; intros x q h Hx; cbn [run_exchanger run_queue]; [done| |].
  - pose proof (deliver_frame_rep x h q f Hx) as Hd. destruct (_ <? _)%nat.
    + destruct Hd as (x' & -> & Hx' & El). by rewrite bind_Ok, (IH _ _ _ Hx'), El.
    + rewrite Hd. destruct (unref h f); try done. by rewrite !bind_Ok, (IH _ _ _ Hx).
  - destruct (exchanger_read_rep x q Hx) as (x' & -> & Hx' & El). by rewrite bind_Ok, (IH _ _ _ Hx'), El.
Qed.

Lemma new_exchanger_rep m : ex_rep (MkEx (replicate (S m) (None, false)) 0 0 0 0) [].
Proof.
  unfold ex_rep. cbn [x_slots x_master_read x_slave_cur x_pipe]. change (map fst) with (fmap (M := list) (@fst (option nat) bool)).
  rewrite fmap_replicate, length_replicate. cbn [fst length]. split_and!; [|done|lia]. unfold ring_rep.
  rewrite length_replicate. cbn [length]. split; [lia|]. split; [lia|].
  split; [by rewrite Nat.Div0.mod_0_l|].
  intros i Hi. rewrite Nat.add_0_l, Nat.mod_small by done. by rewrite lookup_replicate_2.
Qed.

(** C17: An exchanger of [n] slots is a first-in first-out queue of capacity [n - 1] --
    every interleaving of [deliver_frame] by the encoder and [exchanger_read] by the main
    thread gives the results of that queue: frames are read once each, in order, a
    frame that finds the queue full is released instead of stored, and no read finds a
    slot without a frame. *)
Theorem exchanger_fifo n x ops h :
  new_exchanger n = Ok x → run_exchanger ops x h = run_queue (n - 1) ops [] h.
Proof.
  destruct n as [|m]; [done|]. intros [= <-]. rewrite (run_exchanger_queue ops _ []); [|apply (new_exchanger_rep m)].
  cbn [x_slots length]. by rewrite length_replicate.
Qed.

(** ** Witnesses *)

Definition w_junk : nat → frame := λ _, MkFrame 77 0 (Some 0%nat) 0 0 0 0 0 0 0 0 [].

Lemma frame_pool_safe_witness :
  let ops := [New; New; Clone 0; Ref 1; Unref 0; New; Unref 2; Unref 1; Unref 1] in
  ∃ h0 h held, init_frame_heap 16 3 w_junk = Ok h0 ∧ run_frames ops h0 [] = Ok (h, held) ∧
    held = [] ∧ ∀ f, (f < 3)%nat → f ∈ pool h.
Proof.
  destruct (frame_pool_safe 16 3 w_junk
    [New; New; Clone 0; Ref 1; Unref 0; New; Unref 2; Unref 1; Unref 1])
    as (h0 & h & held & E0 & E & _ & _ & _ & Hall).
  - lia.
  - by vm_compute.
  - assert (held = []) as Hh.
    { vm_compute in E0. injection E0 as <-. vm_compute in E. injection E as _ <-. reflexivity. }
    exists h0, h, held. split_and!; [done|done|done|]. by apply Hall.
Defined.

Lemma exchanger_fifo_witness :
  ∃ x h, new_exchanger 3 = Ok x ∧
    run_exchanger [Deliver 5; Read; Deliver 6; Deliver 7; Read; Read; Read] x h =
    Ok ([Delivered true; Got (Some 5%nat); Delivered true; Delivered true; Got (Some 6%nat);
         Got (Some 7%nat); Got None], h).
Proof.
  exists (MkEx (replicate 3 (None, false)) 0 0 0 0), (MkHeap ∅ [] 0 0 false). split; [done|].
  rewrite (exchanger_fifo 3); [|done]. by vm_compute.
Defined.
