(* ===== verification/Conversions.v ===== *)
(** * Pixel format conversions ([conversions.c])

    Each routine reads its source in groups of a fixed number of bytes and writes a group
    of another fixed size for each.  [groups] is that loop, with every access checked
    against the two buffers; a routine is its loop bound and the bytes one group gives. *)

From S2P Require Import Prelude.

Local Open Scope Z_scope.
Local Open Scope c_scope.

(** ** The loop *)

(** [limit] bounds the read index [i]; [n] bytes are read and [m] written per turn.  A
    negative bound makes no turn.  The fuel is the bound: [i] grows in every turn. *)
Fixpoint groups (fuel : nat) (limit : Z) (n m : nat) (g : list Z → list Z) (i j : nat)
    (src dest : list Z) : outcome (list Z) :=
  if negb (Z.of_nat i <? limit) then Ok dest else
  match fuel with
  | O => Diverge
  | S fuel =>
      if negb (i + n <=? length src)%nat || negb (j + m <=? length dest)%nat then Undef
      else groups fuel limit n m g (i + n) (j + m) src (splice j (g (take n (drop i src))) dest)
  end.

Definition convert (limit : Z) (n m : nat) (g : list Z → list Z) (src dest : list Z)
    : outcome (list Z) := groups (S (Z.to_nat limit)) limit n m g 0 0 src dest.

(** ** Pixels *)

Definition clamp (x : Z) : Z := let x := if x <? 0 then 0 else x in if 255 <? x then 255 else x.

Definition YUV2RGB (y u v : Z) : list Z :=
  let r := y + (((v <<< 10) + (v <<< 8) + (v <<< 7) + (v <<< 4) + (v <<< 3) + (v <<< 1)) >>> 11) in
  let g := y - (((u <<< 8) + (u <<< 7) + (u <<< 4) + (u <<< 2) + (u <<< 1)) >>> 11) -
               (((v <<< 9) + (v <<< 6) + (v <<< 4) + (v <<< 1) + v) >>> 11) in
  let b := y + (((u <<< 11) + (u <<< 5) - (u <<< 1)) >>> 11) in
  [clamp r; clamp g; clamp b].

Definition RGB2YUV (r g b : Z) : Z * Z * Z :=
  (clamp ((9798 * r + 19235 * g + 3736 * b) >>> 15),
   clamp (((-4784 * r - 9437 * g + 14221 * b) >>> 15) + 128),
   clamp (((20218 * r - 16941 * g - 3277 * b) >>> 15) + 128)).

(** ** The routines *)

(** [swab] on an even number of bytes. *)
Fixpoint swab (src : list Z) : list Z :=
  match src with a :: b :: src => b :: a :: swab src | _ => [] end.

(** [swab] with a negative count does nothing. *)
Definition uyvy2yuy2 (src dest : list Z) (NumPixels : Z) : outcome (list Z) :=
  convert (NumPixels <<< 1) 2 2 swab src dest.

Definition yuv2yuy2 (src dest : list Z) (NumPixels : Z) : outcome (list Z) :=
  convert (NumPixels <<< 1) 2 2 swab src dest.

Definition y41p2yuyv (src dest : list Z) (NumPixels : Z) : outcome (list Z) :=
  convert (NumPixels <<< 1) 12 16
    (λ s, match s with
          | [u0; y0; v0; y1; u4; y2; v4; y3; y4; y5; y6; y7] =>
              [y0; u0; y1; v0; y2; u0; y3; v0; y4; u4; y5; v4; y6; u4; y7; v4]
          | _ => []
          end) src dest.

Definition iyu12yuy2 (src dest : list Z) (NumPixels : Z) : outcome (list Z) :=
  convert (NumPixels + (NumPixels >>> 1)) 6 8
    (λ s, match s with
          | [u; y0; y1; v; y2; y3] => [y0; u; y1; v; y2; u; y3; v]
          | _ => []
          end) src dest.

Definition iyu22yuy2 (src dest : list Z) (NumPixels : Z) : outcome (list Z) :=
  convert (NumPixels + (NumPixels <<< 1)) 6 4
    (λ s, match s with
          | [u0; y0; v0; u1; y1; v1] => [y0; Z.quot (u0 + u1) 2; y1; Z.quot (v0 + v1) 2]
          | _ => []
          end) src dest.

Definition y2yuy2 (src dest : list Z) (NumPixels : Z) : outcome (list Z) :=
  convert NumPixels 2 4
    (λ s, match s with [y0; y1] => [y0; 128; y1; 128] | _ => [] end) src dest.

Definition rgb2yuy2 (RGB YUV : list Z) (NumPixels : Z) : outcome (list Z) :=
  convert (NumPixels + (NumPixels <<< 1)) 6 4
    (λ s, match s with
          | [r0; g0; b0; r1; g1; b1] =>
              let '(y0, u0, v0) := RGB2YUV r0 g0 b0 in
              let '(y1, u1, v1) := RGB2YUV r1 g1 b1 in
              [y0; (u0 + u1) >>> 1; y1; (v0 + v1) >>> 1]
          | _ => []
          end) RGB YUV.

Definition uyvy2rgb (YUV RGB : list Z) (NumPixels : Z) : outcome (list Z) :=
  convert (NumPixels <<< 1) 4 6
    (λ s, match s with
          | [u; y0; v; y1] => YUV2RGB y0 (u - 128) (v - 128) ++ YUV2RGB y1 (u - 128) (v - 128)
          | _ => []
          end) YUV RGB.

Definition yuy22rgb (YUV RGB : list Z) (NumPixels : Z) : outcome (list Z) :=
  convert (NumPixels <<< 1) 4 6
    (λ s, match s with
          | [y0; u; y1; v] => YUV2RGB y0 (u - 128) (v - 128) ++ YUV2RGB y1 (u - 128) (v - 128)
          | _ => []
          end) YUV RGB.

Definition iyu12rgb (YUV RGB : list Z) (NumPixels : Z) : outcome (list Z) :=
  convert (NumPixels + (NumPixels >>> 1)) 6 12
    (λ s, match s with
          | [u; y0; y1; v; y2; y3] =>
              YUV2RGB y0 (u - 128) (v - 128) ++ YUV2RGB y1 (u - 128) (v - 128) ++
              YUV2RGB y2 (u - 128) (v - 128) ++ YUV2RGB y3 (u - 128) (v - 128)
          | _ => []
          end) YUV RGB.

Definition iyu22rgb (YUV RGB : list Z) (NumPixels : Z) : outcome (list Z) :=
  convert (NumPixels + (NumPixels <<< 1)) 6 6
    (λ s, match s with
          | [u0; y0; v0; u1; y1; v1] =>
              YUV2RGB y0 (u0 - 128) (v0 - 128) ++ YUV2RGB y1 (u1 - 128) (v1 - 128)
          | _ => []
          end) YUV RGB.

Definition y2rgb (YUV RGB : list Z) (NumPixels : Z) : outcome (list Z) :=
  convert NumPixels 1 3 (λ s, match s with [y] => YUV2RGB y 0 0 | _ => [] end) YUV RGB.

(** ** What the loop computes *)

Fixpoint chunks (k n : nat) (l : list Z) : list (list Z) :=
  match k with O => [] | S k => take n l :: chunks k n (drop n l) end.

Lemma groups_spec k fuel limit n m g i j src dest :
  (0 < n)%nat → (∀ s, length s = n → length (g s) = m) →
  limit = Z.of_nat (i + k * n) → (i + k * n <= length src)%nat → (j + k * m <= length dest)%nat →
  (k < fuel)%nat →
  groups fuel limit n m g i j src dest =
  Ok (take j dest ++ concat (map g (chunks k n (drop i src))) ++ drop (j + k * m) dest).
Proof.
  intros Hn Hg Hlim Hsrc Hdest Hf. revert fuel i j dest Hlim Hsrc Hdest Hf.
  induction k as [|k IH]; intros fuel i j dest Hlim Hsrc Hdest Hf; (destruct fuel as [|fuel]; [lia|]); cbn [groups].
  - destruct (Z.ltb_spec (Z.of_nat i) limit); [lia|]. cbn [negb chunks map concat app].
    by rewrite Nat.mul_0_l, Nat.add_0_r, take_drop.
  - destruct (Z.ltb_spec (Z.of_nat i) limit); [|lia].
    destruct (Nat.leb_spec (i + n) (length src)); [|lia].
    destruct (Nat.leb_spec (j + m) (length dest)); [|lia]. cbn [negb orb].
    assert (length (g (take n (drop i src))) = m) as Hlen.
    { apply Hg. rewrite length_take, length_drop. lia. }
    rewrite IH; [|lia|lia|rewrite splice_length; lia|lia].
    set (d := g (take n (drop i src))) in *.
    assert (take (j + m) (splice j d dest) = take j dest ++ d) as -> by (rewrite <- Hlen; apply splice_take_all; lia).
    rewrite splice_drop by lia. cbn [chunks map concat]. rewrite drop_drop. fold d.
    rewrite <- !app_assoc. f_equal. f_equal. f_equal. f_equal. f_equal. cbn [Nat.mul]. lia.
Qed.

Lemma convert_spec k limit n m g src dest :
  (0 < n)%nat → (∀ s, length s = n → length (g s) = m) → limit = Z.of_nat (k * n) →
  (k * n <= length src)%nat → (k * m <= length dest)%nat →
  convert limit n m g src dest = Ok (concat (map g (chunks k n src)) ++ drop (k * m) dest).
Proof.
  intros Hn Hg -> Hs Hd. unfold convert.
  rewrite (groups_spec k); [done|done|done|lia|lia|lia|]. rewrite Nat2Z.id.
  destruct n; [lia|]. nia.
Qed.

(** ** The reference pixel *)

(** The formula the macro is written from, in scaled integers. *)
Definition reference_rgb (y u v : Z) : list Z :=
  map (λ x, Z.min 255 (Z.max 0 x))
    [y + v * 1434 / 2048; y - u * 406 / 2048 - v * 595 / 2048; y + u * 2078 / 2048].

Lemma clamp_min_max x : clamp x = Z.min 255 (Z.max 0 x).
Proof. unfold clamp. destruct (Z.ltb_spec x 0); [simpl; lia|]. destruct (Z.ltb_spec 255 x); lia. Qed.

Lemma YUV2RGB_reference y u v : YUV2RGB y u v = reference_rgb y u v.
Proof.
  unfold YUV2RGB, reference_rgb. cbn [map]. rewrite !clamp_min_max.
  rewrite !shiftl_mul, !shiftr_div by lia. change (2 ^ 11) with 2048.
  f_equal; [|f_equal]; repeat f_equal; lia.
Qed.

(** The two pixels of a UYVY group. *)
Definition uyvy_pixels (s : list Z) : list Z :=
  match s with
  | [u; y0; v; y1] => reference_rgb y0 (u - 128) (v - 128) ++ reference_rgb y1 (u - 128) (v - 128)
  | _ => []
  end.

(** The conversion of UYVY frames -- for an even number of pixels and buffers of four
    bytes in and six bytes out per pair of pixels, [uyvy2rgb] stays inside both buffers,
    writes exactly those bytes, and each pixel is the scaled colour formula with its
    results clamped to a byte: the shifts of the macro are the products 1434, 406, 595
    and 2078. *)
Theorem uyvy2rgb_correct k YUV RGB :
  (4 * k <= length YUV)%nat → (6 * k <= length RGB)%nat →
  uyvy2rgb YUV RGB (2 * Z.of_nat k) =
  Ok (concat (map uyvy_pixels (chunks k 4 YUV)) ++ drop (6 * k) RGB).
Proof.
  intros Hs Hd. unfold uyvy2rgb. rewrite (convert_spec k).
  - rewrite (Nat.mul_comm k 6). do 3 f_equal. apply map_ext. intros s. unfold uyvy_pixels.
    do 4 (destruct s as [|? s]; [done|]). destruct s; [by rewrite !YUV2RGB_reference|done].
  - lia.
  - intros s Hl. do 4 (destruct s as [|? s]; [done|]). by destruct s.
  - rewrite shiftl_mul by lia. lia.
  - lia.
  - lia.
Qed.

Lemma uyvy2rgb_correct_witness :
  uyvy2rgb [128; 16; 128; 235; 255; 100; 0; 50] (replicate 13 7) 4 =
  Ok ([16; 16; 16; 235; 235; 235] ++ [10; 113; 228; 0; 63; 178] ++ [7]).
Proof.
  change 4 with (2 * Z.of_nat 2) at 1. rewrite (uyvy2rgb_correct 2 [128; 16; 128; 235; 255; 100; 0; 50] (replicate 13 7)).
  - vm_compute. reflexivity.
  - simpl. lia.
  - simpl. lia.
Defined.
