(* ===== verification/Pixels.v ===== *)
(** * Memory that is drawn on

    Pictures are arrays of bytes addressed by offsets.  The drawing routines are nested
    loops that read one picture and write another; what such a loop does to a picture is
    described by a partial function from offsets to bytes, [drawn], and the functions of
    nested loops are put together by [covers]. *)

From S2P Require Import Prelude.

Local Open Scope Z_scope.

(** ** Access *)

(** The byte at an offset. *)
Definition px (m : list Z) (i : Z) : option Z := if 0 <=? i then m !! Z.to_nat i else None.

Definition rdz (m : list Z) (i : Z) : outcome Z := match px m i with Some v => Ok v | None => Undef end.

Definition wrz (m : list Z) (i v : Z) : outcome (list Z) := if 0 <=? i then wr m (Z.to_nat i) v else Undef.

(** Several bytes, one after the other. *)
Fixpoint put (m : list Z) (ws : list (Z * Z)) : outcome (list Z) :=
  match ws with
  | [] => Ok m
  | (i, v) :: ws => m ← wrz m i v; put m ws
  end.

Definition put_if (c : bool) (m : list Z) (ws : list (Z * Z)) : outcome (list Z) := if c then put m ws else Ok m.

(** [memcpy] between two objects. *)
Definition memcpy (dst : list Z) (d : Z) (src : list Z) (s n : Z) : outcome (list Z) :=
  if (0 <=? s) && (0 <=? d) && (s + n <=? Z.of_nat (length src)) && (d + n <=? Z.of_nat (length dst)) && (0 <=? n)
  then Ok (splice (Z.to_nat d) (take (Z.to_nat n) (drop (Z.to_nat s) src)) dst) else Undef.

(** [for (k = 0; k < n; k++)]. *)
Fixpoint for_from (n : nat) (k : Z) (body : Z → list Z → outcome (list Z)) (m : list Z) : outcome (list Z) :=
  match n with
  | O => Ok m
  | S n => m ← body k m; for_from n (k + 1) body m
  end.

Definition for_n (n : Z) (body : Z → list Z → outcome (list Z)) (m : list Z) : outcome (list Z) := for_from (Z.to_nat n) 0 body m.

(** The turns of [for (x = 0; x < n; x += 2)]. *)
Definition halves (n : Z) : Z := (n + 1) / 2.

(** ** What is drawn *)

Definition pen := Z → option Z.

(** [m'] is [m] with the bytes of the pen. *)
Definition drawn (m m' : list Z) (w : pen) : Prop :=
  length m' = length m ∧ ∀ i, px m' i = match w i with Some v => Some v | None => px m i end.

Definition over (w2 w1 : pen) : pen := λ i, match w2 i with Some v => Some v | None => w1 i end.

Definition dots (ws : list (Z * Z)) : pen := foldl (λ w '(i, v), over (λ j, if j =? i then Some v else None) w) (λ _, None) ws.

Fixpoint covers_from (n : nat) (k : Z) (w : Z → pen) : pen :=
  match n with
  | O => λ _, None
  | S n => over (covers_from n (k + 1) w) (w k)
  end.

Definition covers (n : Z) (w : Z → pen) : pen := covers_from (Z.to_nat n) 0 w.

Lemma bind_assoc {A B C} (o : outcome A) (f : A → outcome B) (g : B → outcome C) : ((o ≫= f) ≫= g) = (o ≫= λ a, f a ≫= g).
Proof. by destruct o. Qed.

Lemma px_lookup m i : 0 <= i → px m i = m !! Z.to_nat i.
Proof. intros H. unfold px. by rewrite (proj2 (Z.leb_le 0 i) H). Qed.

Lemma px_lt m i v : px m i = Some v → 0 <= i < Z.of_nat (length m).
Proof. unfold px. destruct (Z.leb_spec 0 i); [|done]. intros ?%lookup_lt_Some. lia. Qed.

Lemma px_is_Some m i : 0 <= i < Z.of_nat (length m) → ∃ v, px m i = Some v.
Proof. intros H. rewrite px_lookup by lia. apply lookup_lt_is_Some_2. lia. Qed.

Lemma rdz_Ok m i v : px m i = Some v → rdz m i = Ok v.
Proof. intros E. unfold rdz. by rewrite E. Qed.

(** Two pictures with the same bytes are the same. *)
Lemma px_ext m m' : length m = length m' → (∀ i, 0 <= i < Z.of_nat (length m) → px m i = px m' i) → m = m'.
Proof.
  intros Hl H. apply list_eq_same_length with (n := length m); [done|done|]. intros i x y Hi Ex Ey.
  specialize (H (Z.of_nat i) ltac:(lia)). rewrite !px_lookup, Nat2Z.id, Ex, Ey in H by lia. by injection H.
Qed.

Lemma drawn_refl m : drawn m m (λ _, None).
Proof. done. Qed.

Lemma drawn_over m m1 m2 w1 w2 : drawn m m1 w1 → drawn m1 m2 w2 → drawn m m2 (over w2 w1).
Proof.
  intros [L1 H1] [L2 H2]. split; [lia|]. intros i. rewrite H2. unfold over. destruct (w2 i); [done|]. apply H1.
Qed.

Lemma wrz_Ok m i v : 0 <= i < Z.of_nat (length m) → wrz m i v = Ok (<[Z.to_nat i := v]> m).
Proof. intros Hi. unfold wrz. by rewrite (proj2 (Z.leb_le 0 i)), wr_Ok by lia. Qed.

Lemma wrz_drawn m i v :
  0 <= i < Z.of_nat (length m) → returns (wrz m i v) (λ m', drawn m m' (λ j, if j =? i then Some v else None)).
Proof.
  intros Hi. unfold wrz. rewrite (proj2 (Z.leb_le 0 i)), wr_Ok by lia. apply returns_Ok. split; [by rewrite length_insert|].
  intros j. destruct (Z.eqb_spec j i) as [->|Hne]; [rewrite px_lookup by lia; apply list_lookup_insert_eq; lia|].
  unfold px. destruct (Z.leb_spec 0 j); [|done]. apply list_lookup_insert_ne. lia.
Qed.

Definition fits (m : list Z) (ws : list (Z * Z)) : Prop := Forall (λ p, 0 <= p.1 < Z.of_nat (length m)) ws.

Lemma put_drawn_on m0 m ws w : drawn m0 m w → fits m0 ws →
  returns (put m ws) (λ m', drawn m0 m' (foldl (λ w '(i, v), over (λ j, if j =? i then Some v else None) w) w ws)).
Proof.
  intros Hd Hf. revert m w Hd. induction Hf as [|[i v] ws Hi Hf IH]; intros m w Hd; [apply returns_Ok; exact Hd|].
  cbn [put foldl]. eapply returns_bind; [apply wrz_drawn; destruct Hd as [-> _]; exact Hi|]. intros m' H. apply IH. exact (drawn_over _ _ _ _ _ Hd H).
Qed.

Lemma put_drawn m ws : fits m ws → returns (put m ws) (λ m', drawn m m' (dots ws)).
Proof. intros Hf. apply (put_drawn_on m m ws (λ _, None)); [apply drawn_refl|done]. Qed.

(** A pen that is only used under a condition. *)
Definition only (c : bool) (w : pen) : pen := λ i, if c then w i else None.

Lemma put_if_drawn c m ws : (c = true → fits m ws) → returns (put_if c m ws) (λ m', drawn m m' (only c (dots ws))).
Proof. intros Hf. destruct c; [by apply put_drawn, Hf|apply returns_Ok, drawn_refl]. Qed.

(** One after the other. *)
Lemma drawn_bind m (o : outcome (list Z)) (f : list Z → outcome (list Z)) w1 w2 :
  returns o (λ m1, drawn m m1 w1) → (∀ m1, length m1 = length m → returns (f m1) (λ m2, drawn m1 m2 w2)) →
  returns (o ≫= f) (λ m2, drawn m m2 (over w2 w1)).
Proof.
  intros Ho Hf. eapply returns_bind; [exact Ho|]. intros m1 H1. eapply returns_mono; [apply Hf, H1|]. intros m2 H2. exact (drawn_over _ _ _ _ _ H1 H2).
Qed.

Lemma lookup_splice_in {A} off (d buf : list A) i :
  (off + length d <= length buf)%nat → (off <= i < off + length d)%nat → splice off d buf !! i = d !! (i - off)%nat.
Proof.
  intros Hl Hi. unfold splice. rewrite lookup_app_r by (rewrite length_take; lia).
  rewrite length_take, Nat.min_l, lookup_app_l by lia. done.
Qed.

Lemma lookup_splice_out {A} off (d buf : list A) i :
  (off + length d <= length buf)%nat → (i < off ∨ off + length d <= i)%nat → splice off d buf !! i = buf !! i.
Proof.
  intros Hl Hi. unfold splice. destruct (Nat.lt_ge_cases i off) as [Hlt|Hge].
  - rewrite lookup_app_l by (rewrite length_take; lia). by apply lookup_take_lt.
  - rewrite lookup_app_r by (rewrite length_take; lia). rewrite lookup_app_r by (rewrite length_take; lia).
    rewrite lookup_drop, length_take. f_equal. lia.
Qed.

(** The pen of [memcpy]. *)
Definition copied (d : Z) (src : list Z) (s n : Z) : pen := λ i, if (d <=? i) && (i <? d + n) then px src (s + (i - d)) else None.

Lemma memcpy_Ok dst d src s n :
  0 <= n → 0 <= s → s + n <= Z.of_nat (length src) → 0 <= d → d + n <= Z.of_nat (length dst) →
  memcpy dst d src s n = Ok (splice (Z.to_nat d) (take (Z.to_nat n) (drop (Z.to_nat s) src)) dst).
Proof.
  intros Hn Hs Hsn Hd Hdn. unfold memcpy. rewrite !(proj2 (Z.leb_le _ _)) by lia. done.
Qed.

Lemma memcpy_drawn dst d src s n :
  0 <= n → 0 <= s → s + n <= Z.of_nat (length src) → 0 <= d → d + n <= Z.of_nat (length dst) →
  returns (memcpy dst d src s n) (λ m, drawn dst m (copied d src s n)).
Proof.
  intros Hn Hs Hsn Hd Hdn. rewrite memcpy_Ok by done. apply returns_Ok.
  set (t := take _ _). assert (length t = Z.to_nat n) as Hl by (unfold t; rewrite length_take, length_drop; lia).
  split; [apply splice_length; lia|]. intros i. unfold copied.
  destruct (Z.leb_spec d i), (Z.ltb_spec i (d + n)); cbn [andb].
  - assert (px (splice (Z.to_nat d) t dst) i = px src (s + (i - d))) as ->; [|by destruct (px_is_Some src (s + (i - d)) ltac:(lia)) as [v ->]].
    rewrite !px_lookup, lookup_splice_in by lia. unfold t. rewrite lookup_take_lt, lookup_drop by lia. f_equal. lia.
  - unfold px. destruct (Z.leb_spec 0 i); [|done]. apply lookup_splice_out; lia.
  - unfold px. destruct (Z.leb_spec 0 i); [|done]. apply lookup_splice_out; lia.
  - unfold px. destruct (Z.leb_spec 0 i); [|done]. apply lookup_splice_out; lia.
Qed.

Lemma for_from_drawn n k body w m :
  (∀ j m1, k <= j < k + Z.of_nat n → length m1 = length m → returns (body j m1) (λ m2, drawn m1 m2 (w j))) →
  returns (for_from n k body m) (λ m2, drawn m m2 (covers_from n k w)).
Proof.
  revert k m. induction n as [|n IH]; intros k m H; cbn [for_from covers_from]; [apply returns_Ok, drawn_refl|].
  apply drawn_bind; [apply H; [lia|done]|]. intros m1 H1. apply IH. intros j m2 Hj H2. apply H; [lia|congruence].
Qed.

Lemma for_n_drawn n body w m :
  (∀ j m1, 0 <= j < n → length m1 = length m → returns (body j m1) (λ m2, drawn m1 m2 (w j))) →
  returns (for_n n body m) (λ m2, drawn m m2 (covers n w)).
Proof. intros H. apply for_from_drawn. intros j m1 Hj. apply H. lia. Qed.

(** ** Where a loop draws *)

Lemma covers_from_none n k w i : (∀ j, k <= j < k + Z.of_nat n → w j i = None) → covers_from n k w i = None.
Proof.
  revert k. induction n as [|n IH]; intros k H; [done|]. cbn [covers_from]. unfold over. rewrite IH by (intros; apply H; lia). apply H. lia.
Qed.

Lemma covers_from_one n k w i j :
  k <= j < k + Z.of_nat n → (∀ j', k <= j' < k + Z.of_nat n → j' ≠ j → w j' i = None) → covers_from n k w i = w j i.
Proof.
  revert k. induction n as [|n IH]; intros k Hj H; [lia|]. cbn [covers_from]. unfold over. destruct (decide (j = k)) as [->|Hne].
  - by rewrite covers_from_none by (intros; apply H; lia).
  - rewrite IH by (first [lia|intros; apply H; lia]). rewrite (H k) by lia. by destruct (w j i).
Qed.

(** A byte that no turn touches. *)
Lemma covers_none n w i : (∀ j, 0 <= j < n → w j i = None) → covers n w i = None.
Proof. intros H. apply covers_from_none. intros j Hj. apply H. lia. Qed.

(** A byte that one turn may touch. *)
Lemma covers_one n w i j : 0 <= j < n → (∀ j', 0 <= j' < n → j' ≠ j → w j' i = None) → covers n w i = w j i.
Proof. intros Hj H. apply covers_from_one; [lia|]. intros j' Hj'. apply H. lia. Qed.

(** Rows of a picture do not meet. *)
Lemma rows_apart s r k r' k' : 0 <= k < s → 0 <= k' < s → r * s + k = r' * s + k' → r = r' ∧ k = k'.
Proof. intros H1 H2 E. assert (r = r') as -> by nia. lia. Qed.

Lemma drawn_pen_eq m m' w w' : (∀ i, w i = w' i) → drawn m m' w → drawn m m' w'.
Proof. intros E [Hl H]. split; [done|]. intros i. rewrite H. by rewrite E. Qed.

(** Two nested loops. *)
Definition grid (h n : Z) (w : Z → Z → pen) : pen := covers h (λ r, covers n (w r)).

Lemma grid_none h n w i : (∀ r c, 0 <= r < h → 0 <= c < n → w r c i = None) → grid h n w i = None.
Proof. intros H. apply covers_none. intros r Hr. apply covers_none. intros c Hc. by apply H. Qed.

Lemma grid_one h n w i r c :
  0 <= r < h → 0 <= c < n →
  (∀ r' c', 0 <= r' < h → 0 <= c' < n → w r' c' i ≠ None → r' = r ∧ c' = c) → grid h n w i = w r c i.
Proof.
  intros Hr Hc H. unfold grid. rewrite (covers_one h _ i r).
  - apply covers_one; [done|]. intros c' Hc' Hne. destruct (w r c' i) eqn:E; [|done]. destruct (H r c') as [_ ?]; try done. by rewrite E.
  - done.
  - intros r' Hr' Hne. apply covers_none. intros c' Hc'. destruct (w r' c' i) eqn:E; [|done]. destruct (H r' c') as [? _]; try done. by rewrite E.
Qed.

Lemma grid_drawn h n body w m :
  (∀ r c m1, 0 <= r < h → 0 <= c < n → length m1 = length m → returns (body r c m1) (λ m2, drawn m1 m2 (w r c))) →
  returns (for_n h (λ r, for_n n (body r)) m) (λ m2, drawn m m2 (grid h n w)).
Proof.
  intros H. apply for_n_drawn. intros r m1 Hr H1. apply for_n_drawn. intros c m2 Hc H2. apply H; [done|done|congruence].
Qed.

(** A byte of a cell, drawn if [d]. *)
Definition dot (d : bool) (v : Z) : option Z := if d then Some v else None.

(** Four pixels that share two colour bytes, and two pixels that do. *)
Definition cell4 (d : Z → bool) (o00 o01 o10 o11 ou ov y00 y01 y10 y11 u v : Z) : pen := λ i,
  if i =? o00 then dot (d y00) y00 else if i =? o01 then dot (d y01) y01 else
  if i =? o10 then dot (d y10) y10 else if i =? o11 then dot (d y11) y11 else
  if i =? ou then dot (d y00 || d y01 || d y10 || d y11) u else
  if i =? ov then dot (d y00 || d y01 || d y10 || d y11) v else None.

Definition cell2 (d : Z → bool) (o0 o1 ou ov y0 y1 u v : Z) : pen := λ i,
  if i =? o0 then dot (d y0) y0 else if i =? o1 then dot (d y1) y1 else
  if i =? ou then dot (d y0 || d y1) u else if i =? ov then dot (d y0 || d y1) v else None.

Lemma cell4_some d o00 o01 o10 o11 ou ov y00 y01 y10 y11 u v i :
  cell4 d o00 o01 o10 o11 ou ov y00 y01 y10 y11 u v i ≠ None → i = o00 ∨ i = o01 ∨ i = o10 ∨ i = o11 ∨ i = ou ∨ i = ov.
Proof.
  unfold cell4. destruct (Z.eqb_spec i o00), (Z.eqb_spec i o01), (Z.eqb_spec i o10), (Z.eqb_spec i o11), (Z.eqb_spec i ou), (Z.eqb_spec i ov); tauto.
Qed.

Lemma cell2_some d o0 o1 ou ov y0 y1 u v i :
  cell2 d o0 o1 ou ov y0 y1 u v i ≠ None → i = o0 ∨ i = o1 ∨ i = ou ∨ i = ov.
Proof. unfold cell2. destruct (Z.eqb_spec i o0), (Z.eqb_spec i o1), (Z.eqb_spec i ou), (Z.eqb_spec i ov); tauto. Qed.

(** What is at each place of a cell whose places are different. *)
Lemma cell4_at d o00 o01 o10 o11 ou ov y00 y01 y10 y11 u v :
  NoDup [o00; o01; o10; o11; ou; ov] →
  let cell := cell4 d o00 o01 o10 o11 ou ov y00 y01 y10 y11 u v in
  let any := d y00 || d y01 || d y10 || d y11 in
  cell o00 = dot (d y00) y00 ∧ cell o01 = dot (d y01) y01 ∧ cell o10 = dot (d y10) y10 ∧ cell o11 = dot (d y11) y11 ∧
  cell ou = dot any u ∧ cell ov = dot any v.
Proof.
  rewrite !NoDup_cons, !not_elem_of_cons. intros Hn. destruct_and!. cbv zeta. unfold cell4.
  split_and!; rewrite ?Z.eqb_refl; repeat (rewrite (proj2 (Z.eqb_neq _ _)) by congruence); done.
Qed.

Lemma cell2_at d o0 o1 ou ov y0 y1 u v :
  NoDup [o0; o1; ou; ov] →
  let cell := cell2 d o0 o1 ou ov y0 y1 u v in
  cell o0 = dot (d y0) y0 ∧ cell o1 = dot (d y1) y1 ∧ cell ou = dot (d y0 || d y1) u ∧ cell ov = dot (d y0 || d y1) v.
Proof.
  rewrite !NoDup_cons, !not_elem_of_cons. intros Hn. destruct_and!. cbv zeta. unfold cell2.
  split_and!; rewrite ?Z.eqb_refl; repeat (rewrite (proj2 (Z.eqb_neq _ _)) by congruence); done.
Qed.

(** The four conditional writes of a cell, in the order of the sources. *)
Lemma cell4_drawn d m o00 o01 o10 o11 ou ov y00 y01 y10 y11 u v :
  NoDup [o00; o01; o10; o11; ou; ov] → Forall (λ o, 0 <= o < Z.of_nat (length m)) [o00; o01; o10; o11; ou; ov] →
  returns (m ← put_if (d y00) m [(o00, y00); (ou, u); (ov, v)];
           m ← put_if (d y01) m [(o01, y01); (ou, u); (ov, v)];
           m ← put_if (d y10) m [(o10, y10); (ou, u); (ov, v)];
           put_if (d y11) m [(o11, y11); (ou, u); (ov, v)])
    (λ m', drawn m m' (cell4 d o00 o01 o10 o11 ou ov y00 y01 y10 y11 u v)).
Proof.
  intros Hn Hf. rewrite !Forall_cons in Hf. destruct Hf as (F1 & F2 & F3 & F4 & F5 & F6 & _).
  assert (∀ o y m1, length m1 = length m → 0 <= o < Z.of_nat (length m) →
    returns (put_if (d y) m1 [(o, y); (ou, u); (ov, v)]) (λ m2, drawn m1 m2 (only (d y) (dots [(o, y); (ou, u); (ov, v)])))) as Hput.
  { intros o y m1 Hl Ho. apply put_if_drawn. intros _. unfold fits. rewrite !Forall_cons, Forall_nil. cbn [fst]. rewrite Hl. split_and!; (lia || done). }
  eapply returns_mono.
  { apply drawn_bind; [by apply Hput|]. intros m1 H1. apply drawn_bind; [apply Hput; lia|]. intros m2 H2.
    apply drawn_bind; [apply Hput; lia|]. intros m3 H3. apply Hput; lia. }
  intros m'. apply drawn_pen_eq. intros i. unfold cell4, dot, only, dots. cbn [foldl]. unfold over.
  rewrite !NoDup_cons, !not_elem_of_cons in Hn. destruct_and!.
  destruct (Z.eqb_spec i o00), (Z.eqb_spec i o01), (Z.eqb_spec i o10), (Z.eqb_spec i o11), (Z.eqb_spec i ou), (Z.eqb_spec i ov); try congruence.
  all: destruct (d y00), (d y01), (d y10), (d y11); reflexivity.
Qed.

(** The two conditional writes of a cell. *)
Lemma cell2_drawn d m o0 o1 ou ov y0 y1 u v (ws0 ws1 : list (Z * Z)) :
  NoDup [o0; o1; ou; ov] → Forall (λ o, 0 <= o < Z.of_nat (length m)) [o0; o1; ou; ov] →
  Permutation ws0 [(o0, y0); (ou, u); (ov, v)] → Permutation ws1 [(o1, y1); (ou, u); (ov, v)] →
  (∀ i, dots ws0 i = dots [(o0, y0); (ou, u); (ov, v)] i) → (∀ i, dots ws1 i = dots [(o1, y1); (ou, u); (ov, v)] i) →
  returns (m ← put_if (d y0) m ws0; put_if (d y1) m ws1) (λ m', drawn m m' (cell2 d o0 o1 ou ov y0 y1 u v)).
Proof.
  intros Hn Hf P0 P1 E0 E1. rewrite !Forall_cons in Hf. destruct Hf as (F1 & F2 & F3 & F4 & _).
  eapply returns_mono.
  { apply drawn_bind; [apply put_if_drawn; intros _; unfold fits; rewrite P0, !Forall_cons, Forall_nil; cbn [fst]; split_and!; (lia || done)|].
    intros m1 H1. apply put_if_drawn. intros _. unfold fits. rewrite P1, !Forall_cons, Forall_nil, H1. cbn [fst]. split_and!; (lia || done). }
  intros m'. apply drawn_pen_eq. intros i. unfold cell2, dot. cbv beta delta [only over]. rewrite E0, E1. unfold dots. cbn [foldl]. unfold over.
  rewrite !NoDup_cons, !not_elem_of_cons in Hn. destruct_and!.
  destruct (Z.eqb_spec i o0), (Z.eqb_spec i o1), (Z.eqb_spec i ou), (Z.eqb_spec i ov); try congruence.
  all: destruct (d y0), (d y1); reflexivity.
Qed.

(** The byte at an offset that is there. *)
Definition byte (m : list Z) (i : Z) : Z := default 0 (px m i).

Lemma px_byte m i : 0 <= i < Z.of_nat (length m) → px m i = Some (byte m i).
Proof. intros H. unfold byte. by destruct (px_is_Some m i H) as [v ->]. Qed.

Lemma rdz_byte m i : 0 <= i < Z.of_nat (length m) → rdz m i = Ok (byte m i).
Proof. intros H. apply rdz_Ok, px_byte, H. Qed.

(** ** Planes *)

Definition at_Y (W x y : Z) : Z := y * W + x.
Definition at_U (W H x y : Z) : Z := W * H + (y * (W / 2) + x).
Definition at_V (W H x y : Z) : Z := W * H + W * H / 4 + (y * (W / 2) + x).

Lemma at_Y_inj W x y x' y' : 0 <= x < W → 0 <= x' < W → at_Y W x y = at_Y W x' y' → x = x' ∧ y = y'.
Proof. intros Hx Hx' E. destruct (rows_apart W y x y' x' Hx Hx' E). done. Qed.
