(* ===== verification/JpegEnc.v ===== *)
(** * The JPEG encoder ([JpegEnc.c])

    What the program does around the driver of the encoder: the buffers, the parameters of
    a picture, and the control of the bit rate by a table of expected sizes.  The theorem
    says what the control picks, for any sizes the driver reports. *)

From S2P Require Import Prelude Pixels.

Local Open Scope Z_scope.
Local Open Scope c_scope.

(** ** Pictures *)

Definition eNM_COLOR_YUV420 : Z := 0x00.
Definition eNM_COLOR_YUV422 : Z := 0x01.
Definition eNM_COLOR_YUV420P : Z := 0x08 .| eNM_COLOR_YUV420.
Definition eNM_COLOR_YUV422P : Z := 0x08 .| eNM_COLOR_YUV422.

(** A picture; [pDataVAddr] is the memory from that address on, [None] for [NULL], and
    [pDataPAddr] a number. *)
Record S_NM_VIDEOCTX := MkVideo {
  pDataVAddr : option (list Z);
  pDataPAddr : Z;
  u32DataSize : Z; u32DataLimit : Z; u64DataTime : Z;
  eColorType : Z; u32BitRate : Z; u32FrameRate : Z;
  u32Width : Z; u32Height : Z; u32StrideW : Z; u32StrideH : Z; u32X : Z; u32Y : Z }.

(** ** The driver's parameters *)

Definition DRVJPEG_ENC_PRIMARY_YUV420 : Z := 0xA0.
Definition DRVJPEG_ENC_PRIMARY_YUV422 : Z := 0xA8.
Definition DRVJPEG_ENC_SRC_PLANAR : Z := 0.
Definition DRVJPEG_ENC_SRC_PACKET : Z := 1.

(** The fields that are set; the others stay 0. *)
Record jpeg_param_t := MkParam {
  vaddr_src : Z; paddr_src : Z; src_bufsize : Z; dst_bufsize : Z;
  encode : Z; scale : Z; scaled_width : Z; scaled_height : Z; decInWait_buffer_size : Z;
  encode_width : Z; encode_height : Z; qadjust : Z; qscaling : Z;
  encode_source_format : Z; encode_image_format : Z; buffersize : Z; buffercount : Z }.

Definition MAX_JPEG_BUF_CNT : Z := 1.
Definition RETRY_NUM : nat := 4.
Definition MAX_Q_SCALE : Z := 15.
Definition INVALID_FRAME_SIZE : Z := 0xFFFFFFFF.

(** The static variables; [s_pu8JpegEncBuf] is [None] for [MAP_FAILED], [s_pJpegInfo] says
    whether the block is allocated. *)
Record jpeg_device := MkJpegDev {
  s_pu8JpegEncBuf : option (list Z);
  s_i32JpegFd : Z;
  s_u32JpegBufSize : Z;
  s_sJpegParam : jpeg_param_t;
  s_pJpegInfo : bool;
  s_au32BRCTable : list Z;
  s_u32QScale : Z }.

(** ** The control of the bit rate *)

Definition BRCInitTable (u32QScale u32FrameSize : Z) (tbl : list Z) : outcome (bool * list Z) :=
  if MAX_Q_SCALE <? u32QScale then Ok (false, tbl) else
  tbl ← wrz tbl u32QScale u32FrameSize;
  Ok (true, tbl).

(** [tbl[i] = (tbl[j] + u32FrameSize) / 2]. *)
Definition average (tbl : list Z) (i j u32FrameSize : Z) : outcome (list Z) :=
  v ← rdz tbl (u32 j);
  wrz tbl (u32 i) (u32 (v + u32FrameSize) / 2).

Definition BRCUpdateTable (u32QScale u32FrameSize : Z) (tbl : list Z) : outcome (bool * list Z) :=
  if MAX_Q_SCALE <? u32QScale then Ok (false, tbl) else
  tbl ← wrz tbl u32QScale u32FrameSize;
  tbl ← (if u32QScale =? MAX_Q_SCALE then average tbl (MAX_Q_SCALE - 1) (MAX_Q_SCALE - 2) u32FrameSize
         else if u32QScale =? MAX_Q_SCALE - 1 then
           tbl ← average tbl MAX_Q_SCALE MAX_Q_SCALE u32FrameSize;
           average tbl (u32QScale - 1) (u32QScale - 2) u32FrameSize
         else if u32QScale =? 1 then average tbl 2 3 u32FrameSize
         else if u32QScale =? 2 then
           tbl ← average tbl 1 1 u32FrameSize;
           average tbl 3 4 u32FrameSize
         else
           tbl ← average tbl (u32QScale + 1) (u32QScale + 2) u32FrameSize;
           average tbl (u32QScale - 1) (u32QScale - 2) u32FrameSize);
  Ok (true, tbl).

(** [for (i = MAX_Q_SCALE; i > 0; i--)]: the first [i] with a larger entry, 0 if there is none. *)
Fixpoint first_larger (n : nat) (tbl : list Z) (u32FrameSize : Z) : outcome Z :=
  match n with
  | O => Ok 0
  | S n' =>
      v ← rdz tbl (Z.of_nat n);
      if u32FrameSize <? v then Ok (Z.of_nat n) else first_larger n' tbl u32FrameSize
  end.

Definition BRCGetQScale (u32BitRate u32FrameRate : Z) (tbl : list Z) : outcome (Z * list Z) :=
  if u32FrameRate =? 0 then Undef else
  let u32FrameSize := u32BitRate / 8 / u32FrameRate in
  i ← first_larger (Z.to_nat MAX_Q_SCALE) tbl u32FrameSize;
  tbl ← (if 1 <? i then
           v ← rdz tbl (i - 1);
           if v =? INVALID_FRAME_SIZE then wrz tbl (i - 1) u32FrameSize else Ok tbl
         else Ok tbl);
  Ok (if i <? MAX_Q_SCALE then i + 1 else i, tbl).

(** ** The device *)

(** The result of opening one of the device files: the descriptor, and the size of the
    buffer or the failure of the [ioctl]. *)
Fixpoint open_device (tries : list (Z * option Z)) (fd size : Z) : Z * Z :=
  match tries with
  | [] => (fd, size)
  | (fd, r) :: tries =>
      if fd <? 0 then open_device tries fd size else
      match r with
      | Some size => (fd, size)
      | None => open_device tries fd size
      end
  end.

Fixpoint init_table (n : nat) (i : Z) (tbl : list Z) : outcome (list Z) :=
  match n with
  | O => Ok tbl
  | S n => '(_, tbl) ← BRCInitTable i INVALID_FRAME_SIZE tbl; init_table n (i + 1) tbl
  end.

Definition zero_param : jpeg_param_t := MkParam 0 0 0 0 0 0 0 0 0 0 0 0 0 0 0 0 0.

(** [info] says whether [malloc] gave a block, [buf] is what [mmap] gave. *)
Definition InitJpegDevice (tries : list (Z * option Z)) (info : bool) (buf : option (list Z)) (dev : jpeg_device) : outcome (Z * jpeg_device) :=
  let '(fd, size) := open_device (take RETRY_NUM tries) (s_i32JpegFd dev) (s_u32JpegBufSize dev) in
  let dev := MkJpegDev (s_pu8JpegEncBuf dev) fd size (s_sJpegParam dev) (s_pJpegInfo dev) (s_au32BRCTable dev) (s_u32QScale dev) in
  if fd <? 0 then Ok (fd, dev) else
  let dev := MkJpegDev (s_pu8JpegEncBuf dev) fd size (s_sJpegParam dev) info (s_au32BRCTable dev) (s_u32QScale dev) in
  if negb info then Ok (-1, dev) else
  let dev := MkJpegDev buf fd size (s_sJpegParam dev) info (s_au32BRCTable dev) (s_u32QScale dev) in
  match buf with
  | None => Ok (-1, dev)
  | Some _ =>
      tbl ← init_table (Z.to_nat MAX_Q_SCALE) 1 (s_au32BRCTable dev);
      let p := MkParam 0 0 0 0 1 0 0 0 0 0 0 0xf 10 0 DRVJPEG_ENC_PRIMARY_YUV420 0 1 in
      Ok (fd, MkJpegDev buf fd size p info tbl (s_u32QScale dev))
  end.

(** The format of the picture for the driver: of the source and of the result. *)
Definition formats (eColorType : Z) : Z * Z :=
  if eColorType =? eNM_COLOR_YUV422P then (DRVJPEG_ENC_SRC_PLANAR, DRVJPEG_ENC_PRIMARY_YUV422)
  else if eColorType =? eNM_COLOR_YUV420P then (DRVJPEG_ENC_SRC_PLANAR, DRVJPEG_ENC_PRIMARY_YUV420)
  else (DRVJPEG_ENC_SRC_PACKET, if eColorType =? eNM_COLOR_YUV420 then DRVJPEG_ENC_PRIMARY_YUV420 else DRVJPEG_ENC_PRIMARY_YUV422).

(** The picture is copied to the driver when it has no physical address. *)
Definition copy_picture (src dst : S_NM_VIDEOCTX) (buf : option (list Z)) : outcome (option (list Z)) :=
  match buf, pDataVAddr src with
  | Some b, Some img =>
      b ← (if u32Width src <? u32StrideW src then
             for_n (u32Height dst) (λ Y b, memcpy b (Y * u32 (u32Width dst * 2)) img (Y * u32 (u32StrideW src * 2)) (u32 (u32Width dst * 2))) b
           else memcpy b 0 img 0 (u32DataSize src));
      Ok (Some b)
  | _, _ => Undef
  end.

(** The calls of [ioctl] are those of the driver: the last two set the parameters and start
    the encoder. *)
Definition JpegEnc (src dst : S_NM_VIDEOCTX) (dev : jpeg_device) : outcome (Z * jpeg_device) :=
  let size := s_u32JpegBufSize dev in
  let p0 := MkParam 0 0 0 0 1 0 0 0 0 0 0 0 0 0 0 0 MAX_JPEG_BUF_CNT in
  let with_param p q tbl buf := MkJpegDev buf (s_i32JpegFd dev) size p (s_pJpegInfo dev) tbl q in
  if negb (truth (pDataPAddr src)) && (size <? u32 (u32DataSize src + 300000))
  then Ok (-1, with_param p0 (s_u32QScale dev) (s_au32BRCTable dev) (s_pu8JpegEncBuf dev)) else
  let srcsize := if truth (pDataPAddr src) then 1024 else u32DataSize src in
  let '(sf, df) := formats (eColorType dst) in
  '(q, tbl) ← BRCGetQScale (u32BitRate dst) (u32FrameRate dst) (s_au32BRCTable dev);
  let scaled := if (u32Width src =? u32Width dst) && (u32Height src =? u32Height dst) then 0 else 1 in
  buf ← (if truth (pDataPAddr src) then Ok (s_pu8JpegEncBuf dev) else copy_picture src dst (s_pu8JpegEncBuf dev));
  let addr := if truth (pDataPAddr src) then pDataPAddr src else 0 in
  let p := MkParam addr addr srcsize (u32 (size - srcsize)) 1 scaled (u32Width dst) (u32Height dst) 0 (u32Width src) (u32Height src)
             0xf (u8 q) sf df 0 MAX_JPEG_BUF_CNT in
  Ok (0, with_param p q tbl buf).

(** [info] is what the driver says when it is done: the buffer and the size of the picture in
    it; [None] for a failed [read]. *)
Definition WaitJpegEncDone (info : option (list Z * Z)) (dst : S_NM_VIDEOCTX) (dev : jpeg_device) : outcome (Z * S_NM_VIDEOCTX * jpeg_device) :=
  match info with
  | None => Ok (-1, dst, dev)
  | Some (buf, image_size) =>
      let dst := MkVideo (Some (drop (Z.to_nat (src_bufsize (s_sJpegParam dev))) buf)) (pDataPAddr dst) image_size (u32DataLimit dst)
        (u64DataTime dst) (eColorType dst) (u32BitRate dst) (u32FrameRate dst) (u32Width dst) (u32Height dst) (u32StrideW dst) (u32StrideH dst)
        (u32X dst) (u32Y dst) in
      '(_, tbl) ← BRCUpdateTable (s_u32QScale dev) image_size (s_au32BRCTable dev);
      Ok (i32 image_size, dst,
          MkJpegDev (Some buf) (s_i32JpegFd dev) (s_u32JpegBufSize dev) (s_sJpegParam dev) (s_pJpegInfo dev) tbl (s_u32QScale dev))
  end.

Definition FinializeJpegDevice (dev : jpeg_device) : Z * jpeg_device :=
  (0, MkJpegDev None (if 0 <? s_i32JpegFd dev then -1 else s_i32JpegFd dev) (s_u32JpegBufSize dev) (s_sJpegParam dev) false
        (s_au32BRCTable dev) (s_u32QScale dev)).

(** One picture of [jpeg_loop]: the encoder is started, then waited for. *)
Definition encode_picture (src dst : S_NM_VIDEOCTX) (info : option (list Z * Z)) (dev : jpeg_device)
    : outcome (Z * S_NM_VIDEOCTX * jpeg_device) :=
  '(_, dev) ← JpegEnc src dst dev;
  WaitJpegEncDone info dst dev.

(** Pictures one after the other; for each the table before and the quality the driver is
    given. *)
Fixpoint encode_all (pics : list (S_NM_VIDEOCTX * S_NM_VIDEOCTX * option (list Z * Z))) (dev : jpeg_device)
    : outcome (list (list Z * Z) * jpeg_device) :=
  match pics with
  | [] => Ok ([], dev)
  | (src, dst, info) :: pics =>
      '(_, _, dev') ← encode_picture src dst info dev;
      '(qs, dev'') ← encode_all pics dev';
      Ok ((s_au32BRCTable dev, qscaling (s_sJpegParam dev')) :: qs, dev'')
  end.

(** ** Theorems *)

(** The table has an entry for each scale. *)
Definition table_ok (tbl : list Z) : Prop := length tbl = 16%nat.

(** The choice for frames of [size] bytes: the entries from [q] on are small enough and the
    one before is not, or none is small enough and [q] is the last scale. *)
Definition good_choice (tbl : list Z) (size q : Z) : Prop :=
  1 <= q <= MAX_Q_SCALE ∧
  ((∀ j, q <= j <= MAX_Q_SCALE → byte tbl j <= size) ∧ (1 < q → size < byte tbl (q - 1)) ∨
   q = MAX_Q_SCALE ∧ size < byte tbl MAX_Q_SCALE).

Lemma first_larger_ok n tbl size :
  table_ok tbl → (n <= 15)%nat →
  returns (first_larger n tbl size) (λ i, 0 <= i <= Z.of_nat n ∧ (∀ j, i < j <= Z.of_nat n → byte tbl j <= size) ∧ (0 < i → size < byte tbl i)).
Proof.
  intros Ht. induction n as [|n IH]; intros Hn; cbn [first_larger]; [apply returns_Ok; split_and!; lia|].
  rewrite rdz_byte, bind_Ok by (unfold table_ok in Ht; lia). destruct (Z.ltb_spec size (byte tbl (Z.of_nat (S n)))).
  - apply returns_Ok. split_and!; (lia || done).
  - eapply returns_mono; [apply IH; lia|]. intros i (Hi & Hj & Hs). split; [lia|]. split; [|done].
    intros j Hj'. destruct (decide (j = Z.of_nat (S n))) as [->|]; [done|]. apply Hj. lia.
Qed.

Lemma wrz_table tbl i v : table_ok tbl → 0 <= i <= 15 → returns (wrz tbl i v) (λ tbl', table_ok tbl' ∧ ∀ j, j ≠ i → byte tbl' j = byte tbl j).
Proof.
  unfold table_ok. intros Ht Hi. eapply returns_mono; [apply wrz_drawn; lia|]. intros tbl' [Hl Hd]. split; [congruence|].
  intros j Hj. unfold byte. rewrite Hd. by rewrite (proj2 (Z.eqb_neq _ _)).
Qed.

Lemma average_table tbl i j v :
  table_ok tbl → 0 <= i <= 15 → 0 <= j <= 15 → returns (average tbl i j v) (λ tbl', table_ok tbl' ∧ ∀ k, k ≠ i → byte tbl' k = byte tbl k).
Proof.
  intros Ht Hi Hj. unfold average. rewrite !u32_small, rdz_byte, bind_Ok by (unfold table_ok in Ht; lia). by apply wrz_table.
Qed.

(** The quality that is picked. *)
Lemma BRCGetQScale_ok rate fps tbl :
  table_ok tbl → fps ≠ 0 →
  returns (BRCGetQScale rate fps tbl) (λ '(q, tbl'), table_ok tbl' ∧ good_choice tbl (rate / 8 / fps) q).
Proof.
  intros Ht Hf. unfold BRCGetQScale. rewrite (proj2 (Z.eqb_neq _ _)) by done.
  eapply returns_bind; [apply (first_larger_ok 15); (done || lia)|]. intros i (Hi & Hj & Hs).
  apply returns_bind with (P := table_ok).
  - destruct (Z.ltb_spec 1 i); [|by apply returns_Ok]. rewrite rdz_byte, bind_Ok by (unfold table_ok in Ht; lia).
    destruct (_ =? _); [|by apply returns_Ok]. eapply returns_mono; [apply wrz_table; (done || lia)|]. by intros tbl' [? _].
  - intros tbl' Ht'. apply returns_Ok. split; [done|]. unfold good_choice, MAX_Q_SCALE in *. destruct (Z.ltb_spec i 15).
    + split; [lia|]. left. split; [intros j Hj'; apply Hj; lia|]. intros Hq. replace (i + 1 - 1) with i by lia. apply Hs. lia.
    + assert (i = 15) as -> by lia. split; [lia|]. right. split; [done|]. apply Hs. lia.
Qed.

(** The size of a frame is remembered. *)
Lemma BRCUpdateTable_ok q size tbl :
  table_ok tbl → 1 <= q <= MAX_Q_SCALE → returns (BRCUpdateTable q size tbl) (λ '(b, tbl'), b = true ∧ table_ok tbl' ∧ byte tbl' q = size).
Proof.
  unfold MAX_Q_SCALE. intros Ht Hq. unfold BRCUpdateTable, MAX_Q_SCALE. rewrite (proj2 (Z.ltb_ge _ _)) by lia.
  apply returns_bind with (P := λ tbl', table_ok tbl' ∧ byte tbl' q = size).
  { unfold table_ok in *. eapply returns_mono; [apply wrz_drawn; lia|]. intros tbl' [Hl Hd]. split; [congruence|].
    unfold byte. by rewrite Hd, Z.eqb_refl. }
  intros tbl1 [H1 E1].
  assert (∀ i j tbl, 0 <= i <= 15 → 0 <= j <= 15 → i ≠ q → table_ok tbl ∧ byte tbl q = size →
    returns (average tbl i j size) (λ tbl', table_ok tbl' ∧ byte tbl' q = size)) as Hav.
  { intros i j t Hi Hj Hne [H2 E2]. eapply returns_mono; [by apply average_table|]. intros t' [H3 E3]. split; [done|]. rewrite E3; congruence. }
  apply returns_bind with (P := λ tbl', table_ok tbl' ∧ byte tbl' q = size); [|intros tbl2 [H2 E2]; by apply returns_Ok].
  destruct (Z.eqb_spec q 15); [apply Hav; (done || lia)|].
  destruct (Z.eqb_spec q (15 - 1)); [eapply returns_bind; [apply Hav; (done || lia)|]; intros; apply Hav; (done || lia)|].
  destruct (Z.eqb_spec q 1); [apply Hav; (done || lia)|].
  destruct (Z.eqb_spec q 2); (eapply returns_bind; [apply Hav; (done || lia)|]; intros; apply Hav; (done || lia)).
Qed.

(** A picture of the camera: it has a physical address. *)
Definition camera_picture (p : S_NM_VIDEOCTX * S_NM_VIDEOCTX * option (list Z * Z)) : Prop :=
  let '(src, dst, _) := p in pDataPAddr src ≠ 0 ∧ u32FrameRate dst ≠ 0.

Lemma encode_picture_ok src dst info dev :
  camera_picture (src, dst, info) → table_ok (s_au32BRCTable dev) →
  returns (encode_picture src dst info dev) (λ '(_, _, dev'), table_ok (s_au32BRCTable dev') ∧
    good_choice (s_au32BRCTable dev) (u32BitRate dst / 8 / u32FrameRate dst) (qscaling (s_sJpegParam dev'))).
Proof.
  intros [Hp Hf] Ht. unfold encode_picture, JpegEnc. assert (truth (pDataPAddr src) = true) as -> by (unfold truth; by rewrite (proj2 (Z.eqb_neq _ _))).
  cbn [negb andb]. destruct (formats (eColorType dst)) as [sf df].
  destruct (BRCGetQScale_ok (u32BitRate dst) (u32FrameRate dst) (s_au32BRCTable dev) Ht Hf) as ([q tbl] & -> & Ht' & Hq).
  rewrite !bind_Ok. assert (u8 q = q) as Eq by (destruct Hq as [Hq _]; unfold MAX_Q_SCALE in Hq; apply Z.mod_small; lia).
  unfold WaitJpegEncDone. destruct info as [[buf size]|]; cbn [s_u32QScale s_au32BRCTable s_sJpegParam].
  - destruct (BRCUpdateTable_ok q size tbl Ht' (proj1 Hq)) as ([b tbl2] & -> & _ & Ht2 & _). rewrite bind_Ok. apply returns_Ok. cbn.
    rewrite Eq. done.
  - apply returns_Ok. cbn. rewrite Eq. done.
Qed.

(** C33: The control of the bit rate.  For any number of pictures of the camera, whatever sizes
    the driver reports and also when it fails, the table of sizes is never accessed outside
    its 16 entries and the quality given to the driver is a scale from 1 to 15: the finest
    for which it and all coarser scales are expected to stay within the bytes per frame that
    the bit rate allows, or the coarsest when none is. *)
Theorem rate_control pics dev :
  table_ok (s_au32BRCTable dev) → Forall camera_picture pics →
  returns (encode_all pics dev) (λ '(qs, dev'), table_ok (s_au32BRCTable dev') ∧
    Forall2 (λ '(src, dst, _) '(tbl, q), good_choice tbl (u32BitRate dst / 8 / u32FrameRate dst) q) pics qs).
Proof.
  intros Ht Hp. revert dev Ht. induction Hp as [|[[src dst] info] pics Hc Hp IH]; intros dev Ht; cbn [encode_all]; [by apply returns_Ok|].
  destruct (encode_picture_ok src dst info dev Hc Ht) as ([[e d] dev'] & -> & Ht' & Hq). rewrite bind_Ok.
  destruct (IH dev' Ht') as ([qs dev''] & -> & Ht'' & Hqs). rewrite bind_Ok. apply returns_Ok. split; [done|]. by constructor.
Qed.

(** The first two pictures of a device that has just been opened. *)
Definition w_device : jpeg_device := MkJpegDev None 3 0 zero_param true (0 :: replicate 15 INVALID_FRAME_SIZE) 0.
Definition w_video : S_NM_VIDEOCTX := MkVideo None 4096 0 0 0 eNM_COLOR_YUV420P 2400000 30 640 480 640 480 0 0.

Lemma rate_control_witness :
  returns (encode_all [(w_video, w_video, Some ([], 9000)); (w_video, w_video, Some ([], 12000)); (w_video, w_video, None)] w_device)
    (λ '(qs, _), map snd qs = [15; 14; 15]).
Proof.
  pose proof (rate_control [(w_video, w_video, Some ([], 9000)); (w_video, w_video, Some ([], 12000)); (w_video, w_video, None)] w_device
    ltac:(done) ltac:(repeat constructor; cbn; done)) as ([qs dev'] & E & _ & _).
  exists (qs, dev'). split; [exact E|]. vm_compute in E. injection E as <- <-. by vm_compute.
Defined.
