(* ===== verification/V4L.v ===== *)
(** * The camera ([V4L.c])

    The functions that open the camera, hand its pictures to the encoder and give the buffers
    back.  They are programs over the requests to the driver ([open], [ioctl], [mmap] and so
    on), run against a driver that is a parameter: a state and what each request answers.
    The pictures are in memory that the driver shares with the program. *)

From Stdlib Require Import String.
From S2P Require Import Prelude CString Pixels JpegEnc.

Local Open Scope Z_scope.
Local Open Scope c_scope.

(** ** Constants and data *)

Definition V4L_ERR : Z := 0x80400000.
Definition ERR_V4L_SUCCESS : Z := 0.
Definition ERR_V4L_OPEN_DEV : Z := V4L_ERR .| 1.
Definition ERR_V4L_VID_GET_CAP : Z := V4L_ERR .| 2.
Definition ERR_V4L_VID_GRAB_DEV : Z := V4L_ERR .| 3.
Definition ERR_V4L_VID_SET_PICT : Z := V4L_ERR .| 4.
Definition ERR_V4L_VID_SET_WIN : Z := V4L_ERR .| 5.
Definition ERR_AVDEV_VID_CAPTURE : Z := V4L_ERR .| 6.
Definition ERR_V4L_MMAP : Z := V4L_ERR .| 7.
Definition ERR_V4L_VID_MCAPTURE : Z := V4L_ERR .| 8.
Definition ERR_V4L_VID_SYNC : Z := V4L_ERR .| 9.
Definition ERR_V4L_VID_CAPTURE : Z := V4L_ERR .| 10.
Definition ERR_V4L_VID_QUERY_UID : Z := V4L_ERR .| 11.

Definition REG_SDE_CTRL : Z := 0x6A.
Definition REG_BRIGHT : Z := 0x9B.
Definition VIDEO_START : Z := 0.
Definition VIDEO_STOP : Z := 1.
Definition MAX_USER_CTRL : nat := 16.

(** Of the headers of the system. *)
Definition EINTR : Z := 4.
Definition EAGAIN : Z := 11.
Definition EINVAL : Z := 22.
Definition VID_TYPE_CAPTURE : Z := 1.
Definition VIDEO_PALETTE_YUV422 : Z := 7.
Definition VIDEO_PALETTE_YUV422P : Z := 13.
Definition VIDEO_PALETTE_YUV420P : Z := 15.
Definition V4L2_CTRL_FLAG_DISABLED : Z := 1.
Definition V4L2_CID_BASE : Z := 0x980900.
Definition V4L2_CID_LASTP1 : Z := V4L2_CID_BASE + 37.
Definition V4L2_CID_PRIVATE_BASE : Z := 0x8000000.

Record video_window := MkWin { win_x : Z; win_y : Z; win_width : Z; win_height : Z; win_chromakey : Z; win_flags : Z }.
Record video_mbuf := MkMbuf { mb_size : Z; mb_frames : Z; mb_offsets : list Z }.
Record video_mmap := MkMmap { mm_frame : Z; mm_height : Z; mm_width : Z; mm_format : Z }.
Record S_PIPE_INFO := MkPipe { i32PipeBufNo : Z; i32PipeBufSize : Z; i32CurrPipePhyAddr : Z; i32CurrBufIndex : Z }.
Record v4l2_queryctrl := MkCtrl { qc_id : Z; qc_name : list Z; qc_minimum : Z; qc_maximum : Z; qc_step : Z; qc_flags : Z }.

(** [s_sVidData] and the other variables of the file; [pu8VidBuf] tells whether the memory is
    mapped. *)
Record S_V4L_VID_DATA := MkVid {
  i32VidFD : Z; i32FrameFmt : Z; i32UseMMap : Z; i32FrameSize : Z;
  sVidWin : video_window; pu8VidBuf : bool; sVidMBufs : video_mbuf; sVidMMap : video_mmap; i32VidFrame : Z;
  s_u64PrevTS : Z; ctrl_id : nat; PrivateUserCtrl : list v4l2_queryctrl }.

Definition no_ctrl : v4l2_queryctrl := MkCtrl 0 [] 0 0 0 0.

Definition vid_start : S_V4L_VID_DATA :=
  MkVid (-1) 0 0 0 (MkWin 0 0 0 0 0 0) false (MkMbuf 0 0 (replicate 32 0)) (MkMmap 0 0 0 0) 0 0 0 (replicate MAX_USER_CTRL no_ctrl).

(** *** Assignments to fields *)

Definition set_fd (x : Z) (v : S_V4L_VID_DATA) := MkVid x (i32FrameFmt v) (i32UseMMap v) (i32FrameSize v) (sVidWin v) (pu8VidBuf v) (sVidMBufs v) (sVidMMap v) (i32VidFrame v) (s_u64PrevTS v) (ctrl_id v) (PrivateUserCtrl v).
Definition set_fmt (x : Z) (v : S_V4L_VID_DATA) := MkVid (i32VidFD v) x (i32UseMMap v) (i32FrameSize v) (sVidWin v) (pu8VidBuf v) (sVidMBufs v) (sVidMMap v) (i32VidFrame v) (s_u64PrevTS v) (ctrl_id v) (PrivateUserCtrl v).
Definition set_usemmap (x : Z) (v : S_V4L_VID_DATA) := MkVid (i32VidFD v) (i32FrameFmt v) x (i32FrameSize v) (sVidWin v) (pu8VidBuf v) (sVidMBufs v) (sVidMMap v) (i32VidFrame v) (s_u64PrevTS v) (ctrl_id v) (PrivateUserCtrl v).
Definition set_framesize (x : Z) (v : S_V4L_VID_DATA) := MkVid (i32VidFD v) (i32FrameFmt v) (i32UseMMap v) x (sVidWin v) (pu8VidBuf v) (sVidMBufs v) (sVidMMap v) (i32VidFrame v) (s_u64PrevTS v) (ctrl_id v) (PrivateUserCtrl v).
Definition set_win (x : video_window) (v : S_V4L_VID_DATA) := MkVid (i32VidFD v) (i32FrameFmt v) (i32UseMMap v) (i32FrameSize v) x (pu8VidBuf v) (sVidMBufs v) (sVidMMap v) (i32VidFrame v) (s_u64PrevTS v) (ctrl_id v) (PrivateUserCtrl v).
Definition set_vidbuf (x : bool) (v : S_V4L_VID_DATA) := MkVid (i32VidFD v) (i32FrameFmt v) (i32UseMMap v) (i32FrameSize v) (sVidWin v) x (sVidMBufs v) (sVidMMap v) (i32VidFrame v) (s_u64PrevTS v) (ctrl_id v) (PrivateUserCtrl v).
Definition set_mbufs (x : video_mbuf) (v : S_V4L_VID_DATA) := MkVid (i32VidFD v) (i32FrameFmt v) (i32UseMMap v) (i32FrameSize v) (sVidWin v) (pu8VidBuf v) x (sVidMMap v) (i32VidFrame v) (s_u64PrevTS v) (ctrl_id v) (PrivateUserCtrl v).
Definition set_mmap (x : video_mmap) (v : S_V4L_VID_DATA) := MkVid (i32VidFD v) (i32FrameFmt v) (i32UseMMap v) (i32FrameSize v) (sVidWin v) (pu8VidBuf v) (sVidMBufs v) x (i32VidFrame v) (s_u64PrevTS v) (ctrl_id v) (PrivateUserCtrl v).
Definition set_vidframe (x : Z) (v : S_V4L_VID_DATA) := MkVid (i32VidFD v) (i32FrameFmt v) (i32UseMMap v) (i32FrameSize v) (sVidWin v) (pu8VidBuf v) (sVidMBufs v) (sVidMMap v) x (s_u64PrevTS v) (ctrl_id v) (PrivateUserCtrl v).
Definition set_prevts (x : Z) (v : S_V4L_VID_DATA) := MkVid (i32VidFD v) (i32FrameFmt v) (i32UseMMap v) (i32FrameSize v) (sVidWin v) (pu8VidBuf v) (sVidMBufs v) (sVidMMap v) (i32VidFrame v) x (ctrl_id v) (PrivateUserCtrl v).
Definition set_ctrls (n : nat) (l : list v4l2_queryctrl) (v : S_V4L_VID_DATA) := MkVid (i32VidFD v) (i32FrameFmt v) (i32UseMMap v) (i32FrameSize v) (sVidWin v) (pu8VidBuf v) (sVidMBufs v) (sVidMMap v) (i32VidFrame v) (s_u64PrevTS v) n l.

(** ** Requests to the driver *)

(** A request and the type of its answer: the result, and what the driver stores in the
    structure it is given; [None] and [false] are failures. *)
Inductive request : Type → Type :=
  | r_open : request Z
  | r_close (fd : Z) : request unit
  | r_GCAP (fd : Z) : request (option Z)
  | r_CROPCAP (fd : Z) : request (option (Z * Z))
  | r_GPICT (fd : Z) : request unit
  | r_SPICT (fd palette depth : Z) : request bool
  | r_GMBUF (fd : Z) : request (option video_mbuf)
  | r_SWIN (fd : Z) (w : video_window) : request bool
  | r_CAPTURE (fd val : Z) : request bool
  | r_mmap (fd size : Z) (shared : bool) : request bool
  | r_munmap (size : Z) : request unit
  | r_MCAPTURE (fd : Z) (m : video_mmap) : request bool
  | r_SYNC (fd frame : Z) : request (Z * Z)
  | r_GCAPTIME (fd index : Z) : request (Z * Z * Z)
  | r_PACKET_INFO (fd : Z) : request (option S_PIPE_INFO)
  | r_PLANAR_INFO (fd : Z) : request (option S_PIPE_INFO)
  | r_SPREVIEW (fd val : Z) : request bool
  | r_QUERYCTRL (fd id : Z) : request (Z * Z * v4l2_queryctrl)
  | r_S_CTRL (fd id val : Z) : request bool
  | r_G_CTRL (fd id : Z) : request (option Z)
  | r_G_CROP (fd : Z) : request (option (Z * Z * Z * Z))
  | r_SENSOR_ID (fd : Z) : request (option Z)
  | r_usleep (n : Z) : request unit.

(** A driver: its state, what it answers, and the memory it shares. *)
Class driver (D : Type) := MkDriver { dev : ∀ A, request A → D → A * D; mem : D → list Z }.

Section programs.
Context {D : Type} {drv : driver D}.

(** Programs over the variables of the file and the driver. *)
Definition prog (A : Type) : Type := S_V4L_VID_DATA → D → outcome (A * S_V4L_VID_DATA * D).
Definition ret {A} (a : A) : prog A := λ v d, Ok (a, v, d).
Definition seq {A B} (m : prog A) (f : A → prog B) : prog B := λ v d, '(a, v, d) ← m v d; f a v d.
Definition io {A} (r : request A) : prog A := λ v d, let '(a, d) := dev A r d in Ok (a, v, d).
Definition get : prog S_V4L_VID_DATA := λ v d, Ok (v, v, d).
Definition upd (f : S_V4L_VID_DATA → S_V4L_VID_DATA) : prog unit := λ v d, Ok (tt, f v, d).
Definition memory_of : prog (list Z) := λ v d, Ok (mem d, v, d).
Definition lift {A} (x : outcome A) : prog A := λ v d, a ← x; Ok (a, v, d).

Local Notation "x ⇐ m ; f" := (seq m (λ x, f)) (at level 20, m at level 100, f at level 200, right associativity).
Local Notation "m ;; f" := (seq m (λ _, f)) (at level 100, f at level 200, right associativity).

(** ** Opening *)

Definition SetPacketPipeWindow (psVideoCtx : S_NM_VIDEOCTX) : prog Z :=
  v ⇐ get;
  if i32VidFD v <? 0 then ret (-1) else
  ok ⇐ io (r_SWIN (i32VidFD v) (MkWin 0 0 (u32Width psVideoCtx) (u32Height psVideoCtx) (u32 (-1)) 0));
  ret (if ok then 0 else -1).

(** The size of the pictures, no larger than that of the sensor. *)
Definition clip_width (c : option (Z * Z)) (x : S_NM_VIDEOCTX) : S_NM_VIDEOCTX :=
  match c with
  | Some (w, _) =>
      if w <? i32 (u32Width x) then
        MkVideo (pDataVAddr x) (pDataPAddr x) (u32DataSize x) (u32DataLimit x) (u64DataTime x) (eColorType x) (u32BitRate x) (u32FrameRate x)
          (u32 w) (u32Height x) (u32 w) (u32StrideH x) (u32X x) (u32Y x)
      else x
  | None => x
  end.

Definition clip_height (c : option (Z * Z)) (x : S_NM_VIDEOCTX) : S_NM_VIDEOCTX :=
  match c with
  | Some (_, h) =>
      if h <? i32 (u32Height x) then
        MkVideo (pDataVAddr x) (pDataPAddr x) (u32DataSize x) (u32DataLimit x) (u64DataTime x) (eColorType x) (u32BitRate x) (u32FrameRate x)
          (u32Width x) (u32 h) (u32StrideW x) (u32 h) (u32X x) (u32Y x)
      else x
  | None => x
  end.

(** [VIDIOCGMBUF] failed: reading from the device. *)
Definition init_read (fd i32Width i32Height : Z) : prog Z :=
  upd (set_win (MkWin 0 0 (u32 i32Width) (u32 i32Height) (u32 (-1)) 0));;
  v ⇐ get;
  ok ⇐ io (r_SWIN fd (sVidWin v));
  if negb ok then ret ERR_V4L_VID_SET_WIN else
  upd (set_fmt VIDEO_PALETTE_YUV420P);;
  ok ⇐ io (r_CAPTURE fd 1);
  if negb ok then ret ERR_AVDEV_VID_CAPTURE else
  upd (set_usemmap 0);;
  ret ERR_V4L_SUCCESS.

(** [a % b] of the language. *)
Definition crem (a b : Z) : outcome Z := if b =? 0 then Undef else Ok (Z.rem a b).

(** Mapping the buffers and grabbing the first frame. *)
Definition init_mmap (fd i32Width i32Height color : Z) (m : video_mbuf) : prog Z :=
  upd (set_mbufs m);;
  ok ⇐ io (r_mmap fd (mb_size m) true);
  ok ⇐ (if (ok : bool) then ret true else io (r_mmap fd (mb_size m) false));
  upd (set_vidbuf ok);;
  if negb ok then ret ERR_V4L_MMAP else
  upd (set_vidframe 0);;
  frame ⇐ lift (crem 0 (mb_frames m));
  upd (set_mmap (MkMmap (u32 frame) i32Height i32Width (if color =? eNM_COLOR_YUV420P then VIDEO_PALETTE_YUV420P else VIDEO_PALETTE_YUV422P)));;
  v ⇐ get;
  ok ⇐ io (r_MCAPTURE fd (sVidMMap v));
  if negb ok then ret ERR_V4L_VID_MCAPTURE else
  upd (λ v, set_usemmap 1 (set_fmt (mm_format (sVidMMap v)) v));;
  ret ERR_V4L_SUCCESS.

(** The part of [InitV4LDevice] that can fail, after [open]. *)
Definition init_steps (fd : Z) (planner : S_NM_VIDEOCTX) : prog (Z * S_NM_VIDEOCTX) :=
  cap ⇐ io (r_GCAP fd);
  match cap with
  | None => ret (ERR_V4L_VID_GET_CAP, planner)
  | Some type =>
      if negb (truth (Z.land type VID_TYPE_CAPTURE)) then ret (ERR_V4L_VID_GRAB_DEV, planner) else
      crop ⇐ io (r_CROPCAP fd);
      let planner := clip_height crop (clip_width crop planner) in
      let i32Width := i32 (u32Width planner) in
      let i32Height := i32 (u32Height planner) in
      io (r_GPICT fd);;
      ok ⇐ io (r_SPICT fd VIDEO_PALETTE_YUV422 16);
      if negb ok then ret (ERR_V4L_VID_SET_PICT, planner) else
      mbuf ⇐ io (r_GMBUF fd);
      err ⇐ (match mbuf with None => init_read fd i32Width i32Height | Some m => init_mmap fd i32Width i32Height (eColorType planner) m end);
      ret (err, planner)
  end.

Definition InitV4LDevice (planner packet : S_NM_VIDEOCTX) : prog (Z * S_NM_VIDEOCTX) :=
  fd ⇐ io r_open;
  if fd <? 0 then ret (ERR_V4L_OPEN_DEV, planner) else
  r ⇐ init_steps fd planner;
  if negb (r.1 =? ERR_V4L_SUCCESS) then io (r_close fd);; ret r else
  upd (λ v, set_fd fd (set_framesize (i32 (mm_width (sVidMMap v) * mm_height (sVidMMap v) * 2)) v));;
  SetPacketPipeWindow packet;;
  ret r.

(** ** Pictures *)

(** The loop around [VIDIOCSYNC]; [tries] more failures end it with an error.  A failure other
    than [EAGAIN] and [EINTR] ends it too, as if the frame were there. *)
Fixpoint sync_loop (tries : nat) (us : Z) : prog bool :=
  v ⇐ get;
  r ⇐ io (r_SYNC (i32VidFD v) (i32VidFrame v));
  if (r.1 <? 0) && ((r.2 =? EAGAIN) || (r.2 =? EINTR)) then
    io (r_usleep us);;
    match tries with O => ret false | S tries => sync_loop tries us end
  else ret true.

(** The memory from the start of buffer [n] on. *)
Definition buffer_at (n : Z) : prog (list Z) :=
  v ⇐ get;
  off ⇐ lift (rdz (mb_offsets (sVidMBufs v)) n);
  m ⇐ memory_of;
  if pu8VidBuf v && (0 <=? off) && (off <=? Z.of_nat (length m)) then ret (drop (Z.to_nat off) m) else lift Undef.

Definition set_picture (a : list Z) (p t : Z) (x : S_NM_VIDEOCTX) : S_NM_VIDEOCTX :=
  MkVideo (Some a) p (u32DataSize x) (u32DataLimit x) t (eColorType x) (u32BitRate x) (u32FrameRate x)
    (u32Width x) (u32Height x) (u32StrideW x) (u32StrideH x) (u32X x) (u32Y x).

Definition QueryV4LPacketInformation : prog (Z * option S_PIPE_INFO) :=
  v ⇐ get;
  r ⇐ io (r_PACKET_INFO (i32VidFD v));
  ret (match r with Some i => (ERR_V4L_SUCCESS, Some i) | None => (-1, None) end).

Definition QueryV4LPlanarInformation : prog (Z * option S_PIPE_INFO) :=
  v ⇐ get;
  r ⇐ io (r_PLANAR_INFO (i32VidFD v));
  ret (match r with Some i => (ERR_V4L_SUCCESS, Some i) | None => (-1, None) end).

Definition time_of (sec usec : Z) : Z := u64 (u64 sec * 1000000 + u64 usec).

(** The planar pipe. *)
Definition read_planner (x : S_NM_VIDEOCTX) : prog (S_NM_VIDEOCTX * Z) :=
  v ⇐ get;
  r ⇐ io (r_GCAPTIME (i32VidFD v) (i32VidFrame v));
  let '(sec, usec, userptr) := r in
  let t := time_of sec usec in
  upd (set_prevts t);;
  a ⇐ buffer_at (i32VidFrame v);
  ret (set_picture a userptr t x, t).

(** The packet pipe, whose buffers follow those of the planar one; [t] is the time that
    [read_planner] got, in the same local variable. *)
Definition read_packet (t : option Z) (x : S_NM_VIDEOCTX) : prog (Z * S_NM_VIDEOCTX) :=
  r ⇐ QueryV4LPacketInformation;
  match r.2 with
  | Some info =>
      t ⇐ lift (match t with Some t => Ok t | None => Undef end);
      v ⇐ get;
      a ⇐ buffer_at (mb_frames (sVidMBufs v) + i32VidFrame v);
      ret (ERR_V4L_SUCCESS, set_picture a (i32CurrPipePhyAddr info) t x)
  | None => ret (ERR_V4L_VID_SYNC, x)
  end.

Definition ReadV4LPictures (planner packet : option S_NM_VIDEOCTX) : prog (Z * option S_NM_VIDEOCTX * option S_NM_VIDEOCTX) :=
  ok ⇐ sync_loop 499 2000;
  if negb ok then ret (ERR_V4L_VID_SYNC, planner, packet) else
  r ⇐ (match planner with Some x => p ⇐ read_planner x; ret (Some p.1, Some p.2) | None => ret (None, None) end);
  match packet with
  | Some x => p ⇐ read_packet r.2 x; ret (p.1, r.1, Some p.2)
  | None => ret (ERR_V4L_SUCCESS, r.1, None)
  end.

Definition TriggerV4LNextFrame : prog Z :=
  ok ⇐ sync_loop 99 10000;
  if negb ok then ret ERR_V4L_VID_SYNC else
  upd (λ v, set_mmap (MkMmap (u32 (i32VidFrame v)) (mm_height (sVidMMap v)) (mm_width (sVidMMap v)) (mm_format (sVidMMap v))) v);;
  v ⇐ get;
  ok ⇐ io (r_MCAPTURE (i32VidFD v) (sVidMMap v));
  if negb ok then ret ERR_V4L_VID_MCAPTURE else
  n ⇐ lift (crem (i32VidFrame v + 1) (mb_frames (sVidMBufs v)));
  upd (set_vidframe n);;
  ret ERR_V4L_SUCCESS.

Definition StartV4LCapture : prog Z :=
  v ⇐ get;
  ok ⇐ io (r_CAPTURE (i32VidFD v) VIDEO_START);
  if negb ok then ret ERR_V4L_VID_CAPTURE else
  upd (set_vidframe 0);; ret ERR_V4L_SUCCESS.

Definition StopV4LCapture : prog Z :=
  v ⇐ get; ok ⇐ io (r_CAPTURE (i32VidFD v) VIDEO_STOP);
  ret (if (ok : bool) then ERR_V4L_SUCCESS else ERR_V4L_VID_CAPTURE).

Definition StartPreview : prog Z :=
  v ⇐ get; ok ⇐ io (r_SPREVIEW (i32VidFD v) 1);
  ret (if (ok : bool) then ERR_V4L_SUCCESS else ERR_V4L_VID_CAPTURE).

Definition StopPreview : prog Z :=
  v ⇐ get; ok ⇐ io (r_SPREVIEW (i32VidFD v) 0);
  ret (if (ok : bool) then ERR_V4L_SUCCESS else ERR_V4L_VID_CAPTURE).

Definition SetV4LViewWindow (lcmwidth lcmheight prewidth preheight : Z) : prog Z :=
  upd (set_win (MkWin (u32 (Z.quot (lcmwidth - prewidth) 2)) (u32 (Z.quot (lcmheight - preheight) 2)) (u32 prewidth) (u32 preheight) (u32 (-1)) 0));;
  v ⇐ get;
  ok ⇐ io (r_SWIN (i32VidFD v) (sVidWin v));
  if (ok : bool) then ret ERR_V4L_SUCCESS else
  (if 0 <=? i32VidFD v then io (r_close (i32VidFD v)) else ret tt);;
  ret ERR_V4L_VID_SET_WIN.

(** ** Controls of the sensor *)

(** The standard controls from [id] on, [n] of them. *)
Fixpoint query_standard (n : nat) (id err : Z) : prog Z :=
  match n with
  | O => ret err
  | S n =>
      v ⇐ get;
      r ⇐ io (r_QUERYCTRL (i32VidFD v) id);
      let '(e, errno, _) := r in
      query_standard n (id + 1) (if (e =? 0) || (errno =? EINVAL) then err else ERR_V4L_VID_QUERY_UID)
  end.

(** The private controls, kept in the table. *)
Fixpoint query_private (fuel : nat) (id err : Z) : prog Z :=
  match fuel with
  | O => lift Diverge
  | S fuel =>
      v ⇐ get;
      r ⇐ io (r_QUERYCTRL (i32VidFD v) id);
      let '(e, errno, c) := r in
      if e =? 0 then
        if truth (Z.land (qc_flags c) V4L2_CTRL_FLAG_DISABLED) then query_private fuel (u32 (id + 1)) err
        else if (MAX_USER_CTRL <? ctrl_id v)%nat then ret ERR_V4L_VID_QUERY_UID
        else
          l ⇐ lift (wr (PrivateUserCtrl v) (ctrl_id v) c);
          upd (set_ctrls (S (ctrl_id v)) l);;
          query_private fuel (u32 (id + 1)) err
      else if errno =? EINVAL then ret err
      else query_private fuel (u32 (id + 1)) ERR_V4L_VID_QUERY_UID
  end.

Definition QueryV4LUserControl (fuel : nat) : prog Z :=
  err ⇐ query_standard 37 V4L2_CID_BASE ERR_V4L_SUCCESS;
  query_private fuel V4L2_CID_PRIVATE_BASE err.

Fixpoint ctrl_named (l : list v4l2_queryctrl) (name : list Z) : option v4l2_queryctrl :=
  match l with [] => None | c :: l => if streq (qc_name c) name then Some c else ctrl_named l name end.

(** The control that is found is dereferenced. *)
Definition ctrl_by_name (name : list Z) : prog Z :=
  v ⇐ get; match ctrl_named (PrivateUserCtrl v) name with Some c => ret (qc_id c) | None => lift Undef end.

(** Selects a register of the sensor and reads it; [None] when a request fails. *)
Definition read_register (fd addr_id read_id reg : Z) : prog (option Z) :=
  ok ⇐ io (r_S_CTRL fd addr_id reg);
  if negb ok then ret None else io (r_G_CTRL fd read_id).

Definition ChangeV4LUserControl_Brigness (ctrl : Z) : prog Z :=
  v ⇐ get;
  addr ⇐ ctrl_by_name (lit "i2c_set_addr");
  write ⇐ ctrl_by_name (lit "i2c_write");
  read ⇐ ctrl_by_name (lit "i2c_read");
  x ⇐ read_register (i32VidFD v) addr read REG_SDE_CTRL;
  match x with
  | None => ret (-1)
  | Some x =>
      ok ⇐ io (r_S_CTRL (i32VidFD v) write (Z.lor x 4));
      if negb ok then ret (-1) else
      y ⇐ read_register (i32VidFD v) addr read REG_BRIGHT;
      match y with
      | None => ret (-1)
      | Some y => ok ⇐ io (r_S_CTRL (i32VidFD v) write (if 0 <=? ctrl then y + 1 else y - 1)); ret (if (ok : bool) then ERR_V4L_SUCCESS else -1)
      end
  end.

Definition QueryV4LZoomInfo : prog (Z * option (Z * Z) * option (Z * Z * Z * Z)) :=
  v ⇐ get;
  c ⇐ io (r_CROPCAP (i32VidFD v));
  match c with
  | None => ret (-1, None, None)
  | Some c => w ⇐ io (r_G_CROP (i32VidFD v)); ret (match w with None => (-1, Some c, None) | Some w => (ERR_V4L_SUCCESS, Some c, Some w) end)
  end.

Definition QueryV4LSensorID : prog (Z * option Z) :=
  v ⇐ get;
  r ⇐ io (r_SENSOR_ID (i32VidFD v));
  ret (match r with Some i => (ERR_V4L_SUCCESS, Some i) | None => (-1, None) end).

(** The width and the height are stored where the caller says unless the function fails early. *)
Definition ChangeEncodeV4LResoultion : prog (Z * option (Z * Z)) :=
  v ⇐ get;
  ok ⇐ io (r_CAPTURE (i32VidFD v) 0);
  if negb ok then ret (ERR_AVDEV_VID_CAPTURE, None) else
  upd (λ v, set_framesize (320 * 240 * 2) (set_mmap (MkMmap (mm_frame (sVidMMap v)) 240 320 (mm_format (sVidMMap v))) v));;
  v ⇐ get;
  ok ⇐ io (r_MCAPTURE (i32VidFD v) (sVidMMap v));
  if negb ok then ret (ERR_V4L_VID_MCAPTURE, None) else
  upd (set_vidframe 0);;
  ok ⇐ io (r_CAPTURE (i32VidFD v) 0);
  ret (if (ok : bool) then 0 else ERR_AVDEV_VID_CAPTURE, Some (320, 240)).

Definition FinializeV4LDevice : prog unit :=
  v ⇐ get;
  (if truth (i32UseMMap v) then io (r_munmap (mb_size (sVidMBufs v))) else ret tt);;
  io (r_close (i32VidFD v));;
  upd (set_fd (-1)).

(** ** The camera in the encoder's loop *)

(** What a turn of the loop shows: the frame, the result of reading, the two pictures, whether
    the buffer was the program's at that moment, and the result of the trigger. *)
Record turn := MkTurn {
  t_frame : Z; t_read : Z; t_planner : option S_NM_VIDEOCTX; t_packet : option S_NM_VIDEOCTX; t_ours : bool; t_trigger : option Z }.

Definition owner_now (owner : D → Z → bool) (i : Z) : prog bool := λ v d, Ok (negb (owner d i), v, d).

Definition camera_turn (owner : D → Z → bool) (planner packet : S_NM_VIDEOCTX) : prog turn :=
  v ⇐ get;
  r ⇐ ReadV4LPictures (Some planner) (Some packet);
  let '(err, x, y) := r in
  if negb (err =? ERR_V4L_SUCCESS) then ret (MkTurn (i32VidFrame v) err x y false None) else
  ours ⇐ owner_now owner (i32VidFrame v);
  e ⇐ TriggerV4LNextFrame;
  ret (MkTurn (i32VidFrame v) err x y ours (Some e)).

Definition or_else (x : option S_NM_VIDEOCTX) (y : S_NM_VIDEOCTX) : S_NM_VIDEOCTX := match x with Some x => x | None => y end.

Fixpoint camera_turns (n : nat) (owner : D → Z → bool) (planner packet : S_NM_VIDEOCTX) : prog (list turn) :=
  match n with
  | O => ret []
  | S n =>
      t ⇐ camera_turn owner planner packet;
      ts ⇐ camera_turns n owner (or_else (t_planner t) planner) (or_else (t_packet t) packet);
      ret (t :: ts)
  end.

(** Opening the camera and [n] turns of the loop. *)
Definition capture (n : nat) (owner : D → Z → bool) (planner packet : S_NM_VIDEOCTX) : prog (Z * list turn) :=
  r ⇐ InitV4LDevice planner packet;
  if negb (r.1 =? ERR_V4L_SUCCESS) then ret (r.1, []) else
  StartV4LCapture;;
  ts ⇐ camera_turns n owner r.2 packet;
  ret (r.1, ts).

End programs.

(** ** What the driver promises *)

Definition about_buffers {A} (r : request A) : bool := match r with r_SYNC _ _ => true | r_MCAPTURE _ _ => true | _ => false end.

Definition mbuf_fits (m : video_mbuf) (size : nat) : Prop :=
  0 < mb_frames m ∧ 2 * mb_frames m <= Z.of_nat (length (mb_offsets m)) ∧ Forall (λ o, 0 <= o <= Z.of_nat size) (mb_offsets m).

(** The documented behaviour of a driver with buffers in shared memory.  [with_driver]: the
    driver may write to the buffer.  [VIDIOCSYNC] waits until a frame is there, and gives its
    buffer to the program; it fails only when it is interrupted or must not wait.  A picture has
    a physical address. *)
Class camera (D : Type) {drv : driver D} := MkCamera {
  with_driver : D → Z → bool;
  sync_errno fd i d : (dev _ (r_SYNC fd i) d).1.1 < 0 → (dev _ (r_SYNC fd i) d).1.2 = EAGAIN ∨ (dev _ (r_SYNC fd i) d).1.2 = EINTR;
  sync_gives fd i d : 0 <= (dev _ (r_SYNC fd i) d).1.1 → with_driver (dev _ (r_SYNC fd i) d).2 i = false;
  others_keep {A} (r : request A) d i : about_buffers r = false → with_driver (dev _ r d).2 i = with_driver d i;
  mem_keeps {A} (r : request A) d : length (mem (dev _ r d).2) = length (mem d);
  planner_address fd i d : (dev _ (r_GCAPTIME fd i) d).1.2 ≠ 0;
  packet_address fd d info : (dev _ (r_PACKET_INFO fd) d).1 = Some info → i32CurrPipePhyAddr info ≠ 0;
  mbuf_given fd d : ∃ m, (dev _ (r_GMBUF fd) d).1 = Some m ∧ mbuf_fits m (length (mem d)) }.

(** ** Running programs *)

Section camera.
Context {D : Type} {drv : driver D} {cam : camera D}.

Definition runs {A} (m : prog A) (v : S_V4L_VID_DATA) (d : D) (Q : A → S_V4L_VID_DATA → D → Prop) : Prop := ∃ a v' d', m v d = Ok (a, v', d') ∧ Q a v' d'.

Lemma runs_ret {A} (a : A) v d (Q : A → S_V4L_VID_DATA → D → Prop) : Q a v d → runs (ret a) v d Q.
Proof. by exists a, v, d. Qed.

Lemma runs_seq {A B} (m : prog A) (f : A → prog B) v d Q : runs m v d (λ a v d, runs (f a) v d Q) → runs (seq m f) v d Q.
Proof. intros (a & v' & d' & E & b & v'' & d'' & E' & HQ). exists b, v'', d''. split; [|done]. unfold seq. by rewrite E, bind_Ok. Qed.

Lemma runs_io {A} (r : request A) v d (Q : A → S_V4L_VID_DATA → D → Prop) : Q (dev A r d).1 v (dev A r d).2 → runs (io r) v d Q.
Proof. intros H. exists (dev A r d).1, v, (dev A r d).2. split; [|done]. unfold io. by destruct (dev A r d). Qed.

Lemma runs_get v d (Q : S_V4L_VID_DATA → S_V4L_VID_DATA → D → Prop) : Q v v d → runs get v d Q.
Proof. by exists v, v, d. Qed.

Lemma runs_upd f v d (Q : unit → S_V4L_VID_DATA → D → Prop) : Q tt (f v) d → runs (upd f) v d Q.
Proof. by exists tt, (f v), d. Qed.

Lemma runs_lift {A} (a : A) v d (Q : A → S_V4L_VID_DATA → D → Prop) : Q a v d → runs (lift (Ok a)) v d Q.
Proof. by exists a, v, d. Qed.

Lemma runs_mono {A} (m : prog A) v d (P Q : A → S_V4L_VID_DATA → D → Prop) : runs m v d P → (∀ a v d, P a v d → Q a v d) → runs m v d Q.
Proof. intros (a & v' & d' & E & HP) H. exists a, v', d'. split; [done|by apply H]. Qed.

(** The state of an open camera with a memory of [size] bytes. *)
Definition cam_ok (m : video_mbuf) (size : nat) (v : S_V4L_VID_DATA) (d : D) : Prop :=
  pu8VidBuf v = true ∧ sVidMBufs v = m ∧ mbuf_fits m size ∧ 0 <= i32VidFrame v < mb_frames m ∧ length (mem d) = size.

Lemma cam_ok_io {A} (r : request A) m size v d : cam_ok m size v d → cam_ok m size v (dev A r d).2.
Proof. intros (H1 & H2 & H3 & H4 & H5). unfold cam_ok. rewrite mem_keeps. done. Qed.

Lemma sync_loop_runs tries us v d m size : cam_ok m size v d →
  runs (sync_loop tries us) v d (λ ok v' d', v' = v ∧ cam_ok m size v d' ∧ (ok = true → with_driver d' (i32VidFrame v) = false)).
Proof.
  revert d. induction tries as [|tries IH]; intros d Hc; cbn [sync_loop]; apply runs_seq, runs_get, runs_seq, runs_io;
    set (r := dev _ (r_SYNC (i32VidFD v) (i32VidFrame v)) d);
    (destruct (Z.ltb_spec r.1.1 0) as [Hr|Hr];
     [assert ((r.1.2 =? EAGAIN) || (r.1.2 =? EINTR) = true) as -> by (destruct (sync_errno _ _ _ Hr) as [H|H]; fold r in H; by rewrite H); cbn [andb]
     |apply runs_ret; split_and!; [done|by apply cam_ok_io|intros _; by apply sync_gives]]);
    apply runs_seq, runs_io.
  - apply runs_ret. split_and!; [done|by repeat apply cam_ok_io|done].
  - apply IH. by repeat apply cam_ok_io.
Qed.

(** The start of a buffer. *)
Lemma buffer_at_runs n v d m size : cam_ok m size v d → 0 <= n < 2 * mb_frames m →
  runs (buffer_at n) v d (λ a v' d', v' = v ∧ d' = d ∧ a = drop (Z.to_nat (mb_offsets m !!! Z.to_nat n)) (mem d)).
Proof.
  intros (Hb & Hm & (Hf & Hn & Ho) & Hi & Hs) Hr. unfold buffer_at. apply runs_seq, runs_get. rewrite Hm, Hb.
  destruct (mb_offsets m !! Z.to_nat n) as [off|] eqn:E; [|apply lookup_ge_None_1 in E; lia]. pose proof (proj1 (Forall_lookup _ _) Ho _ _ E) as Hoff. cbn beta in Hoff.
  assert (rdz (mb_offsets m) n = Ok off) as -> by (unfold rdz, px; rewrite (proj2 (Z.leb_le 0 n)) by lia; by rewrite E).
  apply runs_seq, runs_lift, runs_seq. exists (mem d), v, d. split; [done|]. rewrite Hs.
  rewrite (proj2 (Z.leb_le 0 off)), (proj2 (Z.leb_le off _)) by lia. cbn [andb]. apply runs_ret. split_and!; try done. by rewrite (list_lookup_total_correct _ _ _ E).
Qed.

(** The context has the memory from the start of buffer [n] on, and a physical address. *)
Definition picture_at (m : video_mbuf) (size : nat) (n : Z) (x : option S_NM_VIDEOCTX) : Prop :=
  ∃ c M, x = Some c ∧ pDataPAddr c ≠ 0 ∧ length M = size ∧ pDataVAddr c = Some (drop (Z.to_nat (mb_offsets m !!! Z.to_nat n)) M).

Lemma read_planner_runs x v d m size : cam_ok m size v d →
  runs (read_planner x) v d (λ r v' d', cam_ok m size v' d' ∧ i32VidFrame v' = i32VidFrame v ∧ (∀ i, with_driver d' i = with_driver d i) ∧
    picture_at m size (i32VidFrame v) (Some r.1)).
Proof.
  intros Hc. unfold read_planner. apply runs_seq, runs_get, runs_seq, runs_io. apply (cam_ok_io (r_GCAPTIME (i32VidFD v) (i32VidFrame v))) in Hc.
  set (d' := (dev _ (r_GCAPTIME (i32VidFD v) (i32VidFrame v)) d).2) in *. pose proof (planner_address (i32VidFD v) (i32VidFrame v) d) as Hp.
  destruct (dev _ (r_GCAPTIME (i32VidFD v) (i32VidFrame v)) d).1 as [[sec usec] ptr].
  apply runs_seq, runs_upd, runs_seq. pose proof Hc as (_ & _ & Hm & Hi & Hs). eapply runs_mono; [eapply (buffer_at_runs _ (set_prevts _ v)); [exact Hc|lia]|].
  intros a v' d2 (-> & -> & ->). apply runs_ret. cbn [fst]. split_and!; [done|done|intros i; by apply others_keep|].
  by eexists _, (mem d').
Qed.

Lemma read_packet_runs t x v d m size : cam_ok m size v d →
  runs (read_packet (Some t) x) v d (λ r v' d', cam_ok m size v' d' ∧ i32VidFrame v' = i32VidFrame v ∧ (∀ i, with_driver d' i = with_driver d i) ∧
    (r.1 = ERR_V4L_SUCCESS → picture_at m size (mb_frames m + i32VidFrame v) (Some r.2))).
Proof.
  intros Hc. unfold read_packet, QueryV4LPacketInformation. apply runs_seq, runs_seq, runs_get, runs_seq, runs_io, runs_ret.
  apply (cam_ok_io (r_PACKET_INFO (i32VidFD v))) in Hc. pose proof Hc as (_ & Hm & Hfit & Hi & Hs).
  pose proof (packet_address (i32VidFD v) d) as Hp. destruct (dev _ (r_PACKET_INFO (i32VidFD v)) d).1 as [info|]; cbn [snd].
  - apply runs_seq, runs_lift, runs_seq, runs_get, runs_seq. rewrite Hm. eapply runs_mono; [eapply buffer_at_runs; [exact Hc|lia]|].
    intros a v' d2 (-> & -> & ->). apply runs_ret. split_and!; [done|done|intros i; by apply others_keep|]. intros _. eexists _, _. split_and!; [done|by apply Hp|done|done].
  - apply runs_ret. split_and!; [done|done|intros i; by apply others_keep|done].
Qed.

Lemma read_runs x y v d m size : cam_ok m size v d →
  runs (ReadV4LPictures (Some x) (Some y)) v d (λ r v' d', cam_ok m size v' d' ∧ i32VidFrame v' = i32VidFrame v ∧
    (r.1.1 = ERR_V4L_SUCCESS → with_driver d' (i32VidFrame v) = false ∧ picture_at m size (i32VidFrame v) r.1.2 ∧ picture_at m size (mb_frames m + i32VidFrame v) r.2)).
Proof.
  intros Hc. unfold ReadV4LPictures. apply runs_seq. eapply runs_mono; [by eapply sync_loop_runs|]. intros ok v' d1 (-> & Hc1 & Hown).
  destruct ok; cbn [negb]; [|by apply runs_ret]. specialize (Hown eq_refl). apply runs_seq, runs_seq. eapply runs_mono; [by apply read_planner_runs|].
  intros [x' t] v1 d2 (Hc2 & E2 & Hk2 & Hp2). apply runs_ret. cbn [fst snd] in *. apply runs_seq. eapply runs_mono; [by apply read_packet_runs|].
  intros [e y'] v2 d3 (Hc3 & E3 & Hk3 & Hp3). apply runs_ret. cbn [fst snd] in *. split_and!; [done|congruence|]. intros He. split_and!; [by rewrite Hk3, Hk2|done|].
  rewrite <- E2. by apply Hp3.
Qed.

Lemma trigger_runs v d m size : cam_ok m size v d →
  runs TriggerV4LNextFrame v d (λ e v' d', cam_ok m size v' d' ∧
    i32VidFrame v' = if e =? ERR_V4L_SUCCESS then (i32VidFrame v + 1) mod mb_frames m else i32VidFrame v).
Proof.
  intros Hc. unfold TriggerV4LNextFrame. apply runs_seq. eapply runs_mono; [by eapply sync_loop_runs|]. intros ok v' d1 (-> & Hc1 & _).
  destruct ok; cbn [negb]; [|by apply runs_ret]. apply runs_seq, runs_upd, runs_seq, runs_get, runs_seq, runs_io.
  destruct (dev _ _ d1).1; cbn [negb]; [|apply runs_ret; split; [by apply (cam_ok_io _ _ _ (set_mmap _ v))|done]].
  pose proof Hc1 as (Hb & Hm & Hfit & Hi & Hs). cbn [set_mmap i32VidFrame sVidMBufs]. rewrite Hm. unfold crem. rewrite (proj2 (Z.eqb_neq _ _)) by lia.
  apply runs_seq, runs_lift, runs_seq, runs_upd, runs_ret. cbn. rewrite Z.rem_mod_nonneg by lia. split; [|done]. unfold cam_ok. cbn.
  split_and!; try done; [apply Z.mod_pos_bound; lia|apply Z.mod_pos_bound; lia|by rewrite mem_keeps].
Qed.

(** The turns go round the buffers: each reads the next one unless the trigger failed. *)
Fixpoint in_turn (m : video_mbuf) (size : nat) (i : Z) (ts : list turn) : Prop :=
  match ts with
  | [] => True
  | t :: ts =>
      t_frame t = i ∧
      (t_read t = ERR_V4L_SUCCESS → t_ours t = true ∧ picture_at m size i (t_planner t) ∧ picture_at m size (mb_frames m + i) (t_packet t)) ∧
      in_turn m size (if decide (t_trigger t = Some ERR_V4L_SUCCESS) then (i + 1) mod mb_frames m else i) ts
  end.

Lemma turn_runs x y v d m size : cam_ok m size v d →
  runs (camera_turn with_driver x y) v d (λ t v' d', cam_ok m size v' d' ∧ in_turn m size (i32VidFrame v) [t] ∧
    i32VidFrame v' = if decide (t_trigger t = Some ERR_V4L_SUCCESS) then (i32VidFrame v + 1) mod mb_frames m else i32VidFrame v).
Proof.
  intros Hc. unfold camera_turn. apply runs_seq, runs_get, runs_seq. eapply runs_mono; [by apply read_runs|].
  intros [[e x'] y'] v1 d1 (Hc1 & E1 & Hp). cbn [fst snd] in Hp. destruct (Z.eqb_spec e ERR_V4L_SUCCESS) as [->|Hne]; cbn [negb].
  - destruct (Hp eq_refl) as (Hown & Hx & Hy). apply runs_seq. eexists _, v1, d1. split; [done|]. rewrite Hown. cbn [negb].
    apply runs_seq. eapply runs_mono; [by eapply trigger_runs|]. intros e v2 d2 (Hc2 & E2). apply runs_ret. cbn [in_turn t_frame t_read t_ours t_planner t_packet t_trigger].
    split_and!; try done. rewrite E2, E1. destruct (Z.eqb_spec e ERR_V4L_SUCCESS) as [->|He]; [by rewrite decide_True|]. rewrite decide_False; [done|congruence].
  - apply runs_ret. cbn [in_turn t_frame t_read t_ours t_planner t_packet t_trigger]. rewrite decide_False by done. done.
Qed.

Lemma turns_run n x y v d m size : cam_ok m size v d →
  runs (camera_turns n with_driver x y) v d (λ ts v' d', cam_ok m size v' d' ∧ length ts = n ∧ in_turn m size (i32VidFrame v) ts).
Proof.
  revert x y v d. induction n as [|n IH]; intros x y v d Hc; cbn [camera_turns]; [by apply runs_ret|].
  apply runs_seq. eapply runs_mono; [by apply turn_runs|]. intros t v1 d1 (Hc1 & (Hf & Hr & _) & E1). apply runs_seq.
  eapply runs_mono; [by apply IH|]. intros ts v2 d2 (Hc2 & Hl & Ht). apply runs_ret. rewrite E1 in Ht. cbn [length in_turn]. by rewrite Hl.
Qed.

(** *** Opening *)

Lemma init_mmap_runs fd w h c m v d : mbuf_fits m (length (mem d)) →
  runs (init_mmap fd w h c m) v d (λ e v' d', e = ERR_V4L_SUCCESS → cam_ok m (length (mem d)) v' d' ∧ i32VidFrame v' = 0).
Proof.
  intros Hm. unfold init_mmap. apply runs_seq, runs_upd, runs_seq, runs_io.
  set (d1 := (dev _ (r_mmap fd (mb_size m) true) d).2). assert (length (mem d1) = length (mem d)) as Hl1 by apply mem_keeps.
  apply runs_seq. apply runs_mono with (λ (_ : bool) v' d', v' = set_mbufs m v ∧ length (mem d') = length (mem d)).
  { destruct (dev _ (r_mmap fd (mb_size m) true) d).1; [by apply runs_ret|]. apply runs_io. split; [done|]. by rewrite mem_keeps. }
  intros ok v1 d2 (-> & Hl2). apply runs_seq, runs_upd. destruct ok; cbn [negb]; [|by apply runs_ret]. apply runs_seq, runs_upd.
  unfold crem. rewrite (proj2 (Z.eqb_neq _ _)) by (unfold mbuf_fits in Hm; lia). apply runs_seq, runs_lift, runs_seq, runs_upd, runs_seq, runs_get, runs_seq, runs_io.
  destruct (dev _ (r_MCAPTURE _ _) d2).1; cbn [negb]; [|by apply runs_ret]. apply runs_seq, runs_upd, runs_ret. intros _. unfold cam_ok. cbn.
  split_and!; try done; [unfold mbuf_fits in Hm; lia|by rewrite mem_keeps].
Qed.

Lemma init_steps_runs fd x v d :
  runs (init_steps fd x) v d (λ r v' d', r.1 = ERR_V4L_SUCCESS → ∃ m, cam_ok m (length (mem d)) v' d' ∧ i32VidFrame v' = 0).
Proof.
  unfold init_steps. apply runs_seq, runs_io. destruct (dev _ (r_GCAP fd) d).1 as [type|]; [|by apply runs_ret]. destruct (negb _); [by apply runs_ret|].
  apply runs_seq, runs_io, runs_seq, runs_io, runs_seq, runs_io. set (d4 := (dev _ (r_SPICT _ _ _) _).2).
  assert (length (mem d4) = length (mem d)) as Hl by (subst d4; by rewrite !mem_keeps). destruct (dev _ (r_SPICT _ _ _) _).1; cbn [negb]; [|by apply runs_ret].
  apply runs_seq, runs_io. destruct (mbuf_given fd d4) as (m & -> & Hm). apply runs_seq. eapply runs_mono.
  { apply init_mmap_runs. by rewrite mem_keeps. }
  intros e v' d' H. apply runs_ret. cbn [fst]. rewrite mem_keeps, Hl in H. intros He. exists m. by apply H.
Qed.

Lemma init_runs x y v d :
  runs (InitV4LDevice x y) v d (λ r v' d', r.1 = ERR_V4L_SUCCESS → ∃ m, cam_ok m (length (mem d)) v' d' ∧ i32VidFrame v' = 0).
Proof.
  unfold InitV4LDevice. apply runs_seq, runs_io. destruct (_ <? 0); [by apply runs_ret|]. apply runs_seq. eapply runs_mono; [apply init_steps_runs|].
  intros r v1 d1 H. destruct (Z.eqb_spec r.1 ERR_V4L_SUCCESS) as [He|He]; cbn [negb].
  - destruct (H He) as (m & Hc & E0). rewrite mem_keeps in Hc. apply runs_seq, runs_upd, runs_seq. unfold SetPacketPipeWindow. apply runs_seq, runs_get.
    destruct (_ <? 0).
    + apply runs_ret, runs_ret. intros _. by exists m.
    + apply runs_seq, runs_io, runs_ret, runs_ret. intros _. exists m. split; [|done]. by apply cam_ok_io.
  - apply runs_seq, runs_io, runs_ret. done.
Qed.

Lemma start_runs v d m size : cam_ok m size v d → i32VidFrame v = 0 →
  runs StartV4LCapture v d (λ _ v' d', cam_ok m size v' d' ∧ i32VidFrame v' = 0).
Proof.
  intros Hc E0. unfold StartV4LCapture. apply runs_seq, runs_get, runs_seq, runs_io. destruct (dev _ (r_CAPTURE _ _) d).1; cbn [negb].
  - apply runs_seq, runs_upd, runs_ret. split; [|done]. apply cam_ok_io. destruct Hc as (? & ? & Hf & ? & ?). pose proof (proj1 Hf). unfold cam_ok. cbn. split_and!; (done || lia).
  - apply runs_ret. split; [by apply cam_ok_io|done].
Qed.

(** ** Properties *)

(** C24: Opening a camera whose driver shares its buffers, and any number of turns of the encoder's
    loop, always returns, and never uses a pointer or an offset outside the shared memory.
    When opening succeeds, the turns go round the buffers, a failed trigger repeating one:
    whenever the pictures are read with success, they are those of the buffer whose turn
    it is, the planar one and the packed one behind all planar ones, and at that moment the
    driver does not write to it. *)
Theorem pictures_in_turn n planner packet v d :
  runs (capture n with_driver planner packet) v d (λ r _ _, r.1 = ERR_V4L_SUCCESS →
    ∃ m, mbuf_fits m (length (mem d)) ∧ length r.2 = n ∧ in_turn m (length (mem d)) 0 r.2).
Proof.
  unfold capture. apply runs_seq. eapply runs_mono; [apply init_runs|]. intros [e x] v1 d1 H. cbn [fst snd] in *.
  destruct (Z.eqb_spec e ERR_V4L_SUCCESS) as [He|He]; cbn [negb]; [|by apply runs_ret]. destruct (H He) as (m & Hc & E0). apply runs_seq.
  eapply runs_mono; [by apply start_runs|].
  intros _ v2 d2 (Hc2 & E2). apply runs_seq. eapply runs_mono; [by apply turns_run|]. intros ts v3 d3 (_ & Hl & Ht). apply runs_ret. intros _.
  exists m. rewrite E2 in Ht. destruct Hc2 as (_ & _ & Hf & _). done.
Qed.

End camera.

(** A driver with two buffers for each pipe in a memory of 64 bytes.  Its state is the buffers
    that are with it; a frame is always there. *)
Definition w_mbuf : video_mbuf := MkMbuf 64 2 ([0; 16; 32; 48] ++ replicate 28 0).

#[export] Instance w_driver : driver (list Z) := MkDriver (list Z)
  (λ A r d,
     match r in request A return A * list Z with
     | r_open => (3, d) | r_close _ => (tt, d) | r_GCAP _ => (Some 1, d) | r_CROPCAP _ => (Some (640, 480), d) | r_GPICT _ => (tt, d)
     | r_SPICT _ _ _ => (true, d) | r_GMBUF _ => (Some w_mbuf, d) | r_SWIN _ _ => (true, d) | r_CAPTURE _ _ => (true, d)
     | r_mmap _ _ _ => (true, d) | r_munmap _ => (tt, d) | r_MCAPTURE _ m => (true, mm_frame m :: d)
     | r_SYNC _ i => ((0, 0), filter (λ x, x ≠ i) d) | r_GCAPTIME _ _ => ((1, 0, 4096), d)
     | r_PACKET_INFO _ => (Some (MkPipe 2 16 8192 0), d) | r_PLANAR_INFO _ => (None, d) | r_SPREVIEW _ _ => (true, d)
     | r_QUERYCTRL _ _ => ((-1, EINVAL, no_ctrl), d) | r_S_CTRL _ _ _ => (true, d) | r_G_CTRL _ _ => (None, d) | r_G_CROP _ => (None, d)
     | r_SENSOR_ID _ => (None, d) | r_usleep _ => (tt, d)
     end) (λ _, replicate 64 7).

#[export] Instance w_camera : camera (list Z).
Proof.
  refine (MkCamera (list Z) w_driver (λ d i, bool_decide (i ∈ d)) _ _ _ _ _ _ _).
  - intros fd i d. cbn. lia.
  - intros fd i d _. cbn. apply bool_decide_eq_false. rewrite list_elem_of_filter. naive_solver.
  - intros A r d i. destruct r; done.
  - intros A r d. destruct r; done.
  - done.
  - intros fd d info. cbn. by intros [= <-].
  - intros fd d. exists w_mbuf. split; [done|]. unfold mbuf_fits. cbn. split_and!; [done|done|]. repeat constructor; lia.
Defined.

Lemma pictures_in_turn_witness :
  runs (capture 3 with_driver w_video w_video) vid_start [] (λ r _ _, map t_frame r.2 = [0; 1; 0] ∧ map t_ours r.2 = [true; true; true]).
Proof.
  destruct (pictures_in_turn 3 w_video w_video vid_start []) as (r & v & d & E & _). exists r, v, d. split; [exact E|].
  vm_compute in E. injection E as <- <- <-. done.
Defined.
