(* ===== verification/Oss.v ===== *)
(** * The sound device ([OSS.c])

    The recorder takes what the driver of the microphone has and hands it on in frames of a
    fixed size.  Its buffers are arrays of bytes with a length each; when the clock says that
    sound was lost, silence is put between what came before and what comes after.  The clock
    is computed with numbers of type [double], for which the model has the operations of
    IEEE 754. *)

From Stdlib Require Import SpecFloat.
From S2P Require Import Prelude Pixels.

Local Open Scope Z_scope.
Local Open Scope c_scope.

(** ** Numbers of type [double] *)

Definition to_double (z : Z) : spec_float := binary_normalize 53 1024 z 0 false.
Definition div_double (x y : spec_float) : spec_float := SFdiv 53 1024 x y.

(** The conversion to an unsigned integer of [bits] bits; what is not in its range has no
    defined result. *)
Definition of_double (bits : Z) (x : spec_float) : outcome Z :=
  match x with
  | S754_zero _ => Ok 0
  | S754_finite s m e =>
      let v := if 0 <=? e then Zpos m * 2 ^ e else Zpos m / 2 ^ (- e) in
      if s && negb (v =? 0) then Undef else if v <? 2 ^ bits then Ok v else Undef
  | _ => Undef
  end.

(** ** Data *)

Definition REC_BLOCK_SIZE : Z := 8192.
Definition REC_TEMP_BUF_BLOCK : Z := 2.
Definition OSS_ERR : Z := 0x80000000.
Definition ERR_OSS_NONE : Z := 0.
Definition ERR_OSS_MALLOC : Z := OSS_ERR .| 0x02.
Definition ERR_OSS_CTX : Z := OSS_ERR .| 0x03.
Definition ERR_OSS_DEV : Z := OSS_ERR .| 0x04.
Definition ERR_OSS_IO : Z := OSS_ERR .| 0x04.
Definition ERR_OSS_NOT_READY : Z := OSS_ERR .| 0x04.

(** The state of the recorder; a buffer is [None] for [NULL]. *)
Record S_OSS_REC_DATA := MkRec {
  i32RecFD : Z;
  u64FirstTimeStamp : Z; u64NextTimeStamp : Z;
  u32DrvFrameSize : Z;
  i32PrevFrames : Z; i32OutPrevFrames : Z;
  pu8RecvAudBuf : option (list Z);
  pu8PreAudTempBuf : option (list Z); u32PreAudTempBufSize : Z; u32PreAudLenInBuf : Z;
  pu8PostAudTempBuf : option (list Z); u32PostAudTempBufSize : Z; u32PostAudLenInBuf : Z;
  u32ZeroAudLenInBuf : Z;
  u32OutFrameSize : Z;
  s_i32RecRefCnt : Z }.

(** The caller's description of the sound; [pDataVAddr] is the memory at that address. *)
Record S_NM_AUDIOCTX := MkAudio {
  a_pDataVAddr : list Z;
  a_u32DataSize : Z; a_u32DataLimit : Z; a_u64DataTime : Z;
  u32ChannelNum : Z; u32SampleNum : Z; u32SampleRate : Z }.

(** *** Assignments to fields *)

Definition set_pre (buf : list Z) (n : Z) (s : S_OSS_REC_DATA) : S_OSS_REC_DATA :=
  MkRec (i32RecFD s) (u64FirstTimeStamp s) (u64NextTimeStamp s) (u32DrvFrameSize s) (i32PrevFrames s) (i32OutPrevFrames s) (pu8RecvAudBuf s)
    (Some buf) (u32PreAudTempBufSize s) n (pu8PostAudTempBuf s) (u32PostAudTempBufSize s) (u32PostAudLenInBuf s) (u32ZeroAudLenInBuf s)
    (u32OutFrameSize s) (s_i32RecRefCnt s).
Definition set_post (buf : list Z) (n : Z) (s : S_OSS_REC_DATA) : S_OSS_REC_DATA :=
  MkRec (i32RecFD s) (u64FirstTimeStamp s) (u64NextTimeStamp s) (u32DrvFrameSize s) (i32PrevFrames s) (i32OutPrevFrames s) (pu8RecvAudBuf s)
    (pu8PreAudTempBuf s) (u32PreAudTempBufSize s) (u32PreAudLenInBuf s) (Some buf) (u32PostAudTempBufSize s) n (u32ZeroAudLenInBuf s)
    (u32OutFrameSize s) (s_i32RecRefCnt s).
Definition set_zero (n : Z) (s : S_OSS_REC_DATA) : S_OSS_REC_DATA :=
  MkRec (i32RecFD s) (u64FirstTimeStamp s) (u64NextTimeStamp s) (u32DrvFrameSize s) (i32PrevFrames s) (i32OutPrevFrames s) (pu8RecvAudBuf s)
    (pu8PreAudTempBuf s) (u32PreAudTempBufSize s) (u32PreAudLenInBuf s) (pu8PostAudTempBuf s) (u32PostAudTempBufSize s) (u32PostAudLenInBuf s) n
    (u32OutFrameSize s) (s_i32RecRefCnt s).
Definition set_prev (f : Z) (s : S_OSS_REC_DATA) : S_OSS_REC_DATA :=
  MkRec (i32RecFD s) (u64FirstTimeStamp s) (u64NextTimeStamp s) (u32DrvFrameSize s) f (i32OutPrevFrames s) (pu8RecvAudBuf s)
    (pu8PreAudTempBuf s) (u32PreAudTempBufSize s) (u32PreAudLenInBuf s) (pu8PostAudTempBuf s) (u32PostAudTempBufSize s) (u32PostAudLenInBuf s)
    (u32ZeroAudLenInBuf s) (u32OutFrameSize s) (s_i32RecRefCnt s).
Definition set_out_prev (f : Z) (s : S_OSS_REC_DATA) : S_OSS_REC_DATA :=
  MkRec (i32RecFD s) (u64FirstTimeStamp s) (u64NextTimeStamp s) (u32DrvFrameSize s) (i32PrevFrames s) f (pu8RecvAudBuf s)
    (pu8PreAudTempBuf s) (u32PreAudTempBufSize s) (u32PreAudLenInBuf s) (pu8PostAudTempBuf s) (u32PostAudTempBufSize s) (u32PostAudLenInBuf s)
    (u32ZeroAudLenInBuf s) (u32OutFrameSize s) (s_i32RecRefCnt s).
Definition set_first (ts : Z) (s : S_OSS_REC_DATA) : S_OSS_REC_DATA :=
  MkRec (i32RecFD s) ts ts (u32DrvFrameSize s) (i32PrevFrames s) (i32OutPrevFrames s) (pu8RecvAudBuf s)
    (pu8PreAudTempBuf s) (u32PreAudTempBufSize s) (u32PreAudLenInBuf s) (pu8PostAudTempBuf s) (u32PostAudTempBufSize s) (u32PostAudLenInBuf s)
    (u32ZeroAudLenInBuf s) (u32OutFrameSize s) (s_i32RecRefCnt s).
Definition set_recv (buf : option (list Z)) (s : S_OSS_REC_DATA) : S_OSS_REC_DATA :=
  MkRec (i32RecFD s) (u64FirstTimeStamp s) (u64NextTimeStamp s) (u32DrvFrameSize s) (i32PrevFrames s) (i32OutPrevFrames s) buf
    (pu8PreAudTempBuf s) (u32PreAudTempBufSize s) (u32PreAudLenInBuf s) (pu8PostAudTempBuf s) (u32PostAudTempBufSize s) (u32PostAudLenInBuf s)
    (u32ZeroAudLenInBuf s) (u32OutFrameSize s) (s_i32RecRefCnt s).

(** ** The buffers *)

(** The memory behind a pointer that may be [NULL]. *)
Definition memory (p : option (list Z)) : outcome (list Z) := match p with Some m => Ok m | None => Undef end.

(** [memcpy] inside one object: the two parts may not overlap. *)
Definition memcpy_within (m : list Z) (d s n : Z) : outcome (list Z) :=
  if (0 <? n) && (Z.abs (s - d) <? n) then Undef else memcpy m d m s n.

Definition PutAudioToBuf (pu8AudData : list Z) (u32DataLen : Z) (s : S_OSS_REC_DATA) : outcome S_OSS_REC_DATA :=
  if truth (u32ZeroAudLenInBuf s) then
    b ← memory (pu8PostAudTempBuf s);
    b ← memcpy b (u32PostAudLenInBuf s) pu8AudData 0 u32DataLen;
    Ok (set_post b (u32 (u32PostAudLenInBuf s + u32DataLen)) s)
  else
    b ← memory (pu8PreAudTempBuf s);
    b ← memcpy b (u32PreAudLenInBuf s) pu8AudData 0 u32DataLen;
    Ok (set_pre b (u32 (u32PreAudLenInBuf s + u32DataLen)) s).

(** Where the next bytes come from. *)
Inductive part := Pre | Zero | Post.

Definition next_part (s : S_OSS_REC_DATA) : part :=
  if truth (u32PreAudLenInBuf s) then
    if (u32ZeroAudLenInBuf s =? 0) && truth (u32PostAudLenInBuf s) then Post else Pre
  else if truth (u32ZeroAudLenInBuf s) then Zero else Post.

Definition part_len (p : part) (s : S_OSS_REC_DATA) : Z :=
  match p with Pre => u32PreAudLenInBuf s | Zero => u32ZeroAudLenInBuf s | Post => u32PostAudLenInBuf s end.

(** [u32CopyLen] bytes from the head of a buffer of [len] bytes; the rest moves up. *)
Definition take_head (aud : list Z) (geted : Z) (buf : option (list Z)) (len u32CopyLen : Z) : outcome (list Z * list Z * Z) :=
  b ← memory buf;
  aud ← memcpy aud geted b 0 u32CopyLen;
  let rest := len - u32CopyLen in
  b ← (if truth rest then memcpy_within b 0 u32CopyLen rest else Ok b);
  Ok (aud, b, rest).

(** The loop of [GetAudioFromBuf]. *)
Fixpoint get_bytes (fuel : nat) (u32DataLen u32GetedLen : Z) (aud : list Z) (s : S_OSS_REC_DATA) : outcome (list Z * S_OSS_REC_DATA) :=
  if u32GetedLen <? u32DataLen then
    match fuel with
    | O => Diverge
    | S fuel =>
        let p := next_part s in
        let u32CopyLen := Z.min (u32DataLen - u32GetedLen) (part_len p s) in
        '(aud, s) ← match p with
                    | Pre => '(aud, b, n) ← take_head aud u32GetedLen (pu8PreAudTempBuf s) (part_len p s) u32CopyLen; Ok (aud, set_pre b n s)
                    | Post => '(aud, b, n) ← take_head aud u32GetedLen (pu8PostAudTempBuf s) (part_len p s) u32CopyLen; Ok (aud, set_post b n s)
                    | Zero => aud ← memcpy aud u32GetedLen (replicate (Z.to_nat u32CopyLen) 0) 0 u32CopyLen;
                              Ok (aud, set_zero (part_len p s - u32CopyLen) s)
                    end;
        get_bytes fuel u32DataLen (u32GetedLen + u32CopyLen) aud s
    end
  else Ok (aud, s).

Definition total (s : S_OSS_REC_DATA) : Z := u32 (u32PreAudLenInBuf s + u32ZeroAudLenInBuf s + u32PostAudLenInBuf s).

(** ** The clock *)

Definition bits_per_second (u32SampleRate u32Channels : Z) : Z := i32 (u32 (u32SampleRate * 16 * u32Channels)).

(** The time at which [bytes] bytes that end now began. *)
Definition began (now bytes u32SampleRate u32Channels : Z) : outcome Z :=
  d ← of_double 64 (div_double (to_double (bytes / 2 * 1000)) (to_double (u32 (u32SampleRate * u32Channels))));
  Ok (u64 (now - d)).

(** The number of the frame of [size] bytes at a time. *)
Definition frame_no (since size i32bps : Z) : outcome Z :=
  of_double 32 (div_double (to_double since) (div_double (to_double (u32 (size * 1000))) (to_double (Z.quot i32bps 8)))).

(** The time stamp of a frame, and the number of frames afterwards. *)
Definition out_stamp (first cur size prev i32bps : Z) : outcome (Z * Z) :=
  let cur := if cur <? first then first else cur in
  f ← frame_no (u64 (cur - first)) size i32bps;
  let f := if f =? u32 prev then u32 (prev + 1) else f in
  let f := if f <? u32 (prev + 1) then u32 (prev + 1) else f in
  if u32 (Z.quot i32bps 8) =? 0 then Undef else
  Ok (u64 (first + u32 (f * (u32 (size * 1000) / u32 (Z.quot i32bps 8)))), i32 f).

Definition GetAudioFromBuf (pu8AudData : list Z) (u32DataLen u32Channels u32SampleRate now : Z) (s : S_OSS_REC_DATA)
    : outcome (option (list Z * Z) * S_OSS_REC_DATA) :=
  if total s <? u32DataLen then Ok (None, s) else
  cur ← began now (total s) u32SampleRate u32Channels;
  '(aud, s) ← get_bytes (S (Z.to_nat u32DataLen)) u32DataLen 0 pu8AudData s;
  '(ts, f) ← out_stamp (u64FirstTimeStamp s) cur (u32OutFrameSize s) (i32OutPrevFrames s) (bits_per_second u32SampleRate u32Channels);
  Ok (Some (aud, ts), set_out_prev f s).

(** ** Reading *)

(** What the system says during a call of [OSS_RecRead]: the kernel is 2.6.17.14, the bytes
    the driver has, the result of [read] with what was read, and the times of two clock
    readings. *)
Record rec_input := MkInput { in_old_kernel : bool; in_bytes : Z; in_ret : Z; in_data : list Z; in_now : Z; in_now' : Z }.

(** [get_audio:]. *)
Definition get_audio (i : rec_input) (ctx : S_NM_AUDIOCTX) (s : S_OSS_REC_DATA) : outcome (Z * S_NM_AUDIOCTX * S_OSS_REC_DATA) :=
  '(r, s) ← GetAudioFromBuf (a_pDataVAddr ctx) (u32OutFrameSize s) (u32ChannelNum ctx) (u32SampleRate ctx) (in_now' i) s;
  match r with
  | None => Ok (ERR_OSS_NOT_READY, ctx, s)
  | Some (aud, ts) =>
      Ok (ERR_OSS_NONE, MkAudio aud (u32OutFrameSize s) (a_u32DataLimit ctx) ts (u32ChannelNum ctx) (u32SampleNum ctx) (u32SampleRate ctx), s)
  end.

(** A block whose frame has number [f] is put into a buffer, after silence for the frames that
    are missing, or dropped when it is late or when there is sound after silence already. *)
Definition place_audio (i : rec_input) (f : Z) (s : S_OSS_REC_DATA) : outcome S_OSS_REC_DATA :=
  let prev := i32PrevFrames s in
  let f := if f =? prev then prev + 1 else f in
  if prev + 1 <=? f then
    if (1 <? f - prev) && truth (u32PostAudLenInBuf s) then Ok (set_prev f s) else
    let s := if 1 <? f - prev then set_zero (u32 ((f - (prev - 1)) * u32DrvFrameSize s)) s else s in
    b ← memory (pu8RecvAudBuf s);
    PutAudioToBuf b (in_ret i) (set_prev f s)
  else Ok s.

(** What is done with the bytes that were read. *)
Definition store_audio (i : rec_input) (ctx : S_NM_AUDIOCTX) (s : S_OSS_REC_DATA) : outcome S_OSS_REC_DATA :=
  cur ← began (in_now i) (in_ret i) (u32SampleRate ctx) (u32ChannelNum ctx);
  let s := if u64FirstTimeStamp s =? 0 then set_first cur s else s in
  f ← frame_no (u64 (cur - u64FirstTimeStamp s)) (u32DrvFrameSize s) (bits_per_second (u32SampleRate ctx) (u32ChannelNum ctx));
  place_audio i (i32 f) s.

Definition OSS_RecRead (i : rec_input) (ctx : S_NM_AUDIOCTX) (s : S_OSS_REC_DATA) : outcome (Z * S_NM_AUDIOCTX * S_OSS_REC_DATA) :=
  let ctx := MkAudio (a_pDataVAddr ctx) 0 (a_u32DataLimit ctx) (a_u64DataTime ctx) (u32ChannelNum ctx) (u32SampleNum ctx) (u32SampleRate ctx) in
  if i32RecFD s <? 0 then Ok (ERR_OSS_DEV, ctx, s) else
  if negb (in_old_kernel i) && (u32 (in_bytes i) <? u32DrvFrameSize s) then Ok (ERR_OSS_IO, ctx, s) else
  b ← memory (pu8RecvAudBuf s);
  b ← (if 0 <? in_ret i then memcpy b 0 (in_data i) 0 (in_ret i) else Ok b);
  let s := set_recv (Some b) s in
  if in_ret i =? 0 then Ok (ERR_OSS_IO, ctx, s) else
  if in_ret i <? 0 then
    if total s <? u32OutFrameSize s then Ok (ERR_OSS_NOT_READY, ctx, s) else get_audio i ctx s
  else
    s ← store_audio i ctx s;
    get_audio i ctx s.

(** ** Opening and closing *)

(** What the system says during [OSS_RecOpen]: the descriptor, the block size, the number of
    channels and the rate the driver agrees to, and the three blocks of memory. *)
Record open_input := MkOpen {
  op_fd : Z; op_blksize : option Z; op_channels : option Z; op_speed : option Z;
  op_recv : Z → option (list Z); op_pre : Z → option (list Z); op_post : Z → option (list Z) }.

(** The caller is told the size of a frame. *)
Definition tell_size (s : S_OSS_REC_DATA) (ctx : S_NM_AUDIOCTX) : outcome S_NM_AUDIOCTX :=
  let n := u32OutFrameSize s in
  if u32ChannelNum ctx =? 0 then Undef else
  Ok (MkAudio (a_pDataVAddr ctx) n n (a_u64DataTime ctx) (u32ChannelNum ctx) (n / u32ChannelNum ctx / 2) (u32SampleRate ctx)).

Definition add_ref (s : S_OSS_REC_DATA) : S_OSS_REC_DATA :=
  MkRec (i32RecFD s) (u64FirstTimeStamp s) (u64NextTimeStamp s) (u32DrvFrameSize s) (i32PrevFrames s) (i32OutPrevFrames s) (pu8RecvAudBuf s)
    (pu8PreAudTempBuf s) (u32PreAudTempBufSize s) (u32PreAudLenInBuf s) (pu8PostAudTempBuf s) (u32PostAudTempBufSize s) (u32PostAudLenInBuf s)
    (u32ZeroAudLenInBuf s) (u32OutFrameSize s) (s_i32RecRefCnt s + 1).

Definition OSS_RecOpen (o : open_input) (psCtx : option S_NM_AUDIOCTX) (s : S_OSS_REC_DATA) : outcome (Z * option S_NM_AUDIOCTX * S_OSS_REC_DATA) :=
  match psCtx with
  | None => Ok (ERR_OSS_CTX, None, s)
  | Some ctx =>
      if 0 <? i32RecFD s then ctx ← tell_size s ctx; Ok (ERR_OSS_NONE, Some ctx, add_ref s) else
      if op_fd o <? 0 then Ok (ERR_OSS_DEV, Some ctx, s) else
      let drv := match op_blksize o with Some n => u32 n | None => REC_BLOCK_SIZE end in
      let upd out recv pre presize s :=
        MkRec (i32RecFD s) (u64FirstTimeStamp s) (u64NextTimeStamp s) drv (i32PrevFrames s) (i32OutPrevFrames s) recv
          pre presize (u32PreAudLenInBuf s) (pu8PostAudTempBuf s) (u32PostAudTempBufSize s) (u32PostAudLenInBuf s)
          (u32ZeroAudLenInBuf s) out (s_i32RecRefCnt s) in
      let s := upd (u32OutFrameSize s) (pu8RecvAudBuf s) (pu8PreAudTempBuf s) (u32PreAudTempBufSize s) s in
      match op_channels o with
      | None => Ok (ERR_OSS_CTX, Some ctx, s)
      | Some ch =>
          let ctx := MkAudio (a_pDataVAddr ctx) (a_u32DataSize ctx) (a_u32DataLimit ctx) (a_u64DataTime ctx) ch (u32SampleNum ctx) (u32SampleRate ctx) in
          match op_speed o with
          | None => Ok (ERR_OSS_CTX, Some ctx, s)
          | Some rate =>
              let ctx := MkAudio (a_pDataVAddr ctx) (a_u32DataSize ctx) (a_u32DataLimit ctx) (a_u64DataTime ctx) ch (u32SampleNum ctx) rate in
              match op_recv o drv with
              | None => Ok (ERR_OSS_MALLOC, Some ctx, upd rate None (pu8PreAudTempBuf s) (u32PreAudTempBufSize s) s)
              | Some recv =>
                  let size := u32 ((if drv <? rate then rate else drv) * REC_TEMP_BUF_BLOCK) in
                  match op_pre o size with
                  | None => Ok (ERR_OSS_MALLOC, Some ctx, upd rate None None (u32PreAudTempBufSize s) s)
                  | Some pre =>
                      match op_post o size with
                      | None =>
                          Ok (ERR_OSS_MALLOC, Some ctx,
                              MkRec (i32RecFD s) (u64FirstTimeStamp s) (u64NextTimeStamp s) drv (i32PrevFrames s) (i32OutPrevFrames s) None
                                None size 0 None (u32PostAudTempBufSize s) (u32PostAudLenInBuf s) (u32ZeroAudLenInBuf s) rate (s_i32RecRefCnt s))
                      | Some post =>
                          let s := MkRec (op_fd o) 0 (u64NextTimeStamp s) drv (-1) (-1) (Some recv) (Some pre) size 0 (Some post) size 0 0 rate
                                     (s_i32RecRefCnt s) in
                          ctx ← tell_size s ctx;
                          Ok (ERR_OSS_NONE, Some ctx, add_ref s)
                      end
                  end
              end
          end
      end
  end.

Definition OSS_RecSetFrameSize (u32FrameSize : Z) (s : S_OSS_REC_DATA) : S_OSS_REC_DATA :=
  MkRec (i32RecFD s) (u64FirstTimeStamp s) (u64NextTimeStamp s) (u32DrvFrameSize s) (i32PrevFrames s) (i32OutPrevFrames s) (pu8RecvAudBuf s)
    (pu8PreAudTempBuf s) (u32PreAudTempBufSize s) (u32PreAudLenInBuf s) (pu8PostAudTempBuf s) (u32PostAudTempBufSize s) (u32PostAudLenInBuf s)
    (u32ZeroAudLenInBuf s) u32FrameSize (s_i32RecRefCnt s).

Definition OSS_RecGetBlockSize (s : S_OSS_REC_DATA) : Z := u32DrvFrameSize s.

Definition OSS_RecClose (s : S_OSS_REC_DATA) : Z * S_OSS_REC_DATA :=
  if i32RecFD s <? 0 then (ERR_OSS_DEV, s) else
  let n := s_i32RecRefCnt s - 1 in
  let last := n =? 0 in
  (ERR_OSS_NONE,
   MkRec (if last then -1 else i32RecFD s) (u64FirstTimeStamp s) (u64NextTimeStamp s) (u32DrvFrameSize s) (i32PrevFrames s) (i32OutPrevFrames s)
     (if last then None else pu8RecvAudBuf s) (if last then None else pu8PreAudTempBuf s) (u32PreAudTempBufSize s) (u32PreAudLenInBuf s)
     (if last then None else pu8PostAudTempBuf s) (u32PostAudTempBufSize s) (u32PostAudLenInBuf s) (u32ZeroAudLenInBuf s) (u32OutFrameSize s)
     (Z.max 0 n)).

(** ** The recorder over time *)

(** The frames that a sequence of calls with one context hands out. *)
Fixpoint record_all (ins : list rec_input) (ctx : S_NM_AUDIOCTX) (s : S_OSS_REC_DATA) : outcome (list (list Z) * S_OSS_REC_DATA) :=
  match ins with
  | [] => Ok ([], s)
  | i :: ins =>
      '(e, ctx, s) ← OSS_RecRead i ctx s;
      '(frames, s) ← record_all ins ctx s;
      Ok (if e =? ERR_OSS_NONE then take (Z.to_nat (a_u32DataSize ctx)) (a_pDataVAddr ctx) :: frames else frames, s)
  end.

(** ** Theorems *)

(** *** A buffer with a queue at its head *)

Definition holds (m : option (list Z)) (size : Z) (q : list Z) : Prop :=
  ∃ b, m = Some b ∧ Z.of_nat (length b) = size ∧ take (length q) b = q ∧ Z.of_nat (length q) <= size.

Lemma holds_nil m size : (∃ b, m = Some b ∧ Z.of_nat (length b) = size) → holds m size [].
Proof. intros (b & -> & Hb). exists b. cbn. split_and!; (done || lia). Qed.

Lemma append_holds m size q src n :
  holds m size q → 0 <= n <= Z.of_nat (length src) → Z.of_nat (length q) + n <= size →
  returns (b ← memory m; memcpy b (Z.of_nat (length q)) src 0 n) (λ b, holds (Some b) size (q ++ take (Z.to_nat n) src)).
Proof.
  intros (b & -> & Hb & Hq & _) Hn Hs. cbn [memory]. rewrite bind_Ok, memcpy_Ok by lia. apply returns_Ok.
  change (Z.to_nat 0) with 0%nat. rewrite drop_0, Nat2Z.id. assert (length (take (Z.to_nat n) src) = Z.to_nat n) as Hl by (rewrite length_take; lia).
  eexists. split; [done|]. split; [rewrite splice_length; lia|]. rewrite length_app. split; [|lia].
  rewrite splice_take_all by lia. by rewrite Hq.
Qed.

Lemma take_head_ok m size q aud geted n :
  holds m size q → 0 <= n <= Z.of_nat (length q) → Z.of_nat (length q) - n <= n → 0 <= geted → geted + n <= Z.of_nat (length aud) →
  returns (take_head aud geted m (Z.of_nat (length q)) n) (λ '(aud', b, rest),
    aud' = splice (Z.to_nat geted) (take (Z.to_nat n) q) aud ∧ rest = Z.of_nat (length (drop (Z.to_nat n) q)) ∧
    holds (Some b) size (drop (Z.to_nat n) q)).
Proof.
  intros (b & -> & Hb & Hq & Hle) Hn Hhalf Hg Ha. unfold take_head. cbn [memory]. rewrite bind_Ok, memcpy_Ok, bind_Ok by lia.
  change (Z.to_nat 0) with 0%nat. rewrite drop_0.
  assert (take (Z.to_nat n) q = take (Z.to_nat n) b) as -> by (rewrite <- Hq at 1; rewrite take_take, Nat.min_l by lia; done).
  assert (drop (Z.to_nat n) q = take (length q - Z.to_nat n) (drop (Z.to_nat n) b)) as Edrop
    by (rewrite take_drop_commute; f_equal; replace (Z.to_nat n + (length q - Z.to_nat n))%nat with (length q) by lia; done).
  set (rest := Z.of_nat (length q) - n). assert (Z.to_nat rest = length (drop (Z.to_nat n) q)) as Hrest by (rewrite length_drop; lia).
  apply returns_bind with (P := λ b', holds (Some b') size (drop (Z.to_nat n) q)).
  - destruct (truth rest) eqn:Er.
    + unfold memcpy_within. destruct (Z.ltb_spec (Z.abs (n - 0)) rest); [lia|]. rewrite andb_false_r, memcpy_Ok by lia.
      apply returns_Ok. change (Z.to_nat 0) with 0%nat. eexists. split; [done|].
      assert (length (take (Z.to_nat rest) (drop (Z.to_nat n) b)) = Z.to_nat rest) as Hl by (rewrite length_take, length_drop; lia).
      split; [rewrite splice_length; lia|]. split; [|lia]. rewrite <- Hrest. rewrite <- Hl at 1.
      rewrite (splice_take_all 0 _ b : _ → take (length _) _ = _) by lia. rewrite take_0, app_nil_l, Edrop. f_equal. rewrite length_drop in Hrest. lia.
    + apply returns_Ok. assert (rest = 0) as E0 by (unfold truth in Er; destruct (Z.eqb_spec rest 0); done).
      exists b. split; [done|]. split; [done|]. rewrite <- Hrest, E0. cbn. split; [|lia]. symmetry. apply length_zero_iff_nil. lia.
  - intros b' Hb'. apply returns_Ok. split; [done|]. split; [lia|done].
Qed.

(** *** Sound without gaps *)

Section recorder.
(** The sizes of the buffers, of the driver's blocks and of the frames, and the caller's
    sample rate and channels. *)
Context (size drv out rate ch : Z).
Hypothesis Hdrv : 0 < drv <= out.
Hypothesis Hsize : out + drv <= size + 1 ∧ size < 2 ^ 31.

(** The recorder is open, has no silence and nothing after it, and [q] is waiting. *)
Definition calm (s : S_OSS_REC_DATA) (q : list Z) : Prop :=
  0 <= i32RecFD s ∧ u32DrvFrameSize s = drv ∧ u32OutFrameSize s = out ∧
  (∃ r, pu8RecvAudBuf s = Some r ∧ Z.of_nat (length r) = drv) ∧
  holds (pu8PreAudTempBuf s) size q ∧ u32PreAudLenInBuf s = Z.of_nat (length q) ∧
  holds (pu8PostAudTempBuf s) size [] ∧ u32PostAudLenInBuf s = 0 ∧ u32ZeroAudLenInBuf s = 0.

(** The caller's buffer has room for a frame. *)
Definition caller (ctx : S_NM_AUDIOCTX) : Prop :=
  Z.of_nat (length (a_pDataVAddr ctx)) = out ∧ u32SampleRate ctx = rate ∧ u32ChannelNum ctx = ch.

Definition first_of (s : S_OSS_REC_DATA) (cur : Z) : Z := if u64FirstTimeStamp s =? 0 then cur else u64FirstTimeStamp s.

(** The clock during a call: the computations are in the range of their types, and the frame
    that was read has number [f]; [tot] bytes are waiting when a frame is taken. *)
Definition clock (i : rec_input) (s : S_OSS_REC_DATA) (tot f : Z) : Prop :=
  ∃ cur n cur' r, began (in_now i) (in_ret i) rate ch = Ok cur ∧
    frame_no (u64 (cur - first_of s cur)) drv (bits_per_second rate ch) = Ok n ∧ f = i32 n ∧
    began (in_now' i) tot rate ch = Ok cur' ∧ out_stamp (first_of s cur) cur' out (i32OutPrevFrames s) (bits_per_second rate ch) = Ok r.

(** The driver has a block, and [read] gives [data]. *)
Definition reads (i : rec_input) (data : list Z) : Prop :=
  (in_old_kernel i = true ∨ drv <= u32 (in_bytes i)) ∧ in_data i = data ∧ in_ret i = Z.of_nat (length data) ∧ 0 < in_ret i <= drv.

Lemma get_bytes_done fuel n aud s : get_bytes fuel n n aud s = Ok (aud, s).
Proof. destruct fuel; cbn [get_bytes]; by rewrite Z.ltb_irrefl. Qed.

Lemma total_calm s q : calm s q → total s = Z.of_nat (length q).
Proof using Hsize.
  intros (_ & _ & _ & _ & (b & _ & Hb & _ & Hq) & Hl & _ & Hp & Hz). unfold total. rewrite Hl, Hp, Hz, u32_small; lia.
Qed.

(** A frame is taken. *)
Lemma get_calm i ctx s q cur' r :
  calm s q → caller ctx → out <= Z.of_nat (length q) < out + drv →
  began (in_now' i) (Z.of_nat (length q)) rate ch = Ok cur' →
  out_stamp (u64FirstTimeStamp s) cur' out (i32OutPrevFrames s) (bits_per_second rate ch) = Ok r →
  returns (get_audio i ctx s) (λ '(e, ctx', s'), e = ERR_OSS_NONE ∧ a_u32DataSize ctx' = out ∧ a_pDataVAddr ctx' = take (Z.to_nat out) q ∧
    caller ctx' ∧ calm s' (drop (Z.to_nat out) q) ∧ i32PrevFrames s' = i32PrevFrames s).
Proof using Hdrv Hsize.
  intros Hs (Ha & Hr & Hc) Hq Eb Eo. pose proof (total_calm s q Hs) as Ht. destruct Hs as (Hfd & Hd & Ho & Hrecv & Hpre & Hpl & Hpost & Hpol & Hz).
  unfold get_audio, GetAudioFromBuf. rewrite Ht, Ho, Hr, Hc, (proj2 (Z.ltb_ge _ _)), Eb, !bind_Ok by lia.
  cbn [get_bytes]. rewrite (proj2 (Z.ltb_lt _ _)) by lia.
  assert (next_part s = Pre) as -> by (unfold next_part, truth; rewrite Hpl, Hz, Hpol; destruct (Z.eqb_spec (Z.of_nat (length q)) 0); [lia|done]).
  cbn [part_len]. rewrite Hpl, Z.sub_0_r, Z.min_l by lia.
  destruct (take_head_ok _ _ _ (a_pDataVAddr ctx) 0 out Hpre) as ([[aud b] n] & -> & -> & -> & Hpre'); [lia..|]. rewrite !bind_Ok, Z.add_0_l, get_bytes_done, bind_Ok.
  cbn [u64FirstTimeStamp u32OutFrameSize i32OutPrevFrames set_pre]. rewrite Ho, Eo, bind_Ok. destruct r as [ts f]. rewrite bind_Ok. apply returns_Ok.
  cbn [u32OutFrameSize set_out_prev set_pre a_u32DataSize a_pDataVAddr]. rewrite Ho.
  assert (splice (Z.to_nat 0) (take (Z.to_nat out) q) (a_pDataVAddr ctx) = take (Z.to_nat out) q) as ->.
  { unfold splice. change (Z.to_nat 0) with 0%nat. cbn [take app]. rewrite length_take, drop_ge by lia. apply app_nil_r. }
  split; [done|]. split; [done|]. split; [done|]. split; [unfold caller; cbn; rewrite length_take; split_and!; (lia || done)|].
  split; [|done]. unfold calm. cbn. by split_and!.
Qed.

(** The bytes that were read, in the buffer for them. *)
Lemma read_block i ctx s data r :
  0 <= i32RecFD s → u32DrvFrameSize s = drv → pu8RecvAudBuf s = Some r → Z.of_nat (length r) = drv → reads i data →
  ∃ b, take (length data) b = data ∧ Z.of_nat (length b) = drv ∧
    let ctx0 := MkAudio (a_pDataVAddr ctx) 0 (a_u32DataLimit ctx) (a_u64DataTime ctx) (u32ChannelNum ctx) (u32SampleNum ctx) (u32SampleRate ctx) in
    OSS_RecRead i ctx s = (s' ← store_audio i ctx0 (set_recv (Some b) s); get_audio i ctx0 s').
Proof using Hdrv.
  intros Hfd Hd Hr Hl (Hk & Ed & Er & Hn). exists (splice 0 data r).
  split; [rewrite (splice_take_all 0 data r : _ → take (length _) _ = _) by lia; by rewrite take_0|].
  split; [rewrite splice_length; lia|]. cbv zeta. unfold OSS_RecRead. rewrite (proj2 (Z.ltb_ge (i32RecFD s) 0)) by lia.
  assert (negb (in_old_kernel i) && (u32 (in_bytes i) <? u32DrvFrameSize s) = false) as ->.
  { rewrite Hd. destruct Hk as [-> | Hk]; [done|]. rewrite (proj2 (Z.ltb_ge _ _)) by lia. apply andb_false_r. }
  rewrite Hr. cbn [memory]. rewrite bind_Ok, (proj2 (Z.ltb_lt 0 (in_ret i))), Ed, memcpy_Ok, bind_Ok by lia. change (Z.to_nat 0) with 0%nat.
  rewrite drop_0, take_ge by lia. rewrite (proj2 (Z.eqb_neq (in_ret i) 0)), (proj2 (Z.ltb_ge (in_ret i) 0)) by lia. done.
Qed.

(** The state in which a block is placed: the time of the first block is known. *)
Definition timed (s : S_OSS_REC_DATA) (b : list Z) (cur : Z) : S_OSS_REC_DATA :=
  let s := set_recv (Some b) s in if u64FirstTimeStamp s =? 0 then set_first cur s else s.

Lemma timed_same s b cur :
  let s1 := timed s b cur in
  u64FirstTimeStamp s1 = first_of s cur ∧ u32DrvFrameSize s1 = u32DrvFrameSize s ∧ i32PrevFrames s1 = i32PrevFrames s ∧
  pu8RecvAudBuf s1 = Some b ∧ u32ZeroAudLenInBuf s1 = u32ZeroAudLenInBuf s ∧ pu8PreAudTempBuf s1 = pu8PreAudTempBuf s ∧
  u32PreAudLenInBuf s1 = u32PreAudLenInBuf s ∧ pu8PostAudTempBuf s1 = pu8PostAudTempBuf s ∧ u32PostAudLenInBuf s1 = u32PostAudLenInBuf s ∧
  i32RecFD s1 = i32RecFD s ∧ u32OutFrameSize s1 = u32OutFrameSize s ∧ i32OutPrevFrames s1 = i32OutPrevFrames s.
Proof. unfold timed, first_of. cbn. destruct (_ =? _); by cbn. Qed.

Lemma store_placed i ctx s b tot f :
  caller ctx → clock i s tot f → u32DrvFrameSize s = drv →
  ∃ cur cur' r, store_audio i ctx (set_recv (Some b) s) = place_audio i f (timed s b cur) ∧
    began (in_now' i) tot rate ch = Ok cur' ∧ out_stamp (first_of s cur) cur' out (i32OutPrevFrames s) (bits_per_second rate ch) = Ok r.
Proof using Type.
  intros (_ & Hr & Hc) (cur & n & cur' & r & Eb & Ef & -> & Eb' & Eo) Hd. exists cur, cur', r. split; [|done].
  unfold store_audio. rewrite Hr, Hc, Eb, bind_Ok. fold (timed s b cur). destruct (timed_same s b cur) as (E1 & E2 & _).
  rewrite E1, E2, Hd, Ef, bind_Ok. done.
Qed.

(** A block that is on time is appended. *)
Lemma place_calm i s q data b cur f :
  calm s q → reads i data → f = i32PrevFrames s ∨ f = i32PrevFrames s + 1 →
  take (length data) b = data → Z.of_nat (length b) = drv → Z.of_nat (length q) < out →
  returns (place_audio i f (timed s b cur)) (λ s', calm s' (q ++ data) ∧ i32PrevFrames s' = i32PrevFrames s + 1 ∧
    i32OutPrevFrames s' = i32OutPrevFrames s ∧ u64FirstTimeStamp s' = first_of s cur).
Proof using Hdrv Hsize.
  intros (Hfd & Hd & Ho & Hrecv & Hpre & Hpl & Hpost & Hpol & Hz) (Hk & Ed & Er & Hn) Ht Htk Hb Hq.
  destruct (timed_same s b cur) as (E1 & F1 & F2 & F3 & F4 & F5 & F6 & F7 & F8 & F9 & F10 & F11). set (s1 := timed s b cur) in *. clearbody s1.
  unfold place_audio. rewrite F2.
  assert ((if f =? i32PrevFrames s then i32PrevFrames s + 1 else f) = i32PrevFrames s + 1) as ->
    by (destruct (Z.eqb_spec f (i32PrevFrames s)); lia).
  rewrite (proj2 (Z.leb_le _ _)) by lia. replace (1 <? i32PrevFrames s + 1 - i32PrevFrames s) with false by (symmetry; apply Z.ltb_ge; lia).
  cbn [andb]. rewrite F3. cbn [memory]. rewrite bind_Ok. unfold PutAudioToBuf. cbn [set_prev u32ZeroAudLenInBuf pu8PreAudTempBuf u32PreAudLenInBuf].
  rewrite F4, Hz, F5, F6, Hpl. cbn [truth Z.eqb negb]. rewrite <- bind_assoc.
  eapply returns_bind; [apply append_holds; [done|lia|lia]|]. intros b' Hb'. apply returns_Ok.
  rewrite Er, Nat2Z.id, Htk in Hb'. cbn. split; [|split_and!; congruence]. unfold calm. cbn.
  rewrite u32_small, length_app by lia. split_and!; first [congruence|lia|done|by exists b|by rewrite F7].
Qed.

(** One call of [OSS_RecRead] with a block on time. *)
Lemma read_calm i ctx s q data f :
  calm s q → Z.of_nat (length q) < out → caller ctx → reads i data →
  clock i s (Z.of_nat (length (q ++ data))) f → f = i32PrevFrames s ∨ f = i32PrevFrames s + 1 →
  returns (OSS_RecRead i ctx s) (λ '(e, ctx', s'), caller ctx' ∧
    (e = ERR_OSS_NOT_READY ∧ calm s' (q ++ data) ∧ Z.of_nat (length (q ++ data)) < out ∨
     e = ERR_OSS_NONE ∧ a_u32DataSize ctx' = out ∧ a_pDataVAddr ctx' = take (Z.to_nat out) (q ++ data) ∧ out <= Z.of_nat (length (q ++ data)) ∧
     calm s' (drop (Z.to_nat out) (q ++ data)) ∧ Z.of_nat (length (drop (Z.to_nat out) (q ++ data))) < out)).
Proof using Hdrv Hsize.
  intros Hs Hq Hc Hr Hck Ht. pose proof Hs as (Hfd & Hd & Ho & (r & Er & Hrl) & _).
  destruct (read_block i ctx s data r Hfd Hd Er Hrl Hr) as (b & Htk & Hb & ->). cbv zeta.
  set (ctx0 := MkAudio _ _ _ _ _ _ _). assert (caller ctx0) as Hc0 by exact Hc.
  destruct (store_placed i ctx0 s b _ f Hc0 Hck Hd) as (cur & cur' & res & -> & Eb & Eo).
  eapply returns_bind; [by apply (place_calm i s q data)|]. intros s' (Hs' & Hp' & Hop & Hf).
  assert (Z.of_nat (length data) <= drv) as Hdl by (destruct Hr as (_ & _ & ? & ?); lia). rewrite length_app in *.
  destruct (decide (Z.of_nat (length q + length data) < out)) as [Hlt|Hge].
  - unfold get_audio, GetAudioFromBuf. rewrite (total_calm s' _ Hs'), length_app. destruct Hs' as (? & ? & Ho' & ?). rewrite Ho', (proj2 (Z.ltb_lt _ _)) by lia.
    rewrite bind_Ok. apply returns_Ok. split; [done|]. left. done.
  - eapply returns_mono; [eapply (get_calm i ctx0 s' (q ++ data)); rewrite ?length_app, ?Hop, ?Hf; first [done|lia]|].
    intros [[e ctx'] s''] (-> & Hsz & Hdt & Hc' & Hs'' & _). split; [done|]. right. split_and!; try done; [lia|]. rewrite length_drop, length_app. lia.
Qed.

(** Blocks that the driver has in time. *)
Fixpoint timely (ins : list rec_input) (ctx : S_NM_AUDIOCTX) (s : S_OSS_REC_DATA) (q : list Z) : Prop :=
  match ins with
  | [] => True
  | i :: ins =>
      let q' := q ++ in_data i in
      reads i (in_data i) ∧ (∃ f, clock i s (Z.of_nat (length q')) f ∧ (f = i32PrevFrames s ∨ f = i32PrevFrames s + 1)) ∧
      ∀ e ctx' s', OSS_RecRead i ctx s = Ok (e, ctx', s') → timely ins ctx' s' (if Z.of_nat (length q') <? out then q' else drop (Z.to_nat out) q')
  end.

Lemma record_timely ins ctx s q :
  calm s q → Z.of_nat (length q) < out → caller ctx → timely ins ctx s q →
  returns (record_all ins ctx s) (λ '(frames, s'), ∃ q', calm s' q' ∧ Z.of_nat (length q') < out ∧
    concat frames ++ q' = q ++ concat (map in_data ins) ∧ Forall (λ f, Z.of_nat (length f) = out) frames).
Proof using Hdrv Hsize.
  revert ctx s q. induction ins as [|i ins IH]; intros ctx s q Hs Hq Hc Ht; cbn [record_all].
  - apply returns_Ok. exists q. cbn. by rewrite app_nil_r.
  - destruct Ht as (Hr & (f & Hck & Hf) & Hnext).
    destruct (read_calm i ctx s q (in_data i) f Hs Hq Hc Hr Hck Hf) as ([[e ctx'] s'] & E & Hc' & Hcase). rewrite E, bind_Ok. specialize (Hnext _ _ _ E).
    destruct Hcase as [(-> & Hs' & Hlt) | (-> & Esz & Edt & Hge & Hs' & Hlt)].
    + rewrite (proj2 (Z.ltb_lt _ _)) in Hnext by done. destruct (IH _ _ _ Hs' Hlt Hc' Hnext) as ([frames s''] & -> & q' & Hs'' & Hq' & Ecat & Hall).
      rewrite bind_Ok. apply returns_Ok. change (ERR_OSS_NOT_READY =? ERR_OSS_NONE) with false. exists q'. cbn [map concat]. split_and!; try done.
      by rewrite Ecat, app_assoc.
    + rewrite (proj2 (Z.ltb_ge _ _)) in Hnext by done. destruct (IH _ _ _ Hs' Hlt Hc' Hnext) as ([frames s''] & -> & q' & Hs'' & Hq' & Ecat & Hall).
      rewrite bind_Ok. apply returns_Ok. change (ERR_OSS_NONE =? ERR_OSS_NONE) with true. exists q'. rewrite Esz, Edt, take_take, Nat.min_id.
      split; [done|]. split; [done|]. cbn [map concat]. split; [|constructor; [rewrite length_take; lia|done]].
      rewrite <- app_assoc, Ecat, !app_assoc, take_drop. done.
Qed.

(** *** Silence for lost sound *)

(** The recorder has [z] bytes of silence and [p] after it. *)
Definition silent (s : S_OSS_REC_DATA) (z : Z) (p : list Z) : Prop :=
  0 <= i32RecFD s ∧ u32DrvFrameSize s = drv ∧ u32OutFrameSize s = out ∧
  (∃ r, pu8RecvAudBuf s = Some r ∧ Z.of_nat (length r) = drv) ∧ u32PreAudLenInBuf s = 0 ∧
  holds (pu8PostAudTempBuf s) size p ∧ u32PostAudLenInBuf s = Z.of_nat (length p) ∧ u32ZeroAudLenInBuf s = z.

(** A frame of silence is taken. *)
Lemma get_silent i ctx s z p cur' r :
  silent s z p → caller ctx → out <= z < 2 ^ 31 →
  began (in_now' i) (z + Z.of_nat (length p)) rate ch = Ok cur' →
  out_stamp (u64FirstTimeStamp s) cur' out (i32OutPrevFrames s) (bits_per_second rate ch) = Ok r →
  returns (get_audio i ctx s) (λ '(e, ctx', s'), e = ERR_OSS_NONE ∧ caller ctx' ∧ silent s' (z - out) p ∧ i32PrevFrames s' = i32PrevFrames s).
Proof using Hdrv Hsize.
  intros (Hfd & Hd & Ho & Hrecv & Hpl & Hpost & Hpol & Hz) (Ha & Hr & Hc) Hzo Eb Eo. assert (Z.of_nat (length p) <= size) as Hps by (destruct Hpost as (b & _ & _ & _ & ?); done).
  assert (total s = z + Z.of_nat (length p)) as Ht by (unfold total; rewrite Hpl, Hz, Hpol, u32_small; lia).
  unfold get_audio, GetAudioFromBuf. rewrite Ht, Ho, Hr, Hc, (proj2 (Z.ltb_ge _ _)), Eb, !bind_Ok by lia.
  cbn [get_bytes]. rewrite (proj2 (Z.ltb_lt _ _)) by lia.
  assert (next_part s = Zero) as -> by (unfold next_part, truth; rewrite Hpl, Hz; destruct (Z.eqb_spec z 0); [lia|done]).
  cbn [part_len]. rewrite Hz, Z.sub_0_r, Z.min_l by lia. rewrite memcpy_Ok by (rewrite ?length_replicate; lia).
  rewrite !bind_Ok, Z.add_0_l, get_bytes_done, bind_Ok. cbn [u64FirstTimeStamp u32OutFrameSize i32OutPrevFrames set_zero].
  rewrite Ho, Eo, bind_Ok. destruct r as [ts f]. rewrite bind_Ok. apply returns_Ok. split; [done|].
  split; [|split; [unfold silent; cbn; by split_and!|done]]. unfold caller. cbn. split_and!; [|done|done].
  rewrite splice_length; [done|]. rewrite length_take, length_drop, length_replicate. change (Z.to_nat 0) with 0%nat. lia.
Qed.

(** A block that is on time comes after the silence, if there is room. *)
Lemma place_silent i s z p data b cur f :
  silent s z p → 0 < z → reads i data → f = i32PrevFrames s ∨ f = i32PrevFrames s + 1 →
  take (length data) b = data → Z.of_nat (length b) = drv →
  (size < Z.of_nat (length p) + Z.of_nat (length data) → place_audio i f (timed s b cur) = Undef) ∧
  (Z.of_nat (length p) + Z.of_nat (length data) <= size →
    returns (place_audio i f (timed s b cur)) (λ s', silent s' z (p ++ data) ∧ i32PrevFrames s' = i32PrevFrames s + 1 ∧
      i32OutPrevFrames s' = i32OutPrevFrames s ∧ u64FirstTimeStamp s' = first_of s cur)).
Proof using Hdrv Hsize.
  intros (Hfd & Hd & Ho & Hrecv & Hpl & Hpost & Hpol & Hz) Hz0 (Hk & Ed & Er & Hn) Ht Htk Hb.
  destruct (timed_same s b cur) as (E1 & F1 & F2 & F3 & F4 & F5 & F6 & F7 & F8 & F9 & F10 & F11). set (s1 := timed s b cur) in *. clearbody s1.
  unfold place_audio. rewrite F2.
  assert ((if f =? i32PrevFrames s then i32PrevFrames s + 1 else f) = i32PrevFrames s + 1) as ->
    by (destruct (Z.eqb_spec f (i32PrevFrames s)); lia).
  rewrite (proj2 (Z.leb_le _ _)) by lia. replace (1 <? i32PrevFrames s + 1 - i32PrevFrames s) with false by (symmetry; apply Z.ltb_ge; lia).
  cbn [andb]. rewrite F3. cbn [memory]. rewrite bind_Ok. unfold PutAudioToBuf. cbn [set_prev u32ZeroAudLenInBuf pu8PostAudTempBuf u32PostAudLenInBuf].
  rewrite F4, Hz, F7, F8, Hpol. unfold truth. rewrite (proj2 (Z.eqb_neq z 0)) by lia. cbn [negb]. split; intros Hroom.
  - destruct Hpost as (pb & -> & Hpb & _). cbn [memory]. rewrite bind_Ok. unfold memcpy.
    replace (_ && _) with false; [done|]. symmetry. destruct (Z.leb_spec (Z.of_nat (length p) + in_ret i) (Z.of_nat (length pb))); [lia|].
    by rewrite andb_false_r.
  - rewrite <- bind_assoc. eapply returns_bind; [apply append_holds; [done|lia|lia]|]. intros b' Hb'. apply returns_Ok.
    rewrite Er, Nat2Z.id, Htk in Hb'. cbn. split; [|split_and!; congruence]. unfold silent. cbn.
    rewrite u32_small, length_app by lia. split_and!; first [congruence|lia|done|by exists b].
Qed.

(** A call with a block on time while there is silence. *)
Lemma read_silent i ctx s z p data f :
  silent s z p → out <= z < 2 ^ 31 → caller ctx → reads i data → Z.of_nat (length p) + Z.of_nat (length data) <= size →
  clock i s (z + Z.of_nat (length (p ++ data))) f → f = i32PrevFrames s ∨ f = i32PrevFrames s + 1 →
  returns (OSS_RecRead i ctx s) (λ '(e, ctx', s'), caller ctx' ∧ silent s' (z - out) (p ++ data)).
Proof using Hdrv Hsize.
  intros Hs Hz Hc Hr Hroom Hck Ht. pose proof Hs as (Hfd & Hd & Ho & (r & Er & Hrl) & _).
  destruct (read_block i ctx s data r Hfd Hd Er Hrl Hr) as (b & Htk & Hb & ->). cbv zeta.
  set (ctx0 := MkAudio _ _ _ _ _ _ _). assert (caller ctx0) as Hc0 by exact Hc.
  destruct (store_placed i ctx0 s b _ f Hc0 Hck Hd) as (cur & cur' & res & -> & Eb & Eo).
  eapply returns_bind; [by apply (place_silent i s z p data b cur f Hs ltac:(lia) Hr Ht Htk Hb)|]. intros s' (Hs' & Hp' & Hop & Hf).
  eapply returns_mono; [eapply (get_silent i ctx0 s' z (p ++ data)); rewrite ?Hop, ?Hf; done|].
  by intros [[e ctx'] s''] (_ & Hc' & Hs'' & _).
Qed.

Lemma read_silent_full i ctx s z p data tot f :
  silent s z p → 0 < z → caller ctx → reads i data → size < Z.of_nat (length p) + Z.of_nat (length data) →
  clock i s tot f → f = i32PrevFrames s ∨ f = i32PrevFrames s + 1 → OSS_RecRead i ctx s = Undef.
Proof using Hdrv Hsize.
  intros Hs Hz Hc Hr Hroom Hck Ht. pose proof Hs as (Hfd & Hd & Ho & (r & Er & Hrl) & _).
  destruct (read_block i ctx s data r Hfd Hd Er Hrl Hr) as (b & Htk & Hb & ->). cbv zeta.
  set (ctx0 := MkAudio _ _ _ _ _ _ _). assert (caller ctx0) as Hc0 by exact Hc.
  destruct (store_placed i ctx0 s b _ f Hc0 Hck Hd) as (cur & cur' & res & -> & _).
  destruct (place_silent i s z p data b cur f Hs ltac:(lia) Hr Ht Htk Hb) as [-> _]; done.
Qed.

(** A call with a block that comes [f - i32PrevFrames s - 1] frames late. *)
Lemma read_gap i ctx s data f :
  calm s [] → caller ctx → reads i data → i32PrevFrames s + 2 <= f → Z.of_nat (length data) <= size →
  let z := (f - (i32PrevFrames s - 1)) * drv in
  out <= z < 2 ^ 31 → clock i s (z + Z.of_nat (length data)) f →
  returns (OSS_RecRead i ctx s) (λ '(e, ctx', s'), caller ctx' ∧ silent s' (z - out) data).
Proof using Hdrv Hsize.
  intros Hs Hc Hr Hf Hroom z Hz Hck. pose proof Hs as (Hfd & Hd & Ho & (r & Er & Hrl) & _ & Hpl & Hpost & Hpol & _).
  destruct (read_block i ctx s data r Hfd Hd Er Hrl Hr) as (b & Htk & Hb & ->). cbv zeta.
  set (ctx0 := MkAudio _ _ _ _ _ _ _). assert (caller ctx0) as Hc0 by exact Hc.
  destruct (store_placed i ctx0 s b _ f Hc0 Hck Hd) as (cur & cur' & res & -> & Eb & Eo).
  destruct Hr as (Hk & Ed & Er' & Hn). change (Z.of_nat (length [])) with 0 in Hpl.
  destruct (timed_same s b cur) as (E1 & F1 & F2 & F3 & F4 & F5 & F6 & F7 & F8 & F9 & F10 & F11). set (s1 := timed s b cur) in *. clearbody s1.
  unfold place_audio. rewrite F2, (proj2 (Z.eqb_neq f _)), (proj2 (Z.leb_le _ f)) by lia.
  replace (1 <? f - i32PrevFrames s) with true by (symmetry; apply Z.ltb_lt; lia). rewrite F8, Hpol. cbn [truth Z.eqb negb andb].
  cbn [set_zero pu8RecvAudBuf]. rewrite F3. cbn [memory]. rewrite bind_Ok. unfold PutAudioToBuf.
  cbn [set_prev set_zero u32ZeroAudLenInBuf pu8PostAudTempBuf u32PostAudLenInBuf]. rewrite F1, Hd. fold z. rewrite (u32_small z) by lia.
  unfold truth. rewrite (proj2 (Z.eqb_neq z 0)) by lia. cbn [negb]. rewrite F7, F8, Hpol.
  eapply returns_bind.
  { rewrite <- bind_assoc. eapply returns_bind; [apply (append_holds _ size [] b); [done|lia|cbn; lia]|]. intros b' Hb'.
    apply (returns_Ok _ (λ s', silent s' z data ∧ i32OutPrevFrames s' = i32OutPrevFrames s ∧ u64FirstTimeStamp s' = first_of s cur)).
    rewrite Er', Nat2Z.id, Htk in Hb'. cbn in Hb'. split; [|split; cbn; congruence]. unfold silent. cbn.
    rewrite u32_small by lia. split_and!; first [congruence|lia|done|by exists b]. }
  intros s' (Hs' & Hop & Hf1). eapply returns_mono; [eapply (get_silent i ctx0 s' z data); rewrite ?Hop, ?Hf1; done|].
  by intros [[e ctx'] s''] (_ & Hc' & Hs'' & _).
Qed.
End recorder.

(** The recorder after [OSS_RecOpen] and [OSS_RecSetFrameSize]. *)
Lemma open_calm o ctx0 ctx1 s0 s out :
  OSS_RecOpen o (Some ctx0) s0 = Ok (ERR_OSS_NONE, Some ctx1, s) → i32RecFD s0 <= 0 →
  (∀ n b, 0 <= n → op_recv o n = Some b ∨ op_pre o n = Some b ∨ op_post o n = Some b → Z.of_nat (length b) = n) →
  Z.max (u32DrvFrameSize s) (u32SampleRate ctx1) < 2 ^ 30 → 0 <= u32DrvFrameSize s →
  calm (2 * Z.max (u32DrvFrameSize s) (u32SampleRate ctx1)) (u32DrvFrameSize s) out (OSS_RecSetFrameSize out s) [].
Proof.
  intros E Hcl Hm Hmax Hd. unfold OSS_RecOpen in E. rewrite (proj2 (Z.ltb_ge 0 _)) in E by done.
  destruct (Z.ltb_spec (op_fd o) 0); [done|]. destruct (op_channels o) as [chn|]; [|done]. destruct (op_speed o) as [rate|]; [|done].
  set (drv := match op_blksize o with Some n => u32 n | None => REC_BLOCK_SIZE end) in *.
  destruct (op_recv o drv) as [recv|] eqn:E1; [|done]. destruct (op_pre o _) as [pre|] eqn:E2; [|done]. destruct (op_post o _) as [post|] eqn:E3; [|done].
  unfold tell_size in E. cbn [u32ChannelNum] in E. destruct (chn =? 0); [done|]. rewrite bind_Ok in E. injection E as <- <-. cbn in *.
  assert (u32 ((if drv <? rate then rate else drv) * REC_TEMP_BUF_BLOCK) = 2 * Z.max drv rate) as Esz
    by (unfold REC_TEMP_BUF_BLOCK; destruct (Z.ltb_spec drv rate); rewrite u32_small; lia).
  rewrite Esz in *. unfold calm. cbn. split_and!; try done.
  - exists recv. split; [done|]. apply Hm; [lia|auto].
  - apply holds_nil. exists pre. split; [done|]. apply Hm; [lia|auto].
  - apply holds_nil. exists post. split; [done|]. apply Hm; [lia|auto].
Qed.

(** The recorder is a queue.  After a successful [OSS_RecOpen] with the driver's block not
    larger than the frames asked for, and as long as the clock shows no gap, every call of
    [OSS_RecRead] stays inside the buffers, the loop that takes a frame ends, and the frames
    handed out are the bytes that the driver delivered, in order and without loss: put one
    after the other they are all that was read up to a rest shorter than a frame. *)
Theorem recorder_fifo o ctx0 ctx1 ctx s0 s out ins :
  OSS_RecOpen o (Some ctx0) s0 = Ok (ERR_OSS_NONE, Some ctx1, s) → i32RecFD s0 <= 0 →
  (∀ n b, 0 <= n → op_recv o n = Some b ∨ op_pre o n = Some b ∨ op_post o n = Some b → Z.of_nat (length b) = n) →
  let drv := u32DrvFrameSize s in
  let rate := u32SampleRate ctx1 in
  let ch := u32ChannelNum ctx1 in
  0 < drv <= out → out + drv <= 2 * Z.max drv rate + 1 → Z.max drv rate < 2 ^ 30 →
  caller out rate ch ctx → timely drv out rate ch ins ctx (OSS_RecSetFrameSize out s) [] →
  returns (record_all ins ctx (OSS_RecSetFrameSize out s)) (λ '(frames, _), ∃ rest, Z.of_nat (length rest) < out ∧
    concat frames ++ rest = concat (map in_data ins) ∧ Forall (λ f, Z.of_nat (length f) = out) frames).
Proof.
  intros E Hcl Hm drv rate ch Hd Ho Hmax Hc Ht.
  eapply returns_mono; [eapply (record_timely (2 * Z.max drv rate) drv out rate ch) with (q := []); [lia|lia| |change (0 < out); lia|done|done]|].
  - by eapply open_calm; first [done|unfold drv in *; lia].
  - intros [frames s'] (q' & _ & Hl & Ec & Hf). by exists q'.
Qed.

(** Silence has no room.  When the frames have the size of the driver's blocks and the
    buffers two of them, one gap of the clock is enough: the block that shows it and the next
    two, all on time, make [OSS_RecRead] write behind the end of the buffer for the sound after
    the silence. *)
Theorem gap_overflows drv rate ch ctx s i1 i2 i3 f :
  0 < drv < 2 ^ 29 → calm (2 * drv) drv drv s [] → caller drv rate ch ctx →
  Forall (λ i, reads drv i (in_data i) ∧ Z.of_nat (length (in_data i)) = drv) [i1; i2; i3] →
  let z := (f - (i32PrevFrames s - 1)) * drv in
  i32PrevFrames s + 2 <= f → z < 2 ^ 31 →
  clock drv drv rate ch i1 s (z + drv) f →
  (∀ e ctx1 s1, OSS_RecRead i1 ctx s = Ok (e, ctx1, s1) →
    (∃ f1, clock drv drv rate ch i2 s1 (z - drv + 2 * drv) f1 ∧ (f1 = i32PrevFrames s1 ∨ f1 = i32PrevFrames s1 + 1)) ∧
    ∀ e2 ctx2 s2, OSS_RecRead i2 ctx1 s1 = Ok (e2, ctx2, s2) →
      ∃ f2, clock drv drv rate ch i3 s2 (z - 2 * drv + 3 * drv) f2 ∧ (f2 = i32PrevFrames s2 ∨ f2 = i32PrevFrames s2 + 1)) →
  record_all [i1; i2; i3] ctx s = Undef.
Proof.
  intros Hd Hs Hc Hall z Hf Hz Hck Hnext. rewrite !Forall_cons in Hall. destruct Hall as ((R1 & L1) & (R2 & L2) & (R3 & L3) & _).
  assert (3 * drv <= z) as Hz3 by (unfold z; nia). cbn [record_all].
  destruct (read_gap (2 * drv) drv drv rate ch ltac:(lia) ltac:(lia) i1 ctx s (in_data i1) f Hs Hc R1 Hf ltac:(lia) ltac:(fold z; lia)
    ltac:(fold z; by rewrite L1)) as ([[e ctx1] s1] & E1 & Hc1 & Hs1). fold z in Hs1.
  rewrite E1, bind_Ok. destruct (Hnext _ _ _ E1) as [(f1 & Hck1 & Hf1) Hnext2].
  destruct (read_silent (2 * drv) drv drv rate ch ltac:(lia) ltac:(lia) i2 ctx1 s1 (z - drv) (in_data i1) (in_data i2) f1 Hs1 ltac:(lia) Hc1 R2 ltac:(lia)
    ltac:(rewrite length_app, Nat2Z.inj_add, L1, L2; replace (drv + drv) with (2 * drv) by lia; done) Hf1) as ([[e2 ctx2] s2] & E2 & Hc2 & Hs2).
  rewrite E2, bind_Ok. destruct (Hnext2 _ _ _ E2) as (f2 & Hck2 & Hf2).
  rewrite (read_silent_full (2 * drv) drv drv rate ch ltac:(lia) ltac:(lia) i3 ctx2 s2 (z - drv - drv) (in_data i1 ++ in_data i2) (in_data i3) _ f2
    Hs2 ltac:(lia) Hc2 R3 ltac:(rewrite length_app, Nat2Z.inj_add; lia) Hck2 Hf2). done.
Qed.

(** A driver with blocks of 4 bytes at 16 samples in a second, 125 milliseconds each. *)
Definition w_closed : S_OSS_REC_DATA := MkRec (-1) 0 0 REC_BLOCK_SIZE 0 0 None None 0 0 None 0 0 0 0 0.
Definition w_open (blk rate : Z) : open_input :=
  let block n := Some (replicate (Z.to_nat n) 0) in MkOpen 3 (Some blk) (Some 1) (Some rate) block block block.
Definition w_ctx (rate n : Z) : S_NM_AUDIOCTX := MkAudio (replicate (Z.to_nat n) 0) 0 n 0 1 0 rate.
Definition w_block (now : Z) (data : list Z) : rec_input := MkInput true 0 (Z.of_nat (length data)) data now now.
Definition w_opened (blk rate : Z) : S_OSS_REC_DATA :=
  match OSS_RecOpen (w_open blk rate) (Some (w_ctx rate 0)) w_closed with Ok (_, _, s) => s | _ => w_closed end.

(** Evaluation of the clock and of a call. *)
Definition read_clock (drv out rate ch : Z) (i : rec_input) (s : S_OSS_REC_DATA) (tot : Z) : outcome Z :=
  cur ← began (in_now i) (in_ret i) rate ch;
  n ← frame_no (u64 (cur - first_of s cur)) drv (bits_per_second rate ch);
  cur' ← began (in_now' i) tot rate ch;
  _ ← out_stamp (first_of s cur) cur' out (i32OutPrevFrames s) (bits_per_second rate ch);
  Ok (i32 n).

Lemma read_clock_ok drv out rate ch i s tot f : read_clock drv out rate ch i s tot = Ok f → clock drv out rate ch i s tot f.
Proof.
  unfold read_clock. intros H. destruct (began (in_now i) _ _ _) as [cur| | |] eqn:E1; try done. rewrite bind_Ok in H.
  destruct (frame_no _ _ _) as [n| | |] eqn:E2; try done. rewrite bind_Ok in H. destruct (began (in_now' i) _ _ _) as [cur'| | |] eqn:E3; try done.
  rewrite bind_Ok in H. destruct (out_stamp _ _ _ _ _) as [r| | |] eqn:E4; try done. injection H as <-. by exists cur, n, cur', r.
Qed.

Ltac clock_tac f := exists f; split; [apply read_clock_ok; vm_compute; reflexivity|vm_compute; auto].
Ltac reads_tac := unfold reads; cbn; split_and!; first [by left|done|lia].
Ltac call_tac := let E := fresh in intros ? ? ? E; vm_compute in E; injection E as <- <- <-.

Lemma recorder_fifo_witness :
  returns (record_all [w_block 1125 [1; 2; 3; 4]; w_block 1250 [5; 6; 7; 8]; w_block 1375 [9; 10; 11; 12]] (w_ctx 16 8)
    (OSS_RecSetFrameSize 8 (w_opened 4 16))) (λ '(frames, _), frames = [[1; 2; 3; 4; 5; 6; 7; 8]]).
Proof.
  destruct (recorder_fifo (w_open 4 16) (w_ctx 16 0) (MkAudio [] 16 16 0 1 8 16) (w_ctx 16 8) w_closed (w_opened 4 16) 8
    [w_block 1125 [1; 2; 3; 4]; w_block 1250 [5; 6; 7; 8]; w_block 1375 [9; 10; 11; 12]]) as ([frames s'] & E & _).
  - reflexivity.
  - cbn. lia.
  - cbn. intros n b Hn [[= <-]|[[= <-]|[= <-]]]; rewrite length_replicate; lia.
  - change (0 < 4 <= 8). lia.
  - change (8 + 4 <= 2 * Z.max 4 16 + 1). lia.
  - change (Z.max 4 16 < 2 ^ 30). lia.
  - done.
  - change (u32DrvFrameSize (w_opened 4 16)) with 4. cbn [u32SampleRate u32ChannelNum timely].
    split; [reads_tac|]. split; [clock_tac 0|]. call_tac. split; [reads_tac|]. split; [clock_tac 1|]. call_tac.
    split; [reads_tac|]. split; [clock_tac 2|]. done.
  - exists (frames, s'). split; [exact E|]. vm_compute in E. by injection E as <- <-.
Defined.

(** The state after one block, and three blocks the first of which comes a second late. *)
Definition w_running : S_OSS_REC_DATA :=
  match OSS_RecRead (w_block 1500 [1; 2; 3; 4]) (w_ctx 4 4) (OSS_RecSetFrameSize 4 (w_opened 4 4)) with Ok (_, _, s) => s | _ => w_closed end.

Lemma gap_overflows_witness :
  i32PrevFrames w_running = 0 ∧
  record_all [w_block 3000 [5; 6; 7; 8]; w_block 3500 [9; 10; 11; 12]; w_block 4000 [13; 14; 15; 16]] (w_ctx 4 4) w_running = Undef.
Proof.
  split; [reflexivity|].
  apply (gap_overflows 4 4 1 (w_ctx 4 4) w_running (w_block 3000 [5; 6; 7; 8]) (w_block 3500 [9; 10; 11; 12]) (w_block 4000 [13; 14; 15; 16]) 3).
  - lia.
  - unfold calm. split_and!; first [vm_compute; congruence|by eexists; split; [vm_compute|]|by eexists; split_and!; [vm_compute|..]].
  - done.
  - repeat constructor; first [reads_tac|reflexivity].
  - vm_compute. congruence.
  - reflexivity.
  - apply read_clock_ok. vm_compute. reflexivity.
  - call_tac. split; [clock_tac 4|]. call_tac. clock_tac 5.
Defined.
