(* ===== verification/OssPlay.v ===== *)
(** * Playing sound ([OSS.c])

    The playing half of the sound device: a descriptor that its users share, counted, and the
    volume.  The functions run under one mutex, which the recorder takes too.  The model
    has the mutex, the descriptors the player has open and the bytes and the volume that the
    drivers were given; what the system calls return is a parameter of each call. *)

From S2P Require Import Prelude Oss.

Local Open Scope Z_scope.
Local Open Scope c_scope.

(** ** Data *)

Definition OSS_VOLUME_MIN : Z := 0.
Definition OSS_VOLUME_MAX : Z := 100.
Definition ERR_OSS_NULL_POINTER : Z := OSS_ERR .| 0x01.
Definition ERR_OSS_VOLUME : Z := OSS_ERR .| 0x04.
Definition eNM_PCM_S16LE : Z := 0.

(** The part of [S_NM_AUDIOCTX] that playing uses. *)
Record play_ctx := MkPlay { p_pDataVAddr : list Z; p_u32DataSize : Z; p_ePCMType : Z; p_u32ChannelNum : Z; p_u32SampleRate : Z }.

(** The variables of the file, its mutex, the open descriptors, what was written to the sound
    device and the volume that the mixer was given. *)
Record player := MkPlayer {
  s_i32DSPFD : Z; s_i32MixerFD : Z; s_i32DSPBlockSize : Z; s_i32PlayRefCnt : Z; g_u32NMPlayer_Volume : Z;
  locked : bool; fds : list Z; played : list Z; pcm_volume : option Z }.

Definition player_start : player := MkPlayer (-1) (-1) 0 0 0 false [] [] None.

(** What the system calls return, or leave in the variable they are given. *)
Record driver := MkDriver {
  open_dsp : Z; open_dsp2 : Z; open_mixer : Z;
  dsp_speed : Z; dsp_channels : Z; dsp_blksize : Z; dsp_ospace : Z; dsp_written : Z;
  mixer_read : Z; mixer_write : Z }.

Definition with_lock (l : bool) (p : player) : player :=
  MkPlayer (s_i32DSPFD p) (s_i32MixerFD p) (s_i32DSPBlockSize p) (s_i32PlayRefCnt p) (g_u32NMPlayer_Volume p) l (fds p) (played p) (pcm_volume p).
Definition with_ref (n : Z) (p : player) : player :=
  MkPlayer (s_i32DSPFD p) (s_i32MixerFD p) (s_i32DSPBlockSize p) n (g_u32NMPlayer_Volume p) (locked p) (fds p) (played p) (pcm_volume p).
Definition with_fds (l : list Z) (p : player) : player :=
  MkPlayer (s_i32DSPFD p) (s_i32MixerFD p) (s_i32DSPBlockSize p) (s_i32PlayRefCnt p) (g_u32NMPlayer_Volume p) (locked p) l (played p) (pcm_volume p).
Definition with_mixer (fd : Z) (p : player) : player :=
  MkPlayer (s_i32DSPFD p) fd (s_i32DSPBlockSize p) (s_i32PlayRefCnt p) (g_u32NMPlayer_Volume p) (locked p) (fds p) (played p) (pcm_volume p).
Definition with_played (l : list Z) (p : player) : player :=
  MkPlayer (s_i32DSPFD p) (s_i32MixerFD p) (s_i32DSPBlockSize p) (s_i32PlayRefCnt p) (g_u32NMPlayer_Volume p) (locked p) (fds p) l (pcm_volume p).

(** [open] that succeeded, and [close]; to close what is not open is an error without effect. *)
Definition opened (fd : Z) (l : list Z) : list Z := fd :: l.
Definition closed (fd : Z) (l : list Z) : list Z := filter (λ x, x ≠ fd) l.

(** A mutex that is locked for ever blocks for ever. *)
Definition lock (p : player) : outcome player := if locked p then Diverge else Ok (with_lock true p).
Definition unlock (p : player) : player := with_lock false p.

(** ** Operations *)

Definition OSS_PlayOpen (d : driver) (psCtx : option play_ctx) (p : player) : outcome (Z * option play_ctx * player) :=
  p ← lock p;
  match psCtx with
  | None => Ok (ERR_OSS_CTX, None, unlock p)
  | Some c =>
      if 0 <? s_i32DSPFD p then Ok (ERR_OSS_NONE, Some c, unlock (with_ref (s_i32PlayRefCnt p + 1) p)) else
      if negb (p_ePCMType c =? eNM_PCM_S16LE) then Ok (ERR_OSS_CTX, Some c, unlock p) else
      let i32DSPFD := if open_dsp d <? 0 then open_dsp2 d else open_dsp d in
      if i32DSPFD <? 0 then Ok (ERR_OSS_DEV, Some c, unlock p) else
      let p := with_fds (opened i32DSPFD (fds p)) p in
      let i32MixerFD := open_mixer d in
      if i32MixerFD <? 0 then Ok (ERR_OSS_DEV, Some c, unlock (with_fds (closed i32DSPFD (fds p)) p)) else
      let p := with_fds (opened i32MixerFD (fds p)) p in
      let c := MkPlay (p_pDataVAddr c) (p_u32DataSize c) (p_ePCMType c) (dsp_channels d) (dsp_speed d) in
      let p := MkPlayer i32DSPFD (-1) (dsp_blksize d) (s_i32PlayRefCnt p + 1) 0x20 (locked p) (closed i32MixerFD (fds p)) (played p) (pcm_volume p) in
      Ok (ERR_OSS_NONE, Some c, unlock p)
  end.

Definition OSS_PlayGetBlockSize (p : player) : Z := u32 (s_i32DSPBlockSize p).

(** The result, and [*pu32WrittenByte] where it is assigned. *)
Definition OSS_PlayWrite (d : driver) (psCtx : option play_ctx) (p : player) : outcome (Z * option Z * player) :=
  p ← lock p;
  if s_i32DSPFD p <? 0 then Ok (0, None, unlock p) else
  let bytes := dsp_ospace d in
  match psCtx with
  | None => Ok (u32 bytes, Some 0, unlock p)
  | Some c =>
      if s_i32DSPBlockSize p <? i32 (p_u32DataSize c) then
        Ok (u32 (if bytes <? s_i32DSPBlockSize p then bytes else s_i32DSPBlockSize p), Some 0, unlock p)
      else if bytes <? i32 (p_u32DataSize c) then Ok (u32 bytes, Some 0, unlock p)
      else if Z.of_nat (length (p_pDataVAddr c)) <? p_u32DataSize c then Undef
      else if dsp_written d <? 0 then Ok (0, Some 0, unlock p)
      else Ok (u32 bytes, Some (u32 (dsp_written d)), unlock (with_played (played p ++ take (Z.to_nat (dsp_written d)) (p_pDataVAddr c)) p))
  end.

(** [pu32Volume]: whether the pointer is not [NULL]; the result has what is stored there. *)
Definition OSS_PlayGetVolume (d : driver) (pu32Volume : bool) (p : player) : outcome (Z * option Z * player) :=
  if negb pu32Volume then Ok (ERR_OSS_NULL_POINTER, None, p) else
  p ← lock p;
  if s_i32DSPFD p <? 0 then Ok (ERR_OSS_DEV, None, unlock p) else
  Ok (ERR_OSS_NONE, Some (Z.land (mixer_read d) 0x3f), unlock p).

Definition clamp_volume (u32Volume : Z) : Z :=
  let v := if i32 u32Volume <? OSS_VOLUME_MIN then OSS_VOLUME_MIN else u32Volume in
  if OSS_VOLUME_MAX <? v then OSS_VOLUME_MAX else v.

Definition OSS_PlaySetVolume (d : driver) (u32Volume : Z) (p : player) : outcome (Z * player) :=
  let v := clamp_volume u32Volume in
  if v =? g_u32NMPlayer_Volume p then Ok (ERR_OSS_NONE, p) else
  p ← lock p;
  if s_i32DSPFD p <? 0 then Ok (ERR_OSS_DEV, unlock p) else
  let p := if s_i32MixerFD p <? 0 then
             with_mixer (open_mixer d) (if open_mixer d <? 0 then p else with_fds (opened (open_mixer d) (fds p)) p)
           else p in
  if s_i32MixerFD p <? 0 then Ok (ERR_OSS_DEV, unlock (with_fds (closed (s_i32DSPFD p) (fds p)) p)) else
  if mixer_write d <? 0 then Ok (ERR_OSS_VOLUME, p) else
  Ok (ERR_OSS_NONE, unlock (MkPlayer (s_i32DSPFD p) (-1) (s_i32DSPBlockSize p) (s_i32PlayRefCnt p) v (locked p) (closed (s_i32MixerFD p) (fds p))
                       (played p) (Some (Z.shiftl v 8 .| v)))).

Definition OSS_PlayClose (p : player) : outcome (Z * player) :=
  p ← lock p;
  if s_i32DSPFD p <? 0 then Ok (ERR_OSS_DEV, unlock p) else
  let p := with_ref (s_i32PlayRefCnt p - 1) p in
  let p := if s_i32PlayRefCnt p <? 0 then with_ref 0 p
           else if s_i32PlayRefCnt p =? 0 then
             MkPlayer (-1) (-1) (s_i32DSPBlockSize p) 0 (g_u32NMPlayer_Volume p) (locked p) (closed (s_i32MixerFD p) (closed (s_i32DSPFD p) (fds p)))
               (played p) (pcm_volume p)
           else p in
  Ok (ERR_OSS_NONE, unlock p).

(** ** Users of the player *)

Inductive play_call :=
  | call_open (d : driver) (psCtx : option play_ctx)
  | call_write (d : driver) (psCtx : option play_ctx)
  | call_get (d : driver) (pu32Volume : bool)
  | call_set (d : driver) (u32Volume : Z)
  | call_close.

Definition run_call (c : play_call) (p : player) : outcome (Z * player) :=
  match c with
  | call_open d x => '(e, _, p) ← OSS_PlayOpen d x p; Ok (e, p)
  | call_write d x => '(e, _, p) ← OSS_PlayWrite d x p; Ok (e, p)
  | call_get d b => '(e, _, p) ← OSS_PlayGetVolume d b p; Ok (e, p)
  | call_set d v => OSS_PlaySetVolume d v p
  | call_close => OSS_PlayClose p
  end.

(** What [open] returns: an error or a descriptor that is not in use; 0 is the standard input. *)
Definition fresh (l : list Z) (fd : Z) : Prop := fd < 0 ∨ 0 < fd ∧ fd ∉ l.

Definition dsp_of (d : driver) : Z := if open_dsp d <? 0 then open_dsp2 d else open_dsp d.

(** The calls of well-behaved users on a system whose mixer works: descriptors are fresh, the
    data has the length the caller says, and the mixer takes a volume. *)
Definition sane_call (p : player) (c : play_call) : Prop :=
  match c with
  | call_open d _ => fresh (fds p) (dsp_of d) ∧ fresh (dsp_of d :: fds p) (open_mixer d)
  | call_write _ (Some x) => p_u32DataSize x <= Z.of_nat (length (p_pDataVAddr x))
  | call_set d _ => 0 <= open_mixer d ∧ fresh (fds p) (open_mixer d) ∧ 0 <= mixer_write d
  | _ => True
  end.

Inductive player_run : player → list (play_call * Z) → player → Prop :=
  | run_none p : player_run p [] p
  | run_more p cs q c e q' : player_run p cs q → sane_call q c → run_call c q = Ok (e, q') → player_run p (cs ++ [(c, e)]) q'.

(** The number of users: who opened the player with success and has not closed it. *)
Definition count_user (n : Z) (c : play_call * Z) : Z :=
  match c with
  | (call_open _ _, e) => if e =? ERR_OSS_NONE then n + 1 else n
  | (call_close, _) => Z.max 0 (n - 1)
  | _ => n
  end.

Definition users (cs : list (play_call * Z)) : Z := foldl count_user 0 cs.

(** ** The invariant *)

Definition balanced (n : Z) (p : player) : Prop :=
  locked p = false ∧ s_i32MixerFD p = -1 ∧ s_i32PlayRefCnt p = n ∧
  ((n = 0 ∧ s_i32DSPFD p = -1 ∧ fds p = []) ∨ (0 < n ∧ 0 < s_i32DSPFD p ∧ fds p = [s_i32DSPFD p])).

Lemma closed_one fd : closed fd [fd] = [].
Proof. unfold closed. by rewrite filter_cons_False by naive_solver. Qed.

Lemma closed_head fd x : fd ≠ x → closed fd [fd; x] = [x].
Proof. intros H. unfold closed. rewrite filter_cons_False by naive_solver. by rewrite filter_cons_True by naive_solver. Qed.

Lemma lock_free n p : balanced n p → lock p = Ok (with_lock true p).
Proof. intros (H & _). unfold lock. by rewrite H. Qed.


Lemma open_balanced n p d x : balanced n p → sane_call p (call_open d x) →
  ∃ e q, run_call (call_open d x) p = Ok (e, q) ∧ balanced (count_user n (call_open d x, e)) q.
Proof.
  intros Hb [Hfd Hmix]. cbn [run_call]. unfold OSS_PlayOpen. rewrite (lock_free n), bind_Ok by done. destruct p as [dsp mixer blk ref vol l fs pl pv].
  revert Hb. unfold balanced. cbn [with_lock s_i32DSPFD s_i32MixerFD s_i32PlayRefCnt locked fds] in *. intros (-> & -> & -> & Hu).
  destruct x as [x|]; [|by eexists _, _]. destruct Hu as [(-> & -> & ->)|(Hn & Hd & ->)].
  - change (0 <? -1) with false. cbn iota. destruct (p_ePCMType x =? eNM_PCM_S16LE); [|eexists _, _; split; [done|]; cbn; naive_solver]. cbn [negb].
    fold (dsp_of d). destruct (Z.ltb_spec (dsp_of d) 0); [eexists _, _; split; [done|]; cbn; naive_solver|]. cbn [with_fds fds opened].
    destruct Hfd as [?|[Hpos _]]; [lia|]. destruct (Z.ltb_spec (open_mixer d) 0).
    + eexists _, _. split; [done|]. cbn -[closed]. rewrite closed_one. naive_solver.
    + destruct Hmix as [?|[_ Hne]]; [lia|]. rewrite not_elem_of_cons in Hne. eexists _, _. split; [done|]. cbn -[closed]. unfold opened.
      rewrite closed_head by naive_solver. split_and!; try done. right. lia || (split_and!; [lia|lia|done]).
  - rewrite (proj2 (Z.ltb_lt _ _)) by done. eexists _, _. split; [done|]. cbn. split_and!; try done. right. split_and!; [lia|lia|done].
Qed.

Lemma write_balanced n p d x : balanced n p → sane_call p (call_write d x) → ∃ e q, run_call (call_write d x) p = Ok (e, q) ∧ balanced n q.
Proof.
  intros Hb Hs. cbn [run_call]. unfold OSS_PlayWrite. rewrite (lock_free n), bind_Ok by done. destruct p as [dsp mixer blk ref vol l fs pl pv].
  unfold balanced in *. cbn in *. destruct Hb as (-> & Hb). destruct (dsp <? 0); [by eexists _, _|]. destruct x as [x|]; [|by eexists _, _].
  destruct (blk <? i32 (p_u32DataSize x)); [by eexists _, _|]. destruct (dsp_ospace d <? i32 (p_u32DataSize x)); [by eexists _, _|].
  rewrite (proj2 (Z.ltb_ge _ _)) by done. destruct (dsp_written d <? 0); by eexists _, _.
Qed.

Lemma get_balanced n p d b : balanced n p → ∃ e q, run_call (call_get d b) p = Ok (e, q) ∧ balanced n q.
Proof.
  intros Hb. cbn [run_call]. unfold OSS_PlayGetVolume. destruct b; [|by eexists _, _]. cbn [negb]. rewrite (lock_free n), bind_Ok by done.
  destruct p as [dsp mixer blk ref vol l fs pl pv]. unfold balanced in *. cbn in *. destruct Hb as (-> & Hb). destruct (dsp <? 0); by eexists _, _.
Qed.

Lemma set_balanced n p d v : balanced n p → sane_call p (call_set d v) → ∃ e q, run_call (call_set d v) p = Ok (e, q) ∧ balanced n q.
Proof.
  intros Hb (Hge & Hfr & Hw). cbn [run_call]. unfold OSS_PlaySetVolume. destruct (_ =? _); [by eexists _, _|]. rewrite (lock_free n), bind_Ok by done.
  destruct p as [dsp mixer blk ref vol l fs pl pv]. unfold balanced in *. cbn [with_lock s_i32DSPFD s_i32MixerFD s_i32PlayRefCnt locked fds] in *. destruct Hb as (-> & -> & -> & Hu).
  destruct Hu as [(-> & -> & ->)|(Hn & Hd & ->)]; [by eexists _, _; split; [done|]; cbn; naive_solver|].
  rewrite (proj2 (Z.ltb_ge dsp 0)) by lia. change (-1 <? 0) with true. cbn iota. rewrite (proj2 (Z.ltb_ge (open_mixer d) 0)) by done.
  cbn [with_fds with_mixer s_i32MixerFD s_i32DSPFD s_i32DSPBlockSize s_i32PlayRefCnt locked fds played]. rewrite !(proj2 (Z.ltb_ge _ 0)) by done.
  eexists _, _. split; [done|]. cbn -[closed]. unfold opened. destruct Hfr as [?|[_ Hne]]; [lia|]. rewrite not_elem_of_cons in Hne. rewrite closed_head by naive_solver.
  split_and!; try done. right. split_and!; done.
Qed.

Lemma close_balanced n p : balanced n p → ∃ e q, run_call call_close p = Ok (e, q) ∧ balanced (Z.max 0 (n - 1)) q.
Proof.
  intros Hb. cbn [run_call]. unfold OSS_PlayClose. rewrite (lock_free n), bind_Ok by done. destruct p as [dsp mixer blk ref vol l fs pl pv].
  unfold balanced in *. cbn [with_lock with_ref s_i32DSPFD s_i32MixerFD s_i32PlayRefCnt locked fds] in *. destruct Hb as (-> & -> & -> & Hu).
  destruct Hu as [(-> & -> & ->)|(Hn & Hd & ->)]; [by eexists _, _; split; [done|]; cbn; naive_solver|].
  rewrite (proj2 (Z.ltb_ge dsp 0)) by lia. rewrite (proj2 (Z.ltb_ge (n - 1) 0)) by lia. destruct (Z.eqb_spec (n - 1) 0) as [E|E].
  - eexists _, _. split; [done|]. cbn -[closed]. rewrite closed_one. split_and!; try done; [lia|]. left. split_and!; [lia|done|done].
  - eexists _, _. split; [done|]. cbn. split_and!; try done; [lia|]. right. split_and!; [lia|lia|done].
Qed.

Lemma call_balanced n p c : balanced n p → sane_call p c → ∃ e q, run_call c p = Ok (e, q) ∧ balanced (count_user n (c, e)) q.
Proof.
  intros Hb Hs. destruct c as [d x|d x|d b|d v|].
  - by apply open_balanced.
  - by apply (write_balanced n p d x).
  - by apply (get_balanced n p d b).
  - by apply (set_balanced n p d v).
  - by apply (close_balanced n p).
Qed.

Lemma run_balanced p cs q : player_run p cs q → p = player_start → balanced (users cs) q.
Proof.
  induction 1 as [p|p cs q c e q' _ IH Hs Hrun]; intros ->; [unfold balanced; cbn; naive_solver|].
  unfold users. rewrite foldl_app. cbn [foldl]. destruct (call_balanced _ _ _ (IH eq_refl) Hs) as (e' & r & E & Hb). rewrite E in Hrun. by injection Hrun as <- <-.
Qed.

(** ** Properties *)

(** C31: Whatever sequence of calls its users make, with a mixer that works, the player counts its
    users; the sound device is open exactly while there is one, no other descriptor stays
    open, the mutex is free after each call, and the next call returns. *)
Theorem player_balanced cs p : player_run player_start cs p →
  locked p = false ∧ s_i32PlayRefCnt p = users cs ∧ fds p = (if 0 <? users cs then [s_i32DSPFD p] else []) ∧ (0 < s_i32DSPFD p ↔ 0 < users cs) ∧
  ∀ c, sane_call p c → ∃ e q, run_call c p = Ok (e, q).
Proof.
  intros Hrun. pose proof (run_balanced _ _ _ Hrun eq_refl) as Hb. pose proof Hb as (Hl & _ & Hr & Hu). split_and!; try done.
  - destruct Hu as [(-> & _ & ->)|(Hn & _ & ->)]; [done|]. by rewrite (proj2 (Z.ltb_lt _ _)).
  - destruct Hu as [(? & ? & _)|(? & ? & _)]; lia.
  - intros c Hc. destruct (call_balanced _ _ _ Hb Hc) as (e & q & E & _). by exists e, q.
Qed.

Lemma player_balanced_witness : ∃ p, player_run player_start [(call_open (MkDriver 5 (-1) 6 8000 1 1024 0 0 0 0) (Some (MkPlay [] 0 0 1 8000)), 0)] p ∧
  fds p = [5] ∧ s_i32PlayRefCnt p = 1.
Proof.
  set (c := call_open (MkDriver 5 (-1) 6 8000 1 1024 0 0 0 0) (Some (MkPlay [] 0 0 1 8000))).
  assert (player_run player_start ([] ++ [(c, 0)]) (MkPlayer 5 (-1) 1024 1 32 false [5] [] None)) as H.
  { eapply run_more; [apply run_none| |reflexivity]. split; right; (split; [vm_compute; reflexivity|]); [apply not_elem_of_nil|]. rewrite not_elem_of_cons. split; [done|apply not_elem_of_nil]. }
  eexists. split; [exact H|]. destruct (player_balanced _ _ H) as (_ & E1 & E2 & _). split; [exact E2|exact E1].
Defined.

(** A mixer that refuses a volume leaves the mutex locked: no later call returns. *)
Theorem refused_volume_blocks n p d v : balanced n p → 0 < n → clamp_volume v ≠ g_u32NMPlayer_Volume p → 0 <= open_mixer d → mixer_write d < 0 →
  ∃ q, OSS_PlaySetVolume d v p = Ok (ERR_OSS_VOLUME, q) ∧
    (∀ d' x, OSS_PlayOpen d' x q = Diverge) ∧ (∀ d' x, OSS_PlayWrite d' x q = Diverge) ∧ OSS_PlayClose q = Diverge.
Proof.
  intros Hb Hn Hv Hm Hw. unfold OSS_PlaySetVolume. rewrite (proj2 (Z.eqb_neq _ _)) by done. rewrite (lock_free n), bind_Ok by done.
  destruct p as [dsp mixer blk ref vol l fs pl pv]. unfold balanced in Hb. cbn [with_lock s_i32DSPFD s_i32MixerFD s_i32PlayRefCnt locked fds] in *.
  destruct Hb as (-> & -> & -> & [?|(_ & Hd & ->)]); [lia|]. rewrite (proj2 (Z.ltb_ge dsp 0)) by lia. change (-1 <? 0) with true. cbn iota.
  rewrite (proj2 (Z.ltb_ge (open_mixer d) 0)) by done. cbn [with_fds with_mixer s_i32MixerFD]. rewrite (proj2 (Z.ltb_ge (open_mixer d) 0)), (proj2 (Z.ltb_lt (mixer_write d) 0)) by done.
  by eexists.
Qed.
