(* ===== verification/Clock.v ===== *)
(** * Clocks and the version of the kernel ([utils.c], [OSS.c])

    The two clocks of the program, in milliseconds: [utils_get_ms_time] from the monotonic
    clock of the system, by which the encoder paces its pictures, and [Util_GetTime] from
    [/proc/uptime], by which the recorder stamps its sound; and the two ways of finding
    the version of the kernel. *)

From Stdlib Require Import String SpecFloat.
From S2P Require Import Prelude CString Oss.

Local Open Scope Z_scope.

(** ** The monotonic clock *)

Record timespec := MkTimespec { tv_sec : Z; tv_nsec : Z }.

Definition utils_get_ms_time (t : timespec) : Z := u64 (u64 (u64 (tv_sec t) * 1000) + u64 (tv_nsec t) / 1000000).

(** ** The version of the kernel *)

Inductive E_KERNEL_VER := eKERNEL_2_6_17_14 | eKERNEL_2_6_35_4 | eKERNEL_UNKNOW.

Definition has (s t : list Z) : bool := match strstr s t with Some _ => true | None => false end.

(** The version that a text names, of the two that are known. *)
Definition version_in (s : list Z) : option E_KERNEL_VER :=
  if has s (lit "2.6.17.14") then Some eKERNEL_2_6_17_14
  else if has s (lit "2.6.35.4") then Some eKERNEL_2_6_35_4
  else None.

Definition utils_get_kernel_version (release : list Z) : E_KERNEL_VER := match version_in release with Some v => v | None => eKERNEL_UNKNOW end.

(** [fgets]: up to a newline, [n] bytes at most. *)
Fixpoint fgets (n : nat) (f : list Z) : list Z * list Z :=
  match n, f with
  | S n, c :: f => if c =? 10 then ([c], f) else let '(l, f) := fgets n f in (c :: l, f)
  | _, _ => ([], f)
  end.

(** The lines of [/proc/version], in pieces of the size of the array. *)
Fixpoint find_version (fuel : nat) (f : list Z) : E_KERNEL_VER :=
  match fuel with
  | O => eKERNEL_UNKNOW
  | S fuel =>
      let '(l, f) := fgets 99 f in
      match l with
      | [] => eKERNEL_UNKNOW
      | _ => match version_in (upto_nul l) with Some v => v | None => find_version fuel f end
      end
  end.

(** [known] is the version that was found before; [file] the bytes of [/proc/version], [None]
    when it cannot be opened.  Each piece has a byte at least, so the fuel is enough. *)
Definition Util_GetKernelVer (known : E_KERNEL_VER) (file : option (list Z)) : E_KERNEL_VER :=
  match known with
  | eKERNEL_UNKNOW => match file with Some f => find_version (S (length f)) f | None => eKERNEL_UNKNOW end
  | v => v
  end.

(** ** The time since the start *)

Fixpoint digits (s : list Z) (acc n : Z) : Z * Z * list Z :=
  match s with c :: s' => if isdigit c then digits s' (10 * acc + (c - 48)) (n + 1) else (acc, n, s) | [] => (acc, n, []) end.

(** [atof] of digits with a fraction, as the kernel prints them; a quotient of two numbers
    that are exact as [double] is rounded as [atof] rounds. *)
Definition atof (s : list Z) : spec_float :=
  let '(a, _, s) := digits (skip_space s) 0 0 in
  match s with
  | c :: s => if c =? 46 then let '(b, n, _) := digits s a 0 in div_double (to_double b) (to_double (10 ^ n)) else to_double a
  | [] => to_double a
  end.

Definition mul_double (x y : spec_float) : spec_float := SFmul 53 1024 x y.

(** The loop: [reads] are the texts that [/proc/uptime] has, one after the other. *)
Fixpoint uptime_ms (reads : list (list Z)) : outcome Z :=
  match reads with
  | [] => Diverge
  | tmp :: reads =>
      u64MillSec ← of_double 64 (mul_double (atof (upto_nul (fgets 63 tmp).1)) (to_double 1000));
      if u64MillSec =? 0 then uptime_ms reads else Ok u64MillSec
  end.

(** [opened]: the file is open already, or can be opened now. *)
Definition Util_GetTime (opened : bool) (reads : list (list Z)) : outcome Z := if opened then uptime_ms reads else Ok 0.

(** ** Theorems *)

Definition nanoseconds (t : timespec) : Z := tv_sec t * 1000000000 + tv_nsec t.

Definition wf_timespec (t : timespec) : Prop := 0 <= tv_sec t < 2 ^ 50 ∧ 0 <= tv_nsec t < 1000000000.

(** The clock is the time of the system, rounded down to a millisecond: so it never goes back. *)
Theorem ms_time_exact t : wf_timespec t → utils_get_ms_time t = nanoseconds t / 1000000.
Proof.
  intros [Hs Hn]. unfold utils_get_ms_time, nanoseconds, u64. rewrite !(Z.mod_small (tv_sec t)), (Z.mod_small (tv_nsec t)), (Z.mod_small (tv_sec t * 1000)) by lia.
  assert (0 <= tv_nsec t / 1000000 < 1000) by (split; [apply Z.div_pos; lia|apply Z.div_lt_upper_bound; lia]).
  rewrite Z.mod_small by lia. replace (tv_sec t * 1000000000 + tv_nsec t) with (tv_sec t * 1000 * 1000000 + tv_nsec t) by lia. by rewrite Z.div_add_l by lia.
Qed.

Theorem ms_time_monotone t t' : wf_timespec t → wf_timespec t' → nanoseconds t <= nanoseconds t' → utils_get_ms_time t <= utils_get_ms_time t'.
Proof. intros Ht Ht' H. rewrite !ms_time_exact by done. apply Z.div_le_mono; lia. Qed.

Lemma fgets_whole n l : (length l < n)%nat → 10 ∉ l → fgets n (l ++ [10]) = (l ++ [10], []).
Proof.
  revert n. induction l as [|c l IH]; intros [|n] Hn Hl; cbn [length] in Hn; try lia; [done|]. rewrite not_elem_of_cons in Hl. cbn [app fgets].
  rewrite (proj2 (Z.eqb_neq _ _)) by naive_solver. by rewrite IH by (naive_solver || lia).
Qed.

(** A line of [/proc/version] that fits the array says what [uname] says, when the two texts name
    the same version. *)
Theorem kernel_versions_agree release line : (length line < 99)%nat → 10 ∉ line → no_nul line → version_in (line ++ [10]) = version_in release →
  Util_GetKernelVer eKERNEL_UNKNOW (Some (line ++ [10])) = utils_get_kernel_version release.
Proof.
  intros Hl Hn Hz Hv. unfold Util_GetKernelVer, utils_get_kernel_version. cbn [find_version]. rewrite fgets_whole by done. rewrite upto_nul_id.
  - rewrite <- Hv. destruct (line ++ [10]) as [|c l] eqn:E; [by destruct line|]. rewrite <- E. destruct (version_in (line ++ [10])); [done|]. by destruct (length (line ++ [10])).
  - apply Forall_app. split; [done|]. by repeat constructor.
Qed.

(** What is truncated is a [double]: an uptime of 2.01 seconds is 2009 milliseconds. *)
Example uptime_truncated : Util_GetTime true [lit "2.00 1.50"; lit "2.01 1.51"] = Ok 2000 ∧ Util_GetTime true [lit "0.00 0.00"; lit "2.01 1.51"] = Ok 2009.
Proof. by vm_compute. Qed.
