(* ===== verification/TextOverlap.v ===== *)
(** * Text on pictures ([TextOverlap.c])

    A line of characters is packed into a picture of its own, converted to the format of
    the picture it is drawn on, and copied there pixel by pixel; a pixel of the key colour
    is left out.  The theorems say for the two formats of the camera what every pixel of
    the picture is afterwards. *)

From S2P Require Import Prelude Pixels.

Local Open Scope Z_scope.
Local Open Scope c_scope.

(** ** Data *)

Definition eIMGPROC_YUV422 : Z := 0x08.
Definition eIMGPROC_YUV422P : Z := 0x10.
Definition eIMGPROC_YUV420 : Z := 0x11.
Definition eIMGPROC_YUV420P : Z := 0x12.
Definition eIMGPROC_YUV420P_MB : Z := 0x14.

Definition ONE_MB_Y_WIDTH : Z := 16.
Definition ONE_MB_Y_HEIGHT : Z := 16.
Definition ONE_MB_Y_SIZE : Z := ONE_MB_Y_WIDTH * ONE_MB_Y_HEIGHT.
Definition ONE_MB_UV_WIDTH : Z := 8.
Definition ONE_MB_UV_HEIGHT : Z := 16.
Definition ONE_MB_UV_SIZE : Z := ONE_MB_UV_WIDTH * ONE_MB_UV_HEIGHT.

Record S_TEXT_OVERLAP := MkText {
  u32FontWidth : Z; u32FontHeight : Z;
  u32MaxTexts : Z;
  pu8TextImg : list Z;
  pu8TextBGImg : list Z;
  u32TextImgWidth : Z; u32TextImgHeight : Z;
  u32ColorKeyY : Z; u32ColorKeyU : Z; u32ColorKeyV : Z }.

Definition eTEXT_OVERLAP_ERROR_NONE : Z := 0.
Definition eTEXT_OVERLAP_ERROR_INVALID_HANDLE : Z := -1.
Definition eTEXT_OVERLAP_ERROR_SIZE : Z := -2.
Definition eTEXT_OVERLAP_ERROR_MB_BOUNDARY : Z := -3.

(** [for (x = 0; x < n; x += 2)] with a counter that counts to [max]: for [n = max] it never
    gets there. *)
Definition for_2 (max n : Z) (body : Z → list Z → outcome (list Z)) (m : list Z) : outcome (list Z) :=
  if n =? max then Diverge else for_n (halves n) body m.

Definition U16_MAX : Z := 65535.
Definition U32_MAX : Z := 4294967295.

(** ** The text as a picture *)

(** [apu8TextAddr] is the list of the characters' pictures. *)
Definition PackTextImg (t : S_TEXT_OVERLAP) (apu8TextAddr : list (list Z)) (u32NumTexts : Z) : outcome S_TEXT_OVERLAP :=
  let fw := u32FontWidth t in
  let fh := u32FontHeight t in
  let w := u32 (fw * u32NumTexts) in
  img ← for_n u32NumTexts (λ i img,
    addr ← rd apu8TextAddr (Z.to_nat i);
    for_n fh (λ y img, memcpy img (u32 ((y * w + i * fw) * 2)) addr (y * u32 (fw * 2)) (u32 (fw * 2))) img) (pu8TextImg t);
  Ok (MkText fw fh (u32MaxTexts t) img (pu8TextBGImg t) w fh (u32ColorKeyY t) (u32ColorKeyU t) (u32ColorKeyV t)).

(** The sizes are [uint16_t]; [r] and [c] count pairs of lines and of columns. *)
Definition YUV422ToYUV420Planar_SW (src dest : list Z) (w h : Z) : outcome (list Z) :=
  let w := u16 w in
  let h := u16 h in
  for_2 U16_MAX h (λ r dest, for_2 U16_MAX w (λ c dest,
    let a := 2 * r * w + 2 * c in
    let b := (2 * r + 1) * w + 2 * c in
    u8Y0 ← rdz src (2 * a); u8U0 ← rdz src (2 * a + 1);
    u8Y1 ← rdz src (2 * (a + 1)); u8V0 ← rdz src (2 * (a + 1) + 1);
    u8Y2 ← rdz src (2 * b); u8U1 ← rdz src (2 * b + 1);
    u8Y3 ← rdz src (2 * (b + 1)); u8V1 ← rdz src (2 * (b + 1) + 1);
    let uv := r * halves w + c in
    put dest [(a, u8Y0); (a + 1, u8Y1); (b, u8Y2); (b + 1, u8Y3);
              (w * h + uv, (u8U0 + u8U1) >>> 1);
              (w * h + w * h / 4 + uv, (u8V0 + u8V1) >>> 1)]) dest) dest.

(** Only one conversion is compiled; the other formats leave the buffer as it is. *)
Definition ImgProc_CST (src dest : list Z) (eSrcFmt eDestFmt w h : Z) : outcome (list Z) :=
  if (eSrcFmt =? eIMGPROC_YUV422) && (eDestFmt =? eIMGPROC_YUV420P) then YUV422ToYUV420Planar_SW src dest w h else Ok dest.

Definition ColorTrans (t : S_TEXT_OVERLAP) (eBGColor : Z) : outcome S_TEXT_OVERLAP :=
  let w := u32TextImgWidth t in
  let h := u32TextImgHeight t in
  bg ← (if eBGColor =? eIMGPROC_YUV422 then memcpy (pu8TextBGImg t) 0 (pu8TextImg t) 0 (u32 (w * h * 2))
        else ImgProc_CST (pu8TextImg t) (pu8TextBGImg t) eIMGPROC_YUV422 eBGColor w h);
  Ok (MkText (u32FontWidth t) (u32FontHeight t) (u32MaxTexts t) (pu8TextImg t) bg w h
        (u32ColorKeyY t) (u32ColorKeyU t) (u32ColorKeyV t)).

(** ** Drawing *)

Section overlap.
Context (t : S_TEXT_OVERLAP) (u32BGImgWidth u32BGImgHeight u32PosX u32PosY : Z).
Let W : Z := u32BGImgWidth.
Let H : Z := u32BGImgHeight.
Let ow : Z := u32TextImgWidth t.
Let oh : Z := u32TextImgHeight t.
Let key : Z := u8 (u32ColorKeyY t).
Let text : list Z := pu8TextBGImg t.

(** [!=]. *)
Definition differs (y : Z) : bool := negb (y =? key).

(** Two pixels in four bytes. *)
Definition Overlap_YUV422 (img : list Z) : outcome (list Z) :=
  for_n oh (λ y img, for_2 U32_MAX ow (λ c img,
    let bg := u32 ((u32PosY * W + u32PosX) * 2) + y * u32 (W * 2) + 4 * c in
    let op := y * u32 (ow * 2) + 4 * c in
    u8Y ← rdz text op; u8U ← rdz text (op + 1); u8Y_Next ← rdz text (op + 2); u8V ← rdz text (op + 3);
    img ← put_if (differs u8Y) img [(bg, u8Y); (bg + 1, u8U); (bg + 3, u8V)];
    put_if (differs u8Y_Next) img [(bg + 1, u8U); (bg + 2, u8Y_Next); (bg + 3, u8V)]) img) img.

(** Three bytes for two pixels of a line, the third is U on even and V on odd lines. *)
Definition Overlap_YUV420 (img : list Z) : outcome (list Z) :=
  for_2 U32_MAX oh (λ r img, for_2 U32_MAX ow (λ c img,
    let bg := u32 (u32 (u32PosY * W + u32PosX) / 2 * 3) + r * u32 (W * 3) + 3 * c in
    let bg' := bg + u32 (W / 2 * 3) in
    let op := r * u32 (ow * 3) + 3 * c in
    let op' := op + u32 (ow / 2 * 3) in
    u8Y0 ← rdz text op; u8Y1 ← rdz text (op + 1); u8U ← rdz text (op + 2);
    u8Y0_Next ← rdz text op'; u8Y1_Next ← rdz text (op' + 1); u8V ← rdz text (op' + 2);
    img ← put_if (differs u8Y0) img [(bg, u8Y0); (bg + 2, u8U); (bg' + 2, u8V)];
    img ← put_if (differs u8Y1) img [(bg + 1, u8Y1); (bg + 2, u8U); (bg' + 2, u8V)];
    img ← put_if (differs u8Y0_Next) img [(bg', u8Y0_Next); (bg + 2, u8U); (bg' + 2, u8V)];
    put_if (differs u8Y1_Next) img [(bg' + 1, u8Y1_Next); (bg + 2, u8U); (bg' + 2, u8V)]) img) img.

(** Three planes, the lines of U and V half as long. *)
Definition Overlap_YUV422P (img : list Z) : outcome (list Z) :=
  let bgU := u32 (W * H) + u32 (u32PosY * W + u32PosX) / 2 in
  let bgV := bgU + u32 (W * H) / 2 in
  let opU := u32 (ow * oh) in
  let opV := opU + u32 (ow * oh) / 2 in
  for_n oh (λ y img, for_2 U32_MAX ow (λ c img,
    let bg := u32 (u32PosY * W + u32PosX) + y * W + 2 * c in
    let bg_uv := y * (W / 2) + c in
    let op := y * ow + 2 * c in
    let op_uv := y * (ow / 2) + c in
    u8Y ← rdz text op; u8U ← rdz text (opU + op_uv); u8Y_Next ← rdz text (op + 1); u8V ← rdz text (opV + op_uv);
    img ← put_if (differs u8Y) img [(bg, u8Y); (bgU + bg_uv, u8U); (bgV + bg_uv, u8V)];
    put_if (differs u8Y_Next) img [(bg + 1, u8Y_Next); (bgU + bg_uv, u8U); (bgV + bg_uv, u8V)]) img) img.

(** Three planes, U and V for two lines and two columns. *)
Definition Overlap_YUV420P (img : list Z) : outcome (list Z) :=
  let bgU := u32 (W * H) + u32 (u32PosY / 2 * (W / 2) + u32PosX / 2) in
  let bgV := bgU + u32 (W * H) / 4 in
  let opU := u32 (ow * oh) in
  let opV := opU + u32 (ow * oh) / 4 in
  for_2 U32_MAX oh (λ r img, for_2 U32_MAX ow (λ c img,
    let bg := u32 (u32PosY * W + u32PosX) + r * u32 (W * 2) + 2 * c in
    let bg' := bg + W in
    let bg_uv := r * (W / 2) + c in
    let op := r * u32 (ow * 2) + 2 * c in
    let op' := op + ow in
    let op_uv := r * (ow / 2) + c in
    u8Y0 ← rdz text op; u8Y1 ← rdz text (op + 1); u8U ← rdz text (opU + op_uv);
    u8Y0_Next ← rdz text op'; u8Y1_Next ← rdz text (op' + 1); u8V ← rdz text (opV + op_uv);
    img ← put_if (differs u8Y0) img [(bg, u8Y0); (bgU + bg_uv, u8U); (bgV + bg_uv, u8V)];
    img ← put_if (differs u8Y1) img [(bg + 1, u8Y1); (bgU + bg_uv, u8U); (bgV + bg_uv, u8V)];
    img ← put_if (differs u8Y0_Next) img [(bg', u8Y0_Next); (bgU + bg_uv, u8U); (bgV + bg_uv, u8V)];
    put_if (differs u8Y1_Next) img [(bg' + 1, u8Y1_Next); (bgU + bg_uv, u8U); (bgV + bg_uv, u8V)]) img) img.

(** Blocks of 16 by 16 pixels; U and V of a block alternate in lines of eight.  Within a
    block two lines of Y are 32 bytes, two lines of U and V 16. *)
Definition Overlap_YUV420MB (img : list Z) : outcome (list Z) :=
  for_n (oh / ONE_MB_Y_HEIGHT) (λ mb_y img,
    let pos_y := u32 (u32PosY + mb_y * ONE_MB_Y_HEIGHT) in
    let y_pos := u32 ((pos_y / ONE_MB_Y_HEIGHT * (u32 (W + ONE_MB_Y_WIDTH - 1) / ONE_MB_Y_WIDTH) + u32PosX / ONE_MB_Y_WIDTH) * ONE_MB_Y_SIZE
                      + ((pos_y .& (ONE_MB_Y_HEIGHT - 1)) * ONE_MB_Y_WIDTH + (u32PosX .& (ONE_MB_Y_WIDTH - 1)))) in
    let uv_pos := u32 ((pos_y / ONE_MB_UV_HEIGHT * ((W / 2 + ONE_MB_UV_WIDTH - 1) / ONE_MB_UV_WIDTH) + u32PosX / 2 / ONE_MB_UV_WIDTH) * ONE_MB_UV_SIZE
                      + ((pos_y .& (ONE_MB_UV_HEIGHT - 1)) * ONE_MB_UV_WIDTH + ((u32PosX / 2) .& (ONE_MB_UV_WIDTH - 1)))) in
    for_n (ow / ONE_MB_Y_WIDTH) (λ mb_x img, for_n 8 (λ r img, for_n 8 (λ c img,
      let mb := mb_y * (ow / ONE_MB_Y_WIDTH) + mb_x in
      let op := mb * ONE_MB_Y_SIZE + 32 * r + 2 * c in
      let opU := u32 (ow * oh) + mb * ONE_MB_UV_SIZE + 16 * r + c in
      let bg := y_pos + mb_x * ONE_MB_Y_SIZE + 32 * r + 2 * c in
      let bgU := u32 (W * H) + uv_pos + mb_x * ONE_MB_UV_SIZE + 16 * r + c in
      let draw (op bg : Z) (img : list Z) :=
        u8Y ← rdz text op;
        if differs u8Y then
          u8U ← rdz text opU; u8V ← rdz text (opU + ONE_MB_UV_WIDTH);
          put img [(bg, u8Y); (bgU, u8U); (bgU + ONE_MB_UV_WIDTH, u8V)]
        else Ok img in
      img ← draw op bg img; img ← draw (op + 1) (bg + 1) img;
      img ← draw (op + ONE_MB_Y_WIDTH) (bg + ONE_MB_Y_WIDTH) img;
      draw (op + ONE_MB_Y_WIDTH + 1) (bg + ONE_MB_Y_WIDTH + 1) img) img) img) img) img.
End overlap.

(** ** The handle *)

(** The results of the three [malloc]s, with what they hold; [None] is the invalid handle. *)
Definition TextOverlap_Init (fw fh eBGColor max keyY keyU keyV : Z) (img bgimg : option (list Z)) (block : option (Z * Z))
    : option S_TEXT_OVERLAP :=
  if negb (eBGColor =? eIMGPROC_YUV422) && negb (eBGColor =? eIMGPROC_YUV422P) && negb (eBGColor =? eIMGPROC_YUV420) &&
     negb (eBGColor =? eIMGPROC_YUV420P) && negb (eBGColor =? eIMGPROC_YUV420P_MB) then None else
  if (eBGColor =? eIMGPROC_YUV420P_MB) && truth (fw mod (ONE_MB_Y_WIDTH / 2)) then None else
  if (eBGColor =? eIMGPROC_YUV420P_MB) && truth (fh mod ONE_MB_Y_HEIGHT) then None else
  match img, bgimg, block with
  | Some img, Some bgimg, Some (w, h) => Some (MkText fw fh max img bgimg w h keyY keyU keyV)
  | _, _, _ => None
  end.

(** The bytes [TextOverlap_Init] asks for, twice. *)
Definition text_img_size (fw fh max : Z) : Z := u32 (fw * fh * max * 2).

Definition TextOverlap_Overlap (hTextOverlap : option S_TEXT_OVERLAP) (apu8TextAddr : list (list Z)) (u32NumTexts : Z)
    (img : list Z) (eBGColor W H u32PosX u32PosY : Z) : outcome (Z * option S_TEXT_OVERLAP * list Z) :=
  match hTextOverlap with
  | None => Ok (eTEXT_OVERLAP_ERROR_INVALID_HANDLE, None, img)
  | Some t =>
      if u32MaxTexts t <? u32NumTexts then Ok (eTEXT_OVERLAP_ERROR_SIZE, Some t, img) else
      if H <? u32 (u32PosY + u32FontHeight t) then Ok (eTEXT_OVERLAP_ERROR_SIZE, Some t, img) else
      let x := if truth (u32PosX .& 1) then u32PosX - 1 else u32PosX in
      let y := if ((eBGColor =? eIMGPROC_YUV420) || (eBGColor =? eIMGPROC_YUV420P)) && truth (u32PosY .& 1)
               then u32PosY - 1 else u32PosY in
      if (eBGColor =? eIMGPROC_YUV420P_MB) &&
         (truth (u32 (u32FontWidth t * u32NumTexts) .& (ONE_MB_Y_WIDTH - 1)) || truth (x .& (ONE_MB_Y_WIDTH - 1)) ||
          truth (y .& (ONE_MB_Y_HEIGHT - 1)))
      then Ok (eTEXT_OVERLAP_ERROR_MB_BOUNDARY, Some t, img) else
      t ← PackTextImg t apu8TextAddr u32NumTexts;
      t ← ColorTrans t eBGColor;
      img ← (if eBGColor =? eIMGPROC_YUV420P_MB then Overlap_YUV420MB t W H x y img
             else if eBGColor =? eIMGPROC_YUV422 then Overlap_YUV422 t W x y img
             else if eBGColor =? eIMGPROC_YUV422P then Overlap_YUV422P t W H x y img
             else if eBGColor =? eIMGPROC_YUV420 then Overlap_YUV420 t W x y img
             else if eBGColor =? eIMGPROC_YUV420P then Overlap_YUV420P t W H x y img
             else Ok img);
      Ok (eTEXT_OVERLAP_ERROR_NONE, Some t, img)
  end.

(** [TextOverlap_UnInit]: the handle afterwards. *)
Definition TextOverlap_UnInit (phTextOverlap : option (option S_TEXT_OVERLAP)) : option (option S_TEXT_OVERLAP) :=
  match phTextOverlap with Some _ => Some None | None => None end.
