(* ===== verification/TextSpec.v ===== *)
(** * What a text does to a picture

    The functions of [TextOverlap] on pictures with whole cells of colour: where the text
    is, a pixel of the text replaces the pixel of the picture unless it has the key colour;
    colour bytes are replaced where one of the pixels that share them is; everything else
    stays.  Nothing outside the picture is touched. *)

From S2P Require Import Prelude Pixels TextOverlap.

Local Open Scope Z_scope.
Local Open Scope c_scope.

Lemma for_2_halves max n body m : 2 * n ≠ max → for_2 max (2 * n) body m = for_n n body m.
Proof.
  intros Hm. unfold for_2, halves. rewrite (proj2 (Z.eqb_neq _ _)) by lia. replace ((2 * n + 1) / 2) with n; [done|].
  apply Z.div_unique with 1; lia.
Qed.

Lemma grid_drawn_2 max h n body w m :
  2 * n ≠ max →
  (∀ r c m1, 0 <= r < h → 0 <= c < n → length m1 = length m → returns (body r c m1) (λ m2, drawn m1 m2 (w r c))) →
  returns (for_n h (λ r, for_2 max (2 * n) (body r)) m) (λ m2, drawn m m2 (grid h n w)).
Proof.
  intros Hm H. apply for_n_drawn. intros r m1 Hr H1. rewrite for_2_halves by done. apply for_n_drawn. intros c m2 Hc H2. apply H; [done|done|congruence].
Qed.

(** ** Three planes *)

Lemma half_even n : 2 * n / 2 = n.
Proof. rewrite Z.mul_comm. apply Z.div_mul. lia. Qed.

Lemma quarter a b : 2 * a * (2 * b) / 4 = a * b.
Proof. replace (2 * a * (2 * b)) with (a * b * 4) by lia. apply Z.div_mul. lia. Qed.

(** Cells of four pixels [text_Y] with colours [text_U] and [text_V], at [X0], [Y0] of a
    picture; sizes are in cells. *)
Section planar.
Context (d : Z → bool) (text_Y text_U text_V : Z → Z → Z) (W2 H2 X0 Y0 w2 h2 : Z).
Hypothesis Hpos : 0 <= X0 ∧ 0 <= Y0 ∧ 0 < w2 ∧ 0 < h2.
Hypothesis Hx : X0 + w2 <= W2.
Hypothesis Hy : Y0 + h2 <= H2.
Abbreviation W := (2 * W2).
Abbreviation H := (2 * H2).

Definition planar_cell (r c : Z) : pen :=
  cell4 d (at_Y W (2 * (X0 + c)) (2 * (Y0 + r))) (at_Y W (2 * (X0 + c) + 1) (2 * (Y0 + r)))
    (at_Y W (2 * (X0 + c)) (2 * (Y0 + r) + 1)) (at_Y W (2 * (X0 + c) + 1) (2 * (Y0 + r) + 1))
    (at_U W H (X0 + c) (Y0 + r)) (at_V W H (X0 + c) (Y0 + r))
    (text_Y (2 * c) (2 * r)) (text_Y (2 * c + 1) (2 * r)) (text_Y (2 * c) (2 * r + 1)) (text_Y (2 * c + 1) (2 * r + 1))
    (text_U c r) (text_V c r).

Abbreviation cell_places r c :=
  [at_Y W (2 * (X0 + c)) (2 * (Y0 + r)); at_Y W (2 * (X0 + c) + 1) (2 * (Y0 + r)); at_Y W (2 * (X0 + c)) (2 * (Y0 + r) + 1);
   at_Y W (2 * (X0 + c) + 1) (2 * (Y0 + r) + 1); at_U W H (X0 + c) (Y0 + r); at_V W H (X0 + c) (Y0 + r)].

Lemma planar_places r c : 0 <= r < h2 → 0 <= c < w2 → NoDup (cell_places r c).
Proof using All.
  intros Hr Hc. assert (0 <= (Y0 + r) * W2 + (X0 + c) < W2 * H2) as Hb by nia. unfold at_Y, at_U, at_V. rewrite half_even, quarter.
  rewrite !NoDup_cons, !not_elem_of_cons. split_and!; first [apply not_elem_of_nil|apply NoDup_nil_2|nia].
Qed.

(** The pixel of the text at a place of the picture. *)
Definition in_text (x y : Z) : bool := (2 * X0 <=? x) && (x <? 2 * (X0 + w2)) && (2 * Y0 <=? y) && (y <? 2 * (Y0 + h2)).

Lemma luma_cell X Y r c :
  0 <= X < W → 0 <= Y < H → 0 <= r < h2 → 0 <= c < w2 → planar_cell r c (at_Y W X Y) ≠ None →
  r = Y / 2 - Y0 ∧ c = X / 2 - X0.
Proof using All.
  intros HX HY Hr Hc Hs. apply cell4_some in Hs. assert (0 <= (Y0 + r) * W2 + (X0 + c) < W2 * H2) as Hb by nia.
  assert (at_Y W X Y < W * H) as Hlt by (unfold at_Y; nia).
  unfold at_U, at_V in Hs. rewrite half_even, quarter in Hs.
  destruct Hs as [E|[E|[E|[E|[E|E]]]]]; try (exfalso; nia).
  all: apply at_Y_inj in E as [-> ->]; [|lia|lia]. all: Z.div_mod_to_equations; lia.
Qed.

Lemma planar_luma X Y :
  0 <= X < W → 0 <= Y < H →
  grid h2 w2 planar_cell (at_Y W X Y) =
  if in_text X Y then dot (d (text_Y (X - 2 * X0) (Y - 2 * Y0))) (text_Y (X - 2 * X0) (Y - 2 * Y0)) else None.
Proof using All.
  intros HX HY. unfold in_text. destruct (_ && _) eqn:Ein.
  - rewrite !andb_true_iff, !Z.leb_le, !Z.ltb_lt in Ein. destruct Ein as [[[I1 I2] I3] I4].
    set (r := Y / 2 - Y0). set (c := X / 2 - X0).
    assert (0 <= r < h2) as Hr by (unfold r; Z.div_mod_to_equations; lia). assert (0 <= c < w2) as Hc by (unfold c; Z.div_mod_to_equations; lia).
    rewrite (grid_one h2 w2 _ _ r c Hr Hc) by (intros r' c' Hr' Hc' Hs; by apply luma_cell).
    destruct (cell4_at d _ _ _ _ _ _ (text_Y (2 * c) (2 * r)) (text_Y (2 * c + 1) (2 * r)) (text_Y (2 * c) (2 * r + 1))
      (text_Y (2 * c + 1) (2 * r + 1)) (text_U c r) (text_V c r) (planar_places r c Hr Hc)) as (C1 & C2 & C3 & C4 & _).
    assert (X = 2 * (X0 + c) ∨ X = 2 * (X0 + c) + 1) as HXc by (unfold c; Z.div_mod_to_equations; lia).
    assert (Y = 2 * (Y0 + r) ∨ Y = 2 * (Y0 + r) + 1) as HYr by (unfold r; Z.div_mod_to_equations; lia).
    clearbody r c. unfold planar_cell.
    destruct HXc as [-> | ->], HYr as [-> | ->]; [rewrite C1|rewrite C3|rewrite C2|rewrite C4]; do 3 f_equal; lia.
  - apply grid_none. intros r c Hr Hc. destruct (planar_cell r c (at_Y W X Y)) eqn:E; [|done].
    destruct (luma_cell X Y r c HX HY Hr Hc) as [-> ->]; [by rewrite E|]. exfalso. revert Ein.
    destruct (Z.leb_spec (2 * X0) X), (Z.ltb_spec X (2 * (X0 + w2))), (Z.leb_spec (2 * Y0) Y), (Z.ltb_spec Y (2 * (Y0 + h2)));
      try done; Z.div_mod_to_equations; lia.
Qed.

Definition in_cells (x y : Z) : bool := (X0 <=? x) && (x <? X0 + w2) && (Y0 <=? y) && (y <? Y0 + h2).

(** One of the four pixels of a cell of the text is drawn. *)
Definition cell_drawn (x y : Z) : bool :=
  d (text_Y (2 * x) (2 * y)) || d (text_Y (2 * x + 1) (2 * y)) || d (text_Y (2 * x) (2 * y + 1)) || d (text_Y (2 * x + 1) (2 * y + 1)).

Lemma chroma_cell x y r c i :
  0 <= x < W2 → 0 <= y < H2 → 0 <= r < h2 → 0 <= c < w2 → i = at_U W H x y ∨ i = at_V W H x y →
  planar_cell r c i ≠ None → r = y - Y0 ∧ c = x - X0.
Proof using All.
  intros HX HY Hr Hc Hi Hs. apply cell4_some in Hs. assert (0 <= (Y0 + r) * W2 + (X0 + c) < W2 * H2) as Hb by nia.
  assert (0 <= y * W2 + x < W2 * H2) as Hb' by nia. unfold at_Y, at_U, at_V in Hs, Hi. rewrite half_even, quarter in Hs, Hi.
  assert (y * W2 + x = (Y0 + r) * W2 + (X0 + c)) as E by (destruct Hi as [-> | ->], Hs as [E|[E|[E|[E|[E|E]]]]]; nia).
  apply rows_apart in E; lia.
Qed.

Lemma planar_chroma x y :
  0 <= x < W2 → 0 <= y < H2 →
  grid h2 w2 planar_cell (at_U W H x y) = (if in_cells x y then dot (cell_drawn (x - X0) (y - Y0)) (text_U (x - X0) (y - Y0)) else None) ∧
  grid h2 w2 planar_cell (at_V W H x y) = (if in_cells x y then dot (cell_drawn (x - X0) (y - Y0)) (text_V (x - X0) (y - Y0)) else None).
Proof using All.
  intros HX HY. unfold in_cells. destruct (_ && _) eqn:Ein.
  - rewrite !andb_true_iff, !Z.leb_le, !Z.ltb_lt in Ein. destruct Ein as [[[I1 I2] I3] I4].
    assert (∃ r c, y = Y0 + r ∧ x = X0 + c ∧ 0 <= r < h2 ∧ 0 <= c < w2) as (r & c & -> & -> & Hr & Hc) by (exists (y - Y0), (x - X0); lia).
    rewrite !(grid_one h2 w2 _ _ r c Hr Hc) by (intros r' c' Hr' Hc' Hs; apply (chroma_cell _ _ _ _ _ HX HY Hr' Hc') in Hs; [lia|by auto]).
    destruct (cell4_at d _ _ _ _ _ _ (text_Y (2 * c) (2 * r)) (text_Y (2 * c + 1) (2 * r)) (text_Y (2 * c) (2 * r + 1))
      (text_Y (2 * c + 1) (2 * r + 1)) (text_U c r) (text_V c r) (planar_places r c Hr Hc)) as (_ & _ & _ & _ & C5 & C6).
    replace (X0 + c - X0) with c by lia. replace (Y0 + r - Y0) with r by lia. by split.
  - assert (∀ i, i = at_U W H x y ∨ i = at_V W H x y → grid h2 w2 planar_cell i = None) as Hn; [|by split; apply Hn; auto].
    intros i Hi. apply grid_none. intros r c Hr Hc. destruct (planar_cell r c i) eqn:E; [|done].
    destruct (chroma_cell x y r c i HX HY Hr Hc Hi) as [-> ->]; [by rewrite E|]. exfalso. revert Ein.
    destruct (Z.leb_spec X0 x), (Z.ltb_spec x (X0 + w2)), (Z.leb_spec Y0 y), (Z.ltb_spec y (Y0 + h2)); try done; lia.
Qed.
End planar.

(** *** The loop of [Overlap_YUV420P] *)

(** The bytes of the converted text at its own coordinates. *)
Definition text_Y (t : S_TEXT_OVERLAP) (x y : Z) : Z := byte (pu8TextBGImg t) (at_Y (u32TextImgWidth t) x y).
Definition text_U (t : S_TEXT_OVERLAP) (x y : Z) : Z := byte (pu8TextBGImg t) (at_U (u32TextImgWidth t) (u32TextImgHeight t) x y).
Definition text_V (t : S_TEXT_OVERLAP) (x y : Z) : Z := byte (pu8TextBGImg t) (at_V (u32TextImgWidth t) (u32TextImgHeight t) x y).

Lemma planar_drawn t W2 H2 X0 Y0 w2 h2 img :
  0 <= X0 ∧ 0 <= Y0 ∧ 0 < w2 ∧ 0 < h2 → X0 + w2 <= W2 → Y0 + h2 <= H2 → 2 * W2 * (2 * H2) < 2 ^ 31 →
  u32TextImgWidth t = 2 * w2 → u32TextImgHeight t = 2 * h2 → 6 * w2 * h2 <= Z.of_nat (length (pu8TextBGImg t)) →
  Z.of_nat (length img) = 6 * W2 * H2 →
  returns (Overlap_YUV420P t (2 * W2) (2 * H2) (2 * X0) (2 * Y0) img) (λ img',
    drawn img img' (grid h2 w2 (planar_cell (differs t) (text_Y t) (text_U t) (text_V t) W2 H2 X0 Y0))).
Proof.
  intros Hpos Hx Hy Hsize How Hoh Hlen Hi. unfold Overlap_YUV420P. rewrite How, Hoh, !half_even.
  assert (0 < W2 ∧ 0 < H2) as [HW HH] by lia. assert (w2 * h2 <= W2 * H2) as Hwh by nia.
  assert (W2 <= W2 * H2 ∧ H2 <= W2 * H2 ∧ w2 <= W2 * H2 ∧ h2 <= W2 * H2) as Hs by nia.
  rewrite !(u32_small (2 * W2 * (2 * H2))), !(u32_small (2 * w2 * (2 * h2))), !quarter by nia.
  rewrite (u32_small (Y0 * W2 + X0)), (u32_small (2 * Y0 * (2 * W2) + 2 * X0)), !(u32_small (2 * W2 * 2)), (u32_small (2 * w2 * 2)) by nia.
  rewrite for_2_halves by (unfold U32_MAX; lia). apply grid_drawn_2; [unfold U32_MAX; lia|]. intros r c m Hr Hc Hm. cbv beta zeta.
  assert (0 <= r * w2 + c < w2 * h2) as Ht by nia. assert (0 <= (Y0 + r) * W2 + (X0 + c) < W2 * H2) as Hb by nia.
  rewrite !rdz_byte by nia. rewrite !bind_Ok. eapply returns_mono.
  - apply cell4_drawn.
    + rewrite !NoDup_cons, !not_elem_of_cons. split_and!; first [apply not_elem_of_nil|apply NoDup_nil_2|nia].
    + rewrite Hm, Hi, !Forall_cons, Forall_nil. split_and!; first [done|nia].
  - intros m'. apply drawn_pen_eq. intros i. unfold planar_cell, text_Y, text_U, text_V, at_Y, at_U, at_V.
    rewrite How, Hoh, !half_even, !quarter. f_equal; first [lia|f_equal; lia].
Qed.



(** ** The characters side by side *)

Section pack.
Context (t : S_TEXT_OVERLAP) (gs : list (list Z)).
Abbreviation n := (Z.of_nat (length gs)).
Abbreviation fw := (u32FontWidth t).
Abbreviation fh := (u32FontHeight t).
Hypothesis Hf : 0 < n ∧ 0 < fw ∧ 0 < fh.
Hypothesis Hglyphs : Forall (λ g, Z.of_nat (length g) = fw * fh * 2) gs.
Hypothesis Hroom : n * fw * fh * 2 <= Z.of_nat (length (pu8TextImg t)).
Hypothesis Hwidth : n * fw * fh * 2 < 2 ^ 32.

(** Byte [j] of the pixel at [x], [y]: its brightness or its colour. *)
Definition glyph_byte (x y j : Z) : Z := byte (default [] (gs !! Z.to_nat (x / fw))) (2 * (y * fw + x mod fw) + j).

Lemma glyph_at i : 0 <= i < n → ∃ g, gs !! Z.to_nat i = Some g ∧ Z.of_nat (length g) = fw * fh * 2.
Proof using Hf Hglyphs.
  intros Hi. destruct (lookup_lt_is_Some_2 gs (Z.to_nat i)) as [g Eg]; [lia|]. exists g. split; [done|].
  by apply (Forall_lookup_1 _ _ _ _ Hglyphs Eg).
Qed.

(** Character [i] of line [y] stays in the line. *)
Lemma in_rows i y : 0 <= i < n → 0 <= y < fh → 0 <= y * (n * fw) + i * fw ∧ y * (n * fw) + i * fw + fw <= n * fw * fh.
Proof using Hf.
  intros Hi Hy. pose proof (Z.mul_le_mono_nonneg_r (i + 1) n fw ltac:(lia) ltac:(lia)).
  pose proof (Z.mul_le_mono_nonneg_r (y + 1) fh (n * fw) ltac:(lia) ltac:(lia)).
  pose proof (Z.mul_nonneg_nonneg i fw ltac:(lia) ltac:(lia)). pose proof (Z.mul_nonneg_nonneg y (n * fw) ltac:(lia) ltac:(lia)). lia.
Qed.

Definition glyph_rows (i y : Z) : pen := copied ((y * (n * fw) + i * fw) * 2) (default [] (gs !! Z.to_nat i)) (y * (fw * 2)) (fw * 2).

Lemma pack_drawn :
  returns (PackTextImg t gs n) (λ t', ∃ img, drawn (pu8TextImg t) img (grid n fh glyph_rows) ∧
    t' = MkText fw fh (u32MaxTexts t) img (pu8TextBGImg t) (n * fw) fh (u32ColorKeyY t) (u32ColorKeyU t) (u32ColorKeyV t)).
Proof using All.
  unfold PackTextImg.
  assert (fw <= n * fw) as Hs1 by (clear -Hf; nia). assert (n * fw <= n * fw * fh) as Hs2 by (clear -Hf; nia).
  rewrite (Z.mul_comm fw n), (u32_small (n * fw)), (u32_small (fw * 2)) by lia.
  apply returns_bind with (P := λ img, drawn (pu8TextImg t) img (grid n fh glyph_rows)); [|intros img Hd; apply returns_Ok; by exists img].
  apply for_n_drawn. intros i m1 Hi H1. destruct (glyph_at i Hi) as (g & Eg & Hg). rewrite (rd_Ok _ _ _ Eg), bind_Ok.
  unfold glyph_rows. rewrite Eg. cbn [default]. apply for_n_drawn. intros y m2 Hy H2.
  assert (0 <= y * (n * fw) + i * fw ∧ y * (n * fw) + i * fw + fw <= n * fw * fh) as Hb by (by apply in_rows).
  assert (0 <= y * fw ∧ y * fw + fw <= fw * fh) as Hg' by (clear -Hf Hy; nia).
  rewrite u32_small by lia. apply memcpy_drawn; unfold id; rewrite ?H2, ?H1; lia.
Qed.

Lemma glyph_row_at x y j : 0 <= x < n * fw → 0 <= y < fh → 0 <= j < 2 →
  grid n fh glyph_rows (2 * at_Y (n * fw) x y + j) = Some (glyph_byte x y j).
Proof using All.
  intros Hx Hy Hj. assert (0 <= x / fw < n) as Hi by (split; [apply Z.div_pos; lia|apply Z.div_lt_upper_bound; lia]).
  pose proof (Z.mod_pos_bound x fw ltac:(lia)) as Hm. pose proof (Z.div_mod x fw ltac:(lia)) as Ex.
  rewrite (grid_one n fh _ _ (x / fw) y Hi Hy).
  - unfold glyph_rows, copied, glyph_byte, at_Y. destruct (glyph_at (x / fw) Hi) as (g & Eg & Hg). rewrite Eg. cbn [default].
    assert (2 * (y * (n * fw) + x) + j = (y * (n * fw) + x / fw * fw) * 2 + (2 * (x mod fw) + j)) as -> by lia.
    set (b := (y * (n * fw) + x / fw * fw) * 2). rewrite (proj2 (Z.leb_le _ _)), (proj2 (Z.ltb_lt _ _)) by lia. cbn [andb].
    assert (0 <= y * fw ∧ y * fw + fw <= fw * fh) as Hg' by (clear -Hf Hy; nia).
    unfold id. rewrite px_byte by lia. f_equal. f_equal. lia.
  - intros i' y' Hi' Hy' Hs. unfold glyph_rows, copied, at_Y in Hs.
    destruct (_ <=? _) eqn:L1; [|done]. destruct (_ <? _) eqn:L2; [|done]. apply Z.leb_le in L1. apply Z.ltb_lt in L2.
    assert (y' * (n * fw) + i' * fw <= y * (n * fw) + x < y' * (n * fw) + (i' + 1) * fw) as Hr by lia.
    assert (0 <= i' * fw ∧ i' * fw + fw <= n * fw) as Hi'' by (clear -Hf Hi'; nia).
    assert (y' = y) as ->.
    { replace ((i' + 1) * fw) with (i' * fw + fw) in Hr by lia. revert Hr Hi'' Hx. clear. generalize (n * fw) (i' * fw) fw. intros A B f ? ? ?.
      assert (y' < y + 1) by nia. assert (y < y' + 1) by nia. lia. }
    split; [|done]. assert (i' * fw <= x < (i' + 1) * fw) as Hq by lia. apply Z.div_unique with (x - i' * fw); lia.
Qed.
End pack.

(** ** The conversion to three planes *)

(** All six bytes of a cell. *)
Lemma put_cell m o00 o01 o10 o11 ou ov y00 y01 y10 y11 u v :
  NoDup [o00; o01; o10; o11; ou; ov] → Forall (λ o, 0 <= o < Z.of_nat (length m)) [o00; o01; o10; o11; ou; ov] →
  returns (put m [(o00, y00); (o01, y01); (o10, y10); (o11, y11); (ou, u); (ov, v)])
    (λ m', drawn m m' (cell4 (λ _, true) o00 o01 o10 o11 ou ov y00 y01 y10 y11 u v)).
Proof.
  intros Hn Hf. rewrite !Forall_cons in Hf. destruct Hf as (F1 & F2 & F3 & F4 & F5 & F6 & _). eapply returns_mono.
  - apply put_drawn. unfold fits. rewrite !Forall_cons, Forall_nil. cbn [fst]. split_and!; (lia || done).
  - intros m'. apply drawn_pen_eq. intros i. unfold cell4, dot, dots. cbn [foldl orb]. unfold over.
    rewrite !NoDup_cons, !not_elem_of_cons in Hn. destruct_and!.
    destruct (Z.eqb_spec i o00), (Z.eqb_spec i o01), (Z.eqb_spec i o10), (Z.eqb_spec i o11), (Z.eqb_spec i ou), (Z.eqb_spec i ov); congruence.
Qed.

(** The mean of a colour over two lines. *)
Definition mean (a b : Z) : Z := (a + b) >>> 1.

Section convert.
Context (src : list Z) (w2 h2 : Z).
Hypothesis Hpos : 0 < w2 ∧ 0 < h2.
Hypothesis Hsize : 2 * w2 < 2 ^ 16 ∧ 2 * h2 < 2 ^ 16.
Hypothesis Hsrc : 8 * w2 * h2 <= Z.of_nat (length src).

Definition src_at (x y j : Z) : Z := byte src (2 * at_Y (2 * w2) x y + j).
Definition src_U (x y : Z) : Z := mean (src_at (2 * x) (2 * y) 1) (src_at (2 * x) (2 * y + 1) 1).
Definition src_V (x y : Z) : Z := mean (src_at (2 * x + 1) (2 * y) 1) (src_at (2 * x + 1) (2 * y + 1) 1).

Lemma convert_drawn dest :
  6 * w2 * h2 <= Z.of_nat (length dest) →
  returns (YUV422ToYUV420Planar_SW src dest (2 * w2) (2 * h2)) (λ bg,
    drawn dest bg (grid h2 w2 (planar_cell (λ _, true) (λ x y, src_at x y 0) src_U src_V w2 h2 0 0))).
Proof using All.
  intros Hd. unfold YUV422ToYUV420Planar_SW. assert (∀ n, 0 < n → 2 * n < 2 ^ 16 → u16 (2 * n) = 2 * n) as Hu by (intros; apply Z.mod_small; lia).
  rewrite !Hu by lia. cbv zeta. rewrite for_2_halves by (unfold U16_MAX; lia). apply grid_drawn_2; [unfold U16_MAX; lia|]. intros r c m Hr Hc Hm.
  assert (0 <= r * w2 + c < w2 * h2) as Ht by nia.
  rewrite !rdz_byte by nia. rewrite !bind_Ok. unfold halves. replace ((2 * w2 + 1) / 2) with w2 by (Z.div_mod_to_equations; lia).
  rewrite quarter. eapply returns_mono.
  - apply put_cell.
    + rewrite !NoDup_cons, !not_elem_of_cons. split_and!; first [apply not_elem_of_nil|apply NoDup_nil_2|nia].
    + rewrite Hm, !Forall_cons, Forall_nil. split_and!; first [done|nia].
  - intros m'. apply drawn_pen_eq. intros i. unfold planar_cell, src_U, src_V, mean, src_at, at_Y, at_U, at_V.
    rewrite !half_even, !quarter. f_equal; first [lia|f_equal; lia|f_equal; f_equal; f_equal; lia].
Qed.

Lemma converted dest :
  6 * w2 * h2 <= Z.of_nat (length dest) →
  returns (YUV422ToYUV420Planar_SW src dest (2 * w2) (2 * h2)) (λ bg, length bg = length dest ∧
    (∀ x y, 0 <= x < 2 * w2 → 0 <= y < 2 * h2 → byte bg (at_Y (2 * w2) x y) = src_at x y 0) ∧
    (∀ x y, 0 <= x < w2 → 0 <= y < h2 →
      byte bg (at_U (2 * w2) (2 * h2) x y) = src_U x y ∧ byte bg (at_V (2 * w2) (2 * h2) x y) = src_V x y)).
Proof using All.
  intros Hd. eapply returns_mono; [by apply convert_drawn|]. intros bg [Hl Hb]. split; [done|]. split; intros x y Hx Hy; unfold byte; rewrite !Hb.
  - rewrite planar_luma by lia. unfold in_text. rewrite !(proj2 (Z.leb_le _ _)), !(proj2 (Z.ltb_lt _ _)) by lia. cbn.
    f_equal; lia.
  - destruct (planar_chroma (λ _, true) (λ x y, src_at x y 0) src_U src_V w2 h2 0 0 w2 h2 ltac:(lia) ltac:(lia) ltac:(lia) x y Hx Hy) as [-> ->].
    unfold in_cells. rewrite !(proj2 (Z.leb_le _ _)), !(proj2 (Z.ltb_lt _ _)) by lia. cbn.
    by rewrite !Z.sub_0_r.
Qed.
End convert.

(** ** Text on a picture of three planes *)

(** Even positions. *)
Lemma even_pos x : (if truth (x .& 1) then x - 1 else x) = 2 * (x / 2).
Proof.
  change (x .& 1) with (Z.land x (Z.ones 1)). rewrite Z.land_ones by lia. change (2 ^ 1) with 2. pose proof (Z.div_mod x 2 ltac:(lia)).
  pose proof (Z.mod_pos_bound x 2 ltac:(lia)). unfold truth. destruct (Z.eqb_spec (x mod 2) 0); cbn [negb]; lia.
Qed.

Section on_picture.
Context (t : S_TEXT_OVERLAP) (gs : list (list Z)).

(** The brightness at [x], [y] of the text, the means of the colours of cell [x], [y]. *)
Definition glyph_Y (x y : Z) : Z := glyph_byte t gs x y 0.
Definition glyph_U (x y : Z) : Z := mean (glyph_byte t gs (2 * x) (2 * y) 1) (glyph_byte t gs (2 * x) (2 * y + 1) 1).
Definition glyph_V (x y : Z) : Z := mean (glyph_byte t gs (2 * x + 1) (2 * y) 1) (glyph_byte t gs (2 * x + 1) (2 * y + 1) 1).

(** The bytes of a picture of [2 * W2] by [2 * H2] with the text at cell [X0], [Y0]. *)
Definition luma_with (img : list Z) (W2 X0 Y0 X Y : Z) : Z :=
  if in_text X0 Y0 (Z.of_nat (length gs) * (u32FontWidth t / 2)) (u32FontHeight t / 2) X Y && differs t (glyph_Y (X - 2 * X0) (Y - 2 * Y0))
  then glyph_Y (X - 2 * X0) (Y - 2 * Y0) else byte img (at_Y (2 * W2) X Y).

Definition cell_shown (X0 Y0 x y : Z) : bool :=
  in_cells X0 Y0 (Z.of_nat (length gs) * (u32FontWidth t / 2)) (u32FontHeight t / 2) x y && cell_drawn (differs t) glyph_Y (x - X0) (y - Y0).

Definition U_with (img : list Z) (W2 H2 X0 Y0 x y : Z) : Z :=
  if cell_shown X0 Y0 x y then glyph_U (x - X0) (y - Y0) else byte img (at_U (2 * W2) (2 * H2) x y).

Definition V_with (img : list Z) (W2 H2 X0 Y0 x y : Z) : Z :=
  if cell_shown X0 Y0 x y then glyph_V (x - X0) (y - Y0) else byte img (at_V (2 * W2) (2 * H2) x y).

(** The text is ready to be drawn. *)
Definition text_ready (t' : S_TEXT_OVERLAP) : Prop :=
  u32TextImgWidth t' = Z.of_nat (length gs) * u32FontWidth t ∧ u32TextImgHeight t' = u32FontHeight t ∧
  u32FontWidth t' = u32FontWidth t ∧ u32FontHeight t' = u32FontHeight t ∧ u32MaxTexts t' = u32MaxTexts t ∧
  length (pu8TextImg t') = length (pu8TextImg t) ∧ length (pu8TextBGImg t') = length (pu8TextBGImg t) ∧
  u32ColorKeyY t' = u32ColorKeyY t.
End on_picture.

(** What the buffers of a handle and the characters have to be. *)
Definition text_fits (t : S_TEXT_OVERLAP) (gs : list (list Z)) : Prop :=
  let n := Z.of_nat (length gs) in
  0 < n ∧ n <= u32MaxTexts t ∧ 0 < u32FontWidth t ∧ 0 < u32FontHeight t ∧ Z.even (u32FontWidth t) ∧
  n * u32FontWidth t < 2 ^ 16 ∧ u32FontHeight t < 2 ^ 16 ∧ n * u32FontWidth t * u32FontHeight t * 2 < 2 ^ 32 ∧
  n * u32FontWidth t * u32FontHeight t * 2 <= Z.of_nat (length (pu8TextImg t)) ∧
  n * u32FontWidth t * u32FontHeight t * 2 <= Z.of_nat (length (pu8TextBGImg t)) ∧
  Forall (λ g, Z.of_nat (length g) = u32FontWidth t * u32FontHeight t * 2) gs.

Lemma even_half n : Z.even n → 2 * (n / 2) = n.
Proof. intros H. destruct (Zeven_ex n) as [m ->]; [by apply Zeven_bool_iff, Is_true_true|]. by rewrite half_even. Qed.

(** The text in the format of the picture. *)
Lemma planar_text t gs a b :
  text_fits t gs → u32FontWidth t = 2 * a → u32FontHeight t = 2 * b →
  let w2 := Z.of_nat (length gs) * a in
  returns (t ← PackTextImg t gs (Z.of_nat (length gs)); ColorTrans t eIMGPROC_YUV420P) (λ t',
    text_ready t gs t' ∧
    (∀ x y, 0 <= x < 2 * w2 → 0 <= y < 2 * b → text_Y t' x y = glyph_Y t gs x y) ∧
    (∀ x y, 0 <= x < w2 → 0 <= y < b → text_U t' x y = glyph_U t gs x y ∧ text_V t' x y = glyph_V t gs x y)).
Proof.
  intros (Hn & Hmax & Hfw & Hfh & Hev & Hw16 & Hh16 & H32 & Hr1 & Hr2 & Hg) Ha Hb w2.
  assert (Z.of_nat (length gs) * u32FontWidth t = 2 * w2) as Ew by (unfold w2; lia).
  assert (Z.of_nat (length gs) * u32FontWidth t * u32FontHeight t * 2 = 8 * w2 * b) as Es by (rewrite Ew, Hb; lia).
  assert (0 < w2 ∧ 0 < b) as Hp by lia.
  eapply returns_bind; [by apply pack_drawn|]. intros ? (im & [Hl Hd] & ->). unfold ColorTrans, ImgProc_CST. cbn -[YUV422ToYUV420Planar_SW]. rewrite Hb, Ew.
  eapply returns_bind; [apply converted; first [done|lia]|]. intros bg (Hbl & HY & HUV). apply returns_Ok.
  assert (∀ x y j, 0 <= x < 2 * w2 → 0 <= y < 2 * b → 0 <= j < 2 → src_at im w2 x y j = glyph_byte t gs x y j) as Hsrc.
  { intros x y j Hx Hy Hj. unfold src_at, byte. rewrite Hd, <- Ew, glyph_row_at; first [done|lia|idtac]. }
  split; [unfold text_ready; cbn; split_and!; first [done|lia]|]. unfold text_Y, text_U, text_V. cbn.
  split; intros x y Hx Hy; [rewrite HY by done; apply Hsrc; lia|].
  destruct (HUV x y Hx Hy) as [-> ->]. unfold src_U, src_V, glyph_U, glyph_V. rewrite !Hsrc by lia. done.
Qed.

Lemma in_cells_spec X0 Y0 w2 h2 x y : in_cells X0 Y0 w2 h2 x y = true ↔ X0 <= x < X0 + w2 ∧ Y0 <= y < Y0 + h2.
Proof. unfold in_cells. rewrite !andb_true_iff, !Z.leb_le, !Z.ltb_lt. lia. Qed.

Lemma in_text_spec X0 Y0 w2 h2 x y : in_text X0 Y0 w2 h2 x y = true ↔ 2 * X0 <= x < 2 * (X0 + w2) ∧ 2 * Y0 <= y < 2 * (Y0 + h2).
Proof. unfold in_text. rewrite !andb_true_iff, !Z.leb_le, !Z.ltb_lt. lia. Qed.

(** A picture drawn with a text that is ready. *)
Lemma planar_picture t gs t' a b W2 H2 X0 Y0 img img' :
  u32FontWidth t = 2 * a → u32FontHeight t = 2 * b → 0 < a → 0 < b → 0 < Z.of_nat (length gs) →
  text_ready t gs t' →
  (∀ x y, 0 <= x < 2 * (Z.of_nat (length gs) * a) → 0 <= y < 2 * b → text_Y t' x y = glyph_Y t gs x y) →
  (∀ x y, 0 <= x < Z.of_nat (length gs) * a → 0 <= y < b → text_U t' x y = glyph_U t gs x y ∧ text_V t' x y = glyph_V t gs x y) →
  0 <= X0 → 0 <= Y0 → X0 + Z.of_nat (length gs) * a <= W2 → Y0 + b <= H2 →
  drawn img img' (grid b (Z.of_nat (length gs) * a) (planar_cell (differs t') (text_Y t') (text_U t') (text_V t') W2 H2 X0 Y0)) →
  length img' = length img ∧
  (∀ X Y, 0 <= X < 2 * W2 → 0 <= Y < 2 * H2 → byte img' (at_Y (2 * W2) X Y) = luma_with t gs img W2 X0 Y0 X Y) ∧
  (∀ x y, 0 <= x < W2 → 0 <= y < H2 →
    byte img' (at_U (2 * W2) (2 * H2) x y) = U_with t gs img W2 H2 X0 Y0 x y ∧
    byte img' (at_V (2 * W2) (2 * H2) x y) = V_with t gs img W2 H2 X0 Y0 x y).
Proof.
  intros Ha Hb Ha0 Hb0 Hn (_ & _ & _ & _ & _ & _ & _ & Hk) HY HUV HX0 HY0 HW HH [Hl Hd].
  set (w2 := Z.of_nat (length gs) * a) in *. assert (0 < w2) as Hw2 by (unfold w2; lia).
  assert (∀ v, differs t' v = differs t v) as Hdf by (intros v; unfold differs; by rewrite Hk).
  unfold luma_with, U_with, V_with, cell_shown. rewrite Ha, Hb, !half_even. fold w2. split; [done|].
  split; intros x y Hx Hy; unfold byte at 1; rewrite ?Hd.
  - rewrite planar_luma by lia. destruct (in_text _ _ _ _ _ _) eqn:Ein; [|done]. apply in_text_spec in Ein.
    rewrite HY, Hdf by lia. cbn [andb]. by destruct (differs t _).
  - unfold byte at 2. rewrite Hd.
    destruct (planar_chroma (differs t') (text_Y t') (text_U t') (text_V t') W2 H2 X0 Y0 w2 b ltac:(lia) HW HH x y Hx Hy) as [-> ->].
    destruct (in_cells _ _ _ _ _ _) eqn:Ein; [|done]. apply in_cells_spec in Ein.
    assert (cell_drawn (differs t') (text_Y t') (x - X0) (y - Y0) = cell_drawn (differs t) (glyph_Y t gs) (x - X0) (y - Y0)) as ->
      by (unfold cell_drawn; rewrite !HY, !Hdf by lia; done).
    destruct (HUV (x - X0) (y - Y0) ltac:(lia) ltac:(lia)) as [-> ->]. cbn [andb]. by destruct (cell_drawn _ _ _ _).
Qed.

(** Text on a picture of three planes.  For characters of an even size that fit on one
    line of a picture of even size, [TextOverlap_Overlap] succeeds without touching a byte
    outside its buffers, and afterwards every byte of the picture is known: inside the text,
    whose corner is rounded down to even coordinates, a pixel is the one of the character
    unless that has the key brightness; a pair of colour bytes is the mean of the
    character's two lines where one of the four pixels that share it is drawn; all other
    bytes are the ones the picture had. *)
Lemma text_on_planar t gs img W2 H2 x y :
  text_fits t gs → Z.even (u32FontHeight t) →
  0 <= x → 0 <= y → y + u32FontHeight t <= 2 * H2 → x + Z.of_nat (length gs) * u32FontWidth t <= 2 * W2 →
  2 * W2 * (2 * H2) < 2 ^ 31 → Z.of_nat (length img) = 6 * W2 * H2 →
  returns (TextOverlap_Overlap (Some t) gs (Z.of_nat (length gs)) img eIMGPROC_YUV420P (2 * W2) (2 * H2) x y)
    (λ '(e, h, img'), e = eTEXT_OVERLAP_ERROR_NONE ∧ (∃ t', h = Some t' ∧ text_ready t gs t') ∧ length img' = length img ∧
      (∀ X Y, 0 <= X < 2 * W2 → 0 <= Y < 2 * H2 →
        byte img' (at_Y (2 * W2) X Y) = luma_with t gs img W2 (x / 2) (y / 2) X Y) ∧
      (∀ X Y, 0 <= X < W2 → 0 <= Y < H2 →
        byte img' (at_U (2 * W2) (2 * H2) X Y) = U_with t gs img W2 H2 (x / 2) (y / 2) X Y ∧
        byte img' (at_V (2 * W2) (2 * H2) X Y) = V_with t gs img W2 H2 (x / 2) (y / 2) X Y)).
Proof.
  intros Hfit Heh Hx0 Hy0 Hy Hx Hsize Hi. pose proof Hfit as (Hn & Hmax & Hfw & Hfh & Hew & _ & Hh16 & _ & _ & Hr2 & _).
  assert (0 < W2 ∧ 0 < H2) as HWH by lia. assert (2 * H2 <= 2 * W2 * (2 * H2)) as HH32 by nia.
  unfold TextOverlap_Overlap. rewrite (proj2 (Z.ltb_ge _ _)), u32_small, (proj2 (Z.ltb_ge _ _)) by lia. cbn [orb andb]. cbv zeta.
  change (eIMGPROC_YUV420P =? eIMGPROC_YUV420P) with true. change (eIMGPROC_YUV420P =? eIMGPROC_YUV420) with false. cbn [orb andb].
  change (eIMGPROC_YUV420P =? eIMGPROC_YUV420P_MB) with false. change (eIMGPROC_YUV420P =? eIMGPROC_YUV422) with false.
  change (eIMGPROC_YUV420P =? eIMGPROC_YUV422P) with false. cbn [andb]. rewrite !even_pos.
  pose proof (even_half _ Hew) as Ea. pose proof (even_half _ Heh) as Eb. symmetry in Ea, Eb.
  set (a := u32FontWidth t / 2) in *. set (b := u32FontHeight t / 2) in *. clearbody a b.
  pose proof (Z.div_mod x 2 ltac:(lia)). pose proof (Z.mod_pos_bound x 2 ltac:(lia)). pose proof (Z.div_mod y 2 ltac:(lia)). pose proof (Z.mod_pos_bound y 2 ltac:(lia)).
  rewrite <- bind_assoc. eapply returns_bind; [by apply (planar_text t gs a b)|]. intros t' (Hready & HY & HUV).
  pose proof Hready as (Rw & Rh & _ & _ & _ & _ & Rl & _).
  eapply returns_bind; [apply (planar_drawn t' W2 H2 (x / 2) (y / 2) (Z.of_nat (length gs) * a) b); lia|].
  intros img' Hd. apply returns_Ok. split; [done|]. split; [by exists t'|].
  eapply (planar_picture t gs t' a b); try done; lia.
Qed.

Lemma text_on_planar_witness :
  let t := MkText 2 2 4 (replicate 32 0) (replicate 32 0) 0 0 255 128 128 in
  let gs := [[1; 2; 255; 3; 255; 4; 255; 5]; [255; 6; 255; 7; 255; 8; 255; 9]] in
  returns (TextOverlap_Overlap (Some t) gs 2 (replicate 48 77) eIMGPROC_YUV420P 8 4 3 2)
    (λ '(e, h, img'), e = 0 ∧ (∃ t', h = Some t' ∧ text_ready t gs t') ∧ length img' = 48%nat ∧
      (∀ X Y, 0 <= X < 8 → 0 <= Y < 4 → byte img' (at_Y 8 X Y) = if (X =? 2) && (Y =? 2) then 1 else 77) ∧
      (∀ X Y, 0 <= X < 4 → 0 <= Y < 2 →
        byte img' (at_U 8 4 X Y) = (if (X =? 1) && (Y =? 1) then 3 else 77) ∧
        byte img' (at_V 8 4 X Y) = (if (X =? 1) && (Y =? 1) then 4 else 77))).
Proof.
  intros t gs.
  refine (returns_mono _ _ _ (text_on_planar t gs (replicate 48 77) 4 2 3 2 _ _ _ _ _ _ _ _) _).
  1: unfold text_fits; cbn; split_and!; first [lia|done|by repeat constructor].
  1-7: first [done|vm_compute; congruence].
  intros [[e h] img'] (He & Ht & Hl & HY & HUV). split_and!; [done|done|done| |].
  - intros X Y HX HY'. rewrite (HY X Y HX HY' : byte img' (at_Y 8 X Y) = _).
    assert (X = 0 ∨ X = 1 ∨ X = 2 ∨ X = 3 ∨ X = 4 ∨ X = 5 ∨ X = 6 ∨ X = 7) as EX by lia. assert (Y = 0 ∨ Y = 1 ∨ Y = 2 ∨ Y = 3) as EY by lia.
    clear -EX EY. by destruct_or!; subst X Y; vm_compute.
  - intros X Y HX HY'. destruct (HUV X Y HX HY') as [EU EV]. change (2 * 4) with 8 in EU, EV. change (2 * 2) with 4 in EU, EV. rewrite EU, EV. clear EU EV.
    assert (X = 0 ∨ X = 1 ∨ X = 2 ∨ X = 3) as EX by lia. assert (Y = 0 ∨ Y = 1) as EY by lia.
    clear -EX EY. by destruct_or!; subst X Y; vm_compute.
Defined.

(** ** Text on a packed picture *)

(** Cells of two pixels; [W] is the width of the picture in pixels, the byte [text x y j] is
    byte [j] of a pixel of the text. *)
Section packed.
Context (d : Z → bool) (text : Z → Z → Z → Z) (W X0 Y0 w2 h : Z).
Hypothesis Hpos : 0 <= X0 ∧ 0 <= Y0 ∧ 0 < w2 ∧ 0 < h.
Hypothesis Hx : 2 * (X0 + w2) <= W.

Definition at_px (x y j : Z) : Z := 2 * at_Y W x y + j.

Definition packed_cell (r c : Z) : pen :=
  cell2 d (at_px (2 * (X0 + c)) (Y0 + r) 0) (at_px (2 * (X0 + c) + 1) (Y0 + r) 0)
    (at_px (2 * (X0 + c)) (Y0 + r) 1) (at_px (2 * (X0 + c) + 1) (Y0 + r) 1)
    (text (2 * c) r 0) (text (2 * c + 1) r 0) (text (2 * c) r 1) (text (2 * c + 1) r 1).

Lemma at_px_inj x y j x' y' j' :
  0 <= x < W → 0 <= x' < W → 0 <= j < 2 → 0 <= j' < 2 → at_px x y j = at_px x' y' j' → x = x' ∧ y = y' ∧ j = j'.
Proof. intros Hx1 Hx2 Hj Hj' E. unfold at_px in E. assert (at_Y W x y = at_Y W x' y') as E' by lia. apply at_Y_inj in E'; lia. Qed.

Lemma packed_places r c : 0 <= c < w2 →
  NoDup [at_px (2 * (X0 + c)) (Y0 + r) 0; at_px (2 * (X0 + c) + 1) (Y0 + r) 0; at_px (2 * (X0 + c)) (Y0 + r) 1; at_px (2 * (X0 + c) + 1) (Y0 + r) 1].
Proof using All.
  intros Hc. unfold at_px, at_Y. rewrite !NoDup_cons, !not_elem_of_cons. split_and!; first [apply not_elem_of_nil|apply NoDup_nil_2|lia].
Qed.

Definition in_box (x y : Z) : bool := (2 * X0 <=? x) && (x <? 2 * (X0 + w2)) && (Y0 <=? y) && (y <? Y0 + h).

Lemma in_box_spec x y : in_box x y = true ↔ 2 * X0 <= x < 2 * (X0 + w2) ∧ Y0 <= y < Y0 + h.
Proof. unfold in_box. rewrite !andb_true_iff, !Z.leb_le, !Z.ltb_lt. lia. Qed.

(** One of the two pixels of the cell of pixel [x] is drawn. *)
Definition pair_drawn (x y : Z) : bool := d (text (2 * (x / 2)) y 0) || d (text (2 * (x / 2) + 1) y 0).

Lemma pixel_cell X Y j r c :
  0 <= X < W → 0 <= j < 2 → 0 <= c < w2 → packed_cell r c (at_px X Y j) ≠ None → r = Y - Y0 ∧ c = X / 2 - X0.
Proof using All.
  intros HX Hj Hc Hs. apply cell2_some in Hs. destruct Hs as [E|[E|[E|E]]]; apply at_px_inj in E as (-> & -> & _); try lia.
  all: Z.div_mod_to_equations; lia.
Qed.

Lemma packed_at X Y :
  0 <= X < W →
  let x := X - 2 * X0 in
  let y := Y - Y0 in
  grid h w2 packed_cell (at_px X Y 0) = (if in_box X Y then dot (d (text x y 0)) (text x y 0) else None) ∧
  grid h w2 packed_cell (at_px X Y 1) = (if in_box X Y then dot (pair_drawn x y) (text x y 1) else None).
Proof using All.
  intros HX x y. destruct (in_box X Y) eqn:Ein.
  - apply in_box_spec in Ein. set (c := X / 2 - X0).
    assert (0 <= y < h) as Hr by (unfold y; lia). assert (0 <= c < w2) as Hc by (unfold c; Z.div_mod_to_equations; lia).
    rewrite !(grid_one h w2 _ _ y c Hr Hc) by (intros r' c' Hr' Hc' Hs; apply pixel_cell in Hs; lia).
    destruct (cell2_at d _ _ _ _ (text (2 * c) y 0) (text (2 * c + 1) y 0) (text (2 * c) y 1) (text (2 * c + 1) y 1)
      (packed_places y c Hc)) as (C1 & C2 & C3 & C4).
    unfold pair_drawn. assert (x / 2 = c) as -> by (unfold x, c; Z.div_mod_to_equations; lia).
    assert (X = 2 * (X0 + c) ∧ x = 2 * c ∨ X = 2 * (X0 + c) + 1 ∧ x = 2 * c + 1) as HXc by (unfold x, c; Z.div_mod_to_equations; lia).
    assert (Y = Y0 + y) as EY by (unfold y; lia). clearbody x y c. rewrite EY. unfold packed_cell.
    destruct HXc as [[-> ->] | [-> ->]]; [rewrite C1, C3|rewrite C2, C4]; done.
  - assert (∀ j, 0 <= j < 2 → grid h w2 packed_cell (at_px X Y j) = None) as Hn; [|by split; apply Hn].
    intros j Hj. apply grid_none. intros r c Hr Hc. destruct (packed_cell r c (at_px X Y j)) eqn:E; [|done].
    destruct (pixel_cell X Y j r c HX Hj Hc) as [Er Ec]; [by rewrite E|]. exfalso.
    assert (in_box X Y = true) as Hin by (apply in_box_spec; Z.div_mod_to_equations; lia). congruence.
Qed.
End packed.

(** Byte [j] of a pixel of the converted text. *)
Definition text_px (t : S_TEXT_OVERLAP) (x y j : Z) : Z := byte (pu8TextBGImg t) (at_px (u32TextImgWidth t) x y j).

Lemma packed_drawn t W H X0 Y0 w2 h img :
  0 <= X0 ∧ 0 <= Y0 ∧ 0 < w2 ∧ 0 < h → 2 * (X0 + w2) <= W → Y0 + h <= H → W * H * 2 < 2 ^ 32 →
  u32TextImgWidth t = 2 * w2 → u32TextImgHeight t = h → 4 * w2 * h <= Z.of_nat (length (pu8TextBGImg t)) →
  Z.of_nat (length img) = 2 * W * H →
  returns (Overlap_YUV422 t W (2 * X0) Y0 img) (λ img', drawn img img' (grid h w2 (packed_cell (differs t) (text_px t) W X0 Y0))).
Proof.
  intros Hpos Hx Hy Hsize How Hoh Hlen Hi. unfold Overlap_YUV422. rewrite How, Hoh.
  assert (Y0 * W + 2 * X0 < W * H ∧ W <= W * H) as [Hs0 Hs1] by nia.
  assert (2 * w2 * 2 <= W * H * 2) as Hs2 by lia.
  rewrite (u32_small ((Y0 * W + 2 * X0) * 2)), (u32_small (W * 2)), (u32_small (2 * w2 * 2)) by nia.
  apply grid_drawn_2; [unfold U32_MAX; lia|]. intros r c m Hr Hc Hm. cbv beta zeta.
  assert (0 <= r * w2 + c < w2 * h) as Ht by nia. assert (0 <= (Y0 + r) * W + 2 * (X0 + c) ∧ (Y0 + r) * W + 2 * (X0 + c) + 1 < W * H) as Hb by nia.
  rewrite !rdz_byte by nia. rewrite !bind_Ok.
  set (bg := (Y0 * W + 2 * X0) * 2 + r * (W * 2) + 4 * c). set (op := r * (2 * w2 * 2) + 4 * c).
  assert (bg = 2 * ((Y0 + r) * W + 2 * (X0 + c))) as Ebg by (unfold bg; lia). assert (op = 4 * (r * w2 + c)) as Eop by (unfold op; lia).
  clearbody bg op. eapply returns_mono.
  - apply (cell2_drawn (differs t) m bg (bg + 2) (bg + 1) (bg + 3)).
    + rewrite !NoDup_cons, !not_elem_of_cons. split_and!; first [apply not_elem_of_nil|apply NoDup_nil_2|lia].
    + rewrite Hm, Hi, !Forall_cons, Forall_nil. split_and!; first [done|lia].
    + done.
    + apply perm_swap.
    + done.
    + intros i. unfold dots. cbn [foldl]. unfold over. destruct (Z.eqb_spec i (bg + 3)), (Z.eqb_spec i (bg + 2)), (Z.eqb_spec i (bg + 1)); done || lia.
  - intros m'. apply drawn_pen_eq. intros i. unfold packed_cell, text_px, at_px, at_Y. rewrite How. f_equal; first [lia|f_equal; lia].
Qed.

Lemma packed_text t gs :
  text_fits t gs →
  returns (t ← PackTextImg t gs (Z.of_nat (length gs)); ColorTrans t eIMGPROC_YUV422) (λ t',
    text_ready t gs t' ∧
    (∀ x y j, 0 <= x < Z.of_nat (length gs) * u32FontWidth t → 0 <= y < u32FontHeight t → 0 <= j < 2 → text_px t' x y j = glyph_byte t gs x y j)).
Proof.
  intros (Hn & Hmax & Hfw & Hfh & Hev & Hw16 & Hh16 & H32 & Hr1 & Hr2 & Hg).
  eapply returns_bind; [by apply pack_drawn|]. intros ? (im & [Hl Hd] & ->). unfold ColorTrans. cbn -[memcpy].
  set (w := Z.of_nat (length gs) * u32FontWidth t) in *. assert (0 < w) as Hw by (unfold w; lia).
  assert (0 < w * u32FontHeight t) as Hwh by lia. rewrite u32_small by lia.
  eapply returns_bind; [apply memcpy_drawn; lia|]. intros bg [Hbl Hb]. apply returns_Ok.
  split; [unfold text_ready; cbn; split_and!; first [done|lia]|]. unfold text_px, byte, at_px. cbn. fold w. intros x y j Hx Hy Hj.
  assert (0 <= at_Y w x y < w * u32FontHeight t) as Ha by (unfold at_Y; nia).
  rewrite Hb. unfold copied. rewrite (proj2 (Z.leb_le _ _)), (proj2 (Z.ltb_lt _ _)) by lia. cbn [andb].
  rewrite Z.add_0_l, Z.sub_0_r, Hd. unfold w. rewrite glyph_row_at by done. done.
Qed.

(** The bytes of a packed picture with the text at [2 * X0], [Y0]. *)
Definition pixel_with (t : S_TEXT_OVERLAP) (gs : list (list Z)) (img : list Z) (W X0 Y0 X Y j : Z) : Z :=
  let x := X - 2 * X0 in
  let y := Y - Y0 in
  if in_box X0 Y0 (Z.of_nat (length gs) * (u32FontWidth t / 2)) (u32FontHeight t) X Y &&
     (if j =? 0 then differs t (glyph_byte t gs x y 0) else pair_drawn (differs t) (glyph_byte t gs) x y)
  then glyph_byte t gs x y j else byte img (at_px W X Y j).

Lemma packed_picture t gs t' W H X0 Y0 img img' :
  text_fits t gs → text_ready t gs t' →
  (∀ x y j, 0 <= x < Z.of_nat (length gs) * u32FontWidth t → 0 <= y < u32FontHeight t → 0 <= j < 2 → text_px t' x y j = glyph_byte t gs x y j) →
  0 <= X0 → 0 <= Y0 → 2 * (X0 + Z.of_nat (length gs) * (u32FontWidth t / 2)) <= W → Y0 + u32FontHeight t <= H →
  drawn img img' (grid (u32FontHeight t) (Z.of_nat (length gs) * (u32FontWidth t / 2)) (packed_cell (differs t') (text_px t') W X0 Y0)) →
  length img' = length img ∧
  (∀ X Y j, 0 <= X < W → 0 <= Y < H → 0 <= j < 2 → byte img' (at_px W X Y j) = pixel_with t gs img W X0 Y0 X Y j).
Proof.
  intros (Hn & _ & Hfw & Hfh & Hev & _) (_ & _ & _ & _ & _ & _ & _ & Hk) HT HX0 HY0 HW HH [Hl Hd]. split; [done|].
  pose proof (even_half _ Hev) as Ea. set (w2 := Z.of_nat (length gs) * (u32FontWidth t / 2)) in *.
  assert (Z.of_nat (length gs) * u32FontWidth t = 2 * w2) as Ew by (unfold w2; lia). assert (0 < w2) as Hw2 by (unfold w2; lia). clear Ea.
  assert (∀ v, differs t' v = differs t v) as Hdf by (intros v; unfold differs; by rewrite Hk).
  intros X Y j HX HY Hj. unfold byte at 1. rewrite Hd. unfold pixel_with. fold w2.
  destruct (packed_at (differs t') (text_px t') W X0 Y0 w2 (u32FontHeight t) ltac:(lia) HW X Y HX) as [H0 H1].
  destruct (in_box _ _ _ _ _ _) eqn:Ein.
  - apply in_box_spec in Ein. assert (j = 0 ∨ j = 1) as [-> | ->] by lia; [rewrite H0|rewrite H1].
    + rewrite HT, Hdf by lia. cbn [andb Z.eqb]. by destruct (differs t _).
    + assert (pair_drawn (differs t') (text_px t') (X - 2 * X0) (Y - Y0) = pair_drawn (differs t) (glyph_byte t gs) (X - 2 * X0) (Y - Y0)) as ->.
      { unfold pair_drawn. rewrite !HT, !Hdf by (Z.div_mod_to_equations; lia). done. }
      rewrite HT by lia. change (1 =? 0) with false. cbn [andb]. destruct (pair_drawn (differs t) _ _ _); reflexivity.
  - assert (j = 0 ∨ j = 1) as [-> | ->] by lia; [rewrite H0|rewrite H1]; done.
Qed.

(** Text on a packed picture.  For characters of an even width that fit on one line,
    [TextOverlap_Overlap] succeeds without touching a byte outside its buffers, and
    afterwards every byte of the picture is known: inside the text, whose left edge is
    rounded down to an even column, the brightness of a pixel is the one of the character
    unless that is the key, a colour byte is the character's where one of the two pixels
    that share it is drawn; all other bytes are the ones the picture had. *)
Lemma text_on_packed t gs img W H x y :
  text_fits t gs → 0 <= x → 0 <= y → y + u32FontHeight t <= H → x + Z.of_nat (length gs) * u32FontWidth t <= W →
  W * H * 2 < 2 ^ 32 → Z.of_nat (length img) = 2 * W * H →
  returns (TextOverlap_Overlap (Some t) gs (Z.of_nat (length gs)) img eIMGPROC_YUV422 W H x y)
    (λ '(e, h, img'), e = eTEXT_OVERLAP_ERROR_NONE ∧ (∃ t', h = Some t' ∧ text_ready t gs t') ∧ length img' = length img ∧
      (∀ X Y j, 0 <= X < W → 0 <= Y < H → 0 <= j < 2 → byte img' (at_px W X Y j) = pixel_with t gs img W (x / 2) y X Y j)).
Proof.
  intros Hfit Hx0 Hy0 Hy Hx Hsize Hi. pose proof Hfit as (Hn & Hmax & Hfw & Hfh & Hew & _ & Hh16 & _ & _ & Hr2 & _).
  assert (0 < W ∧ 0 < H) as HWH by lia. assert (H <= W * H) as HH32 by nia.
  unfold TextOverlap_Overlap. rewrite (proj2 (Z.ltb_ge _ _)), u32_small, (proj2 (Z.ltb_ge _ _)) by lia. cbv zeta.
  change (eIMGPROC_YUV422 =? eIMGPROC_YUV420P_MB) with false. change (eIMGPROC_YUV422 =? eIMGPROC_YUV420) with false.
  change (eIMGPROC_YUV422 =? eIMGPROC_YUV420P) with false. change (eIMGPROC_YUV422 =? eIMGPROC_YUV422) with true. cbn [andb orb].
  rewrite even_pos. pose proof (Z.div_mod x 2 ltac:(lia)). pose proof (Z.mod_pos_bound x 2 ltac:(lia)).
  rewrite <- bind_assoc. eapply returns_bind; [by apply (packed_text t gs)|]. intros t' (Hready & HT).
  pose proof Hready as (Rw & Rh & _ & _ & _ & _ & Rl & _). pose proof (even_half _ Hew) as Ea.
  eapply returns_bind; [apply (packed_drawn t' W H (x / 2) y (Z.of_nat (length gs) * (u32FontWidth t / 2)) (u32FontHeight t)); lia|].
  intros img' Hd. apply returns_Ok. split; [done|]. split; [by exists t'|].
  eapply (packed_picture t gs t'); try done; lia.
Qed.

Lemma text_on_packed_witness :
  let t := MkText 2 1 4 (replicate 16 0) (replicate 16 0) 0 0 255 128 128 in
  let gs := [[1; 2; 255; 3]; [255; 6; 255; 7]] in
  returns (TextOverlap_Overlap (Some t) gs 2 (replicate 32 77) eIMGPROC_YUV422 8 2 3 1)
    (λ '(e, _, img'), e = 0 ∧ length img' = 32%nat ∧
      (∀ X Y, 0 <= X < 8 → 0 <= Y < 2 →
        byte img' (at_px 8 X Y 0) = (if (X =? 2) && (Y =? 1) then 1 else 77) ∧
        byte img' (at_px 8 X Y 1) = (if (X =? 2) && (Y =? 1) then 2 else if (X =? 3) && (Y =? 1) then 3 else 77))).
Proof.
  intros t gs. refine (returns_mono _ _ _ (text_on_packed t gs (replicate 32 77) 8 2 3 1 _ _ _ _ _ _ _) _).
  1: unfold text_fits; cbn; split_and!; first [lia|done|by repeat constructor].
  1-6: first [done|vm_compute; congruence].
  intros [[e h] img'] (He & Ht & Hl & HP). split_and!; [done|done|].
  intros X Y HX HY. rewrite !HP by lia.
  assert (X = 0 ∨ X = 1 ∨ X = 2 ∨ X = 3 ∨ X = 4 ∨ X = 5 ∨ X = 6 ∨ X = 7) as EX by lia. assert (Y = 0 ∨ Y = 1) as EY by lia.
  clear -EX EY. by destruct_or!; subst X Y; vm_compute.
Defined.
