(* ===== verification/Caption.v ===== *)
(** * The date on the picture ([Digit_8_16.h], [encoder-jpeg.c])

    The pictures of the characters, [OverlapText] that draws a string in the middle of a
    picture, and [DateOverlap] that draws the time. *)

From Stdlib Require Import String.
From S2P Require Import Prelude CString Pixels JpegEnc TextOverlap TextSpec.

Local Open Scope Z_scope.
Local Open Scope c_scope.

(** ** The characters: 8 by 16 pixels, two bytes each *)

Definition DIGIT_8_16_SIZE : Z := 8 * 16 * 2.
Definition DIGIT_8_16_WIDTH : Z := 8.
Definition DIGIT_8_16_HEIGHT : Z := 16.

Definition s_achPic_8_16_D0 : list Z :=
  [0xFF; 0x80; 0xFF; 0x80; 0xFF; 0x80; 0xFF; 0x80; 0xFF; 0x80; 0xFF; 0x80; 0xFF; 0x80; 0xFF; 0x80;
   0xFF; 0x80; 0xFF; 0x80; 0xFF; 0x80; 0xFF; 0x80; 0xFF; 0x80; 0xFF; 0x80; 0xFF; 0x80; 0xFF; 0x80;
   0xFF; 0x80; 0xFF; 0x80; 0xFF; 0x80; 0xFF; 0x80; 0xFF; 0x80; 0xFF; 0x80; 0xFF; 0x80; 0xFF; 0x80;
   0xFF; 0x80; 0xFF; 0x80; 0xFF; 0x80; 0xFF; 0x80; 0xFF; 0x80; 0xFF; 0x80; 0xFF; 0x80; 0xFF; 0x80;
   0xFF; 0x80; 0xFF; 0x80; 0x9B; 0x3E; 0x9B; 0xC7; 0x9B; 0x3E; 0x9B; 0xC7; 0xFF; 0x80; 0xFF; 0x80;
   0xFF; 0x5F; 0x9B; 0xA4; 0x9B; 0x5F; 0xFF; 0xA4; 0xFF; 0x5F; 0x9B; 0xA4; 0x9B; 0x5F; 0xFF; 0xA4;
   0xFF; 0x5F; 0x9B; 0xA4; 0x9B; 0x5F; 0xFF; 0xA4; 0xFF; 0x5F; 0x9B; 0xA4; 0x9B; 0x5F; 0xFF; 0xA4;
   0x9B; 0x3E; 0x9B; 0xC7; 0xFF; 0x80; 0xFF; 0x80; 0xFF; 0x80; 0xFF; 0x80; 0x9B; 0x3E; 0x9B; 0xC7;
   0x9B; 0x3E; 0x9B; 0xC7; 0xFF; 0x80; 0xFF; 0x80; 0xFF; 0x80; 0xFF; 0x80; 0x9B; 0x3E; 0x9B; 0xC7;
   0x9B; 0x3E; 0x9B; 0xC7; 0xFF; 0x80; 0xFF; 0x80; 0xFF; 0x80; 0xFF; 0x80; 0x9B; 0x3E; 0x9B; 0xC7;
   0x9B; 0x3E; 0x9B; 0xC7; 0xFF; 0x80; 0xFF; 0x80; 0xFF; 0x80; 0xFF; 0x80; 0x9B; 0x3E; 0x9B; 0xC7;
   0x9B; 0x3E; 0x9B; 0xC7; 0xFF; 0x80; 0xFF; 0x80; 0xFF; 0x80; 0xFF; 0x80; 0x9B; 0x3E; 0x9B; 0xC7;
   0x9B; 0x3E; 0x9B; 0xC7; 0xFF; 0x80; 0xFF; 0x80; 0xFF; 0x80; 0xFF; 0x80; 0x9B; 0x3E; 0x9B; 0xC7;
   0xFF; 0x5F; 0x9B; 0xA4; 0x9B; 0x5F; 0xFF; 0xA4; 0xFF; 0x5F; 0x9B; 0xA4; 0x9B; 0x5F; 0xFF; 0xA4;
   0xFF; 0x5F; 0x9B; 0xA4; 0x9B; 0x5F; 0xFF; 0xA4; 0xFF; 0x5F; 0x9B; 0xA4; 0x9B; 0x5F; 0xFF; 0xA4;
   0xFF; 0x80; 0xFF; 0x80; 0x9B; 0x3E; 0x9B; 0xC7; 0x9B; 0x3E; 0x9B; 0xC7; 0xFF; 0x80; 0xFF; 0x80].

Definition s_achPic_8_16_D1 : list Z :=
  [0xFF; 0x80; 0xFF; 0x80; 0xFF; 0x80; 0xFF; 0x80; 0xFF; 0x80; 0xFF; 0x80; 0xFF; 0x80; 0xFF; 0x80;
   0xFF; 0x80; 0xFF; 0x80; 0xFF; 0x80; 0xFF; 0x80; 0xFF; 0x80; 0xFF; 0x80; 0xFF; 0x80; 0xFF; 0x80;
   0xFF; 0x80; 0xFF; 0x80; 0xFF; 0x80; 0xFF; 0x80; 0xFF; 0x80; 0xFF; 0x80; 0xFF; 0x80; 0xFF; 0x80;
   0xFF; 0x80; 0xFF; 0x80; 0xFF; 0x80; 0xFF; 0x80; 0xFF; 0x80; 0xFF; 0x80; 0xFF; 0x80; 0xFF; 0x80;
   0xFF; 0x80; 0xFF; 0x80; 0xFF; 0x5F; 0x9B; 0xA4; 0x9B; 0x5F; 0xFF; 0xA4; 0xFF; 0x80; 0xFF; 0x80;
   0xFF; 0x80; 0xFF; 0x80; 0x9B; 0x3E; 0x9B; 0xC7; 0x9B; 0x5F; 0xFF; 0xA4; 0xFF; 0x80; 0xFF; 0x80;
   0xFF; 0x80; 0xFF; 0x80; 0xFF; 0x5F; 0x9B; 0xA4; 0x9B; 0x5F; 0xFF; 0xA4; 0xFF; 0x80; 0xFF; 0x80;
   0xFF; 0x80; 0xFF; 0x80; 0xFF; 0x5F; 0x9B; 0xA4; 0x9B; 0x5F; 0xFF; 0xA4; 0xFF; 0x80; 0xFF; 0x80;
   0xFF; 0x80; 0xFF; 0x80; 0xFF; 0x5F; 0x9B; 0xA4; 0x9B; 0x5F; 0xFF; 0xA4; 0xFF; 0x80; 0xFF; 0x80;
   0xFF; 0x80; 0xFF; 0x80; 0xFF; 0x5F; 0x9B; 0xA4; 0x9B; 0x5F; 0xFF; 0xA4; 0xFF; 0x80; 0xFF; 0x80;
   0xFF; 0x80; 0xFF; 0x80; 0xFF; 0x5F; 0x9B; 0xA4; 0x9B; 0x5F; 0xFF; 0xA4; 0xFF; 0x80; 0xFF; 0x80;
   0xFF; 0x80; 0xFF; 0x80; 0xFF; 0x5F; 0x9B; 0xA4; 0x9B; 0x5F; 0xFF; 0xA4; 0xFF; 0x80; 0xFF; 0x80;
   0xFF; 0x80; 0xFF; 0x80; 0xFF; 0x5F; 0x9B; 0xA4; 0x9B; 0x5F; 0xFF; 0xA4; 0xFF; 0x80; 0xFF; 0x80;
   0xFF; 0x80; 0xFF; 0x80; 0xFF; 0x5F; 0x9B; 0xA4; 0x9B; 0x5F; 0xFF; 0xA4; 0xFF; 0x80; 0xFF; 0x80;
   0xFF; 0x80; 0xFF; 0x80; 0xFF; 0x5F; 0x9B; 0xA4; 0x9B; 0x5F; 0xFF; 0xA4; 0xFF; 0x80; 0xFF; 0x80;
   0xFF; 0x5F; 0x9B; 0xA4; 0x9B; 0x3E; 0x9B; 0xC7; 0x9B; 0x3E; 0x9B; 0xC7; 0x9B; 0x5F; 0xFF; 0xA4].

Definition s_achPic_8_16_D2 : list Z :=
  [0xFF; 0x80; 0xFF; 0x80; 0xFF; 0x80; 0xFF; 0x80; 0xFF; 0x80; 0xFF; 0x80; 0xFF; 0x80; 0xFF; 0x80;
   0xFF; 0x80; 0xFF; 0x80; 0xFF; 0x80; 0xFF; 0x80; 0xFF; 0x80; 0xFF; 0x80; 0xFF; 0x80; 0xFF; 0x80;
   0xFF; 0x80; 0xFF; 0x80; 0xFF; 0x80; 0xFF; 0x80; 0xFF; 0x80; 0xFF; 0x80; 0xFF; 0x80; 0xFF; 0x80;
   0xFF; 0x80; 0xFF; 0x80; 0xFF; 0x80; 0xFF; 0x80; 0xFF; 0x80; 0xFF; 0x80; 0xFF; 0x80; 0xFF; 0x80;
   0xFF; 0x5F; 0x9B; 0xA4; 0x9B; 0x3E; 0x9B; 0xC7; 0x9B; 0x3E; 0x9B; 0xC7; 0xFF; 0x80; 0xFF; 0x80;
   0x9B; 0x3E; 0x9B; 0xC7; 0xFF; 0x80; 0xFF; 0x80; 0xFF; 0x5F; 0x9B; 0xA4; 0x9B; 0x5F; 0xFF; 0xA4;
   0x9B; 0x3E; 0x9B; 0xC7; 0xFF; 0x80; 0xFF; 0x80; 0xFF; 0x80; 0xFF; 0x80; 0x9B; 0x3E; 0x9B; 0xC7;
   0xFF; 0x80; 0xFF; 0x80; 0xFF; 0x80; 0xFF; 0x80; 0xFF; 0x80; 0xFF; 0x80; 0x9B; 0x3E; 0x9B; 0xC7;
   0xFF; 0x80; 0xFF; 0x80; 0xFF; 0x80; 0xFF; 0x80; 0xFF; 0x80; 0xFF; 0x80; 0x9B; 0x3E; 0x9B; 0xC7;
   0xFF; 0x80; 0xFF; 0x80; 0xFF; 0x80; 0xFF; 0x80; 0xFF; 0x5F; 0x9B; 0xA4; 0x9B; 0x5F; 0xFF; 0xA4;
   0xFF; 0x80; 0xFF; 0x80; 0xFF; 0x80; 0xFF; 0x80; 0x9B; 0x3E; 0x9B; 0xC7; 0xFF; 0x80; 0xFF; 0x80;
   0xFF; 0x80; 0xFF; 0x80; 0xFF; 0x5F; 0x9B; 0xA4; 0x9B; 0x5F; 0xFF; 0xA4; 0xFF; 0x80; 0xFF; 0x80;
   0xFF; 0x80; 0xFF; 0x80; 0x9B; 0x3E; 0x9B; 0xC7; 0xFF; 0x80; 0xFF; 0x80; 0xFF; 0x80; 0xFF; 0x80;
   0xFF; 0x5F; 0x9B; 0xA4; 0x9B; 0x5F; 0xFF; 0xA4; 0xFF; 0x80; 0xFF; 0x80; 0xFF; 0x80; 0xFF; 0x80;
   0x9B; 0x3E; 0x9B; 0xC7; 0xFF; 0x80; 0xFF; 0x80; 0xFF; 0x80; 0xFF; 0x80; 0x9B; 0x3E; 0x9B; 0xC7;
   0x9B; 0x3E; 0x9B; 0xC7; 0x9B; 0x3E; 0x9B; 0xC7; 0x9B; 0x3E; 0x9B; 0xC7; 0x9B; 0x3E; 0x9B; 0xC7].

Definition s_achPic_8_16_D3 : list Z :=
  [0xFF; 0x80; 0xFF; 0x80; 0xFF; 0x80; 0xFF; 0x80; 0xFF; 0x80; 0xFF; 0x80; 0xFF; 0x80; 0xFF; 0x80;
   0xFF; 0x80; 0xFF; 0x80; 0xFF; 0x80; 0xFF; 0x80; 0xFF; 0x80; 0xFF; 0x80; 0xFF; 0x80; 0xFF; 0x80;
   0xFF; 0x80; 0xFF; 0x80; 0xFF; 0x80; 0xFF; 0x80; 0xFF; 0x80; 0xFF; 0x80; 0xFF; 0x80; 0xFF; 0x80;
   0xFF; 0x80; 0xFF; 0x80; 0xFF; 0x80; 0xFF; 0x80; 0xFF; 0x80; 0xFF; 0x80; 0xFF; 0x80; 0xFF; 0x80;
   0xFF; 0x80; 0xFF; 0x80; 0x9B; 0x3E; 0x9B; 0xC7; 0x9B; 0x3E; 0x9B; 0xC7; 0xFF; 0x80; 0xFF; 0x80;
   0xFF; 0x5F; 0x9B; 0xA4; 0x9B; 0x5F; 0xFF; 0xA4; 0xFF; 0x5F; 0x9B; 0xA4; 0x9B; 0x5F; 0xFF; 0xA4;
   0xFF; 0x80; 0xFF; 0x80; 0xFF; 0x80; 0xFF; 0x80; 0xFF; 0x5F; 0x9B; 0xA4; 0x9B; 0x5F; 0xFF; 0xA4;
   0xFF; 0x80; 0xFF; 0x80; 0xFF; 0x80; 0xFF; 0x80; 0xFF; 0x5F; 0x9B; 0xA4; 0x9B; 0x5F; 0xFF; 0xA4;
   0xFF; 0x80; 0xFF; 0x80; 0xFF; 0x80; 0xFF; 0x80; 0x9B; 0x3E; 0x9B; 0xC7; 0xFF; 0x80; 0xFF; 0x80;
   0xFF; 0x80; 0xFF; 0x80; 0x9B; 0x3E; 0x9B; 0xC7; 0x9B; 0x3E; 0x9B; 0xC7; 0xFF; 0x80; 0xFF; 0x80;
   0xFF; 0x80; 0xFF; 0x80; 0xFF; 0x80; 0xFF; 0x80; 0xFF; 0x5F; 0x9B; 0xA4; 0x9B; 0x5F; 0xFF; 0xA4;
   0xFF; 0x80; 0xFF; 0x80; 0xFF; 0x80; 0xFF; 0x80; 0xFF; 0x80; 0xFF; 0x80; 0x9B; 0x3E; 0x9B; 0xC7;
   0xFF; 0x80; 0xFF; 0x80; 0xFF; 0x80; 0xFF; 0x80; 0xFF; 0x80; 0xFF; 0x80; 0x9B; 0x3E; 0x9B; 0xC7;
   0xFF; 0x80; 0xFF; 0x80; 0xFF; 0x80; 0xFF; 0x80; 0xFF; 0x80; 0xFF; 0x80; 0x9B; 0x3E; 0x9B; 0xC7;
   0x9B; 0x3E; 0x9B; 0xC7; 0xFF; 0x80; 0xFF; 0x80; 0xFF; 0x5F; 0x9B; 0xA4; 0x9B; 0x5F; 0xFF; 0xA4;
   0xFF; 0x5F; 0x9B; 0xA4; 0x9B; 0x3E; 0x9B; 0xC7; 0x9B; 0x3E; 0x9B; 0xC7; 0xFF; 0x80; 0xFF; 0x80].

Definition s_achPic_8_16_D4 : list Z :=
  [0xFF; 0x80; 0xFF; 0x80; 0xFF; 0x80; 0xFF; 0x80; 0xFF; 0x80; 0xFF; 0x80; 0xFF; 0x80; 0xFF; 0x80;
   0xFF; 0x80; 0xFF; 0x80; 0xFF; 0x80; 0xFF; 0x80; 0xFF; 0x80; 0xFF; 0x80; 0xFF; 0x80; 0xFF; 0x80;
   0xFF; 0x80; 0xFF; 0x80; 0xFF; 0x80; 0xFF; 0x80; 0xFF; 0x80; 0xFF; 0x80; 0xFF; 0x80; 0xFF; 0x80;
   0xFF; 0x80; 0xFF; 0x80; 0xFF; 0x80; 0xFF; 0x80; 0xFF; 0x80; 0xFF; 0x80; 0xFF; 0x80; 0xFF; 0x80;
   0xFF; 0x80; 0xFF; 0x80; 0xFF; 0x80; 0xFF; 0x80; 0x9B; 0x3E; 0x9B; 0xC7; 0xFF; 0x80; 0xFF; 0x80;
   0xFF; 0x80; 0xFF; 0x80; 0xFF; 0x5F; 0x9B; 0xA4; 0x9B; 0x3E; 0x9B; 0xC7; 0xFF; 0x80; 0xFF; 0x80;
   0xFF; 0x80; 0xFF; 0x80; 0xFF; 0x5F; 0x9B; 0xA4; 0x9B; 0x3E; 0x9B; 0xC7; 0xFF; 0x80; 0xFF; 0x80;
   0xFF; 0x80; 0xFF; 0x80; 0x9B; 0x3E; 0x9B; 0xC7; 0x9B; 0x3E; 0x9B; 0xC7; 0xFF; 0x80; 0xFF; 0x80;
   0xFF; 0x80; 0xFF; 0x80; 0x9B; 0x3E; 0x9B; 0xC7; 0x9B; 0x3E; 0x9B; 0xC7; 0xFF; 0x80; 0xFF; 0x80;
   0xFF; 0x5F; 0x9B; 0xA4; 0x9B; 0x5F; 0xFF; 0xA4; 0x9B; 0x3E; 0x9B; 0xC7; 0xFF; 0x80; 0xFF; 0x80;
   0xFF; 0x5F; 0x9B; 0xA4; 0x9B; 0x5F; 0xFF; 0xA4; 0x9B; 0x3E; 0x9B; 0xC7; 0xFF; 0x80; 0xFF; 0x80;
   0x9B; 0x3E; 0x9B; 0xC7; 0xFF; 0x80; 0xFF; 0x80; 0x9B; 0x3E; 0x9B; 0xC7; 0xFF; 0x80; 0xFF; 0x80;
   0x9B; 0x3E; 0x9B; 0xC7; 0x9B; 0x3E; 0x9B; 0xC7; 0x9B; 0x3E; 0x9B; 0xC7; 0x9B; 0x3E; 0x9B; 0xC7;
   0xFF; 0x80; 0xFF; 0x80; 0xFF; 0x80; 0xFF; 0x80; 0x9B; 0x3E; 0x9B; 0xC7; 0xFF; 0x80; 0xFF; 0x80;
   0xFF; 0x80; 0xFF; 0x80; 0xFF; 0x80; 0xFF; 0x80; 0x9B; 0x3E; 0x9B; 0xC7; 0xFF; 0x80; 0xFF; 0x80;
   0xFF; 0x80; 0xFF; 0x80; 0xFF; 0x80; 0xFF; 0x80; 0x9B; 0x3E; 0x9B; 0xC7; 0xFF; 0x80; 0xFF; 0x80].

Definition s_achPic_8_16_D5 : list Z :=
  [0xFF; 0x80; 0xFF; 0x80; 0xFF; 0x80; 0xFF; 0x80; 0xFF; 0x80; 0xFF; 0x80; 0xFF; 0x80; 0xFF; 0x80;
   0xFF; 0x80; 0xFF; 0x80; 0xFF; 0x80; 0xFF; 0x80; 0xFF; 0x80; 0xFF; 0x80; 0xFF; 0x80; 0xFF; 0x80;
   0xFF; 0x80; 0xFF; 0x80; 0xFF; 0x80; 0xFF; 0x80; 0xFF; 0x80; 0xFF; 0x80; 0xFF; 0x80; 0xFF; 0x80;
   0xFF; 0x80; 0xFF; 0x80; 0xFF; 0x80; 0xFF; 0x80; 0xFF; 0x80; 0xFF; 0x80; 0xFF; 0x80; 0xFF; 0x80;
   0xFF; 0x5F; 0x9B; 0xA4; 0x9B; 0x3E; 0x9B; 0xC7; 0x9B; 0x3E; 0x9B; 0xC7; 0x9B; 0x3E; 0x9B; 0xC7;
   0xFF; 0x5F; 0x9B; 0xA4; 0x9B; 0x5F; 0xFF; 0xA4; 0xFF; 0x80; 0xFF; 0x80; 0xFF; 0x80; 0xFF; 0x80;
   0xFF; 0x5F; 0x9B; 0xA4; 0x9B; 0x5F; 0xFF; 0xA4; 0xFF; 0x80; 0xFF; 0x80; 0xFF; 0x80; 0xFF; 0x80;
   0xFF; 0x5F; 0x9B; 0xA4; 0x9B; 0x5F; 0xFF; 0xA4; 0xFF; 0x80; 0xFF; 0x80; 0xFF; 0x80; 0xFF; 0x80;
   0xFF; 0x5F; 0x9B; 0xA4; 0x9B; 0x3E; 0x9B; 0xC7; 0x9B; 0x3E; 0x9B; 0xC7; 0xFF; 0x80; 0xFF; 0x80;
   0xFF; 0x80; 0xFF; 0x80; 0xFF; 0x80; 0xFF; 0x80; 0xFF; 0x5F; 0x9B; 0xA4; 0x9B; 0x5F; 0xFF; 0xA4;
   0xFF; 0x80; 0xFF; 0x80; 0xFF; 0x80; 0xFF; 0x80; 0xFF; 0x80; 0xFF; 0x80; 0x9B; 0x3E; 0x9B; 0xC7;
   0xFF; 0x80; 0xFF; 0x80; 0xFF; 0x80; 0xFF; 0x80; 0xFF; 0x80; 0xFF; 0x80; 0x9B; 0x3E; 0x9B; 0xC7;
   0xFF; 0x80; 0xFF; 0x80; 0xFF; 0x80; 0xFF; 0x80; 0xFF; 0x80; 0xFF; 0x80; 0x9B; 0x3E; 0x9B; 0xC7;
   0xFF; 0x80; 0xFF; 0x80; 0xFF; 0x80; 0xFF; 0x80; 0xFF; 0x80; 0xFF; 0x80; 0x9B; 0x3E; 0x9B; 0xC7;
   0x9B; 0x3E; 0x9B; 0xC7; 0xFF; 0x80; 0xFF; 0x80; 0xFF; 0x5F; 0x9B; 0xA4; 0x9B; 0x5F; 0xFF; 0xA4;
   0xFF; 0x5F; 0x9B; 0xA4; 0x9B; 0x3E; 0x9B; 0xC7; 0x9B; 0x3E; 0x9B; 0xC7; 0xFF; 0x80; 0xFF; 0x80].

Definition s_achPic_8_16_D6 : list Z :=
  [0xFF; 0x80; 0xFF; 0x80; 0xFF; 0x80; 0xFF; 0x80; 0xFF; 0x80; 0xFF; 0x80; 0xFF; 0x80; 0xFF; 0x80;
   0xFF; 0x80; 0xFF; 0x80; 0xFF; 0x80; 0xFF; 0x80; 0xFF; 0x80; 0xFF; 0x80; 0xFF; 0x80; 0xFF; 0x80;
   0xFF; 0x80; 0xFF; 0x80; 0xFF; 0x80; 0xFF; 0x80; 0xFF; 0x80; 0xFF; 0x80; 0xFF; 0x80; 0xFF; 0x80;
   0xFF; 0x80; 0xFF; 0x80; 0xFF; 0x80; 0xFF; 0x80; 0xFF; 0x80; 0xFF; 0x80; 0xFF; 0x80; 0xFF; 0x80;
   0xFF; 0x80; 0xFF; 0x80; 0xFF; 0x5F; 0x9B; 0xA4; 0x9B; 0x3E; 0x9B; 0xC7; 0x9B; 0x5F; 0xFF; 0xA4;
   0xFF; 0x80; 0xFF; 0x80; 0x9B; 0x3E; 0x9B; 0xC7; 0xFF; 0x80; 0xFF; 0x80; 0xFF; 0x80; 0xFF; 0x80;
   0xFF; 0x5F; 0x9B; 0xA4; 0x9B; 0x5F; 0xFF; 0xA4; 0xFF; 0x80; 0xFF; 0x80; 0xFF; 0x80; 0xFF; 0x80;
   0x9B; 0x48; 0xB9; 0xBD; 0xFF; 0x80; 0xFF; 0x80; 0xFF; 0x80; 0xFF; 0x80; 0xFF; 0x80; 0xFF; 0x80;
   0x9B; 0x48; 0xB9; 0xBD; 0x9B; 0x3E; 0x9B; 0xC7; 0x9B; 0x3E; 0x9B; 0xC7; 0xFF; 0x80; 0xFF; 0x80;
   0x9B; 0x3E; 0x9B; 0xC7; 0x9B; 0x5F; 0xFF; 0xA4; 0xFF; 0x5F; 0x9B; 0xA4; 0x9B; 0x5F; 0xFF; 0xA4;
   0x9B; 0x48; 0xB9; 0xBD; 0xFF; 0x80; 0xFF; 0x80; 0xFF; 0x80; 0xFF; 0x80; 0x9B; 0x3E; 0x9B; 0xC7;
   0x9B; 0x48; 0xB9; 0xBD; 0xFF; 0x80; 0xFF; 0x80; 0xFF; 0x80; 0xFF; 0x80; 0x9B; 0x3E; 0x9B; 0xC7;
   0x9B; 0x48; 0xB9; 0xBD; 0xFF; 0x80; 0xFF; 0x80; 0xFF; 0x80; 0xFF; 0x80; 0x9B; 0x3E; 0x9B; 0xC7;
   0x9B; 0x48; 0xB9; 0xBD; 0xFF; 0x80; 0xFF; 0x80; 0xFF; 0x80; 0xFF; 0x80; 0x9B; 0x3E; 0x9B; 0xC7;
   0xFF; 0x5F; 0x9B; 0xA4; 0x9B; 0x5F; 0xFF; 0xA4; 0xFF; 0x5F; 0x9B; 0xA4; 0x9B; 0x5F; 0xFF; 0xA4;
   0xFF; 0x80; 0xFF; 0x80; 0x9B; 0x3E; 0x9B; 0xC7; 0x9B; 0x3E; 0x9B; 0xC7; 0xFF; 0x80; 0xFF; 0x80].

Definition s_achPic_8_16_D7 : list Z :=
  [0xFF; 0x80; 0xFF; 0x80; 0xFF; 0x80; 0xFF; 0x80; 0xFF; 0x80; 0xFF; 0x80; 0xFF; 0x80; 0xFF; 0x80;
   0xFF; 0x80; 0xFF; 0x80; 0xFF; 0x80; 0xFF; 0x80; 0xFF; 0x80; 0xFF; 0x80; 0xFF; 0x80; 0xFF; 0x80;
   0xFF; 0x80; 0xFF; 0x80; 0xFF; 0x80; 0xFF; 0x80; 0xFF; 0x80; 0xFF; 0x80; 0xFF; 0x80; 0xFF; 0x80;
   0xFF; 0x80; 0xFF; 0x80; 0xFF; 0x80; 0xFF; 0x80; 0xFF; 0x80; 0xFF; 0x80; 0xFF; 0x80; 0xFF; 0x80;
   0x9B; 0x3E; 0x9B; 0xC7; 0x9B; 0x3E; 0x9B; 0xC7; 0x9B; 0x3E; 0x9B; 0xC7; 0x9B; 0x3E; 0x9B; 0xC7;
   0x9B; 0x3E; 0x9B; 0xC7; 0xFF; 0x80; 0xFF; 0x80; 0xFF; 0x80; 0xFF; 0x80; 0x9B; 0x3E; 0x9B; 0xC7;
   0x9B; 0x3E; 0x9B; 0xC7; 0xFF; 0x80; 0xFF; 0x80; 0xFF; 0x80; 0xFF; 0x80; 0x9B; 0x3E; 0x9B; 0xC7;
   0xFF; 0x80; 0xFF; 0x80; 0xFF; 0x80; 0xFF; 0x80; 0xFF; 0x5F; 0x9B; 0xA4; 0x9B; 0x5F; 0xFF; 0xA4;
   0xFF; 0x80; 0xFF; 0x80; 0xFF; 0x80; 0xFF; 0x80; 0xFF; 0x5F; 0x9B; 0xA4; 0x9B; 0x5F; 0xFF; 0xA4;
   0xFF; 0x80; 0xFF; 0x80; 0xFF; 0x80; 0xFF; 0x80; 0xFF; 0x5F; 0x9B; 0xA4; 0x9B; 0x5F; 0xFF; 0xA4;
   0xFF; 0x80; 0xFF; 0x80; 0xFF; 0x80; 0xFF; 0x80; 0x9B; 0x3E; 0x9B; 0xC7; 0xFF; 0x80; 0xFF; 0x80;
   0xFF; 0x80; 0xFF; 0x80; 0xFF; 0x80; 0xFF; 0x80; 0x9B; 0x3E; 0x9B; 0xC7; 0xFF; 0x80; 0xFF; 0x80;
   0xFF; 0x80; 0xFF; 0x80; 0xFF; 0x80; 0xFF; 0x80; 0x9B; 0x3E; 0x9B; 0xC7; 0xFF; 0x80; 0xFF; 0x80;
   0xFF; 0x80; 0xFF; 0x80; 0xFF; 0x5F; 0x9B; 0xA4; 0x9B; 0x5F; 0xFF; 0xA4; 0xFF; 0x80; 0xFF; 0x80;
   0xFF; 0x80; 0xFF; 0x80; 0xFF; 0x5F; 0x9B; 0xA4; 0x9B; 0x5F; 0xFF; 0xA4; 0xFF; 0x80; 0xFF; 0x80;
   0xFF; 0x80; 0xFF; 0x80; 0xFF; 0x5F; 0x9B; 0xA4; 0x9B; 0x5F; 0xFF; 0xA4; 0xFF; 0x80; 0xFF; 0x80].

Definition s_achPic_8_16_D8 : list Z :=
  [0xFF; 0x80; 0xFF; 0x80; 0xFF; 0x80; 0xFF; 0x80; 0xFF; 0x80; 0xFF; 0x80; 0xFF; 0x80; 0xFF; 0x80;
   0xFF; 0x80; 0xFF; 0x80; 0xFF; 0x80; 0xFF; 0x80; 0xFF; 0x80; 0xFF; 0x80; 0xFF; 0x80; 0xFF; 0x80;
   0xFF; 0x80; 0xFF; 0x80; 0xFF; 0x80; 0xFF; 0x80; 0xFF; 0x80; 0xFF; 0x80; 0xFF; 0x80; 0xFF; 0x80;
   0xFF; 0x80; 0xFF; 0x80; 0xFF; 0x80; 0xFF; 0x80; 0xFF; 0x80; 0xFF; 0x80; 0xFF; 0x80; 0xFF; 0x80;
   0xFF; 0x80; 0xFF; 0x80; 0x9B; 0x3E; 0x9B; 0xC7; 0x9B; 0x3E; 0x9B; 0xC7; 0xFF; 0x80; 0xFF; 0x80;
   0xFF; 0x5F; 0x9B; 0xA4; 0x9B; 0x5F; 0xFF; 0xA4; 0xFF; 0x5F; 0x9B; 0xA4; 0x9B; 0x5F; 0xFF; 0xA4;
   0x9B; 0x3E; 0x9B; 0xC7; 0xFF; 0x80; 0xFF; 0x80; 0xFF; 0x80; 0xFF; 0x80; 0x9B; 0x3E; 0x9B; 0xC7;
   0x9B; 0x3E; 0x9B; 0xC7; 0xFF; 0x80; 0xFF; 0x80; 0xFF; 0x80; 0xFF; 0x80; 0x9B; 0x3E; 0x9B; 0xC7;
   0xFF; 0x5F; 0x9B; 0xA4; 0x9B; 0x5F; 0xFF; 0xA4; 0xFF; 0x5F; 0x9B; 0xA4; 0x9B; 0x5F; 0xFF; 0xA4;
   0xFF; 0x80; 0xFF; 0x80; 0x9B; 0x3E; 0x9B; 0xC7; 0x9B; 0x3E; 0x9B; 0xC7; 0xFF; 0x80; 0xFF; 0x80;
   0xFF; 0x5F; 0x9B; 0xA4; 0x9B; 0x5F; 0xFF; 0xA4; 0xFF; 0x5F; 0x9B; 0xA4; 0x9B; 0x5F; 0xFF; 0xA4;
   0x9B; 0x3E; 0x9B; 0xC7; 0xFF; 0x80; 0xFF; 0x80; 0xFF; 0x80; 0xFF; 0x80; 0x9B; 0x3E; 0x9B; 0xC7;
   0x9B; 0x3E; 0x9B; 0xC7; 0xFF; 0x80; 0xFF; 0x80; 0xFF; 0x80; 0xFF; 0x80; 0x9B; 0x3E; 0x9B; 0xC7;
   0x9B; 0x3E; 0x9B; 0xC7; 0xFF; 0x80; 0xFF; 0x80; 0xFF; 0x80; 0xFF; 0x80; 0x9B; 0x3E; 0x9B; 0xC7;
   0xFF; 0x5F; 0x9B; 0xA4; 0x9B; 0x5F; 0xFF; 0xA4; 0xFF; 0x5F; 0x9B; 0xA4; 0x9B; 0x5F; 0xFF; 0xA4;
   0xFF; 0x80; 0xFF; 0x80; 0x9B; 0x3E; 0x9B; 0xC7; 0x9B; 0x3E; 0x9B; 0xC7; 0xFF; 0x80; 0xFF; 0x80].

Definition s_achPic_8_16_D9 : list Z :=
  [0xFF; 0x80; 0xFF; 0x80; 0xFF; 0x80; 0xFF; 0x80; 0xFF; 0x80; 0xFF; 0x80; 0xFF; 0x80; 0xFF; 0x80;
   0xFF; 0x80; 0xFF; 0x80; 0xFF; 0x80; 0xFF; 0x80; 0xFF; 0x80; 0xFF; 0x80; 0xFF; 0x80; 0xFF; 0x80;
   0xFF; 0x80; 0xFF; 0x80; 0xFF; 0x80; 0xFF; 0x80; 0xFF; 0x80; 0xFF; 0x80; 0xFF; 0x80; 0xFF; 0x80;
   0xFF; 0x80; 0xFF; 0x80; 0xFF; 0x80; 0xFF; 0x80; 0xFF; 0x80; 0xFF; 0x80; 0xFF; 0x80; 0xFF; 0x80;
   0xFF; 0x80; 0xFF; 0x80; 0x9B; 0x3E; 0x9B; 0xC7; 0x9B; 0x3E; 0x9B; 0xC7; 0xFF; 0x80; 0xFF; 0x80;
   0xFF; 0x5F; 0x9B; 0xA4; 0x9B; 0x5F; 0xFF; 0xA4; 0xFF; 0x5F; 0x9B; 0xA4; 0x9B; 0x5F; 0xFF; 0xA4;
   0x9B; 0x3E; 0x9B; 0xC7; 0xFF; 0x80; 0xFF; 0x80; 0xFF; 0x80; 0xFF; 0x80; 0x9B; 0x3E; 0x9B; 0xC7;
   0x9B; 0x3E; 0x9B; 0xC7; 0xFF; 0x80; 0xFF; 0x80; 0xFF; 0x80; 0xFF; 0x80; 0x9B; 0x3E; 0x9B; 0xC7;
   0x9B; 0x3E; 0x9B; 0xC7; 0xFF; 0x80; 0xFF; 0x80; 0xFF; 0x80; 0xFF; 0x80; 0x9B; 0x3E; 0x9B; 0xC7;
   0x9B; 0x3E; 0x9B; 0xC7; 0xFF; 0x80; 0xFF; 0x80; 0xFF; 0x80; 0xFF; 0x80; 0x9B; 0x3E; 0x9B; 0xC7;
   0xFF; 0x5F; 0x9B; 0xA4; 0x9B; 0x5F; 0xFF; 0xA4; 0xFF; 0x5F; 0x9B; 0xA4; 0x9B; 0x3E; 0x9B; 0xC7;
   0xFF; 0x80; 0xFF; 0x80; 0x9B; 0x3E; 0x9B; 0xC7; 0x9B; 0x55; 0xE1; 0xAF; 0x9B; 0x3E; 0x9B; 0xC7;
   0xFF; 0x80; 0xFF; 0x80; 0xFF; 0x80; 0xFF; 0x80; 0xFF; 0x80; 0xFF; 0x80; 0x9B; 0x3E; 0x9B; 0xC7;
   0xFF; 0x80; 0xFF; 0x80; 0xFF; 0x80; 0xFF; 0x80; 0xFF; 0x5F; 0x9B; 0xA4; 0x9B; 0x5F; 0xFF; 0xA4;
   0xFF; 0x80; 0xFF; 0x80; 0xFF; 0x80; 0xFF; 0x80; 0x9B; 0x3E; 0x9B; 0xC7; 0xFF; 0x80; 0xFF; 0x80;
   0xFF; 0x5F; 0x9B; 0xA4; 0x9B; 0x3E; 0x9B; 0xC7; 0x9B; 0x5F; 0xFF; 0xA4; 0xFF; 0x80; 0xFF; 0x80].

Definition s_achPic_8_16_Blank : list Z :=
  [0xFF; 0x80; 0xFF; 0x80; 0xFF; 0x80; 0xFF; 0x80; 0xFF; 0x80; 0xFF; 0x80; 0xFF; 0x80; 0xFF; 0x80;
   0xFF; 0x80; 0xFF; 0x80; 0xFF; 0x80; 0xFF; 0x80; 0xFF; 0x80; 0xFF; 0x80; 0xFF; 0x80; 0xFF; 0x80;
   0xFF; 0x80; 0xFF; 0x80; 0xFF; 0x80; 0xFF; 0x80; 0xFF; 0x80; 0xFF; 0x80; 0xFF; 0x80; 0xFF; 0x80;
   0xFF; 0x80; 0xFF; 0x80; 0xFF; 0x80; 0xFF; 0x80; 0xFF; 0x80; 0xFF; 0x80; 0xFF; 0x80; 0xFF; 0x80;
   0xFF; 0x80; 0xFF; 0x80; 0xFF; 0x80; 0xFF; 0x80; 0xFF; 0x80; 0xFF; 0x80; 0xFF; 0x80; 0xFF; 0x80;
   0xFF; 0x80; 0xFF; 0x80; 0xFF; 0x80; 0xFF; 0x80; 0xFF; 0x80; 0xFF; 0x80; 0xFF; 0x80; 0xFF; 0x80;
   0xFF; 0x80; 0xFF; 0x80; 0xFF; 0x80; 0xFF; 0x80; 0xFF; 0x80; 0xFF; 0x80; 0xFF; 0x80; 0xFF; 0x80;
   0xFF; 0x80; 0xFF; 0x80; 0xFF; 0x80; 0xFF; 0x80; 0xFF; 0x80; 0xFF; 0x80; 0xFF; 0x80; 0xFF; 0x80;
   0xFF; 0x80; 0xFF; 0x80; 0xFF; 0x80; 0xFF; 0x80; 0xFF; 0x80; 0xFF; 0x80; 0xFF; 0x80; 0xFF; 0x80;
   0xFF; 0x80; 0xFF; 0x80; 0xFF; 0x80; 0xFF; 0x80; 0xFF; 0x80; 0xFF; 0x80; 0xFF; 0x80; 0xFF; 0x80;
   0xFF; 0x80; 0xFF; 0x80; 0xFF; 0x80; 0xFF; 0x80; 0xFF; 0x80; 0xFF; 0x80; 0xFF; 0x80; 0xFF; 0x80;
   0xFF; 0x80; 0xFF; 0x80; 0xFF; 0x80; 0xFF; 0x80; 0xFF; 0x80; 0xFF; 0x80; 0xFF; 0x80; 0xFF; 0x80;
   0xFF; 0x80; 0xFF; 0x80; 0xFF; 0x80; 0xFF; 0x80; 0xFF; 0x80; 0xFF; 0x80; 0xFF; 0x80; 0xFF; 0x80;
   0xFF; 0x80; 0xFF; 0x80; 0xFF; 0x80; 0xFF; 0x80; 0xFF; 0x80; 0xFF; 0x80; 0xFF; 0x80; 0xFF; 0x80;
   0xFF; 0x80; 0xFF; 0x80; 0xFF; 0x80; 0xFF; 0x80; 0xFF; 0x80; 0xFF; 0x80; 0xFF; 0x80; 0xFF; 0x80;
   0xFF; 0x80; 0xFF; 0x80; 0xFF; 0x80; 0xFF; 0x80; 0xFF; 0x80; 0xFF; 0x80; 0xFF; 0x80; 0xFF; 0x80].

Definition s_achPic_8_16_Colon : list Z :=
  [0xFF; 0x80; 0xFF; 0x80; 0xFF; 0x80; 0xFF; 0x80; 0xFF; 0x80; 0xFF; 0x80; 0xFF; 0x80; 0xFF; 0x80;
   0xFF; 0x80; 0xFF; 0x80; 0xFF; 0x80; 0xFF; 0x80; 0xFF; 0x80; 0xFF; 0x80; 0xFF; 0x80; 0xFF; 0x80;
   0xFF; 0x80; 0xFF; 0x80; 0xFF; 0x80; 0xFF; 0x80; 0xFF; 0x80; 0xFF; 0x80; 0xFF; 0x80; 0xFF; 0x80;
   0xFF; 0x80; 0xFF; 0x80; 0xFF; 0x80; 0xFF; 0x80; 0xFF; 0x80; 0xFF; 0x80; 0xFF; 0x80; 0xFF; 0x80;
   0xFF; 0x80; 0xFF; 0x80; 0xFF; 0x80; 0xFF; 0x80; 0xFF; 0x80; 0xFF; 0x80; 0xFF; 0x80; 0xFF; 0x80;
   0xFF; 0x80; 0xFF; 0x80; 0xFF; 0x80; 0xFF; 0x80; 0xFF; 0x80; 0xFF; 0x80; 0xFF; 0x80; 0xFF; 0x80;
   0xFF; 0x80; 0xFF; 0x80; 0xFF; 0x5F; 0x9B; 0xA4; 0x9B; 0x5F; 0xFF; 0xA4; 0xFF; 0x80; 0xFF; 0x80;
   0xFF; 0x80; 0xFF; 0x80; 0xFF; 0x5F; 0x9B; 0xA4; 0x9B; 0x5F; 0xFF; 0xA4; 0xFF; 0x80; 0xFF; 0x80;
   0xFF; 0x80; 0xFF; 0x80; 0xFF; 0x80; 0xFF; 0x80; 0xFF; 0x80; 0xFF; 0x80; 0xFF; 0x80; 0xFF; 0x80;
   0xFF; 0x80; 0xFF; 0x80; 0xFF; 0x80; 0xFF; 0x80; 0xFF; 0x80; 0xFF; 0x80; 0xFF; 0x80; 0xFF; 0x80;
   0xFF; 0x80; 0xFF; 0x80; 0xFF; 0x80; 0xFF; 0x80; 0xFF; 0x80; 0xFF; 0x80; 0xFF; 0x80; 0xFF; 0x80;
   0xFF; 0x80; 0xFF; 0x80; 0xFF; 0x80; 0xFF; 0x80; 0xFF; 0x80; 0xFF; 0x80; 0xFF; 0x80; 0xFF; 0x80;
   0xFF; 0x80; 0xFF; 0x80; 0xFF; 0x5F; 0x9B; 0xA4; 0x9B; 0x5F; 0xFF; 0xA4; 0xFF; 0x80; 0xFF; 0x80;
   0xFF; 0x80; 0xFF; 0x80; 0xFF; 0x5F; 0x9B; 0xA4; 0x9B; 0x5F; 0xFF; 0xA4; 0xFF; 0x80; 0xFF; 0x80;
   0xFF; 0x80; 0xFF; 0x80; 0xFF; 0x80; 0xFF; 0x80; 0xFF; 0x80; 0xFF; 0x80; 0xFF; 0x80; 0xFF; 0x80;
   0xFF; 0x80; 0xFF; 0x80; 0xFF; 0x80; 0xFF; 0x80; 0xFF; 0x80; 0xFF; 0x80; 0xFF; 0x80; 0xFF; 0x80].

Definition s_achPic_8_16_Slash : list Z :=
  [0xFF; 0x80; 0xFF; 0x80; 0xFF; 0x80; 0xFF; 0x80; 0xFF; 0x80; 0xFF; 0x80; 0xFF; 0x80; 0xFF; 0x80;
   0xFF; 0x80; 0xFF; 0x80; 0xFF; 0x80; 0xFF; 0x80; 0xFF; 0x80; 0xFF; 0x80; 0xFF; 0x80; 0xFF; 0x80;
   0xFF; 0x80; 0xFF; 0x80; 0xFF; 0x80; 0xFF; 0x80; 0xFF; 0x80; 0xFF; 0x80; 0xFF; 0x80; 0xFF; 0x80;
   0xFF; 0x80; 0xFF; 0x80; 0xFF; 0x80; 0xFF; 0x80; 0xFF; 0x80; 0xFF; 0x80; 0xFF; 0x80; 0xFF; 0x80;
   0xFF; 0x80; 0xFF; 0x80; 0xFF; 0x5F; 0x9B; 0xA4; 0x9B; 0x5F; 0xFF; 0xA4; 0xFF; 0x80; 0xFF; 0x80;
   0xFF; 0x80; 0xFF; 0x80; 0xFF; 0x5F; 0x9B; 0xA4; 0x9B; 0x5F; 0xFF; 0xA4; 0xFF; 0x80; 0xFF; 0x80;
   0xFF; 0x80; 0xFF; 0x80; 0xFF; 0x5F; 0x9B; 0xA4; 0x9B; 0x5F; 0xFF; 0xA4; 0xFF; 0x80; 0xFF; 0x80;
   0xFF; 0x80; 0xFF; 0x80; 0x9B; 0x3E; 0x9B; 0xC7; 0xFF; 0x80; 0xFF; 0x80; 0xFF; 0x80; 0xFF; 0x80;
   0xFF; 0x80; 0xFF; 0x80; 0x9B; 0x3E; 0x9B; 0xC7; 0xFF; 0x80; 0xFF; 0x80; 0xFF; 0x80; 0xFF; 0x80;
   0xFF; 0x80; 0xFF; 0x80; 0x9B; 0x3E; 0x9B; 0xC7; 0xFF; 0x80; 0xFF; 0x80; 0xFF; 0x80; 0xFF; 0x80;
   0xFF; 0x5F; 0x9B; 0xA4; 0x9B; 0x5F; 0xFF; 0xA4; 0xFF; 0x80; 0xFF; 0x80; 0xFF; 0x80; 0xFF; 0x80;
   0xFF; 0x5F; 0x9B; 0xA4; 0x9B; 0x5F; 0xFF; 0xA4; 0xFF; 0x80; 0xFF; 0x80; 0xFF; 0x80; 0xFF; 0x80;
   0xFF; 0x5F; 0x9B; 0xA4; 0x9B; 0x5F; 0xFF; 0xA4; 0xFF; 0x80; 0xFF; 0x80; 0xFF; 0x80; 0xFF; 0x80;
   0x9B; 0x3E; 0x9B; 0xC7; 0xFF; 0x80; 0xFF; 0x80; 0xFF; 0x80; 0xFF; 0x80; 0xFF; 0x80; 0xFF; 0x80;
   0x9B; 0x3E; 0x9B; 0xC7; 0xFF; 0x80; 0xFF; 0x80; 0xFF; 0x80; 0xFF; 0x80; 0xFF; 0x80; 0xFF; 0x80;
   0x9B; 0x3E; 0x9B; 0xC7; 0xFF; 0x80; 0xFF; 0x80; 0xFF; 0x80; 0xFF; 0x80; 0xFF; 0x80; 0xFF; 0x80].

(** ** Drawing a string *)

Definition DEF_MAX_OVERLAP_TEXT : Z := 32.

(** The picture with other bytes. *)
Definition with_picture (ctx : S_NM_VIDEOCTX) (img : list Z) : S_NM_VIDEOCTX :=
  MkVideo (Some img) (pDataPAddr ctx) (u32DataSize ctx) (u32DataLimit ctx) (u64DataTime ctx) (eColorType ctx) (u32BitRate ctx) (u32FrameRate ctx)
    (u32Width ctx) (u32Height ctx) (u32StrideW ctx) (u32StrideH ctx) (u32X ctx) (u32Y ctx).

(** The code book of [OverlapText]. *)
Definition code_book (c : Z) : list Z :=
  if c =? 48 then s_achPic_8_16_D0 else
  if c =? 49 then s_achPic_8_16_D1 else
  if c =? 50 then s_achPic_8_16_D2 else
  if c =? 51 then s_achPic_8_16_D3 else
  if c =? 52 then s_achPic_8_16_D4 else
  if c =? 53 then s_achPic_8_16_D5 else
  if c =? 54 then s_achPic_8_16_D6 else
  if c =? 55 then s_achPic_8_16_D7 else
  if c =? 56 then s_achPic_8_16_D8 else
  if c =? 57 then s_achPic_8_16_D9 else
  if c =? 58 then s_achPic_8_16_Colon else
  if c =? 47 then s_achPic_8_16_Slash else s_achPic_8_16_Blank.

(** The handle and the picture afterwards.  The array of characters has
    [DEF_MAX_OVERLAP_TEXT] entries; the result of [TextOverlap_Overlap] is not looked at. *)
Definition OverlapText (hTextOverlap : option S_TEXT_OVERLAP) (ctx : S_NM_VIDEOCTX) (img pchOverlapStr : list Z)
    : outcome (option S_TEXT_OVERLAP * list Z) :=
  let u32StrLen := Z.of_nat (length pchOverlapStr) in
  let draw eColorFmt :=
    if DEF_MAX_OVERLAP_TEXT <? u32StrLen then Undef else
    '(_, h, img) ← TextOverlap_Overlap hTextOverlap (map code_book pchOverlapStr) u32StrLen img eColorFmt
       (u32Width ctx) (u32Height ctx) (u32 (u32Width ctx - u32StrLen * DIGIT_8_16_WIDTH) / 2) (2 * DIGIT_8_16_HEIGHT);
    Ok (h, img) in
  if eColorType ctx =? eNM_COLOR_YUV420P then draw eIMGPROC_YUV420P else
  if eColorType ctx =? eNM_COLOR_YUV422 then draw eIMGPROC_YUV422 else Ok (hTextOverlap, img).

(** ** The time *)

(** [struct tm]. *)
Record tm := MkTm { tm_year : Z; tm_mon : Z; tm_mday : Z; tm_hour : Z; tm_min : Z; tm_sec : Z }.

(** [%0<w>d]. *)
Definition dec0 (w : nat) (n : Z) : list Z :=
  if n <? 0 then 45 :: replicate (w - 1 - length (udec (- n))) 48 ++ udec (- n)
  else replicate (w - length (udec n)) 48 ++ udec n.

(** [snprintf] into 16 bytes and the byte after them. *)
Definition cur_date_time (t : tm) : list Z :=
  let s := dec0 4 (i32 (u32 (tm_year t + 1900))) ++ dec0 2 (tm_mon t + 1) ++ dec0 2 (tm_mday t) ++ dec0 2 (tm_hour t) ++
           dec0 2 (tm_min t) ++ dec0 2 (tm_sec t) ++ [48; 48] in
  take 15 s ++ [0; 0].

(** The text is put together in [achDateTime]. *)
Definition date_text (t : tm) (achDateTime : list Z) : outcome (list Z) :=
  let cur := cur_date_time t in
  d ← memcpy achDateTime 0 cur 0 4;
  d ← wrz d 4 47;
  d ← memcpy d 5 cur 4 2;
  d ← wrz d 7 47;
  d ← memcpy d 8 cur 6 2;
  d ← wrz d 10 32;
  d ← memcpy d 11 cur 8 2;
  d ← wrz d 13 58;
  d ← memcpy d 14 cur 10 2;
  d ← wrz d 16 58;
  d ← memcpy d 17 cur 12 2;
  d ← wrz d 19 32;
  wrz d 20 0.

(** What a pointer that may be [NULL], or a string that may have no end, denotes. *)
Definition pointee {A} (o : option A) : outcome A := match o with Some x => Ok x | None => Undef end.

(** [achDateTime] is what is in the array before, [now] what [localtime] gives. *)
Definition DateOverlap (achDateTime : list Z) (now : option tm) (hTextOverlap : option S_TEXT_OVERLAP) (psNMVideoCtx : option S_NM_VIDEOCTX)
    : outcome (option S_TEXT_OVERLAP * option S_NM_VIDEOCTX) :=
  match hTextOverlap, psNMVideoCtx with
  | Some t, Some ctx =>
      match pDataVAddr ctx with
      | Some img =>
          psCurTm ← pointee now;
          d ← date_text psCurTm achDateTime;
          s ← pointee (string_at d 0);
          '(h, img) ← OverlapText (Some t) ctx img s;
          Ok (h, Some (with_picture ctx img))
      | None => Ok (Some t, Some ctx)
      end
  | h, c => Ok (h, c)
  end.

(** The array in the code. *)
Definition achDateTime_size : nat := 20.

(** ** Theorems *)

(** The text of the device, as [jpeg_loop] makes it. *)
Definition device_text (t : S_TEXT_OVERLAP) : Prop :=
  u32FontWidth t = DIGIT_8_16_WIDTH ∧ u32FontHeight t = DIGIT_8_16_HEIGHT ∧ u32MaxTexts t = DEF_MAX_OVERLAP_TEXT ∧
  Z.of_nat (length (pu8TextImg t)) = text_img_size DIGIT_8_16_WIDTH DIGIT_8_16_HEIGHT DEF_MAX_OVERLAP_TEXT ∧
  Z.of_nat (length (pu8TextBGImg t)) = text_img_size DIGIT_8_16_WIDTH DIGIT_8_16_HEIGHT DEF_MAX_OVERLAP_TEXT ∧
  u32ColorKeyY t = 0xFF.

Lemma device_text_init fmt a b w h t :
  Z.of_nat (length a) = text_img_size DIGIT_8_16_WIDTH DIGIT_8_16_HEIGHT DEF_MAX_OVERLAP_TEXT →
  Z.of_nat (length b) = text_img_size DIGIT_8_16_WIDTH DIGIT_8_16_HEIGHT DEF_MAX_OVERLAP_TEXT →
  TextOverlap_Init DIGIT_8_16_WIDTH DIGIT_8_16_HEIGHT fmt DEF_MAX_OVERLAP_TEXT 0xFF 0x80 0x80 (Some a) (Some b) (Some (w, h)) = Some t →
  device_text t.
Proof. intros Ha Hb. unfold TextOverlap_Init. repeat case_match; try done; intros [= <-]; done. Qed.

(** Every character has a picture of the right size. *)
Lemma code_book_size c : length (code_book c) = 256%nat.
Proof. unfold code_book. repeat (case_match; [reflexivity|]). reflexivity. Qed.

Lemma device_fits t s : device_text t → 0 < Z.of_nat (length s) <= 32 → text_fits t (map code_book s).
Proof.
  intros (Hw & Hh & Hm & Hi & Hb & _) Hs. unfold text_fits. rewrite Hw, Hh, Hm, Hi, Hb, length_map.
  change (text_img_size DIGIT_8_16_WIDTH DIGIT_8_16_HEIGHT DEF_MAX_OVERLAP_TEXT) with 8192.
  unfold DIGIT_8_16_WIDTH, DIGIT_8_16_HEIGHT, DEF_MAX_OVERLAP_TEXT. split_and!; try lia; [done|].
  apply Forall_map, Forall_true. intros c. cbn. by rewrite code_book_size.
Qed.

Lemma device_text_stays t s t' : device_text t → text_ready t (map code_book s) t' → device_text t'.
Proof.
  intros (Hw & Hh & Hm & Hi & Hb & Hk) (_ & _ & Rw & Rh & Rm & Ri & Rb & Rk). unfold device_text. by rewrite Rw, Rh, Rm, Ri, Rb, Rk.
Qed.

(** The column of the text, in cells. *)
Definition caption_cell (W n : Z) : Z := (W - 8 * n) / 2 / 2.

(** C32: A string on the picture.  For a string of 1 to 32 characters that fits on the width
    of a picture at least 48 lines high, [OverlapText] with the device's text handle draws
    the 8 by 16 pictures of its characters, digit by digit, in the middle of lines 32 to
    47: every byte of the picture afterwards is given by the code book where the character
    does not have the key brightness 0xFF, and is unchanged elsewhere.  This holds for the
    planar and for the packed format, and the handle can be used again. *)
Theorem caption_drawn t s ctx img :
  device_text t → 0 < Z.of_nat (length s) <= 32 → 8 * Z.of_nat (length s) <= u32Width ctx → 48 <= u32Height ctx →
  u32Width ctx * u32Height ctx < 2 ^ 31 →
  let gs := map code_book s in
  let X0 := caption_cell (u32Width ctx) (Z.of_nat (length s)) in
  (∀ W2 H2, eColorType ctx = eNM_COLOR_YUV420P → u32Width ctx = 2 * W2 → u32Height ctx = 2 * H2 →
    Z.of_nat (length img) = 6 * W2 * H2 →
    returns (OverlapText (Some t) ctx img s) (λ '(h, img'), (∃ t', h = Some t' ∧ device_text t') ∧ length img' = length img ∧
      (∀ X Y, 0 <= X < 2 * W2 → 0 <= Y < 2 * H2 → byte img' (at_Y (2 * W2) X Y) = luma_with t gs img W2 X0 16 X Y) ∧
      (∀ X Y, 0 <= X < W2 → 0 <= Y < H2 →
        byte img' (at_U (2 * W2) (2 * H2) X Y) = U_with t gs img W2 H2 X0 16 X Y ∧
        byte img' (at_V (2 * W2) (2 * H2) X Y) = V_with t gs img W2 H2 X0 16 X Y))) ∧
  (eColorType ctx = eNM_COLOR_YUV422 → Z.of_nat (length img) = 2 * u32Width ctx * u32Height ctx →
    returns (OverlapText (Some t) ctx img s) (λ '(h, img'), (∃ t', h = Some t' ∧ device_text t') ∧ length img' = length img ∧
      (∀ X Y j, 0 <= X < u32Width ctx → 0 <= Y < u32Height ctx → 0 <= j < 2 →
        byte img' (at_px (u32Width ctx) X Y j) = pixel_with t gs img (u32Width ctx) X0 32 X Y j))).
Proof.
  intros Hdev Hs Hx Hy Hsize gs X0. pose proof (device_fits t s Hdev Hs) as Hfit. pose proof Hdev as (Hw & Hh & _).
  assert (length gs = length s) as Hgs by apply length_map.
  assert (u32Width ctx <= u32Width ctx * u32Height ctx) as HW by nia.
  unfold OverlapText. rewrite (proj2 (Z.ltb_ge _ _)) by (unfold DEF_MAX_OVERLAP_TEXT; lia).
  assert (u32 (u32Width ctx - Z.of_nat (length s) * DIGIT_8_16_WIDTH) = u32Width ctx - 8 * Z.of_nat (length s)) as Eu
    by (unfold DIGIT_8_16_WIDTH; rewrite u32_small; lia).
  rewrite !Eu. clear Eu. fold gs. rewrite <- !Hgs. change (2 * DIGIT_8_16_HEIGHT) with 32.
  pose proof (Z.div_mod (u32Width ctx - 8 * Z.of_nat (length s)) 2 ltac:(lia)). pose proof (Z.mod_pos_bound (u32Width ctx - 8 * Z.of_nat (length s)) 2 ltac:(lia)).
  unfold DIGIT_8_16_WIDTH in Hw. unfold DIGIT_8_16_HEIGHT in Hh. rewrite <- Hgs in *.
  split.
  - intros W2 H2 Hf EW EH Hi. rewrite Hf. cbn [Z.eqb]. change (eNM_COLOR_YUV420P =? eNM_COLOR_YUV420P) with true. cbn iota. rewrite EW, EH in *.
    eapply returns_bind; [apply (text_on_planar t gs img W2 H2); first [done|rewrite Hh; done|rewrite Hh; lia|rewrite Hw; lia|lia]|].
    intros [[e h] img'] (_ & (t' & -> & Hr) & Hl & HY & HUV). apply returns_Ok.
    split; [exists t'; split; [done|by eapply device_text_stays]|]. split; [done|]. subst X0. unfold caption_cell. rewrite EW, <- Hgs. by split.
  - intros Hf Hi. rewrite Hf. change (eNM_COLOR_YUV422 =? eNM_COLOR_YUV420P) with false. change (eNM_COLOR_YUV422 =? eNM_COLOR_YUV422) with true. cbn iota.
    eapply returns_bind; [apply (text_on_packed t gs img); first [done|rewrite Hh; lia|rewrite Hw; lia|lia]|].
    intros [[e h] img'] (_ & (t' & -> & Hr) & Hl & HP). apply returns_Ok.
    split; [exists t'; split; [done|by eapply device_text_stays]|]. split; [done|]. subst X0. unfold caption_cell. rewrite <- Hgs. exact HP.
Qed.

Definition w_picture (img : option (list Z)) (fmt w h : Z) : S_NM_VIDEOCTX := MkVideo img 0 0 0 0 fmt 0 0 w h w h 0 0.

Lemma caption_drawn_witness :
  let t := MkText 8 16 32 (replicate (Z.to_nat 8192) 0) (replicate (Z.to_nat 8192) 0) 0 0 255 128 128 in
  returns (OverlapText (Some t) (w_picture None eNM_COLOR_YUV420P 8 48) (replicate 576 77) [48])
    (λ '(_, img'), length img' = 576%nat ∧ byte img' (at_Y 8 2 36) = 0x9B ∧ byte img' (at_Y 8 1 36) = 77) ∧
  returns (OverlapText (Some t) (w_picture None eNM_COLOR_YUV422 8 48) (replicate 768 77) [48])
    (λ '(_, img'), length img' = 768%nat ∧ byte img' (at_px 8 2 36 0) = 0x9B ∧ byte img' (at_px 8 2 35 1) = 77).
Proof.
  intros t. assert (device_text t) as Hd by (unfold device_text, t; cbn [u32FontWidth u32FontHeight u32MaxTexts pu8TextImg pu8TextBGImg u32ColorKeyY];
    rewrite !length_replicate, Z2Nat.id by lia; done). split.
  - refine (returns_mono _ _ _ (proj1 (caption_drawn t [48] (w_picture None eNM_COLOR_YUV420P 8 48) (replicate 576 77) Hd _ _ _ _) 4 24 _ _ _ _) _);
      [done..|]. intros [h img'] (_ & Hl & HY & _). split; [done|].
    split; [rewrite (HY 2 36 ltac:(lia) ltac:(lia) : byte img' (at_Y 8 2 36) = _)|rewrite (HY 1 36 ltac:(lia) ltac:(lia) : byte img' (at_Y 8 1 36) = _)]; by vm_compute.
  - refine (returns_mono _ _ _ (proj2 (caption_drawn t [48] (w_picture None eNM_COLOR_YUV422 8 48) (replicate 768 77) Hd _ _ _ _) _ _) _);
      [done..|]. intros [h img'] (_ & Hl & HP). split; [done|].
    split; [rewrite (HP 2 36 0 ltac:(done) ltac:(done) ltac:(done) : byte img' (at_px 8 2 36 0) = _)|rewrite (HP 2 35 1 ltac:(done) ltac:(done) ltac:(done) : byte img' (at_px 8 2 35 1) = _)]; by vm_compute.
Defined.

(** *** The date *)

Lemma digits_aux_length fuel n acc k :
  0 <= n < 10 ^ Z.of_nat k → (0 < k)%nat → (length (digits_aux fuel n acc) <= k + length acc)%nat.
Proof.
  revert n acc k. induction fuel as [|fuel IH]; intros n acc k Hn Hk; cbn [digits_aux]; [lia|]. case_match; cbn [length]; [lia|].
  destruct k as [|[|k]]; [lia| |].
  - change (10 ^ Z.of_nat 1) with 10 in Hn. rewrite Z.div_small in * by lia. done.
  - specialize (IH (n / 10) (48 + n mod 10 :: acc) (S k)). cbn [length] in IH.
    rewrite (Nat2Z.inj_succ (S k)), Z.pow_succ_r in Hn by lia.
    assert (0 <= n / 10 < 10 ^ Z.of_nat (S k)) by (split; [apply Z.div_pos; lia|apply Z.div_lt_upper_bound; lia]). lia.
Qed.

Lemma dec0_length w n : 0 <= n < 10 ^ Z.of_nat w → (0 < w)%nat → length (dec0 w n) = w.
Proof.
  intros Hn Hw. unfold dec0. rewrite (proj2 (Z.ltb_ge _ _)), length_app, length_replicate by lia.
  pose proof (digits_aux_length (S (Z.to_nat (Z.log2 n))) n [] w Hn Hw) as Hl. cbn [length] in Hl. unfold udec. lia.
Qed.

Lemma dec0_no_nul w n : 0 <= n → no_nul (dec0 w n).
Proof.
  intros Hn. unfold dec0. rewrite (proj2 (Z.ltb_ge _ _)) by lia. apply Forall_app. split; [|by apply udec_no_nul].
  by apply Forall_replicate.
Qed.

(** A time of the calendar, before the year 10000. *)
Definition calendar (t : tm) : Prop :=
  -1900 <= tm_year t < 8100 ∧ 0 <= tm_mon t < 12 ∧ 1 <= tm_mday t <= 31 ∧ 0 <= tm_hour t < 24 ∧ 0 <= tm_min t < 60 ∧ 0 <= tm_sec t <= 60.

(** [YYYY/MM/DD hh:mm:ss] and a blank. *)
Definition date_string (t : tm) : list Z :=
  dec0 4 (tm_year t + 1900) ++ [47] ++ dec0 2 (tm_mon t + 1) ++ [47] ++ dec0 2 (tm_mday t) ++ [32] ++
  dec0 2 (tm_hour t) ++ [58] ++ dec0 2 (tm_min t) ++ [58] ++ dec0 2 (tm_sec t) ++ [32].

Lemma list_2 {A} (l : list A) : length l = 2%nat → ∃ a b, l = [a; b].
Proof. destruct l as [|a [|b [|]]]; try done. by exists a, b. Qed.

Lemma list_4 {A} (l : list A) : length l = 4%nat → ∃ a b c d, l = [a; b; c; d].
Proof. destruct l as [|a [|b [|c [|d [|]]]]]; try done. by exists a, b, c, d. Qed.

Lemma i32_u32 n : 0 <= n < 2 ^ 31 → i32 (u32 n) = n.
Proof. intros H. rewrite u32_small by lia. unfold i32. rewrite Z.mod_small; lia. Qed.

Ltac offsets := repeat match goal with |- context [Z.to_nat ?k] => let n := eval vm_compute in (Z.to_nat k) in change (Z.to_nat k) with n end.

(** All but the end of the text. *)
Lemma date_text_put t d :
  calendar t → (20 <= length d)%nat → date_text t d = wrz (date_string t ++ drop 20 d) 20 0.
Proof.
  intros (Hy & Hm & Hd & Hh & Hi & Hs) Hl. unfold date_text, date_string, cur_date_time. rewrite i32_u32 by lia.
  destruct (list_4 (dec0 4 (tm_year t + 1900))) as (y1 & y2 & y3 & y4 & ->); [apply dec0_length; lia|].
  destruct (list_2 (dec0 2 (tm_mon t + 1))) as (m1 & m2 & ->); [apply dec0_length; lia|].
  destruct (list_2 (dec0 2 (tm_mday t))) as (d1 & d2 & ->); [apply dec0_length; lia|].
  destruct (list_2 (dec0 2 (tm_hour t))) as (h1 & h2 & ->); [apply dec0_length; lia|].
  destruct (list_2 (dec0 2 (tm_min t))) as (i1 & i2 & ->); [apply dec0_length; lia|].
  destruct (list_2 (dec0 2 (tm_sec t))) as (s1 & s2 & ->); [apply dec0_length; lia|].
  rewrite <- (take_drop 20 d) at 1. assert (length (take 20 d) = 20%nat) as H20 by (rewrite length_take; lia).
  generalize (drop 20 d). intros rest. revert H20. generalize (take 20 d). intros p H20. clear -H20.
  do 20 (destruct p as [|? p]; [done|]). destruct p; [|done]. cbn [app take].
  do 6 (rewrite memcpy_Ok, bind_Ok by (cbn [length]; lia); unfold splice; offsets; cbn -[memcpy wrz Z.of_nat];
    rewrite wrz_Ok, bind_Ok by (cbn [length]; lia); offsets; cbn -[memcpy wrz Z.of_nat]).
  reflexivity.
Qed.

Lemma date_string_length t : calendar t → length (date_string t) = 20%nat.
Proof.
  intros (Hy & Hm & Hd & Hh & Hi & Hs). unfold date_string. rewrite !length_app.
  rewrite (dec0_length 4 (tm_year t + 1900)), (dec0_length 2 (tm_mon t + 1)), (dec0_length 2 (tm_mday t)), (dec0_length 2 (tm_hour t)),
    (dec0_length 2 (tm_min t)), (dec0_length 2 (tm_sec t)) by (first [lia|change (10 ^ Z.of_nat 2) with 100; lia]). done.
Qed.

Lemma date_string_no_nul t : calendar t → no_nul (date_string t).
Proof.
  intros (Hy & Hm & Hd & Hh & Hi & Hs). unfold date_string, no_nul. rewrite !Forall_app. rewrite !Forall_singleton.
  split_and!; try done; apply dec0_no_nul; lia.
Qed.

(** The end of the text needs a byte more than [achDateTime] has. *)
Lemma date_text_no_room t d : calendar t → length d = achDateTime_size → date_text t d = Undef.
Proof.
  intros Ht Hd. unfold achDateTime_size in Hd. rewrite date_text_put by (done || lia). rewrite drop_ge, app_nil_r by lia.
  unfold wrz, wr. by rewrite date_string_length.
Qed.

Lemma date_text_room t d :
  calendar t → (achDateTime_size < length d)%nat → returns (date_text t d) (λ d', string_at d' 0 = Some (date_string t)).
Proof.
  intros Ht Hd. unfold achDateTime_size in Hd. rewrite date_text_put, wrz_Ok by (done || rewrite ?length_app, ?date_string_length, ?length_drop by done; lia).
  apply returns_Ok. change (Z.to_nat 20) with 20%nat. rewrite <- (Nat.add_0_r 20), <- (date_string_length t Ht) at 1. rewrite insert_app_r.
  destruct (drop 20 d) as [|x l] eqn:E; [apply (f_equal length) in E; rewrite length_drop in E; cbn in E; lia|].
  unfold string_at. cbn [drop insert list_insert]. by apply take_string_app, date_string_no_nul.
Qed.

(** The date.  With a picture and a text handle, [DateOverlap] always writes behind the
    end of its array [achDateTime] of 20 bytes, whatever was in it: the text needs 20
    characters and its end.  With any larger array it draws the text YYYY/MM/DD hh:mm:ss and
    a blank, and without a handle or a picture it does nothing. *)
Theorem date_needs_room achDateTime now t ctx img :
  calendar now → pDataVAddr ctx = Some img →
  (length achDateTime = achDateTime_size → DateOverlap achDateTime (Some now) (Some t) (Some ctx) = Undef) ∧
  ((achDateTime_size < length achDateTime)%nat →
    DateOverlap achDateTime (Some now) (Some t) (Some ctx) =
    '(h, img') ← OverlapText (Some t) ctx img (date_string now);
    Ok (h, Some (with_picture ctx img'))) ∧
  DateOverlap achDateTime (Some now) None (Some ctx) = Ok (None, Some ctx).
Proof.
  intros Hn Hi. unfold DateOverlap. rewrite Hi. cbn [pointee]. rewrite bind_Ok. split; [|split; [|done]].
  - intros Hl. by rewrite date_text_no_room.
  - intros Hl. destruct (date_text_room now achDateTime Hn Hl) as (d & -> & Hd). rewrite bind_Ok, Hd. done.
Qed.

Lemma date_needs_room_witness :
  let now := MkTm 118 10 16 9 5 30 in
  let t := MkText 8 16 32 [] [] 0 0 255 128 128 in
  date_string now = lit "2018/11/16 09:05:30 "%string ∧
  DateOverlap (replicate 20 0) (Some now) (Some t) (Some (w_picture (Some []) eNM_COLOR_YUV422 640 480)) = Undef.
Proof.
  intros now t. split; [done|].
  refine (proj1 (date_needs_room (replicate 20 0) now t (w_picture (Some []) eNM_COLOR_YUV422 640 480) [] _ _) _); [|reflexivity|reflexivity].
  unfold calendar. cbn. lia.
Defined.
