(* ===== verification/ImgOverlap.v ===== *)
(** * Pictures on pictures ([ImgOverlap.c])

    A small picture is copied line by line into a larger one of the same format; what
    would be right of or below the larger one is left out. *)

From S2P Require Import Prelude Pixels TextOverlap TextSpec.

Local Open Scope Z_scope.
Local Open Scope c_scope.

Definition eIMG_OVERLAP_ERROR_NONE : Z := 0.
Definition eIMG_OVERLAP_ERROR_MB_BOUNDARY : Z := -3.

(** [u32CopyImgWidth] and [u32CopyImgHeight]: what of [len] at [pos] is inside [size]. *)
Definition copy_len (size len pos : Z) : Z := if size <? u32 (pos + len) then u32 (size - pos) else len.

Section overlap.
Context (W H : Z) (pu8OPImg : list Z) (ow oh u32PosX u32PosY : Z).
Let cw : Z := copy_len W ow u32PosX.
Let ch : Z := copy_len H oh u32PosY.
Let op : list Z := pu8OPImg.

Definition Overlap_YUV422 (img : list Z) : outcome (list Z) :=
  for_n ch (λ y img,
    memcpy img (u32 ((u32PosY * W + u32PosX) * 2) + y * u32 (W * 2)) op (y * u32 (ow * 2)) (u32 (cw * 2))) img.

Definition Overlap_YUV420 (img : list Z) : outcome (list Z) :=
  for_n ch (λ y img,
    memcpy img (u32 (u32 (u32PosY * W + u32PosX) / 2 * 3) + y * u32 (W / 2 * 3)) op (y * u32 (ow / 2 * 3)) (u32 (cw / 2 * 3))) img.

Definition Overlap_YUV422P (img : list Z) : outcome (list Z) :=
  let bgY := u32 (u32PosY * W + u32PosX) in
  let bgU := u32 (W * H) + u32 (u32PosY * W + u32PosX) / 2 in
  let bgV := bgU + u32 (W * H) / 2 in
  let opU := u32 (ow * oh) in
  let opV := opU + u32 (ow * oh) / 2 in
  for_n ch (λ y img,
    img ← memcpy img (bgY + y * W) op (y * ow) cw;
    img ← memcpy img (bgU + y * (W / 2)) op (opU + y * (ow / 2)) (cw / 2);
    memcpy img (bgV + y * (W / 2)) op (opV + y * (ow / 2)) (cw / 2)) img.

Definition Overlap_YUV420P (img : list Z) : outcome (list Z) :=
  let bgY := u32 (u32PosY * W + u32PosX) in
  let bgU := u32 (W * H) + u32 (u32PosY / 2 * (W / 2) + u32PosX / 2) in
  let bgV := bgU + u32 (W * H) / 4 in
  let opU := u32 (ow * oh) in
  let opV := opU + u32 (ow * oh) / 4 in
  for_2 U32_MAX ch (λ r img,
    img ← memcpy img (bgY + r * u32 (W * 2)) op (r * u32 (ow * 2)) cw;
    img ← memcpy img (bgY + r * u32 (W * 2) + W) op (r * u32 (ow * 2) + ow) cw;
    img ← memcpy img (bgU + r * (W / 2)) op (opU + r * (ow / 2)) (cw / 2);
    memcpy img (bgV + r * (W / 2)) op (opV + r * (ow / 2)) (cw / 2)) img.

(** Line [y] of the macro blocks: [u32PosY] has grown by their height [y] times. *)
Definition Overlap_YUV420MB (img : list Z) : outcome (list Z) :=
  let u32OverlapMB_Width := ow / ONE_MB_Y_WIDTH in
  let u32CopyImgMB_Width := cw / ONE_MB_Y_WIDTH in
  let u32CopyImgMB_Height := ch / ONE_MB_Y_HEIGHT in
  for_n u32CopyImgMB_Height (λ y img,
    let posY := u32 (u32PosY + y * ONE_MB_Y_HEIGHT) in
    let u32WidthInMB := u32 (W + ONE_MB_Y_WIDTH - 1) / ONE_MB_Y_WIDTH in
    let u32MBYPos := u32 (u32 ((posY / ONE_MB_Y_HEIGHT * u32WidthInMB + u32PosX / ONE_MB_Y_WIDTH) * ONE_MB_Y_SIZE) +
                          ((posY .& (ONE_MB_Y_HEIGHT - 1)) * ONE_MB_Y_WIDTH + (u32PosX .& (ONE_MB_Y_WIDTH - 1)))) in
    let u32WidthInMB := u32 (W / 2 + ONE_MB_UV_WIDTH - 1) / ONE_MB_UV_WIDTH in
    let u32MBUVPos := u32 (u32 ((posY / ONE_MB_UV_HEIGHT * u32WidthInMB + u32PosX / 2 / ONE_MB_UV_WIDTH) * ONE_MB_UV_SIZE) +
                           ((posY .& (ONE_MB_UV_HEIGHT - 1)) * ONE_MB_UV_WIDTH + (u32PosX / 2 .& (ONE_MB_UV_WIDTH - 1)))) in
    img ← memcpy img u32MBYPos op (y * u32 (ONE_MB_Y_SIZE * u32OverlapMB_Width)) (u32 (ONE_MB_Y_SIZE * u32CopyImgMB_Width));
    memcpy img (u32 (W * H) + u32MBUVPos) op (u32 (ow * oh) + y * u32 (ONE_MB_UV_SIZE * u32OverlapMB_Width))
      (u32 (ONE_MB_UV_SIZE * u32CopyImgMB_Width))) img.
End overlap.

Definition ImgOverlap_Overlap (eBGColor : Z) (img : list Z) (W H : Z) (op : list Z) (ow oh u32PosX u32PosY : Z) : outcome (Z * list Z) :=
  let x := if truth (u32PosX .& 1) then u32PosX - 1 else u32PosX in
  let y := if ((eBGColor =? eIMGPROC_YUV420) || (eBGColor =? eIMGPROC_YUV420P)) && truth (u32PosY .& 1)
           then u32PosY - 1 else u32PosY in
  if (eBGColor =? eIMGPROC_YUV420P_MB) &&
     (truth (ow .& (ONE_MB_Y_WIDTH - 1)) || truth (oh .& (ONE_MB_Y_HEIGHT - 1)) || truth (x .& (ONE_MB_Y_WIDTH - 1)) ||
      truth (y .& (ONE_MB_Y_HEIGHT - 1)))
  then Ok (eIMG_OVERLAP_ERROR_MB_BOUNDARY, img) else
  img ← (if eBGColor =? eIMGPROC_YUV420P_MB then Overlap_YUV420MB W H op ow oh x y img
         else if eBGColor =? eIMGPROC_YUV422 then Overlap_YUV422 W H op ow oh x y img
         else if eBGColor =? eIMGPROC_YUV422P then Overlap_YUV422P W H op ow oh x y img
         else if eBGColor =? eIMGPROC_YUV420 then Overlap_YUV420 W H op ow oh x y img
         else if eBGColor =? eIMGPROC_YUV420P then Overlap_YUV420P W H op ow oh x y img
         else Ok img);
  Ok (eIMG_OVERLAP_ERROR_NONE, img).

(** ** Theorems *)

Lemma copy_len_inside size len pos :
  0 <= pos <= size → 0 <= len → pos + len < 2 ^ 32 → size < 2 ^ 32 → copy_len size len pos = Z.min len (size - pos).
Proof. intros Hp Hl H32 Hs. unfold copy_len. rewrite !u32_small by lia. destruct (Z.ltb_spec size (pos + len)); lia. Qed.

Lemma copied_in d src s n i : 0 <= s → s + n <= Z.of_nat (length src) → d <= i < d + n → copied d src s n i = Some (byte src (s + (i - d))).
Proof. intros Hs Hn Hi. unfold copied. rewrite (proj2 (Z.leb_le _ _)), (proj2 (Z.ltb_lt _ _)) by lia. cbn [andb]. apply px_byte. lia. Qed.

Lemma copied_out d src s n i : i < d ∨ d + n <= i → copied d src s n i = None.
Proof. intros Hi. unfold copied. destruct (Z.leb_spec d i), (Z.ltb_spec i (d + n)); cbn; (lia || done). Qed.

(** A byte that only turn [r0] draws. *)
Lemma covers_pick n w i r0 (c : bool) v :
  (∀ r, 0 <= r < n → w r i = if (r =? r0) && c then Some v else None) →
  covers n w i = if (0 <=? r0) && (r0 <? n) && c then Some v else None.
Proof.
  intros H. destruct (Z.leb_spec 0 r0), (Z.ltb_spec r0 n); cbn [andb].
  2-4: apply covers_none; intros j Hj; rewrite H by lia; rewrite (proj2 (Z.eqb_neq _ _)) by lia; done.
  rewrite (covers_one n w i r0) by (first [lia|intros j Hj Hne; rewrite H by lia; rewrite (proj2 (Z.eqb_neq _ _)) by lia; done]).
  rewrite H by lia. by rewrite Z.eqb_refl.
Qed.

(** ** Packed pictures *)

Definition in_img (x y w h X Y : Z) : bool := (x <=? X) && (X <? x + w) && (y <=? Y) && (Y <? y + h).

(** One line of a packed picture. *)
Lemma line_at W op ow x y n X Y j r :
  0 <= x → 0 <= n → x + n <= W → 0 <= X < W → 0 <= j < 2 → 0 <= r → n <= ow → 2 * ((r + 1) * ow) <= Z.of_nat (length op) →
  copied (at_px W x (y + r) 0) op (r * (ow * 2)) (n * 2) (at_px W X Y j) =
  if (r =? Y - y) && ((x <=? X) && (X <? x + n)) then Some (byte op (at_px ow (X - x) (Y - y) j)) else None.
Proof.
  intros Hx Hn HW HX Hj Hr How Hop. unfold at_px, at_Y. destruct (Z.eqb_spec r (Y - y)) as [E|Hne]; cbn [andb].
  - replace Y with (y + r) by lia. destruct (Z.leb_spec x X), (Z.ltb_spec X (x + n)); cbn [andb]; [|apply copied_out; lia..].
    pose proof (Z.mul_nonneg_nonneg r ow Hr ltac:(lia)). rewrite copied_in by lia. do 2 f_equal. replace (y + r - y) with r by lia. lia.
  - apply copied_out. destruct (Z.lt_total (y + r) Y) as [?|[?|?]]; [|lia|]; [right|left]; nia.
Qed.

(** A picture on a packed picture.  For a position inside the larger picture,
    [ImgOverlap_Overlap] copies the part of the smaller picture that is inside and nothing
    else: afterwards a pixel under the smaller picture, whose left edge is rounded down to
    an even column, is the smaller picture's, any other pixel is as before. *)
Theorem image_on_packed img W H op ow oh x y :
  0 <= x <= W → 0 <= y <= H → 0 <= ow → 0 <= oh → x + ow < 2 ^ 32 → y + oh < 2 ^ 32 → W * H * 2 + W * 2 + ow * 2 + H < 2 ^ 32 →
  Z.of_nat (length img) = 2 * W * H → 2 * ow * oh <= Z.of_nat (length op) →
  returns (ImgOverlap_Overlap eIMGPROC_YUV422 img W H op ow oh x y) (λ '(e, img'),
    e = eIMG_OVERLAP_ERROR_NONE ∧ length img' = length img ∧
    ∀ X Y j, 0 <= X < W → 0 <= Y < H → 0 <= j < 2 → byte img' (at_px W X Y j) =
      if in_img (2 * (x / 2)) y ow oh X Y then byte op (at_px ow (X - 2 * (x / 2)) (Y - y) j) else byte img (at_px W X Y j)).
Proof.
  intros Hx Hy How Hoh Hx32 Hy32 Hsize Hi Hop. unfold ImgOverlap_Overlap. rewrite even_pos.
  assert (0 <= 2 * (x / 2) <= x) as Hx' by (Z.div_mod_to_equations; lia). set (x0 := 2 * (x / 2)) in *. clearbody x0.
  change (eIMGPROC_YUV422 =? eIMGPROC_YUV420P_MB) with false. change (eIMGPROC_YUV422 =? eIMGPROC_YUV422) with true.
  change (eIMGPROC_YUV422 =? eIMGPROC_YUV420) with false. change (eIMGPROC_YUV422 =? eIMGPROC_YUV420P) with false. cbn [andb orb].
  assert (0 <= W * H) as HWH by nia. assert (y * W + x0 <= W * H + W) as Hpos by nia.
  pose proof (Z.mul_nonneg_nonneg y W ltac:(lia) ltac:(lia)) as HyW.
  set (cw := Z.min ow (W - x0)). set (ch := Z.min oh (H - y)). assert (0 <= cw <= ow ∧ cw <= W - x0) as Hcw by lia.
  eapply returns_bind with (P := λ img', drawn img img' (covers ch (λ r, copied (at_px W x0 (y + r) 0) op (r * (ow * 2)) (cw * 2)))).
  - unfold Overlap_YUV422. rewrite !copy_len_inside by lia. fold cw ch. apply for_n_drawn. intros r m Hr Hm.
    rewrite !u32_small by lia. replace ((y * W + x0) * 2 + r * (W * 2)) with (at_px W x0 (y + r) 0) by (unfold at_px, at_Y; lia).
    assert ((r + 1) * ow <= oh * ow) as Hb1 by (apply Z.mul_le_mono_nonneg_r; lia). assert (0 <= r * ow) as Hb2 by (apply Z.mul_nonneg_nonneg; lia).
    assert ((y + r + 1) * W <= H * W) as Hb3 by (apply Z.mul_le_mono_nonneg_r; lia). assert (0 <= (y + r) * W) as Hb4 by (apply Z.mul_nonneg_nonneg; lia).
    apply memcpy_drawn; unfold at_px, at_Y; rewrite ?Hm; lia.
  - intros img' [Hl Hd]. apply returns_Ok. split; [done|]. split; [done|]. intros X Y j HX HY Hj. unfold byte at 1. rewrite Hd.
    rewrite (covers_pick ch _ _ (Y - y) ((x0 <=? X) && (X <? x0 + cw)) (byte op (at_px ow (X - x0) (Y - y) j))).
    + unfold in_img. destruct (Z.leb_spec x0 X), (Z.ltb_spec X (x0 + cw)), (Z.ltb_spec X (x0 + ow)), (Z.leb_spec y Y), (Z.ltb_spec Y (y + oh)),
        (Z.leb_spec 0 (Y - y)), (Z.ltb_spec (Y - y) ch); cbn [andb]; try done; lia.
    + intros r Hr. assert ((r + 1) * ow <= oh * ow) as Hb by (apply Z.mul_le_mono_nonneg_r; lia). apply line_at; lia.
Qed.

Lemma image_on_packed_witness :
  returns (ImgOverlap_Overlap eIMGPROC_YUV422 (replicate 16 7) 4 2 [1; 2; 3; 4; 5; 6; 7; 8] 2 2 3 1)
    (λ '(e, img'), e = 0 ∧ length img' = 16%nat ∧ byte img' (at_px 4 2 1 0) = 1 ∧ byte img' (at_px 4 3 1 1) = 4 ∧ byte img' (at_px 4 1 1 0) = 7).
Proof.
  refine (returns_mono _ _ _ (image_on_packed (replicate 16 7) 4 2 [1; 2; 3; 4; 5; 6; 7; 8] 2 2 3 1 _ _ _ _ _ _ _ _ _) _);
    [lia..|reflexivity|cbn; lia|].
  intros [e img'] (He & Hl & HP). split; [done|]. split; [done|].
  rewrite (HP 2 1 0), (HP 3 1 1), (HP 1 1 0) by lia. by vm_compute.
Defined.


(** ** Three planes *)

(** One line of a plane at [base] with lines of [S] bytes. *)
Lemma row_at base S op x y s n X Y :
  0 <= x → 0 <= n → x + n <= S → 0 <= X < S → 0 <= s → s + n <= Z.of_nat (length op) →
  copied (base + at_Y S x y) op s n (base + at_Y S X Y) =
  if (y =? Y) && ((x <=? X) && (X <? x + n)) then Some (byte op (s + (X - x))) else None.
Proof.
  intros Hx Hn HS HX Hs Hop. unfold at_Y. destruct (Z.eqb_spec y Y) as [->|Hne]; cbn [andb].
  - destruct (Z.leb_spec x X), (Z.ltb_spec X (x + n)); cbn [andb]; [|apply copied_out; lia..].
    rewrite copied_in by lia. do 2 f_equal. lia.
  - apply copied_out. destruct (Z.lt_total y Y) as [?|[?|?]]; [|lia|]; [right|left]; nia.
Qed.

Section planar.
Context (W2 H2 X0 Y0 : Z) (op : list Z) (w2 h2 : Z).
Hypothesis Hpos : 0 <= X0 <= W2 ∧ 0 <= Y0 <= H2 ∧ 0 <= w2 ∧ 0 <= h2.
Hypothesis Hsize : 2 * W2 * (2 * H2) + 2 * W2 * 2 + 2 * w2 * 2 + 2 * H2 < 2 ^ 31 ∧ 2 * w2 * (2 * h2) + 2 * h2 < 2 ^ 31.
Hypothesis Hop : 6 * w2 * h2 <= Z.of_nat (length op).
Abbreviation W := (2 * W2).
Abbreviation H := (2 * H2).
Abbreviation ow := (2 * w2).
Abbreviation oh := (2 * h2).
Abbreviation cw := (Z.min w2 (W2 - X0)).
Abbreviation ch := (Z.min h2 (H2 - Y0)).

(** Two lines of brightness, one of each colour. *)
Definition image_turn (r : Z) : pen :=
  over (over (over (copied (at_V W H X0 (Y0 + r)) op (at_V ow oh 0 r) cw)
                   (copied (at_U W H X0 (Y0 + r)) op (at_U ow oh 0 r) cw))
             (copied (at_Y W (2 * X0) (2 * (Y0 + r) + 1)) op (at_Y ow 0 (2 * r + 1)) (2 * cw)))
       (copied (at_Y W (2 * X0) (2 * (Y0 + r))) op (at_Y ow 0 (2 * r)) (2 * cw)).

Lemma turn_bounds r : 0 <= r < ch →
  0 <= r * w2 ∧ (r + 1) * w2 <= w2 * h2 ∧ 0 <= (Y0 + r) * W2 ∧ (Y0 + r + 1) * W2 <= W2 * H2.
Proof using All.
  intros Hr. rewrite (Z.mul_comm w2 h2), (Z.mul_comm W2 H2).
  split_and!; [apply Z.mul_nonneg_nonneg; lia|apply Z.mul_le_mono_nonneg_r; lia|apply Z.mul_nonneg_nonneg; lia|apply Z.mul_le_mono_nonneg_r; lia].
Qed.

Lemma image_drawn img :
  Z.of_nat (length img) = 6 * W2 * H2 →
  returns (Overlap_YUV420P W H op ow oh (2 * X0) (2 * Y0) img) (λ img', drawn img img' (covers ch image_turn)).
Proof using All.
  intros Hi. assert (0 <= W2 * H2) as Hs1 by (apply Z.mul_nonneg_nonneg; lia). assert (0 <= w2 * h2) as Hs2 by (apply Z.mul_nonneg_nonneg; lia).
  assert (0 <= Y0 * W2) as Hs3 by (apply Z.mul_nonneg_nonneg; lia). assert (Y0 * W2 <= H2 * W2) as Hs4 by (apply Z.mul_le_mono_nonneg_r; lia).
  unfold Overlap_YUV420P. rewrite !copy_len_inside by lia.
  replace (Z.min ow (W - 2 * X0)) with (2 * cw) by lia. replace (Z.min oh (H - 2 * Y0)) with (2 * ch) by lia. rewrite !half_even.
  rewrite !(u32_small (W * H)), !(u32_small (ow * oh)), (u32_small (2 * Y0 * W + 2 * X0)), (u32_small (Y0 * W2 + X0)),
    (u32_small (W * 2)), (u32_small (ow * 2)), !quarter by lia.
  rewrite for_2_halves by (unfold U32_MAX; lia). apply for_n_drawn. intros r m Hr Hm. pose proof (turn_bounds r Hr) as Hb.
  unfold image_turn, at_Y, at_U, at_V. rewrite !half_even, !quarter.
  replace (2 * Y0 * W + 2 * X0 + r * (W * 2) + W) with ((2 * (Y0 + r) + 1) * W + 2 * X0) by lia.
  replace (2 * Y0 * W + 2 * X0 + r * (W * 2)) with (2 * (Y0 + r) * W + 2 * X0) by lia.
  replace (r * (ow * 2) + ow) with ((2 * r + 1) * ow + 0) by lia. replace (r * (ow * 2)) with (2 * r * ow + 0) by lia.
  replace (W * H + (Y0 * W2 + X0) + r * W2) with (W * H + ((Y0 + r) * W2 + X0)) by lia.
  replace (W * H + (Y0 * W2 + X0) + W2 * H2 + r * W2) with (W * H + W2 * H2 + ((Y0 + r) * W2 + X0)) by lia.
  replace (ow * oh + r * w2) with (ow * oh + (r * w2 + 0)) by lia.
  replace (ow * oh + w2 * h2 + r * w2) with (ow * oh + w2 * h2 + (r * w2 + 0)) by lia.
  apply drawn_bind; [apply memcpy_drawn; lia|]. intros m1 H1. apply drawn_bind; [apply memcpy_drawn; lia|]. intros m2 H2'.
  apply drawn_bind; [apply memcpy_drawn; lia|]. intros m3 H3. apply memcpy_drawn; lia.
Qed.

Lemma at_U_at x y : at_U W H x y = W * H + at_Y W2 x y.
Proof. unfold at_U, at_Y. by rewrite half_even. Qed.

Lemma at_V_at x y : at_V W H x y = W * H + W2 * H2 + at_Y W2 x y.
Proof. unfold at_V, at_Y. by rewrite half_even, quarter. Qed.

Lemma turn_luma X Y r :
  0 <= X < W → 0 <= Y < H → 0 <= r < ch →
  image_turn r (at_Y W X Y) =
  if (r =? Y / 2 - Y0) && ((2 * X0 <=? X) && (X <? 2 * X0 + 2 * cw)) then Some (byte op (at_Y ow (X - 2 * X0) (Y - 2 * Y0))) else None.
Proof using All.
  intros HX HY Hr. pose proof (turn_bounds r Hr) as Hb. unfold image_turn, over.
  assert (at_Y W X Y < W * H) as Hlt by (unfold at_Y; assert ((Y + 1) * W <= H * W) by (apply Z.mul_le_mono_nonneg_r; lia); lia).
  rewrite (copied_out (at_V _ _ _ _)), (copied_out (at_U _ _ _ _)) by (left; rewrite ?at_U_at, ?at_V_at; unfold at_Y at 2; lia).
  rewrite <- (Z.add_0_l (at_Y W X Y)), <- (Z.add_0_l (at_Y W (2 * X0) (2 * (Y0 + r)))), <- (Z.add_0_l (at_Y W (2 * X0) (2 * (Y0 + r) + 1))).
  rewrite !row_at by (first [lia|unfold at_Y; lia]). pose proof (Z.div_mod Y 2 ltac:(lia)). pose proof (Z.mod_pos_bound Y 2 ltac:(lia)).
  destruct (Z.eqb_spec r (Y / 2 - Y0)), (Z.eqb_spec (2 * (Y0 + r) + 1) Y), (Z.eqb_spec (2 * (Y0 + r)) Y); cbn [andb]; try lia; [..|done].
  all: destruct (_ && _); [|done]; do 2 f_equal; unfold at_Y; lia.
Qed.

Lemma turn_chroma x y r :
  0 <= x < W2 → 0 <= y < H2 → 0 <= r < ch →
  let c := (X0 <=? x) && (x <? X0 + cw) in
  image_turn r (at_U W H x y) = (if (r =? y - Y0) && c then Some (byte op (at_U ow oh (x - X0) (y - Y0))) else None) ∧
  image_turn r (at_V W H x y) = (if (r =? y - Y0) && c then Some (byte op (at_V ow oh (x - X0) (y - Y0))) else None).
Proof using All.
  intros Hx Hy Hr c. pose proof (turn_bounds r Hr) as Hb. unfold image_turn, over.
  assert (0 <= at_Y W2 x y < W2 * H2) as Hlt.
  { unfold at_Y. assert ((y + 1) * W2 <= H2 * W2) by (apply Z.mul_le_mono_nonneg_r; lia). assert (0 <= y * W2) by (apply Z.mul_nonneg_nonneg; lia). lia. }
  rewrite !(copied_out (at_Y _ _ _)) by (right; rewrite ?at_U_at, ?at_V_at; unfold at_Y at 1; lia).
  rewrite !at_U_at, !at_V_at.
  rewrite (copied_out (_ + _ + _) _ _ _ (W * H + at_Y W2 x y)) by (left; unfold at_Y at 2; lia).
  rewrite (copied_out (W * H + at_Y W2 X0 (Y0 + r)) _ _ _ (W * H + W2 * H2 + _)) by (right; unfold at_Y at 1; lia).
  assert (∀ a b, 0 <= a → a + w2 * h2 <= Z.of_nat (length op) → b = a + r * w2 → 0 <= b ∧ b + cw <= Z.of_nat (length op)) as Hs by (intros; lia).
  assert (0 <= w2 * h2) as Hwh by (apply Z.mul_nonneg_nonneg; lia).
  destruct (Hs (ow * oh) (at_U ow oh 0 r)) as [? ?]; [lia|lia|unfold at_U; rewrite half_even; lia|].
  destruct (Hs (ow * oh + w2 * h2) (at_V ow oh 0 r)) as [? ?]; [lia|lia|unfold at_V; rewrite half_even, quarter; lia|].
  rewrite !row_at by lia. subst c.
  destruct (Z.eqb_spec (Y0 + r) y), (Z.eqb_spec r (y - Y0)); try lia; cbn [andb]; [|done].
  destruct (_ && _); [|done]. split; do 2 f_equal; unfold at_U, at_V; rewrite half_even, ?quarter; lia.
Qed.
End planar.

(** A picture on a picture of three planes.  For pictures of even size and a position
    inside the larger one, [ImgOverlap_Overlap] copies the part of the smaller picture that
    is inside and nothing else: brightness and colours under the smaller picture, whose
    corner is rounded down to even coordinates, are the smaller picture's, all other bytes
    are as before. *)
Theorem image_on_planar img W2 H2 op w2 h2 x y :
  0 <= x <= 2 * W2 → 0 <= y <= 2 * H2 → 0 <= w2 → 0 <= h2 →
  2 * W2 * (2 * H2) + 2 * W2 * 2 + 2 * w2 * 2 + 2 * H2 < 2 ^ 31 → 2 * w2 * (2 * h2) + 2 * h2 < 2 ^ 31 →
  Z.of_nat (length img) = 6 * W2 * H2 → 6 * w2 * h2 <= Z.of_nat (length op) →
  returns (ImgOverlap_Overlap eIMGPROC_YUV420P img (2 * W2) (2 * H2) op (2 * w2) (2 * h2) x y) (λ '(e, img'),
    e = eIMG_OVERLAP_ERROR_NONE ∧ length img' = length img ∧
    (∀ X Y, 0 <= X < 2 * W2 → 0 <= Y < 2 * H2 → byte img' (at_Y (2 * W2) X Y) =
      if in_img (2 * (x / 2)) (2 * (y / 2)) (2 * w2) (2 * h2) X Y
      then byte op (at_Y (2 * w2) (X - 2 * (x / 2)) (Y - 2 * (y / 2))) else byte img (at_Y (2 * W2) X Y)) ∧
    (∀ X Y, 0 <= X < W2 → 0 <= Y < H2 →
      byte img' (at_U (2 * W2) (2 * H2) X Y) =
        (if in_img (x / 2) (y / 2) w2 h2 X Y then byte op (at_U (2 * w2) (2 * h2) (X - x / 2) (Y - y / 2)) else byte img (at_U (2 * W2) (2 * H2) X Y)) ∧
      byte img' (at_V (2 * W2) (2 * H2) X Y) =
        (if in_img (x / 2) (y / 2) w2 h2 X Y then byte op (at_V (2 * w2) (2 * h2) (X - x / 2) (Y - y / 2)) else byte img (at_V (2 * W2) (2 * H2) X Y)))).
Proof.
  intros Hx Hy Hw Hh Hs1 Hs2 Hi Hop. unfold ImgOverlap_Overlap.
  change (eIMGPROC_YUV420P =? eIMGPROC_YUV420P_MB) with false. change (eIMGPROC_YUV420P =? eIMGPROC_YUV422) with false.
  change (eIMGPROC_YUV420P =? eIMGPROC_YUV422P) with false. change (eIMGPROC_YUV420P =? eIMGPROC_YUV420) with false.
  change (eIMGPROC_YUV420P =? eIMGPROC_YUV420P) with true. cbn [andb orb]. rewrite !even_pos.
  assert (0 <= x / 2 <= W2) as HX0 by (Z.div_mod_to_equations; lia). assert (0 <= y / 2 <= H2) as HY0 by (Z.div_mod_to_equations; lia).
  set (X0 := x / 2) in *. set (Y0 := y / 2) in *. clearbody X0 Y0.
  eapply returns_bind; [apply (image_drawn W2 H2 X0 Y0 op w2 h2); first [done|lia]|]. intros img' [Hl Hd]. apply returns_Ok.
  split; [done|]. split; [done|]. split; intros X Y HX HY; unfold byte at 1.
  - rewrite Hd. erewrite covers_pick by (intros r Hr; apply turn_luma; first [done|lia]). unfold in_img.
    pose proof (Z.div_mod Y 2 ltac:(lia)). pose proof (Z.mod_pos_bound Y 2 ltac:(lia)).
    destruct (Z.leb_spec 0 (Y / 2 - Y0)), (Z.ltb_spec (Y / 2 - Y0) (Z.min h2 (H2 - Y0))), (Z.leb_spec (2 * X0) X),
      (Z.ltb_spec X (2 * X0 + 2 * Z.min w2 (W2 - X0))), (Z.ltb_spec X (2 * X0 + 2 * w2)), (Z.leb_spec (2 * Y0) Y), (Z.ltb_spec Y (2 * Y0 + 2 * h2));
      cbn [andb]; try done; lia.
  - unfold byte at 3. rewrite !Hd. erewrite covers_pick by (intros r Hr; apply turn_chroma; first [done|lia]).
    erewrite covers_pick by (intros r Hr; apply turn_chroma; first [done|lia]). unfold in_img.
    destruct (Z.leb_spec 0 (Y - Y0)), (Z.ltb_spec (Y - Y0) (Z.min h2 (H2 - Y0))), (Z.leb_spec X0 X),
      (Z.ltb_spec X (X0 + Z.min w2 (W2 - X0))), (Z.ltb_spec X (X0 + w2)), (Z.leb_spec Y0 Y), (Z.ltb_spec Y (Y0 + h2));
      cbn [andb]; try done; lia.
Qed.

Lemma image_on_planar_witness :
  returns (ImgOverlap_Overlap eIMGPROC_YUV420P (replicate 24 7) 4 4 [1; 2; 3; 4; 5; 6] 2 2 3 2)
    (λ '(e, img'), e = 0 ∧ length img' = 24%nat ∧ byte img' (at_Y 4 3 2) = 2 ∧ byte img' (at_Y 4 1 2) = 7 ∧ byte img' (at_V 4 4 1 1) = 6).
Proof.
  refine (returns_mono _ _ _ (image_on_planar (replicate 24 7) 2 2 [1; 2; 3; 4; 5; 6] 1 1 3 2 _ _ _ _ _ _ _ _) _);
    [lia..|reflexivity|cbn; lia|].
  intros [e img'] (He & Hl & HY & HUV). split; [done|]. split; [done|].
  rewrite (HY 3 2 ltac:(lia) ltac:(lia) : byte img' (at_Y 4 3 2) = _), (HY 1 2 ltac:(lia) ltac:(lia) : byte img' (at_Y 4 1 2) = _).
  rewrite (proj2 (HUV 1 1 ltac:(lia) ltac:(lia)) : byte img' (at_V 4 4 1 1) = _). by vm_compute.
Defined.
