(* ===== verification/Stream.v ===== *)
(** * Streams ([stream.c])

    A stream has a list of destinations; a destination that is waiting gets every frame
    delivered to the stream.  A destination is a client of the stream or the input of a
    converter, whose output is a stream of its own.  Streams and destinations are named
    by numbers, their addresses.  What a client does with a frame is a parameter, stated
    as an interface, [Consumer]. *)

From Stdlib Require Import String.
From S2P Require Import Prelude CString Frame Conversions.

Local Open Scope Z_scope.
Local Open Scope c_scope.

(** ** Data *)

(** [process_frame] with its argument: [convert_uyvy_to_rgb24] on the converter's output
    stream, or a client's function. *)
Inductive process :=
| ConvertTo (out : nat)
| Client (k : nat).

Record stream_destination := MkDest { d_stream : nat; d_waiting : Z; d_process : process }.

(** [set_running]: [NULL], the function of a source, or the one of a converter, whose
    [private] is its input destination. *)
Inductive running_func :=
| RunNull
| RunSource
| RunConvert (d : nat).

Record stream := MkStream {
  s_name : list Z;
  s_format : Z;
  s_dest_list : list nat;
  s_set_running : running_func }.

(** [st_running] is what the sources were last told by [set_running]. *)
Record streams := MkStreams {
  stream_list : list nat;
  st_streams : gmap nat stream;
  st_dests : gmap nat stream_destination;
  st_running : gmap nat Z;
  st_fresh : nat }.

Definition set_stream (w : streams) (s : nat) (x : stream) : streams :=
  MkStreams (stream_list w) (<[s := x]> (st_streams w)) (st_dests w) (st_running w) (st_fresh w).

Definition set_dest (w : streams) (d : nat) (x : stream_destination) : streams :=
  MkStreams (stream_list w) (st_streams w) (<[d := x]> (st_dests w)) (st_running w) (st_fresh w).

(** ** Creation *)

(** [new_stream]; [strcpy] into [name[256]]. *)
Definition new_stream (w : streams) (name : list Z) (format : Z) : outcome (nat * streams) :=
  if (256 <=? length name)%nat then Undef else
  let s := st_fresh w in
  Ok (s, MkStreams (s :: stream_list w) (<[s := MkStream name format [] RunNull]> (st_streams w))
           (st_dests w) (st_running w) (S s)).

(** The encoders and sources set their functions on the stream they created. *)
Definition set_source (w : streams) (s : nat) : outcome streams :=
  match st_streams w !! s with
  | None => Undef
  | Some x => Ok (set_stream w s (MkStream (s_name x) (s_format x) (s_dest_list x) RunSource))
  end.

Definition del_stream (w : streams) (s : nat) : streams :=
  MkStreams (filter (λ x, x ≠ s) (stream_list w)) (delete s (st_streams w)) (st_dests w)
    (st_running w) (st_fresh w).

Definition new_dest (w : streams) (s : nat) (p : process) : outcome (nat * streams) :=
  match st_streams w !! s with
  | None => Undef
  | Some x =>
      let d := st_fresh w in
      Ok (d, MkStreams (stream_list w)
               (<[s := MkStream (s_name x) (s_format x) (d :: s_dest_list x) (s_set_running x)]> (st_streams w))
               (<[d := MkDest s 0 p]> (st_dests w)) (st_running w) (S d))
  end.

(** [new_convert_stream]: the output stream, listed right after its base. *)
Definition new_convert_stream (w : streams) (base : nat) (format : Z) : outcome (nat * streams) :=
  match st_streams w !! base with
  | None => Undef
  | Some b =>
      let s := st_fresh w in
      let order := flat_map (λ x, if decide (x = base) then [x; s] else [x]) (stream_list w) in
      let w := MkStreams order (<[s := MkStream (s_name b) format [] RunNull]> (st_streams w))
                 (st_dests w) (st_running w) (S s) in
      '(d, w) ← new_dest w base (ConvertTo s);
      match st_streams w !! s with
      | None => Undef
      | Some x => Ok (s, set_stream w s (MkStream (s_name x) (s_format x) (s_dest_list x) (RunConvert d)))
      end
  end.

Definition format_match (format : Z) (formats : list Z) : bool :=
  match formats with [] => true | _ => existsb (λ f, format =? f) formats end.

(** The first loop of [connect_to_stream]: a stream of the name and a wanted format. *)
Fixpoint find_exact (w : streams) (order : list nat) (name : list Z) (formats : list Z)
    : outcome (option nat) :=
  match order with
  | [] => Ok None
  | s :: order =>
      match st_streams w !! s with
      | None => Undef
      | Some x =>
          if streq (s_name x) name && format_match (s_format x) formats then Ok (Some s)
          else find_exact w order name formats
      end
  end.

(** The second: a stream of the name that can be converted. *)
Fixpoint find_convertible (w : streams) (order : list nat) (name : list Z) (formats : list Z)
    : outcome (option nat) :=
  match order with
  | [] => Ok None
  | s :: order =>
      match st_streams w !! s with
      | None => Undef
      | Some x =>
          if streq (s_name x) name && (s_format x =? FORMAT_RAW_UYVY) &&
             format_match FORMAT_RAW_RGB24 formats then Ok (Some s)
          else find_convertible w order name formats
      end
  end.

Definition connect_to_stream (w : streams) (name : list Z) (k : nat) (formats : list Z)
    : outcome (option nat * streams) :=
  r ← find_exact w (stream_list w) name formats;
  match r with
  | Some s => '(d, w) ← new_dest w s (Client k); Ok (Some d, w)
  | None =>
      r ← find_convertible w (stream_list w) name formats;
      match r with
      | Some s =>
          '(s, w) ← new_convert_stream w s FORMAT_RAW_RGB24;
          '(d, w) ← new_dest w s (Client k);
          Ok (Some d, w)
      | None => Ok (None, w)
      end
  end.

(** ** Waiting *)

(** [waiting |= dest->waiting] along the list. *)
Fixpoint or_waiting (w : streams) (ds : list nat) (waiting : Z) : outcome Z :=
  match ds with
  | [] => Ok waiting
  | d :: ds =>
      match st_dests w !! d with
      | None => Undef
      | Some x => or_waiting w ds (waiting .| d_waiting x)
      end
  end.

(** [set_waiting]; the recursion is through the [set_running] of a converter. *)
Fixpoint set_waiting (fuel : nat) (w : streams) (d : nat) (waiting : Z) : outcome streams :=
  match fuel with
  | O => Diverge
  | S fuel =>
      match st_dests w !! d with
      | None => Undef
      | Some x =>
          let s := d_stream x in
          match st_streams w !! s with
          | None => Undef
          | Some sx =>
              let run (w : streams) (waiting : Z) : outcome streams :=
                match s_set_running sx with
                | RunNull => Undef
                | RunSource =>
                    Ok (MkStreams (stream_list w) (st_streams w) (st_dests w)
                          (<[s := waiting]> (st_running w)) (st_fresh w))
                | RunConvert d' => set_waiting fuel w d' waiting
                end in
              if truth (d_waiting x) then
                if truth waiting then Ok w else
                let w := set_dest w d (MkDest s 0 (d_process x)) in
                waiting ← or_waiting w (s_dest_list sx) waiting;
                if truth waiting then Ok w else run w waiting
              else
                if negb (truth waiting) then Ok w else
                run (set_dest w d (MkDest s 1 (d_process x))) waiting
          end
      end
  end.

(** [get_framerate] of a converter asks its base; [rate] is what the sources answer.  A stream
    whose functions were not set has a null pointer. *)
Fixpoint get_framerate (fuel : nat) (w : streams) (rate : nat → Z * Z) (s : nat) : outcome (Z * Z) :=
  match fuel with
  | O => Diverge
  | S fuel =>
      match st_streams w !! s with
      | None => Undef
      | Some x =>
          match s_set_running x with
          | RunNull => Undef
          | RunSource => Ok (rate s)
          | RunConvert d => match st_dests w !! d with None => Undef | Some dx => get_framerate fuel w rate (d_stream dx) end
          end
      end
  end.

(** [new_listener_notify] and [get_enc_pipe_num]: the function that the stream has, if any; the
    ones of a converter are never initialised.  [f] are the functions of the sources: the
    first tells that it was called, the second gives the number. *)
Definition call_optional {A} (w : streams) (f : nat → option A) (d : nat) : outcome (option A) :=
  match st_dests w !! d with
  | None => Undef
  | Some dx =>
      match st_streams w !! d_stream dx with
      | None => Undef
      | Some x => match s_set_running x with RunConvert _ => Undef | _ => Ok (f (d_stream dx)) end
      end
  end.

Definition new_listener_notify (w : streams) (notify : nat → option unit) (d : nat) : outcome (option unit) := call_optional w notify d.

Definition get_enc_pipe_num (w : streams) (pipe : nat → option Z) (d : nat) (pipe_num : Z) : outcome Z :=
  n ← call_optional w pipe d; Ok (match n with Some n => n | None => pipe_num end).

(** ** Delivery *)

(** The frames, the streams and what the clients keep. *)
Record world (X : Type) := MkWorld { w_heap : frame_heap; w_streams : streams; w_clients : X }.
Arguments MkWorld {X} _ _ _.
Arguments w_heap {X} _.
Arguments w_streams {X} _.
Arguments w_clients {X} _.

Section delivery.
Context {X : Type}.

(** The [process_frame] of client [k], applied to a frame. *)
Context (client : nat → nat → world X → outcome (world X)).

Definition with_heap (w : world X) (h : frame_heap) : world X :=
  MkWorld h (w_streams w) (w_clients w).

(** The fields [convert_uyvy_to_rgb24] sets, with the converted pixels. *)
Definition rgb_of (u f : frame) (data : list Z) : frame :=
  MkFrame (f_ref_count f) (f_size f) (f_destructor f) FORMAT_RAW_RGB24 (f_width u) (f_height u)
    (i32 (f_height u * f_width u * 3)) (f_key u) (f_step f) (f_d f) (f_timestamp f) data.

(** [convert_uyvy_to_rgb24] up to the delivery of the result.  Without a free frame the
    function logs a format that wants an argument it does not pass. *)
Definition convert_uyvy_to_rgb24 (h : frame_heap) (uyvy : nat) : outcome (nat * frame_heap) :=
  '(r, h) ← new_frame h;
  match r with
  | None => Undef
  | Some rgb =>
      match h_frames h !! uyvy, h_frames h !! rgb with
      | Some u, Some f =>
          match h_frames h !! f_d u with
          | None => Undef
          | Some storage =>
              data ← uyvy2rgb (f_data storage) (f_data f) (Z.quot (f_length u) 2);
              h ← unref (with_frames h (<[rgb := rgb_of u f data]> (h_frames h))) uyvy;
              Ok (rgb, h)
          end
      | _, _ => Undef
      end
  end.

(** [deliver_frame_to_stream]; the recursion is through the converters. *)
Fixpoint deliver_frame_to_stream (fuel : nat) (w : world X) (f : nat) (s : nat) : outcome (world X) :=
  match fuel with
  | O => Diverge
  | S fuel =>
      let fix visit (w : world X) (ds : list nat) : outcome (world X) :=
        match ds with
        | [] => Ok w
        | d :: ds =>
            match st_dests (w_streams w) !! d with
            | None => Undef
            | Some x =>
                if negb (truth (d_waiting x)) then visit w ds else
                h ← ref_frame (w_heap w) f;
                w ← match d_process x with
                    | Client k => client k f (with_heap w h)
                    | ConvertTo out =>
                        '(rgb, h) ← convert_uyvy_to_rgb24 h f;
                        deliver_frame_to_stream fuel (with_heap w h) rgb out
                    end;
                visit w ds
            end
        end in
      match st_streams (w_streams w) !! s with
      | None => Undef
      | Some sx =>
          w ← visit w (s_dest_list sx);
          h ← unref (w_heap w) f;
          Ok (with_heap w h)
      end
  end.

End delivery.

(** ** Who is listening *)

Definition is_waiting (w : streams) (d : nat) : bool :=
  match st_dests w !! d with Some x => truth (d_waiting x) | None => false end.

Definition waiting_any (w : streams) (ds : list nat) : bool := existsb (is_waiting w) ds.

(** A client that gets the frames of [s], from it or through converters. *)
Inductive listens (w : streams) : nat → nat → Prop :=
| listens_client s sx d k :
    st_streams w !! s = Some sx → d ∈ s_dest_list sx →
    st_dests w !! d = Some (MkDest s 1 (Client k)) → listens w s d
| listens_convert s sx d x out d' :
    st_streams w !! s = Some sx → d ∈ s_dest_list sx →
    st_dests w !! d = Some x → d_process x = ConvertTo out → listens w out d' → listens w s d'.

(** What a stream's source knows, or its converter's input says. *)
Definition told (w : streams) (s : nat) (sx : stream) : Prop :=
  match s_set_running sx with
  | RunNull => False
  | RunSource => truth (default 0 (st_running w !! s)) = waiting_any w (s_dest_list sx)
  | RunConvert d => is_waiting w d = waiting_any w (s_dest_list sx)
  end.

(** The invariant; [hole] is a stream whose listeners have changed and whose source has
    not been told. *)
Record streams_inv (w : streams) (hole : option nat) : Prop := {
  si_streams s sx : st_streams w !! s = Some sx →
    (s < st_fresh w)%nat ∧ (∀ d, d ∈ s_dest_list sx → ∃ x, st_dests w !! d = Some x ∧ d_stream x = s) ∧
    match s_set_running sx with
    | RunConvert d => ∃ x, st_dests w !! d = Some x ∧ d_process x = ConvertTo s ∧ (d_stream x < s)%nat
    | RunSource => True
    | RunNull => False
    end;
  si_dests d x : st_dests w !! d = Some x →
    (d < st_fresh w)%nat ∧ (d_waiting x = 0 ∨ d_waiting x = 1) ∧
    (∃ sx, st_streams w !! d_stream x = Some sx ∧ d ∈ s_dest_list sx) ∧
    ∀ out, d_process x = ConvertTo out →
      ∃ ox, st_streams w !! out = Some ox ∧ s_set_running ox = RunConvert d;
  si_running s : (st_fresh w <= s)%nat → st_running w !! s = None;
  si_list s : s ∈ stream_list w → is_Some (st_streams w !! s);
  si_told s sx : st_streams w !! s = Some sx → hole ≠ Some s → told w s sx }.

Lemma truth_lor a b : truth (a .| b) = truth a || truth b.
Proof.
  unfold truth. destruct (Z.eqb_spec (a .| b) 0) as [E|E].
  - apply Z.lor_eq_0_iff in E as [-> ->]. done.
  - destruct (Z.eqb_spec a 0) as [->|], (Z.eqb_spec b 0) as [->|]; try done.
Qed.

Lemma or_waiting_spec w ds v :
  (∀ d, d ∈ ds → is_Some (st_dests w !! d)) →
  ∃ r, or_waiting w ds v = Ok r ∧ truth r = truth v || waiting_any w ds.
Proof.
  revert v. induction ds as [|d ds IH]; intros v Hd; cbn [or_waiting waiting_any existsb].
  { exists v. by rewrite orb_false_r. }
  destruct (Hd d) as [x E]; [set_solver|]. rewrite E.
  destruct (IH (v .| d_waiting x)) as (r & -> & Er); [set_solver|].
  exists r. split; [done|]. rewrite Er, truth_lor.
  assert (is_waiting w d = truth (d_waiting x)) as -> by (unfold is_waiting; by rewrite E).
  by rewrite orb_assoc.
Qed.

Lemma waiting_any_ext w w' ds :
  (∀ d, d ∈ ds → is_waiting w' d = is_waiting w d) → waiting_any w' ds = waiting_any w ds.
Proof.
  intros H. unfold waiting_any. induction ds as [|d ds IH]; [done|]. cbn [existsb].
  rewrite H by set_solver. f_equal. apply IH. set_solver.
Qed.

Lemma is_waiting_set w d x d' :
  is_waiting (set_dest w d x) d' = if decide (d' = d) then truth (d_waiting x) else is_waiting w d'.
Proof.
  unfold is_waiting. cbn [st_dests set_dest]. case_decide as E.
  - subst. by rewrite lookup_insert_eq.
  - by rewrite lookup_insert_ne.
Qed.

Lemma waiting_any_In w ds d : d ∈ ds → is_waiting w d = true → waiting_any w ds = true.
Proof. intros Hd Hw. apply existsb_exists. exists d. split; [by apply list_elem_of_In|done]. Qed.

(** Changing the flag of [d] concerns its stream, and the converter it is the input of. *)
Lemma set_flag_inv w hole d x v :
  streams_inv w hole → st_dests w !! d = Some x → (v = 0 ∨ v = 1) →
  (∀ s, hole = Some s → d_process x = ConvertTo s) →
  (∀ s sx, d_process x = ConvertTo s → st_streams w !! s = Some sx →
     truth v = waiting_any w (s_dest_list sx)) →
  streams_inv (set_dest w d (MkDest (d_stream x) v (d_process x))) (Some (d_stream x)).
Proof.
  intros [H1 H2 H3 H4 H5] E Hv Hh Hc.
  assert (∀ d', d' ≠ d → is_waiting (set_dest w d (MkDest (d_stream x) v (d_process x))) d' =
    is_waiting w d') as Hsame.
  { intros d' Hne. rewrite is_waiting_set. by rewrite decide_False. }
  assert (∀ s sx, st_streams w !! s = Some sx → s ≠ d_stream x →
    waiting_any (set_dest w d (MkDest (d_stream x) v (d_process x))) (s_dest_list sx) =
    waiting_any w (s_dest_list sx)) as Hany.
  { intros s sx Es Hne. apply waiting_any_ext. intros d' Hd'. apply Hsame. intros ->.
    destruct (H1 s sx Es) as (_ & Hl & _). destruct (Hl d Hd') as (x' & E' & Hx'). congruence. }
  split; cbn [st_streams st_dests st_running stream_list st_fresh set_dest]; try done.
  - intros s sx Es. destruct (H1 s sx Es) as (Ha & Hb & Hd). split; [done|]. split.
    + intros d' Hd'. destruct (decide (d' = d)) as [->|Hne].
      * rewrite lookup_insert_eq. eexists. split; [done|]. destruct (Hb d Hd') as (x' & E' & Hx').
        cbn [d_stream]. congruence.
      * rewrite lookup_insert_ne by done. auto.
    + destruct (s_set_running sx) as [| |d']; [done|done|]. destruct Hd as (x' & E' & Hp & Hlt).
      destruct (decide (d' = d)) as [->|Hne].
      * rewrite lookup_insert_eq. eexists. split; [done|]. cbn [d_process d_stream].
        rewrite E in E'. by simplify_eq.
      * rewrite lookup_insert_ne by done. eauto.
  - intros d' x' E'. destruct (decide (d' = d)) as [->|Hne].
    + rewrite lookup_insert_eq in E'. simplify_eq. cbn [d_process d_stream d_waiting].
      destruct (H2 d x E) as (? & _ & ?). done.
    + rewrite lookup_insert_ne in E' by done. by apply H2.
  - intros s sx Es Hne. assert (s ≠ d_stream x) as Hne' by (intros ->; done). unfold told.
    cbn [st_running set_dest]. rewrite (Hany s sx) by done.
    destruct (s_set_running sx) as [| |d'] eqn:Er.
    + destruct (H1 s sx Es) as (_ & _ & Hn). by rewrite Er in Hn.
    + destruct (decide (hole = Some s)) as [Hs|Hs].
      * exfalso. specialize (Hh s Hs). destruct (H2 d x E) as (_ & _ & _ & Hout).
        destruct (Hout s Hh) as (ox & Eo & Ho). congruence.
      * specialize (H5 s sx Es Hs). unfold told in H5. by rewrite Er in H5.
    + rewrite is_waiting_set. case_decide as Ed.
      * subst d'. destruct (H1 s sx Es) as (_ & _ & Hn). rewrite Er in Hn.
        destruct Hn as (x' & E' & Hp & _). rewrite E in E'. simplify_eq. cbn [d_waiting]. by eapply Hc.
      * specialize (H5 s sx Es). unfold told in H5. rewrite Er in H5. apply H5. intros Hs.
        specialize (Hh s Hs). destruct (H2 d x E) as (_ & _ & _ & Hout).
        destruct (Hout s Hh) as (ox & Eo & Ho). congruence.
Qed.

(** Telling the source closes the hole. *)
Lemma tell_source_inv w s sx v :
  streams_inv w (Some s) → st_streams w !! s = Some sx → s_set_running sx = RunSource →
  truth v = waiting_any w (s_dest_list sx) →
  streams_inv (MkStreams (stream_list w) (st_streams w) (st_dests w) (<[s := v]> (st_running w))
    (st_fresh w)) None.
Proof.
  intros [H1 H2 H3 H4 H5] E Er Hv. split; cbn [st_streams st_dests st_running stream_list st_fresh]; try done.
  - intros s' Hs'. destruct (H1 s sx E) as [Hlt _]. rewrite lookup_insert_ne by lia. auto.
  - intros s' sx' E' _. unfold told. cbn [st_running].
    destruct (decide (s' = s)) as [->|Hne].
    + rewrite E in E'. simplify_eq. rewrite Er, lookup_insert_eq. done.
    + specialize (H5 s' sx' E' ltac:(congruence)). unfold told in H5.
      destruct (s_set_running sx'); [done| |done]. by rewrite lookup_insert_ne by done.
Qed.

Lemma streams_inv_fill w hole :
  streams_inv w hole →
  (∀ s sx, hole = Some s → st_streams w !! s = Some sx → told w s sx) → streams_inv w None.
Proof.
  intros [H1 H2 H3 H4 H5] Hh. split; try done. intros s sx E _.
  destruct (decide (hole = Some s)) as [Hs|Hs]; [by apply Hh|by apply H5].
Qed.

(** The other destinations of the same and of newer streams, and all other clients, keep
    their flags. *)
Definition flags_kept (w w' : streams) (d s : nat) : Prop :=
  st_streams w' = st_streams w ∧ stream_list w' = stream_list w ∧ st_fresh w' = st_fresh w ∧
  ∀ d' x, st_dests w !! d' = Some x →
    ∃ v, st_dests w' !! d' = Some (MkDest (d_stream x) v (d_process x)) ∧
      (d' ≠ d → (s <= d_stream x)%nat ∨ (∃ k, d_process x = Client k) → v = d_waiting x).

Lemma flags_kept_refl w d s : flags_kept w w d s.
Proof.
  split; [done|]. split; [done|]. split; [done|]. intros d' x E. exists (d_waiting x). by destruct x.
Qed.

Lemma flags_kept_set w d x v s :
  st_dests w !! d = Some x → flags_kept w (set_dest w d (MkDest (d_stream x) v (d_process x))) d s.
Proof.
  intros E. split; [done|]. split; [done|]. split; [done|]. intros d' x' E'. cbn [st_dests set_dest].
  destruct (decide (d' = d)) as [->|Hne].
  - rewrite lookup_insert_eq. rewrite E in E'. simplify_eq. by eexists.
  - rewrite lookup_insert_ne, E' by done. exists (d_waiting x'). by destruct x'.
Qed.

Lemma flags_kept_convert w w1 w2 d d' x s out :
  flags_kept w w1 d s → flags_kept w1 w2 d' (d_stream x) → st_dests w !! d' = Some x →
  d_process x = ConvertTo out → (d_stream x < s)%nat → flags_kept w w2 d s.
Proof.
  intros (A1 & A2 & A3 & A4) (B1 & B2 & B3 & B4) E Hs Hlt.
  split; [congruence|]. split; [congruence|]. split; [congruence|].
  intros d2 x2 E2. destruct (A4 d2 x2 E2) as (v1 & E3 & Hv1).
  destruct (B4 d2 _ E3) as (v2 & E4 & Hv2). cbn [d_stream d_process d_waiting] in *.
  exists v2. split; [done|]. intros Hne Hk. rewrite Hv2; [auto| |].
  - intros ->. rewrite E in E2. simplify_eq. destruct Hk as [|[k Hk]]; [lia|congruence].
  - destruct Hk; [left; lia|by right].
Qed.

Lemma set_waiting_inv fuel w hole d x v :
  streams_inv w hole → st_dests w !! d = Some x → (d_stream x < fuel)%nat →
  (∀ s, hole = Some s → d_process x = ConvertTo s) →
  (∀ s sx, d_process x = ConvertTo s → st_streams w !! s = Some sx →
     truth v = waiting_any w (s_dest_list sx)) →
  ∃ w', set_waiting fuel w d v = Ok w' ∧ streams_inv w' None ∧ flags_kept w w' d (d_stream x) ∧
    is_waiting w' d = truth v.
Proof.
  revert w hole d x v. induction fuel as [|fuel IH]; intros w hole d x v Hi E Hf Hh Hc; [lia|].
  cbn [set_waiting]. rewrite E. pose proof Hi as [H1 H2 _ _ H5].
  destruct (H2 d x E) as (Hfr & Hw & (sx & Es & Hin) & Hout). rewrite Es.
  destruct (H1 _ _ Es) as (_ & Hdl & Hrun).
  set (run := λ (w : streams) (waiting : Z), match s_set_running sx with
    | RunNull => Undef
    | RunSource => Ok (MkStreams (stream_list w) (st_streams w) (st_dests w)
                         (<[d_stream x := waiting]> (st_running w)) (st_fresh w))
    | RunConvert d' => set_waiting fuel w d' waiting
    end).
  assert (∀ f v', f = 0 ∨ f = 1 → truth f = truth v → truth v' = truth v →
    let w1 := set_dest w d (MkDest (d_stream x) f (d_process x)) in
    truth v = waiting_any w1 (s_dest_list sx) →
    ∃ w', run w1 v' = Ok w' ∧ streams_inv w' None ∧ flags_kept w w' d (d_stream x) ∧
      is_waiting w' d = truth v) as Hnext.
  { intros f v' Hf01 Htf Htv w1 Hany.
    assert (streams_inv w1 (Some (d_stream x))) as Hi1.
    { apply (set_flag_inv w hole); try done. intros s sx' Hp Es'. rewrite Htf. by apply (Hc s sx'). }
    unfold run. destruct (s_set_running sx) as [| |d'] eqn:Er; [done| |].
    - eexists. split; [done|]. split; [apply (tell_source_inv w1 _ sx); try done; by rewrite Htv|].
      split; [by apply flags_kept_set|]. unfold w1.
      change (is_waiting (MkStreams _ _ _ _ _) d) with
        (is_waiting (set_dest w d (MkDest (d_stream x) f (d_process x))) d).
      rewrite is_waiting_set, decide_True by done. done.
    - destruct Hrun as (x' & E' & Hp' & Hlt).
      assert (d' ≠ d) as Hne by (intros ->; rewrite E in E'; simplify_eq; lia).
      assert (st_dests w1 !! d' = Some x') as E1 by (cbn [w1 st_dests set_dest]; by rewrite lookup_insert_ne).
      destruct (IH w1 (Some (d_stream x)) d' x' v' Hi1 E1) as (w' & Ew & Hi' & Hk & _).
      + lia.
      + by intros s [= <-].
      + intros s sx' Hs Es'. rewrite Hp' in Hs. simplify_eq. cbn [w1 st_streams set_dest] in Es'.
        rewrite Es in Es'. simplify_eq. by rewrite Htv.
      + exists w'. split; [done|]. split; [done|]. pose proof Hk as (_ & _ & _ & Hkd).
        split; [apply (flags_kept_convert _ w1 _ _ d' x' _ (d_stream x)); try done; by apply flags_kept_set|].
        destruct (Hkd d (MkDest (d_stream x) f (d_process x))) as (v2 & E2 & Hv2).
        { cbn [w1 st_dests set_dest]. by rewrite lookup_insert_eq. }
        cbn [d_stream d_process d_waiting] in *. unfold is_waiting. rewrite E2. cbn [d_waiting].
        rewrite Hv2; [done|by symmetry|left; lia]. }
  assert (is_waiting w d = truth (d_waiting x)) as Hwd by (unfold is_waiting; by rewrite E).
  assert (truth v = truth (d_waiting x) → ∃ w', Ok w = Ok w' ∧ streams_inv w' None ∧
    flags_kept w w' d (d_stream x) ∧ is_waiting w' d = truth v) as Hstay.
  { intros Hv. exists w. split; [done|]. split; [|split; [apply flags_kept_refl|congruence]].
    apply (streams_inv_fill w hole); [done|]. intros s sx' Hs Es'. specialize (Hh s Hs). unfold told.
    destruct (Hout s Hh) as (ox & Eo & Ho). rewrite Es' in Eo. simplify_eq. rewrite Ho, Hwd, <- Hv.
    by apply (Hc s). }
  destruct (truth (d_waiting x)) eqn:Etx, (truth v) eqn:Etv; cbn [negb]; try by apply Hstay.
  - set (w1 := set_dest w d (MkDest (d_stream x) 0 (d_process x))) in *.
    destruct (or_waiting_spec w1 (s_dest_list sx) v) as (r & Eor & Hr).
    { intros d' Hd'. destruct (Hdl d' Hd') as (x' & E' & _). cbn [w1 st_dests set_dest].
      apply lookup_insert_is_Some. destruct (decide (d = d')); [by left|right; by rewrite E']. }
    rewrite Eor, bind_Ok. rewrite Etv in Hr. cbn [orb] in Hr.
    destruct (truth r) eqn:Er.
    + exists w1. split; [done|]. split; [|split; [by apply flags_kept_set|]].
      * apply (streams_inv_fill w1 (Some (d_stream x))); [apply (set_flag_inv w hole); try done; by left|].
        intros s sx' [= <-] Es'. cbn [w1 st_streams set_dest] in Es'. assert (sx' = sx) as -> by congruence.
        assert (hole ≠ Some (d_stream x)) as Hho.
        { intros Hho. specialize (Hh _ Hho). destruct (Hout _ Hh) as (ox & Eo & Ho).
          rewrite Es in Eo. simplify_eq. rewrite Ho in Hrun. destruct Hrun as (x' & E' & _ & Hlt).
          rewrite E in E'. simplify_eq. lia. }
        specialize (H5 _ _ Es Hho). unfold told in *. cbn [w1 st_running set_dest].
        rewrite (waiting_any_In w _ d Hin) in H5 by congruence. rewrite <- Hr.
        destruct (s_set_running sx) as [| |d']; [done|done|].
        destruct Hrun as (x' & E' & _ & Hlt). unfold w1. rewrite is_waiting_set, decide_False; [done|].
        intros ->. rewrite E in E'. simplify_eq. lia.
      * unfold w1. by rewrite is_waiting_set, decide_True.
    + apply (Hnext 0 r); [by left|done|done|done].
  - apply (Hnext 1 v); [by right|done|done|].
    symmetry. apply (waiting_any_In _ _ d Hin). by rewrite is_waiting_set, decide_True.
Qed.

(** ** Connecting *)

Lemma told_same w w' s sx sx' :
  told w s sx → s_set_running sx' = s_set_running sx → st_running w' = st_running w →
  waiting_any w' (s_dest_list sx') = waiting_any w (s_dest_list sx) →
  (∀ d, s_set_running sx = RunConvert d → is_waiting w' d = is_waiting w d) → told w' s sx'.
Proof.
  unfold told. intros H Er E1 E2 Hd. rewrite Er, E1, E2.
  destruct (s_set_running sx) as [| |d] eqn:Es; [done|done|]. by rewrite Hd.
Qed.

(** A new destination of [s], not waiting; [p] is a client, or the converter to a stream
    whose [set_running] already names it. *)
Lemma new_dest_inv w s sx k :
  streams_inv w None → st_streams w !! s = Some sx →
  ∃ w', new_dest w s (Client k) = Ok (st_fresh w, w') ∧ streams_inv w' None ∧
    st_dests w' !! st_fresh w = Some (MkDest s 0 (Client k)) ∧ (st_fresh w < st_fresh w')%nat.
Proof.
  intros [H1 H2 H3 H4 H5] E. unfold new_dest. rewrite E. eexists. split; [done|].
  cbn [st_dests st_fresh]. split; [|split; [by rewrite lookup_insert_eq|lia]].
  assert (∀ d x, st_dests w !! d = Some x → d ≠ st_fresh w) as Hfresh.
  { intros d x Ed ->. destruct (H2 _ _ Ed). lia. }
  set (w' := MkStreams _ _ _ _ _).
  assert (∀ d, is_waiting w' d = is_waiting w d) as Hw.
  { intros d. unfold is_waiting, w'. cbn [st_dests]. destruct (decide (d = st_fresh w)) as [->|].
    - rewrite lookup_insert_eq. destruct (st_dests w !! st_fresh w) as [x|] eqn:Ex; [|done].
      by destruct (Hfresh _ _ Ex).
    - by rewrite lookup_insert_ne. }
  assert (∀ ds, waiting_any w' ds = waiting_any w ds) as Hany by (intros; by apply waiting_any_ext).
  split; cbn [w' st_streams st_dests st_running stream_list st_fresh].
  - intros s' sx' Es'. destruct (decide (s' = s)) as [->|Hne].
    + rewrite lookup_insert_eq in Es'. simplify_eq. destruct (H1 s sx E) as (Ha & Hb & Hc).
      cbn [s_dest_list s_set_running]. split; [lia|]. split.
      * intros d. rewrite elem_of_cons. intros [-> | Hd]; [rewrite lookup_insert_eq; by eexists|].
        destruct (Hb d Hd) as (x & Ex & Hx). rewrite lookup_insert_ne by naive_solver. eauto.
      * destruct (s_set_running sx) as [| |d]; [done|done|]. destruct Hc as (x & Ex & Hx & Hlt).
        rewrite lookup_insert_ne by naive_solver. eauto.
    + rewrite lookup_insert_ne in Es' by done. destruct (H1 s' sx' Es') as (Ha & Hb & Hc).
      split; [lia|]. split.
      * intros d Hd. destruct (Hb d Hd) as (x & Ex & Hx). rewrite lookup_insert_ne by naive_solver. eauto.
      * destruct (s_set_running sx') as [| |d]; [done|done|]. destruct Hc as (x & Ex & Hx & Hlt).
        rewrite lookup_insert_ne by naive_solver. eauto.
  - intros d x Ed. destruct (decide (d = st_fresh w)) as [->|Hne].
    + rewrite lookup_insert_eq in Ed. simplify_eq. cbn [d_stream d_waiting d_process].
      split; [lia|]. split; [by left|]. split; [|done]. rewrite lookup_insert_eq.
      eexists. split; [done|]. cbn [s_dest_list]. by left.
    + rewrite lookup_insert_ne in Ed by done. destruct (H2 d x Ed) as (Ha & Hb & (sx' & Es' & Hin) & Hd).
      split; [lia|]. split; [done|]. split.
      * destruct (decide (d_stream x = s)) as [Hs|Hs].
        -- rewrite Hs, lookup_insert_eq. eexists. split; [done|]. cbn [s_dest_list].
           rewrite Hs, E in Es'. simplify_eq. by right.
        -- rewrite lookup_insert_ne by done. eauto.
      * intros out Hout. destruct (Hd out Hout) as (ox & Eo & Ho). destruct (decide (out = s)) as [->|].
        -- rewrite lookup_insert_eq. eexists. split; [done|]. rewrite E in Eo. by simplify_eq.
        -- rewrite lookup_insert_ne by done. eauto.
  - intros s' Hs'. apply H3. lia.
  - intros s' Hs'. apply lookup_insert_is_Some. destruct (decide (s = s')); [by left|right; auto].
  - intros s' sx' Es' _. destruct (decide (s' = s)) as [->|Hne].
    + rewrite lookup_insert_eq in Es'. simplify_eq. apply (told_same w _ _ sx); try done.
      * by apply H5.
      * cbn [s_dest_list]. unfold waiting_any at 1. cbn [existsb].
        change (existsb (is_waiting w')) with (waiting_any w'). rewrite Hany, Hw.
        unfold is_waiting at 1. destruct (st_dests w !! st_fresh w) as [x|] eqn:Ex; [|done].
        by destruct (Hfresh _ _ Ex).
    + rewrite lookup_insert_ne in Es' by done. apply (told_same w _ _ sx'); try done. by apply H5.
Qed.

(** A destination that is not waiting is made the input of a new converter. *)
Lemma attach_converter_inv w d base k s name format order :
  streams_inv w None → st_dests w !! d = Some (MkDest base 0 (Client k)) →
  st_streams w !! s = None → (base < s < st_fresh w)%nat → st_running w !! s = None →
  (∀ x, x ∈ order → x = s ∨ x ∈ stream_list w) →
  streams_inv (MkStreams order (<[s := MkStream name format [] (RunConvert d)]> (st_streams w))
    (<[d := MkDest base 0 (ConvertTo s)]> (st_dests w)) (st_running w) (st_fresh w)) None.
Proof.
  intros [H1 H2 H3 H4 H5] Ed Es Hs Hr Ho. set (w' := MkStreams _ _ _ _ _).
  assert (∀ x, is_waiting w' x = is_waiting w x) as Hw.
  { intros x. unfold is_waiting, w'. cbn [st_dests]. destruct (decide (x = d)) as [->|].
    - by rewrite lookup_insert_eq, Ed.
    - by rewrite lookup_insert_ne. }
  assert (∀ ds, waiting_any w' ds = waiting_any w ds) as Hany by (intros; by apply waiting_any_ext).
  assert (∀ x y, st_dests w !! x = Some y → ∃ z, <[d := MkDest base 0 (ConvertTo s)]> (st_dests w) !! x = Some z ∧
    d_stream z = d_stream y) as Hd.
  { intros x y Ex. destruct (decide (x = d)) as [->|].
    - rewrite lookup_insert_eq. eexists. split; [done|]. rewrite Ed in Ex. by simplify_eq.
    - rewrite lookup_insert_ne by done. eauto. }
  split; cbn [w' st_streams st_dests st_running stream_list st_fresh].
  - intros s' sx' Es'. destruct (decide (s' = s)) as [->|Hne].
    + rewrite lookup_insert_eq in Es'. simplify_eq. cbn [s_dest_list s_set_running]. split; [lia|].
      split; [by intros x ?%not_elem_of_nil|]. rewrite lookup_insert_eq. eexists. split; [done|].
      cbn [d_process d_stream]. split; [done|lia].
    + rewrite lookup_insert_ne in Es' by done. destruct (H1 s' sx' Es') as (Ha & Hb & Hc). split; [done|].
      split.
      * intros x Hx. destruct (Hb x Hx) as (y & Ey & Hy). destruct (Hd x y Ey) as (z & Ez & Hz).
        exists z. split; [done|congruence].
      * destruct (s_set_running sx') as [| |x]; [done|done|]. destruct Hc as (y & Ey & Hy & Hlt).
        rewrite lookup_insert_ne; [eauto|]. intros <-. rewrite Ed in Ey. by simplify_eq.
  - intros x y Ex. destruct (decide (x = d)) as [->|Hne].
    + rewrite lookup_insert_eq in Ex. simplify_eq. cbn [d_stream d_waiting d_process].
      destruct (H2 d _ Ed) as (Ha & _ & (sx & Esx & Hin) & _). split; [done|]. split; [by left|]. split.
      * exists sx. split; [|done]. rewrite lookup_insert_ne; [done|]. cbn [d_stream] in Esx. congruence.
      * intros out [= <-]. rewrite lookup_insert_eq. by eexists.
    + rewrite lookup_insert_ne in Ex by done. destruct (H2 x y Ex) as (Ha & Hb & (sx & Esx & Hin) & Hc).
      split; [done|]. split; [done|]. split.
      * exists sx. split; [|done]. rewrite lookup_insert_ne; [done|congruence].
      * intros out Hout. destruct (Hc out Hout) as (ox & Eo & Hox). exists ox. split; [|done].
        rewrite lookup_insert_ne; [done|congruence].
  - done.
  - intros x Hx. apply lookup_insert_is_Some. destruct (decide (s = x)) as [|Hne]; [by left|right].
    split; [done|]. destruct (Ho x Hx) as [->|]; [done|auto].
  - intros s' sx' Es' _. destruct (decide (s' = s)) as [->|Hne].
    + rewrite lookup_insert_eq in Es'. simplify_eq. unfold told. cbn [s_set_running s_dest_list].
      rewrite Hw, Hany. unfold is_waiting. by rewrite Ed.
    + rewrite lookup_insert_ne in Es' by done. apply (told_same w _ _ sx'); try done. by apply H5.
Qed.

(** Room for one more stream. *)
Lemma bump_inv w : streams_inv w None →
  streams_inv (MkStreams (stream_list w) (st_streams w) (st_dests w) (st_running w) (S (st_fresh w))) None.
Proof.
  intros [H1 H2 H3 H4 H5]. split; cbn [st_streams st_dests st_running stream_list st_fresh]; try done.
  - intros s sx E. destruct (H1 s sx E) as (? & ? & ?). split; [lia|done].
  - intros d x E. destruct (H2 d x E) as (? & ? & ?). split; [lia|done].
  - intros s Hs. apply H3. lia.
Qed.

Lemma new_convert_stream_inv w base b format :
  streams_inv w None → st_streams w !! base = Some b →
  ∃ w' sx, new_convert_stream w base format = Ok (st_fresh w, w') ∧ streams_inv w' None ∧
    st_streams w' !! st_fresh w = Some sx.
Proof.
  intros Hi E. pose proof Hi as [H1 H2 H3 H4 H5]. destruct (H1 base b E) as [Hlt _].
  assert (st_streams w !! st_fresh w = None) as Enone.
  { destruct (st_streams w !! st_fresh w) as [x|] eqn:Ex; [|done]. destruct (H1 _ _ Ex). lia. }
  destruct (new_dest_inv _ base b 0 (bump_inv w Hi) E) as (wb & Eb & Hib & Edb & Hfb).
  unfold new_dest in Eb. cbn [st_streams st_fresh st_dests st_running stream_list] in *. rewrite E in Eb.
  injection Eb as <-.
  unfold new_convert_stream. rewrite E. unfold new_dest.
  cbn [st_streams st_fresh st_dests st_running stream_list]. rewrite lookup_insert_ne, E by lia.
  rewrite bind_Ok. cbn [st_streams]. rewrite lookup_insert_ne, lookup_insert_eq by lia.
  eexists _, _. split; [done|]. unfold set_stream.
  cbn [st_streams st_fresh st_dests st_running stream_list s_name s_format s_dest_list].
  split; [|by rewrite lookup_insert_eq].
  rewrite (insert_insert_ne _ base (st_fresh w)), insert_insert_eq by lia.
  match goal with |- streams_inv (MkStreams ?o _ _ _ _) _ =>
    pose proof (attach_converter_inv _ (S (st_fresh w)) base 0 (st_fresh w) (s_name b) format o Hib Edb) as Ha end.
  cbn [st_streams st_fresh st_dests st_running stream_list] in Ha.
  rewrite insert_insert_eq in Ha. apply Ha; clear Ha.
  - by rewrite lookup_insert_ne by lia.
  - lia.
  - apply H3. lia.
  - intros x Hx. apply list_elem_of_In, in_flat_map in Hx as (y & Hy & Hx).
    apply list_elem_of_In in Hy, Hx. case_decide; set_solver.
Qed.

Lemma find_stream_ok w order name formats :
  (∀ s, s ∈ order → is_Some (st_streams w !! s)) →
  (∃ r, find_exact w order name formats = Ok r ∧ ∀ s, r = Some s → is_Some (st_streams w !! s)) ∧
  (∃ r, find_convertible w order name formats = Ok r ∧ ∀ s, r = Some s → is_Some (st_streams w !! s)).
Proof.
  induction order as [|s order IH]; intros Ho; cbn [find_exact find_convertible].
  { split; eexists; (split; [done|]); done. }
  destruct (Ho s ltac:(set_solver)) as [x E]. rewrite E.
  destruct IH as [IH1 IH2]; [set_solver|]. split; case_match; eauto;
    eexists; (split; [done|]); intros s' [= <-]; by rewrite E.
Qed.

Lemma connect_to_stream_inv w name k formats :
  streams_inv w None →
  ∃ r w', connect_to_stream w name k formats = Ok (r, w') ∧ streams_inv w' None.
Proof.
  intros Hi. unfold connect_to_stream.
  destruct (find_stream_ok w (stream_list w) name formats) as [(r1 & E1 & Hr1) (r2 & E2 & Hr2)];
    [apply (si_list _ _ Hi)|].
  rewrite E1, bind_Ok. destruct r1 as [s|].
  - destruct (Hr1 s eq_refl) as [sx E]. destruct (new_dest_inv w s sx k Hi E) as (w' & -> & Hi' & _).
    rewrite bind_Ok. eauto.
  - rewrite E2, bind_Ok. destruct r2 as [s|]; [|eauto]. destruct (Hr2 s eq_refl) as [sx E].
    destruct (new_convert_stream_inv w s sx FORMAT_RAW_RGB24 Hi E) as (w1 & ox & -> & Hi1 & Eo).
    rewrite bind_Ok. destruct (new_dest_inv w1 _ ox k Hi1 Eo) as (w' & -> & Hi' & _). rewrite bind_Ok. eauto.
Qed.

(** ** Any sequence of operations *)

Inductive stream_op :=
| NewSource (name : list Z) (format : Z)
| Connect (name : list Z) (k : nat) (formats : list Z)
| SetWaiting (d : nat) (waiting : Z).

(** [SetWaiting] is what a client does with the destination it got from [Connect]. *)
Definition stream_step (w : streams) (op : stream_op) : outcome streams :=
  match op with
  | NewSource name format => '(s, w) ← new_stream w name format; set_source w s
  | Connect name k formats => '(_, w) ← connect_to_stream w name k formats; Ok w
  | SetWaiting d v =>
      match st_dests w !! d with
      | Some (MkDest _ _ (Client _)) => set_waiting (st_fresh w) w d v
      | _ => Ok w
      end
  end.

Definition no_streams : streams := MkStreams [] ∅ ∅ ∅ 0.

Definition op_fits (op : stream_op) : Prop :=
  match op with NewSource name _ => (length name < 256)%nat | _ => True end.

Definition run_stream_ops (ops : list stream_op) : outcome streams :=
  foldl (λ w op, w ← w; stream_step w op) (Ok no_streams) ops.

Lemma new_source_inv w name format :
  streams_inv w None → (length name < 256)%nat →
  ∃ w', stream_step w (NewSource name format) = Ok w' ∧ streams_inv w' None.
Proof.
  intros [H1 H2 H3 H4 H5] Hn. cbn [stream_step]. unfold new_stream.
  destruct (Nat.leb_spec 256 (length name)); [lia|]. rewrite bind_Ok. unfold set_source.
  cbn [st_streams]. rewrite lookup_insert_eq. eexists. split; [done|]. unfold set_stream.
  cbn [st_streams st_fresh st_dests st_running stream_list s_name s_format s_dest_list].
  rewrite insert_insert_eq. set (w' := MkStreams _ _ _ _ _).
  assert (∀ s sx, st_streams w !! s = Some sx → s ≠ st_fresh w) as Hfresh.
  { intros s sx E ->. destruct (H1 _ _ E). lia. }
  split; cbn [w' st_streams st_dests st_running stream_list st_fresh].
  - intros s sx E. destruct (decide (s = st_fresh w)) as [->|Hne].
    + rewrite lookup_insert_eq in E. simplify_eq. split; [lia|]. split; [|done].
      by intros d ?%not_elem_of_nil.
    + rewrite lookup_insert_ne in E by done. destruct (H1 s sx E) as (? & ? & ?). split; [lia|done].
  - intros d x E. destruct (H2 d x E) as (Ha & Hb & (sx & Es & Hin) & Hc). split; [lia|]. split; [done|]. split.
    + exists sx. split; [|done]. rewrite lookup_insert_ne by naive_solver. done.
    + intros out Hout. destruct (Hc out Hout) as (ox & Eo & Ho). exists ox. split; [|done].
      rewrite lookup_insert_ne by naive_solver. done.
  - intros s Hs. apply H3. lia.
  - intros s Hs. apply lookup_insert_is_Some. destruct (decide (st_fresh w = s)); [by left|right].
    split; [done|]. apply elem_of_cons in Hs as [->|Hs]; [done|auto].
  - intros s sx E _. destruct (decide (s = st_fresh w)) as [->|Hne].
    + rewrite lookup_insert_eq in E. simplify_eq. unfold told. cbn [s_set_running s_dest_list w' st_running].
      by rewrite H3 by lia.
    + rewrite lookup_insert_ne in E by done. apply (told_same w _ _ sx); try done. by apply H5.
Qed.

Lemma stream_step_inv w op :
  streams_inv w None → op_fits op → ∃ w', stream_step w op = Ok w' ∧ streams_inv w' None.
Proof.
  intros Hi Hop. destruct op as [name format|name k formats|d v].
  - by apply new_source_inv.
  - cbn [stream_step]. destruct (connect_to_stream_inv w name k formats Hi) as (r & w' & -> & Hi').
    rewrite bind_Ok. eauto.
  - cbn [stream_step]. destruct (st_dests w !! d) as [[s wt [out|k]]|] eqn:E; eauto.
    destruct (si_dests _ _ Hi _ _ E) as (_ & _ & (sx & Es & _) & _). cbn [d_stream] in Es.
    destruct (si_streams _ _ Hi _ _ Es) as [Hlt _].
    destruct (set_waiting_inv (st_fresh w) w None d _ v Hi E) as (w' & -> & Hi' & _);
      [done|done|done|eauto].
Qed.

Lemma no_streams_inv : streams_inv no_streams None.
Proof. split; try done. intros s Hs. by apply not_elem_of_nil in Hs. Qed.

Lemma run_stream_ops_inv ops :
  Forall op_fits ops → ∃ w, run_stream_ops ops = Ok w ∧ streams_inv w None.
Proof.
  intros Hops. unfold run_stream_ops. pose proof no_streams_inv as Hi. revert Hi. generalize no_streams.
  induction Hops as [|op ops Hop Hops IH]; intros w Hi; cbn [foldl]; [eauto|].
  destruct (stream_step_inv w op Hi Hop) as (w' & E & Hi'). rewrite bind_Ok, E. by apply IH.
Qed.

(** A stream has a listener, perhaps behind converters, if and only if one of its
    destinations waits. *)
Lemma waiting_listens w s sx :
  streams_inv w None → st_streams w !! s = Some sx →
  waiting_any w (s_dest_list sx) = true ↔ ∃ d, listens w s d.
Proof.
  intros Hi E. split.
  - remember (st_fresh w - s)%nat as n eqn:En. revert s sx E En.
    induction n as [n IH] using lt_wf_ind. intros s sx E En Hw.
    apply existsb_exists in Hw as (d & Hd & Hw). apply list_elem_of_In in Hd.
    destruct (si_streams _ _ Hi _ _ E) as (Hlt & Hl & _). destruct (Hl d Hd) as (x & Ex & Hx).
    unfold is_waiting in Hw. rewrite Ex in Hw.
    destruct (si_dests _ _ Hi _ _ Ex) as (_ & H01 & _ & Hout).
    destruct (d_process x) as [out|k] eqn:Ep.
    + destruct (Hout out eq_refl) as (ox & Eo & Ho).
      pose proof (si_told _ _ Hi _ _ Eo ltac:(done)) as Ht. unfold told in Ht. rewrite Ho in Ht.
      unfold is_waiting in Ht. rewrite Ex, Hw in Ht.
      destruct (si_streams _ _ Hi _ _ Eo) as (Hlt' & _ & Hrun). rewrite Ho in Hrun.
      destruct Hrun as (x' & Ex' & _ & Hlt2). rewrite Ex in Ex'. simplify_eq.
      destruct (IH (st_fresh w - out)%nat ltac:(lia) out ox Eo eq_refl (eq_sym Ht)) as [d' Hd'].
      exists d'. by eapply listens_convert.
    + exists d. eapply listens_client; [done|done|]. rewrite Ex. destruct x as [s' wt p]. cbn in *. subst.
      destruct H01 as [->| ->]; [done|done].
  - intros [d Hd]. revert sx E. induction Hd as [s sx' d k Es Hin Ed|s sx' d x out d' Es Hin Ed Ep Hl IH]; intros sx E.
    + rewrite Es in E. simplify_eq. apply (waiting_any_In _ _ d Hin). unfold is_waiting. by rewrite Ed.
    + rewrite Es in E. simplify_eq. apply (waiting_any_In _ _ d Hin).
      destruct (si_dests _ _ Hi _ _ Ed) as (_ & _ & _ & Hout). destruct (Hout out Ep) as (ox & Eo & Ho).
      pose proof (si_told _ _ Hi _ _ Eo ltac:(done)) as Ht. unfold told in Ht. rewrite Ho in Ht.
      rewrite Ht. by apply IH.
Qed.

(** C18: Sources run exactly while somebody listens -- after any sequence of new sources,
    connections (through converters where formats differ) and changes of [waiting] by the
    clients, no operation having failed, the last thing each source was told by
    [set_running] is true if and only if some client that gets its frames, directly or
    through a converter, is waiting. *)
Theorem source_runs_iff_listened ops :
  Forall op_fits ops →
  ∃ w, run_stream_ops ops = Ok w ∧
    ∀ s sx, st_streams w !! s = Some sx → s_set_running sx = RunSource →
      truth (default 0 (st_running w !! s)) = true ↔ ∃ d, listens w s d.
Proof.
  intros Hops. destruct (run_stream_ops_inv ops Hops) as (w & E & Hi). exists w. split; [done|].
  intros s sx Es Hr. pose proof (si_told _ _ Hi _ _ Es ltac:(done)) as Ht. unfold told in Ht. rewrite Hr in Ht.
  rewrite Ht. by apply waiting_listens.
Qed.

(** ** Delivery and ownership *)

(** The destinations keep their place and what they process. *)
Definition dests_kept (w w' : streams) : Prop :=
  ∀ d x, st_dests w !! d = Some x →
    ∃ x', st_dests w' !! d = Some x' ∧ d_process x' = d_process x.

(** What [deliver_frame_to_stream] needs from a client: its [process_frame] returns and
    gives up the one reference it was passed, and no more. *)
Class Consumer {X} (client : nat → nat → world X → outcome (world X)) : Prop :=
  consume k f w held q live :
    pool_inv (w_heap w) (f :: held) [] q live →
    Z.of_nat (length held + length (h_slots (w_heap w)) + 1) < 2 ^ 31 →
    ∃ w' q' live', client k f w = Ok w' ∧ pool_inv (w_heap w') held [] q' live' ∧
      length (h_slots (w_heap w')) = length (h_slots (w_heap w)) ∧
      dests_kept (w_streams w) (w_streams w').

Section ownership.
Context {X : Type} (client : nat → nat → world X → outcome (world X)) `{!Consumer client}.

(** All destinations of the list exist and are clients. *)
Definition clients_only (w : streams) (ds : list nat) : Prop :=
  ∀ d, d ∈ ds → ∃ x k, st_dests w !! d = Some x ∧ d_process x = Client k.

Lemma clients_only_kept w w' ds : dests_kept w w' → clients_only w ds → clients_only w' ds.
Proof.
  intros Hk Hc d Hd. destruct (Hc d Hd) as (x & k & E & Ep). destruct (Hk d x E) as (x' & E' & Ep').
  exists x', k. split; [done|congruence].
Qed.

Lemma visit_conserves ds w f held q live visit :
  (∀ w, visit w [] = Ok w) →
  (∀ w d x k ds, st_dests (w_streams w) !! d = Some x → d_process x = Client k →
     visit w (d :: ds) =
     if negb (truth (d_waiting x)) then visit w ds
     else h ← ref_frame (w_heap w) f; w ← client k f (with_heap w h); visit w ds) →
  pool_inv (w_heap w) (f :: held) [] q live → clients_only (w_streams w) ds →
  Z.of_nat (length held + length (h_slots (w_heap w)) + 2) < 2 ^ 31 →
  ∃ w' q' live', visit w ds = Ok w' ∧ pool_inv (w_heap w') (f :: held) [] q' live' ∧
    length (h_slots (w_heap w')) = length (h_slots (w_heap w)).
Proof.
  intros Hnil Hcons. revert w q live. induction ds as [|d ds IH]; intros w q live Hp Hc Hb.
  { rewrite Hnil. eexists _, _, _. done. }
  destruct (Hc d ltac:(set_solver)) as (x & k & E & Ep). rewrite (Hcons _ _ _ _ _ E Ep).
  destruct (negb (truth (d_waiting x))); [apply (IH w q live); try done; intros d' Hd'; apply Hc; set_solver|].
  assert (length live <= length (h_slots (w_heap w)))%nat as Hl.
  { pose proof (Permutation_length (pi_ids _ _ _ _ _ Hp)) as El.
    rewrite !length_app, length_seq in El. cbn [length] in El. lia. }
  destruct (ref_frame_inv _ _ _ _ _ f Hp) as (fr & _ & -> & Hp1);
    [apply (pi_live _ _ _ _ _ Hp); set_solver|cbn [length]; lia|].
  rewrite bind_Ok.
  destruct (consume k f (with_heap w _) _ _ _ Hp1) as (w1 & q1 & live1 & -> & Hp2 & Hs & Hk).
  { cbn [length with_heap w_heap h_slots with_frames]. lia. }
  cbn [with_heap w_heap w_streams h_slots with_frames] in Hs, Hk. rewrite bind_Ok, <- Hs.
  apply (IH w1 q1 live1); [done| |by rewrite Hs].
  apply (clients_only_kept (w_streams w)); [done|]. intros d' Hd'. apply Hc. set_solver.
Qed.

(** Delivering a frame consumes exactly the reference that is passed -- whatever
    subset of the clients is waiting, and provided each client gives up the one reference
    it gets, [deliver_frame_to_stream] returns and every other reference to every frame of
    the pool is as before: no frame leaks and none is released early. *)
Theorem deliver_conserves fuel w f s sx held q live :
  pool_inv (w_heap w) (f :: held) [] q live → st_streams (w_streams w) !! s = Some sx →
  clients_only (w_streams w) (s_dest_list sx) →
  Z.of_nat (length held + length (h_slots (w_heap w)) + 2) < 2 ^ 31 →
  ∃ w' q' live', deliver_frame_to_stream client (S fuel) w f s = Ok w' ∧
    pool_inv (w_heap w') held [] q' live'.
Proof.
  intros Hp E Hc Hb. cbn [deliver_frame_to_stream]. rewrite E.
  match goal with |- context [(fix visit (w : world X) (ds : list nat) {struct ds} := _)] =>
    set (visit := (fix visit (w : world X) (ds : list nat) {struct ds} := _)) end.
  destruct (visit_conserves (s_dest_list sx) w f held q live visit) as (w1 & q1 & live1 & -> & Hp1 & Hs1);
    [done|intros w0 d x k ds Ed Ep; cbn [visit]; by rewrite Ed, Ep|done|done|done|].
  rewrite bind_Ok. destruct (unref_inv _ _ _ _ _ Hp1) as (h' & q' & live' & -> & _ & Hp2); [rewrite Hs1; lia|].
  rewrite bind_Ok. eauto.
Qed.
End ownership.

(** ** Witnesses *)

Definition w_ops : list stream_op :=
  [NewSource (lit "cam") FORMAT_RAW_UYVY; Connect (lit "cam") 7 [FORMAT_RAW_RGB24];
   Connect (lit "cam") 8 [FORMAT_RAW_UYVY]; SetWaiting 3 1; SetWaiting 4 1; SetWaiting 4 0].

Lemma source_runs_iff_listened_witness :
  ∃ w, run_stream_ops w_ops = Ok w ∧ truth (default 0 (st_running w !! 0%nat)) = true ∧
    ∃ d, listens w 0 d.
Proof.
  destruct (source_runs_iff_listened w_ops) as (w & E & H).
  - repeat constructor.
  - exists w. split; [done|]. revert H.
    assert (w = match run_stream_ops w_ops with Ok w => w | _ => no_streams end) as -> by (by rewrite E).
    intros H. split; [by vm_compute|]. eapply H; [by vm_compute|by vm_compute|by vm_compute].
Defined.

(** A client that looks at the frame and drops it. *)
Definition drop_client (k f : nat) (w : world (list (nat * nat))) : outcome (world (list (nat * nat))) :=
  h ← unref (w_heap w) f; Ok (MkWorld h (w_streams w) (w_clients w ++ [(k, f)])).

#[export] Instance drop_client_consumer : Consumer drop_client.
Proof.
  intros k f w held q live Hp Hb. unfold drop_client.
  destruct (unref_inv _ _ _ _ _ Hp Hb) as (h' & q' & live' & -> & Hs & Hp').
  rewrite bind_Ok. do 3 eexists. split; [done|]. split; [done|]. split; [done|].
  intros d x E. by eexists.
Qed.

Lemma deliver_conserves_witness :
  ∃ h0 h1 w', init_frame_heap 16 2 w_junk = Ok h0 ∧ new_frame h0 = Ok (Some 0%nat, h1) ∧
    ∃ w, run_stream_ops [NewSource (lit "cam") FORMAT_JPEG; Connect (lit "cam") 8 []; SetWaiting 1 1] = Ok w ∧
      deliver_frame_to_stream drop_client 1 (MkWorld h1 w []) 0 0 = Ok w' ∧ w_clients w' = [(8%nat, 0%nat)].
Proof.
  destruct (init_frame_heap_inv 16 2 w_junk ltac:(lia)) as (h0 & E0 & Hs0 & Hp0).
  pose proof (new_frame_inv _ _ _ _ Hp0) as Hn. destruct Hn as (fr & h1 & _ & E1 & _ & Hs1 & Hp1).
  destruct (run_stream_ops [NewSource (lit "cam") FORMAT_JPEG; Connect (lit "cam") 8 []; SetWaiting 1 1])
    as [w| | |] eqn:Ew; try (vm_compute in Ew; discriminate).
  destruct (deliver_conserves drop_client 0 (MkWorld h1 w []) 0 0
    (MkStream (lit "cam") FORMAT_JPEG [1%nat] RunSource) [] [1%nat] [0%nat]) as (w' & q' & live' & E' & _).
  - exact Hp1.
  - vm_compute in Ew. injection Ew as <-. reflexivity.
  - intros d Hd. apply list_elem_of_singleton in Hd as ->. exists (MkDest 0 1 (Client 8)), 8%nat.
    vm_compute in Ew. injection Ew as <-. done.
  - cbn [w_heap]. rewrite Hs1, Hs0. by vm_compute.
  - exists h0, h1, w'. split; [done|]. split; [done|]. exists w. split; [done|]. split; [done|].
    vm_compute in E0. injection E0 as <-. vm_compute in E1. injection E1 as <-.
    vm_compute in Ew. injection Ew as <-. vm_compute in E'. injection E' as <-. reflexivity.
Defined.

(** Streams that are added do not change the rates of the others. *)
Lemma framerate_mono fuel w w' rate s r :
  (∀ s x, st_streams w !! s = Some x → ∃ x', st_streams w' !! s = Some x' ∧ s_set_running x' = s_set_running x) →
  (∀ d x, st_dests w !! d = Some x → st_dests w' !! d = Some x) →
  get_framerate fuel w rate s = Ok r → get_framerate fuel w' rate s = Ok r.
Proof.
  intros Hs Hd. revert s. induction fuel as [|fuel IH]; intros s; [done|]. cbn [get_framerate]. destruct (st_streams w !! s) as [x|] eqn:E; [|done].
  destruct (Hs s x E) as (x' & -> & ->). destruct (s_set_running x) as [| |d]; try done. destruct (st_dests w !! d) as [dx|] eqn:E'; [|done].
  rewrite (Hd d dx E'). apply IH.
Qed.

(** A converter has the frame rate of the stream it converts. *)
Theorem converter_keeps_rate fuel w base format rate r :
  st_streams w !! st_fresh w = None → st_dests w !! S (st_fresh w) = None → get_framerate fuel w rate base = Ok r →
  ∃ s w', new_convert_stream w base format = Ok (s, w') ∧ get_framerate (S fuel) w' rate s = Ok r.
Proof.
  intros Hfs Hfd Er. destruct (st_streams w !! base) as [b|] eqn:Eb; [|destruct fuel; cbn in Er; [done|by rewrite Eb in Er]].
  assert (base ≠ st_fresh w) as Hne by congruence. unfold new_convert_stream. rewrite Eb. unfold new_dest. cbn [st_streams st_fresh].
  rewrite lookup_insert_ne, Eb, bind_Ok by done. cbn [st_streams]. rewrite lookup_insert_ne, lookup_insert_eq by done. eexists _, _. split; [done|].
  cbn [get_framerate set_stream st_streams st_dests]. rewrite lookup_insert_eq. cbn [s_set_running]. rewrite lookup_insert_eq. cbn [d_stream].
  eapply framerate_mono; [| |exact Er].
  - intros s x E. cbn [set_stream st_streams]. rewrite lookup_insert_ne by congruence. destruct (decide (s = base)) as [->|].
    + rewrite lookup_insert_eq. eexists. split; [done|]. cbn. congruence.
    + rewrite lookup_insert_ne, lookup_insert_ne by congruence. by exists x.
  - intros d x E. cbn [set_stream st_dests]. rewrite lookup_insert_ne; [done|congruence].
Qed.
