(* ===== verification/Encoder.v ===== *)
(** * Encoders ([encoder-alaw.c], [encoder-jpeg.c])

    The two encoders of the device: their configuration, the A-law code of the microphone,
    and the turns of their threads.  A turn takes what the device returned, fills a frame of
    the pool and hands it to the exchanger; the drivers behind it ([OSS.c], [V4L.c],
    [JpegEnc.c]) are what they return.  The theorems: the code is that of G.711, and between
    the threads, the pool, the exchanger and the stream, blocks of sound pass like through a
    bounded queue. *)

From Stdlib Require Import String.
From S2P Require Import Prelude CString Frame Stream.

Local Open Scope Z_scope.
Local Open Scope c_scope.

(** ** A-law *)

Definition QUANT_MASK : Z := 0xf.
Definition SEG_SHIFT : Z := 4.

Definition seg_aend : list Z := [0x1F; 0x3F; 0x7F; 0xFF; 0x1FF; 0x3FF; 0x7FF; 0xFFF].

(** The loop of [search] from entry [i]. *)
Fixpoint search (val : Z) (table : list Z) (i : Z) : Z :=
  match table with
  | [] => i
  | e :: table => if val <=? e then i else search val table (i + 1)
  end.

Definition AlawEncode (pcm_val : Z) : Z :=
  let pcm_val := pcm_val >>> 3 in
  let '(mask, pcm_val) := if 0 <=? pcm_val then (0xD5, pcm_val) else (0x55, - pcm_val - 1) in
  let seg := search pcm_val seg_aend 0 in
  if 8 <=? seg then u8 (0x7F .^ mask) else
  let aval := u8 (seg <<< SEG_SHIFT) in
  let aval := if seg <? 2 then aval .| ((pcm_val >>> 1) .& QUANT_MASK)
              else aval .| ((pcm_val >>> seg) .& QUANT_MASK) in
  u8 (aval .^ mask).

(** *** Reference: the decoder of ITU-T G.711 *)

Module G711.

(** Every other bit of a code is inverted on the line. *)
Definition bits (a : Z) : Z := a .^ 0x55.
Definition positive (a : Z) : bool := Z.testbit (bits a) 7.
Definition segment (a : Z) : Z := (bits a >>> 4) .& 7.
Definition interval (a : Z) : Z := bits a .& 15.

(** The width of an interval in segment [s], and the middle of the interval. *)
Definition width (s : Z) : Z := 2 ^ (4 + Z.max 0 (s - 1)).
Definition magnitude (a : Z) : Z :=
  let s := segment a in
  (if s =? 0 then 0 else 2 ^ (s + 7)) + interval a * width s + width s / 2.

Definition decode (a : Z) : Z := if positive a then magnitude a else - magnitude a.

End G711.

(** A decidable statement about every [short], by evaluation. *)
Fixpoint for_range (P : Z → bool) (n : nat) (x : Z) : bool :=
  match n with O => true | S n => P x && for_range P n (x + 1) end.

Lemma for_range_spec P n x y : for_range P n x = true → x <= y < x + Z.of_nat n → P y = true.
Proof.
  revert x. induction n as [|n IH]; intros x; [lia|]. cbn [for_range]. intros [H1 H2]%andb_true_iff Hy.
  destruct (decide (x = y)) as [->|]; [done|]. apply (IH (x + 1)); [done|lia].
Qed.

(** The code depends on the upper 13 bits: what it says of them, at both ends of the
    eight samples they stand for. *)
Definition codes_well (p : Z) : bool :=
  let a := AlawEncode (8 * p) in
  let half := G711.width (G711.segment a) / 2 in
  (0 <=? a) && (a <? 256) && Bool.eqb (G711.positive a) (0 <=? p) &&
  (Z.abs (G711.decode a - 8 * p) <=? half) && (Z.abs (G711.decode a - (8 * p + 7)) <=? half).

Lemma all_code_well p : -4096 <= p < 4096 → codes_well p = true.
Proof.
  intros Hp. apply (for_range_spec codes_well (Z.to_nat 8192) (-4096)); [by vm_compute|lia].
Qed.

Lemma AlawEncode_high x : AlawEncode x = AlawEncode (8 * (x >>> 3)).
Proof.
  unfold AlawEncode. rewrite !shiftr_div by lia. change (2 ^ 3) with 8. by rewrite (Z.mul_comm 8), Z.div_mul by lia.
Qed.

(** C34: A sample is coded by the G.711 interval it lies in: for every 16-bit sample the
    result is a byte, and the standard's decoder gives back a value on the same side of zero
    that is off by at most half the width of the interval. *)
Theorem alaw_is_g711 x :
  -32768 <= x < 32768 →
  is_byte (AlawEncode x) ∧ G711.positive (AlawEncode x) = (0 <=? x) ∧
  Z.abs (G711.decode (AlawEncode x) - x) <= G711.width (G711.segment (AlawEncode x)) / 2.
Proof.
  intros Hx. rewrite AlawEncode_high, shiftr_div by lia. change (2 ^ 3) with 8.
  pose proof (all_code_well (x / 8) ltac:(Z.div_mod_to_equations; lia)) as H. unfold codes_well in H. cbv zeta in H.
  rewrite !andb_true_iff, eqb_true_iff in H. destruct H as [[[[H1 H2] H3] H4] H5].
  set (a := AlawEncode (8 * (x / 8))) in *. set (half := _ / 2) in *. clearbody a half. split; [unfold is_byte; lia|].
  rewrite H3. split; [apply eq_bool_prop_intro; rewrite !Is_true_true; Z.div_mod_to_equations; lia|Z.div_mod_to_equations; lia].
Qed.

Lemma alaw_is_g711_witness : Z.abs (G711.decode (AlawEncode (-5000)) - -5000) <= 128.
Proof. destruct (alaw_is_g711 (-5000)) as (_ & _ & H); [lia|]. vm_compute in H |- *. done. Defined.

(** ** The encoders *)

(** [running] is told through the stream: it is [st_running] of [output]. *)
Record alaw_encoder := MkAlaw {
  ae_output : option nat;
  ae_ex : option exchanger;
  ae_u32ChannelNum : Z;
  ae_u32SampleRate : Z }.

Record jpeg_encoder := MkJpegEnc {
  je_output : option nat;
  je_ex : option exchanger;
  je_bitrate : Z;
  je_u32VinPlannerWidth : Z; je_u32VinPlannerHeight : Z;
  je_u32VinPacketWidth : Z; je_u32VinPacketHeight : Z;
  je_u32JpegWidth : Z; je_u32JpegHeight : Z;
  je_u32JpegPacketPipe : Z;
  je_u32Overlapping : Z }.

Definition DEF_AUDIO_SAMPLERATE : Z := 8000.
Definition DEF_AUDIO_CHANNEL : Z := 1.
Definition DEF_FRAME_RATE : Z := 30.

(** *** Configuration *)

Definition alaw_start_block : alaw_encoder := MkAlaw None None 0 0.
Definition jpeg_start_block : jpeg_encoder := MkJpegEnc None None 0 0 0 0 0 0 0 0 0.

(** [end_block]; -1 without an output.  The thread starts here. *)
Definition alaw_end_block (en : alaw_encoder) : outcome (Z * alaw_encoder) :=
  match ae_output en with
  | None => Ok (-1, en)
  | Some s => x ← new_exchanger 4; Ok (0, MkAlaw (Some s) (Some x) DEF_AUDIO_CHANNEL DEF_AUDIO_SAMPLERATE)
  end.

Definition jpeg_end_block (en : jpeg_encoder) : outcome (Z * jpeg_encoder) :=
  match je_output en with
  | None => Ok (-1, en)
  | Some s =>
      x ← new_exchanger 8;
      Ok (0, MkJpegEnc (Some s) (Some x) (je_bitrate en) (je_u32VinPlannerWidth en) (je_u32VinPlannerHeight en)
               (je_u32VinPacketWidth en) (je_u32VinPacketHeight en) (je_u32JpegWidth en) (je_u32JpegHeight en)
               (je_u32JpegPacketPipe en) (je_u32Overlapping en))
  end.

(** [set_output]: a stream with the functions of the encoder. *)
Definition alaw_set_output (w : streams) (en : alaw_encoder) (name : list Z) : outcome (alaw_encoder * streams) :=
  '(s, w) ← new_stream w name FORMAT_ALAW;
  w ← set_source w s;
  Ok (MkAlaw (Some s) (ae_ex en) (ae_u32ChannelNum en) (ae_u32SampleRate en), w).

Definition jpeg_set_output (w : streams) (en : jpeg_encoder) (name : list Z) : outcome (jpeg_encoder * streams) :=
  '(s, w) ← new_stream w name FORMAT_JPEG;
  w ← set_source w s;
  Ok (MkJpegEnc (Some s) (je_ex en) (je_bitrate en) (je_u32VinPlannerWidth en) (je_u32VinPlannerHeight en)
        (je_u32VinPacketWidth en) (je_u32VinPacketHeight en) (je_u32JpegWidth en) (je_u32JpegHeight en)
        (je_u32JpegPacketPipe en) (je_u32Overlapping en), w).

(** The numbers of the JPEG encoder; the fields are [uint32_t] but for the bit rate. *)
Definition set_bitrate_num (en : jpeg_encoder) (n : Z) : jpeg_encoder :=
  MkJpegEnc (je_output en) (je_ex en) n (je_u32VinPlannerWidth en) (je_u32VinPlannerHeight en)
    (je_u32VinPacketWidth en) (je_u32VinPacketHeight en) (je_u32JpegWidth en) (je_u32JpegHeight en)
    (je_u32JpegPacketPipe en) (je_u32Overlapping en).
Definition set_vin_planner_width (en : jpeg_encoder) (n : Z) : jpeg_encoder :=
  MkJpegEnc (je_output en) (je_ex en) (je_bitrate en) (u32 n) (je_u32VinPlannerHeight en)
    (je_u32VinPacketWidth en) (je_u32VinPacketHeight en) (je_u32JpegWidth en) (je_u32JpegHeight en)
    (je_u32JpegPacketPipe en) (je_u32Overlapping en).
Definition set_vin_planner_height (en : jpeg_encoder) (n : Z) : jpeg_encoder :=
  MkJpegEnc (je_output en) (je_ex en) (je_bitrate en) (je_u32VinPlannerWidth en) (u32 n)
    (je_u32VinPacketWidth en) (je_u32VinPacketHeight en) (je_u32JpegWidth en) (je_u32JpegHeight en)
    (je_u32JpegPacketPipe en) (je_u32Overlapping en).
Definition set_vin_packet_width (en : jpeg_encoder) (n : Z) : jpeg_encoder :=
  MkJpegEnc (je_output en) (je_ex en) (je_bitrate en) (je_u32VinPlannerWidth en) (je_u32VinPlannerHeight en)
    (u32 n) (je_u32VinPacketHeight en) (je_u32JpegWidth en) (je_u32JpegHeight en)
    (je_u32JpegPacketPipe en) (je_u32Overlapping en).
Definition set_vin_packet_height (en : jpeg_encoder) (n : Z) : jpeg_encoder :=
  MkJpegEnc (je_output en) (je_ex en) (je_bitrate en) (je_u32VinPlannerWidth en) (je_u32VinPlannerHeight en)
    (je_u32VinPacketWidth en) (u32 n) (je_u32JpegWidth en) (je_u32JpegHeight en)
    (je_u32JpegPacketPipe en) (je_u32Overlapping en).
Definition set_jpeg_width (en : jpeg_encoder) (n : Z) : jpeg_encoder :=
  MkJpegEnc (je_output en) (je_ex en) (je_bitrate en) (je_u32VinPlannerWidth en) (je_u32VinPlannerHeight en)
    (je_u32VinPacketWidth en) (je_u32VinPacketHeight en) (u32 n) (je_u32JpegHeight en)
    (je_u32JpegPacketPipe en) (je_u32Overlapping en).
Definition set_jpeg_height (en : jpeg_encoder) (n : Z) : jpeg_encoder :=
  MkJpegEnc (je_output en) (je_ex en) (je_bitrate en) (je_u32VinPlannerWidth en) (je_u32VinPlannerHeight en)
    (je_u32VinPacketWidth en) (je_u32VinPacketHeight en) (je_u32JpegWidth en) (u32 n)
    (je_u32JpegPacketPipe en) (je_u32Overlapping en).
Definition set_jpeg_packet (en : jpeg_encoder) (n : Z) : jpeg_encoder :=
  MkJpegEnc (je_output en) (je_ex en) (je_bitrate en) (je_u32VinPlannerWidth en) (je_u32VinPlannerHeight en)
    (je_u32VinPacketWidth en) (je_u32VinPacketHeight en) (je_u32JpegWidth en) (je_u32JpegHeight en)
    (u32 n) (je_u32Overlapping en).
Definition set_overlapping (en : jpeg_encoder) (n : Z) : jpeg_encoder :=
  MkJpegEnc (je_output en) (je_ex en) (je_bitrate en) (je_u32VinPlannerWidth en) (je_u32VinPlannerHeight en)
    (je_u32VinPacketWidth en) (je_u32VinPacketHeight en) (je_u32JpegWidth en) (je_u32JpegHeight en)
    (je_u32JpegPacketPipe en) (u32 n).

(** *** What a stream says of its rate *)

Definition alaw_get_framerate (en : alaw_encoder) : Z * Z :=
  (ae_u32ChannelNum en, i32 (ae_u32ChannelNum en * ae_u32SampleRate en)).

Definition jpeg_get_framerate : Z * Z := (1, DEF_FRAME_RATE).

(** *** The threads *)

(** The pool and the exchanger between a thread and the main loop. *)
Record line := MkLine { ln_heap : frame_heap; ln_ex : exchanger }.

(** The frame [id] is filled: its fields and the bytes at [f->d]. *)
Definition fill_frame (h : frame_heap) (id : nat) (format width height timestamp : Z) (d : list Z) : outcome frame_heap :=
  match h_frames h !! id with
  | None => Undef
  | Some f =>
      if (length (f_data f) <? length d)%nat then Undef else
      Ok (with_frames h (<[id := MkFrame (f_ref_count f) (f_size f) (f_destructor f) format width height
            (Z.of_nat (length d)) 1 (f_step f) (f_d f) timestamp (splice 0 d (f_data f))]> (h_frames h)))
  end.

(** One turn of [alaw_loop]: [rec] is what [OSS_RecRead] recorded, [None] an error; the
    result is the timestamp and the line. *)
Definition alaw_turn (i32MaxFrameSize : Z) (running : bool) (rec : option (list Z)) (timestamp : Z) (l : line)
    : outcome (Z * line) :=
  match rec with
  | None => Ok (timestamp, l)
  | Some pcm =>
      if negb running then Ok (timestamp, l) else
      let u32ALawDataSize := Z.of_nat (length pcm) in
      let timestamp := u32 (timestamp + u32ALawDataSize) in
      if u32 i32MaxFrameSize <? u32ALawDataSize then Ok (timestamp, l) else
      '(r, h) ← new_frame (ln_heap l);
      match r with
      | None => Ok (timestamp, MkLine h (ln_ex l))
      | Some id =>
          h ← fill_frame h id FORMAT_ALAW 0 0 timestamp (map AlawEncode pcm);
          '(_, x, h) ← Frame.deliver_frame (ln_ex l) h id;
          Ok (timestamp, MkLine h x)
      end
  end.

(** The time between frames, in milliseconds, that keeps to the bit rate; the [double]
    [dMaybeFR] holds a whole number. *)
Definition update_frame_time (u32DesireBitRate u32DesireFrameRate u32FrameSize u32UpdateFrameTime : Z) : outcome Z :=
  if u32DesireBitRate =? 0 then Ok u32UpdateFrameTime else
  if u32FrameSize =? 0 then Undef else
  let dMaybeFR := u32DesireBitRate / 8 / u32FrameSize in
  let dMaybeFR := if dMaybeFR =? 0 then 1 else dMaybeFR in
  let dMaybeFR := if u32DesireFrameRate <? dMaybeFR then u32DesireFrameRate else dMaybeFR in
  let t := 1000 / dMaybeFR in
  let t := t / 10 * 10 in
  Ok (if 10 <? t then t - 10 else t).

(** [jpeg_loop] between two frames: [u64NextFrameTime] and [u32UpdateFrameTime]. *)
Record pace := MkPace { pc_next : Z; pc_update : Z }.

(** One turn of [jpeg_loop]: [now] is the time at the head of the loop, [cur] when the
    picture was there; [pic] is the encoded picture with its size, [None] if the camera or
    the encoder failed.  The frame keeps the timestamp of its last use. *)
Definition jpeg_turn (u32DesireBitRate i32MaxFrameSize : Z) (running : bool) (now cur : Z) (pic : option (Z * Z * list Z))
    (p : pace) (l : line) : outcome (pace * line) :=
  if negb running then Ok (p, l) else
  if now + 10 <? pc_next p then Ok (p, l) else
  match pic with
  | None => Ok (p, l)
  | Some (w, hgt, d) =>
      let u32FrameSize := Z.of_nat (length d) in
      if u32 i32MaxFrameSize <? u32FrameSize then Ok (p, l) else
      '(r, h) ← new_frame (ln_heap l);
      match r with
      | None => Ok (p, MkLine h (ln_ex l))
      | Some id =>
          let ts := match h_frames h !! id with Some f => f_timestamp f | None => 0 end in
          h ← fill_frame h id FORMAT_JPEG w hgt ts d;
          '(_, x, h) ← Frame.deliver_frame (ln_ex l) h id;
          u ← update_frame_time u32DesireBitRate DEF_FRAME_RATE u32FrameSize (pc_update p);
          Ok (MkPace (cur + u) u, MkLine h x)
      end
  end.
