(* ===== verification/Capture.v ===== *)
(** * From the microphone to the clients ([encoder-alaw.c], [frame.c], [stream.c])

    The A-law thread, the frame pool, the exchanger and the stream put together: the thread
    records and fills frames at its own pace, the main loop takes them out and delivers
    them to the client of the stream.  Whatever the order of the two, the client gets the
    blocks of a bounded queue: each block once, in order, coded sample by sample, with the
    timestamp of its last sample, and no frame of the pool is lost. *)

From Stdlib Require Import String.
From S2P Require Import Prelude CString Frame Stream Encoder.

Local Open Scope Z_scope.

(** ** The main loop's side *)

(** A block of sound: its bytes and its timestamp. *)
Abbreviation block := (list Z * Z)%type.

(** The client copies the frame and gives it up, as a track of a live source does. *)
Definition keep_client (k f : nat) (w : world (list block)) : outcome (world (list block)) :=
  match h_frames (w_heap w) !! f with
  | None => Undef
  | Some fr =>
      match h_frames (w_heap w) !! f_d fr with
      | None => Undef
      | Some storage =>
          h ← unref (w_heap w) f;
          Ok (MkWorld h (w_streams w)
                (w_clients w ++ [(take (Z.to_nat (f_length fr)) (f_data storage), f_timestamp fr)]))
      end
  end.

(** A turn of the main loop: [exchanger_read], and [deliver_frame_to_stream] on what it
    found. *)
Definition main_turn (w : streams) (s : nat) (l : line) (out : list block) : outcome (line * list block) :=
  '(f, x) ← exchanger_read (ln_ex l);
  match f with
  | None => Ok (MkLine (ln_heap l) x, out)
  | Some f =>
      w ← deliver_frame_to_stream keep_client 1 (MkWorld (ln_heap l) w out) f s;
      Ok (MkLine (w_heap w) x, w_clients w)
  end.

(** The thread and the main loop in any order. *)
Inductive turn :=
| Thread (running : bool) (rec : option (list Z))
| Main.

Fixpoint run_turns (max : Z) (w : streams) (s : nat) (ts : list turn) (timestamp : Z) (l : line) (out : list block)
    : outcome (list block) :=
  match ts with
  | [] => Ok out
  | Thread running rec :: ts =>
      '(timestamp, l) ← alaw_turn max running rec timestamp l; run_turns max w s ts timestamp l out
  | Main :: ts => '(l, out) ← main_turn w s l out; run_turns max w s ts timestamp l out
  end.

(** ** The bounded queue *)

(** A block is taken while the queue has room; the clock of the samples goes on all the
    same. *)
Fixpoint run_blocks (max : Z) (cap : nat) (ts : list turn) (timestamp : Z) (q out : list block) : list block :=
  match ts with
  | [] => out
  | Thread true (Some pcm) :: ts =>
      let timestamp := u32 (timestamp + Z.of_nat (length pcm)) in
      if (Z.of_nat (length pcm) <=? max) && (length q <? cap)%nat
      then run_blocks max cap ts timestamp (q ++ [(map AlawEncode pcm, timestamp)]) out
      else run_blocks max cap ts timestamp q out
  | Thread _ _ :: ts => run_blocks max cap ts timestamp q out
  | Main :: ts => run_blocks max cap ts timestamp (tail q) (out ++ option_list (head q))
  end.

(** ** The pool of a single line *)

(** The frame of a queued block. *)
Definition holds (m : gmap nat frame) (id : nat) (b : block) : Prop :=
  ∃ fr, m !! id = Some fr ∧ f_ref_count fr = 1 ∧ f_destructor fr = None ∧ f_d fr = id ∧
    f_length fr = Z.of_nat (length b.1) ∧ take (length b.1) (f_data fr) = b.1 ∧ f_timestamp fr = b.2.

(** [free] are the frames in the pool, [ids] the queued ones with their blocks [q]. *)
Record line_inv (count size slots : nat) (l : line) (free ids : list nat) (q : list block) : Prop := {
  li_ring : ring_rep (h_slots (ln_heap l)) (h_take (ln_heap l)) (h_put (ln_heap l)) free;
  li_locked : h_locked (ln_heap l) = false;
  li_count : length (h_slots (ln_heap l)) = count;
  li_ids : free ++ ids ≡ₚ seq 0 count;
  li_frames i : (i < count)%nat → ∃ fr, h_frames (ln_heap l) !! i = Some fr ∧ length (f_data fr) = size;
  li_held : Forall2 (holds (h_frames (ln_heap l))) ids q;
  li_ex : ex_rep (ln_ex l) ids;
  li_slots : length (x_slots (ln_ex l)) = slots }.

Lemma line_nodup count size slots l free ids q : line_inv count size slots l free ids q → NoDup (free ++ ids).
Proof. intros H. rewrite (li_ids _ _ _ _ _ _ _ H). apply NoDup_seq. Qed.

Lemma line_range count size slots l free ids q i :
  line_inv count size slots l free ids q → i ∈ free ++ ids → (i < count)%nat.
Proof. intros H. rewrite (li_ids _ _ _ _ _ _ _ H), elem_of_seq. lia. Qed.

Lemma line_length count size slots l free ids q :
  line_inv count size slots l free ids q → (length free + length q = count)%nat ∧ length ids = length q.
Proof.
  intros H. pose proof (Permutation_length (li_ids _ _ _ _ _ _ _ H)) as E. rewrite length_app, length_seq in E.
  pose proof (Forall2_length _ _ _ (li_held _ _ _ _ _ _ _ H)). lia.
Qed.

(** Other frames may change. *)
Lemma holds_insert m id b i fr : i ≠ id → holds m id b → holds (<[i := fr]> m) id b.
Proof. intros Hne (f & E & H). exists f. by rewrite lookup_insert_ne. Qed.

Lemma held_insert m ids q i fr : i ∉ ids → Forall2 (holds m) ids q → Forall2 (holds (<[i := fr]> m)) ids q.
Proof.
  intros Hi H. induction H as [|id b ids q Hb H IH]; [constructor|]. apply not_elem_of_cons in Hi as [? ?].
  constructor; [by apply holds_insert|by apply IH].
Qed.

Lemma frames_insert count size (m : gmap nat frame) j fr :
  length (f_data fr) = size → (∀ i, (i < count)%nat → ∃ fr, m !! i = Some fr ∧ length (f_data fr) = size) →
  ∀ i, (i < count)%nat → ∃ fr', <[j := fr]> m !! i = Some fr' ∧ length (f_data fr') = size.
Proof.
  intros Hl H i Hi. destruct (decide (j = i)) as [->|]; [rewrite lookup_insert_eq; eauto|].
  rewrite lookup_insert_ne by done. auto.
Qed.

(** ** A frame that is filled *)

Section fill.
Context (count size slots : nat) (l : line) (free ids : list nat) (q : list block) (data : list Z).
Hypothesis Hl : line_inv count size slots l free ids q.
Hypothesis Hfit : (length data <= size)%nat.

(** The frame the thread takes, filled. *)
Definition filled (format width height timestamp : Z) (id : nat) (fr : frame) : frame :=
  MkFrame 1 (f_size fr) None format width height (Z.of_nat (length data)) 1 (f_step fr) id timestamp (splice 0 data (f_data fr)).

(** A frame is taken and filled. *)
Lemma take_and_fill :
  match free with
  | [] => new_frame (ln_heap l) = Ok (None, ln_heap l)
  | id :: free' => ∃ fr h1, h_frames (ln_heap l) !! id = Some fr ∧ new_frame (ln_heap l) = Ok (Some id, h1) ∧
      ∀ format width height timestamp, ∃ h2, fill_frame h1 id format width height timestamp data = Ok h2 ∧
        h_frames h2 = <[id := filled format width height timestamp id fr]> (h_frames (ln_heap l)) ∧ h_locked h2 = false ∧
        length (h_slots h2) = count ∧ ring_rep (h_slots h2) (h_take h2) (h_put h2) free'
  end.
Proof using Hl Hfit.
  pose proof Hl as [R Lk Cn Ids Fr _ _ _]. unfold new_frame. rewrite Lk.
  rewrite (rd_Ok _ _ _ (ring_rep_take _ _ _ _ R)), bind_Ok. destruct free as [|id free']; cbn [lookup list_lookup]; [done|].
  destruct (Fr id) as (fr & E & Hsz); [eapply line_range; [exact Hl|]; set_solver|]. rewrite E.
  eexists fr, _. split; [done|]. split; [done|]. intros format width height timestamp. unfold fill_frame. cbn [h_frames]. rewrite lookup_insert_eq.
  cbn [fresh_frame f_data]. destruct (Nat.ltb_spec (length (f_data fr)) (length data)) as [Hlt|]; [lia|].
  eexists. split; [done|]. cbn. split; [by rewrite insert_insert_eq|]. split; [done|]. split; [by rewrite length_insert|].
  by apply ring_rep_pop in R.
Qed.

Lemma filled_size fr id format width height timestamp : length (f_data fr) = size → length (f_data (filled format width height timestamp id fr)) = size.
Proof using Hfit. intros H. cbn. rewrite splice_length; [done|]. rewrite H. lia. Qed.

Lemma filled_holds m fr id format width height timestamp :
  length (f_data fr) = size → holds (<[id := filled format width height timestamp id fr]> m) id (data, timestamp).
Proof using Hfit.
  intros H. eexists. split; [apply lookup_insert_eq|]. split_and!; try done. exact (splice_read 0 _ (f_data fr) ltac:(lia)).
Qed.
End fill.

(** ** Frames that come back *)

(** The last reference to a frame goes: it is behind the others in the pool. *)
Lemma unref_last h id fr free count :
  ring_rep (h_slots h) (h_take h) (h_put h) free → h_locked h = false → length (h_slots h) = count → (length free < count)%nat →
  h_frames h !! id = Some fr → f_ref_count fr = 1 → f_destructor fr = None →
  ∃ h', unref h id = Ok h' ∧ h_frames h' = <[id := set_ref fr 0]> (h_frames h) ∧ h_locked h' = false ∧
    length (h_slots h') = count ∧ ring_rep (h_slots h') (h_take h') (h_put h') (free ++ [id]).
Proof.
  intros R Lk Cn Hlt E Hr Hd. unfold unref. destruct count as [|n]; [lia|]. rewrite Cn. cbn [unref_frame]. rewrite E, Hr, Hd.
  change (i32 (1 - 1)) with 0. cbn [Z.ltb Z.compare]. rewrite bind_Ok. unfold put_frame. cbn [with_frames h_locked h_slots h_put h_frames h_take].
  rewrite Lk. destruct (ring_rep_push _ _ _ _ id R) as [Ep R']; [lia|]. rewrite (rd_Ok _ _ _ Ep), bind_Ok.
  eexists. split; [done|]. cbn. by rewrite length_insert.
Qed.

(** Another one stays. *)
Lemma unref_shared h id fr :
  (0 < length (h_slots h))%nat → h_frames h !! id = Some fr → f_ref_count fr = 2 →
  unref h id = Ok (with_frames h (<[id := set_ref fr 1]> (h_frames h))).
Proof.
  intros Hl E Hr. unfold unref. destruct (length (h_slots h)) as [|n]; [lia|]. cbn [unref_frame]. rewrite E, Hr. done.
Qed.

Lemma new_line_inv size slots count junk :
  (0 < slots)%nat → (0 < count)%nat → (∀ i, length (f_data (junk i)) = size) →
  ∃ h x, init_frame_heap (Z.of_nat size) count junk = Ok h ∧ new_exchanger slots = Ok x ∧
    line_inv count size slots (MkLine h x) (seq 0 count) [] [].
Proof.
  intros Hs Hc Hj. destruct (init_frame_heap_inv (Z.of_nat size) count junk Hc) as (h & Eh & Hsl & Hp).
  destruct slots as [|n]; [lia|]. exists h, (MkEx (replicate (S n) (None, false)) 0 0 0 0). split; [done|]. split; [done|].
  split; cbn [ln_heap ln_ex].
  - apply (pi_ring _ _ _ _ _ Hp).
  - apply (pi_locked _ _ _ _ _ Hp).
  - done.
  - by rewrite app_nil_r.
  - intros i Hi. destruct (init_frame_heap_data _ _ _ _ i Eh Hi) as (fr & E & Hd). exists fr. by rewrite Hd.
  - constructor.
  - apply new_exchanger_rep.
  - cbn. by rewrite length_replicate.
Qed.

(** ** A turn of the thread *)

Section turns.
Context (count size slots : nat).
Hypothesis Hsize : Z.of_nat size < 2 ^ 32.
Abbreviation cap := (Nat.min count (slots - 1)).

(** A thread offers a frame: there is none, or it is filled and put in the exchanger, or goes
    back to the pool when that is full. *)
Lemma offer_frame l free ids q data :
  line_inv count size slots l free ids q → (length data <= size)%nat →
  new_frame (ln_heap l) = Ok (None, ln_heap l) ∧ ¬ (length q < cap)%nat ∨
  ∃ id h1, new_frame (ln_heap l) = Ok (Some id, h1) ∧
    ∀ format width height timestamp, ∃ h2 r x h3 free' ids',
      fill_frame h1 id format width height timestamp data = Ok h2 ∧ Frame.deliver_frame (ln_ex l) h2 id = Ok (r, x, h3) ∧
      line_inv count size slots (MkLine h3 x) free' ids' (if (length q <? cap)%nat then q ++ [(data, timestamp)] else q).
Proof using.
  clear Hsize. intros Hl Hfit. destruct (line_length _ _ _ _ _ _ _ Hl) as [Hlen Hids].
  pose proof (take_and_fill count size slots l free ids q data Hl Hfit) as Hf. pose proof (line_nodup _ _ _ _ _ _ _ Hl) as Hnd.
  destruct free as [|id free']; cbn [length] in Hlen; [left; split; [done|lia]|right].
  destruct Hf as (fr & h1 & Efr & E1 & Hfill). exists id, h1. split; [done|]. intros fmt wd ht ts.
  destruct (Hfill fmt wd ht ts) as (h2 & E2 & Em & Lk & Cn & R). clear Hfill. exists h2.
  destruct Hl as [R0 Lk0 Cn0 Ids Fr Held Ex Sl]. cbn [app] in Ids, Hnd. apply NoDup_cons in Hnd as [Hid Hnd].
  assert (length (f_data fr) = size) as Hsz.
  { destruct (Fr id) as (fr' & E' & H'); [|congruence]. assert (id ∈ id :: free' ++ ids) as Hin by set_solver.
    rewrite Ids, elem_of_seq in Hin. lia. }
  pose proof (deliver_frame_rep (ln_ex l) h2 ids id Ex) as Hd. rewrite Sl, Hids in Hd.
  assert (Forall2 (holds (h_frames h2)) ids q) as Held2 by (rewrite Em; apply held_insert; [set_solver|done]).
  destruct (Nat.ltb_spec (length q) (slots - 1)) as [Hroom|Hfull].
  - destruct Hd as (x' & Ed & Ex' & Esl). destruct (Nat.ltb_spec (length q) cap); [|lia].
    eexists _, x', h2, free', (ids ++ [id]). split; [done|]. split; [exact Ed|]. split; cbn [ln_heap ln_ex]; try done.
    + rewrite <- Ids, app_assoc. symmetry. apply Permutation_cons_append.
    + rewrite Em. apply frames_insert; [by apply filled_size|done].
    + apply Forall2_app; [done|]. constructor; [|constructor]. rewrite Em. by apply (filled_holds size).
  - assert (h_frames h2 !! id = Some (filled data fmt wd ht ts id fr)) as Ef by (rewrite Em; apply lookup_insert_eq).
    destruct (unref_last h2 id _ free' count R Lk Cn ltac:(lia) Ef eq_refl eq_refl) as (h3 & E3 & Em3 & Lk3 & Cn3 & R3).
    rewrite E3, bind_Ok in Hd. destruct (Nat.ltb_spec (length q) cap); [lia|]. eexists _, (ln_ex l), h3, (free' ++ [id]), ids.
    split; [done|]. split; [exact Hd|]. split; cbn [ln_heap ln_ex]; try done.
    + rewrite <- Ids, <- app_assoc. cbn [app]. symmetry. apply Permutation_middle.
    + rewrite Em3, Em, insert_insert_eq. apply frames_insert; [by apply (filled_size size data Hfit fr id)|done].
    + rewrite Em3. apply held_insert; [set_solver|done].
Qed.

Lemma thread_turn_ok l free ids q timestamp pcm :
  line_inv count size slots l free ids q →
  let ts := u32 (timestamp + Z.of_nat (length pcm)) in
  let q' := if (Z.of_nat (length pcm) <=? Z.of_nat size) && (length q <? cap)%nat
            then q ++ [(map AlawEncode pcm, ts)] else q in
  ∃ l' free' ids', alaw_turn (Z.of_nat size) true (Some pcm) timestamp l = Ok (ts, l') ∧ line_inv count size slots l' free' ids' q'.
Proof using Hsize.
  intros Hl ts q'. unfold alaw_turn. cbn [negb]. cbv zeta. fold ts. rewrite (u32_small (Z.of_nat size)) by lia.
  destruct (Z.ltb_spec (Z.of_nat size) (Z.of_nat (length pcm))) as [Hbig|Hfit].
  { exists l, free, ids. split; [done|]. unfold q'. destruct (Z.leb_spec (Z.of_nat (length pcm)) (Z.of_nat size)); [lia|done]. }
  assert ((Z.of_nat (length pcm) <=? Z.of_nat size) = true) as Hle by lia. unfold q'. rewrite Hle. cbn [andb].
  destruct (offer_frame l free ids q (map AlawEncode pcm) Hl) as [[-> Hq]|(id & h1 & -> & Hf)]; [rewrite length_map; lia| |]; rewrite bind_Ok.
  - exists l, free, ids. rewrite (proj2 (Nat.ltb_ge _ _)) by lia. split; [by destruct l|done].
  - destruct (Hf FORMAT_ALAW 0 0 ts) as (h2 & r & x & h3 & free' & ids' & -> & E3 & Hl'). rewrite bind_Ok, E3, bind_Ok. by exists (MkLine h3 x), free', ids'.
Qed.

(** ** A turn of the main loop *)

Context (w : streams) (s d k : nat) (sx : stream).
Hypothesis Es : st_streams w !! s = Some sx.
Hypothesis Ed : s_dest_list sx = [d].
Hypothesis Hd : st_dests w !! d = Some (MkDest s 1 (Client k)).

(** A frame whose one reference the main loop holds goes to the client and back to the
    pool. *)
Lemma deliver_ok h f b free out :
  ring_rep (h_slots h) (h_take h) (h_put h) free → h_locked h = false → length (h_slots h) = count → (length free < count)%nat →
  holds (h_frames h) f b →
  ∃ h' fr, deliver_frame_to_stream keep_client 1 (MkWorld h w out) f s = Ok (MkWorld h' w (out ++ [b])) ∧
    h_frames h !! f = Some fr ∧ h_frames h' = <[f := set_ref fr 0]> (h_frames h) ∧ h_locked h' = false ∧
    length (h_slots h') = count ∧ ring_rep (h_slots h') (h_take h') (h_put h') (free ++ [f]).
Proof using Es Ed Hd size.
  intros R Lk Cn Hlt (fr & E & Hr & Hde & Hf & Hlen & Htake & Hts). cbn [deliver_frame_to_stream w_streams]. rewrite Es, Ed. cbn [w_streams]. rewrite Hd.
  cbn [d_waiting d_process w_heap]. change (negb (truth 1)) with false. cbv iota. unfold ref_frame. rewrite E, Hr, bind_Ok.
  change (i32 (1 + 1)) with 2. unfold keep_client at 1, with_heap. cbn [w_heap w_streams w_clients with_frames h_frames].
  rewrite lookup_insert_eq. cbn [set_ref f_d f_length f_timestamp]. rewrite Hf, lookup_insert_eq. cbn [set_ref f_data].
  erewrite unref_shared; [|cbn; lia|cbn; apply lookup_insert_eq|done]. rewrite !bind_Ok. cbn [w_heap w_streams w_clients with_frames h_frames].
  rewrite insert_insert_eq.
  set (h1 := with_frames (with_frames _ _) _).
  destruct (unref_last h1 f (set_ref (set_ref fr 2) 1) free count) as (h2 & E2 & Em & Lk2 & Cn2 & R2); try done.
  { cbn. apply lookup_insert_eq. }
  rewrite E2, bind_Ok. exists h2, fr. rewrite Hlen, Nat2Z.id, Htake, Hts. destruct b as [b1 b2]. split; [done|]. split; [done|].
  split; [|done]. rewrite Em. cbn. rewrite insert_insert_eq. by destruct fr.
Qed.

Lemma main_turn_ok l free ids q out :
  line_inv count size slots l free ids q →
  ∃ l' free' ids', main_turn w s l out = Ok (l', out ++ option_list (head q)) ∧ line_inv count size slots l' free' ids' (tail q).
Proof using All.
  intros Hl. destruct (line_length _ _ _ _ _ _ _ Hl) as [Hlen Hids]. pose proof (line_nodup _ _ _ _ _ _ _ Hl) as Hnd.
  unfold main_turn. destruct Hl as [R Lk Cn Ids Fr Held Ex Sl].
  destruct (exchanger_read_rep _ _ Ex) as (x' & -> & Ex' & Esl). rewrite Sl in Esl. rewrite bind_Ok.
  destruct Held as [|f b ids q Hb Held]; cbn [head tail option_list].
  { rewrite app_nil_r. exists (MkLine (ln_heap l) x'), free, []. by split. }
  destruct (deliver_ok (ln_heap l) f b free out R Lk Cn ltac:(cbn in Hlen; lia) Hb) as (h' & fr & -> & E & Em & Lk' & Cn' & R').
  rewrite bind_Ok. cbn [w_heap w_clients]. exists (MkLine h' x'), (free ++ [f]), ids. split; [done|].
  split; cbn [ln_heap ln_ex]; try done.
  - by rewrite <- Ids, <- app_assoc.
  - rewrite Em. apply frames_insert; [|done]. destruct (Fr f) as (fr' & E' & H'); [|cbn; congruence].
    assert (f ∈ free ++ f :: ids) as Hin by set_solver. rewrite Ids, elem_of_seq in Hin. lia.
  - rewrite Em. apply held_insert; [|done]. apply NoDup_app in Hnd as (_ & _ & Hnd). by apply NoDup_cons in Hnd as [? _].
Qed.

Lemma run_turns_ok ts timestamp l free ids q out :
  line_inv count size slots l free ids q →
  run_turns (Z.of_nat size) w s ts timestamp l out = Ok (run_blocks (Z.of_nat size) cap ts timestamp q out).
Proof using All.
  revert timestamp l free ids q out. induction ts as [|t ts IH]; intros timestamp l free ids q out Hl; [done|].
  destruct t as [running rec|]; cbn [run_turns].
  - destruct running, rec as [pcm|]; try (cbn [alaw_turn negb]; rewrite bind_Ok; by eapply IH).
    destruct (thread_turn_ok l free ids q timestamp pcm Hl) as (l' & free' & ids' & -> & Hl'). rewrite bind_Ok. cbn [run_blocks].
    rewrite (IH _ _ _ _ _ _ Hl'). by destruct (_ && _).
  - destruct (main_turn_ok l free ids q out Hl) as (l' & free' & ids' & -> & Hl'). rewrite bind_Ok. cbn [run_blocks]. by eapply IH.
Qed.
End turns.

(** C23: Sound reaches the client as through a bounded queue.  The A-law thread with the
    frame pool, the exchanger and the delivery to a stream with one waiting client, in any
    interleaving with the main loop and whatever the recorder returns: no operation goes
    wrong or waits for ever, and the client receives exactly the blocks that a queue of
    limited length hands on -- in order, coded sample by sample, stamped with the number of
    samples recorded so far even when blocks in between found no room -- so no frame is
    lost to the pool, delivered twice or overwritten while it is queued. *)
Theorem sound_pipeline count size slots junk w s d k sx ts :
  (0 < count)%nat → (1 < slots)%nat → Z.of_nat size < 2 ^ 32 → (∀ i, length (f_data (junk i)) = size) →
  st_streams w !! s = Some sx → s_dest_list sx = [d] → st_dests w !! d = Some (MkDest s 1 (Client k)) →
  ∃ h x, init_frame_heap (Z.of_nat size) count junk = Ok h ∧ new_exchanger slots = Ok x ∧
    run_turns (Z.of_nat size) w s ts 0 (MkLine h x) [] =
    Ok (run_blocks (Z.of_nat size) (Nat.min count (slots - 1)) ts 0 [] []).
Proof.
  intros Hc Hs Hsz Hj Es Ed Hd. destruct (new_line_inv size slots count junk ltac:(lia) Hc Hj) as (h & x & E1 & E2 & Hl).
  exists h, x. split; [done|]. split; [done|]. by eapply run_turns_ok.
Qed.

(** Two frames, and a thread that is faster than the main loop. *)
Definition w_streams_one : streams :=
  MkStreams [0%nat] {[ 0%nat := MkStream (lit "alaw") FORMAT_ALAW [1%nat] RunSource ]}
    {[ 1%nat := MkDest 0 1 (Client 7) ]} ∅ 2.

Lemma sound_pipeline_witness :
  ∃ h x, init_frame_heap 16 2 (λ _, MkFrame 0 0 None 0 0 0 0 0 0 0 0 (replicate 16 0)) = Ok h ∧ new_exchanger 4 = Ok x ∧
    run_turns 16 w_streams_one 0
      [Thread true (Some [100; -100]); Thread true (Some [200]); Thread true (Some [300]); Main; Thread false (Some [1]);
       Main; Thread true (Some [400]); Main; Main] 0 (MkLine h x) [] =
    Ok [(map AlawEncode [100; -100], 2); (map AlawEncode [200], 3); (map AlawEncode [400], 5)].
Proof.
  destruct (sound_pipeline 2 16 4 (λ _, MkFrame 0 0 None 0 0 0 0 0 0 0 0 (replicate 16 0)) w_streams_one 0 1 7
    (MkStream (lit "alaw") FORMAT_ALAW [1%nat] RunSource)
    [Thread true (Some [100; -100]); Thread true (Some [200]); Thread true (Some [300]); Main; Thread false (Some [1]);
     Main; Thread true (Some [400]); Main; Main]) as (h & x & E1 & E2 & E3); [lia|lia|lia|done..|].
  exists h, x. split; [exact E1|]. split; [exact E2|]. change 16 with (Z.of_nat 16). rewrite E3. by vm_compute.
Defined.
