(* ===== verification/JpegLoop.v ===== *)
(** * From the camera to the clients ([encoder-jpeg.c])

    [jpeg_loop] put together from its parts: the camera, the date on the picture, the JPEG
    device, the frame pool and the exchanger.  Together with the main loop, in any order, the
    clients get the pictures of the JPEG device as through a bounded queue. *)

From S2P Require Import Prelude Pixels JpegEnc TextOverlap Caption Frame Stream Encoder Capture V4L.

Local Open Scope Z_scope.
Local Open Scope c_scope.

(** ** The start of the thread *)

Definition zero_video : S_NM_VIDEOCTX := MkVideo None 0 0 0 0 0 0 0 0 0 0 0 0 0.

Definition video_ctx (w h color bitrate framerate : Z) : S_NM_VIDEOCTX := MkVideo None 0 0 0 0 color bitrate framerate w h w h 0 0.

Definition planner_ctx (en : jpeg_encoder) : S_NM_VIDEOCTX := video_ctx (je_u32VinPlannerWidth en) (je_u32VinPlannerHeight en) eNM_COLOR_YUV420P 0 0.

Definition packet_ctx (en : jpeg_encoder) : S_NM_VIDEOCTX := video_ctx (je_u32VinPacketWidth en) (je_u32VinPacketHeight en) eNM_COLOR_YUV422 0 0.

Definition dst_ctx (en : jpeg_encoder) : S_NM_VIDEOCTX :=
  if truth (je_u32JpegPacketPipe en)
  then video_ctx (je_u32VinPacketWidth en) (je_u32VinPacketHeight en) eNM_COLOR_YUV420 (u32 (je_bitrate en)) DEF_FRAME_RATE
  else video_ctx (je_u32JpegWidth en) (je_u32JpegHeight en) eNM_COLOR_YUV420P (u32 (je_bitrate en)) DEF_FRAME_RATE.

(** What [malloc] gives to [TextOverlap_Init]. *)
Record text_memory := MkTextMem { tx_img : option (list Z); tx_bgimg : option (list Z); tx_block : option (Z * Z) }.

Definition text_handle (en : jpeg_encoder) (t : text_memory) : option S_TEXT_OVERLAP :=
  if truth (je_u32Overlapping en) then
    TextOverlap_Init DIGIT_8_16_WIDTH DIGIT_8_16_HEIGHT (if truth (je_u32JpegPacketPipe en) then eIMGPROC_YUV422 else eIMGPROC_YUV420P)
      DEF_MAX_OVERLAP_TEXT 0xFF 0x80 0x80 (tx_img t) (tx_bgimg t) (tx_block t)
  else None.

Section loop.
Context {D : Type} {drv : driver D}.

(** The variables of the thread, with those of the camera and of the JPEG device. *)
Record jpeg_thread := MkThread {
  th_vid : S_V4L_VID_DATA; th_drv : D;
  th_planner : S_NM_VIDEOCTX; th_packet : S_NM_VIDEOCTX; th_dst : S_NM_VIDEOCTX;
  th_dev : jpeg_device; th_text : option S_TEXT_OVERLAP; th_pace : pace }.

(** What opening the JPEG device needs ([InitJpegDevice]). *)
Record jpeg_open := MkJpegOpen { jo_tries : list (Z * option Z); jo_info : bool; jo_buf : option (list Z) }.

(** [jpeg_loop] up to its loop; [None]: the thread ends.  [now] is the time. *)
Definition jpeg_start (en : jpeg_encoder) (t : text_memory) (jo : jpeg_open) (now : Z) (dev : jpeg_device) (v : S_V4L_VID_DATA) (d : D)
    : outcome (option jpeg_thread) :=
  let text := text_handle en t in
  '(r, v, d) ← InitV4LDevice (planner_ctx en) (packet_ctx en) v d;
  if negb (r.1 =? ERR_V4L_SUCCESS) then Ok None else
  '(i32JpegRet, dev) ← InitJpegDevice (jo_tries jo) (jo_info jo) (jo_buf jo) dev;
  if i32JpegRet <=? 0 then Ok None else
  '(_, v, d) ← StartV4LCapture v d;
  Ok (Some (MkThread v d r.2 (packet_ctx en) (dst_ctx en) dev text (MkPace now 0))).

(** ** A turn *)

(** What a turn is told: whether the encoder runs, the time at its head and when the picture
    was there, the local time and what is in the array for it, and what the JPEG device
    says. *)
Record turn_input := MkIn {
  in_running : bool; in_now : Z; in_cur : Z; in_time : option tm; in_array : list Z; in_info : option (list Z * Z) }.

(** The date on one of the pictures. *)
Definition overlay (en : jpeg_encoder) (i : turn_input) (text : option S_TEXT_OVERLAP) (planner packet : S_NM_VIDEOCTX)
    : outcome (option S_TEXT_OVERLAP * S_NM_VIDEOCTX * S_NM_VIDEOCTX) :=
  if truth (je_u32Overlapping en) then
    if truth (je_u32JpegPacketPipe en) then
      '(text, c) ← DateOverlap (in_array i) (in_time i) text (Some packet); Ok (text, planner, or_else c packet)
    else '(text, c) ← DateOverlap (in_array i) (in_time i) text (Some planner); Ok (text, or_else c planner, packet)
  else Ok (text, planner, packet).

(** The bytes of the encoded picture. *)
Definition encoded (dst : S_NM_VIDEOCTX) : outcome (list Z) :=
  match pDataVAddr dst with
  | Some b => if Z.of_nat (length b) <? u32DataSize dst then Undef else Ok (take (Z.to_nat (u32DataSize dst)) b)
  | None => Undef
  end.

(** A picture: [None] when the camera or the encoder has none. *)
Definition jpeg_picture (en : jpeg_encoder) (i : turn_input) (th : jpeg_thread) : outcome (option (Z * Z * list Z) * jpeg_thread) :=
  '(r, v, d) ← ReadV4LPictures (Some (th_planner th)) (Some (th_packet th)) (th_vid th) (th_drv th);
  let '(e, x, y) := r in
  let planner := or_else x (th_planner th) in
  let packet := or_else y (th_packet th) in
  if negb (e =? ERR_V4L_SUCCESS) then Ok (None, MkThread v d planner packet (th_dst th) (th_dev th) (th_text th) (th_pace th)) else
  '(text, planner, packet) ← overlay en i (th_text th) planner packet;
  '(_, dev) ← JpegEnc (if truth (je_u32JpegPacketPipe en) then packet else planner) (th_dst th) (th_dev th);
  '(_, v, d) ← TriggerV4LNextFrame v d;
  '(i32JpegRet, dst, dev) ← WaitJpegEncDone (in_info i) (th_dst th) dev;
  let th := MkThread v d planner packet dst dev text (th_pace th) in
  if i32JpegRet <=? 0 then Ok (None, th) else
  b ← encoded dst;
  Ok (Some (u32Width dst, u32Height dst, b), th).

Definition jpeg_loop_turn (en : jpeg_encoder) (max : Z) (i : turn_input) (th : jpeg_thread) (l : line)
    : outcome (option (list Z) * jpeg_thread * line) :=
  if negb (in_running i) then Ok (None, th, l) else
  if in_now i + 10 <? pc_next (th_pace th) then Ok (None, th, l) else
  '(pic, th) ← jpeg_picture en i th;
  '(p, l) ← jpeg_turn (u32 (je_bitrate en)) max true (in_now i) (in_cur i) pic (th_pace th) l;
  Ok (match pic with Some p => Some p.2 | None => None end,
      MkThread (th_vid th) (th_drv th) (th_planner th) (th_packet th) (th_dst th) (th_dev th) (th_text th) p, l).

(** ** The thread and the main loop *)

Inductive video_event := VThread (i : turn_input) | VMain.

(** What is seen: the picture of a turn of the thread, or that the main loop looked for one. *)
Inductive shown := Picture (b : option (list Z)) | Fetch.

Fixpoint video_run (en : jpeg_encoder) (max : Z) (w : streams) (s : nat) (es : list video_event) (th : jpeg_thread) (l : line) (out : list block)
    : outcome (list block * list shown) :=
  match es with
  | [] => Ok (out, [])
  | VThread i :: es =>
      '(b, th, l) ← jpeg_loop_turn en max i th l;
      '(out, t) ← video_run en max w s es th l out;
      Ok (out, Picture b :: t)
  | VMain :: es =>
      '(l, out) ← main_turn w s l out;
      '(out, t) ← video_run en max w s es th l out;
      Ok (out, Fetch :: t)
  end.

End loop.
Arguments jpeg_thread : clear implicits.

(** The bounded queue between the two: a picture that is too large or finds no room is
    dropped. *)
Fixpoint queue_run (max : Z) (cap : nat) (t : list shown) (q out : list (list Z)) : list (list Z) :=
  match t with
  | [] => out
  | Picture (Some b) :: t =>
      if (Z.of_nat (length b) <=? max) && (length q <? cap)%nat then queue_run max cap t (q ++ [b]) out else queue_run max cap t q out
  | Picture None :: t => queue_run max cap t q out
  | Fetch :: t => queue_run max cap t (tail q) (out ++ option_list (head q))
  end.

(** The picture of a turn is what the JPEG device said in that turn: the bytes behind the
    1024 it keeps for itself. *)
Definition reported (e : video_event) (x : shown) : Prop :=
  match e, x with
  | VThread i, Picture (Some b) => in_running i = true ∧ ∃ buf size, in_info i = Some (buf, size) ∧ 0 < size ∧ b = take (Z.to_nat size) (drop 1024 buf)
  | VThread _, Picture None => True
  | VMain, Fetch => True
  | _, _ => False
  end.

(** The device says a size that fits its buffer. *)
Definition sane_event (e : video_event) : Prop :=
  match e with
  | VThread i => ∀ buf size, in_info i = Some (buf, size) → 0 <= size < 2 ^ 31 ∧ 1024 + size <= Z.of_nat (length buf)
  | VMain => True
  end.

(** ** The JPEG device *)

Lemma init_table_ok n i tbl : table_ok tbl → 0 <= i → i + Z.of_nat n <= 16 → returns (init_table n i tbl) table_ok.
Proof.
  revert i tbl. induction n as [|n IH]; intros i tbl Ht Hi Hn; cbn [init_table]; [by apply returns_Ok|]. unfold BRCInitTable.
  assert ((MAX_Q_SCALE <? i) = false) as -> by (unfold MAX_Q_SCALE; lia). unfold wrz. rewrite (proj2 (Z.leb_le 0 i)) by done. unfold table_ok in Ht.
  unfold wr. rewrite (proj2 (Nat.ltb_lt _ _)) by lia. rewrite !bind_Ok. apply IH; [unfold table_ok; by rewrite length_insert|lia|lia].
Qed.

Lemma InitJpegDevice_ok tries info buf dev : table_ok (s_au32BRCTable dev) →
  returns (InitJpegDevice tries info buf dev) (λ '(_, dev'), table_ok (s_au32BRCTable dev')).
Proof.
  intros Ht. unfold InitJpegDevice. destruct (open_device _ _ _) as [fd size]. destruct (fd <? 0); [by apply returns_Ok|].
  destruct info; cbn [negb]; [|by apply returns_Ok]. destruct buf as [b|]; [|by apply returns_Ok].
  eapply returns_bind; [apply init_table_ok; [done|lia|vm_compute; done]|]. intros tbl Htbl. by apply returns_Ok.
Qed.

(** Starting the encoder on a picture of the camera, and waiting for it. *)
Lemma start_encoder src dst dev : pDataPAddr src ≠ 0 → u32FrameRate dst ≠ 0 → table_ok (s_au32BRCTable dev) →
  returns (JpegEnc src dst dev) (λ '(_, dev'), table_ok (s_au32BRCTable dev') ∧ 1 <= s_u32QScale dev' <= MAX_Q_SCALE ∧ src_bufsize (s_sJpegParam dev') = 1024).
Proof.
  intros Hp Hf Ht. unfold JpegEnc. assert (truth (pDataPAddr src) = true) as -> by (unfold truth; by rewrite (proj2 (Z.eqb_neq _ _))).
  cbn [negb andb]. destruct (formats (eColorType dst)) as [sf df].
  destruct (BRCGetQScale_ok (u32BitRate dst) (u32FrameRate dst) (s_au32BRCTable dev) Ht Hf) as ([q tbl] & -> & Ht' & Hq). rewrite !bind_Ok.
  apply returns_Ok. cbn. split; [done|]. split; [apply Hq|done].
Qed.

Lemma wait_encoder info dst dev : 1 <= s_u32QScale dev <= MAX_Q_SCALE → table_ok (s_au32BRCTable dev) → src_bufsize (s_sJpegParam dev) = 1024 →
  returns (WaitJpegEncDone info dst dev) (λ '(e, dst', dev'), table_ok (s_au32BRCTable dev') ∧ u32FrameRate dst' = u32FrameRate dst ∧
    match info with
    | Some (buf, size) => e = i32 size ∧ u32DataSize dst' = size ∧ pDataVAddr dst' = Some (drop 1024 buf)
    | None => e = -1
    end).
Proof.
  intros Hq Ht Hs. unfold WaitJpegEncDone. destruct info as [[buf size]|]; [|by apply returns_Ok].
  destruct (BRCUpdateTable_ok (s_u32QScale dev) size (s_au32BRCTable dev) Ht Hq) as ([b tbl] & -> & _ & Ht2 & _). rewrite bind_Ok. apply returns_Ok. cbn. by rewrite Hs.
Qed.

(** ** The thread *)

Section thread.
Context {D : Type} {drv : driver D} {cam : camera D}.
Context (en : jpeg_encoder).
Hypothesis Hen : je_u32Overlapping en = 0.

Definition thread_ok (m : video_mbuf) (size : nat) (th : jpeg_thread D) : Prop :=
  cam_ok m size (th_vid th) (th_drv th) ∧ table_ok (s_au32BRCTable (th_dev th)) ∧ u32FrameRate (th_dst th) ≠ 0.

Lemma jpeg_start_ok t jo now dev v d : table_ok (s_au32BRCTable dev) →
  returns (jpeg_start en t jo now dev v d) (λ o, ∀ th, o = Some th → ∃ m, thread_ok m (length (mem d)) th).
Proof using cam.
  intros Ht. unfold jpeg_start. destruct (init_runs (planner_ctx en) (packet_ctx en) v d) as (r & v1 & d1 & -> & H). rewrite bind_Ok.
  destruct (Z.eqb_spec r.1 ERR_V4L_SUCCESS) as [He|]; cbn [negb]; [|by apply returns_Ok]. destruct (H He) as (m & Hc & E0).
  destruct (InitJpegDevice_ok (jo_tries jo) (jo_info jo) (jo_buf jo) dev Ht) as ([ret dev1] & -> & Ht1). rewrite bind_Ok. destruct (ret <=? 0); [by apply returns_Ok|].
  destruct (start_runs v1 d1 m _ Hc E0) as (e & v2 & d2 & -> & Hc2 & _). rewrite bind_Ok. apply returns_Ok. intros th [= <-]. exists m. split; [done|].
  split; [done|]. cbn [th_dst]. unfold dst_ctx. by destruct (truth _).
Qed.

Lemma jpeg_picture_ok m size i th : thread_ok m size th → sane_event (VThread i) →
  returns (jpeg_picture en i th) (λ '(pic, th'), thread_ok m size th' ∧ th_pace th' = th_pace th ∧
    ∀ p, pic = Some p → ∃ buf n, in_info i = Some (buf, n) ∧ 0 < n ∧ Z.of_nat (length p.2) = n ∧ p.2 = take (Z.to_nat n) (drop 1024 buf)).
Proof using cam Hen.
  intros (Hc & Ht & Hf) Hs. unfold jpeg_picture. destruct (read_runs (th_planner th) (th_packet th) _ _ m size Hc) as ([[e x] y] & v1 & d1 & -> & Hc1 & _ & Hp).
  rewrite bind_Ok. cbn [fst snd] in Hp. destruct (Z.eqb_spec e ERR_V4L_SUCCESS) as [He|]; cbn [negb]; [|by apply returns_Ok].
  destruct (Hp He) as (_ & (cx & Mx & -> & Hax & _) & (cy & My & -> & Hay & _)). cbn [or_else]. unfold overlay. rewrite Hen. change (truth 0) with false. cbn iota. rewrite bind_Ok.
  destruct (start_encoder (if truth (je_u32JpegPacketPipe en) then cy else cx) (th_dst th) (th_dev th)) as ([e1 dev1] & -> & Ht1 & Hq1 & Hb1); [by destruct (truth _)|done|done|].
  rewrite bind_Ok. destruct (trigger_runs v1 d1 m size Hc1) as (e2 & v2 & d2 & -> & Hc2 & _). rewrite bind_Ok.
  destruct (wait_encoder (in_info i) (th_dst th) dev1 Hq1 Ht1 Hb1) as ([[e3 dst] dev2] & -> & Ht2 & Hf2 & Hi). rewrite bind_Ok.
  assert (thread_ok m size (MkThread v2 d2 cx cy dst dev2 (th_text th) (th_pace th))) as Hok by (split_and!; [done|done|cbn; congruence]).
  destruct (Z.leb_spec e3 0); [by apply returns_Ok|]. destruct (in_info i) as [[buf n]|] eqn:Ei; [|lia]. destruct Hi as (-> & En & Ev).
  destruct (Hs buf n Ei) as [Hn Hl]. rewrite i32_small in * by lia. unfold encoded. rewrite Ev, En.
  assert (Z.of_nat (length (drop 1024 buf)) = Z.of_nat (length buf) - 1024) as Hd by (rewrite length_drop; lia).
  rewrite (proj2 (Z.ltb_ge _ _)) by lia. rewrite bind_Ok. apply returns_Ok. split_and!; [apply Hok..|done|]. intros p [= <-]. cbn [snd]. exists buf, n.
  split_and!; [done|lia| |done]. rewrite length_take. lia.
Qed.

(** *** The pool *)

Context (count size slots : nat).
Hypothesis Hsize : Z.of_nat size < 2 ^ 32.
Abbreviation cap := (Nat.min count (slots - 1)).

(** What is queued after a picture. *)
Definition queued (q : list (list Z)) (b : option (list Z)) : list (list Z) :=
  match b with Some b => if (Z.of_nat (length b) <=? Z.of_nat size) && (length q <? cap)%nat then q ++ [b] else q | None => q end.

Lemma update_time_ok br rate n u : n ≠ 0 → returns (update_frame_time br rate n u) (λ _, True).
Proof using. intros Hn. unfold update_frame_time. destruct (br =? 0); [by apply returns_Ok|]. rewrite (proj2 (Z.eqb_neq _ _)) by done. by apply returns_Ok. Qed.

Lemma jpeg_turn_ok l free ids q br now cur pic p :
  line_inv count size slots l free ids q → (now + 10 <? pc_next p) = false → (∀ x, pic = Some x → (0 < length x.2)%nat) →
  ∃ p' l' free' ids' q', jpeg_turn br (Z.of_nat size) true now cur pic p l = Ok (p', l') ∧ line_inv count size slots l' free' ids' q' ∧
    map fst q' = queued (map fst q) (match pic with Some x => Some x.2 | None => None end).
Proof using Hsize.
  intros Hl Hnow Hpic. unfold jpeg_turn. cbn [negb]. rewrite Hnow. destruct pic as [[[w h] b]|]; [|by exists p, l, free, ids, q]. specialize (Hpic _ eq_refl). cbn [snd] in *.
  rewrite u32_small by lia. unfold queued. destruct (Z.ltb_spec (Z.of_nat size) (Z.of_nat (length b))) as [Hbig|Hfit].
  { rewrite (proj2 (Z.leb_gt _ _)) by lia. by exists p, l, free, ids, q. }
  rewrite (proj2 (Z.leb_le _ _)), length_map by done. cbn [andb].
  destruct (offer_frame count size slots l free ids q b Hl ltac:(lia)) as [[-> Hq]|(id & h1 & -> & Hf)]; rewrite bind_Ok.
  - rewrite (proj2 (Nat.ltb_ge _ _)) by lia. exists p, l, free, ids, q. split; [by destruct l|done].
  - destruct (Hf FORMAT_JPEG w h (match h_frames h1 !! id with Some f => f_timestamp f | None => 0 end)) as (h2 & r & x & h3 & free' & ids' & -> & E3 & Hl').
    rewrite bind_Ok, E3, bind_Ok. destruct (update_time_ok br DEF_FRAME_RATE (Z.of_nat (length b)) (pc_update p) ltac:(lia)) as (u & -> & _). rewrite bind_Ok.
    eexists _, _, free', ids', _. split; [done|]. split; [exact Hl'|]. destruct (length q <? cap)%nat; [by rewrite map_app|done].
Qed.

Lemma loop_turn_ok m msize i th l free ids q :
  thread_ok m msize th → sane_event (VThread i) → line_inv count size slots l free ids q →
  ∃ b th' l' free' ids' q', jpeg_loop_turn en (Z.of_nat size) i th l = Ok (b, th', l') ∧ thread_ok m msize th' ∧
    line_inv count size slots l' free' ids' q' ∧ map fst q' = queued (map fst q) b ∧ reported (VThread i) (Picture b).
Proof using cam Hen Hsize.
  intros Hth Hs Hl. unfold jpeg_loop_turn. destruct (in_running i) eqn:Hr; cbn [negb]; [|by exists None, th, l, free, ids, q].
  destruct (in_now i + 10 <? pc_next (th_pace th)) eqn:Hnow; [by exists None, th, l, free, ids, q|].
  destruct (jpeg_picture_ok m msize i th Hth Hs) as ([pic th1] & -> & Hth1 & Hpace & Hpic). rewrite bind_Ok, Hpace.
  destruct (jpeg_turn_ok l free ids q (u32 (je_bitrate en)) (in_now i) (in_cur i) pic (th_pace th) Hl Hnow) as (p' & l' & free' & ids' & q' & -> & Hl' & Eq).
  { intros x ->. destruct (Hpic _ eq_refl) as (buf & n & _ & Hn & Hlen & _). lia. }
  rewrite bind_Ok. eexists _, _, l', free', ids', q'. split; [done|]. split; [apply Hth1|]. split; [done|]. split; [done|].
  destruct pic as [x|]; [|done]. cbn [reported]. destruct (Hpic _ eq_refl) as (buf & n & Ei & Hn & _ & Eb). split; [done|]. by exists buf, n.
Qed.

Context (w : streams) (s d k : nat) (sx : stream).
Hypothesis Es : st_streams w !! s = Some sx.
Hypothesis Ed : s_dest_list sx = [d].
Hypothesis Hd : st_dests w !! d = Some (MkDest s 1 (Client k)).

Lemma video_run_ok m msize es th l free ids q out :
  thread_ok m msize th → Forall sane_event es → line_inv count size slots l free ids q →
  ∃ out' t, video_run en (Z.of_nat size) w s es th l out = Ok (out', t) ∧
    map fst out' = queue_run (Z.of_nat size) cap t (map fst q) (map fst out) ∧ Forall2 reported es t.
Proof using All.
  revert th l free ids q out. induction es as [|e es IH]; intros th l free ids q out Hth Hes Hl; [by exists out, []|].
  apply Forall_cons in Hes as [He Hes]. cbn [video_run]. destruct e as [i|].
  - destruct (loop_turn_ok m msize i th l free ids q Hth He Hl) as (b & th' & l' & free' & ids' & q' & -> & Hth' & Hl' & Eq & Hr). rewrite bind_Ok.
    destruct (IH th' l' free' ids' q' out Hth' Hes Hl') as (out' & t & -> & E & HF). rewrite bind_Ok. exists out', (Picture b :: t). split; [done|]. split; [|by constructor].
    rewrite E, Eq. cbn [queue_run]. destruct b as [b|]; [|done]. unfold queued. by destruct (_ && _).
  - destruct (main_turn_ok count size slots Hsize w s d k sx Es Ed Hd l free ids q out Hl) as (l' & free' & ids' & -> & Hl'). rewrite bind_Ok.
    destruct (IH th l' free' ids' (tail q) (out ++ option_list (head q)) Hth Hes Hl') as (out' & t & -> & E & HF). rewrite bind_Ok. exists out', (Fetch :: t).
    split; [done|]. split; [|by constructor]. rewrite E. cbn [queue_run]. rewrite map_app. by destruct q.
Qed.

End thread.

(** ** Properties *)


(** A camera of two buffers that is always ready, a JPEG device that gives pictures of three
    bytes, and a main loop that is slower than the thread at first. *)
Definition w_jpeg_encoder : jpeg_encoder := MkJpegEnc None None 0 640 480 320 240 640 480 0 0.
Definition w_buffer (b : Z) : list Z := replicate 1024 0 ++ [b; b + 1; b + 2].
Definition w_input (now b : Z) : turn_input := MkIn true now now None [] (Some (w_buffer b, 3)).
Definition w_events : list video_event := [VThread (w_input 100 10); VThread (w_input 200 20); VThread (w_input 300 30); VMain; VMain; VThread (w_input 400 40); VMain; VMain].

Definition w_video_streams : streams :=
  MkStreams [0%nat] {[ 0%nat := MkStream [] FORMAT_JPEG [1%nat] RunSource ]} {[ 1%nat := MkDest 0 1 (Client 7) ]} ∅ 2.

