(* ===== verification/AlawLoop.v ===== *)
(** * From the microphone to the clients ([encoder-alaw.c])

    [alaw_loop] put together from its parts: the recorder, the A-law code, the frame pool and
    the exchanger, run together with the main loop in any order.  The client gets the
    sound that the driver of the microphone delivered, cut into frames, coded sample by
    sample, as through a bounded queue. *)

From S2P Require Import Prelude Pixels Oss Frame Stream Encoder Capture.

Local Open Scope Z_scope.

(** ** The thread *)

Definition DEF_AUDIO_FRAME_SIZE : Z := 8192.

(** [u32PCMFrameSize] is [DEF_AUDIO_FRAME_SIZE]; [pu8PCMBuf] is what [malloc] gives.  [None]:
    the thread ends. *)
Definition alaw_start (u32PCMFrameSize : Z) (pu8PCMBuf : option (list Z)) (o : open_input) (ctx : S_NM_AUDIOCTX) (s : S_OSS_REC_DATA)
    : outcome (option (S_NM_AUDIOCTX * S_OSS_REC_DATA)) :=
  match pu8PCMBuf with
  | None => Ok None
  | Some buf =>
      '(eErr, c, s) ← OSS_RecOpen o (Some ctx) s;
      if negb (eErr =? ERR_OSS_NONE) then Ok None else
      let s := OSS_RecSetFrameSize u32PCMFrameSize s in
      let c := match c with Some c => c | None => ctx end in
      Ok (Some (MkAudio buf (a_u32DataSize c) u32PCMFrameSize (a_u64DataTime c) (u32ChannelNum c) (u32SampleNum c) (u32SampleRate c), s))
  end.

(** The samples of a block: 16 bits, the low byte first, with a sign. *)
Fixpoint samples (l : list Z) : list Z :=
  match l with a :: b :: l => (let v := a + 256 * b in if 32768 <=? v then v - 65536 else v) :: samples l | _ => [] end.

(** The bytes of the block that [OSS_RecRead] left. *)
Definition block_of (ctx : S_NM_AUDIOCTX) : list Z := take (Z.to_nat (a_u32DataSize ctx)) (a_pDataVAddr ctx).

Definition alaw_loop_turn (max : Z) (running : bool) (i : rec_input) (ctx : S_NM_AUDIOCTX) (s : S_OSS_REC_DATA) (timestamp : Z) (l : line)
    : outcome (option (list Z) * S_NM_AUDIOCTX * S_OSS_REC_DATA * Z * line) :=
  '(eErr, ctx, s) ← OSS_RecRead i ctx s;
  let b := if eErr =? ERR_OSS_NONE then Some (block_of ctx) else None in
  '(timestamp, l) ← alaw_turn max running (match b with Some b => Some (samples b) | None => None end) timestamp l;
  Ok (b, ctx, s, timestamp, l).

(** The thread and the main loop. *)
Inductive audio_event := AThread (running : bool) (i : rec_input) | AMain.

(** What the client got, the blocks that were recorded, and the turns as [Capture] has them. *)
Fixpoint audio_run (max : Z) (w : streams) (st : nat) (es : list audio_event) (ctx : S_NM_AUDIOCTX) (s : S_OSS_REC_DATA) (timestamp : Z) (l : line)
    (out : list block) : outcome (list block * list (list Z) * list turn) :=
  match es with
  | [] => Ok (out, [], [])
  | AThread running i :: es =>
      '(b, ctx, s, timestamp, l) ← alaw_loop_turn max running i ctx s timestamp l;
      '(out, bs, ts) ← audio_run max w st es ctx s timestamp l out;
      Ok (out, option_list b ++ bs, Thread running (match b with Some b => Some (samples b) | None => None end) :: ts)
  | AMain :: es =>
      '(l, out) ← main_turn w st l out;
      '(out, bs, ts) ← audio_run max w st es ctx s timestamp l out;
      Ok (out, bs, Main :: ts)
  end.

(** What the driver delivers in the turns of the thread. *)
Fixpoint inputs (es : list audio_event) : list rec_input :=
  match es with [] => [] | AThread _ i :: es => i :: inputs es | AMain :: es => inputs es end.

(** The blocks in the turns of the thread. *)
Fixpoint recorded (ts : list turn) : list (list Z) :=
  match ts with [] => [] | Thread _ r :: ts => option_list r ++ recorded ts | Main :: ts => recorded ts end.

(** ** The run *)

Section run.
Context (bufsize drv out rate ch : Z) (count size slots : nat) (w : streams) (st d k : nat) (sx : stream).
Hypothesis Hdrv : 0 < drv <= out.
Hypothesis Hbuf : out + drv <= bufsize + 1 ∧ bufsize < 2 ^ 31.
Hypothesis Hsize : Z.of_nat size < 2 ^ 32.
Hypothesis Es : st_streams w !! st = Some sx.
Hypothesis Ed : s_dest_list sx = [d].
Hypothesis Hd : st_dests w !! d = Some (MkDest st 1 (Client k)).

Lemma any_turn_ok running rec l free ids q timestamp : line_inv count size slots l free ids q →
  ∃ ts' l' free' ids' q', alaw_turn (Z.of_nat size) running rec timestamp l = Ok (ts', l') ∧ line_inv count size slots l' free' ids' q' ∧
    ∀ ts out, run_blocks (Z.of_nat size) (Nat.min count (slots - 1)) (Thread running rec :: ts) timestamp q out =
      run_blocks (Z.of_nat size) (Nat.min count (slots - 1)) ts ts' q' out.
Proof using Hsize.
  intros Hl. destruct running, rec as [pcm|]; try by exists timestamp, l, free, ids, q.
  destruct (thread_turn_ok count size slots Hsize l free ids q timestamp pcm Hl) as (l' & free' & ids' & E & Hl').
  eexists _, l', free', ids', _. split; [exact E|]. split; [exact Hl'|]. intros ts o. cbn [run_blocks]. by destruct (_ && _).
Qed.

Lemma audio_run_ok es ctx s q timestamp l free ids bq res :
  calm bufsize drv out s q → Z.of_nat (length q) < out → caller out rate ch ctx → timely drv out rate ch (inputs es) ctx s q →
  line_inv count size slots l free ids bq →
  ∃ res' bs ts rest, audio_run (Z.of_nat size) w st es ctx s timestamp l res = Ok (res', bs, ts) ∧
    res' = run_blocks (Z.of_nat size) (Nat.min count (slots - 1)) ts timestamp bq res ∧ recorded ts = map samples bs ∧
    Z.of_nat (length rest) < out ∧ concat bs ++ rest = q ++ concat (map in_data (inputs es)) ∧ Forall (λ b, Z.of_nat (length b) = out) bs.
Proof using All.
  revert ctx s q timestamp l free ids bq res. induction es as [|e es IH]; intros ctx s q timestamp l free ids bq res Hs Hq Hc Ht Hl.
  { exists res, [], [], q. cbn. by rewrite app_nil_r. }
  destruct e as [running i|]; cbn [audio_run inputs].
  - destruct Ht as (Hr & (f & Hck & Hf) & Hnext). unfold alaw_loop_turn.
    destruct (read_calm bufsize drv out rate ch Hdrv Hbuf i ctx s q (in_data i) f Hs Hq Hc Hr Hck Hf) as ([[e ctx'] s'] & E & Hc' & Hcase).
    rewrite E, bind_Ok. specialize (Hnext _ _ _ E). destruct Hcase as [(-> & Hs' & Hlt) | (-> & Esz & Edt & Hge & Hs' & Hlt)].
    + change (ERR_OSS_NOT_READY =? ERR_OSS_NONE) with false. cbv iota zeta. rewrite (proj2 (Z.ltb_lt _ _)) in Hnext by done.
      destruct (any_turn_ok running None l free ids bq timestamp Hl) as (ts' & l' & free' & ids' & q' & -> & Hl' & Hb). rewrite !bind_Ok.
      destruct (IH ctx' s' _ ts' l' free' ids' q' res Hs' Hlt Hc' Hnext Hl') as (res' & bs & ts & rest & -> & Eres & Erec & Hrest & Ecat & Hall).
      rewrite bind_Ok. eexists res', bs, (Thread running None :: ts), rest. split_and!; try done; [by rewrite Hb|]. rewrite Ecat. cbn [map concat]. by rewrite app_assoc.
    + change (ERR_OSS_NONE =? ERR_OSS_NONE) with true. cbv iota zeta. rewrite (proj2 (Z.ltb_ge _ _)) in Hnext by done.
      destruct (any_turn_ok running (Some (samples (block_of ctx'))) l free ids bq timestamp Hl) as (ts' & l' & free' & ids' & q' & -> & Hl' & Hb). rewrite !bind_Ok.
      destruct (IH ctx' s' _ ts' l' free' ids' q' res Hs' Hlt Hc' Hnext Hl') as (res' & bs & ts & rest & -> & Eres & Erec & Hrest & Ecat & Hall).
      rewrite bind_Ok. eexists res', (block_of ctx' :: bs), (Thread running (Some (samples (block_of ctx'))) :: ts), rest.
      assert (block_of ctx' = take (Z.to_nat out) (q ++ in_data i)) as Eb by (unfold block_of; by rewrite Esz, Edt, take_take, Nat.min_id).
      split_and!; try done; [by rewrite Hb|by cbn; rewrite Erec| |].
      * cbn [map concat]. rewrite <- app_assoc, Ecat, Eb, !app_assoc, take_drop. done.
      * constructor; [|done]. rewrite Eb, length_take. lia.
  - destruct (main_turn_ok count size slots Hsize w st d k sx Es Ed Hd l free ids bq res Hl) as (l' & free' & ids' & -> & Hl'). rewrite bind_Ok.
    destruct (IH ctx s q timestamp l' free' ids' (tail bq) (res ++ option_list (head bq)) Hs Hq Hc Ht Hl') as (res' & bs & ts & rest & -> & Eres & Erec & Hrest & Ecat & Hall).
    rewrite bind_Ok. by eexists res', bs, (Main :: ts), rest.
Qed.
End run.

(** A recorder that opens has told its caller. *)
Lemma open_ctx o ctx s c s' : OSS_RecOpen o (Some ctx) s = Ok (ERR_OSS_NONE, c, s') → ∃ ctx', c = Some ctx'.
Proof.
  unfold OSS_RecOpen. destruct (0 <? i32RecFD s).
  { destruct (tell_size s ctx) as [c'| | |]; try done. rewrite bind_Ok. intros [= <- <-]. by eexists. }
  destruct (op_fd o <? 0); [done|]. destruct (op_channels o); [|done]. destruct (op_speed o); [|done]. destruct (op_recv o _); [|done].
  destruct (op_pre o _); [|done]. destruct (op_post o _); [|done]. destruct (tell_size _ _) as [c'| | |]; try done. rewrite bind_Ok. intros [= <- <-]. by eexists.
Qed.

(** ** Properties *)


(** Blocks of 4 bytes, frames of 8, and one client. *)
Definition w_audio_events : list audio_event :=
  [AThread true (w_block 1125 [1; 0; 2; 0]); AThread true (w_block 1250 [3; 0; 255; 255]); AMain; AThread true (w_block 1375 [9; 10; 11; 12]); AMain].
Definition w_audio_streams : streams :=
  MkStreams [0%nat] {[ 0%nat := MkStream [] FORMAT_ALAW [1%nat] RunSource ]} {[ 1%nat := MkDest 0 1 (Client 7) ]} ∅ 2.
Definition w_audio_ctx : S_NM_AUDIOCTX := MkAudio (replicate 8 0) 16 8 0 1 8 16.

