(* ===== verification/Rtcp.v ===== *)
(** * RTCP feedback ([rtcp-parse.c], [qos-analyzer.c])

    The endpoint record of [rtp.h], the parser of compound RTCP packets, the round-trip
    time it computes and the analyser that turns receiver reports into suggestions.

    Floating point is modelled exactly, as integers in a fixed unit: the round-trip
    time in [2^-16] s (the division by 65536.0 is exact), the loss rate in 1/64 percent
    ([100.0 * n / 256.0] is [25 n / 64], exact for a byte [n]), a [float] made of an
    integer by rounding it to 24 significant bits. *)

From S2P Require Import Prelude Frame.

Local Open Scope Z_scope.
Local Open Scope c_scope.

(** ** Rounding to a [float] *)

(** A non-negative integer rounded to [p] significant bits, ties to even. *)
Definition rne (p n : Z) : Z :=
  let e := Z.log2 n + 1 - p in
  if e <=? 0 then n else
  let q := n / 2 ^ e in
  let r := n mod 2 ^ e in
  let up := (2 ^ (e - 1) <? r) || ((2 ^ (e - 1) =? r) && Z.odd q) in
  (if up then q + 1 else q) * 2 ^ e.

Definition to_float (n : Z) : Z := rne 24 n.

(** ** Data *)

Inductive E_RATE_CTRL_ACT_TYPE :=
| eRATE_CTRL_ACT_DO_NOTHING
| eRATE_CTRL_ACT_DEC_BITRATE
| eRATE_CTRL_ACT_DEC_PACKETRATE
| eRATE_CTRL_ACT_INC_QUALITY.

(** [i32Value] is [None] where the code leaves it unset. *)
Record S_RATE_CTRL_ACT := MkAct { eActType : E_RATE_CTRL_ACT_TYPE; i32Value : option Z }.

(** [fLostPercentage] in 1/64 percent; [fIntJitter] as the numerator and denominator of
    its quotient; [fRoundTripProp] in [2^-16] s, rounded to a [float]. *)
Record S_RTP_STATS := MkStats {
  u64HighSeqRecv : Z;
  fLostPercentage : Z;
  fIntJitter : Z * Z;
  fRoundTripProp : Z }.

Definition STATS_HISTORY : nat := 3.

Record SimpleQosAnalyser := MkQos {
  q_ssrc : Z;
  sStats : list S_RTP_STATS;
  i32CurIndex : nat;
  bRoundTripPropDoubled : bool }.

(** The transport of an endpoint: the union [trans] with its tag. *)
Inductive rtp_trans :=
| RTP_TRANS_NONE
| RTP_TRANS_UDP (sdp_port : Z) (rtp_fd rtcp_fd : Z)
| RTP_TRANS_INTER (conn : nat) (rtp_chan rtcp_chan : Z).

Record rtp_endpoint := MkEp {
  ep_payload : Z;
  ep_max_data_size : Z;
  ep_ssrc : Z;
  ep_start_timestamp : Z;
  ep_last_timestamp : Z;
  ep_seqnum : Z;
  ep_packet_count : Z;
  ep_octet_count : Z;
  ep_rtcp_event_enabled : bool;
  ep_force_rtcp : bool;
  ep_last_rtcp_recv : Z;
  ep_last_rtcp_send : Z;
  ep_trans : rtp_trans;
  ep_dRTT : Z;
  ep_qos : option SimpleQosAnalyser;
  ep_format : Z }.


(** ** Time *)

(** [(double)usec * 2^32 * 1.0e-6] and [(double)usec * 0x4000000 / 15625.0], converted to
    an unsigned integer: both are [usec * 2^26 / 15625] rounded to 53 bits, which is
    either an integer (and then exact) or at least 1/15625 away from one, so that the
    conversion gives the integer part. *)
Definition ntp_fraction (usec : Z) : Z := u32 (usec * 2 ^ 26 / 15625).

Definition ntp_seconds (sec : Z) : Z := u32 (sec + 0x83AA7E80).

(** [msw << 32 | lsw] on 64 bits; the sum is one of 32-bit unsigned numbers. *)
Definition TimevalToNTP (sec usec : Z) : Z :=
  u64 (ntp_seconds sec <<< 32) .| ntp_fraction usec.

(** ** Packets

    [S_RTCP_MBLK] is the list of bytes from [pu8ReadPtr] to [pu8WritePtr]. *)

Definition hdr_version (b0 : Z) : Z := b0 >>> 6.
Definition hdr_rc (b0 : Z) : Z := b0 .& 31.

(** [RTCPGetCommonHeader]: the first byte, the packet type and the length field. *)
Definition RTCPGetCommonHeader (blk : list Z) : option (Z * Z * Z) :=
  match blk with
  | b0 :: pt :: l0 :: l1 :: _ => Some (b0, pt, (l0 <<< 8) .| l1)
  | _ => None
  end.

Definition RTCPGetSize (blk : list Z) : Z :=
  match RTCPGetCommonHeader blk with
  | Some (_, _, len) => (1 + len) * 4
  | None => -1
  end.

Definition RTCPNextPacket (blk : list Z) : option (list Z) :=
  let n := RTCPGetSize blk in
  if (0 <=? n) && (n <? Z.of_nat (length blk)) then Some (drop (Z.to_nat n) blk) else None.

Definition sizeof_RTCP_RR : nat := 32.

Definition RTCPisRR (blk : list Z) : bool :=
  match RTCPGetCommonHeader blk with
  | Some (_, pt, _) => (pt =? 201) && negb (length blk <? sizeof_RTCP_RR)%nat
  | None => false
  end.

(** [struct S_RTCP_REPORT_BLOCK], fields in host order. *)
Record report_block := MkRB {
  rb_ssrc : Z; rb_lost : Z; rb_high_seq : Z; rb_jitter : Z; rb_lsr : Z; rb_dlsr : Z }.

Definition REPORT_BLOCK_GET_FRACTION_LOST (rb : report_block) : Z := rb_lost rb >>> 24.

(** Reading the block at a byte offset; [None] is a read past the end of the packet. *)
Definition read_report_block (p : list Z) : option report_block :=
  ssrc ← GET_32 p;
  lost ← GET_32 (drop 4 p);
  seq ← GET_32 (drop 8 p);
  jitter ← GET_32 (drop 12 p);
  lsr ← GET_32 (drop 16 p);
  dlsr ← GET_32 (drop 20 p);
  Some (MkRB ssrc lost seq jitter lsr dlsr).

(** [RTCP_RR_GetReportBlock(blk, idx)]: the block must lie in the length the packet
    declares; reading it outside the bytes received is undefined. *)
Definition RTCP_RR_GetReportBlock (blk : list Z) (idx : nat) : outcome (option report_block) :=
  let off := (8 + 24 * idx)%nat in
  if Z.of_nat (off + 24) <=? RTCPGetSize blk then
    match read_report_block (drop off blk) with
    | Some rb => Ok (Some rb)
    | None => Undef
    end
  else Ok None.

(** ** Round-trip time *)

(** [ComputeRTT]: the subtraction is one of 32-bit unsigned numbers, converted to
    [double] afterwards, so the test for a negative difference always succeeds. *)
Definition ComputeRTT (dRTT now_sec now_usec : Z) (rb : report_block) : Z :=
  let approx := u32 (TimevalToNTP now_sec now_usec >>> 16) in
  if negb (rb_lsr rb =? 0) && negb (rb_dlsr rb =? 0) then
    let frac := u32 (u32 (approx - rb_lsr rb) - rb_dlsr rb) in
    if 0 <=? frac then frac else dRTT
  else dRTT.

(** ** The analyser *)

(** [RoundTripPropDoubled]: the threshold is the [float] 0.2, [13421773 * 2^-26]. *)
Definition RoundTripPropDoubled (cur prev : S_RTP_STATS) : bool :=
  (13421773 <=? fRoundTripProp cur * 2 ^ 10) && (0 <? fRoundTripProp prev) &&
  (fRoundTripProp prev * 2 <=? fRoundTripProp cur).

Definition cur_stats (q : SimpleQosAnalyser) : outcome S_RTP_STATS :=
  rd (sStats q) (i32CurIndex q mod STATS_HISTORY).

Definition prev_stats (q : SimpleQosAnalyser) : outcome S_RTP_STATS :=
  rd (sStats q) ((STATS_HISTORY + i32CurIndex q - 1) mod STATS_HISTORY).

Definition RoundTripPropIncreased (q : SimpleQosAnalyser) : outcome (bool * SimpleQosAnalyser) :=
  cur ← cur_stats q;
  prev ← prev_stats q;
  if RoundTripPropDoubled cur prev then
    Ok (true, MkQos (q_ssrc q) (sStats q) (i32CurIndex q) true)
  else Ok (false, q).

(** [SimpleAnalyserProcRTCP]; [dRTT] is that of the endpoint. *)
Definition SimpleAnalyserProcRTCP (q : SimpleQosAnalyser) (dRTT : Z) (blk : list Z) (clock : Z)
    : outcome (bool * SimpleQosAnalyser) :=
  orb ← RTCP_RR_GetReportBlock blk 0;
  match orb with
  | None => Ok (false, q)
  | Some rb =>
      if rb_ssrc rb =? q_ssrc q then
        let i := S (i32CurIndex q) in
        let st := MkStats (rb_high_seq rb) (25 * REPORT_BLOCK_GET_FRACTION_LOST rb)
                    (1000 * to_float (rb_jitter rb), clock) (to_float dRTT) in
        stats ← wr (sStats q) (i mod STATS_HISTORY)%nat st;
        Ok (true, MkQos (q_ssrc q) stats i (bRoundTripPropDoubled q))
      else Ok (true, q)
  end.

(** [fLostPercentage >= 10], [> 50] and [(int32_t)fLostPercentage]; [fIntJitter >= 10]:
    a quotient by 90000 that is not 10 differs from it by more than either rounding. *)
Definition big_loss (st : S_RTP_STATS) : bool := 640 <=? fLostPercentage st.
Definition big_jitter (st : S_RTP_STATS) : bool := 10 * (fIntJitter st).2 <=? (fIntJitter st).1.

Definition SimpleAnalyserSuggestAction (q : SimpleQosAnalyser)
    : outcome (S_RATE_CTRL_ACT * SimpleQosAnalyser) :=
  cur ← cur_stats q;
  if big_loss cur && big_jitter cur then
    Ok (MkAct eRATE_CTRL_ACT_DEC_BITRATE
          (Some (if 3200 <? fLostPercentage cur then 50 else fLostPercentage cur / 64)), q)
  else
    '(inc, q) ← RoundTripPropIncreased q;
    if (inc : bool) then Ok (MkAct eRATE_CTRL_ACT_DEC_BITRATE (Some 20), q)
    else if big_loss cur then Ok (MkAct eRATE_CTRL_ACT_DEC_PACKETRATE None, q)
    else Ok (MkAct eRATE_CTRL_ACT_DO_NOTHING None, q).

Definition SimpleAnalyserHasImproved (q : SimpleQosAnalyser) : outcome (bool * SimpleQosAnalyser) :=
  cur ← cur_stats q;
  prev ← prev_stats q;
  if big_loss prev then Ok (fLostPercentage cur <? fLostPercentage prev, q)
  else if bRoundTripPropDoubled q && (fRoundTripProp cur <? fRoundTripProp prev) then
    Ok (true, MkQos (q_ssrc q) (sStats q) (i32CurIndex q) false)
  else Ok (false, q).

(** [memset] to zero, then the endpoint's [ssrc]. *)
Definition SimpleQOSAnalyserNew (ssrc : Z) : SimpleQosAnalyser :=
  MkQos ssrc (replicate STATS_HISTORY (MkStats 0 0 (0, 1) 0)) 0 false.

(** ** [ProcRTCPPacket] *)

Definition with_rtcp (ep : rtp_endpoint) (dRTT : Z) (q : option SimpleQosAnalyser) : rtp_endpoint :=
  MkEp (ep_payload ep) (ep_max_data_size ep) (ep_ssrc ep) (ep_start_timestamp ep)
    (ep_last_timestamp ep) (ep_seqnum ep) (ep_packet_count ep) (ep_octet_count ep)
    (ep_rtcp_event_enabled ep) (ep_force_rtcp ep) (ep_last_rtcp_recv ep) (ep_last_rtcp_send ep)
    (ep_trans ep) dRTT q (ep_format ep).

(** One packet of the compound; [acts] are the actions handed to
    [QOSAnalyser_SendSuggActCommand]. *)
Definition proc_one (ep : rtp_endpoint) (blk : list Z) (now_sec now_usec : Z)
    : outcome (rtp_endpoint * list S_RATE_CTRL_ACT) :=
  if RTCPisRR blk then
    orb ← RTCP_RR_GetReportBlock blk 0;
    match orb with
    | None => Ok (ep, [])
    | Some rb =>
        let rtt := ComputeRTT (ep_dRTT ep) now_sec now_usec rb in
        let ep := with_rtcp ep rtt (ep_qos ep) in
        if (ep_format ep =? FORMAT_H264) || (ep_format ep =? FORMAT_JPEG) then
          match ep_qos ep with
          | None => Ok (ep, [])
          | Some q =>
              '(found, q) ← SimpleAnalyserProcRTCP q rtt blk 90000;
              '(act, q) ← SimpleAnalyserSuggestAction q;
              Ok (with_rtcp ep rtt (Some q), [act])
          end
        else Ok (ep, [])
    end
  else Ok (ep, []).

(** The [do ... while (RTCPNextPacket)]: [clock] is the time [gettimeofday] returns on
    each round.  Every packet has at least four bytes, so [fuel > length blk] is enough. *)
Fixpoint proc_compound (fuel : nat) (ep : rtp_endpoint) (blk : list Z) (clock : nat → Z * Z)
    : outcome (rtp_endpoint * list S_RATE_CTRL_ACT) :=
  match fuel with
  | O => Diverge
  | S fuel =>
      '(ep, acts) ← proc_one ep blk (clock 0%nat).1 (clock 0%nat).2;
      match RTCPNextPacket blk with
      | None => Ok (ep, acts)
      | Some blk =>
          '(ep, acts') ← proc_compound fuel ep blk (λ n, clock (S n));
          Ok (ep, acts ++ acts')
      end
  end.

Definition ProcRTCPPacket (ep : rtp_endpoint) (data : list Z) (clock : nat → Z * Z)
    : outcome (rtp_endpoint * list S_RATE_CTRL_ACT) :=
  match data with
  | b0 :: _ :: _ :: _ :: _ =>
      if negb (hdr_version b0 =? 2) then Ok (ep, [])
      else proc_compound (S (length data)) ep data clock
  | _ => Ok (ep, [])
  end.

(** ** Packets: termination and memory safety *)

Definition wf_qos (q : SimpleQosAnalyser) : Prop :=
  length (sStats q) = STATS_HISTORY ∧ Forall (λ st, 0 <= fLostPercentage st) (sStats q).

Definition wf_ep_qos (ep : rtp_endpoint) : Prop :=
  match ep_qos ep with Some q => wf_qos q | None => True end.

(** A suggestion to lower the bit rate names a percentage from 10 to 50. *)
Definition act_ok (a : S_RATE_CTRL_ACT) : Prop :=
  eActType a = eRATE_CTRL_ACT_DEC_BITRATE → ∃ v, i32Value a = Some v ∧ 10 <= v <= 50.

(** Everything but the round-trip time and the analyser. *)
Definition same_stream (ep ep' : rtp_endpoint) : Prop :=
  ep' = with_rtcp ep (ep_dRTT ep') (ep_qos ep').

#[export] Instance same_stream_preorder : PreOrder same_stream.
Proof.
  split; [by intros []|]. intros a b c H1 H2.
  exact (eq_trans H2 (f_equal (λ e, with_rtcp e (ep_dRTT c) (ep_qos c)) H1)).
Qed.

Lemma SimpleQOSAnalyserNew_wf ssrc : wf_qos (SimpleQOSAnalyserNew ssrc).
Proof. split; [done|]. by repeat constructor. Qed.

Lemma stats_index i : (i mod STATS_HISTORY < STATS_HISTORY)%nat.
Proof. apply Nat.mod_upper_bound. done. Qed.

Lemma GET_32_is_Some p : (4 <= length p)%nat → is_Some (GET_32 p).
Proof. destruct p as [|a [|b [|c [|d p]]]]; simpl; (lia || eauto). Qed.

Lemma GET_32_range p v : GET_32 p = Some v → 0 <= v < 2 ^ 32.
Proof.
  destruct p as [|a [|b [|c [|d p]]]]; try done. cbn [GET_32]. intros [= <-]. apply u32_range.
Qed.

Lemma read_report_block_ok p :
  (24 <= length p)%nat → ∃ rb, read_report_block p = Some rb ∧ 0 <= rb_lost rb < 2 ^ 32.
Proof.
  intros Hl. unfold read_report_block.
  destruct (GET_32_is_Some p) as [v0 ->]; [lia|]. cbn [mbind option_bind].
  destruct (GET_32_is_Some (drop 4 p)) as [v1 E1]; [rewrite length_drop; lia|]. rewrite E1. cbn [mbind option_bind].
  destruct (GET_32_is_Some (drop 8 p)) as [v2 ->]; [rewrite length_drop; lia|]. cbn [mbind option_bind].
  destruct (GET_32_is_Some (drop 12 p)) as [v3 ->]; [rewrite length_drop; lia|]. cbn [mbind option_bind].
  destruct (GET_32_is_Some (drop 16 p)) as [v4 ->]; [rewrite length_drop; lia|]. cbn [mbind option_bind].
  destruct (GET_32_is_Some (drop 20 p)) as [v5 ->]; [rewrite length_drop; lia|]. cbn [mbind option_bind].
  eexists. split; [done|]. by eapply GET_32_range.
Qed.

(** The check of [RTCPisRR] against the bytes received covers the block that
    [RTCP_RR_GetReportBlock] only checks against the length the packet declares. *)
Lemma report_block_in_bounds blk :
  RTCPisRR blk = true →
  RTCP_RR_GetReportBlock blk 0 = Ok None ∨
  ∃ rb, RTCP_RR_GetReportBlock blk 0 = Ok (Some rb) ∧ 0 <= rb_lost rb < 2 ^ 32.
Proof.
  unfold RTCPisRR, RTCP_RR_GetReportBlock. intros H.
  destruct (RTCPGetCommonHeader blk) as [[[b0 pt] len]|]; [|done].
  apply andb_true_iff in H as [_ H]. apply negb_true_iff, Nat.ltb_ge in H. unfold sizeof_RTCP_RR in H.
  destruct (_ <=? _); [right|by left].
  destruct (read_report_block_ok (drop (8 + 24 * 0) blk)) as (rb & -> & Hrb); [rewrite length_drop; lia|].
  eauto.
Qed.

Lemma cur_stats_ok q : wf_qos q → ∃ st, cur_stats q = Ok st ∧ 0 <= fLostPercentage st.
Proof.
  intros [Hl Hf]. unfold cur_stats. pose proof (stats_index (i32CurIndex q)) as Hi.
  destruct (lookup_lt_is_Some_2 (sStats q) (i32CurIndex q mod STATS_HISTORY)) as [st Hst]; [lia|].
  exists st. split; [by apply rd_Ok|]. by eapply (Forall_lookup_1 (λ st, 0 <= fLostPercentage st)).
Qed.

Lemma prev_stats_ok q : wf_qos q → ∃ st, prev_stats q = Ok st.
Proof.
  intros [Hl Hf]. unfold prev_stats. pose proof (stats_index (STATS_HISTORY + i32CurIndex q - 1)) as Hi.
  destruct (lookup_lt_is_Some_2 (sStats q) ((STATS_HISTORY + i32CurIndex q - 1) mod STATS_HISTORY))
    as [st Hst]; [lia|].
  exists st. by apply rd_Ok.
Qed.

Lemma suggest_action_ok q :
  wf_qos q → ∃ act q', SimpleAnalyserSuggestAction q = Ok (act, q') ∧ wf_qos q' ∧ act_ok act.
Proof.
  intros Hq. destruct (cur_stats_ok q Hq) as (cur & Ec & Hc).
  destruct (prev_stats_ok q Hq) as (prev & Ep).
  unfold SimpleAnalyserSuggestAction, RoundTripPropIncreased. rewrite Ec, Ep, !bind_Ok.
  unfold big_loss. destruct (Z.leb_spec 640 (fLostPercentage cur)) as [Hl|Hl]; cbn [andb].
  - destruct (big_jitter cur).
    + do 2 eexists. split_and!; [done|done|]. intros _. eexists. split; [done|].
      destruct (Z.ltb_spec 3200 (fLostPercentage cur)); [lia|]. Z.div_mod_to_equations; lia.
    + destruct (RoundTripPropDoubled cur prev); rewrite bind_Ok; do 2 eexists; split_and!; try done.
      intros _. exists 20. split; [done|lia].
  - destruct (RoundTripPropDoubled cur prev); rewrite bind_Ok; do 2 eexists; split_and!; try done.
    intros _. exists 20. split; [done|lia].
Qed.

Lemma analyser_proc_ok q rtt blk clock :
  wf_qos q → RTCPisRR blk = true →
  ∃ b q', SimpleAnalyserProcRTCP q rtt blk clock = Ok (b, q') ∧ wf_qos q'.
Proof.
  intros [Hl Hf] Hrr. unfold SimpleAnalyserProcRTCP.
  destruct (report_block_in_bounds blk Hrr) as [->|(rb & -> & Hrb)]; rewrite bind_Ok;
    [by do 2 eexists|].
  destruct (rb_ssrc rb =? q_ssrc q); [|by do 2 eexists].
  pose proof (stats_index (S (i32CurIndex q))) as Hi. rewrite wr_Ok, bind_Ok by lia.
  do 2 eexists. split; [done|]. split; cbn [sStats]; [by rewrite length_insert|].
  apply Forall_insert; [done|]. cbn [fLostPercentage]. unfold REPORT_BLOCK_GET_FRACTION_LOST.
  apply Z.mul_nonneg_nonneg; [lia|]. apply Z.shiftr_nonneg. lia.
Qed.

Lemma proc_one_ok ep blk sec usec :
  wf_ep_qos ep →
  ∃ ep' acts, proc_one ep blk sec usec = Ok (ep', acts) ∧ wf_ep_qos ep' ∧
    same_stream ep ep' ∧ Forall act_ok acts.
Proof.
  intros Hep. unfold proc_one. destruct (RTCPisRR blk) eqn:Hrr; [|by do 2 eexists].
  destruct (report_block_in_bounds blk Hrr) as [->|(rb & -> & Hrb)]; rewrite bind_Ok;
    [by do 2 eexists|].
  destruct (_ || _); [|by do 2 eexists].
  unfold wf_ep_qos in Hep. cbn [ep_qos with_rtcp]. destruct (ep_qos ep) as [q|] eqn:Eq;
    [|do 2 eexists; split_and!; [done|by unfold wf_ep_qos; cbn|done|constructor]].
  destruct (analyser_proc_ok q (ComputeRTT (ep_dRTT ep) sec usec rb) blk 90000 Hep Hrr)
    as (b & q1 & -> & Hq1). rewrite bind_Ok.
  destruct (suggest_action_ok q1 Hq1) as (act & q2 & -> & Hq2 & Hact). rewrite bind_Ok.
  do 2 eexists. split_and!; [done|done|done|by repeat constructor].
Qed.

Lemma next_packet_shorter blk blk' :
  Forall is_byte blk → RTCPNextPacket blk = Some blk' →
  (length blk' < length blk)%nat ∧ Forall is_byte blk'.
Proof.
  intros Hb. unfold RTCPNextPacket, RTCPGetSize.
  destruct blk as [|b0 [|pt [|l0 [|l1 blk]]]]; try done. cbn [RTCPGetCommonHeader].
  destruct (Z.leb_spec 0 ((1 + (l0 <<< 8 .| l1)) * 4)); [|done].
  destruct (Z.ltb_spec ((1 + (l0 <<< 8 .| l1)) * 4) (Z.of_nat (length (b0 :: pt :: l0 :: l1 :: blk)))); [|done].
  cbn [andb]. intros [= <-].
  assert (0 <= l0 <<< 8 .| l1).
  { rewrite !Forall_cons in Hb. destruct Hb as (_ & _ & HB0 & HB1 & _). unfold is_byte in *.
    apply Z.lor_nonneg. split; [apply Z.shiftl_nonneg|]; lia. }
  split; [rewrite length_drop; lia|by apply Forall_drop].
Qed.

Lemma proc_compound_ok fuel ep blk clock :
  wf_ep_qos ep → Forall is_byte blk → (length blk < fuel)%nat →
  ∃ ep' acts, proc_compound fuel ep blk clock = Ok (ep', acts) ∧ wf_ep_qos ep' ∧
    same_stream ep ep' ∧ Forall act_ok acts.
Proof.
  revert ep blk clock. induction fuel as [|fuel IH]; intros ep blk clock Hep Hb Hf; [lia|].
  cbn [proc_compound]. destruct (proc_one_ok ep blk (clock 0%nat).1 (clock 0%nat).2 Hep)
    as (ep1 & acts1 & -> & H1 & S1 & A1). rewrite bind_Ok.
  destruct (RTCPNextPacket blk) as [blk'|] eqn:En; [|by do 2 eexists].
  destruct (next_packet_shorter blk blk' Hb En) as [Hlt Hb'].
  destruct (IH ep1 blk' (λ n, clock (S n)) H1 Hb' ltac:(lia)) as (ep2 & acts2 & -> & H2 & S2 & A2).
  rewrite bind_Ok. do 2 eexists. split_and!; [done|done|by transitivity ep1|by apply Forall_app].
Qed.

Lemma ProcRTCPPacket_ok ep data clock :
  wf_ep_qos ep → Forall is_byte data →
  ∃ ep' acts, ProcRTCPPacket ep data clock = Ok (ep', acts) ∧
    wf_ep_qos ep' ∧ same_stream ep ep' ∧ Forall act_ok acts.
Proof.
  intros Hep Hb. unfold ProcRTCPPacket.
  destruct data as [|b0 [|b1 [|b2 [|b3 data]]]]; try by do 2 eexists.
  destruct (negb _); [by do 2 eexists|]. apply proc_compound_ok; [done|done|lia].
Qed.


(** ** Round-trip time *)

(** The time in units of [2^-16] s since 1900, of which a report carries 32 bits. *)
Definition ntp_mid (sec usec : Z) : Z := (sec + 0x83AA7E80) * 2 ^ 16 + ntp_fraction usec / 2 ^ 16.

Lemma ntp_fraction_range usec : 0 <= ntp_fraction usec < 2 ^ 32.
Proof. apply u32_range. Qed.

Lemma approx_ntp sec usec : u32 (TimevalToNTP sec usec >>> 16) = u32 (ntp_mid sec usec).
Proof.
  unfold TimevalToNTP, ntp_mid, ntp_seconds. pose proof (ntp_fraction_range usec) as Hf.
  set (f := ntp_fraction usec) in *. set (s := sec + 0x83AA7E80).
  assert (u64 (u32 s <<< 32) = u32 s <<< 32) as ->.
  { rewrite Z.shiftl_mul_pow2 by lia. pose proof (u32_range s). unfold u64. apply Z.mod_small. lia. }
  rewrite lor_shiftl_add by lia. rewrite Z.shiftr_div_pow2 by lia.
  change (2 ^ 32) with 4294967296 in *. change (2 ^ 16) with 65536.
  unfold u32. change (2 ^ 32) with 4294967296. Z.div_mod_to_equations. lia.
Qed.

Lemma ComputeRTT_value dRTT sec usec rb :
  rb_lsr rb ≠ 0 → rb_dlsr rb ≠ 0 →
  ComputeRTT dRTT sec usec rb = u32 (ntp_mid sec usec - rb_lsr rb - rb_dlsr rb).
Proof.
  intros H1 H2. unfold ComputeRTT. rewrite approx_ntp.
  destruct (Z.eqb_spec (rb_lsr rb) 0), (Z.eqb_spec (rb_dlsr rb) 0); try done. cbn [negb andb].
  pose proof (u32_range (u32 (u32 (ntp_mid sec usec) - rb_lsr rb) - rb_dlsr rb)) as Hr.
  destruct (Z.leb_spec 0 (u32 (u32 (u32 (ntp_mid sec usec) - rb_lsr rb) - rb_dlsr rb))); [|lia].
  generalize (ntp_mid sec usec) as x. intros x. width_lia.
Qed.

(** A client that echoes the time of the last sender report, and how long ago it came,
    is given exactly the elapsed time minus its delay as round-trip time, also when the
    32-bit time has wrapped in between. *)
Theorem rtt_exact dRTT s1 u1 s2 u2 rb :
  rb_lsr rb = u32 (ntp_mid s1 u1) → rb_lsr rb ≠ 0 → rb_dlsr rb ≠ 0 →
  0 <= ntp_mid s2 u2 - ntp_mid s1 u1 - rb_dlsr rb < 2 ^ 32 →
  ComputeRTT dRTT s2 u2 rb = ntp_mid s2 u2 - ntp_mid s1 u1 - rb_dlsr rb.
Proof.
  intros El H1 H2 Hd. rewrite ComputeRTT_value by done. rewrite El. revert Hd.
  generalize (ntp_mid s1 u1), (ntp_mid s2 u2), (rb_dlsr rb). intros x y z Hd. width_lia.
Qed.

(** The guard against a negative round-trip time never fires -- when the clock was set
    back so that the difference is [-k], the endpoint records [2^32 - k] units, up to 18
    hours, instead of keeping its value. *)
Theorem rtt_negative_recorded dRTT s1 u1 s2 u2 rb k :
  rb_lsr rb = u32 (ntp_mid s1 u1) → rb_lsr rb ≠ 0 → rb_dlsr rb ≠ 0 → 0 < k < 2 ^ 32 →
  ntp_mid s2 u2 - ntp_mid s1 u1 - rb_dlsr rb = - k →
  ComputeRTT dRTT s2 u2 rb = 2 ^ 32 - k.
Proof.
  intros El H1 H2 Hk Hd. rewrite ComputeRTT_value by done. rewrite El. revert Hd.
  generalize (ntp_mid s1 u1), (ntp_mid s2 u2), (rb_dlsr rb). intros x y z Hd. width_lia.
Qed.

(** ** Witnesses *)

Definition w_ep : rtp_endpoint :=
  MkEp 26 1400 0x11223344 0 0 0 0 0 false true 0 0 RTP_TRANS_NONE 0
    (Some (SimpleQOSAnalyserNew 0x11223344)) FORMAT_JPEG.

(** A receiver report with a quarter of the packets lost and a jitter of 1000 ticks. *)
Definition w_report : list Z :=
  [0x81; 201; 0; 7; 0; 0; 0; 1; 0x11; 0x22; 0x33; 0x44; 0x40; 0; 0; 0; 0; 0; 0; 9;
   0; 0; 3; 232; 0; 0; 0; 0; 0; 0; 0; 0].


Lemma rtt_exact_witness :
  ComputeRTT 0 1001 500000 (MkRB 0 0 0 0 (u32 (ntp_mid 1000 0)) 65536) = 32768.
Proof.
  apply (rtt_exact 0 1000 0 1001 500000 (MkRB 0 0 0 0 (u32 (ntp_mid 1000 0)) 65536));
    vm_compute; done.
Defined.

Lemma rtt_negative_recorded_witness :
  ComputeRTT 0 999 0 (MkRB 0 0 0 0 (u32 (ntp_mid 1000 0)) 65536) = 2 ^ 32 - 131072.
Proof.
  apply (rtt_negative_recorded 0 1000 0 999 0 (MkRB 0 0 0 0 (u32 (ntp_mid 1000 0)) 65536) 131072);
    vm_compute; done.
Defined.
