(* ===== verification/Rtp.v ===== *)
(** * RTP endpoints ([rtp.c])

    Packet headers and counters, sender reports, the choice of UDP ports.  The network is
    an interface, [Transport]: a UDP socket that takes or refuses a datagram, and the
    interleaved channels of a TCP connection.  A call of [session->teardown] is always
    the last thing before [return -1] and is returned as the result [TornDown].
    [gettimeofday] is a stream of readings, consumed in the order of the calls. *)

From Stdlib Require Import String.
From S2P Require Import Prelude CString Frame SendBuf Rtcp HttpAuth.

Local Open Scope Z_scope.
Local Open Scope c_scope.

(** ** The network below an endpoint *)

(** [udp_send n fd d]: [sendmsg]/[send]; [false] is a negative result.
    [inter_send n conn chan v]: [interleave_send], which never returns a negative
    value.  [packets] are the packets the network took, oldest first, each with the
    socket or channel it went to. *)
Inductive dest :=
| Socket (fd : Z)
| Channel (conn : nat) (chan : Z).

#[export] Instance dest_eq_dec : EqDecision dest.
Proof. solve_decision. Defined.

Class Transport (N : Type) := {
  udp_send : N → Z → list Z → outcome (bool * N);
  inter_send : N → nat → Z → list (list Z) → outcome N;
  packets : N → list (dest * list Z) }.

Class TransportLaws (N : Type) `{Transport N} := {
  udp_send_law n fd d ok n' :
    udp_send n fd d = Ok (ok, n') →
    packets n' = packets n ++ (if ok then [(Socket fd, d)] else []);
  inter_send_law n conn chan v n' :
    inter_send n conn chan v = Ok n' →
    packets n' = packets n ∨ packets n' = packets n ++ [(Channel conn chan, concat v)] }.

Definition clock := nat → Z * Z.

Definition later (c : clock) (n : nat) : clock := λ i, c (n + i)%nat.

Inductive sent := Sent | TornDown.

(** ** Endpoints *)

(** [new_rtp_endpoint]: the random bytes of [ssrc], [start_timestamp] and [seqnum]; what
    [malloc] leaves in the fields that are not set. *)
Definition le_value (b : list Z) : Z := foldr (λ x acc, x + 256 * acc) 0 b.

Definition new_rtp_endpoint (payload : Z) (r : random_stream) (c : clock)
    (junk_rtt junk_format : Z) (junk_qos : option SimpleQosAnalyser) : rtp_endpoint * random_stream :=
  let '(ssrc, r) := random_bytes r 4 in
  let '(ts, r) := random_bytes r 4 in
  let '(seq, r) := random_bytes r 2 in
  (MkEp payload 8192 (le_value ssrc) (le_value ts) (le_value ts) (le_value seq) 0 0 false true
     (c 0%nat).1 (c 1%nat).1 RTP_TRANS_NONE junk_rtt junk_qos junk_format, r).

Definition update_rtp_timestamp (ep : rtp_endpoint) (time_increment : Z) : rtp_endpoint :=
  MkEp (ep_payload ep) (ep_max_data_size ep) (ep_ssrc ep) (ep_start_timestamp ep)
    (u32 (ep_last_timestamp ep + time_increment) .& 0xFFFFFFFF) (ep_seqnum ep) (ep_packet_count ep)
    (ep_octet_count ep) (ep_rtcp_event_enabled ep) (ep_force_rtcp ep) (ep_last_rtcp_recv ep)
    (ep_last_rtcp_send ep) (ep_trans ep) (ep_dRTT ep) (ep_qos ep) (ep_format ep).

Definition connect_interleaved_endpoint (ep : rtp_endpoint) (conn : nat) (rtp_chan rtcp_chan : Z)
    : rtp_endpoint :=
  MkEp (ep_payload ep) (ep_max_data_size ep) (ep_ssrc ep) (ep_start_timestamp ep)
    (ep_last_timestamp ep) (ep_seqnum ep) (ep_packet_count ep)
    (ep_octet_count ep) (ep_rtcp_event_enabled ep) (ep_force_rtcp ep) (ep_last_rtcp_recv ep)
    (ep_last_rtcp_send ep) (RTP_TRANS_INTER conn rtp_chan rtcp_chan) (ep_dRTT ep) (ep_qos ep) (ep_format ep).

(** [gettimeofday(&ep->last_rtcp_recv, NULL)]. *)
Definition set_rtcp_recv (ep : rtp_endpoint) (t : Z) : rtp_endpoint :=
  MkEp (ep_payload ep) (ep_max_data_size ep) (ep_ssrc ep) (ep_start_timestamp ep)
    (ep_last_timestamp ep) (ep_seqnum ep) (ep_packet_count ep)
    (ep_octet_count ep) (ep_rtcp_event_enabled ep) (ep_force_rtcp ep) t
    (ep_last_rtcp_send ep) (ep_trans ep) (ep_dRTT ep) (ep_qos ep) (ep_format ep).

(** The read events of the UDP sockets: [ret] is what [read] returned. *)
Definition udp_rtp_read (ep : rtp_endpoint) (ret : Z) (c : clock) : sent * rtp_endpoint :=
  if 0 <? ret then (Sent, set_rtcp_recv ep (c 0%nat).1) else (TornDown, ep).

Definition interleave_recv_rtcp (ep : rtp_endpoint) (d : list Z) (c : clock)
    : outcome (rtp_endpoint * list S_RATE_CTRL_ACT) :=
  ProcRTCPPacket (set_rtcp_recv ep (c 0%nat).1) d (later c 1).

Definition udp_rtcp_read (ep : rtp_endpoint) (ret : Z) (buf : list Z) (c : clock)
    : outcome (sent * rtp_endpoint) :=
  if 0 <? ret then
    '(ep, acts) ← ProcRTCPPacket (set_rtcp_recv ep (c 0%nat).1) (take (Z.to_nat ret) buf) (later c 1);
    Ok (Sent, ep)
  else Ok (TornDown, ep).

(** ** Sender reports *)

(** The 52 bytes of a sender report and a source description. *)
Definition sender_report (ep : rtp_endpoint) (sec usec : Z) : list Z :=
  [0x80; 200] ++ PUT_16 6 ++ PUT_32 (ep_ssrc ep) ++ PUT_32 (ntp_seconds sec) ++
  PUT_32 (ntp_fraction usec) ++ PUT_32 (ep_last_timestamp ep) ++ PUT_32 (ep_packet_count ep) ++
  PUT_32 (ep_octet_count ep) ++
  [0x81; 202] ++ PUT_16 5 ++ PUT_32 (ep_ssrc ep) ++ [1; 14] ++ lit "Unnamed stream".

Section sending.
Context {N : Type} `{Transport N}.

Definition rtcp_send (n : N) (ep : rtp_endpoint) (c : clock) : outcome (sent * rtp_endpoint * N) :=
  let '(sec, usec) := c 0%nat in
  let ep :=
    MkEp (ep_payload ep) (ep_max_data_size ep) (ep_ssrc ep) (ep_start_timestamp ep)
      (ep_last_timestamp ep) (ep_seqnum ep) (ep_packet_count ep)
      (ep_octet_count ep) (ep_rtcp_event_enabled ep) false (ep_last_rtcp_recv ep)
      (c 1%nat).1 (ep_trans ep) (ep_dRTT ep) (ep_qos ep) (ep_format ep) in
  let silent :=
    match ep_trans ep with
    | RTP_TRANS_INTER _ _ _ => false
    | _ => 20 <? i32 (sec - ep_last_rtcp_recv ep)
    end in
  if (silent : bool) then Ok (TornDown, ep, n) else
  let buf := sender_report ep sec usec in
  match ep_trans ep with
  | RTP_TRANS_UDP _ _ rtcp_fd =>
      '(ok, n) ← udp_send n rtcp_fd buf;
      Ok (if (ok : bool) then Sent else TornDown, ep, n)
  | RTP_TRANS_INTER conn _ rtcp_chan =>
      n ← inter_send n conn rtcp_chan [buf]; Ok (Sent, ep, n)
  | RTP_TRANS_NONE => Ok (TornDown, ep, n)
  end.

(** ** Packets *)

Definition rtp_header (ep : rtp_endpoint) (marker : bool) : list Z :=
  [0x80; if marker then u8 (ep_payload ep) .| 0x80 else u8 (ep_payload ep)] ++
  PUT_16 (ep_seqnum ep) ++ PUT_32 (ep_last_timestamp ep) ++ PUT_32 (ep_ssrc ep).

Definition set_timestamp (ep : rtp_endpoint) (timestamp : Z) : rtp_endpoint :=
  MkEp (ep_payload ep) (ep_max_data_size ep) (ep_ssrc ep) (ep_start_timestamp ep)
    (u32 (ep_start_timestamp ep + timestamp) .& 0xFFFFFFFF) (ep_seqnum ep) (ep_packet_count ep)
    (ep_octet_count ep) (ep_rtcp_event_enabled ep) (ep_force_rtcp ep) (ep_last_rtcp_recv ep)
    (ep_last_rtcp_send ep) (ep_trans ep) (ep_dRTT ep) (ep_qos ep) (ep_format ep).

(** The counters after a packet of [len] bytes, header included. *)
Definition count_packet (ep : rtp_endpoint) (len : nat) : rtp_endpoint :=
  MkEp (ep_payload ep) (ep_max_data_size ep) (ep_ssrc ep) (ep_start_timestamp ep)
    (ep_last_timestamp ep) ((ep_seqnum ep + 1) .& 0xFFFF) (i32 (ep_packet_count ep + 1))
    (i32 (ep_octet_count ep + Z.of_nat len)) (ep_rtcp_event_enabled ep) (ep_force_rtcp ep)
    (ep_last_rtcp_recv ep) (ep_last_rtcp_send ep) (ep_trans ep) (ep_dRTT ep) (ep_qos ep) (ep_format ep).

Definition set_rtcp_event (ep : rtp_endpoint) (b : bool) : rtp_endpoint :=
  MkEp (ep_payload ep) (ep_max_data_size ep) (ep_ssrc ep) (ep_start_timestamp ep)
    (ep_last_timestamp ep) (ep_seqnum ep) (ep_packet_count ep)
    (ep_octet_count ep) b (ep_force_rtcp ep) (ep_last_rtcp_recv ep)
    (ep_last_rtcp_send ep) (ep_trans ep) (ep_dRTT ep) (ep_qos ep) (ep_format ep).

(** The end of [send_rtp_packet]: a forced report, or one after ten silent seconds. *)
Definition rtcp_follow_up (n : N) (ep : rtp_endpoint) (c : clock) : outcome (sent * rtp_endpoint * N) :=
  if ep_force_rtcp ep then
    '(r, ep, n) ← rtcp_send n ep c;
    match r with
    | TornDown => Ok (TornDown, ep, n)
    | Sent => Ok (Sent, set_rtcp_event ep true, n)
    end
  else if 10 <? i32 ((c 0%nat).1 - ep_last_rtcp_send ep) then rtcp_send n ep (later c 1)
  else Ok (Sent, ep, n).

(** [send_rtp_packet(ep, v, count, timestamp, marker)]; [v] are the entries after the one
    the header goes to. *)
Definition send_rtp_packet (n : N) (ep : rtp_endpoint) (v : list (list Z)) (timestamp : Z)
    (marker : bool) (c : clock) : outcome (sent * rtp_endpoint * N) :=
  let ep := set_timestamp ep timestamp in
  let v := rtp_header ep marker :: v in
  '(ok, n) ←
    match ep_trans ep with
    | RTP_TRANS_UDP _ rtp_fd _ => udp_send n rtp_fd (concat v)
    | RTP_TRANS_INTER conn rtp_chan _ => n ← inter_send n conn rtp_chan v; Ok (true, n)
    | RTP_TRANS_NONE => Ok (true, n)
    end;
  if (ok : bool) then rtcp_follow_up n (count_packet ep (sum_list_with length v)) c
  else Ok (TornDown, ep, n).

End sending.

(** ** Ports *)

Record port_range := MkRange { rtp_port_start : Z; rtp_port_end : Z }.

Definition default_range : port_range := MkRange 50000 60000.

(** [config_rtprange]; [None] is [exit(1)]. *)
Definition config_rtprange (lo hi : Z) : option port_range :=
  let lo := if truth (lo .& 1) then lo + 1 else lo in
  let hi := if truth (hi .& 1) then hi else hi - 1 in
  if hi - lo + 1 <? 8 then None else Some (MkRange lo hi).

Inductive bind_result := Bound | AddrInUse | BindError.

(** The socket calls as [connect_udp_endpoint] sees them: the descriptor (negative for a
    failure) of the [k]-th [socket], the result of binding a port, and whether the later
    calls on the two sockets succeed, with the port [getsockname] reports. *)
Record sockets := MkSockets {
  s_socket : nat → Z;
  s_bind : Z → bind_result;
  s_connect_rtp : bool;
  s_connect_rtcp : bool;
  s_getsockname : option Z }.

(** The descriptors the call holds: [rtpfd], [rtcpfd] and how many [socket] calls were
    made. *)
Record fds := MkFds { rtpfd : Z; rtcpfd : Z; f_calls : nat }.

Inductive port_result :=
| GotPort (port : Z) (f : fds)
| NoPort (f : fds)     (* the for loop ran out; both descriptors are still open *)
| PortError.           (* an error return with the descriptors closed *)

Definition open_if_needed (s : sockets) (fd : Z) (k : nat) : Z * nat :=
  if fd <? 0 then (s_socket s k, S k) else (fd, k).

(** The [for] loop; [tries] is [max_tries - i]. *)
Fixpoint find_port (r : port_range) (s : sockets) (tries : nat) (port : Z) (f : fds) : port_result :=
  match tries with
  | O => NoPort f
  | S tries =>
      let port := if rtp_port_end r <? port + 1 then rtp_port_start r else port in
      let '(fd1, k) := open_if_needed s (rtpfd f) (f_calls f) in
      if fd1 <? 0 then PortError else
      let '(fd2, k) := open_if_needed s (rtcpfd f) k in
      if fd2 <? 0 then PortError else
      match s_bind s port with
      | AddrInUse => find_port r s tries (port + 2) (MkFds fd1 fd2 k)
      | BindError => PortError
      | Bound =>
          match s_bind s (port + 1) with
          | AddrInUse => find_port r s tries (port + 2) (MkFds (-1) fd2 k)
          | BindError => PortError
          | Bound => GotPort port (MkFds fd1 fd2 k)
          end
      end
  end.

Definition first_port (r : port_range) (random : Z) : Z :=
  let port := rtp_port_start r + Z.rem random (rtp_port_end r - rtp_port_start r) in
  if truth (port .& 1) then port + 1 else port.

Definition max_tries (r : port_range) : nat :=
  Z.to_nat (Z.quot (rtp_port_end r - rtp_port_start r + 1) 2).

(** [connect_udp_endpoint]: our port and the endpoint, or -1. *)
Definition connect_udp_endpoint (r : port_range) (s : sockets) (random : Z) (ep : rtp_endpoint)
    : option (Z * rtp_endpoint) :=
  match find_port r s (max_tries r) (first_port r random) (MkFds (-1) (-1) 0) with
  | GotPort port f =>
      if negb (s_connect_rtp s) || negb (s_connect_rtcp s) then None else
      match s_getsockname s with
      | None => None
      | Some sdp_port =>
          Some (port,
            MkEp (ep_payload ep) (ep_max_data_size ep) (ep_ssrc ep) (ep_start_timestamp ep)
              (ep_last_timestamp ep) (ep_seqnum ep) (ep_packet_count ep)
              (ep_octet_count ep) (ep_rtcp_event_enabled ep) (ep_force_rtcp ep) (ep_last_rtcp_recv ep)
              (ep_last_rtcp_send ep) (RTP_TRANS_UDP sdp_port (rtpfd f) (rtcpfd f)) (ep_dRTT ep)
              (ep_qos ep) (ep_format ep))
      end
  | _ => None
  end.

(** ** Two networks *)

(** UDP sockets that answer each datagram as [results] says; no TCP connection. *)
Record udp_log := MkUdpLog { u_results : list bool; u_log : list (dest * list Z) }.

#[export] Instance udp_log_transport : Transport udp_log := {
  udp_send n fd d :=
    match u_results n with
    | [] => Diverge
    | ok :: rs => Ok (ok, MkUdpLog rs (u_log n ++ if (ok : bool) then [(Socket fd, d)] else []))
    end;
  inter_send n conn chan v := Undef;
  packets := u_log }.

#[export] Instance udp_log_laws : TransportLaws udp_log.
Proof.
  split.
  - intros [[|ok' rs] log] fd d ok n'; cbn; [done|]. by intros [= -> <-].
  - done.
Qed.

(** One TCP connection: its ring buffer, the bytes handed to the kernel, the results of
    the [write] calls of each [interleave_send], and the packets it accepted. *)
Record ring_net := MkRingNet {
  rn_ring : ring; rn_out : list Z; rn_writes : list (list write_result);
  rn_sent : list (Z * list (list Z)) }.

#[export] Instance ring_net_transport : Transport ring_net := {
  udp_send n fd d := Undef;
  inter_send n conn chan v :=
    if negb (conn =? 0)%nat then Undef else
    '(ok, c, out) ← interleave_send (hd [] (rn_writes n)) (rn_ring n) chan v;
    Ok (MkRingNet c (rn_out n ++ out) (tl (rn_writes n))
          (rn_sent n ++ if (ok : bool) then [(chan, v)] else []));
  packets n := map (λ p, (Channel 0 p.1, concat p.2)) (rn_sent n) }.

#[export] Instance ring_net_laws : TransportLaws ring_net.
Proof.
  split; [done|]. intros n conn chan v n'. cbn [inter_send ring_net_transport].
  destruct (Nat.eqb_spec conn 0) as [->|]; [cbn [negb]|done].
  destruct (interleave_send _ _ _ _) as [[[ok c] out]| | |]; try done. rewrite bind_Ok.
  intros [= <-]. cbn [packets ring_net_transport rn_sent]. rewrite map_app.
  destruct ok; [by right|left; by rewrite app_nil_r].
Qed.

(** ** What a receiver reads *)

Record rtp_packet := MkPacket {
  r_version : Z; r_marker : bool; r_payload_type : Z; r_seq : Z; r_timestamp : Z; r_ssrc : Z;
  r_payload : list Z }.

(** The fixed header of RFC 3550. *)
Definition rtp_decode (p : list Z) : option rtp_packet :=
  match p with
  | b0 :: b1 :: p =>
      seq ← GET_16 p;
      ts ← GET_32 (drop 2 p);
      ssrc ← GET_32 (drop 6 p);
      Some (MkPacket (b0 >>> 6) (Z.testbit b1 7) (b1 .& 0x7F) seq ts ssrc (drop 10 p))
  | _ => None
  end.

Definition wf_ep (ep : rtp_endpoint) : Prop :=
  0 <= ep_payload ep < 128 ∧ 0 <= ep_seqnum ep < 65536 ∧ 0 <= ep_ssrc ep < 2 ^ 32.

Lemma payload_byte pt (marker : bool) :
  0 <= pt < 128 →
  let b := if marker then u8 pt .| 0x80 else u8 pt in
  Z.testbit b 7 = marker ∧ b .& 0x7F = pt.
Proof.
  intros Hp. rewrite u8_small by lia.
  assert (forallb (λ p, Bool.eqb (Z.testbit (p .| 0x80) 7) true && ((p .| 0x80) .& 0x7F =? p) &&
    Bool.eqb (Z.testbit p 7) false && (p .& 0x7F =? p)) (seqZ 0 128) = true) as HF
    by (vm_compute; reflexivity).
  rewrite forallb_forall in HF. specialize (HF pt ltac:(apply list_elem_of_In, elem_of_seqZ; lia)).
  rewrite !andb_true_iff, !Z.eqb_eq, !eqb_true_iff in HF. cbv zeta.
  destruct marker; tauto.
Qed.

Lemma rtp_decode_header ep marker payload :
  wf_ep ep →
  rtp_decode (rtp_header ep marker ++ payload) =
  Some (MkPacket 2 marker (ep_payload ep) (ep_seqnum ep) (u32 (ep_last_timestamp ep)) (ep_ssrc ep) payload).
Proof.
  intros (Hp & Hs & Hr). unfold rtp_header. rewrite <- !app_assoc. cbn [app rtp_decode].
  rewrite GET_PUT_16. cbn [mbind option_bind].
  change (drop 2 (PUT_16 (ep_seqnum ep) ++ ?l)) with l. rewrite GET_PUT_32. cbn [mbind option_bind].
  change (drop 6 (PUT_16 (ep_seqnum ep) ++ PUT_32 (ep_last_timestamp ep) ++ ?l)) with l.
  rewrite GET_PUT_32. cbn [mbind option_bind].
  change (drop 10 _) with payload.
  destruct (payload_byte (ep_payload ep) marker Hp) as [-> ->].
  rewrite u16_small, (u32_small (ep_ssrc ep)) by lia. done.
Qed.

(** ** A stream of packets over UDP *)

Section udp_stream.
Context {N : Type} `{TransportLaws N}.

(** [v], timestamp, marker and clock of each call. *)
Definition packet_args := (list (list Z) * Z * bool * clock)%type.

Fixpoint send_calls (n : N) (ep : rtp_endpoint) (ps : list packet_args)
    : outcome (sent * rtp_endpoint * N) :=
  match ps with
  | [] => Ok (Sent, ep, n)
  | (v, ts, marker, c) :: ps =>
      '(r, ep, n) ← send_rtp_packet n ep v ts marker c;
      match r with Sent => send_calls n ep ps | TornDown => Ok (TornDown, ep, n) end
  end.

(** The packets that went to one socket. *)
Definition to_socket (fd : Z) (n : N) : list (list Z) :=
  map snd (filter (λ p, p.1 = Socket fd) (packets n)).

(** The parts of an endpoint that a report does not change. *)
Definition same_media (ep ep' : rtp_endpoint) : Prop :=
  ep_payload ep' = ep_payload ep ∧ ep_ssrc ep' = ep_ssrc ep ∧ ep_trans ep' = ep_trans ep ∧
  ep_start_timestamp ep' = ep_start_timestamp ep ∧ ep_seqnum ep' = ep_seqnum ep ∧
  ep_packet_count ep' = ep_packet_count ep ∧ ep_octet_count ep' = ep_octet_count ep ∧
  ep_max_data_size ep' = ep_max_data_size ep.
#[global] Instance same_media_preorder : PreOrder same_media.
Proof.
  split; [intros x; unfold same_media; by split_and!|].
  intros a b c (A1 & A2 & A3 & A4 & A5 & A6 & A7 & A8) (B1 & B2 & B3 & B4 & B5 & B6 & B7 & B8).
  split_and!; congruence.
Qed.

Lemma to_socket_app fd (n n' : N) fd' d :
  packets n' = packets n ++ [(Socket fd', d)] →
  to_socket fd n' = to_socket fd n ++ (if decide (fd' = fd) then [d] else []).
Proof.
  intros E. unfold to_socket. rewrite E, filter_app, map_app. f_equal.
  rewrite filter_cons, filter_nil. cbn [fst]. case_decide as E1; case_decide as E2; try done; congruence.
Qed.

(** A report goes to the other socket. *)
Lemma rtcp_send_udp n ep c port fd1 fd2 r ep' n' :
  ep_trans ep = RTP_TRANS_UDP port fd1 fd2 → fd1 ≠ fd2 → rtcp_send n ep c = Ok (r, ep', n') →
  to_socket fd1 n' = to_socket fd1 n ∧ same_media ep ep'.
Proof.
  intros Ht Hne. unfold rtcp_send. destruct (c 0%nat) as [sec usec]. cbn [ep_trans]. rewrite Ht.
  destruct (20 <? _); [by intros [= <- <- <-]|].
  match goal with |- context [udp_send n fd2 ?b] => destruct (udp_send n fd2 b) as [[ok n1]| | |] eqn:Es end;
    try done.
  rewrite bind_Ok. intros [= <- <- <-]. split; [|by split_and!].
  apply udp_send_law in Es. destruct ok.
  - erewrite to_socket_app by exact Es. rewrite decide_False by done. apply app_nil_r.
  - unfold to_socket. by rewrite Es, app_nil_r.
Qed.

Lemma rtcp_follow_up_udp n ep c port fd1 fd2 r ep' n' :
  ep_trans ep = RTP_TRANS_UDP port fd1 fd2 → fd1 ≠ fd2 → rtcp_follow_up n ep c = Ok (r, ep', n') →
  to_socket fd1 n' = to_socket fd1 n ∧ same_media ep ep'.
Proof.
  intros Ht Hne. unfold rtcp_follow_up. destruct (ep_force_rtcp ep).
  - destruct (rtcp_send n ep c) as [[[r1 ep1] n1]| | |] eqn:E; try done. rewrite bind_Ok.
    destruct (rtcp_send_udp _ _ _ _ _ _ _ _ _ Ht Hne E) as [Hs Hm].
    destruct r1; intros [= <- <- <-]; split; try done.
  - destruct (10 <? _); [by apply rtcp_send_udp with port fd2|]. by intros [= <- <- <-].
Qed.

Lemma send_rtp_packet_udp n ep v ts marker c port fd1 fd2 ep' n' :
  ep_trans ep = RTP_TRANS_UDP port fd1 fd2 → fd1 ≠ fd2 →
  send_rtp_packet n ep v ts marker c = Ok (Sent, ep', n') →
  to_socket fd1 n' = to_socket fd1 n ++ [rtp_header (set_timestamp ep ts) marker ++ concat v] ∧
  same_media (count_packet ep (12 + length (concat v))) ep'.
Proof.
  intros Ht Hne. unfold send_rtp_packet. cbn [ep_trans set_timestamp]. rewrite Ht.
  match goal with |- context [udp_send n fd1 ?b] => destruct (udp_send n fd1 b) as [[ok n1]| | |] eqn:Es end;
    try done.
  rewrite bind_Ok. destruct ok; [|done]. intros E.
  apply rtcp_follow_up_udp with (port := port) (fd1 := fd1) (fd2 := fd2) in E; [|done|done].
  destruct E as [Es' Em]. apply udp_send_law in Es. split.
  - rewrite Es'. erewrite to_socket_app by exact Es. by rewrite decide_True.
  - etransitivity; [|exact Em]. split_and!; try done. cbn [ep_octet_count count_packet set_timestamp].
    do 2 f_equal. cbn [sum_list_with]. rewrite length_concat_sum. done.
Qed.

(** The packets a receiver should see for the calls [ps]. *)
Fixpoint expected (ep : rtp_endpoint) (seq : Z) (ps : list packet_args) : list rtp_packet :=
  match ps with
  | [] => []
  | (v, ts, marker, _) :: ps =>
      MkPacket 2 marker (ep_payload ep) seq (u32 (ep_start_timestamp ep + ts)) (ep_ssrc ep) (concat v)
      :: expected ep ((seq + 1) mod 65536) ps
  end.

Lemma expected_same ep ep' seq ps :
  ep_payload ep' = ep_payload ep → ep_ssrc ep' = ep_ssrc ep →
  ep_start_timestamp ep' = ep_start_timestamp ep → expected ep' seq ps = expected ep seq ps.
Proof.
  intros E1 E2 E3. revert seq. induction ps as [|[[[v ts] m] c] ps IH]; intros seq; [done|].
  cbn [expected]. by rewrite E1, E2, E3, IH.
Qed.

Lemma set_timestamp_value ep ts :
  u32 (ep_last_timestamp (set_timestamp ep ts)) = u32 (ep_start_timestamp ep + ts).
Proof. cbn [ep_last_timestamp set_timestamp]. by rewrite land_u32, !u32_idem. Qed.

Lemma send_calls_udp (n : N) ep ps port fd1 fd2 ep' n' :
  wf_ep ep → ep_trans ep = RTP_TRANS_UDP port fd1 fd2 → fd1 ≠ fd2 →
  send_calls n ep ps = Ok (Sent, ep', n') →
  ∃ out, to_socket fd1 n' = to_socket fd1 n ++ out ∧
    map rtp_decode out = map Some (expected ep (ep_seqnum ep) ps).
Proof.
  intros Hw Ht Hne. revert n ep Hw Ht. induction ps as [|[[[v ts] m] c] ps IH]; intros n ep Hw Ht.
  { cbn [send_calls]. intros [= <- <-]. exists []. by rewrite app_nil_r. }
  cbn [send_calls]. destruct (send_rtp_packet n ep v ts m c) as [[[r ep1] n1]| | |] eqn:Es; try done.
  rewrite bind_Ok. destruct r; [|done]. intros E.
  destruct (send_rtp_packet_udp _ _ _ _ _ _ _ _ _ _ _ Ht Hne Es) as [Eo (M1 & M2 & M3 & M4 & M5 & _)].
  cbn [count_packet ep_payload ep_ssrc ep_trans ep_start_timestamp ep_seqnum] in *.
  destruct Hw as (W1 & W2 & W3).
  destruct (IH n1 ep1) as (out & E1 & E2); [|congruence|done|].
  { unfold wf_ep. rewrite M1, M2, M5, land_65535. pose proof (Z.mod_pos_bound (ep_seqnum ep + 1) 65536). lia. }
  exists ((rtp_header (set_timestamp ep ts) m ++ concat v) :: out). split; [rewrite E1, Eo; app_eq|].
  cbn [map expected]. rewrite rtp_decode_header by exact (conj W1 (conj W2 W3)).
  rewrite E2, set_timestamp_value. cbn [ep_payload ep_seqnum ep_ssrc set_timestamp]. f_equal.
  by rewrite (expected_same ep ep1), M5, land_65535 by done.
Qed.

(** C13: The RTP stream a UDP client receives -- for any sequence of [send_rtp_packet]
    calls that no error cuts short, the client's RTP socket gets one datagram per call, in
    order and with nothing in between (reports go to the RTCP socket), and they decode to
    version 2, consecutive sequence numbers modulo [2^16], the call's timestamp offset by
    the random start modulo [2^32], its marker, its payload and the endpoint's SSRC. *)
Theorem rtp_stream_udp (n : N) ep ps port fd1 fd2 ep' n' :
  wf_ep ep → ep_trans ep = RTP_TRANS_UDP port fd1 fd2 → fd1 ≠ fd2 →
  send_calls n ep ps = Ok (Sent, ep', n') →
  ∃ out, to_socket fd1 n' = to_socket fd1 n ++ out ∧
    map rtp_decode out = map Some (expected ep (ep_seqnum ep) ps).
Proof. apply send_calls_udp. Qed.
End udp_stream.

(** ** A stream of packets interleaved on a TCP connection *)

Section inter_stream.
Context {N : Type} `{TransportLaws N}.

(** The packets that went to one channel of a connection. *)
Definition to_channel (conn : nat) (chan : Z) (n : N) : list (list Z) :=
  map snd (filter (λ p, p.1 = Channel conn chan) (packets n)).

Lemma inter_send_channel n conn chan chan' v n' :
  inter_send n conn chan v = Ok n' →
  ∃ out, to_channel conn chan' n' = to_channel conn chan' n ++ out ∧
         out `sublist_of` (if decide (chan = chan') then [concat v] else []).
Proof.
  intros E. unfold to_channel. destruct (inter_send_law _ _ _ _ _ E) as [-> | ->].
  { exists []. rewrite app_nil_r. split; [done|apply sublist_nil_l]. }
  rewrite filter_app, map_app. eexists; split; [done|].
  rewrite filter_cons, filter_nil. cbn [fst]. case_decide as E1; case_decide as E2; simplify_eq; done.
Qed.

Lemma rtcp_send_inter n ep c conn ch1 ch2 r ep' n' :
  ep_trans ep = RTP_TRANS_INTER conn ch1 ch2 → ch1 ≠ ch2 → rtcp_send n ep c = Ok (r, ep', n') →
  to_channel conn ch1 n' = to_channel conn ch1 n ∧ same_media ep ep'.
Proof.
  intros Ht Hne. unfold rtcp_send. destruct (c 0%nat) as [sec usec]. cbn [ep_trans]. rewrite Ht.
  match goal with |- context [inter_send n conn ch2 ?b] => destruct (inter_send n conn ch2 b) as [n1| | |] eqn:Es end;
    try done.
  rewrite bind_Ok. intros [= <- <- <-]. split; [|by split_and!].
  destruct (inter_send_channel _ _ _ ch1 _ _ Es) as (out & -> & Hs).
  rewrite decide_False in Hs by done. apply sublist_nil_r in Hs as ->. apply app_nil_r.
Qed.

Lemma rtcp_follow_up_inter n ep c conn ch1 ch2 r ep' n' :
  ep_trans ep = RTP_TRANS_INTER conn ch1 ch2 → ch1 ≠ ch2 → rtcp_follow_up n ep c = Ok (r, ep', n') →
  to_channel conn ch1 n' = to_channel conn ch1 n ∧ same_media ep ep'.
Proof.
  intros Ht Hne. unfold rtcp_follow_up. destruct (ep_force_rtcp ep).
  - destruct (rtcp_send n ep c) as [[[r1 ep1] n1]| | |] eqn:E; try done. rewrite bind_Ok.
    destruct (rtcp_send_inter _ _ _ _ _ _ _ _ _ Ht Hne E) as [Hs Hm].
    destruct r1; intros [= <- <- <-]; split; try done.
  - destruct (10 <? _); [by apply rtcp_send_inter with ch2|]. by intros [= <- <- <-].
Qed.

Lemma send_rtp_packet_inter n ep v ts marker c conn ch1 ch2 r ep' n' :
  ep_trans ep = RTP_TRANS_INTER conn ch1 ch2 → ch1 ≠ ch2 →
  send_rtp_packet n ep v ts marker c = Ok (r, ep', n') →
  same_media (count_packet ep (12 + length (concat v))) ep' ∧
  ∃ out, to_channel conn ch1 n' = to_channel conn ch1 n ++ out ∧
    out `sublist_of` [rtp_header (set_timestamp ep ts) marker ++ concat v].
Proof.
  intros Ht Hne. unfold send_rtp_packet. cbn [ep_trans set_timestamp]. rewrite Ht.
  match goal with |- context [inter_send n conn ch1 ?b] => destruct (inter_send n conn ch1 b) as [n1| | |] eqn:Es end;
    try done.
  rewrite !bind_Ok. intros E.
  apply rtcp_follow_up_inter with (conn := conn) (ch1 := ch1) (ch2 := ch2) in E; [|done|done].
  destruct E as [Es' Em]. split.
  - etransitivity; [|exact Em]. split_and!; try done. cbn [ep_octet_count count_packet set_timestamp].
    do 2 f_equal. cbn [sum_list_with]. rewrite length_concat_sum. done.
  - rewrite Es'. destruct (inter_send_channel _ _ _ ch1 _ _ Es) as (out & -> & Hs).
    rewrite decide_True in Hs by done. eauto.
Qed.

Lemma send_calls_inter n ep ps conn ch1 ch2 r ep' n' :
  wf_ep ep → ep_trans ep = RTP_TRANS_INTER conn ch1 ch2 → ch1 ≠ ch2 →
  send_calls n ep ps = Ok (r, ep', n') →
  ∃ out, to_channel conn ch1 n' = to_channel conn ch1 n ++ out ∧
    map rtp_decode out `sublist_of` map Some (expected ep (ep_seqnum ep) ps).
Proof.
  intros Hw Ht Hne. revert n ep Hw Ht. induction ps as [|[[[v ts] m] c] ps IH]; intros n ep Hw Ht.
  { cbn [send_calls]. intros [= <- <- <-]. exists []. by rewrite app_nil_r. }
  cbn [send_calls]. destruct (send_rtp_packet n ep v ts m c) as [[[r1 ep1] n1]| | |] eqn:Es; try done.
  rewrite bind_Ok. intros E.
  destruct (send_rtp_packet_inter _ _ _ _ _ _ _ _ _ _ _ _ Ht Hne Es)
    as [(M1 & M2 & M3 & M4 & M5 & _) (out1 & Eo & Hs)].
  cbn [count_packet ep_payload ep_ssrc ep_trans ep_start_timestamp ep_seqnum] in *.
  pose proof Hw as (W1 & W2 & W3).
  assert (∃ out, to_channel conn ch1 n' = to_channel conn ch1 n1 ++ out ∧
    map rtp_decode out `sublist_of` map Some (expected ep ((ep_seqnum ep + 1) mod 65536) ps))
    as (out & E1 & E2).
  { destruct r1; [|simplify_eq; exists []; split; [by rewrite app_nil_r|apply sublist_nil_l]].
    destruct (IH n1 ep1) as (out & E1 & E2); [|congruence|done|].
    { unfold wf_ep. rewrite M1, M2, M5, land_65535.
      pose proof (Z.mod_pos_bound (ep_seqnum ep + 1) 65536). lia. }
    exists out. split; [done|].
    by rewrite (expected_same ep ep1), M5, land_65535 in E2 by done. }
  exists (out1 ++ out). split; [rewrite E1, Eo; app_eq|].
  rewrite map_app. cbn [map expected].
  apply sublist_cons_r in Hs as [Hs|(out2 & -> & Hs)]; apply sublist_nil_r in Hs as ->; cbn [map app].
  - by apply sublist_cons.
  - rewrite rtp_decode_header by exact Hw. rewrite set_timestamp_value. by apply sublist_skip.
Qed.
End inter_stream.

(** The ring buffer's side: what is sent and queued is the framing of the packets taken. *)
Definition rn_inv (n : ring_net) : Prop :=
  wf_ring (rn_ring n) ∧ Forall wf_packet (rn_sent n) ∧
  rn_out n ++ queue (rn_ring n) = concat (map frame_packet (rn_sent n)).

Lemma inter_send_rn_inv (n : ring_net) conn chan v n' :
  rn_inv n → wf_packet (chan, v) → inter_send n conn chan v = Ok n' → rn_inv n'.
Proof.
  intros (H1 & H2 & H3) Hp. cbn [inter_send ring_net_transport]. destruct (negb _); [done|].
  destruct (interleave_send _ _ _ _) as [[[ok c] out]| | |] eqn:E; try done. rewrite bind_Ok.
  intros [= <-]. apply interleave_send_Ok in E as [Hc Eq]; [|done].
  unfold rn_inv. cbn [rn_ring rn_sent rn_out]. split; [done|].
  rewrite map_app, concat_app, <- app_assoc, Eq, app_assoc, H3.
  destruct ok; cbn [map concat]; rewrite ?app_nil_r; [|done].
  split; [apply Forall_app; split; [done|by constructor]|done].
Qed.

Definition rtp_fits (a : packet_args) : Prop := Z.of_nat (length (concat a.1.1.1)) <= 65000.

Lemma rtcp_send_rn_inv (n : ring_net) ep c conn ch1 ch2 r ep' n' :
  ep_trans ep = RTP_TRANS_INTER conn ch1 ch2 → 0 <= ch2 < 256 → rn_inv n →
  rtcp_send n ep c = Ok (r, ep', n') → rn_inv n'.
Proof.
  intros Ht Hc Hi. unfold rtcp_send. destruct (c 0%nat) as [sec usec]. cbn [ep_trans]. rewrite Ht.
  match goal with |- context [inter_send n conn ch2 ?b] => destruct (inter_send n conn ch2 b) as [n1| | |] eqn:Es end;
    try done.
  rewrite bind_Ok. intros [= <- <- <-]. eapply inter_send_rn_inv; [exact Hi| |exact Es].
  split; [done|]. by vm_compute.
Qed.

Lemma send_calls_rn_inv (n : ring_net) ep ps conn ch1 ch2 r ep' n' :
  ep_trans ep = RTP_TRANS_INTER conn ch1 ch2 → ch1 ≠ ch2 → 0 <= ch1 < 256 → 0 <= ch2 < 256 →
  Forall rtp_fits ps → rn_inv n → send_calls n ep ps = Ok (r, ep', n') → rn_inv n'.
Proof.
  intros Ht Hne H1 H2 Hps. revert n ep Ht.
  induction Hps as [|[[[v ts] m] c] ps Hv Hps IH]; intros n ep Ht Hi; cbn [send_calls].
  { by intros [= <- <- <-]. }
  destruct (send_rtp_packet n ep v ts m c) as [[[r1 ep1] n1]| | |] eqn:Es; try done. rewrite bind_Ok.
  intros E. destruct (send_rtp_packet_inter _ _ _ _ _ _ _ _ _ _ _ _ Ht Hne Es)
    as [(_ & _ & Et & _) _]. cbn [count_packet ep_trans] in Et.
  assert (rn_inv n1) as Hi1; [|destruct r1; [by apply (IH n1 ep1); [rewrite Et|..]|by simplify_eq]].
  revert Es. unfold send_rtp_packet. cbn [ep_trans set_timestamp]. rewrite Ht.
  match goal with |- context [inter_send n conn ch1 ?b] => destruct (inter_send n conn ch1 b) as [n2| | |] eqn:Es end;
    try done.
  rewrite !bind_Ok. apply inter_send_rn_inv in Es; [|done|].
  2:{ split; [done|]. cbn [snd sum_list_with]. rewrite <- length_concat_sum.
      change (length (rtp_header _ _)) with 12%nat. unfold rtp_fits in Hv. simpl in Hv. lia. }
  unfold rtcp_follow_up. destruct (ep_force_rtcp _).
  - match goal with |- context [rtcp_send n2 ?e c] => destruct (rtcp_send n2 e c) as [[[r2 ep2] n3]| | |] eqn:E2 end;
      try done.
    apply (rtcp_send_rn_inv _ _ _ conn ch1 ch2) in E2; [|done..]. rewrite bind_Ok.
    destruct r2; by intros [= <- <- <-].
  - destruct (10 <? _); [|by intros [= <- <- <-]]. by apply (rtcp_send_rn_inv _ _ _ conn ch1 ch2).
Qed.

Lemma frames_channel (sent : list (Z * list (list Z))) ch :
  map snd (filter (λ p : Z * list Z, p.1 = ch) (map (λ p, (p.1, concat p.2)) sent)) =
  map snd (filter (λ p : dest * list Z, p.1 = Channel 0 ch) (map (λ p, (Channel 0 p.1, concat p.2)) sent)).
Proof.
  induction sent as [|[c v] sent IH]; [done|]. cbn [map]. rewrite !filter_cons. cbn [fst].
  case_decide as E1; case_decide as E2; simplify_eq; cbn [map]; by rewrite ?IH.
Qed.


(** ** Sender reports *)

(** A sender report carries the endpoint's SSRC, timestamp and counters where RFC 3550
    puts them; and the 32 bits a client echoes as "last SR" (bytes 10 to 13) are the ones
    [ComputeRTT] subtracts from its own clock. *)
Theorem sender_report_fields ep sec usec :
  let p := sender_report ep sec usec in
  length p = 52%nat ∧
  GET_32 (drop 4 p) = Some (u32 (ep_ssrc ep)) ∧
  GET_32 (drop 16 p) = Some (u32 (ep_last_timestamp ep)) ∧
  GET_32 (drop 20 p) = Some (u32 (ep_packet_count ep)) ∧
  GET_32 (drop 24 p) = Some (u32 (ep_octet_count ep)) ∧
  GET_32 (drop 10 p) = Some (u32 (ntp_mid sec usec)).
Proof.
  intros p. split; [done|].
  assert (∀ k v l, drop k p = PUT_32 v ++ l → GET_32 (drop k p) = Some (u32 v)) as HG.
  { intros k v l ->. apply GET_PUT_32. }
  split; [by eapply HG|]. split; [by eapply HG|]. split; [by eapply HG|]. split; [by eapply HG|].
  change (drop 10 p) with (drop 2 (PUT_32 (ntp_seconds sec)) ++ PUT_32 (ntp_fraction usec) ++ drop 16 p).
  set (s := ntp_seconds sec). set (f := ntp_fraction usec).
  change (drop 2 (PUT_32 s) ++ PUT_32 f ++ drop 16 p) with
    ((s >>> 8) .& 255 :: s .& 255 :: (f >>> 24) .& 255 :: (f >>> 16) .& 255 ::
     (f >>> 8) .& 255 :: f .& 255 :: drop 16 p).
  rewrite GET_32_value by apply land_255_byte. f_equal.
  rewrite !land_255, !shiftr_div by lia.
  assert (0 <= f < 2 ^ 32) as Hf by apply ntp_fraction_range.
  assert (0 <= s < 2 ^ 32) as Hs by apply u32_range.
  unfold ntp_mid. fold f. assert (u32 (sec + 0x83AA7E80) = s) as E by done.
  revert E Hf Hs. generalize s, f, (sec + 0x83AA7E80). clear. intros s f t <- Hf _.
  change (2 ^ 24) with 16777216; change (2 ^ 16) with 65536; change (2 ^ 8) with 256.
  unfold u32; change (2 ^ 32) with 4294967296 in *.
  Z.div_mod_to_equations; lia.
Qed.

(** ** Ports *)

(** The pairs of a range: [start + 2 i] and its successor, for [i] below [pairs]. *)
Definition pairs (r : port_range) : Z := (rtp_port_end r - rtp_port_start r + 1) / 2.

Definition wf_range (r : port_range) : Prop :=
  rtp_port_start r mod 2 = 0 ∧ 0 <= rtp_port_start r ∧ rtp_port_start r < rtp_port_end r.

Lemma land_1 x : x .& 1 = x mod 2.
Proof. apply (Z.land_ones x 1). lia. Qed.

Lemma config_rtprange_wf lo hi r :
  0 <= lo → config_rtprange lo hi = Some r →
  wf_range r ∧ lo <= rtp_port_start r ∧ rtp_port_end r <= hi ∧ 4 <= pairs r.
Proof.
  intros Hlo. unfold config_rtprange, truth. rewrite !land_1.
  destruct (Z.eqb_spec (lo mod 2) 0), (Z.eqb_spec (hi mod 2) 0); cbn [negb];
    match goal with |- context [?x <? 8] => destruct (Z.ltb_spec x 8); [done|] end;
    intros [= <-]; unfold wf_range, pairs; cbn [rtp_port_start rtp_port_end];
    Z.div_mod_to_equations; lia.
Qed.

Definition free (s : sockets) (port : Z) : Prop :=
  s_bind s port = Bound ∧ s_bind s (port + 1) = Bound.

Lemma open_if_needed_ok s fd k :
  (∀ j, 0 <= s_socket s j) → 0 <= (open_if_needed s fd k).1.
Proof. intros Hs. unfold open_if_needed. destruct (Z.ltb_spec fd 0); simpl; [apply Hs|done]. Qed.

Lemma find_port_sound r s tries port f p f' :
  wf_range r → rtp_port_start r <= port → port mod 2 = 0 →
  find_port r s tries port f = GotPort p f' →
  free s p ∧ rtp_port_start r <= p ∧ p + 1 <= rtp_port_end r ∧ p mod 2 = 0.
Proof.
  intros (Hr1 & Hr2 & Hr3). revert port f.
  induction tries as [|tries IH]; intros port f Hp Hm; cbn [find_port]; [done|].
  set (q := if rtp_port_end r <? port + 1 then rtp_port_start r else port).
  assert (rtp_port_start r <= q ∧ q + 1 <= rtp_port_end r ∧ q mod 2 = 0) as (Hq1 & Hq2 & Hq3)
    by (unfold q; destruct (Z.ltb_spec (rtp_port_end r) (port + 1)); lia).
  assert ((q + 2) mod 2 = 0) as Hq4 by (Z.div_mod_to_equations; lia).
  destruct (open_if_needed s (rtpfd f) (f_calls f)) as [fd1 k1]. destruct (fd1 <? 0); [done|].
  destruct (open_if_needed s (rtcpfd f) k1) as [fd2 k2]. destruct (fd2 <? 0); [done|].
  destruct (s_bind s q) eqn:E1; [|apply IH; [lia|done]|done].
  destruct (s_bind s (q + 1)) eqn:E2; [|apply IH; [lia|done]|done].
  by intros [= <- <-].
Qed.

Lemma find_port_complete r s tries i f k :
  wf_range r → (∀ j, 0 <= s_socket s j) → (∀ p, s_bind s p ≠ BindError) →
  0 <= i <= pairs r → 0 <= k < Z.of_nat tries →
  free s (rtp_port_start r + 2 * (((if i =? pairs r then 0 else i) + k) mod pairs r)) →
  ∃ p f', find_port r s tries (rtp_port_start r + 2 * i) f = GotPort p f'.
Proof.
  intros (Hr1 & Hr2 & Hr3) Hs Hb. revert i f k.
  induction tries as [|tries IH]; intros i f k Hi Hk Hf; [lia|]. cbn [find_port].
  assert (0 < pairs r) as HK by (unfold pairs; Z.div_mod_to_equations; lia).
  set (j := if i =? pairs r then 0 else i) in *.
  assert (0 <= j < pairs r) as Hj by (unfold j; destruct (Z.eqb_spec i (pairs r)); lia).
  assert ((if rtp_port_end r <? rtp_port_start r + 2 * i + 1 then rtp_port_start r
           else rtp_port_start r + 2 * i) = rtp_port_start r + 2 * j) as ->.
  { unfold j, pairs in *. destruct (Z.ltb_spec (rtp_port_end r) (rtp_port_start r + 2 * i + 1)),
      (Z.eqb_spec i ((rtp_port_end r - rtp_port_start r + 1) / 2)); Z.div_mod_to_equations; lia. }
  pose proof (open_if_needed_ok s (rtpfd f) (f_calls f) Hs) as H1.
  destruct (open_if_needed s (rtpfd f) (f_calls f)) as [fd1 k1]. cbn [fst] in H1.
  destruct (Z.ltb_spec fd1 0); [lia|].
  pose proof (open_if_needed_ok s (rtcpfd f) k1 Hs) as H2.
  destruct (open_if_needed s (rtcpfd f) k1) as [fd2 k2]. cbn [fst] in H2.
  destruct (Z.ltb_spec fd2 0); [lia|].
  assert (∀ f', (k ≠ 0 ∨ ¬ free s (rtp_port_start r + 2 * j)) →
    ∃ p f'', find_port r s tries (rtp_port_start r + 2 * j + 2) f' = GotPort p f'') as Hnext.
  { intros f' Hor. replace (rtp_port_start r + 2 * j + 2) with (rtp_port_start r + 2 * (j + 1)) by lia.
    assert (k ≠ 0) as Hk0.
    { intros ->. destruct Hor as [|Hn]; [done|]. apply Hn. rewrite Z.add_0_r, Z.mod_small in Hf by lia. done. }
    apply (IH (j + 1) f' (k - 1)); [lia|lia|].
    replace ((if j + 1 =? pairs r then 0 else j + 1) + (k - 1)) with
      (if j + 1 =? pairs r then j + k - pairs r else j + k)
      by (destruct (Z.eqb_spec (j + 1) (pairs r)); lia).
    destruct (Z.eqb_spec (j + 1) (pairs r)); [|done].
    by replace ((j + k - pairs r) mod pairs r) with ((j + k) mod pairs r)
      by (rewrite <- (Z.mod_add (j + k - pairs r) 1) by lia; f_equal; lia). }
  destruct (s_bind s (rtp_port_start r + 2 * j)) eqn:E1.
  - destruct (s_bind s (rtp_port_start r + 2 * j + 1)) eqn:E2; [eauto| |by destruct (Hb _ E2)].
    apply Hnext. right. intros [_ ?]. congruence.
  - apply Hnext. right. intros [? _]. congruence.
  - by destruct (Hb _ E1).
Qed.

Lemma first_port_index r random :
  wf_range r → 0 <= random →
  ∃ i, 0 <= i <= pairs r ∧ first_port r random = rtp_port_start r + 2 * i.
Proof.
  intros (Hr1 & Hr2 & Hr3) Hrnd. unfold first_port, truth, pairs. rewrite land_1.
  rewrite Z.rem_mod_nonneg by lia.
  pose proof (Z.mod_pos_bound random (rtp_port_end r - rtp_port_start r) ltac:(lia)) as Hm.
  set (x := random mod _) in *. clearbody x.
  exists ((x + 1) / 2). destruct (Z.eqb_spec ((rtp_port_start r + x) mod 2) 0); cbn [negb];
    Z.div_mod_to_equations; lia.
Qed.

(** The search for UDP ports -- a port pair it settles on is free, lies in the
    configured range and starts at an even port; and if the range has any free pair, the
    search finds one, whatever the random starting point. *)
Theorem port_search r s random :
  wf_range r → 0 <= random → (∀ j, 0 <= s_socket s j) → (∀ p, s_bind s p ≠ BindError) →
  let res := find_port r s (max_tries r) (first_port r random) (MkFds (-1) (-1) 0) in
  (∀ p f, res = GotPort p f →
     free s p ∧ rtp_port_start r <= p ∧ p + 1 <= rtp_port_end r ∧ p mod 2 = 0) ∧
  ((∃ i, 0 <= i < pairs r ∧ free s (rtp_port_start r + 2 * i)) → ∃ p f, res = GotPort p f).
Proof.
  intros Hr Hrnd Hs Hb. pose proof Hr as (Hr1 & Hr2 & Hr3).
  destruct (first_port_index r random Hr Hrnd) as (i & Hi & ->). split.
  - intros p f. apply find_port_sound; [done|lia|Z.div_mod_to_equations; lia].
  - intros (j & Hj & Hf). set (i0 := if i =? pairs r then 0 else i).
    assert (0 <= i0 < pairs r) as Hi0 by (unfold i0; destruct (Z.eqb_spec i (pairs r)); lia).
    apply (find_port_complete r s _ i _ ((j - i0) mod pairs r)); try done.
    + unfold max_tries. rewrite Z.quot_div_nonneg, Z2Nat.id by (unfold pairs in *; lia).
      unfold pairs in *. apply Z.mod_pos_bound. lia.
    + fold i0. rewrite Zplus_mod_idemp_r. replace (i0 + (j - i0)) with j by lia.
      by rewrite Z.mod_small by lia.
Qed.

(** ** Timeouts *)

(** A report to a UDP client that has been silent for more than 20 seconds tears its
    endpoint down without sending; an interleaved client is never timed out. *)
Theorem rtcp_silence {N} `{Transport N} (n : N) ep c :
  match ep_trans ep with
  | RTP_TRANS_INTER _ _ _ =>
      ∀ r ep' n', rtcp_send n ep c = Ok (r, ep', n') → r = Sent
  | _ =>
      20 < i32 ((c 0%nat).1 - ep_last_rtcp_recv ep) →
      ∃ ep', rtcp_send n ep c = Ok (TornDown, ep', n)
  end.
Proof.
  unfold rtcp_send. destruct (c 0%nat) as [sec usec]. cbn [fst ep_trans ep_last_rtcp_recv].
  destruct (ep_trans ep) as [|port fd1 fd2|conn ch1 ch2].
  - intros Hs. destruct (Z.ltb_spec 20 (i32 (sec - ep_last_rtcp_recv ep))); [eauto|lia].
  - intros Hs. destruct (Z.ltb_spec 20 (i32 (sec - ep_last_rtcp_recv ep))); [eauto|lia].
  - intros r ep' n'. destruct (inter_send _ _ _ _); try done. by intros [= <- _ _].
Qed.

(** ** Witnesses *)

Definition w_udp_ep : rtp_endpoint :=
  MkEp 96 1400 0x01020304 0xFFFFFFF0 0 65535 0 0 false true 100 100
    (RTP_TRANS_UDP 50000 5 6) 0 None FORMAT_JPEG.

Definition w_calls : list packet_args :=
  [([[1; 2]; [3]], 90, false, λ _, (100, 0)); ([[4]], 180, true, λ _, (101, 0))].

Lemma rtp_stream_udp_witness :
  ∃ ep' n' out,
    send_calls (MkUdpLog [true; true; true] []) w_udp_ep w_calls = Ok (Sent, ep', n') ∧
    to_socket 5 n' = out ∧
    map rtp_decode out =
      [Some (MkPacket 2 false 96 65535 74 0x01020304 [1; 2; 3]);
       Some (MkPacket 2 true 96 0 164 0x01020304 [4])].
Proof.
  destruct (send_calls (MkUdpLog [true; true; true] []) w_udp_ep w_calls) as [[[r ep'] n']| | |] eqn:E;
    try (vm_compute in E; discriminate).
  assert (r = Sent) as -> by (vm_compute in E; congruence).
  destruct (rtp_stream_udp (MkUdpLog [true; true; true] []) w_udp_ep w_calls 50000 5 6 ep' n')
    as (out & E1 & E2).
  - unfold wf_ep. cbn. lia.
  - done.
  - done.
  - done.
  - exists ep', n', out. split_and!; [done|exact E1|rewrite E2; by vm_compute].
Defined.

Definition w_inter_ep : rtp_endpoint :=
  MkEp 96 1400 0x01020304 0xFFFFFFF0 0 65535 0 0 false true 100 100
    (RTP_TRANS_INTER 0 0 1) 0 None FORMAT_JPEG.


Lemma port_search_witness :
  ∃ p f, find_port (MkRange 5000 5007) (MkSockets (λ k, Z.of_nat k + 3)
           (λ p, if p =? 5002 then Bound else if p =? 5003 then Bound else AddrInUse) true true None)
           (max_tries (MkRange 5000 5007)) (first_port (MkRange 5000 5007) 6) (MkFds (-1) (-1) 0) = GotPort p f.
Proof.
  apply (port_search (MkRange 5000 5007) (MkSockets (λ k, Z.of_nat k + 3)
    (λ p, if p =? 5002 then Bound else if p =? 5003 then Bound else AddrInUse) true true None) 6).
  - done.
  - lia.
  - intros j. simpl. lia.
  - intros p. simpl. destruct (p =? 5002); [done|]. by destruct (p =? 5003).
  - exists 1. split; [by vm_compute|]. by vm_compute.
Defined.
