(* ===== verification/RtpMedia.v ===== *)
(** * RTP payload formats ([rtp-jpeg.c], [rtp-rawaudio.c], [rtp-h264.c])

    Each format has a private structure, a [process_frame] that looks at the frame to be
    sent and a [send] that cuts it into packets.  The bytes of a frame are the storage
    [f->d] points to; a pointer into them is a suffix. *)

From Stdlib Require Import String.
From S2P Require Import Prelude CString Frame Rtcp SendBuf Rtp Base64.

Local Open Scope Z_scope.
Local Open Scope c_scope.

(** ** Cutting a frame into packets *)

(** [n] bytes at a pointer. *)
Definition bytes_at (p : list Z) (n : Z) : outcome (list Z) :=
  if (n <? 0) || (Z.of_nat (length p) <? n) then Undef else Ok (take (Z.to_nat n) p).

(** The entries of the packet after the RTP header, its timestamp and its marker. *)
Definition packet := (list (list Z) * Z * bool)%type.

Section fragments.
Context {N : Type} `{Transport N}.

(** [for (i = 0; i < len; i += plen)] with one [send_rtp_packet] per turn; [plen] and
    [pkt] are told whether it is the first turn; [cs k] is the clock of the [k]-th call. *)
Fixpoint fragment_loop (fuel : nat) (len : Z) (plen : bool → Z → Z) (pkt : bool → Z → Z → outcome packet)
    (cs : nat → clock) (first : bool) (i : Z) (n : N) (ep : rtp_endpoint)
    : outcome (sent * rtp_endpoint * N) :=
  if negb (i <? len) then Ok (Sent, ep, n) else
  match fuel with
  | O => Diverge
  | S fuel =>
      '(v, ts, m) ← pkt first i (plen first i);
      '(r, ep, n) ← send_rtp_packet n ep v ts m (cs O);
      match r with
      | TornDown => Ok (TornDown, ep, n)
      | Sent => fragment_loop fuel len plen pkt (λ k, cs (S k)) false (i + plen first i) n ep
      end
  end.

End fragments.

(** ** JPEG *)

Record rtp_jpeg := MkJpeg {
  j_type : Z; j_width : Z; j_height : Z;
  j_luma_table : Z; j_chroma_table : Z;
  j_quant : list (option (list Z));
  j_scan_data : list Z; j_scan_data_len : Z;
  j_init_done : bool;
  j_ts_incr : Z; j_timestamp : Z;
  j_bHasDRI : bool; j_DRI : Z }.

Definition set_quant (out : rtp_jpeg) (q : list (option (list Z))) : rtp_jpeg :=
  MkJpeg (j_type out) (j_width out) (j_height out) (j_luma_table out) (j_chroma_table out) q
    (j_scan_data out) (j_scan_data_len out) (j_init_done out) (j_ts_incr out) (j_timestamp out)
    (j_bHasDRI out) (j_DRI out).

(** The segment parsers return whether they succeeded, and what they set in any case.
    The loop of [parse_DQT]: *)
Fixpoint parse_DQT_from (fuel : nat) (out : rtp_jpeg) (d : list Z) (len i : Z)
    : outcome (bool * rtp_jpeg) :=
  if negb (i <? len) then Ok (true, out) else
  match fuel with
  | O => Diverge
  | S fuel =>
      b ← rd d (Z.to_nat i);
      if negb (b .& 0xF0 =? 0) then Ok (false, out) else
      parse_DQT_from fuel
        (set_quant out (<[Z.to_nat (b .& 0xF) := Some (drop (Z.to_nat i + 1) d)]> (j_quant out)))
        d len (i + 65)
  end.

Definition parse_DQT (out : rtp_jpeg) (d : list Z) (len : Z) : outcome (bool * rtp_jpeg) :=
  parse_DQT_from (S (Z.to_nat len)) out d len 0.

Definition get_16 (d : list Z) : outcome Z :=
  match GET_16 d with Some v => Ok v | None => Undef end.

Definition parse_DRI (out : rtp_jpeg) (d : list Z) (len : Z) : outcome (bool * rtp_jpeg) :=
  v ← get_16 d;
  Ok (true,
      MkJpeg (j_type out) (j_width out) (j_height out) (j_luma_table out) (j_chroma_table out)
        (j_quant out) (j_scan_data out) (j_scan_data_len out) (j_init_done out) (j_ts_incr out)
        (j_timestamp out) true v).

Definition set_size (out : rtp_jpeg) (w h chroma : Z) : rtp_jpeg :=
  MkJpeg (j_type out) w h (j_luma_table out) chroma (j_quant out)
    (j_scan_data out) (j_scan_data_len out) (j_init_done out) (j_ts_incr out) (j_timestamp out)
    (j_bHasDRI out) (j_DRI out).

Definition set_luma (out : rtp_jpeg) (type table : Z) : rtp_jpeg :=
  MkJpeg type (j_width out) (j_height out) table (j_chroma_table out) (j_quant out)
    (j_scan_data out) (j_scan_data_len out) (j_init_done out) (j_ts_incr out) (j_timestamp out)
    (j_bHasDRI out) (j_DRI out).

(** One turn of the loop over the components: identifier, sampling factors, table. *)
Definition parse_component (out : rtp_jpeg) (id sampling table : Z) : bool * rtp_jpeg :=
  if (16 <=? table) || negb (bool_decide (is_Some (mjoin (j_quant out !! Z.to_nat table)))) then (false, out)
  else if id =? 1 then
    if sampling =? 0x11 then (true, set_luma out 0 table)
    else if sampling =? 0x22 then (true, set_luma out 1 table)
    else if sampling =? 0x21 then (true, set_luma out 0 table)
    else (false, out)
  else if (id =? 2) || (id =? 3) then
    if negb (sampling =? 0x11) then (false, out)
    else if j_chroma_table out <? 0 then (true, set_size out (j_width out) (j_height out) table)
    else if negb (j_chroma_table out =? table) then (false, out)
    else (true, out)
  else (false, out).

Fixpoint parse_components (k c : nat) (out : rtp_jpeg) (d : list Z) : outcome (bool * rtp_jpeg) :=
  match k with
  | O => Ok (true, out)
  | S k =>
      table ← rd d (c + 2); id ← rd d c; sampling ← rd d (c + 1);
      match parse_component out id sampling table with
      | (true, out) => parse_components k (c + 3) out d
      | (false, out) => Ok (false, out)
      end
  end.

(** [height] and [width] are assigned in pixels before they are tested. *)
Definition parse_SOF (out : rtp_jpeg) (d : list Z) (len : Z) : outcome (bool * rtp_jpeg) :=
  let out := set_size out (j_width out) (j_height out) (-1) in
  precision ← rd d 0;
  if negb (precision =? 8) then Ok (false, out) else
  h ← get_16 (drop 1 d);
  w ← get_16 (drop 3 d);
  if truth (h .& 7) || truth (w .& 7) then Ok (false, set_size out w h (-1)) else
  let out := set_size out (w >>> 3) (h >>> 3) (-1) in
  ncomp ← rd d 5;
  if negb (ncomp =? 3) then Ok (false, out) else
  parse_components 3 6 out d.

Definition parse_DHT (out : rtp_jpeg) (d : list Z) (len : Z) : outcome (bool * rtp_jpeg) := Ok (true, out).

(** [out->scan_data_len = 0; return 0]. *)
Definition no_scan (out : rtp_jpeg) : bool * rtp_jpeg :=
  (false,
   MkJpeg (j_type out) (j_width out) (j_height out) (j_luma_table out) (j_chroma_table out)
     (j_quant out) (j_scan_data out) 0 (j_init_done out) (j_ts_incr out) (j_timestamp out)
     (j_bHasDRI out) (j_DRI out)).

(** The start of scan: what follows the segment is the scan data. *)
Definition start_of_scan (out : rtp_jpeg) (scan : list Z) (len now_ms : Z) : bool * rtp_jpeg :=
  (true,
   MkJpeg (j_type out) (j_width out) (j_height out) (j_luma_table out) (j_chroma_table out)
     (j_quant out) scan len true (j_ts_incr out) (u32 (now_ms * 90)) (j_bHasDRI out) (j_DRI out)).

(** A segment parser that fails ends the frame. *)
Definition or_no_scan (r : outcome (bool * rtp_jpeg)) (k : rtp_jpeg → outcome (bool * rtp_jpeg))
    : outcome (bool * rtp_jpeg) :=
  '(ok, out) ← r; if (ok : bool) then k out else Ok (no_scan out).

(** The loop over the segments.  Every turn advances by at least two bytes. *)
Fixpoint jpeg_segments (fuel : nat) (d : list Z) (length now_ms : Z) (i : nat) (out : rtp_jpeg)
    : outcome (bool * rtp_jpeg) :=
  if negb (Z.of_nat i <? length) then Ok (no_scan out) else
  match fuel with
  | O => Diverge
  | S fuel =>
      b ← rd d i;
      if negb (b =? 0xFF) then Ok (no_scan out) else
      m ← rd d (i + 1);
      blen ← (if m =? 0xD8 then Ok 0 else get_16 (drop (i + 2) d));
      let next := jpeg_segments fuel d length now_ms (i + Z.to_nat blen + 2) in
      let body := drop (i + 4) d in
      if m =? 0xDB then or_no_scan (parse_DQT out body (blen - 2)) next
      else if m =? 0xC0 then or_no_scan (parse_SOF out body (blen - 2)) next
      else if m =? 0xC4 then
        if j_init_done out then next out else or_no_scan (parse_DHT out body (blen - 2)) next
      else if m =? 0xDD then or_no_scan (parse_DRI out body (blen - 2)) next
      else if m =? 0xDA then
        Ok (start_of_scan out (drop (i + 2 + Z.to_nat blen) d)
              (length - Z.of_nat i - 2 - blen) now_ms)
      else next out
  end.

Definition jpeg_process_frame (d : list Z) (length : Z) (now_ms : Z) (out : rtp_jpeg)
    : outcome (bool * rtp_jpeg) :=
  let out :=
    MkJpeg (j_type out) (j_width out) (j_height out) (j_luma_table out) (j_chroma_table out)
      (replicate 16 None) (j_scan_data out) (j_scan_data_len out) (j_init_done out) (j_ts_incr out)
      (j_timestamp out) false (j_DRI out) in
  jpeg_segments (S (Z.to_nat length)) d length now_ms 0 out.

Definition jpeg_get_sdp (port : Z) : list Z :=
  lit "m=video " ++ dec port ++ lit " RTP/AVP 26" ++ [CR; LF] ++
  lit "a=rtpmap:26 JPEG/90000" ++ [CR; LF].

Definition jpeg_get_payload (payload : Z) : Z := 26.

(** The main header of a packet at offset [i]. *)
Definition jpeg_vhdr (out : rtp_jpeg) (i : Z) : list Z :=
  [0; u8 (i >>> 16); (i >>> 8) .& 0xff; i .& 0xff;
   u8 (if j_bHasDRI out then j_type out + 64 else j_type out); 255; u8 (j_width out); u8 (j_height out)].

Definition jpeg_rhdr (out : rtp_jpeg) : list (list Z) :=
  if j_bHasDRI out then [PUT_16 (j_DRI out) ++ [0xFF; 0xFF]] else [].

Definition jpeg_qhdr : list Z := [0; 0] ++ PUT_16 (2 * 64).

(** [out->quant[t]]. *)
Definition quant_ptr (out : rtp_jpeg) (t : Z) : outcome (option (list Z)) :=
  if t <? 0 then Undef else rd (j_quant out) (Z.to_nat t).

Definition quant_bytes (p : option (list Z)) : outcome (list Z) :=
  match p with Some p => bytes_at p 64 | None => Undef end.

(** [hdr_len]: all headers before the first packet is sent, 8 afterwards. *)
Definition jpeg_hdr_len (out : rtp_jpeg) (first : bool) : Z :=
  if first then 8 + (if j_bHasDRI out then 4 else 0) + 4 + 64 + 64 else 8.

Definition jpeg_plen (out : rtp_jpeg) (max : Z) (first : bool) (i : Z) : Z :=
  let plen := j_scan_data_len out - i in
  if max - jpeg_hdr_len out first <? plen then max - jpeg_hdr_len out first else plen.

(** The entries of a packet: [vcnt] is cut back to the main header and the restart
    header after the first packet. *)
Definition jpeg_packet (out : rtp_jpeg) (luma chroma : option (list Z)) (first : bool) (i plen : Z)
    : outcome packet :=
  tables ← (if first then l ← quant_bytes luma; c ← quant_bytes chroma; Ok [jpeg_qhdr; l; c]
            else Ok []);
  data ← bytes_at (drop (Z.to_nat i) (j_scan_data out)) plen;
  Ok ([jpeg_vhdr out i] ++ jpeg_rhdr out ++ tables ++ [data],
      j_timestamp out, plen + i =? j_scan_data_len out).

Definition jpeg_send {N} `{Transport N} (n : N) (ep : rtp_endpoint) (out : rtp_jpeg) (cs : nat → clock)
    : outcome (sent * rtp_endpoint * N) :=
  luma ← quant_ptr out (j_luma_table out);
  chroma ← quant_ptr out (j_chroma_table out);
  fragment_loop (S (Z.to_nat (j_scan_data_len out))) (j_scan_data_len out)
    (jpeg_plen out (ep_max_data_size ep)) (jpeg_packet out luma chroma) cs true 0 n ep.

(** ** Audio and video in one piece per packet *)

(** [plen = len - i; if (plen > max) plen = max]. *)
Definition plain_plen (len max i : Z) : Z := if max <? len - i then max else len - i.

(** The entries [hdr], then the bytes at [i]; the marker on the last packet. *)
Definition plain_packet (hdr : list (list Z)) (d : list Z) (ts : Z) (marker : bool) (i plen : Z)
    : outcome packet :=
  data ← bytes_at (drop (Z.to_nat i) d) plen; Ok (hdr ++ [data], ts, marker).

(** *** Raw audio *)

Record rtp_rawaudio := MkRaw {
  ra_data : list Z; ra_len : Z; ra_format : Z; ra_sampsize : Z; ra_channels : Z; ra_rate : Z;
  ra_timestamp : Z }.

(** [new_rtp_media_rawaudio_stream], with what [get_framerate] reports. *)
Definition new_rtp_media_rawaudio_stream (format channels rate : Z) : outcome rtp_rawaudio :=
  if channels =? 0 then Undef else
  Ok (MkRaw [] 0 format (if format =? FORMAT_PCM then 2 else 1) channels (Z.quot rate channels) 0).

Definition rtpmap (port payload : Z) (name : list Z) (rate channels : Z) : list Z :=
  lit "m=audio " ++ dec port ++ lit " RTP/AVP " ++ dec payload ++ [CR; LF] ++
  lit "a=rtpmap:" ++ dec payload ++ [SP] ++ name ++ lit "/" ++ dec rate ++ lit "/" ++ dec channels ++ [CR; LF].

Definition static_audio (port payload : Z) : list Z :=
  lit "m=audio " ++ dec port ++ lit " RTP/AVP " ++ dec payload ++ [CR; LF].

Definition rawaudio_get_sdp (payload port : Z) (out : rtp_rawaudio) : option (list Z) :=
  let other name := Some (rtpmap port payload (lit name) (ra_rate out) (ra_channels out)) in
  if ra_format out =? FORMAT_PCM then
    if (ra_rate out =? 44100) && (ra_channels out =? 2) then Some (static_audio port 10)
    else if (ra_rate out =? 44100) && (ra_channels out =? 1) then Some (static_audio port 11)
    else other "L16"%string
  else if ra_format out =? FORMAT_ALAW then
    if (ra_rate out =? 8000) && (ra_channels out =? 1) then Some (static_audio port 8)
    else other "PCMA"%string
  else if ra_format out =? FORMAT_ULAW then
    if (ra_rate out =? 8000) && (ra_channels out =? 1) then Some (static_audio port 0)
    else other "PCMU"%string
  else None.

Definition rawaudio_get_payload (payload : Z) (out : rtp_rawaudio) : Z :=
  if ra_format out =? FORMAT_PCM then
    if (ra_rate out =? 44100) && (ra_channels out =? 2) then 10
    else if (ra_rate out =? 44100) && (ra_channels out =? 1) then 11
    else payload
  else if ra_format out =? FORMAT_ALAW then
    if (ra_rate out =? 8000) && (ra_channels out =? 1) then 8 else payload
  else if ra_format out =? FORMAT_ULAW then
    if (ra_rate out =? 8000) && (ra_channels out =? 1) then 0 else payload
  else -1.

Definition rawaudio_process_frame (d : list Z) (length timestamp : Z) (out : rtp_rawaudio)
    : bool * rtp_rawaudio :=
  (true, MkRaw d length (ra_format out) (ra_sampsize out) (ra_channels out) (ra_rate out) timestamp).

Definition rawaudio_plen (out : rtp_rawaudio) (max i : Z) : Z :=
  let plen := ra_len out - i in
  if max <? plen then max - Z.rem max (ra_channels out * ra_sampsize out) else plen.

Definition rawaudio_send {N} `{Transport N} (n : N) (ep : rtp_endpoint) (out : rtp_rawaudio)
    (cs : nat → clock) : outcome (sent * rtp_endpoint * N) :=
  if (ra_channels out =? 0) || (ra_sampsize out =? 0) then
    if 0 <? ra_len out then Undef else Ok (Sent, ep, n)     (* division by zero *)
  else
  fragment_loop (S (Z.to_nat (ra_len out))) (ra_len out)
    (λ _, rawaudio_plen out (ep_max_data_size ep))
    (λ _ i plen,
       plain_packet [] (ra_data out)
         (u32 (ra_timestamp out + Z.quot (Z.quot i (ra_channels out)) (ra_sampsize out))) false i plen)
    cs true 0 n ep.

(** *** AAC, ADPCM, G.726, MPEG audio, H.263 *)

Record rtp_aac := MkAac { aac_data : list Z; aac_len : Z; aac_channels : Z; aac_rate : Z;
                          aac_timestamp : Z; aac_last_frame : Z }.

(** The block number of a timestamp, moved on when it has not advanced. *)
Definition next_block (frames last : Z) : Z := if frames <=? last then u64 (last + 1) else frames.

Definition aac_process_frame (d : list Z) (length timestamp : Z) (out : rtp_aac) : bool * rtp_aac :=
  let frames := next_block (timestamp / 1024) (aac_last_frame out) in
  (true, MkAac d length (aac_channels out) (aac_rate out) (u32 (frames * 1024)) frames).

Definition aac_au_header (len : Z) : list Z := [0; 16; u8 (len >>> 5); u8 ((len .& 0x1F) <<< 3)].

Definition aac_send {N} `{Transport N} (n : N) (ep : rtp_endpoint) (out : rtp_aac) (cs : nat → clock)
    : outcome (sent * rtp_endpoint * N) :=
  fragment_loop (S (Z.to_nat (aac_len out))) (aac_len out)
    (λ _, plain_plen (aac_len out) (ep_max_data_size ep))
    (λ _ i plen, plain_packet [aac_au_header (aac_len out)] (aac_data out) (aac_timestamp out)
                   (plen + i =? aac_len out) i plen) cs true 0 n ep.

Record rtp_adpcm := MkAdpcm { adpcm_data : list Z; adpcm_len : Z; adpcm_channels : Z; adpcm_rate : Z;
                              adpcm_timestamp : Z; adpcm_last_frame : Z }.

Definition adpcm_get_payload (payload : Z) (out : rtp_adpcm) : Z :=
  if (adpcm_rate out =? 8000) && (adpcm_channels out =? 1) then 5
  else if (adpcm_rate out =? 16000) && (adpcm_channels out =? 1) then 6
  else if (adpcm_rate out =? 11025) && (adpcm_channels out =? 1) then 16
  else if (adpcm_rate out =? 22050) && (adpcm_channels out =? 1) then 17
  else payload.

(** A block of no samples divides by zero. *)
Definition adpcm_process_frame (d : list Z) (length now_ms : Z) (out : rtp_adpcm)
    : outcome (bool * rtp_adpcm) :=
  if adpcm_channels out =? 0 then Undef else
  let u16N := u16 (Z.quot (Z.quot length 4) (adpcm_channels out) - 1) in
  let samples := u16 (u16N * 8 * adpcm_channels out) in
  if samples =? 0 then Undef else
  let frames := next_block (u64 (now_ms * Z.quot (adpcm_rate out) 1000) / samples) (adpcm_last_frame out) in
  Ok (true, MkAdpcm d length (adpcm_channels out) (adpcm_rate out) (u32 (frames * samples)) frames).

Definition adpcm_send {N} `{Transport N} (n : N) (ep : rtp_endpoint) (out : rtp_adpcm) (cs : nat → clock)
    : outcome (sent * rtp_endpoint * N) :=
  fragment_loop (S (Z.to_nat (adpcm_len out))) (adpcm_len out)
    (λ _, plain_plen (adpcm_len out) (ep_max_data_size ep))
    (λ _ i plen, plain_packet [] (adpcm_data out) (adpcm_timestamp out) false i plen) cs true 0 n ep.

Record rtp_g726 := MkG726 { g726_data : list Z; g726_len : Z; g726_timestamp : Z; g726_last_frame : Z;
                            g726_samples : Z; g726_bitrate : Z; g726_bits : Z }.

Definition g726_process_frame (d : list Z) (length timestamp : Z) (out : rtp_g726) : bool * rtp_g726 :=
  let samples := u16 (g726_samples out) in
  if samples =? 0 then (true, out) else
  let frames := next_block (timestamp / samples) (g726_last_frame out) in
  (true, MkG726 d length (u32 (frames * samples)) frames (g726_samples out) (g726_bitrate out) (g726_bits out)).

(** [u32MaxDataSize] is a whole number of [u32Bitrate_kbps]; the comparison is unsigned. *)
Definition g726_plen (out : rtp_g726) (max i : Z) : Z :=
  let max := u32 max / g726_bitrate out * g726_bitrate out in
  if max <? u32 (g726_len out - i) then i32 max else g726_len out - i.

Definition g726_send {N} `{Transport N} (n : N) (ep : rtp_endpoint) (out : rtp_g726) (cs : nat → clock)
    : outcome (sent * rtp_endpoint * N) :=
  if g726_bitrate out =? 0 then Undef else
  fragment_loop (S (Z.to_nat (g726_len out))) (g726_len out)
    (λ _, g726_plen out (ep_max_data_size ep))
    (λ _ i plen,
       if g726_bits out =? 0 then Undef else
       plain_packet [] (g726_data out) (u32 (g726_timestamp out + u32 (i * 8) / g726_bits out)) false i plen)
    cs true 0 n ep.

Record rtp_mpa := MkMpa { mpa_data : list Z; mpa_len : Z; mpa_ts_incr : Z; mpa_timestamp : Z }.

(** The frame may be [NULL]; index 3 of the sample rates is outside the table. *)
Definition mpa_process_frame (f : option (list Z * Z * Z)) (out : rtp_mpa) : outcome (bool * rtp_mpa) :=
  match f with
  | Some (d, length, timestamp) =>
      b ← rd d 2;
      rate ← rd [44100; 48000; 32000] (Z.to_nat ((b >>> 2) .& 3));
      Ok (true, MkMpa d length (Z.quot (90000 * 1152) rate) timestamp)
  | None => Ok (true, MkMpa (mpa_data out) 0 0 (mpa_timestamp out))
  end.

(** [mpahdr]: zero and the fragment offset. *)
Definition mpa_send {N} `{Transport N} (n : N) (ep : rtp_endpoint) (out : rtp_mpa) (cs : nat → clock)
    : outcome (sent * rtp_endpoint * N) :=
  fragment_loop (S (Z.to_nat (mpa_len out))) (mpa_len out)
    (λ _, plain_plen (mpa_len out) (ep_max_data_size ep))
    (λ _ i plen, plain_packet [PUT_16 0 ++ PUT_16 i] (mpa_data out) (mpa_timestamp out)
                   (plen + i =? mpa_len out) i plen) cs true 0 n ep.

Record rtp_h263 := MkH263 { h263_d : list Z; h263_len : Z; h263_init_done : bool; h263_ts_incr : Z;
                            h263_timestamp : Z }.

Definition h263_process_frame (d : list Z) (length : Z) (out : rtp_h263) : bool * rtp_h263 :=
  (h263_init_done out,
   MkH263 (drop 2 d) (length - 2) (h263_init_done out) (h263_ts_incr out)
     (u32 (h263_timestamp out + h263_ts_incr out))).

(** [vhdr]: the P bit on the first packet. *)
Definition h263_send {N} `{Transport N} (n : N) (ep : rtp_endpoint) (out : rtp_h263) (cs : nat → clock)
    : outcome (sent * rtp_endpoint * N) :=
  fragment_loop (S (Z.to_nat (h263_len out))) (h263_len out)
    (λ _, plain_plen (h263_len out) (ep_max_data_size ep))
    (λ first i plen, plain_packet [[if first then 4 else 0; 0]] (h263_d out) (h263_timestamp out)
                   (plen + i =? h263_len out) i plen) cs true 0 n ep.

(** ** H.264 *)

Record rtp_h264 := MkH264 {
  h_d : list Z; h_len : Z; h_key : bool; h_init_done : bool; h_ts_incr : Z; h_timestamp : Z;
  h_last_frame : Z; h_SPS : list Z; h_PPS : list Z }.

Definition h264_process_frame (d : list Z) (length : Z) (key : bool) (now_ms : Z) (out : rtp_h264)
    : outcome (bool * rtp_h264) :=
  if h_ts_incr out =? 0 then Undef else
  let frames := u64 (now_ms * 90) / u64 (h_ts_incr out) in
  Ok (h_init_done out,
      MkH264 d length key (h_init_done out) (h_ts_incr out) (u32 (frames * h_ts_incr out)) frames
        (h_SPS out) (h_PPS out)).

(** A parameter set in a packet of its own.  Its result is not looked at; a teardown
    frees the endpoint the rest of the function uses. *)
Definition send_parameter_set {N} `{Transport N} (n : N) (ep : rtp_endpoint) (set : list Z) (ts : Z)
    (c : clock) : outcome (rtp_endpoint * N) :=
  match set with
  | [] => Ok (ep, n)
  | _ =>
      '(r, ep, n) ← send_rtp_packet n ep [set] ts true c;
      match r with Sent => Ok (ep, n) | TornDown => Undef end
  end.

(** The FU indicator and header of a fragment of the frame after its first byte. *)
Definition fu_header (nal : Z) (first last : bool) : list Z :=
  [28 .| (nal .& 0x60); (nal .& 0x1F) .| (if first then 0x80 else 0) .| (if last then 0x40 else 0)].

(** The comparison of [plen] with [max_data_size - u32FULen] is unsigned. *)
Definition fu_plen (len max i : Z) : Z :=
  if u32 (max - 2) <? u32 (len - i) then i32 (max - 2) else len - i.

Definition h264_send {N} `{Transport N} (n : N) (ep : rtp_endpoint) (out : rtp_h264) (cs : nat → clock)
    : outcome (sent * rtp_endpoint * N) :=
  if (ep_packet_count ep =? 0) && negb (h_key out) then Ok (Sent, ep, n) else
  nal ← rd (h_d out) 0;
  '(ep, n) ←
    (if (ep_packet_count ep =? 0) && (nal =? 0x65) then
       '(ep, n) ← send_parameter_set n ep (h_SPS out) (h_timestamp out) (cs O);
       send_parameter_set n ep (h_PPS out) (h_timestamp out) (cs 1%nat)
     else Ok (ep, n));
  let cs k := cs (2 + k)%nat in
  if h_len out <=? ep_max_data_size ep then
    data ← bytes_at (h_d out) (h_len out);
    send_rtp_packet n ep [data] (h_timestamp out) true (cs O)
  else
    let len := h_len out - 1 in
    fragment_loop (S (Z.to_nat len)) len (λ _, fu_plen len (ep_max_data_size ep))
      (λ first i plen,
         plain_packet [fu_header nal first (plen + i =? len)] (drop 1 (h_d out)) (h_timestamp out)
           (plen + i =? len) i plen)
      cs true 0 n ep.

(** ** The packets of a frame *)

(** The turns of [fragment_loop]: first or not, offset, length. *)
Fixpoint cuts (fuel : nat) (len : Z) (plen : bool → Z → Z) (first : bool) (i : Z) : list (bool * Z * Z) :=
  match fuel with
  | O => []
  | S fuel =>
      if negb (i <? len) then [] else
      (first, i, plen first i) :: cuts fuel len plen false (i + plen first i)
  end.

Fixpoint with_clocks (ps : list packet) (cs : nat → clock) : list packet_args :=
  match ps with [] => [] | p :: ps => (p, cs O) :: with_clocks ps (λ k, cs (S k)) end.

(** Every turn takes at least one byte and no more than are left. *)
Definition advances (len : Z) (plen : bool → Z → Z) : Prop :=
  ∀ first i, 0 <= i < len → 0 < plen first i <= len - i.

Lemma fragment_loop_calls {N} `{Transport N} fuel len plen pkt g cs first i (n : N) ep :
  advances len plen → (∀ f j, 0 <= j < len → pkt f j (plen f j) = Ok (g f j (plen f j))) →
  0 <= i → (Z.to_nat (len - i) < fuel)%nat →
  fragment_loop fuel len plen pkt cs first i n ep =
  send_calls n ep (with_clocks (map (λ '(f, j, p), g f j p) (cuts fuel len plen first i)) cs).
Proof.
  intros Ha Hp. revert cs first i n ep. induction fuel as [|fuel IH]; intros cs first i n ep Hi Hf; [lia|].
  cbn [fragment_loop cuts]. destruct (Z.ltb_spec i len) as [Hlt|]; cbn [negb]; [|done].
  rewrite Hp, bind_Ok by lia. cbn [map with_clocks send_calls].
  destruct (g first i (plen first i)) as [[v ts] m].
  destruct (send_rtp_packet n ep v ts m (cs O)) as [[[r ep1] n1]| | |]; try done. rewrite !bind_Ok.
  destruct r; [|done]. destruct (Ha first i ltac:(lia)). apply IH; lia.
Qed.

(** The pieces put together are the data. *)
Lemma cuts_cover fuel len plen first i (d : list Z) :
  advances len plen → 0 <= i → (Z.to_nat (len - i) < fuel)%nat → Z.of_nat (length d) = len →
  concat (map (λ '(_, j, p), take (Z.to_nat p) (drop (Z.to_nat j) d)) (cuts fuel len plen first i)) =
  drop (Z.to_nat i) d.
Proof.
  intros Ha. revert first i. induction fuel as [|fuel IH]; intros first i Hi Hf Hd; [lia|].
  cbn [cuts]. destruct (Z.ltb_spec i len) as [Hlt|]; cbn [negb map concat].
  - destruct (Ha first i ltac:(lia)). rewrite IH by lia. rewrite Z2Nat.inj_add by lia.
    rewrite <- drop_drop. by rewrite take_drop.
  - rewrite drop_ge by lia. done.
Qed.

(** A property of every turn. *)
Lemma cuts_Forall (P : bool → Z → Z → Prop) fuel len plen first i :
  advances len plen → (∀ f j, 0 <= j < len → P f j (plen f j)) → 0 <= i →
  Forall (λ c, P c.1.1 c.1.2 c.2) (cuts fuel len plen first i).
Proof.
  intros Ha HP. revert first i. induction fuel as [|fuel IH]; intros first i Hi; cbn [cuts]; [constructor|].
  destruct (Z.ltb_spec i len); cbn [negb]; [|constructor].
  destruct (Ha first i ltac:(lia)). constructor; [by apply HP|apply IH; lia].
Qed.

(** ** What a JPEG receiver reassembles (RFC 2435) *)

Record jpeg_image := MkImage {
  i_type : Z; i_width : Z; i_height : Z; i_restart : option Z;
  i_luma : list Z; i_chroma : list Z; i_scan : list Z }.

(** One payload: its fragment offset and the image it describes so far, the tables
    present in the packet at offset 0. *)
Definition jpeg_payload (p : list Z) : option (Z * jpeg_image) :=
  match p with
  | _ :: o2 :: o1 :: o0 :: t :: _ :: w :: h :: rest =>
      let off := o2 * 65536 + o1 * 256 + o0 in
      let restart := if 64 <=? t then GET_16 rest else None in
      let rest := if 64 <=? t then drop 4 rest else rest in
      if off =? 0 then
        Some (off, MkImage (t mod 64) w h restart (take 64 (drop 4 rest)) (take 64 (drop 68 rest)) (drop 132 rest))
      else Some (off, MkImage (t mod 64) w h restart [] [] rest)
  | _ => None
  end.

Definition jpeg_append (img : jpeg_image) (p : list Z) : option jpeg_image :=
  '(off, x) ← jpeg_payload p;
  if off =? Z.of_nat (length (i_scan img)) then
    Some (MkImage (i_type img) (i_width img) (i_height img) (i_restart img) (i_luma img) (i_chroma img)
            (i_scan img ++ i_scan x))
  else None.

Definition jpeg_receive (ps : list (list Z)) : option jpeg_image :=
  match ps with
  | [] => None
  | p :: ps =>
      '(off, img) ← jpeg_payload p;
      if off =? 0 then foldl (λ acc p, img ← acc; jpeg_append img p) (Some img) ps else None
  end.

(** ** The packets [jpeg_send] makes *)

Lemma jpeg_plen_advances out (scan : list Z) max :
  j_scan_data_len out = Z.of_nat (length scan) → 145 <= max →
  advances (Z.of_nat (length scan)) (jpeg_plen out max).
Proof.
  intros El Hm first i Hi. unfold jpeg_plen, jpeg_hdr_len. rewrite El.
  destruct (j_bHasDRI out), first;
    match goal with |- context [?a <? ?b] => destruct (Z.ltb_spec a b) end; lia.
Qed.

Section jpeg_packets.
Context (out : rtp_jpeg) (luma chroma scan : list Z).
Context (Htype : 0 <= j_type out < 64) (Hw : 0 <= j_width out < 256) (Hh : 0 <= j_height out < 256).
Context (Hdri : j_bHasDRI out = true → 0 <= j_DRI out < 65536) (Hl : length luma = 64%nat) (Hc : length chroma = 64%nat).
Context (Hscan : 0 < Z.of_nat (length scan) < 2 ^ 24).

Definition jpeg_parts (first : bool) (i plen : Z) : list (list Z) :=
  [jpeg_vhdr out i] ++ jpeg_rhdr out ++ (if first then [jpeg_qhdr; luma; chroma] else []) ++
  [take (Z.to_nat plen) (drop (Z.to_nat i) scan)].

Definition the_image (s : list Z) : jpeg_image :=
  MkImage (j_type out) (j_width out) (j_height out) (if j_bHasDRI out then Some (j_DRI out) else None)
    luma chroma s.

Lemma fragment_offset i :
  0 <= i < 2 ^ 24 → u8 (i >>> 16) * 65536 + ((i >>> 8) .& 255) * 256 + (i .& 255) = i.
Proof.
  intros Hi. rewrite !land_255, !shiftr_div by lia. unfold u8.
  change (2 ^ 24) with 16777216 in Hi. change (2 ^ 16) with 65536. change (2 ^ 8) with 256.
  Z.div_mod_to_equations. lia.
Qed.

Lemma jpeg_tables s :
  let l := jpeg_qhdr ++ luma ++ chroma ++ s in
  take 64 (drop 4 l) = luma ∧ take 64 (drop 68 l) = chroma ∧ drop 132 l = s.
Proof.
  intros l. subst l. split_and!.
  - change (drop 4 (jpeg_qhdr ++ ?l)) with l. by apply take_app_length'.
  - change (drop 68 (jpeg_qhdr ++ ?l)) with (drop 64 l). rewrite drop_app_length' by done.
    by apply take_app_length'.
  - change (drop 132 (jpeg_qhdr ++ ?l)) with (drop 128 l).
    by rewrite app_assoc, drop_app_length' by (rewrite length_app; lia).
Qed.

Lemma jpeg_type_mod : (j_type out + 64) mod 64 = j_type out ∧ j_type out mod 64 = j_type out.
Proof. Z.div_mod_to_equations. lia. Qed.

Lemma jpeg_payload_first plen :
  jpeg_payload (concat (jpeg_parts true 0 plen)) = Some (0, the_image (take (Z.to_nat plen) scan)).
Proof.
  unfold jpeg_parts, jpeg_vhdr, jpeg_rhdr, the_image.
  rewrite (u8_small (j_width out)), (u8_small (j_height out)) by lia.
  change (u8 (0 >>> 16)) with 0. change ((0 >>> 8) .& 255) with 0. change (0 .& 255) with 0.
  change (Z.to_nat 0) with O. rewrite drop_0. set (s := take (Z.to_nat plen) scan).
  destruct (jpeg_tables s) as (T1 & T2 & T3). destruct jpeg_type_mod as [M1 M2].
  generalize Hdri. destruct (j_bHasDRI out); intros Hd; rewrite u8_small by lia; cbn [app concat jpeg_payload].
  - specialize (Hd eq_refl). destruct (Z.leb_spec 64 (j_type out + 64)); [|lia]. cbn [Z.mul Z.add Z.eqb].
    rewrite <- app_assoc, GET_PUT_16, u16_small by lia.
    change (drop 4 (PUT_16 (j_DRI out) ++ [255; 255] ++ ?l)) with l. rewrite app_nil_r.
    by rewrite T1, T2, T3, M1.
  - destruct (Z.leb_spec 64 (j_type out)); [lia|]. cbn [Z.mul Z.add Z.eqb]. rewrite app_nil_r.
    by rewrite T1, T2, T3, M2.
Qed.

Lemma jpeg_payload_next i plen :
  0 < i < 2 ^ 24 →
  ∃ x, jpeg_payload (concat (jpeg_parts false i plen)) = Some (i, x) ∧
       i_scan x = take (Z.to_nat plen) (drop (Z.to_nat i) scan).
Proof.
  intros Hi. unfold jpeg_parts, jpeg_vhdr, jpeg_rhdr. pose proof (fragment_offset i ltac:(lia)) as Ho.
  set (s := take (Z.to_nat plen) (drop (Z.to_nat i) scan)).
  destruct (j_bHasDRI out); rewrite (u8_small (j_type out + _)) || rewrite (u8_small (j_type out));
    try lia; cbn [app concat jpeg_payload]; rewrite Ho, app_nil_r.
  - destruct (Z.leb_spec 64 (j_type out + 64)); [|lia]. destruct (Z.eqb_spec i 0); [lia|].
    eexists. split; [done|]. cbn [i_scan]. done.
  - destruct (Z.leb_spec 64 (j_type out)); [lia|]. destruct (Z.eqb_spec i 0); [lia|].
    eexists. split; [done|]. done.
Qed.

Lemma jpeg_append_cuts fuel plen i :
  let len := Z.of_nat (length scan) in
  advances len plen → 0 < i <= len → (Z.to_nat (len - i) < fuel)%nat →
  foldl (λ acc p, img ← acc; jpeg_append img p) (Some (the_image (take (Z.to_nat i) scan)))
    (map (λ '(f, j, p), concat (jpeg_parts f j p)) (cuts fuel len plen false i)) = Some (the_image scan).
Proof.
  intros len Ha. revert i. induction fuel as [|fuel IH]; intros i Hi Hf; [lia|]. cbn [cuts].
  destruct (Z.ltb_spec i len) as [Hlt|]; cbn [negb map foldl].
  - destruct (Ha false i ltac:(lia)) as [H1 H2]. cbn [mbind option_bind]. unfold jpeg_append.
    destruct (jpeg_payload_next i (plen false i)) as (x & -> & Ex); [lia|]. cbn [mbind option_bind].
    cbn [the_image i_scan]. rewrite length_take. unfold len in *.
    destruct (Z.eqb_spec i (Z.of_nat (Z.to_nat i `min` length scan))); [|lia].
    rewrite Ex, take_take_drop. cbn [i_type i_width i_height i_restart i_luma i_chroma].
    rewrite <- Z2Nat.inj_add by lia. apply (IH (i + plen false i)); lia.
  - rewrite take_ge by (unfold len in *; lia). done.
Qed.

Lemma jpeg_receive_cuts fuel plen :
  let len := Z.of_nat (length scan) in
  advances len plen → (Z.to_nat len < fuel)%nat →
  jpeg_receive (map (λ '(f, j, p), concat (jpeg_parts f j p)) (cuts fuel len plen true 0)) =
  Some (the_image scan).
Proof.
  intros len Ha Hf. destruct fuel as [|fuel]; [lia|]. cbn [cuts].
  destruct (Z.ltb_spec 0 len); [|lia]. cbn [negb map jpeg_receive].
  destruct (Ha true 0 ltac:(lia)). rewrite jpeg_payload_first. cbn [mbind option_bind Z.eqb].
  rewrite Z.add_0_l. apply (jpeg_append_cuts fuel plen (plen true 0)); [done|lia|lia].
Qed.

Context (lp cp extra : list Z).
Context (Hlt : 0 <= j_luma_table out) (Hct : 0 <= j_chroma_table out).
Context (Hlq : j_quant out !! Z.to_nat (j_luma_table out) = Some (Some (luma ++ lp))).
Context (Hcq : j_quant out !! Z.to_nat (j_chroma_table out) = Some (Some (chroma ++ cp))).
Context (Hsd : j_scan_data out = scan ++ extra) (Hsl : j_scan_data_len out = Z.of_nat (length scan)).

Lemma jpeg_packet_parts first i plen :
  0 <= i → 0 < plen <= Z.of_nat (length scan) - i →
  jpeg_packet out (Some (luma ++ lp)) (Some (chroma ++ cp)) first i plen =
  Ok (jpeg_parts first i plen, j_timestamp out, plen + i =? Z.of_nat (length scan)).
Proof.
  intros Hi Hp. unfold jpeg_packet, quant_bytes, bytes_at. rewrite Hsd, Hsl.
  destruct (Z.ltb_spec 64 0); [lia|]. cbn [orb].
  destruct (Z.ltb_spec (Z.of_nat (length (luma ++ lp))) 64); [rewrite length_app in *; lia|].
  destruct (Z.ltb_spec (Z.of_nat (length (chroma ++ cp))) 64); [rewrite length_app in *; lia|].
  destruct (Z.ltb_spec plen 0); [lia|]. cbn [orb].
  destruct (Z.ltb_spec (Z.of_nat (length (drop (Z.to_nat i) (scan ++ extra)))) plen) as [Hlen|];
    [rewrite length_drop, length_app in Hlen; lia|].
  assert (take (Z.to_nat plen) (drop (Z.to_nat i) (scan ++ extra)) =
    take (Z.to_nat plen) (drop (Z.to_nat i) scan)) as Ed.
  { rewrite drop_app_le by lia. rewrite take_app_le; [done|]. rewrite length_drop. lia. }
  rewrite !take_app_length' by lia.
  destruct first; rewrite !bind_Ok; unfold jpeg_parts; by rewrite Ed.
Qed.

Definition jpeg_packets (max : Z) : list packet :=
  map (λ '(f, j, p), (jpeg_parts f j p, j_timestamp out, p + j =? Z.of_nat (length scan)))
    (cuts (S (length scan)) (Z.of_nat (length scan)) (jpeg_plen out max) true 0).

Lemma jpeg_send_calls {N} `{Transport N} (n : N) ep cs :
  145 <= ep_max_data_size ep →
  jpeg_send n ep out cs = send_calls n ep (with_clocks (jpeg_packets (ep_max_data_size ep)) cs).
Proof.
  intros Hm. unfold jpeg_send, quant_ptr.
  destruct (Z.ltb_spec (j_luma_table out) 0); [lia|]. destruct (Z.ltb_spec (j_chroma_table out) 0); [lia|].
  rewrite (rd_Ok _ _ _ Hlq), bind_Ok, (rd_Ok _ _ _ Hcq), bind_Ok, Hsl, Nat2Z.id.
  pose proof (jpeg_plen_advances out scan (ep_max_data_size ep) Hsl Hm) as Ha.
  apply (fragment_loop_calls _ _ _ _
    (λ f j p, (jpeg_parts f j p, j_timestamp out, p + j =? Z.of_nat (length scan)))); [done| |lia|lia].
  intros f j Hj. destruct (Ha f j Hj). apply jpeg_packet_parts; lia.
Qed.

Lemma jpeg_packets_received max :
  145 <= max → jpeg_receive (map (λ p, concat p.1.1) (jpeg_packets max)) = Some (the_image scan).
Proof.
  intros Hm. unfold jpeg_packets. rewrite map_map.
  rewrite <- (jpeg_receive_cuts (S (length scan)) (jpeg_plen out max)).
  - f_equal. apply map_ext. by intros [[f j] p].
  - by apply jpeg_plen_advances.
  - lia.
Qed.

(** The packets are at most [max_data_size] bytes of payload, but for the restart header,
    which only the first one allows for. *)
Lemma jpeg_packets_size max :
  145 <= max →
  Forall (λ p, Z.of_nat (length (concat p.1.1)) <= max + (if j_bHasDRI out then 4 else 0)) (jpeg_packets max).
Proof.
  intros Hm. unfold jpeg_packets. apply Forall_map.
  eapply Forall_impl; [apply (cuts_Forall (λ f _ p, p <= max - jpeg_hdr_len out f)); [by apply jpeg_plen_advances| |lia]|].
  { intros f i Hi. unfold jpeg_plen.
    match goal with |- context [?a <? ?b] => destruct (Z.ltb_spec a b) end; lia. }
  intros [[f j] p] Hp. cbn [fst snd] in *.
  unfold jpeg_parts, jpeg_hdr_len, jpeg_rhdr in *. rewrite length_concat_sum.
  destruct (j_bHasDRI out), f; cbn [app sum_list_with length jpeg_vhdr jpeg_qhdr];
    rewrite ?length_app, length_take; cbn [length PUT_16] in *; rewrite ?Hl, ?Hc; lia.
Qed.

End jpeg_packets.

(** Only the last packet carries the marker. *)
Lemma cuts_markers fuel len plen first i :
  advances len plen → 0 <= i < len → (Z.to_nat (len - i) < fuel)%nat →
  ∃ k, map (λ '(_, j, p), p + j =? len) (cuts fuel len plen first i) = replicate k false ++ [true].
Proof.
  intros Ha. revert first i. induction fuel as [|fuel IH]; intros first i Hi Hf; [lia|]. cbn [cuts].
  destruct (Z.ltb_spec i len) as [Hlt|]; [cbn [negb map]|lia].
  destruct (Ha first i ltac:(lia)) as [H1 H2].
  destruct (Z.eqb_spec (plen first i + i) len) as [E|].
  - exists O. rewrite Z.add_comm, E. destruct fuel; [done|]. cbn [cuts]. by rewrite Z.ltb_irrefl.
  - destruct (IH false (i + plen first i)) as [k ->]; [lia|lia|]. by exists (S k).
Qed.

(** ** A JPEG file *)

(** A segment with its length field. *)
Definition segment (m : Z) (body : list Z) : list Z :=
  [0xFF; m] ++ PUT_16 (Z.of_nat (length body) + 2) ++ body.

(** Segments the parser passes over: application data, comments, Huffman tables. *)
Definition skipped (s : Z * list Z) : Prop :=
  s.1 ≠ 0xD8 ∧ s.1 ≠ 0xDB ∧ s.1 ≠ 0xC0 ∧ s.1 ≠ 0xDD ∧ s.1 ≠ 0xDA ∧ Z.of_nat (length s.2) < 65534.

Definition skips (l : list (Z * list Z)) : list Z := concat (map (λ s, segment s.1 s.2) l).

Record jpeg_file := MkFile {
  jf_sampling : Z; jf_width8 : Z; jf_height8 : Z; jf_restart : option Z;
  jf_luma : list Z; jf_chroma : list Z;
  jf_app : list (Z * list Z); jf_misc : list (Z * list Z); jf_huffman : list (Z * list Z);
  jf_sos : list Z; jf_scan : list Z }.

Definition jpeg_bytes (f : jpeg_file) : list Z :=
  [0xFF; 0xD8] ++ skips (jf_app f) ++
  segment 0xDB ((0 :: jf_luma f) ++ (1 :: jf_chroma f)) ++ skips (jf_misc f) ++
  match jf_restart f with Some v => segment 0xDD (PUT_16 v) | None => [] end ++
  segment 0xC0 ([8] ++ PUT_16 (8 * jf_height8 f) ++ PUT_16 (8 * jf_width8 f) ++
                [3; 1; jf_sampling f; 0; 2; 0x11; 1; 3; 0x11; 1]) ++
  skips (jf_huffman f) ++ segment 0xDA (jf_sos f) ++ jf_scan f.

Definition wf_file (f : jpeg_file) : Prop :=
  (jf_sampling f = 0x11 ∨ jf_sampling f = 0x22 ∨ jf_sampling f = 0x21) ∧
  0 <= jf_width8 f < 256 ∧ 0 <= jf_height8 f < 256 ∧
  (∀ v, jf_restart f = Some v → 0 <= v < 65536) ∧
  length (jf_luma f) = 64%nat ∧ length (jf_chroma f) = 64%nat ∧
  Forall skipped (jf_app f) ∧ Forall skipped (jf_misc f) ∧ Forall skipped (jf_huffman f) ∧
  Z.of_nat (length (jf_sos f)) < 65534 ∧ 0 < Z.of_nat (length (jf_scan f)) < 2 ^ 24.

Definition file_type (f : jpeg_file) : Z := if jf_sampling f =? 0x22 then 1 else 0.

(** ** Parsing it *)

Lemma drop_lookup_head {A} (l : list A) i k x r : drop i l = x ++ r → (k < length x)%nat → l !! (i + k)%nat = x !! k.
Proof. intros E Hk. rewrite <- lookup_drop, E. by rewrite lookup_app_l. Qed.

(** What the loop reads of the segment it is at. *)
Lemma at_segment d i m body rest :
  drop i d = segment m body ++ rest → Z.of_nat (length body) < 65534 →
  rd d i = Ok 0xFF ∧ rd d (i + 1) = Ok m ∧
  get_16 (drop (i + 2) d) = Ok (Z.of_nat (length body) + 2) ∧
  drop (i + 4) d = body ++ rest ∧
  drop (i + Z.to_nat (Z.of_nat (length body) + 2) + 2) d = rest ∧
  (i + Z.to_nat (Z.of_nat (length body) + 2) + 2 = i + length (segment m body))%nat.
Proof.
  intros E Hb.
  assert (∀ k, drop (i + k) d = drop k (segment m body ++ rest)) as Hd by (intros k; by rewrite <- drop_drop, E).
  split_and!.
  - apply rd_Ok. rewrite <- (Nat.add_0_r i). by rewrite (drop_lookup_head d i 0 (segment m body) rest E) by (simpl; lia).
  - apply rd_Ok. by rewrite (drop_lookup_head d i 1 (segment m body) rest E) by (simpl; lia).
  - unfold get_16. rewrite Hd. unfold segment. rewrite <- !app_assoc. change (drop 2 ([255; m] ++ ?l)) with l.
    rewrite GET_PUT_16, u16_small by lia. done.
  - rewrite Hd. unfold segment. rewrite <- !app_assoc. done.
  - replace (i + Z.to_nat (Z.of_nat (length body) + 2) + 2)%nat with (i + (4 + length body))%nat by lia.
    rewrite Hd. unfold segment. rewrite <- !app_assoc.
    change (drop (4 + length body) ([255; m] ++ PUT_16 (Z.of_nat (length body) + 2) ++ body ++ rest))
      with (drop (length body) (body ++ rest)). apply drop_app_length.
  - unfold segment. rewrite !length_app. cbn [length PUT_16]. lia.
Qed.

Section parsing.
Context (d : list Z) (len now_ms : Z).

(** One turn of the loop at a segment. *)
Lemma jpeg_segments_skip fuel i m body rest out :
  drop i d = segment m body ++ rest → skipped (m, body) → Z.of_nat i < len →
  jpeg_segments (S fuel) d len now_ms i out =
  jpeg_segments fuel d len now_ms (i + length (segment m body)) out.
Proof.
  intros E (N1 & N2 & N3 & N4 & N5 & Hb) Hi. cbn [fst snd] in *.
  destruct (at_segment d i m body rest E Hb) as (R1 & R2 & R3 & R4 & R5 & R6).
  cbn [jpeg_segments]. destruct (Z.ltb_spec (Z.of_nat i) len); [cbn [negb]|lia].
  rewrite R1, bind_Ok. cbn [Z.eqb Pos.eqb negb]. rewrite R2, bind_Ok.
  destruct (Z.eqb_spec m 216); [done|]. rewrite R3, bind_Ok, R6.
  destruct (Z.eqb_spec m 219); [done|]. destruct (Z.eqb_spec m 192); [done|].
  destruct (Z.eqb_spec m 196); [by destruct (j_init_done out)|].
  destruct (Z.eqb_spec m 221); [done|]. destruct (Z.eqb_spec m 218); [done|]. done.
Qed.

Lemma jpeg_segments_skips l fuel i rest out :
  drop i d = skips l ++ rest → Forall skipped l → Z.of_nat (i + length (skips l)) <= len →
  jpeg_segments (length l + fuel) d len now_ms i out =
  jpeg_segments fuel d len now_ms (i + length (skips l)) out.
Proof.
  intros E Hl. revert i E. induction Hl as [|[m body] l Hs Hl IH]; intros i E Hlen.
  { cbn [skips concat map length Nat.add]. by rewrite Nat.add_0_r. }
  unfold skips in *. cbn [map concat fst snd] in *. rewrite <- app_assoc in E. rewrite length_app in *.
  cbn [length Nat.add].
  rewrite (jpeg_segments_skip _ _ _ _ _ _ E Hs).
  - rewrite IH; [by rewrite Nat.add_assoc| |lia].
    rewrite <- drop_drop, E. apply drop_app_length.
  - assert (0 < length (segment m body))%nat by (unfold segment; rewrite length_app; simpl; lia). lia.
Qed.

(** A segment one of the parsers succeeds on. *)
Lemma jpeg_segments_parse fuel i m body rest out out' :
  drop i d = segment m body ++ rest → Z.of_nat (length body) < 65534 → Z.of_nat i < len →
  (m = 0xDB ∧ parse_DQT out (body ++ rest) (Z.of_nat (length body)) = Ok (true, out') ∨
   m = 0xC0 ∧ parse_SOF out (body ++ rest) (Z.of_nat (length body)) = Ok (true, out') ∨
   m = 0xDD ∧ parse_DRI out (body ++ rest) (Z.of_nat (length body)) = Ok (true, out')) →
  jpeg_segments (S fuel) d len now_ms i out =
  jpeg_segments fuel d len now_ms (i + length (segment m body)) out'.
Proof.
  intros E Hb Hi Hm. destruct (at_segment d i m body rest E Hb) as (R1 & R2 & R3 & R4 & R5 & R6).
  cbn [jpeg_segments]. destruct (Z.ltb_spec (Z.of_nat i) len); [cbn [negb]|lia].
  rewrite R1, bind_Ok. cbn [Z.eqb Pos.eqb negb]. rewrite R2, bind_Ok.
  replace (Z.of_nat (length body) + 2 - 2) with (Z.of_nat (length body)) in * by lia.
  destruct Hm as [[-> Hp]|[[-> Hp]|[-> Hp]]]; cbn [Z.eqb Pos.eqb]; rewrite R3, bind_Ok, R6, R4;
    replace (Z.of_nat (length body) + 2 - 2) with (Z.of_nat (length body)) by lia;
    rewrite Hp; unfold or_no_scan; by rewrite bind_Ok.
Qed.

Lemma jpeg_segments_scan fuel i body rest out :
  drop i d = segment 0xDA body ++ rest → Z.of_nat (length body) < 65534 → Z.of_nat i < len →
  jpeg_segments (S fuel) d len now_ms i out =
  Ok (start_of_scan out rest (len - Z.of_nat (i + length (segment 0xDA body))) now_ms).
Proof.
  intros E Hb Hi. destruct (at_segment d i _ body rest E Hb) as (R1 & R2 & R3 & R4 & R5 & R6).
  cbn [jpeg_segments]. destruct (Z.ltb_spec (Z.of_nat i) len); [cbn [negb]|lia].
  rewrite R1, bind_Ok. cbn [Z.eqb Pos.eqb negb]. rewrite R2, bind_Ok. cbn [Z.eqb Pos.eqb].
  rewrite R3, bind_Ok. f_equal. f_equal.
  - rewrite <- R5 at 1. f_equal. lia.
  - rewrite <- R6. lia.
Qed.
End parsing.

Lemma parse_DQT_two out luma chroma rest :
  length luma = 64%nat → length chroma = 64%nat →
  parse_DQT out (((0 :: luma) ++ (1 :: chroma)) ++ rest) (Z.of_nat (length ((0 :: luma) ++ (1 :: chroma)))) =
  Ok (true, set_quant out (<[1%nat := Some (chroma ++ rest)]>
                (<[0%nat := Some (luma ++ (1 :: chroma) ++ rest)]> (j_quant out)))).
Proof.
  intros Hl Hc. rewrite <- app_assoc. unfold parse_DQT. rewrite length_app. cbn [length]. rewrite Hl, Hc.
  change (Z.of_nat (65 + 65)) with 130. change (S (Z.to_nat 130)) with (S (S (S 128))). generalize 128%nat. intros fuel.
  set (l := (0 :: luma) ++ (1 :: chroma) ++ rest).
  assert (l !! 65%nat = Some 1) as H1 by (unfold l; by rewrite lookup_app_r; simpl; rewrite ?Hl).
  assert (drop 66 l = chroma ++ rest) as H2.
  { unfold l. change (drop 66 ((0 :: luma) ++ ?r)) with (drop 65 (luma ++ r)).
    rewrite drop_app_ge by lia. by rewrite Hl. }
  cbn [parse_DQT_from]. change (0 <? 130) with true. cbn [negb]. change (Z.to_nat 0) with 0%nat.
  rewrite (rd_Ok l 0 0 eq_refl), bind_Ok. change (negb (0 .& 240 =? 0)) with false. cbn iota.
  change (0 + 65) with 65. change (65 <? 130) with true. cbn [negb]. change (Z.to_nat 65) with 65%nat.
  rewrite (rd_Ok l 65 1 H1), bind_Ok. change (negb (1 .& 240 =? 0)) with false. cbn iota.
  change (65 + 65) with 130. change (130 <? 130) with false. cbn [negb].
  change (65 + 1)%nat with 66%nat. by rewrite H2.
Qed.

(** A read of a byte that is written out. *)
Ltac rd_at k v :=
  match goal with |- context [rd ?l k] => rewrite (rd_Ok l k v eq_refl), bind_Ok end.

Lemma parse_SOF_file out f rest lp cp :
  wf_file f → j_quant out !! 0%nat = Some (Some lp) → j_quant out !! 1%nat = Some (Some cp) →
  parse_SOF out (([8] ++ PUT_16 (8 * jf_height8 f) ++ PUT_16 (8 * jf_width8 f) ++
                [3; 1; jf_sampling f; 0; 2; 0x11; 1; 3; 0x11; 1]) ++ rest) 15 =
  Ok (true, set_size (set_luma out (file_type f) 0) (jf_width8 f) (jf_height8 f) 1).
Proof.
  intros (Hs & Hw & Hh & _) Hq0 Hq1. unfold parse_SOF. rewrite <- !app_assoc.
  rd_at 0%nat 8. change (negb (8 =? 8)) with false. cbn iota.
  change (drop 1 ([8] ++ ?l)) with l. change (drop 3 ([8] ++ PUT_16 (8 * jf_height8 f) ++ ?l)) with l.
  unfold get_16. rewrite !GET_PUT_16, !bind_Ok, !u16_small by lia.
  assert (∀ x, 0 <= x < 256 → truth ((8 * x) .& 7) = false ∧ (8 * x) >>> 3 = x) as H8.
  { intros x Hx. rewrite shiftr_div by lia. split; [|rewrite Z.mul_comm; by apply Z.div_mul].
    unfold truth. change 7 with (Z.ones 3). rewrite Z.land_ones by lia.
    change (2 ^ 3) with 8. by rewrite Z.mul_comm, Z.mod_mul. }
  destruct (H8 (jf_height8 f) Hh) as [-> ->]. destruct (H8 (jf_width8 f) Hw) as [-> ->]. cbn [orb].
  rd_at 5%nat 3. change (negb (3 =? 3)) with false. cbn iota.
  cbn [parse_components Nat.add].
  rd_at 8%nat 0. rd_at 6%nat 1. rd_at 7%nat (jf_sampling f).
  unfold parse_component at 1. cbn [set_size j_quant].
  change (Z.to_nat 0) with 0%nat. rewrite Hq0. cbn [mjoin option_join].
  rewrite bool_decide_eq_true_2 by eauto. change (16 <=? 0) with false. cbn [negb orb Z.eqb Pos.eqb].
  assert ((if jf_sampling f =? 17 then (true, set_luma (set_size (set_size out (j_width out) (j_height out) (-1))
      (jf_width8 f) (jf_height8 f) (-1)) 0 0)
    else if jf_sampling f =? 34 then (true, set_luma (set_size (set_size out (j_width out) (j_height out) (-1))
      (jf_width8 f) (jf_height8 f) (-1)) 1 0)
    else if jf_sampling f =? 33 then (true, set_luma (set_size (set_size out (j_width out) (j_height out) (-1))
      (jf_width8 f) (jf_height8 f) (-1)) 0 0) else (false, set_size (set_size out (j_width out) (j_height out) (-1))
      (jf_width8 f) (jf_height8 f) (-1))) =
    (true, set_luma (set_size out (jf_width8 f) (jf_height8 f) (-1)) (file_type f) 0)) as ->.
  { unfold file_type. destruct Hs as [->|[->| ->]]; reflexivity. }
  rd_at 11%nat 1. rd_at 9%nat 2. rd_at 10%nat 0x11.
  unfold parse_component at 1. cbn [set_size set_luma j_quant j_chroma_table].
  change (Z.to_nat 1) with 1%nat. rewrite Hq1. cbn [mjoin option_join].
  rewrite bool_decide_eq_true_2 by eauto. change (16 <=? 1) with false. cbn [negb orb Z.eqb Pos.eqb].
  change (-1 <? 0) with true. cbn iota.
  rd_at 14%nat 1. rd_at 12%nat 3. rd_at 13%nat 0x11.
  unfold parse_component. cbn [set_size set_luma j_quant j_chroma_table].
  change (Z.to_nat 1) with 1%nat. rewrite Hq1. cbn [mjoin option_join].
  rewrite bool_decide_eq_true_2 by eauto. reflexivity.
Qed.

(** Where the parts of a file start. *)
Lemma length_skips l : (length l <= length (skips l))%nat.
Proof.
  unfold skips. induction l as [|[m b] l IH]; [done|]. cbn [map concat length]. rewrite length_app.
  unfold segment at 1. rewrite length_app. cbn [length fst snd]. lia.
Qed.

(** [l] is what is left of a file of [L] bytes in the buffer [d]. *)
Definition left_at (d pad : list Z) (L i : nat) (l : list Z) : Prop :=
  drop i d = l ++ pad ∧ (i + length l)%nat = L.

Lemma left_at_next d pad L i x l :
  left_at d pad L i (x ++ l) → left_at d pad L (i + length x) l.
Proof.
  intros [E El]. rewrite length_app in El. split; [|lia].
  rewrite <- drop_drop, E, <- app_assoc. apply drop_app_length.
Qed.

Lemma left_at_segment d pad L i m b l :
  left_at d pad L i (segment m b ++ l) →
  drop i d = segment m b ++ (l ++ pad) ∧ Z.of_nat i < Z.of_nat L.
Proof.
  intros [E El]. rewrite <- app_assoc in E. split; [done|].
  rewrite length_app in El. unfold segment in El. rewrite length_app in El. cbn [length] in El. lia.
Qed.

Lemma left_at_skips d pad L i sk l now fuel out :
  left_at d pad L i (skips sk ++ l) → Forall skipped sk →
  jpeg_segments (length sk + fuel) d (Z.of_nat L) now i out =
  jpeg_segments fuel d (Z.of_nat L) now (i + length (skips sk)) out.
Proof.
  intros [E El] Hs. rewrite <- app_assoc in E. apply (jpeg_segments_skips _ _ _ _ _ _ (l ++ pad) _ E Hs).
  rewrite length_app in El. lia.
Qed.

Definition n_restart (r : option Z) : nat := match r with Some _ => 1 | None => 0 end.

(** The restart interval, if the file has one. *)
Lemma left_at_dri d pad L i r l now fuel out :
  let dri := match r with Some v => segment 0xDD (PUT_16 v) | None => [] end in
  left_at d pad L i (dri ++ l) → (∀ v, r = Some v → 0 <= v < 65536) → j_bHasDRI out = false →
  ∃ out', jpeg_segments (n_restart r + fuel) d (Z.of_nat L) now i out =
    jpeg_segments fuel d (Z.of_nat L) now (i + length dri) out' ∧
    (if j_bHasDRI out' then Some (j_DRI out') else None) = r ∧ j_quant out' = j_quant out.
Proof.
  intros dri Hat Hr Hno. destruct r as [v|]; cbn [n_restart Nat.add]; subst dri.
  - apply left_at_segment in Hat as [E Hi]. eexists. split.
    + apply (jpeg_segments_parse _ _ _ _ _ _ _ _ _ _ E); [cbn; lia|done|]. right; right. split; [done|].
      unfold parse_DRI, get_16. rewrite GET_PUT_16, u16_small by (by apply Hr). by rewrite bind_Ok.
    + done.
  - exists out. rewrite Nat.add_0_r. split; [done|]. by rewrite Hno.
Qed.

Lemma jpeg_process_file f pad now_ms out0 :
  wf_file f →
  ∃ out lp cp,
    jpeg_process_frame (jpeg_bytes f ++ pad) (Z.of_nat (length (jpeg_bytes f))) now_ms out0 = Ok (true, out) ∧
    j_type out = file_type f ∧ j_width out = jf_width8 f ∧ j_height out = jf_height8 f ∧
    j_luma_table out = 0 ∧ j_chroma_table out = 1 ∧
    j_quant out !! 0%nat = Some (Some (jf_luma f ++ lp)) ∧
    j_quant out !! 1%nat = Some (Some (jf_chroma f ++ cp)) ∧
    j_scan_data out = jf_scan f ++ pad ∧ j_scan_data_len out = Z.of_nat (length (jf_scan f)) ∧
    (if j_bHasDRI out then Some (j_DRI out) else None) = jf_restart f ∧
    j_timestamp out = u32 (now_ms * 90).
Proof.
  intros Hf. pose proof Hf as (_ & _ & _ & Hr & Hl & Hc & Ha & Hm & Hh & Hs & Hscan).
  unfold jpeg_process_frame. set (d := jpeg_bytes f ++ pad). set (L := length (jpeg_bytes f)).
  assert (left_at d pad L 0 (jpeg_bytes f)) as A0 by (split; [by rewrite drop_0|lia]).
  assert (∃ fuel, S (Z.to_nat (Z.of_nat L)) =
    S (length (jf_app f) + S (length (jf_misc f) + (n_restart (jf_restart f) +
      S (length (jf_huffman f) + S fuel))))) as [fuel ->].
  { exists (S L - (length (jf_app f) + length (jf_misc f) + n_restart (jf_restart f) +
      length (jf_huffman f) + 4))%nat.
    assert (length (jf_app f) + length (jf_misc f) + n_restart (jf_restart f) +
      length (jf_huffman f) + 4 <= S L)%nat; [|lia].
    pose proof (length_skips (jf_app f)). pose proof (length_skips (jf_misc f)).
    pose proof (length_skips (jf_huffman f)).
    unfold L, jpeg_bytes. destruct (jf_restart f); unfold segment; rewrite !length_app;
      cbn [n_restart length]; lia. }
  unfold jpeg_bytes in A0. set (out1 := MkJpeg _ _ _ _ _ _ _ _ _ _ _ _ _) at 1.
  (* start of image *)
  assert (∀ k, jpeg_segments (S k) d (Z.of_nat L) now_ms 0 out1 = jpeg_segments k d (Z.of_nat L) now_ms 2 out1) as E0.
  { intros k. destruct A0 as [E El]. rewrite drop_0 in E. cbn [jpeg_segments].
    destruct (Z.ltb_spec (Z.of_nat 0) (Z.of_nat L)); [cbn [negb]|cbn [app length] in El; lia].
    rewrite (rd_Ok d 0 255), bind_Ok by (by rewrite E). cbn [Z.eqb Pos.eqb negb].
    rewrite (rd_Ok d (0 + 1) 216), bind_Ok by (by rewrite E). done. }
  rewrite E0. clear E0. apply left_at_next in A0. cbn [length Nat.add] in A0.
  (* application segments and quantization tables *)
  rewrite (left_at_skips _ _ _ _ _ _ _ _ _ A0 Ha). apply left_at_next in A0.
  pose proof A0 as A1. apply left_at_segment in A1 as [E1 H1].
  erewrite (jpeg_segments_parse _ _ _ _ _ _ _ _ _ _ E1);
    [|rewrite length_app; cbn [length]; lia|done|left; split; [done|by apply parse_DQT_two]].
  apply left_at_next in A0. set (out2 := set_quant out1 _).
  assert (j_quant out2 !! 0%nat = Some (Some (jf_luma f ++ (1 :: jf_chroma f) ++
    (skips (jf_misc f) ++ match jf_restart f with Some v => segment 221 (PUT_16 v) | None => [] end ++
     segment 192 ([8] ++ PUT_16 (8 * jf_height8 f) ++ PUT_16 (8 * jf_width8 f) ++
       [3; 1; jf_sampling f; 0; 2; 17; 1; 3; 17; 1]) ++ skips (jf_huffman f) ++
     segment 218 (jf_sos f) ++ jf_scan f) ++ pad))) as Q0 by done.
  assert (∃ cp, j_quant out2 !! 1%nat = Some (Some (jf_chroma f ++ cp))) as [cp Q1] by (by eexists).
  (* restart interval *)
  rewrite (left_at_skips _ _ _ _ _ _ _ _ _ A0 Hm). apply left_at_next in A0.
  destruct (left_at_dri _ _ _ _ _ _ now_ms (S (length (jf_huffman f) + S fuel)) out2 A0 Hr eq_refl)
    as (out3 & -> & Hdri & Hq3). apply left_at_next in A0.
  (* start of frame *)
  pose proof A0 as A2. apply left_at_segment in A2 as [E2 H2].
  erewrite (jpeg_segments_parse _ _ _ _ _ _ _ _ _ _ E2);
    [|cbn; lia|done|right; left; split; [done|]; eapply parse_SOF_file; [done|by rewrite Hq3|by rewrite Hq3]].
  apply left_at_next in A0.
  (* scan *)
  rewrite (left_at_skips _ _ _ _ _ _ _ _ _ A0 Hh). apply left_at_next in A0.
  pose proof A0 as A3. apply left_at_segment in A3 as [E3 H3].
  rewrite (jpeg_segments_scan _ _ _ _ _ _ _ _ E3 Hs H3). apply left_at_next in A0 as [_ A0].
  do 3 eexists. split; [done|].
  cbn [start_of_scan snd j_type j_width j_height j_luma_table j_chroma_table j_quant j_scan_data
       j_scan_data_len j_bHasDRI j_DRI j_timestamp set_size set_luma].
  rewrite Hq3. split_and!; try done. lia.
Qed.


(** Packets of a JPEG stream keep to the endpoint's limit -- their payload is at most
    [max_data_size] bytes when the frame has no restart interval, and at most four bytes
    more when it has one. *)
Theorem jpeg_packet_sizes {N} `{Transport N} (n : N) ep cs f pad now_ms out0 :
  wf_file f → 145 <= ep_max_data_size ep →
  ∃ out ps,
    jpeg_process_frame (jpeg_bytes f ++ pad) (Z.of_nat (length (jpeg_bytes f))) now_ms out0 = Ok (true, out) ∧
    jpeg_send n ep out cs = send_calls n ep (with_clocks ps cs) ∧
    Forall (λ p, Z.of_nat (length (concat p.1.1)) <=
                 ep_max_data_size ep + (match jf_restart f with Some _ => 4 | None => 0 end)) ps.
Proof.
  intros Hf Hmax. pose proof Hf as (Hsam & Hw & Hh & Hr & Hl & Hc & _ & _ & _ & _ & Hscan).
  destruct (jpeg_process_file f pad now_ms out0 Hf)
    as (out & lp & cp & Ep & Et & Ew & Eh & El & Ec & Q0 & Q1 & Es & Esl & Edri & Ets).
  assert (0 <= j_type out < 64) as Ht by (rewrite Et; unfold file_type; destruct (jf_sampling f =? 34); lia).
  assert (j_bHasDRI out = true → 0 <= j_DRI out < 65536) as Hdri
    by (intros Hd; rewrite Hd in Edri; by apply Hr).
  exists out, (jpeg_packets out (jf_luma f) (jf_chroma f) (jf_scan f) (ep_max_data_size ep)).
  split; [done|]. split.
  - apply jpeg_send_calls with (lp := lp) (cp := cp) (extra := pad); rewrite ?El, ?Ec, ?Et, ?Ew, ?Eh; done.
  - eapply Forall_impl; [by apply jpeg_packets_size|].
    intros p Hp. cbn beta in *. rewrite <- Edri. by destruct (j_bHasDRI out).
Qed.

(** ** H.264 fragmentation units (RFC 6184) *)

Fixpoint fu_rest (acc : list Z) (ended : bool) (ps : list (list Z)) : option (list Z) :=
  match ps with
  | [] => if ended then Some acc else None
  | (ind :: fu :: data) :: ps =>
      if ended || Z.testbit fu 7 || negb (ind .& 0x1F =? 28) then None
      else fu_rest (acc ++ data) (Z.testbit fu 6) ps
  | _ => None
  end.

(** The NAL unit a receiver puts together: a start, any number of middles, an end. *)
Definition fu_receive (ps : list (list Z)) : option (list Z) :=
  match ps with
  | (ind :: fu :: data) :: ps =>
      if Z.testbit fu 7 && (ind .& 0x1F =? 28) then
        fu_rest ((ind .& 0x60 .| fu .& 0x1F) :: data) (Z.testbit fu 6) ps
      else None
  | _ => None
  end.

Lemma fu_header_bits nal first last :
  0 <= nal < 128 →
  ∃ ind fu, fu_header nal first last = [ind; fu] ∧ ind .& 0x1F = 28 ∧
    (ind .& 0x60 .| fu .& 0x1F) = nal ∧ Z.testbit fu 7 = first ∧ Z.testbit fu 6 = last.
Proof.
  intros Hn. do 2 eexists. split; [done|].
  assert (forallb (λ '(nal, (first, last)),
    let ind := 28 .| (nal .& 0x60) in
    let fu := (nal .& 0x1F) .| (if first : bool then 0x80 else 0) .| (if last : bool then 0x40 else 0) in
    (ind .& 0x1F =? 28) && (ind .& 0x60 .| fu .& 0x1F =? nal) &&
    Bool.eqb (Z.testbit fu 7) first && Bool.eqb (Z.testbit fu 6) last)
    (list_prod (seqZ 0 128) (list_prod [true; false] [true; false])) = true) as HF
    by (vm_compute; reflexivity).
  rewrite forallb_forall in HF. specialize (HF (nal, (first, last))). cbv zeta in HF.
  rewrite !andb_true_iff, !Z.eqb_eq, !eqb_true_iff in HF.
  destruct HF as [[[HF1 HF2] HF3] HF4]; [|done].
  apply in_prod; [apply list_elem_of_In, elem_of_seqZ; lia|].
  apply in_prod; [destruct first|destruct last]; simpl; tauto.
Qed.

Lemma fu_rest_cuts fuel len plen nal i (d acc : list Z) :
  advances len plen → 0 <= i < len → (Z.to_nat (len - i) < fuel)%nat → Z.of_nat (length d) = len →
  0 <= nal < 128 →
  fu_rest acc false
    (map (λ '(f, j, p), fu_header nal f (p + j =? len) ++ take (Z.to_nat p) (drop (Z.to_nat j) d))
       (cuts fuel len plen false i)) = Some (acc ++ drop (Z.to_nat i) d).
Proof.
  intros Ha. revert i acc. induction fuel as [|fuel IH]; intros i acc Hi Hf Hd Hn; [lia|]. cbn [cuts].
  destruct (Z.ltb_spec i len) as [Hlt|]; [cbn [negb map]|lia].
  destruct (Ha false i ltac:(lia)) as [H1 H2]. set (p := plen false i) in *.
  destruct (fu_header_bits nal false (p + i =? len) Hn) as (ind & fu & -> & B1 & _ & B3 & B4).
  cbn [app fu_rest]. rewrite B1, B3, B4. cbn [orb negb Z.eqb Pos.eqb].
  assert (take (Z.to_nat p) (drop (Z.to_nat i) d) ++ drop (Z.to_nat (i + p)) d = drop (Z.to_nat i) d) as Ecat
    by (rewrite Z2Nat.inj_add, <- drop_drop by lia; apply take_drop).
  destruct (Z.eqb_spec (p + i) len) as [E|].
  - replace (cuts fuel len plen false (i + p)) with (@nil (bool * Z * Z)).
    2:{ destruct fuel; [done|]. cbn [cuts]. replace (i + p) with len by lia. by rewrite Z.ltb_irrefl. }
    cbn [map fu_rest]. f_equal. f_equal. rewrite (drop_ge d (Z.to_nat (i + p))), app_nil_r in Ecat by lia. exact Ecat.
  - rewrite IH by (done || lia). f_equal. by rewrite <- app_assoc, Ecat.
Qed.

Lemma fu_plen_advances len max :
  3 <= max < 2 ^ 31 → 0 <= len < 2 ^ 31 → advances len (λ _, fu_plen len max).
Proof.
  intros Hm Hlen first i Hi. unfold fu_plen. rewrite !u32_small, i32_small by lia.
  destruct (Z.ltb_spec (max - 2) (len - i)); lia.
Qed.

(** A large H.264 unit is fragmented and reassembled without loss -- once an endpoint
    has had its first packets, [h264_send] on a unit longer than [max_data_size] makes
    calls whose payloads are at most [max_data_size] bytes, which a receiver of FU-A
    fragments joins to the very unit, and whose last packet alone is marked. *)
Theorem h264_fragments_roundtrip {N} `{Transport N} (n : N) ep cs out nal body pad :
  ep_packet_count ep ≠ 0 → 3 <= ep_max_data_size ep < 2 ^ 31 →
  h_d out = nal :: body ++ pad → 0 <= nal < 128 →
  h_len out = Z.of_nat (length body) + 1 → ep_max_data_size ep < h_len out < 2 ^ 31 →
  ∃ ps, h264_send n ep out cs = send_calls n ep (with_clocks ps (λ k, cs (2 + k)%nat)) ∧
    fu_receive (map (λ p, concat p.1.1) ps) = Some (nal :: body) ∧
    Forall (λ p, Z.of_nat (length (concat p.1.1)) <= ep_max_data_size ep) ps ∧
    ∃ k, map snd ps = replicate k false ++ [true].
Proof.
  intros Hpc Hmax Hd Hn Hlen Hbig. unfold h264_send.
  destruct (Z.eqb_spec (ep_packet_count ep) 0); [done|]. cbn [andb].
  rewrite Hd. rd_at 0%nat nal. rewrite bind_Ok.
  destruct (Z.leb_spec (h_len out) (ep_max_data_size ep)); [lia|].
  set (len := h_len out - 1) in *. assert (len = Z.of_nat (length body)) as El by lia.
  pose proof (fu_plen_advances len (ep_max_data_size ep) ltac:(lia) ltac:(lia)) as Ha.
  set (cutl := cuts (S (Z.to_nat len)) len (λ _, fu_plen len (ep_max_data_size ep)) true 0).
  exists (map (λ '(f, j, p), ([fu_header nal f (p + j =? len); take (Z.to_nat p) (drop (Z.to_nat j) body)],
    h_timestamp out, p + j =? len)) cutl).
  split; [|split; [|split]].
  - apply (fragment_loop_calls _ _ _ _
      (λ f j p, ([fu_header nal f (p + j =? len); take (Z.to_nat p) (drop (Z.to_nat j) body)],
        h_timestamp out, p + j =? len)) _ _ _ _ _ Ha); [|lia|lia].
    intros f j Hj. destruct (Ha f j Hj) as [H1 H2]. unfold plain_packet, bytes_at. cbn [drop]. rewrite drop_0.
    destruct (Z.ltb_spec (fu_plen len (ep_max_data_size ep) j) 0); [lia|]. cbn [orb].
    destruct (Z.ltb_spec (Z.of_nat (length (drop (Z.to_nat j) (body ++ pad)))) (fu_plen len (ep_max_data_size ep) j))
      as [Hs|]; [rewrite length_drop, length_app in Hs; lia|].
    rewrite bind_Ok. cbn [app]. rewrite drop_app_le, take_app_le; [done|rewrite length_drop; lia|lia].
  - rewrite map_map. unfold cutl. cbn [cuts]. destruct (Z.ltb_spec 0 len); [cbn [negb map fst concat]|lia].
    destruct (Ha true 0 ltac:(lia)) as [HA1 HA2]. set (p := fu_plen len (ep_max_data_size ep) 0) in *.
    assert (p < len) as Hp by (unfold p, fu_plen; rewrite !u32_small, i32_small by lia; case_match; lia).
    destruct (fu_header_bits nal true (p + 0 =? len) Hn) as (ind & fu & -> & B1 & B2 & B3 & B4).
    cbn [app fu_receive]. rewrite B1, B2, B3, B4. destruct (Z.eqb_spec (p + 0) len); [lia|].
    cbn [andb Z.eqb Pos.eqb]. change (Z.to_nat 0) with 0%nat. rewrite drop_0, app_nil_r, Z.add_0_l.
    erewrite map_ext; [rewrite (fu_rest_cuts _ len _ nal p body _ Ha); [|lia|lia|lia|done]|].
    + cbn [app]. by rewrite take_drop.
    + intros [[f j] q]. cbn [fst concat]. by rewrite app_nil_r.
  - apply Forall_map.
    eapply Forall_impl; [apply (cuts_Forall (λ _ _ p, p <= ep_max_data_size ep - 2) _ _ _ _ _ Ha); [|lia]|].
    { intros f i Hi. unfold fu_plen. rewrite !u32_small, i32_small by lia.
      destruct (Z.ltb_spec (ep_max_data_size ep - 2) (len - i)); lia. }
    intros [[f j] q] Hq. cbn [fst snd concat] in *.
    rewrite !length_app, length_take. cbn [fu_header length]. lia.
  - rewrite map_map. destruct (cuts_markers (S (Z.to_nat len)) len _ true 0 Ha) as [k Ek]; [lia|lia|].
    exists k. rewrite <- Ek. apply map_ext. by intros [[b j] q].
Qed.

(** ** Raw audio *)

Lemma cuts_offset fuel len plen first i (d : list Z) c1 f j p c2 :
  advances len plen → 0 <= i → Z.of_nat (length d) = len →
  cuts fuel len plen first i = c1 ++ (f, j, p) :: c2 →
  j = i + Z.of_nat (length (concat (map (λ '(_, j, p), take (Z.to_nat p) (drop (Z.to_nat j) d)) c1))).
Proof.
  intros Ha. revert first i c1. induction fuel as [|fuel IH]; intros first i c1 Hi Hd; cbn [cuts].
  { by destruct c1. }
  destruct (Z.ltb_spec i len); cbn [negb]; [|by destruct c1].
  destruct (Ha first i ltac:(lia)). destruct c1 as [|c c1]; cbn [app map concat].
  - intros [= <- <- <-]. cbn [length]. lia.
  - intros [= <- E]. apply IH in E; [|lia|done]. rewrite E, length_app, length_take, length_drop. lia.
Qed.

Lemma rawaudio_plen_advances out max :
  0 < ra_channels out * ra_sampsize out <= max → advances (ra_len out) (λ _, rawaudio_plen out max).
Proof.
  intros Hk first i Hi. unfold rawaudio_plen. destruct (Z.ltb_spec max (ra_len out - i)); [|lia].
  rewrite Z.rem_mod_nonneg by lia. set (k := ra_channels out * ra_sampsize out) in *.
  pose proof (Z.mod_pos_bound max k ltac:(lia)). lia.
Qed.

Lemma rawaudio_aligned out max fuel first i :
  let k := ra_channels out * ra_sampsize out in
  0 < k <= max → 0 <= i → i mod k = 0 →
  Forall (λ c : bool * Z * Z, c.1.2 mod k = 0)
    (cuts fuel (ra_len out) (λ _, rawaudio_plen out max) first i).
Proof.
  intros k Hk. revert first i. induction fuel as [|fuel IH]; intros first i Hi Hm; cbn [cuts]; [constructor|].
  destruct (Z.ltb_spec i (ra_len out)); cbn [negb]; [|constructor].
  destruct (rawaudio_plen_advances out max Hk first i ltac:(lia)) as [HP1 HP2].
  constructor; [done|]. revert HP1 HP2. unfold rawaudio_plen at 1 2 4.
  destruct (Z.ltb_spec max (ra_len out - i)); intros HP1 HP2.
  - fold k in HP1, HP2 |- *. rewrite Z.rem_mod_nonneg in * by lia. apply IH; [lia|].
    rewrite Z.add_mod, Hm, Zminus_mod_idemp_r, Z.sub_diag by lia. reflexivity.
  - replace (i + (ra_len out - i)) with (ra_len out) by lia. destruct fuel; cbn [cuts]; [constructor|].
    rewrite Z.ltb_irrefl. constructor.
Qed.

(** The packets of a frame of samples [d]. *)
Definition rawaudio_packet (out : rtp_rawaudio) (d : list Z) (f : bool) (j p : Z) : packet :=
  ([take (Z.to_nat p) (drop (Z.to_nat j) d)],
   u32 (ra_timestamp out + Z.quot (Z.quot j (ra_channels out)) (ra_sampsize out)), false).

Definition rawaudio_packets (out : rtp_rawaudio) (d : list Z) (max : Z) : list packet :=
  map (λ '(f, j, p), rawaudio_packet out d f j p)
    (cuts (S (Z.to_nat (ra_len out))) (ra_len out) (λ _, rawaudio_plen out max) true 0).

Lemma rawaudio_send_calls {N} `{Transport N} (n : N) ep cs out pad d :
  0 < ra_channels out → 0 < ra_sampsize out →
  ra_channels out * ra_sampsize out <= ep_max_data_size ep →
  ra_data out = d ++ pad → ra_len out = Z.of_nat (length d) →
  rawaudio_send n ep out cs = send_calls n ep (with_clocks (rawaudio_packets out d (ep_max_data_size ep)) cs).
Proof.
  intros Hch Hss Hk Hd Hlen. unfold rawaudio_send.
  destruct (Z.eqb_spec (ra_channels out) 0); [lia|]. destruct (Z.eqb_spec (ra_sampsize out) 0); [lia|]. cbn [orb].
  assert (0 < ra_channels out * ra_sampsize out) as Hk0 by nia.
  pose proof (rawaudio_plen_advances out (ep_max_data_size ep) ltac:(lia)) as Ha.
  apply (fragment_loop_calls _ _ _ _ (rawaudio_packet out d) _ _ _ _ _ Ha); [|lia|lia].
  intros f j Hj. destruct (Ha f j Hj) as [HA1 HA2]. unfold plain_packet, bytes_at. rewrite Hd.
  destruct (Z.ltb_spec (rawaudio_plen out (ep_max_data_size ep) j) 0); [lia|]. cbn [orb].
  match goal with |- context [?a <? ?b] => destruct (Z.ltb_spec a b) as [Hs|] end;
    [rewrite length_drop, length_app in Hs; lia|].
  rewrite bind_Ok. cbn [app]. rewrite drop_app_le, take_app_le; [done|rewrite length_drop; lia|lia].
Qed.

(** Raw audio is cut between samples -- [rawaudio_send] makes calls whose payloads,
    each within [max_data_size], join to the samples of the frame in order, every packet
    starting at a whole sample, and each packet's timestamp is the frame's plus the
    number of samples in the packets before it. *)
Theorem rawaudio_samples {N} `{Transport N} (n : N) ep cs out pad d :
  0 < ra_channels out → 0 < ra_sampsize out →
  ra_channels out * ra_sampsize out <= ep_max_data_size ep →
  ra_data out = d ++ pad → ra_len out = Z.of_nat (length d) →
  let k := ra_channels out * ra_sampsize out in
  ∃ ps : list packet, rawaudio_send n ep out cs = send_calls n ep (with_clocks ps cs) ∧
    concat (map (λ p, concat p.1.1) ps) = d ∧
    Forall (λ p, Z.of_nat (length (concat p.1.1)) <= ep_max_data_size ep) ps ∧
    ∀ ps1 p ps2, ps = ps1 ++ p :: ps2 →
      let before := Z.of_nat (length (concat (map (λ p, concat p.1.1) ps1))) in
      before mod k = 0 ∧ p.1.2 = u32 (ra_timestamp out + before / k).
Proof.
  intros Hch Hss Hk Hd Hlen k. assert (0 < k) as Hk0 by (unfold k; nia).
  pose proof (rawaudio_plen_advances out (ep_max_data_size ep) ltac:(unfold k in *; lia)) as Ha.
  set (g := rawaudio_packet out d).
  set (cutl := cuts (S (Z.to_nat (ra_len out))) (ra_len out) (λ _, rawaudio_plen out (ep_max_data_size ep)) true 0).
  assert (∀ l, concat (map (λ p, concat p.1.1) (map (λ '(f, j, p), g f j p) l)) =
    concat (map (λ '(_, j, p), take (Z.to_nat p) (drop (Z.to_nat j) d)) l)) as Hcat.
  { intros l. rewrite map_map. f_equal. apply map_ext. intros [[f j] p]. cbn. by rewrite app_nil_r. }
  exists (rawaudio_packets out d (ep_max_data_size ep)). unfold rawaudio_packets. fold cutl g. split; [|split; [|split]].
  - by eapply rawaudio_send_calls.
  - rewrite Hcat. unfold cutl. rewrite cuts_cover by (done || lia). done.
  - apply Forall_map. eapply Forall_impl;
      [apply (cuts_Forall (λ _ _ p, p <= ep_max_data_size ep) _ _ _ _ _ Ha); [|lia]|].
    { intros f j Hj. unfold rawaudio_plen. destruct (Z.ltb_spec (ep_max_data_size ep) (ra_len out - j)); [|lia].
      rewrite Z.rem_mod_nonneg by (unfold k in *; lia). fold k.
      pose proof (Z.mod_pos_bound (ep_max_data_size ep) k Hk0). lia. }
    intros [[f j] p] Hp. unfold g, rawaudio_packet. cbn [fst snd concat] in *. rewrite app_nil_r, length_take. lia.
  - intros ps1 p ps2 E. set (before := Z.of_nat _). apply map_eq_app in E as (c1 & c2 & Ec & E1 & E2).
    destruct c2 as [|[[f j] q] c2]; [done|]. cbn [map] in E2. injection E2 as <- <-.
    pose proof (cuts_offset _ _ _ _ 0 d _ _ _ _ _ Ha ltac:(lia) ltac:(lia) Ec) as Ej.
    assert (before = j) as -> by (unfold before; rewrite <- E1, Hcat; lia).
    pose proof (rawaudio_aligned out (ep_max_data_size ep) (S (Z.to_nat (ra_len out))) true 0
      ltac:(unfold k in *; lia) ltac:(lia) ltac:(apply Z.mod_0_l; lia)) as Hal.
    fold cutl in Hal. rewrite Ec in Hal. apply Forall_app in Hal as [_ Hal]. apply Forall_cons in Hal as [Hal _].
    cbn [fst snd] in Hal. split; [exact Hal|]. unfold g, rawaudio_packet. cbn [fst snd].
    rewrite (Z.quot_div_nonneg j) by lia. rewrite Z.quot_div_nonneg by (lia || apply Z.div_pos; lia).
    by rewrite Zdiv_Zdiv by lia.
Qed.

(** ** Witnesses *)

Definition w_file : jpeg_file :=
  MkFile 0x22 40 30 (Some 4) (replicate 64 16) (replicate 64 17) [(0xE0, [74; 70])] [(0xFE, [1])]
    [(0xC4, [0; 1; 2])] [3; 1; 0] (map Z.of_nat (seq 1 200)).

Definition w_jpeg0 : rtp_jpeg := MkJpeg 0 0 0 0 0 [] [] 0 false 3000 0 false 0.

Definition w_media_ep : rtp_endpoint :=
  MkEp 26 150 0x01020304 0xFFFFFFF0 0 65535 7 0 false true 100 100
    (RTP_TRANS_UDP 50000 5 6) 0 None FORMAT_JPEG.

Lemma w_file_wf : wf_file w_file.
Proof.
  unfold wf_file, w_file. cbn [jf_sampling jf_width8 jf_height8 jf_restart jf_luma jf_chroma jf_app jf_misc
    jf_huffman jf_sos jf_scan]. split_and!; try done; try lia; try (repeat constructor; cbn; lia).
  intros v [= <-]. lia.
Qed.


Lemma jpeg_packet_sizes_witness :
  ∃ out ps,
    jpeg_process_frame (jpeg_bytes w_file ++ [0; 0]) (Z.of_nat (length (jpeg_bytes w_file))) 1000 w_jpeg0
      = Ok (true, out) ∧
    jpeg_send (MkUdpLog (replicate 9 true) []) w_media_ep out (λ _ _, (100, 0)) =
      send_calls (MkUdpLog (replicate 9 true) []) w_media_ep (with_clocks ps (λ _ _, (100, 0))) ∧
    Forall (λ p, Z.of_nat (length (concat p.1.1)) <= 154) ps.
Proof.
  destruct (jpeg_packet_sizes (MkUdpLog (replicate 9 true) []) w_media_ep (λ _ _, (100, 0)) w_file [0; 0]
    1000 w_jpeg0) as (out & ps & E1 & E2 & E3).
  - apply w_file_wf.
  - cbn. lia.
  - exists out, ps. split; [exact E1|]. split; [exact E2|exact E3].
Defined.

Lemma h264_fragments_roundtrip_witness :
  ∃ ps, h264_send (MkUdpLog (replicate 9 true) []) w_media_ep
      (MkH264 (0x65 :: replicate 300 9 ++ [0]) 301 true true 3000 77 0 [] []) (λ _ _, (100, 0)) =
      send_calls (MkUdpLog (replicate 9 true) []) w_media_ep (with_clocks ps (λ k _, (100, 0))) ∧
    fu_receive (map (λ p, concat p.1.1) ps) = Some (0x65 :: replicate 300 9).
Proof.
  destruct (h264_fragments_roundtrip (MkUdpLog (replicate 9 true) []) w_media_ep (λ _ _, (100, 0))
    (MkH264 (0x65 :: replicate 300 9 ++ [0]) 301 true true 3000 77 0 [] []) 0x65 (replicate 300 9) [0])
    as (ps & E1 & E2 & _).
  - done.
  - cbn. lia.
  - done.
  - lia.
  - by vm_compute.
  - cbn. lia.
  - exists ps. split; [exact E1|exact E2].
Defined.

Lemma rawaudio_samples_witness :
  ∃ ps : list packet, rawaudio_send (MkUdpLog (replicate 9 true) []) w_media_ep
      (MkRaw (replicate 321 5) 320 FORMAT_PCM 2 2 8000 1000) (λ _ _, (100, 0)) =
      send_calls (MkUdpLog (replicate 9 true) []) w_media_ep (with_clocks ps (λ _ _, (100, 0))) ∧
    concat (map (λ p, concat p.1.1) ps) = replicate 320 5.
Proof.
  destruct (rawaudio_samples (MkUdpLog (replicate 9 true) []) w_media_ep (λ _ _, (100, 0))
    (MkRaw (replicate 321 5) 320 FORMAT_PCM 2 2 8000 1000) [5] (replicate 320 5)) as (ps & E1 & E2 & _).
  - cbn. lia.
  - cbn. lia.
  - cbn. lia.
  - done.
  - done.
  - exists ps. split; [exact E1|exact E2].
Defined.
