(* ===== verification/Mpeg.v ===== *)
(** * MPEG video ([rtp-mpeg4.c], [rtp-mpv.c])

    The packetizers of MPEG-4 and MPEG-1 video: a frame is split at its start codes, some
    sections are read for the time between frames, and the sections are packed into packets
    of limited size. *)

From Stdlib Require Import String.
From S2P Require Import Prelude CString Frame Rtcp SendBuf Rtp RtpMedia.

Local Open Scope Z_scope.
Local Open Scope c_scope.

(** ** Start codes and fields *)

(** [for (i = 1; i < len - 2; ++i)] of [find_next_code], with [k] turns left. *)
Fixpoint find_code (k : nat) (d : list Z) (i : nat) : outcome Z :=
  match k with
  | O => Ok 0
  | S k =>
      a ← rd d i; 
      b ← (if a =? 0 then rd d (i + 1) else Ok 1);
      c ← (if (a =? 0) && (b =? 0) then rd d (i + 2) else Ok 0);
      if (a =? 0) && (b =? 0) && (c =? 1) then Ok (Z.of_nat i) else find_code k d (S i)
  end.

Definition find_next_code (d : list Z) (len : Z) : outcome Z := find_code (Z.to_nat (len - 3)) d 1.

(** [get_field] with [k] more turns at most; [left] is [bits - i]. *)
Fixpoint get_bits (k : nat) (d : list Z) (left offset v : Z) : outcome (Z * Z) :=
  match k with
  | O => Ok (v, offset)
  | S k =>
      if left <=? 0 then Ok (v, offset) else
      b ← rd d (Z.to_nat (offset / 8));
      if (8 <=? left) && (offset mod 8 =? 0) then get_bits k d (left - 8) (offset + 8) (u32 (v <<< 8) .| b)
      else get_bits k d (left - 1) (offset + 1) (u32 (v <<< 1) .| ((b >>> (7 - offset mod 8)) .& 1))
  end.

Definition get_field (d : list Z) (bits offset : Z) : outcome (Z * Z) := get_bits (Z.to_nat bits) d bits offset 0.

(** A 32-bit number at a pointer. *)
Definition get_code (d : list Z) : outcome Z := match GET_32 d with Some v => Ok v | None => Undef end.

(** ** MPEG-4 *)

(** [m4_iov] are the elements of [iov], [m4_config] the bytes of [config]; [m4_fmtp] is the
    string in [fmtp]. *)
Record rtp_mpeg4 := MkMpeg4 {
  m4_iov : list (list Z);
  m4_config : list Z;
  m4_pali : Z;
  m4_fmtp : list Z;
  m4_init_done : bool;
  m4_ts_incr : Z;
  m4_vop_time_increment_resolution : Z;
  m4_vop_time_increment : Z;
  m4_vtir_bitlen : Z;
  m4_timestamp : Z }.

Definition m4_with (out : rtp_mpeg4) (iov : list (list Z)) (config : list Z) : rtp_mpeg4 :=
  MkMpeg4 iov config (m4_pali out) (m4_fmtp out) (m4_init_done out) (m4_ts_incr out) (m4_vop_time_increment_resolution out)
    (m4_vop_time_increment out) (m4_vtir_bitlen out) (m4_timestamp out).

Definition add_to_rtp_buf (out : rtp_mpeg4) (e : list Z) : rtp_mpeg4 :=
  if (length (m4_iov out) =? 24)%nat then out else m4_with out (m4_iov out ++ [e]) (m4_config out).

Definition add_to_config (out : rtp_mpeg4) (e : list Z) : rtp_mpeg4 :=
  if (512 <? length (m4_config out) + length e)%nat then out else m4_with out (m4_iov out) (m4_config out ++ e).

(** Both, the first one only in a configuration that has begun. *)
Definition add_section (out : rtp_mpeg4) (e : list Z) : rtp_mpeg4 :=
  add_to_rtp_buf (if (0 <? length (m4_config out))%nat then add_to_config out e else out) e.

(** [fmtp] has 600 bytes. *)
Definition finish_config (out : rtp_mpeg4) : outcome rtp_mpeg4 :=
  let s := lit "profile-level-id=" ++ dec (m4_pali out) ++ lit ";config=" ++ concat (map HEX2 (m4_config out)) in
  if (600 <=? length s)%nat then Undef else
  Ok (MkMpeg4 (m4_iov out) [] (m4_pali out) s true (m4_ts_incr out) (m4_vop_time_increment_resolution out)
        (m4_vop_time_increment out) (m4_vtir_bitlen out) (m4_timestamp out)).

(** A section is the memory [d] from its start code on and its length. *)
Definition parse_visual_object_sequence (out : rtp_mpeg4) (d : list Z) (len : Z) : outcome rtp_mpeg4 :=
  p ← rd d 4;
  e ← bytes_at d len;
  let out := MkMpeg4 (m4_iov out) (m4_config out) p (m4_fmtp out) (m4_init_done out) (m4_ts_incr out) (m4_vop_time_increment_resolution out)
    (m4_vop_time_increment out) (m4_vtir_bitlen out) (m4_timestamp out) in
  Ok (add_to_rtp_buf (add_to_config out e) e).

Definition parse_visual_object (out : rtp_mpeg4) (d : list Z) (len : Z) : outcome rtp_mpeg4 :=
  '(v, off) ← get_field d 1 32;
  let off := if truth v then off + 7 else off in
  _ ← get_field d 4 off;
  e ← bytes_at d len;
  Ok (add_section out e).

Definition parse_video_object (out : rtp_mpeg4) (d : list Z) (len : Z) : outcome rtp_mpeg4 :=
  e ← bytes_at d len;
  Ok (add_to_rtp_buf (add_to_config out e) e).

Definition parse_1b2 (out : rtp_mpeg4) (d : list Z) (len : Z) : outcome rtp_mpeg4 :=
  e ← bytes_at d len;
  Ok (add_section out e).

(** [for (vtir_bitlen = 0; i != 0; i >>= 1) ++vtir_bitlen]. *)
Definition bit_length (i : Z) : Z := if i <=? 0 then 0 else Z.log2 i + 1.

Definition m4_times (out : rtp_mpeg4) (incr res vti bitlen : Z) : rtp_mpeg4 :=
  MkMpeg4 (m4_iov out) (m4_config out) (m4_pali out) (m4_fmtp out) (m4_init_done out) incr res vti bitlen (m4_timestamp out).

Definition parse_video_object_layer (out : rtp_mpeg4) (d : list Z) (len : Z) : outcome rtp_mpeg4 :=
  '(v, off) ← get_field d 1 41;
  let off := if truth v then off + 7 else off in
  '(v, off) ← get_field d 4 off;
  let off := if v =? 15 then off + 16 else off in
  '(v, off) ← get_field d 1 off;
  off ← (if truth v then
           let off := off + 3 in
           '(v, off) ← get_field d 1 off;
           Ok (if truth v then off + 79 else off)
         else Ok off);
  let off := off + 2 in
  '(v, off) ← get_field d 1 off;
  if v =? 0 then Ok out else
  '(res, off) ← get_field d 16 off;
  let out := m4_times out (m4_ts_incr out) res (m4_vop_time_increment out) (m4_vtir_bitlen out) in
  '(v, off) ← get_field d 1 off;
  if v =? 0 then Ok out else
  let bitlen := bit_length res in
  '(v, off) ← get_field d 1 off;
  e ← bytes_at d len;
  if truth v then
    '(vti, _) ← get_field d bitlen off;
    if vti =? 0 then Ok (m4_times out (m4_ts_incr out) res 0 bitlen) else
    if 2 ^ 31 <=? 90000 * vti then Undef else
    if res =? 0 then Undef else
    Ok (add_section (m4_times out (90000 * vti / res) res vti bitlen) e)
  else Ok (add_section (m4_times out (m4_ts_incr out) res 0 bitlen) e).

(** [for (modulo_time_base = 0; off / 8 < len; ++modulo_time_base)]. *)
Fixpoint skip_ones (k : nat) (d : list Z) (len off : Z) : outcome Z :=
  match k with
  | O => Diverge
  | S k =>
      if negb (off / 8 <? len) then Ok off else
      '(v, off) ← get_field d 1 off;
      if v =? 0 then Ok off else skip_ones k d len off
  end.

Definition parse_video_object_plane (out : rtp_mpeg4) (d : list Z) (len : Z) : outcome rtp_mpeg4 :=
  out ← (if (0 <? length (m4_config out))%nat then finish_config out else Ok out);
  if negb (m4_init_done out) then Ok out else
  '(_, off) ← get_field d 2 32;
  off ← skip_ones (S (Z.to_nat (8 * len))) d len off;
  '(v, off) ← get_field d 1 off;
  if v =? 0 then Ok out else
  _ ← get_field d (m4_vtir_bitlen out) off;
  e ← bytes_at d len;
  Ok (add_to_rtp_buf (MkMpeg4 (m4_iov out) (m4_config out) (m4_pali out) (m4_fmtp out) (m4_init_done out) (m4_ts_incr out)
        (m4_vop_time_increment_resolution out) (m4_vop_time_increment out) (m4_vtir_bitlen out) (u32 (m4_timestamp out + m4_ts_incr out))) e).

Definition parse_mpeg4_frame (out : rtp_mpeg4) (d : list Z) (len : Z) : outcome rtp_mpeg4 :=
  start_code ← get_code d;
  if start_code =? 0x000001B0 then parse_visual_object_sequence out d len
  else if start_code =? 0x000001B2 then parse_1b2 out d len
  else if start_code =? 0x000001B5 then parse_visual_object out d len
  else if (0x00000100 <=? start_code) && (start_code <=? 0x0000011F) then parse_video_object out d len
  else if (0x00000120 <=? start_code) && (start_code <=? 0x0000012F) then parse_video_object_layer out d len
  else if start_code =? 0x000001B6 then parse_video_object_plane out d len
  else Ok out.

(** The loop of [mpeg4_process_frame]; [d] is the frame from [start] on and [left] its
    length. *)
Fixpoint mpeg4_sections (fuel : nat) (d : list Z) (left : Z) (out : rtp_mpeg4) : outcome rtp_mpeg4 :=
  if left <=? 0 then Ok out else
  match fuel with
  | O => Diverge
  | S fuel =>
      flen ← find_next_code d left;
      let flen := if flen =? 0 then left else flen in
      out ← parse_mpeg4_frame out d flen;
      mpeg4_sections fuel (drop (Z.to_nat flen) d) (left - flen) out
  end.

Definition mpeg4_process_frame (d : list Z) (length : Z) (out : rtp_mpeg4) : outcome (bool * rtp_mpeg4) :=
  out ← mpeg4_sections (S (Z.to_nat length)) d length (m4_with out [] (m4_config out));
  Ok (m4_init_done out, out).

Definition mpeg4_get_sdp (payload port : Z) (out : rtp_mpeg4) : option (list Z) :=
  if negb (m4_init_done out) then None else
  Some (lit "m=video " ++ dec port ++ lit " RTP/AVP " ++ dec payload ++ [CR; LF] ++ lit "a=rtpmap:" ++ dec payload ++
        lit " MP4V-ES/90000" ++ [CR; LF] ++ lit "a=fmtp:" ++ dec payload ++ [SP] ++ m4_fmtp out ++ [CR; LF]).

(** The loop of [mpeg4_send]: [es] are the elements from [i] on, [v] what is in the packet
    from [v[1]] on. *)
Fixpoint mpeg4_loop {N} `{Transport N} (fuel : nat) (max ts : Z) (cs : nat → clock) (es : list (list Z)) (off : nat) (v : list (list Z)) (space : Z)
    (n : N) (ep : rtp_endpoint) : outcome (sent * rtp_endpoint * N) :=
  match es with
  | [] => send_rtp_packet n ep v ts true (cs O)
  | e :: rest =>
      match fuel with
      | O => Diverge
      | S fuel =>
          if (31 <=? length v)%nat then Undef else
          let part := drop off e in
          if u32 space <? Z.of_nat (length part) then
            '(r, ep, n) ← send_rtp_packet n ep (v ++ [take (Z.to_nat space) part]) ts false (cs O);
            match r with
            | TornDown => Ok (TornDown, ep, n)
            | Sent => mpeg4_loop fuel max ts (λ k, cs (S k)) es (off + Z.to_nat space) [] max n ep
            end
          else mpeg4_loop fuel max ts cs rest 0 (v ++ [part]) (space - Z.of_nat (length part)) n ep
      end
  end.

Definition mpeg4_send {N} `{Transport N} (n : N) (ep : rtp_endpoint) (out : rtp_mpeg4) (cs : nat → clock) : outcome (sent * rtp_endpoint * N) :=
  mpeg4_loop (2 + length (m4_iov out) + 2 * length (concat (m4_iov out))) (ep_max_data_size ep) (m4_timestamp out) cs
    (m4_iov out) 0 [] (ep_max_data_size ep) n ep.

(** [junk] is what [malloc] left in the fields that are not set. *)
Definition new_rtp_media_mpeg4 (junk : rtp_mpeg4) : rtp_mpeg4 :=
  MkMpeg4 [] [] 0 (m4_fmtp junk) false (m4_ts_incr junk) (m4_vop_time_increment_resolution junk) (m4_vop_time_increment junk) (m4_vtir_bitlen junk) 0.

(** *** The packets *)

Definition payload (p : packet) : list Z := concat p.1.1.

Lemma mpeg4_loop_calls {N} `{Transport N} max ts : 0 < max < 2 ^ 31 → ∀ fuel es off v space,
  0 <= space → Z.of_nat (length (concat v)) + space = max → (length v + length es <= 30)%nat →
  (2 * length (drop off (concat es)) + length es + (if decide (space = 0%Z) then 1 else 0) < fuel)%nat →
  (off <= match es with [] => 0 | e :: _ => length e end)%nat →
  ∃ ps, (∀ cs (n : N) ep, mpeg4_loop fuel max ts cs es off v space n ep = send_calls n ep (with_clocks ps cs)) ∧
    concat (map payload ps) = concat v ++ drop off (concat es) ∧
    Forall (λ p, Z.of_nat (length (payload p)) <= max) ps ∧ ∃ k, map snd ps = replicate k false ++ [true].
Proof.
  intros Hmax. induction fuel as [|fuel IH]; intros es off v space Hs Hv Hl Hf Ho; [lia|].
  destruct es as [|e rest].
  - exists [(v, ts, true)]. split; [|split; [|split; [|by exists O]]].
    + intros cs n ep. cbn [mpeg4_loop with_clocks send_calls]. destruct (send_rtp_packet n ep v ts true (cs O)) as [[[[] ?] ?]| | |]; done.
    + cbn. unfold payload. cbn. by rewrite drop_nil, !app_nil_r.
    + repeat constructor. unfold payload. cbn. lia.
  - cbn [concat length] in *. rewrite drop_app_le in Hf |- * by done. set (part := drop off e) in *.
    destruct (Z.ltb_spec (u32 space) (Z.of_nat (length part))) as [Hlt|Hge]; rewrite u32_small in * by lia.
    + destruct (IH (e :: rest) (off + Z.to_nat space)%nat [] max) as (ps & E & Ec & Hsz & k & Ek); [lia|cbn; lia|cbn [length]; lia| | |].
      * cbn [concat length]. rewrite drop_app_le by (unfold part in Hlt; rewrite length_drop in Hlt; lia).
        rewrite <- drop_drop. fold part. rewrite length_app, length_drop in *.
        destruct (decide (space = 0)), (decide (max = 0)); lia.
      * unfold part in Hlt. rewrite length_drop in Hlt. lia.
      * exists ((v ++ [take (Z.to_nat space) part], ts, false) :: ps). split; [|split; [|split; [|by exists (S k); cbn; rewrite Ek]]].
        -- intros cs n ep. cbn [mpeg4_loop]. rewrite (proj2 (Nat.leb_gt _ _)) by (cbn in Hl; lia). cbv zeta. fold part.
           rewrite u32_small, (proj2 (Z.ltb_lt _ _)) by lia. cbn [with_clocks send_calls].
           destruct (send_rtp_packet n ep (v ++ [take (Z.to_nat space) part]) ts false (cs O)) as [[[[] ?] ?]| | |]; try done. rewrite !bind_Ok. apply E.
        -- cbn [map concat]. rewrite Ec. unfold payload. cbn [fst concat app]. rewrite concat_app. cbn [concat]. rewrite app_nil_r.
           rewrite drop_app_le by (unfold part in Hlt; rewrite length_drop in Hlt; lia). rewrite <- drop_drop. fold part.
           rewrite <- app_assoc. f_equal. by rewrite app_assoc, take_drop.
        -- constructor; [|done]. unfold payload. cbn [fst]. rewrite concat_app, length_app. cbn [concat]. rewrite app_nil_r, length_take. lia.
    + destruct (IH rest O (v ++ [part]) (space - Z.of_nat (length part))) as (ps & E & Ec & Hsz & Hk);
        [lia|rewrite concat_app, length_app; cbn [concat]; rewrite app_nil_r; lia|rewrite length_app; cbn [length] in *; lia| |lia|].
      * rewrite drop_0. rewrite length_app in Hf. destruct (decide (space = 0)), (decide (space - Z.of_nat (length part) = 0)); lia.
      * exists ps. split; [|split; [|by split]].
        -- intros cs n ep. cbn [mpeg4_loop]. rewrite (proj2 (Nat.leb_gt _ _)) by (cbn in Hl; lia). cbv zeta. fold part.
           rewrite u32_small, (proj2 (Z.ltb_ge _ _)) by lia. apply E.
        -- rewrite Ec, concat_app, drop_0. cbn [concat]. by rewrite app_nil_r, app_assoc.
Qed.

(** MPEG-4 sections travel whole.  For any sections that are to be sent, [mpeg4_send]
    makes packets of at most [max_data_size] bytes whose payloads, put one after the other, are
    the sections, and marks the last packet and no other. *)
Theorem mpeg4_packets_whole {N} `{Transport N} (n : N) ep out cs :
  0 < ep_max_data_size ep < 2 ^ 31 → (length (m4_iov out) <= 24)%nat →
  ∃ ps, mpeg4_send n ep out cs = send_calls n ep (with_clocks ps cs) ∧
    concat (map payload ps) = concat (m4_iov out) ∧
    Forall (λ p, Z.of_nat (length (payload p)) <= ep_max_data_size ep) ps ∧
    ∃ k, map snd ps = replicate k false ++ [true].
Proof.
  intros Hm Hl.
  destruct (mpeg4_loop_calls (ep_max_data_size ep) (m4_timestamp out) Hm (2 + length (m4_iov out) + 2 * length (concat (m4_iov out)))
    (m4_iov out) O [] (ep_max_data_size ep)) as (ps & E & Ec & Hsz & Hk); [lia|cbn; lia|cbn [length]; lia| |lia|].
  - rewrite drop_0. destruct (decide _); lia.
  - exists ps. split; [apply E|]. split; [|by split]. rewrite Ec, drop_0. done.
Qed.

(** ** MPEG-1 *)

Definition frame_rate_tab : list (Z * Z) :=
  [(0, 0); (1001, 24000); (1, 24); (1, 25); (1001, 30000); (1, 30); (1, 50); (1001, 60000); (1, 60);
   (0, 0); (0, 0); (0, 0); (0, 0); (0, 0); (0, 0); (0, 0)].

(** A block is the memory from its start on and its length; [mv_vsh] are the bytes of the
    sequence header. *)
Record rtp_mpv := MkMpv {
  mv_blk : list (list Z * Z);
  mv_temporal_reference : Z;
  mv_picture_type : Z;
  mv_vectors : Z;
  mv_vsh : list Z;
  mv_init_done : bool;
  mv_ts_incr : Z;
  mv_timestamp : Z }.

Definition mv_blocks (out : rtp_mpv) (blk : list (list Z * Z)) : rtp_mpv :=
  MkMpv blk (mv_temporal_reference out) (mv_picture_type out) (mv_vectors out) (mv_vsh out) (mv_init_done out) (mv_ts_incr out) (mv_timestamp out).
Definition mv_header (out : rtp_mpv) (vsh : list Z) : rtp_mpv :=
  MkMpv (mv_blk out) (mv_temporal_reference out) (mv_picture_type out) (mv_vectors out) vsh (mv_init_done out) (mv_ts_incr out) (mv_timestamp out).

(** A rate with the number 0 as base is a division by zero. *)
Definition parse_video_sequence_header (out : rtp_mpv) (d : list Z) : outcome rtp_mpv :=
  '(frc, _) ← get_field d 4 (32 + 12 + 12 + 4);
  '(incr, base) ← rd frame_rate_tab (Z.to_nat frc);
  if base =? 0 then Undef else
  Ok (MkMpv (mv_blk out) (mv_temporal_reference out) (mv_picture_type out) (mv_vectors out) (mv_vsh out) true (90000 * incr / base) (mv_timestamp out)).

Definition parse_picture_header (out : rtp_mpv) (d : list Z) (len : Z) : outcome rtp_mpv :=
  if negb (mv_init_done out) then Ok out else
  '(tr, off) ← get_field d 10 32;
  '(pt, off) ← get_field d 3 off;
  let off := off + 16 in
  vectors ← (if (pt =? 2) || (pt =? 3) then
               '(ffv, off) ← get_field d 1 off;
               '(ffc, off) ← (if 8 <? len then get_field d 3 off else '(v, off) ← get_field d 2 off; Ok (v <<< 1, off));
               let v := (ffv <<< 3) .| ffc in
               if (pt =? 3) && (8 <? len) then
                 '(fbv, off) ← get_field d 1 off;
                 '(bfc, off) ← get_field d 3 off;
                 Ok (v .| (fbv <<< 7) .| (bfc <<< 4))
               else Ok v
             else Ok 0);
  Ok (MkMpv (mv_blk out) tr pt vectors (mv_vsh out) (mv_init_done out) (mv_ts_incr out) (u32 (mv_timestamp out + mv_ts_incr out))).

(** A section before the first picture; [vsh] has 4096 bytes. *)
Definition mpv_header (start_code : Z) (d : list Z) (flen : Z) (have_vsh : bool) (out : rtp_mpv) : outcome (rtp_mpv * bool) :=
  r ← (if start_code =? 0x000001B3 then out ← parse_video_sequence_header (mv_header out []) d; Ok (out, true)
       else Ok (out, have_vsh));
  let out := r.1 in
  if r.2 : bool then
    e ← bytes_at d flen;
    if (4096 <? length (mv_vsh out) + length e)%nat then Undef else Ok (mv_header out (mv_vsh out ++ e), true)
  else Ok (out, false).

(** The loop of [mpv_process_frame]. *)
Fixpoint mpv_sections (fuel : nat) (d : list Z) (left : Z) (in_picture have_vsh : bool) (out : rtp_mpv) : outcome rtp_mpv :=
  if left <=? 0 then Ok out else
  match fuel with
  | O => Diverge
  | S fuel =>
      if (length (mv_blk out) =? 48)%nat then Ok out else
      flen ← find_next_code d left;
      let flen := if flen =? 0 then left else flen in
      start_code ← get_code d;
      let in_picture := in_picture || (start_code <=? 0x000001AF) || (start_code =? 0x000001B8) in
      '(out, have_vsh) ←
        (if in_picture then
           out ← (if start_code =? 0x00000100 then parse_picture_header out d flen else Ok out);
           Ok (mv_blocks out (mv_blk out ++ [(d, flen)]), have_vsh)
         else
           mpv_header start_code d flen have_vsh out);
      mpv_sections fuel (drop (Z.to_nat flen) d) (left - flen) in_picture have_vsh out
  end.

Definition mpv_process_frame (d : list Z) (length : Z) (out : rtp_mpv) : outcome (bool * rtp_mpv) :=
  out ← mpv_sections (S (Z.to_nat length)) d length false false (mv_blocks out []);
  Ok (mv_init_done out, out).

Definition mpv_get_sdp (port : Z) : list Z := lit "m=video " ++ dec port ++ lit " RTP/AVP 32" ++ [CR; LF].
Definition mpv_get_payload (payload : Z) : Z := 32.

Section mpv.
Context {N : Type} `{Transport N}.
Context (max : Z) (out : rtp_mpv).

(** [vhdr] with its third byte. *)
Definition vhdr (b : Z) : list Z := PUT_16 (mv_temporal_reference out) ++ [u8 b; u8 (mv_vectors out)].

Definition is_slice (code : Z) : bool := (0 <? code) && (code <=? 0xAF).

(** The fragments of a block after the first one. *)
Fixpoint mpv_fragments (fuel : nat) (cs : nat → clock) (d : list Z) (len off : Z) (last : bool) (n : N) (ep : rtp_endpoint)
    : outcome (sent * rtp_endpoint * N * (nat → clock)) :=
  if negb (off <? len) then Ok (Sent, ep, n, cs) else
  match fuel with
  | O => Diverge
  | S fuel =>
      let all := negb (u32 (max - 4) <? len - off) in
      let l := if all then len - off else max - 4 in
      let b := if all then mv_picture_type out .| 0x08 else mv_picture_type out in
      e ← bytes_at (drop (Z.to_nat off) d) l;
      '(r, ep, n) ← send_rtp_packet n ep [vhdr b; e] (mv_timestamp out) (truth (u8 b .& 0x08) && last) (cs O);
      match r with
      | TornDown => Ok (TornDown, ep, n, cs)
      | Sent => mpv_fragments fuel (λ k, cs (S k)) d len (off + l) last n ep
      end
  end.

(** The loop over the blocks; [v] is what is in the packet from [v[2]] on, [b] the third byte
    of the header. *)
Fixpoint mpv_loop (blks : list (list Z * Z)) (cs : nat → clock) (v : list (list Z)) (b space : Z) (n : N) (ep : rtp_endpoint)
    : outcome (sent * rtp_endpoint * N) :=
  match blks with
  | [] => if (0 <? length v)%nat then send_rtp_packet n ep (vhdr b :: v) (mv_timestamp out) true (cs O) else Ok (Sent, ep, n)
  | (d, len) :: blks =>
      let min_space := if max - 4 <? len then 4 else len in
      '(r, ep, n, cs, v, b, space) ←
        (if space <? min_space then
           '(r, ep, n) ← send_rtp_packet n ep (vhdr b :: v) (mv_timestamp out) false (cs O);
           Ok (r, ep, n, λ k, cs (S k), [], mv_picture_type out, max - 4)
         else Ok (Sent, ep, n, cs, v, b, space));
      match r with
      | TornDown => Ok (TornDown, ep, n)
      | Sent =>
          if (46 <=? length v)%nat then Undef else
          code ← rd d 3;
          let b := if is_slice code then b .| 0x10 else b in
          if len <=? u32 space then
            e ← bytes_at d len;
            mpv_loop blks cs (v ++ [e]) (if is_slice code then b .| 0x08 else b) (space - len) n ep
          else
            e ← bytes_at d space;
            let b := b .& (Z.lnot 0x08) in
            '(r, ep, n) ← send_rtp_packet n ep (vhdr b :: v ++ [e]) (mv_timestamp out) false (cs O);
            match r with
            | TornDown => Ok (TornDown, ep, n)
            | Sent =>
                '(r, ep, n, cs) ← mpv_fragments (S (Z.to_nat len)) (λ k, cs (S k)) d len space (match blks with [] => true | _ => false end) n ep;
                match r with
                | TornDown => Ok (TornDown, ep, n)
                | Sent => mpv_loop blks cs [] (mv_picture_type out) (max - 4) n ep
                end
            end
      end
  end.
End mpv.

Definition mpv_send {N} `{Transport N} (n : N) (ep : rtp_endpoint) (out : rtp_mpv) (cs : nat → clock) : outcome (sent * rtp_endpoint * N) :=
  let max := ep_max_data_size ep in
  if mv_picture_type out =? 1 then
    mpv_loop max out (mv_blk out) cs [mv_vsh out] (mv_picture_type out .| 0x20) (max - 4 - Z.of_nat (length (mv_vsh out))) n ep
  else mpv_loop max out (mv_blk out) cs [] (mv_picture_type out) (max - 4) n ep.

Definition new_rtp_media_mpv (junk : rtp_mpv) : rtp_mpv :=
  MkMpv [] (mv_temporal_reference junk) (mv_picture_type junk) (mv_vectors junk) (mv_vsh junk) false (mv_ts_incr junk) 0.

(** *** The packets *)

Section mpv_packets.
Context {N : Type} `{Transport N}.
Context (max : Z) (out : rtp_mpv).
Hypothesis Hmax : 8 <= max < 2 ^ 31.
Hypothesis Hpt : 0 <= mv_picture_type out < 8.

(** Packets, and then [K]. *)
Fixpoint calls_then (ps : list packet) (K : (nat → clock) → N → rtp_endpoint → outcome (sent * rtp_endpoint * N)) (cs : nat → clock) (n : N) (ep : rtp_endpoint)
    : outcome (sent * rtp_endpoint * N) :=
  match ps with
  | [] => K cs n ep
  | (v, ts, m) :: ps =>
      '(r, ep, n) ← send_rtp_packet n ep v ts m (cs O);
      match r with TornDown => Ok (TornDown, ep, n) | Sent => calls_then ps K (λ k, cs (S k)) n ep end
  end.

Lemma calls_then_calls ps qs K cs n ep :
  (∀ cs n ep, K cs n ep = send_calls n ep (with_clocks qs cs)) → calls_then ps K cs n ep = send_calls n ep (with_clocks (ps ++ qs) cs).
Proof using Type.
  intros HK. revert cs n ep. induction ps as [|[[v ts] m] ps IH]; intros cs n ep; cbn [calls_then app with_clocks send_calls]; [apply HK|].
  destruct (send_rtp_packet n ep v ts m (cs O)) as [[[[] ?] ?]| | |]; try done. rewrite !bind_Ok. apply IH.
Qed.

(** What the receiver keeps of a packet. *)
Definition body (p : packet) : list Z := drop 4 (payload p).

Definition good_packets (ps : list packet) : Prop := Forall (λ p, Z.of_nat (length (payload p)) <= max) ps.

Lemma body_packet b v ts m : body (vhdr out b :: v, ts, m) = concat v.
Proof using Type. unfold body, payload, vhdr. cbn. by rewrite drop_0. Qed.

Lemma size_packet b v ts m : Z.of_nat (length (payload (vhdr out b :: v, ts, m))) = 4 + Z.of_nat (length (concat v)).
Proof using Type. unfold payload, vhdr. cbn [fst concat]. rewrite length_app. cbn. lia. Qed.

Lemma end_bit b : 0 <= b < 8 → truth (u8 (b .| 0x08) .& 0x08) = true ∧ truth (u8 b .& 0x08) = false.
Proof using Type. intros Hb. assert (b = 0 ∨ b = 1 ∨ b = 2 ∨ b = 3 ∨ b = 4 ∨ b = 5 ∨ b = 6 ∨ b = 7) as Hc by lia. destruct_or! Hc; subst b; done. Qed.

Lemma fragments_calls last d len : len <= Z.of_nat (length d) → len < 2 ^ 31 → ∀ fuel off,
  0 <= off < len → (Z.to_nat (len - off) < fuel)%nat →
  ∃ ps, (∀ K cs n ep, ('(r, ep, n, cs) ← mpv_fragments max out fuel cs d len off last n ep;
      match r with TornDown => Ok (TornDown, ep, n) | Sent => K cs n ep end) = calls_then ps K cs n ep) ∧
    concat (map body ps) = take (Z.to_nat (len - off)) (drop (Z.to_nat off) d) ∧ good_packets ps ∧
    ∃ k, map snd ps = replicate k false ++ [last].
Proof using Hmax Hpt.
  intros Hd Hlen. induction fuel as [|fuel IH]; intros off Ho Hf; [lia|].
  set (e l := take (Z.to_nat l) (drop (Z.to_nat off) d)).
  assert (∀ l, 0 <= l <= len - off → bytes_at (drop (Z.to_nat off) d) l = Ok (e l) ∧ Z.of_nat (length (e l)) = l) as He.
  { intros l Hl. unfold bytes_at, e. rewrite length_drop, (proj2 (Z.ltb_ge l 0)), (proj2 (Z.ltb_ge _ l)), length_take, length_drop by lia. split; [done|lia]. }
  destruct (Z.ltb_spec (u32 (max - 4)) (len - off)) as [Hlt|Hge]; rewrite u32_small in * by lia.
  - destruct (IH (off + (max - 4))) as (ps & E & Ec & Hg & k & Ek); [lia|lia|]. destruct (He (max - 4)) as [E1 E2]; [lia|].
    exists (([vhdr out (mv_picture_type out); e (max - 4)], mv_timestamp out, false) :: ps). split; [|split; [|split; [|by exists (S k); cbn; rewrite Ek]]].
    + intros K cs n ep. cbn [mpv_fragments]. rewrite (proj2 (Z.ltb_lt off len)), u32_small, (proj2 (Z.ltb_lt (max - 4) _)) by lia. cbn [negb]. cbv zeta.
      rewrite E1, bind_Ok, (proj2 (end_bit _ Hpt)). cbn [andb calls_then].
      destruct (send_rtp_packet n ep _ _ _ _) as [[[[] ?] ?]| | |]; try done. rewrite !bind_Ok. apply E.
    + cbn [map concat]. rewrite body_packet, Ec. cbn [concat]. rewrite app_nil_r. unfold e.
      rewrite Z2Nat.inj_add, <- drop_drop by lia. rewrite <- (take_drop (Z.to_nat (max - 4)) (take (Z.to_nat (len - off)) _)).
      f_equal; [rewrite take_take; f_equal; lia|]. rewrite take_drop_commute. f_equal. f_equal. lia.
    + constructor; [|done]. rewrite size_packet. cbn [concat]. rewrite app_nil_r. lia.
  - destruct (He (len - off)) as [E1 E2]; [lia|].
    exists [([vhdr out (mv_picture_type out .| 0x08); e (len - off)], mv_timestamp out, last)]. split; [|split; [|split; [|by exists O]]].
    + intros K cs n ep. cbn [mpv_fragments]. rewrite (proj2 (Z.ltb_lt off len)), u32_small, (proj2 (Z.ltb_ge (max - 4) _)) by lia. cbn [negb]. cbv zeta.
      rewrite E1, bind_Ok, (proj1 (end_bit _ Hpt)). cbn [andb calls_then].
      destruct (send_rtp_packet n ep _ _ _ _) as [[[[] ?] ?]| | |]; try done. rewrite !bind_Ok.
      replace (off + (len - off)) with len by lia. destruct fuel; cbn [mpv_fragments]; rewrite Z.ltb_irrefl; done.
    + cbn [map concat]. rewrite body_packet. cbn [concat]. by rewrite !app_nil_r.
    + constructor; [|done]. rewrite size_packet. cbn [concat]. rewrite app_nil_r. lia.
Qed.
(** The last packet of a frame is marked, and no other; [any] tells whether there is one. *)
Definition marked (any : bool) (ps : list packet) : Prop := if any then ∃ k, map snd ps = replicate k false ++ [true] else ps = [].

Definition some_left {A B} (v : list A) (blks : list B) : bool := match v, blks with [], [] => false | _, _ => true end.

Definition blk_ok (blk : list Z * Z) : Prop := 4 <= blk.2 <= Z.of_nat (length blk.1) ∧ blk.2 < 2 ^ 31.

Definition blk_bytes (blk : list Z * Z) : list Z := take (Z.to_nat blk.2) blk.1.

(** The packets that [K] makes of what waits in [v] and of the blocks. *)
Definition sends (K : (nat → clock) → N → rtp_endpoint → outcome (sent * rtp_endpoint * N)) (bytes : list Z) (any : bool) : Prop :=
  ∃ ps, (∀ cs n ep, K cs n ep = send_calls n ep (with_clocks ps cs)) ∧ concat (map body ps) = bytes ∧ good_packets ps ∧ marked any ps.

Lemma sends_one b v (K : (nat → clock) → N → rtp_endpoint → outcome (sent * rtp_endpoint * N)) bytes :
  4 + Z.of_nat (length (concat v)) <= max → sends K bytes true →
  sends (λ cs n ep, '(r, ep, n) ← send_rtp_packet n ep (vhdr out b :: v) (mv_timestamp out) false (cs O);
    match r with TornDown => Ok (TornDown, ep, n) | Sent => K (λ k, cs (S k)) n ep end) (concat v ++ bytes) true.
Proof using Type.
  intros Hv (ps & E & Ec & Hg & k & Ek). exists ((vhdr out b :: v, mv_timestamp out, false) :: ps).
  split; [|split; [|split; [|by exists (S k); cbn; rewrite Ek]]].
  - intros cs n ep. cbn [with_clocks send_calls]. destruct (send_rtp_packet n ep _ _ _ _) as [[[[] ?] ?]| | |]; try done. rewrite !bind_Ok. apply E.
  - cbn [map concat]. by rewrite body_packet, Ec.
  - constructor; [|done]. rewrite size_packet. lia.
Qed.

Lemma sends_fragments d len off (blks : list (list Z * Z)) (K : (nat → clock) → N → rtp_endpoint → outcome (sent * rtp_endpoint * N)) bytes :
  len <= Z.of_nat (length d) → len < 2 ^ 31 → 0 <= off < len → sends K bytes (some_left (@nil (list Z)) blks) →
  sends (λ cs n ep, '(r, ep, n, cs) ← mpv_fragments max out (S (Z.to_nat len)) cs d len off (match blks with [] => true | _ :: _ => false end) n ep;
    match r with TornDown => Ok (TornDown, ep, n) | Sent => K cs n ep end)
    (take (Z.to_nat (len - off)) (drop (Z.to_nat off) d) ++ bytes) true.
Proof using Hmax Hpt.
  intros Hd Hl Ho (ps & E & Ec & Hg & Hm).
  destruct (fragments_calls (match blks with [] => true | _ :: _ => false end) d len Hd Hl (S (Z.to_nat len)) off Ho) as (fs & Ef & Efc & Hgf & k & Ek); [lia|].
  exists (fs ++ ps). split; [|split; [|split]].
  - intros cs n ep. rewrite Ef. by apply calls_then_calls.
  - by rewrite map_app, concat_app, Efc, Ec.
  - by apply Forall_app.
  - destruct blks; cbn [some_left marked] in *.
    + subst ps. exists k. by rewrite app_nil_r.
    + destruct Hm as [j Ej]. exists (k + 1 + j)%nat. etrans; [apply map_app|]. etrans; [exact (f_equal2 app Ek Ej)|]. rewrite !replicate_add. cbn. by rewrite <- !app_assoc.
Qed.

Lemma sends_ext K K' bytes bytes' any : (∀ cs n ep, K' cs n ep = K cs n ep) → bytes' = bytes → sends K bytes any → sends K' bytes' any.
Proof using Type. intros EK -> (ps & E & Hr). exists ps. split; [|done]. intros. by rewrite EK, E. Qed.

Lemma mpv_loop_sends blks : Forall blk_ok blks → ∀ v b space,
  0 <= space → 4 + Z.of_nat (length (concat v)) + space = max → (length v + length blks <= 46)%nat →
  sends (λ cs n ep, mpv_loop max out blks cs v b space n ep) (concat v ++ concat (map blk_bytes blks)) (some_left v blks).
Proof using Hmax Hpt.
  induction 1 as [|[d len] blks [Hlen Hw] _ IH]; intros v b space Hs Hv Hl; cbn [fst snd] in *.
  { destruct v as [|e v]; [by exists []; repeat split; constructor|]. exists [(vhdr out b :: e :: v, mv_timestamp out, true)].
    cbn [map]. rewrite app_nil_r. split; [|split; [|split; [|by exists O]]].
    - intros cs n ep. cbn [mpv_loop length Nat.ltb Nat.leb with_clocks send_calls]. destruct (send_rtp_packet n ep _ _ _ _) as [[[[] ?] ?]| | |]; done.
    - cbn [map]. rewrite (concat_cons _ []), body_packet. cbn [concat]. by rewrite app_nil_r.
    - constructor; [|done]. rewrite size_packet. lia. }
  assert (∃ code, rd d 3 = Ok code) as [code Ecode].
  { destruct d as [|? [|? [|? [|x d]]]]; cbn in Hlen; try lia. by exists x. }
  assert (∀ l, 0 <= l <= len → bytes_at d l = Ok (take (Z.to_nat l) d)) as Hb.
  { intros l Hle. unfold bytes_at. by rewrite (proj2 (Z.ltb_ge l 0)), (proj2 (Z.ltb_ge _ l)) by lia. }
  assert (∀ v b space, 0 <= space → 4 + Z.of_nat (length (concat v)) + space = max → (length v + S (length blks) <= 46)%nat →
    (if max - 4 <? len then 4 else len) <= space →
    sends (λ cs n ep, mpv_loop max out ((d, len) :: blks) cs v b space n ep) (concat v ++ concat (map blk_bytes ((d, len) :: blks))) true) as Hplace.
  { clear v b space Hs Hv Hl. intros v b space Hs Hv Hl Hroom. set (b' := if is_slice code then b .| 0x10 else b).
    destruct (Z.leb_spec len space) as [Hfit|Hbig].
    - specialize (IH (v ++ [take (Z.to_nat len) d]) (if is_slice code then b' .| 0x08 else b') (space - len)).
      replace (some_left (v ++ [take (Z.to_nat len) d]) blks) with true in IH by (by destruct v).
      eapply sends_ext; [| |apply IH]; rewrite ?concat_app, ?length_app; cbn [concat length map]; rewrite ?app_nil_r, ?length_app, ?length_take; try lia.
      + intros cs n ep. cbn [mpv_loop]. rewrite (proj2 (Z.ltb_ge space _)), bind_Ok, (proj2 (Nat.leb_gt _ _)), Ecode, bind_Ok by lia.
        by rewrite u32_small, (proj2 (Z.leb_le _ _)), Hb by lia.
      + by rewrite <- app_assoc.
    - eapply sends_ext; [| |apply (sends_one (b' .& Z.lnot 0x08) (v ++ [take (Z.to_nat space) d])), (sends_fragments d len space blks), (IH [] (mv_picture_type out) (max - 4))]; try done.
      + intros cs n ep. cbn [mpv_loop]. rewrite (proj2 (Z.ltb_ge space _)), bind_Ok, (proj2 (Nat.leb_gt _ _)), Ecode, bind_Ok by (cbn [length] in *; lia).
        by rewrite u32_small, (proj2 (Z.leb_gt len space)), Hb by lia.
      + rewrite concat_app. cbn [concat map app]. rewrite app_nil_r, <- !app_assoc. f_equal. rewrite app_assoc. f_equal.
        unfold blk_bytes. cbn [fst snd]. rewrite <- (take_drop (Z.to_nat space) (take (Z.to_nat len) d)), take_take, take_drop_commute.
        f_equal; f_equal; lia || (f_equal; lia).
      + rewrite concat_app, length_app. cbn [concat]. rewrite app_nil_r, length_take. lia.
      + lia.
      + lia.
      + cbn [concat length]. lia.
      + cbn [length]. lia. }
  replace (some_left v ((d, len) :: blks)) with true by (by destruct v).
  destruct (Z.ltb_spec space (if max - 4 <? len then 4 else len)) as [Hno|Hyes]; [|by apply Hplace].
  eapply sends_ext; [| |apply (sends_one b v), (Hplace [] (mv_picture_type out) (max - 4))]; [|done|lia|lia|change (length (concat [])) with 0%nat; lia|cbn [length] in *; lia|destruct (Z.ltb_spec (max - 4) len); lia].
  intros cs n ep. cbn [mpv_loop]. rewrite (proj2 (Z.ltb_lt space _)) by done.
  destruct (send_rtp_packet n ep _ _ _ _) as [[[[] ?] ?]| | |]; try done. rewrite !bind_Ok.
  by rewrite (proj2 (Z.ltb_ge (max - 4) _)) by (destruct (Z.ltb_spec (max - 4) len); lia).
Qed.
End mpv_packets.

(** MPEG video travels whole.  For blocks [process_frame] found and a sequence header that
    fits in a packet, [mpv_send] makes packets of at most [max_data_size] bytes, each with its
    4-byte video header; what follows the headers, put one after the other, is the sequence
    header (on an I picture) and the blocks.  The last packet is marked and no other, and a frame
    with nothing to send makes no packet. *)
Theorem mpv_packets_whole {N} `{Transport N} (n : N) ep out cs :
  8 <= ep_max_data_size ep < 2 ^ 31 → 0 <= mv_picture_type out < 8 → Forall blk_ok (mv_blk out) →
  (length (mv_blk out) <= 45)%nat → Z.of_nat (length (mv_vsh out)) <= ep_max_data_size ep - 4 →
  let v := if mv_picture_type out =? 1 then [mv_vsh out] else [] in
  ∃ ps, mpv_send n ep out cs = send_calls n ep (with_clocks ps cs) ∧
    concat (map body ps) = concat v ++ concat (map blk_bytes (mv_blk out)) ∧
    good_packets (ep_max_data_size ep) ps ∧ marked (some_left v (mv_blk out)) ps.
Proof.
  intros Hm Hpt Hb Hl Hv v. unfold mpv_send. cbv zeta. unfold v. destruct (mv_picture_type out =? 1).
  - destruct (mpv_loop_sends (N:=N) (ep_max_data_size ep) out Hm Hpt (mv_blk out) Hb [mv_vsh out] (mv_picture_type out .| 0x20)
      (ep_max_data_size ep - 4 - Z.of_nat (length (mv_vsh out)))) as (ps & E & Hr); [lia|cbn [concat]; rewrite app_nil_r; lia|cbn [length]; lia|].
    exists ps. split; [apply E|done].
  - destruct (mpv_loop_sends (N:=N) (ep_max_data_size ep) out Hm Hpt (mv_blk out) Hb [] (mv_picture_type out)
      (ep_max_data_size ep - 4)) as (ps & E & Hr); [lia|cbn [concat length]; lia|cbn [length]; lia|].
    exists ps. split; [apply E|done].
Qed.

(** ** Witnesses *)

Definition w_mpeg4 : rtp_mpeg4 := MkMpeg4 [[0; 0; 1; 0xB0; 1]; [0; 0; 1; 0xB6] ++ replicate 400 9] [] 1 [] true 3000 30 1 5 6000.

Lemma mpeg4_packets_whole_witness :
  ∃ ps, mpeg4_send (MkUdpLog (replicate 9 true) []) w_media_ep w_mpeg4 (λ _ _, (100, 0)) =
      send_calls (MkUdpLog (replicate 9 true) []) w_media_ep (with_clocks ps (λ _ _, (100, 0))) ∧
    concat (map payload ps) = [0; 0; 1; 0xB0; 1; 0; 0; 1; 0xB6] ++ replicate 400 9.
Proof.
  destruct (mpeg4_packets_whole (MkUdpLog (replicate 9 true) []) w_media_ep w_mpeg4 (λ _ _, (100, 0))) as (ps & E1 & E2 & _).
  - cbn. lia.
  - cbn. lia.
  - exists ps. split; [exact E1|]. rewrite E2. reflexivity.
Defined.

(** An I picture: the picture header, a slice that fits and one of 400 bytes. *)
Definition w_slice : list Z := [0; 0; 1; 2] ++ replicate 396 9.
Definition w_picture : list Z := [0; 0; 1; 0; 0; 8] ++ [0; 0; 1; 1; 7; 7; 7; 7] ++ w_slice.
Definition w_mpv : rtp_mpv := MkMpv [(w_picture, 6); (drop 6 w_picture, 8); (w_slice, 400)] 0 1 0 [0; 0; 1; 0xB3; 1; 2] true 3000 6000.

Lemma mpv_packets_whole_witness :
  ∃ ps, mpv_send (MkUdpLog (replicate 9 true) []) w_media_ep w_mpv (λ _ _, (100, 0)) =
      send_calls (MkUdpLog (replicate 9 true) []) w_media_ep (with_clocks ps (λ _ _, (100, 0))) ∧
    concat (map body ps) = [0; 0; 1; 0xB3; 1; 2] ++ w_picture ∧ ∃ k, map snd ps = replicate k false ++ [true].
Proof.
  destruct (mpv_packets_whole (MkUdpLog (replicate 9 true) []) w_media_ep w_mpv (λ _ _, (100, 0))) as (ps & E1 & E2 & _ & E3).
  - cbn. lia.
  - cbn. lia.
  - repeat constructor; cbn; lia.
  - cbn. lia.
  - cbn. lia.
  - exists ps. split; [exact E1|]. split; [rewrite E2; reflexivity|exact E3].
Defined.
