(* ===== verification/ConfParse.v ===== *)
(** * Configuration statements and blocks ([conf_parse.c], [conf_parse.h])

    Modules register contexts: a table of directives with the functions behind them, and
    what to do when a block is opened and closed.  [read_config_file] takes the tokens of a
    file one by one and runs the directives as their semicolons arrive; other code runs a
    context's functions directly.  The scanner is the list of the tokens it
    returns here; [ConfScan] models it, and [ConfSpell] puts the two together.  The theorems relate the loop over tokens to the blocks and
    statements a reader sees in the file. *)

From Stdlib Require Import String.
From S2P Require Import Prelude CString.

Local Open Scope Z_scope.

(** ** Tokens *)

Definition TOKEN_NUM : Z := 1.
Definition TOKEN_STR : Z := 2.

(** The union [v], with what was last stored in it. *)
Inductive token_value := VNone | VNum (n : Z) | VStr (s : list Z).

Record token := MkToken { t_type : Z; t_v : token_value }.

Definition tok_num (n : Z) : token := MkToken TOKEN_NUM (VNum n).
Definition tok_str (s : list Z) : token := MkToken TOKEN_STR (VStr s).
Definition tok_char (c : Z) : token := MkToken c VNone.

Definition v_num (t : token) : outcome Z := match t_v t with VNum n => Ok n | _ => Undef end.
Definition v_str (t : token) : outcome (list Z) := match t_v t with VStr s => Ok s | _ => Undef end.

Section conf.

(** What the directives work on. *)
Context {S : Type}.

(** ** Contexts *)

(** [process] gets the tokens of the statement, and [void *d]; -1 is a failure. *)
Record statement := MkStatement {
  s_directive : list Z;
  s_process : list token → option nat → S → outcome (Z * S);
  s_min_args : Z;
  s_max_args : Z;
  s_types : list Z }.

Record config_context := MkContext {
  cc_type : list Z;
  cc_name : list Z;
  cc_start_block : option (S → outcome (option nat * S));
  cc_end_block : option (option nat → S → outcome (Z * S));
  cc_statements : list statement }.

(** The list starts with [global_context]; [strcpy] into [type[256]] and [name[256]]. *)
Definition register_config_context (ccs : list config_context) (cc : config_context) : outcome (list config_context) :=
  if (256 <=? length (cc_type cc))%nat || (256 <=? length (cc_name cc))%nat then Undef else Ok (ccs ++ [cc]).

(** ** Statements *)

(** The loop over the types of the arguments. *)
Fixpoint types_match (types : list Z) (args : list token) {struct args} : outcome bool :=
  match args with
  | [] => Ok true
  | a :: args => match types with
                 | [] => Undef
                 | ty :: types => if ty =? t_type a then types_match types args else Ok false
                 end
  end.

(** The loop over the table: the first entry of the name that takes the arguments. *)
Fixpoint find_statement (ss : list statement) (directive : list Z) (num_args : Z) (args : list token)
    : outcome (option statement) :=
  match ss with
  | [] => Ok None
  | s :: ss =>
      if negb (strcaseeq (s_directive s) directive) then find_statement ss directive num_args args else
      if (num_args <? s_min_args s) || (s_max_args s <? num_args) then find_statement ss directive num_args args else
      ok ← types_match (s_types s) args;
      if (ok : bool) then Ok (Some s) else find_statement ss directive num_args args
  end.

(** [t] is the array, of which [num_tokens] are of the statement.  What the directive
    returns is not looked at. *)
Definition process_statement (cc : config_context) (d : option nat) (t : list token) (num_tokens : nat) (st : S)
    : outcome (Z * S) :=
  t0 ← rd t 0;
  if negb (t_type t0 =? TOKEN_STR) then Ok (-1, st) else
  directive ← v_str t0;
  let num_args := Z.of_nat num_tokens - 1 in
  r ← find_statement (cc_statements cc) directive num_args (take (num_tokens - 1) (drop 1 t));
  match r with
  | Some s => '(_, st) ← s_process s (take num_tokens t) d st; Ok (0, st)
  | None => Ok (-1, st)
  end.

(** ** Files *)

(** The token array, the number of tokens in it, the context ([O] is [global_context])
    and the block's data. *)
Record reader := MkReader { r_t : list token; r_cur : nat; r_cc : nat; r_data : option nat }.

Definition same_name (ty name : list Z) (cc : config_context) : bool :=
  strcaseeq (cc_type cc) ty && strcaseeq (cc_name cc) name.

(** [while ((cc = cc->next) && ...)] from the context at [i]. *)
Fixpoint find_block (ccs : list config_context) (i : nat) (ty name : list Z) : option nat :=
  match ccs with
  | [] => None
  | cc :: ccs => if same_name ty name cc then Some i else find_block ccs (Datatypes.S i) ty name
  end.

(** [case '{']: the type and the name of the block are in [t]; [None] is [return -1]. *)
Definition open_block (ccs : list config_context) (r : reader) (t : list token) (st : S) : outcome (option reader * S) :=
  if negb (r_cur r =? 2)%nat then Ok (None, st) else
  t0 ← rd t 0;
  t1 ← rd t 1;
  if negb (t_type t0 =? TOKEN_STR) || negb (t_type t1 =? TOKEN_STR) then Ok (None, st) else
  if negb (r_cc r =? 0)%nat then Ok (None, st) else
  s0 ← v_str t0;
  s1 ← v_str t1;
  match find_block (drop 1 ccs) 1 s0 s1 with
  | None => Ok (None, st)
  | Some i =>
      cc ← rd ccs i;
      match cc_start_block cc with
      | None => Ok (Some (MkReader t 0 i (r_data r)), st)
      | Some start =>
          '(d, st) ← start st;
          Ok (match d with None => None | Some _ => Some (MkReader t 0 i d) end, st)
      end
  end.

(** [case '}']. *)
Definition close_block (ccs : list config_context) (r : reader) (t : list token) (st : S) : outcome (option reader * S) :=
  if negb (r_cur r =? 0)%nat then Ok (None, st) else
  if (r_cc r =? 0)%nat then Ok (None, st) else
  cc ← rd ccs (r_cc r);
  '(ret, st) ← match cc_end_block cc with Some f => f (r_data r) st | None => Ok (0, st) end;
  Ok (if ret <? 0 then None else Some (MkReader t 0 0 None), st).

(** One token, stored at [t[cur_token]]. *)
Definition take_token (ccs : list config_context) (r : reader) (tok : token) (st : S)
    : outcome (option reader * S) :=
  t ← wr (r_t r) (r_cur r) tok;
  let ty := t_type tok in
  if (ty =? TOKEN_NUM) || (ty =? TOKEN_STR) then
    if (Datatypes.S (r_cur r) =? 10)%nat then Ok (None, st)
    else Ok (Some (MkReader t (Datatypes.S (r_cur r)) (r_cc r) (r_data r)), st)
  else if ty =? 59 then
    cc ← rd ccs (r_cc r);
    '(ret, st) ← process_statement cc (r_data r) t (r_cur r) st;
    Ok (if ret <? 0 then None else Some (MkReader t 0 (r_cc r) (r_data r)), st)
  else if ty =? 123 then open_block ccs r t st
  else if ty =? 125 then close_block ccs r t st
  else Ok (None, st).

(** [true] is [return 0]. *)
Fixpoint read_tokens (ccs : list config_context) (r : reader) (toks : list token) (st : S) : outcome (bool * S) :=
  match toks with
  | [] => Ok (true, st)
  | tok :: toks =>
      '(r, st) ← take_token ccs r tok st;
      match r with Some r => read_tokens ccs r toks st | None => Ok (false, st) end
  end.

(** [junk] is the uninitialised array; [None] is a file that cannot be opened. *)
Definition read_config_file (ccs : list config_context) (junk : list token) (file : option (list token)) (st : S)
    : outcome (bool * S) :=
  match file with
  | None => Ok (false, st)
  | Some toks => read_tokens ccs (MkReader junk 0 0 None) toks st
  end.

(** ** Without a file *)

(** The search starts at [global_context], whose type and name are empty. *)
Definition find_context (ccs : list config_context) (szType szName : list Z) : option nat :=
  find_block ccs 0 szType szName.

Definition run_context_start_block (ccs : list config_context) (ctx : option nat) (st : S) : outcome (option nat * S) :=
  match ctx with
  | None => Ok (None, st)
  | Some i =>
      cc ← rd ccs i;
      match cc_start_block cc with Some f => f st | None => Ok (None, st) end
  end.

Definition run_context_end_block (ccs : list config_context) (ctx d : option nat) (st : S) : outcome (Z * S) :=
  match ctx, d with
  | Some i, Some _ =>
      cc ← rd ccs i;
      match cc_end_block cc with Some f => f d st | None => Ok (-1, st) end
  | _, _ => Ok (-1, st)
  end.

Definition run_context_statement (ccs : list config_context) (ctx d : option nat) (t : list token) (num_tokens : nat)
    (st : S) : outcome (Z * S) :=
  match ctx, d with
  | Some i, Some _ => cc ← rd ccs i; process_statement cc d t num_tokens st
  | _, _ => Ok (-1, st)
  end.

(** ** What a file means *)

(** A file is a sequence of directives and blocks of directives; a directive is its words. *)
Inductive item :=
| Directive (ws : list token)
| Block (ty name : list Z) (body : list (list token)).

(** The words of a directive are numbers and strings. *)
Definition word (t : token) : Prop := (∃ n, t = tok_num n) ∨ (∃ s, t = tok_str s).

(** As many as the array holds before the semicolon. *)
Definition wf_words (ws : list token) : Prop := (0 < length ws < 10)%nat ∧ Forall word ws.

Definition wf_item (i : item) : Prop :=
  match i with Directive ws => wf_words ws | Block _ _ body => Forall wf_words body end.

Definition render_directive (ws : list token) : list token := ws ++ [tok_char 59].

Definition render (i : item) : list token :=
  match i with
  | Directive ws => render_directive ws
  | Block ty name body => [tok_str ty; tok_str name; tok_char 123] ++ concat (map render_directive body) ++ [tok_char 125]
  end.

(** The directives of a context one after the other, up to the first that is not accepted. *)
Fixpoint exec_directives (cc : config_context) (d : option nat) (body : list (list token)) (st : S) : outcome (bool * S) :=
  match body with
  | [] => Ok (true, st)
  | ws :: body =>
      '(ret, st) ← process_statement cc d ws (length ws) st;
      if ret <? 0 then Ok (false, st) else exec_directives cc d body st
  end.

Definition exec_block (ccs : list config_context) (ty name : list Z) (body : list (list token)) (st : S) : outcome (bool * S) :=
  match find_block (drop 1 ccs) 1 ty name with
  | None => Ok (false, st)
  | Some i =>
      cc ← rd ccs i;
      '(started, d, st) ← match cc_start_block cc with
                          | None => Ok (true, None, st)
                          | Some start => '(d, st) ← start st; Ok (bool_decide (is_Some d), d, st)
                          end;
      if negb started then Ok (false, st) else
      '(ok, st) ← exec_directives cc d body st;
      if negb ok then Ok (false, st) else
      '(ret, st) ← match cc_end_block cc with Some f => f d st | None => Ok (0, st) end;
      Ok (negb (ret <? 0), st)
  end.

Fixpoint exec_file (ccs : list config_context) (file : list item) (st : S) : outcome (bool * S) :=
  match file with
  | [] => Ok (true, st)
  | i :: file =>
      '(ok, st) ← match i with
                  | Directive ws => cc ← rd ccs 0; exec_directives cc None [ws] st
                  | Block ty name body => exec_block ccs ty name body st
                  end;
      if (ok : bool) then exec_file ccs file st else Ok (false, st)
  end.

(** Only the tokens of the statement matter. *)
Lemma process_statement_take cc d t n st :
  (0 < n <= length t)%nat → process_statement cc d t n st = process_statement cc d (take n t) n st.
Proof.
  intros Hn. unfold process_statement. destruct n as [|n]; [lia|]. destruct t as [|t0 t]; [cbn in Hn; lia|].
  cbn [take rd drop length] in *. rewrite take_take, Nat.min_id. unfold rd. cbn [lookup list_lookup]. rewrite !bind_Ok.
  replace (Datatypes.S n - 1)%nat with n by lia. rewrite !drop_0. rewrite take_take, Nat.min_id. done.
Qed.

Lemma word_type t : word t → (t_type t =? TOKEN_NUM) || (t_type t =? TOKEN_STR) = true.
Proof. by intros [[n ->]|[s ->]]. Qed.

(** Words are collected in the array. *)
Lemma read_words ccs ws toks st t cur cc d :
  Forall word ws → length t = 10%nat → (cur + length ws < 10)%nat →
  read_tokens ccs (MkReader t cur cc d) (ws ++ toks) st =
  read_tokens ccs (MkReader (splice cur ws t) (cur + length ws) cc d) toks st.
Proof.
  intros Hw. revert t cur. induction Hw as [|x ws Hx Hws IH]; intros t cur Ht Hl; cbn [app length] in *.
  { rewrite Nat.add_0_r. unfold splice. cbn. by rewrite Nat.add_0_r, take_drop. }
  cbn [read_tokens]. unfold take_token at 1. cbn [r_t r_cur r_cc r_data]. rewrite wr_Ok, bind_Ok by lia. cbv zeta.
  rewrite (word_type x Hx). destruct (Nat.eqb_spec (Datatypes.S cur) 10); [lia|]. rewrite bind_Ok, IH by (rewrite ?length_insert; lia).
  f_equal. replace (Datatypes.S cur + length ws)%nat with (cur + Datatypes.S (length ws))%nat by lia. f_equal.
  unfold splice. cbn [length]. replace (Datatypes.S cur + length ws)%nat with (cur + Datatypes.S (length ws))%nat by lia.
  rewrite drop_insert_lt by lia. rewrite (take_S_r _ _ x) by (apply list_lookup_insert_eq; lia).
  rewrite take_insert_ge by lia. by rewrite <- app_assoc.
Qed.

(** A directive and its semicolon. *)
Lemma read_directive ccs ws toks st t i cc d :
  wf_words ws → length t = 10%nat → ccs !! i = Some cc →
  ∃ t', length t' = 10%nat ∧
  read_tokens ccs (MkReader t 0 i d) (render_directive ws ++ toks) st =
  ('(ret, st) ← process_statement cc d ws (length ws) st;
   if ret <? 0 then Ok (false, st) else read_tokens ccs (MkReader t' 0 i d) toks st).
Proof.
  intros [Hl Hw] Ht Ec. set (t1 := <[length ws := tok_char 59]> (splice 0 ws t)). exists t1.
  assert (length (splice 0 ws t) = 10%nat) as Hs by (rewrite splice_length; lia).
  split; [unfold t1; by rewrite length_insert|].
  unfold render_directive. rewrite <- app_assoc, read_words by (done || lia). cbn [Nat.add app read_tokens].
  unfold take_token. cbn [r_t r_cur r_cc r_data tok_char t_type]. rewrite wr_Ok, bind_Ok by lia. cbv zeta. fold t1.
  change (59 =? TOKEN_NUM) with false. change (59 =? TOKEN_STR) with false. change (59 =? 59) with true. cbn [orb].
  rewrite (rd_Ok _ _ _ Ec), bind_Ok. rewrite process_statement_take by (unfold t1; rewrite length_insert; lia).
  assert (take (length ws) t1 = ws) as ->.
  { unfold t1. rewrite take_insert_ge by lia. change (splice 0 ws t) with (ws ++ drop (length ws) t). by rewrite take_app_length. }
  destruct (process_statement cc d ws (length ws) st) as [[ret st']| | |]; try done. rewrite !bind_Ok. by destruct (ret <? 0).
Qed.

(** The directives of a block. *)
Lemma read_directives ccs body toks st t i cc d :
  Forall wf_words body → length t = 10%nat → ccs !! i = Some cc →
  ∃ t', length t' = 10%nat ∧
  read_tokens ccs (MkReader t 0 i d) (concat (map render_directive body) ++ toks) st =
  ('(ok, st) ← exec_directives cc d body st;
   if (ok : bool) then read_tokens ccs (MkReader t' 0 i d) toks st else Ok (false, st)).
Proof.
  intros Hb Ht Ec. revert t Ht st. induction Hb as [|ws body Hw Hb IH]; intros t Ht st; [by exists t|].
  cbn [map concat exec_directives]. rewrite <- app_assoc.
  destruct (read_directive ccs ws (concat (map render_directive body) ++ toks) st t i cc d Hw Ht Ec) as (t1 & Ht1 & ->).
  destruct (process_statement cc d ws (length ws) st) as [[ret st1]| | |]; try (by exists t1).
  rewrite !bind_Ok. destruct (ret <? 0); [by exists t1|]. apply (IH t1 Ht1 st1).
Qed.

Lemma find_block_ge l n ty name i : find_block l n ty name = Some i → (n <= i)%nat.
Proof.
  revert n. induction l as [|c l IH]; [done|]. intros n. cbn [find_block].
  destruct (same_name ty name c); [intros [= ->]; lia|]. intros H%IH. lia.
Qed.

(** From the opening brace to the end of the block. *)
Lemma read_body ccs body toks st t i cc d :
  Forall wf_words body → length t = 10%nat → ccs !! i = Some cc → i ≠ 0%nat →
  ∃ t', length t' = 10%nat ∧
  read_tokens ccs (MkReader t 0 i d) (concat (map render_directive body) ++ [tok_char 125] ++ toks) st =
  ('(ok, st) ← ('(ok, st) ← exec_directives cc d body st;
                if negb ok then Ok (false, st) else
                '(ret, st) ← match cc_end_block cc with Some f => f d st | None => Ok (0, st) end;
                Ok (negb (ret <? 0), st));
   if (ok : bool) then read_tokens ccs (MkReader t' 0 0 None) toks st else Ok (false, st)).
Proof.
  intros Hb Ht Ec Hi. destruct (read_directives ccs body ([tok_char 125] ++ toks) st t i cc d Hb Ht Ec) as (t3 & H3 & ->).
  exists (<[0%nat := tok_char 125]> t3). split; [by rewrite length_insert|].
  destruct (exec_directives cc d body st) as [[[] st2]| | |]; try done. rewrite !bind_Ok. cbn [negb app read_tokens].
  unfold take_token. cbn [r_t r_cur r_cc r_data]. rewrite wr_Ok, bind_Ok by lia. cbv zeta.
  change (t_type (tok_char 125)) with 125. change (125 =? TOKEN_NUM) with false. change (125 =? TOKEN_STR) with false.
  change (125 =? 59) with false. change (125 =? 123) with false. change (125 =? 125) with true. cbn [orb].
  unfold close_block. cbn [r_t r_cur r_cc r_data Nat.eqb negb].
  destruct (Nat.eqb_spec i 0); [done|]. rewrite (rd_Ok _ _ _ Ec), bind_Ok.
  destruct (match cc_end_block cc with Some _ => _ | None => _ end) as [[ret st3]| | |]; try done. rewrite !bind_Ok.
  by destruct (ret <? 0).
Qed.

(** A whole block. *)
Lemma read_conf_block ccs ty name body toks st t :
  Forall wf_words body → length t = 10%nat →
  ∃ t', length t' = 10%nat ∧
  read_tokens ccs (MkReader t 0 0 None) (render (Block ty name body) ++ toks) st =
  ('(ok, st) ← exec_block ccs ty name body st;
   if (ok : bool) then read_tokens ccs (MkReader t' 0 0 None) toks st else Ok (false, st)).
Proof.
  intros Hb Ht. cbn [render]. rewrite <- !app_assoc. change ([?a; ?b; ?c] ++ ?l) with ([a; b] ++ c :: l).
  rewrite read_words by (cbn; repeat constructor; eauto using or_intror || lia). cbn [length Nat.add].
  set (t1 := splice 0 [tok_str ty; tok_str name] t). assert (length t1 = 10%nat) as H1 by (unfold t1; rewrite splice_length; cbn; lia).
  cbn [read_tokens]. unfold take_token at 1, exec_block. cbn [r_t r_cur r_cc r_data]. rewrite wr_Ok, bind_Ok by lia. cbv zeta.
  change (t_type (tok_char 123)) with 123. change (123 =? TOKEN_NUM) with false. change (123 =? TOKEN_STR) with false.
  change (123 =? 59) with false. change (123 =? 123) with true. cbn [orb]. unfold open_block.
  cbn [r_t r_cur r_cc r_data Nat.eqb negb].
  set (t2 := <[2%nat := tok_char 123]> t1). assert (length t2 = 10%nat) as H2 by (unfold t2; by rewrite length_insert).
  rewrite (rd_Ok t2 0 (tok_str ty)), (rd_Ok t2 1 (tok_str name)), !bind_Ok by done.
  cbn [tok_str t_type t_v v_str Z.eqb orb negb Pos.eqb TOKEN_STR]. rewrite !bind_Ok.
  destruct (find_block (drop 1 ccs) 1 ty name) as [i|] eqn:Ei; [|by exists t2]. apply find_block_ge in Ei. unfold rd.
  destruct (ccs !! i) as [cc|] eqn:Ec; [|by exists t2]. rewrite !bind_Ok.
  destruct (cc_start_block cc) as [start|]; [|rewrite !bind_Ok; apply read_body; (done || lia)].
  destruct (start st) as [[d st1]| | |]; try (by exists t2). rewrite !bind_Ok. destruct d as [d|]; [|by exists t2].
  rewrite bool_decide_eq_true_2 by (by eexists). apply read_body; (done || lia).
Qed.

Lemma read_file ccs file st t :
  Forall wf_item file → length t = 10%nat → (0 < length ccs)%nat →
  read_tokens ccs (MkReader t 0 0 None) (concat (map render file)) st = exec_file ccs file st.
Proof.
  intros Hf Ht Hc. revert t Ht st. induction Hf as [|i file Hi Hf IH]; intros t Ht st; [done|].
  cbn [map concat exec_file]. destruct i as [ws|ty name body]; cbn [wf_item] in Hi.
  - destruct (lookup_lt_is_Some_2 ccs 0 Hc) as [cc Ec]. rewrite (rd_Ok _ _ _ Ec), bind_Ok. cbn [render exec_directives].
    destruct (read_directive ccs ws (concat (map render file)) st t 0 cc None Hi Ht Ec) as (t' & Ht' & ->).
    destruct (process_statement cc None ws (length ws) st) as [[ret st']| | |]; try done. rewrite !bind_Ok.
    destruct (ret <? 0); [done|]. rewrite bind_Ok. by apply IH.
  - destruct (read_conf_block ccs ty name body (concat (map render file)) st t Hi Ht) as (t' & Ht' & ->).
    destruct (exec_block ccs ty name body st) as [[[] st']| | |]; try done. rewrite !bind_Ok. by apply IH.
Qed.

(** Reading a configuration file runs it.  Whatever contexts are registered and
    whatever the token array held before, the loop over the tokens of a file of directives
    and blocks does exactly what the file means: each directive runs its function in the
    context of its block, in the order of the file, with the data [start_block] made; a
    block ends in [end_block]; and the first directive or block that is not accepted ends
    the reading with a failure, with the effects of the ones before it. *)
Theorem config_file_runs ccs junk file st :
  Forall wf_item file → length junk = 10%nat → (0 < length ccs)%nat →
  read_config_file ccs junk (Some (concat (map render file))) st = exec_file ccs file st.
Proof. intros. by apply read_file. Qed.

(** ** Any tokens *)

(** What the scanner returns: the union holds what the type says. *)
Definition wf_token (t : token) : Prop :=
  (t_type t = TOKEN_NUM → ∃ n, t_v t = VNum n) ∧ (t_type t = TOKEN_STR → ∃ s, t_v t = VStr s).

(** The tokens of a statement that an entry of the table takes. *)
Definition accepts (s : statement) (t : list token) : Prop :=
  s_min_args s <= Z.of_nat (length t) - 1 <= s_max_args s ∧ Forall wf_token t ∧
  ∀ i a, t !! Datatypes.S i = Some a → s_types s !! i = Some (t_type a).

(** [P i d st]: the state while the context at [i] is open with the data [d].  The
    functions of the context return and keep it. *)
Context (P : nat → option nat → S → Prop).

Definition wf_context (i : nat) (cc : config_context) : Prop :=
  Forall (λ s, s_max_args s <= Z.of_nat (length (s_types s)) ∧
    ∀ t d st, accepts s t → P i d st → returns (s_process s t d st) (λ r, P i d r.2)) (cc_statements cc) ∧
  match cc_start_block cc with
  | Some f => ∀ st, P 0 None st → returns (f st) (λ r, P (match r.1 with Some _ => i | None => 0%nat end) r.1 r.2)
  | None => ∀ st, P 0 None st → P i None st
  end ∧
  match cc_end_block cc with
  | Some f => ∀ d st, P i d st → returns (f d st) (λ r, P 0 None r.2)
  | None => ∀ d st, P i d st → P 0 None st
  end.

Lemma types_match_spec types args :
  (length args <= length types)%nat →
  returns (types_match types args) (λ ok, ok = true → ∀ i a, args !! i = Some a → types !! i = Some (t_type a)).
Proof.
  revert types. induction args as [|a args IH]; intros types Hl; [by apply returns_Ok|].
  destruct types as [|ty types]; cbn [length] in Hl; [lia|]. cbn [types_match]. destruct (Z.eqb_spec ty (t_type a)) as [->|]; [|by apply returns_Ok].
  eapply returns_mono; [apply IH; lia|]. intros ok H Hok [|i] a'; [by intros [= <-]|]. cbn. by apply H.
Qed.

Lemma find_statement_spec ss directive args :
  Forall (λ s : statement, s_max_args s <= Z.of_nat (length (s_types s))) ss →
  returns (find_statement ss directive (Z.of_nat (length args)) args) (λ r, ∀ s, r = Some s →
    s ∈ ss ∧ s_min_args s <= Z.of_nat (length args) <= s_max_args s ∧ ∀ i a, args !! i = Some a → s_types s !! i = Some (t_type a)).
Proof.
  intros Hss. induction Hss as [|s ss Hs Hss IH]; [by apply returns_Ok|].
  assert (returns (find_statement ss directive (Z.of_nat (length args)) args) (λ r, ∀ s', r = Some s' →
    s' ∈ s :: ss ∧ s_min_args s' <= Z.of_nat (length args) <= s_max_args s' ∧
    ∀ i a, args !! i = Some a → s_types s' !! i = Some (t_type a))) as IH'.
  { eapply returns_mono; [apply IH|]. intros r H s' Hr. destruct (H s' Hr). split; [by right|done]. }
  cbn [find_statement]. destruct (negb (strcaseeq _ _)); [done|].
  destruct (Z.ltb_spec (Z.of_nat (length args)) (s_min_args s)); [done|].
  destruct (Z.ltb_spec (s_max_args s) (Z.of_nat (length args))); [done|]. cbn [orb].
  eapply returns_bind; [apply types_match_spec; lia|]. intros [] H2; [|done]. apply returns_Ok. intros s' [= <-].
  split; [by left|]. split; [lia|]. by apply H2.
Qed.

Lemma process_statement_ok i cc d t n st :
  wf_context i cc → (n < 10)%nat → length t = 10%nat → Forall wf_token (take (Datatypes.S n) t) →
  (∀ a, n = 0%nat → t !! 0%nat = Some a → t_type a ≠ TOKEN_STR) →
  P i d st → returns (process_statement cc d t n st) (λ r, P i d r.2).
Proof.
  intros (Hss & _) Hn Ht Hw H0 HP. unfold process_statement.
  destruct (lookup_lt_is_Some_2 t 0) as [t0 E0]; [lia|]. rewrite (rd_Ok _ _ _ E0), bind_Ok.
  destruct (Z.eqb_spec (t_type t0) TOKEN_STR) as [Ety|]; cbn [negb]; [|by apply returns_Ok].
  destruct n as [|n]; [by destruct (H0 _ eq_refl E0)|]. destruct t as [|x t]; [done|]. injection E0 as ->.
  replace (Datatypes.S n - 1)%nat with n by lia. cbn [drop take] in *. rewrite drop_0. inversion Hw as [|? ? Hw0 Hw1]; subst.
  destruct (proj2 Hw0 Ety) as [s Es]. unfold v_str. rewrite Es, bind_Ok.
  cbn [length] in Ht. assert (length (take n t) = n) as Hlen by (rewrite length_take; lia).
  replace (Z.of_nat (Datatypes.S n) - 1) with (Z.of_nat (length (take n t))) by lia.
  eapply returns_bind; [apply find_statement_spec; eapply Forall_impl; [exact Hss|]; by intros s' [? _]|].
  intros [s'|] Hs; [|by apply returns_Ok]. destruct (Hs s' eq_refl) as (Hin & Hargs & Hty).
  rewrite Forall_forall in Hss. destruct (Hss s' Hin) as [_ Hrun].
  eapply returns_bind; [apply Hrun; [|exact HP]|intros [ret st'] Hst; by apply returns_Ok].
  split; [cbn [length]; lia|]. split; [|exact Hty]. constructor; [done|].
  replace (take n t) with (take n (take (Datatypes.S n) t)) by (rewrite take_take; f_equal; lia). by apply Forall_take.
Qed.

(** The reader between two tokens. *)
Definition wf_reader (r : reader) : Prop :=
  length (r_t r) = 10%nat ∧ (r_cur r < 10)%nat ∧ Forall wf_token (take (r_cur r) (r_t r)).

Lemma find_block_Some ccs n ty name i : find_block ccs n ty name = Some i → is_Some (ccs !! (i - n)%nat).
Proof.
  revert n. induction ccs as [|cc ccs IH]; [done|]. intros n. cbn [find_block]. destruct (same_name ty name cc).
  - intros [= ->]. rewrite Nat.sub_diag. by eexists.
  - intros H. pose proof (find_block_ge _ _ _ _ _ H). apply IH in H.
    replace (i - n)%nat with (Datatypes.S (i - Datatypes.S n)) by lia. done.
Qed.

Section reading.
Context (ccs : list config_context).
Hypothesis Hccs : ∀ i cc, ccs !! i = Some cc → wf_context i cc.

(** What a token leads to. *)
Definition reads_on (x : option reader * S) : Prop :=
  match x.1 with
  | Some r => wf_reader r ∧ is_Some (ccs !! r_cc r) ∧ (r_cc r = 0%nat → r_data r = None) ∧ P (r_cc r) (r_data r) x.2
  | None => ∃ i d, P i d x.2
  end.

Lemma reads_end i d st : P i d st → returns (Ok (None, st)) reads_on.
Proof. intros H. apply returns_Ok. by exists i, d. Qed.

Lemma empty_reader t i d : length t = 10%nat → wf_reader (MkReader t 0 i d).
Proof. intros H. split; [done|]. split; [cbn; lia|constructor]. Qed.

Lemma open_block_ok r t st :
  length t = 10%nat → Forall wf_token (take (r_cur r) t) → (r_cc r = 0%nat → r_data r = None) → P (r_cc r) (r_data r) st →
  returns (open_block ccs r t st) reads_on.
Proof using Hccs.
  intros Hl Hw Hd0 HP. unfold open_block. destruct (Nat.eqb_spec (r_cur r) 2) as [E2|]; cbn [negb]; [|by eapply reads_end].
  rewrite E2 in Hw. destruct t as [|t0 [|t1 t]]; [done..|]. cbn [take] in Hw. apply Forall_cons in Hw as [H0 [H1 _]%Forall_cons].
  rewrite (rd_Ok _ 0 t0), (rd_Ok _ 1 t1), !bind_Ok by done.
  destruct (Z.eqb_spec (t_type t0) TOKEN_STR) as [T0|]; cbn [negb orb]; [|by eapply reads_end].
  destruct (Z.eqb_spec (t_type t1) TOKEN_STR) as [T1|]; cbn [negb]; [|by eapply reads_end].
  destruct (Nat.eqb_spec (r_cc r) 0) as [Ez|]; cbn [negb]; [|by eapply reads_end].
  destruct (proj2 H0 T0) as [s0 E0]. destruct (proj2 H1 T1) as [s1 E1]. unfold v_str. rewrite E0, E1, !bind_Ok.
  destruct (find_block (drop 1 ccs) 1 s0 s1) as [i|] eqn:Ei; [|by eapply reads_end].
  pose proof (find_block_ge _ _ _ _ _ Ei) as Hi. apply find_block_Some in Ei as [cc Ec]. rewrite lookup_drop in Ec.
  replace (1 + (i - 1))%nat with i in Ec by lia. rewrite (rd_Ok _ _ _ Ec), bind_Ok.
  destruct (Hccs _ _ Ec) as (_ & Hstart & _). rewrite Ez, (Hd0 Ez) in HP. destruct (cc_start_block cc) as [start|].
  - eapply returns_bind; [by apply Hstart|]. intros [[d|] st'] HP'; cbn [fst snd] in HP'; [|by eapply reads_end].
    apply returns_Ok. split; [by apply empty_reader|]. split; [by exists cc|]. split; [cbn; lia|done].
  - apply returns_Ok. rewrite (Hd0 Ez). split; [by apply empty_reader|]. split; [by exists cc|]. split; [done|by apply Hstart].
Qed.

Lemma close_block_ok r t st :
  length t = 10%nat → is_Some (ccs !! r_cc r) → P (r_cc r) (r_data r) st → returns (close_block ccs r t st) reads_on.
Proof using Hccs.
  intros Hl [cc Ec] HP. unfold close_block. destruct (Nat.eqb_spec (r_cur r) 0); cbn [negb]; [|by eapply reads_end].
  destruct (Nat.eqb_spec (r_cc r) 0); [by eapply reads_end|]. rewrite (rd_Ok _ _ _ Ec), bind_Ok.
  destruct (Hccs _ _ Ec) as (_ & _ & Hend). eapply (returns_bind _ (λ x : Z * S, P 0 None x.2)).
  { destruct (cc_end_block cc); [by apply Hend|apply returns_Ok; by eapply Hend]. }
  intros [ret st'] HP'. cbn in HP'. destruct (ret <? 0); [by eapply reads_end|]. apply returns_Ok.
  split; [by apply empty_reader|]. split; [|done]. apply lookup_lt_is_Some_2. apply lookup_lt_Some in Ec. cbn. lia.
Qed.

Lemma take_token_ok r tok st :
  wf_reader r → wf_token tok → is_Some (ccs !! r_cc r) → (r_cc r = 0%nat → r_data r = None) → P (r_cc r) (r_data r) st →
  returns (take_token ccs r tok st) reads_on.
Proof using Hccs.
  intros (Ht & Hc & Hw) Htok Hcc Hd0 HP. unfold take_token. rewrite wr_Ok, bind_Ok by lia. cbv zeta.
  set (t := <[r_cur r := tok]> (r_t r)). assert (length t = 10%nat) as Hl by (unfold t; by rewrite length_insert).
  assert (take (r_cur r) t = take (r_cur r) (r_t r)) as Etake by (unfold t; by rewrite take_insert_ge by lia).
  assert (Forall wf_token (take (Datatypes.S (r_cur r)) t)) as Hwt.
  { rewrite (take_S_r _ _ tok) by (apply list_lookup_insert_eq; lia). rewrite Etake. apply Forall_app. split; [done|by apply Forall_singleton]. }
  destruct (_ || _) eqn:Ew.
  { destruct (Nat.eqb_spec (Datatypes.S (r_cur r)) 10); [by eapply reads_end|]. apply returns_Ok.
    split; [split; [done|]; split; [cbn; lia|done]|done]. }
  apply orb_false_iff in Ew as [_ Ew]. apply Z.eqb_neq in Ew. destruct (t_type tok =? 59).
  { destruct Hcc as [cc Ec]. rewrite (rd_Ok _ _ _ Ec), bind_Ok. eapply returns_bind.
    - apply (process_statement_ok (r_cc r)); [by apply Hccs|lia|done|done| |exact HP]. intros a H0. unfold t. rewrite H0.
      rewrite list_lookup_insert_eq by lia. by intros [= <-].
    - intros [ret st'] HP'. cbn in HP'. destruct (ret <? 0); [by eapply reads_end|]. apply returns_Ok.
      split; [by apply empty_reader|]. split; [by exists cc|done]. }
  destruct (t_type tok =? 123); [apply open_block_ok; try done; by rewrite Etake|].
  destruct (t_type tok =? 125); [by apply close_block_ok|by eapply reads_end].
Qed.

Lemma read_tokens_ok r toks st :
  wf_reader r → Forall wf_token toks → is_Some (ccs !! r_cc r) → (r_cc r = 0%nat → r_data r = None) → P (r_cc r) (r_data r) st →
  returns (read_tokens ccs r toks st) (λ x, ∃ i d, P i d x.2).
Proof using Hccs.
  intros Hr Htoks. revert r Hr st. induction Htoks as [|tok toks Htok Htoks IH]; intros r Hr st Hc Hd HP.
  { apply returns_Ok. by exists (r_cc r), (r_data r). }
  cbn [read_tokens]. eapply returns_bind; [by apply take_token_ok|]. intros [[r'|] st'] H; [|by apply returns_Ok].
  destruct H as (H1 & H2 & H3 & H4). by apply IH.
Qed.

(** C28: No file breaks the reader: whatever tokens the scanner returns -- too many words,
    braces that do not match, a semicolon alone, unknown directives and wrong arguments --
    [read_config_file] stays inside its array of ten tokens, calls a directive only with
    the number and types of arguments its table promises and with the data of the block it
    stands in, and returns, as long as the functions of the contexts do. *)
Theorem config_file_safe junk toks st :
  (0 < length ccs)%nat → length junk = 10%nat → Forall wf_token toks → P 0 None st →
  returns (read_config_file ccs junk (Some toks) st) (λ x, ∃ i d, P i d x.2).
Proof using Hccs. intros Hc Hj Ht HP. apply read_tokens_ok; try done; [by apply empty_reader|by apply lookup_lt_is_Some_2]. Qed.
End reading.
End conf.
Arguments statement : clear implicits.
Arguments config_context : clear implicits.

(** ** An example *)

(** A counter: [add n] anywhere, and blocks [step up] that start it at 10 and can only
    double it. *)
Definition demo_add (t : list token) (d : option nat) (n : Z) : outcome (Z * Z) := x ← rd t 1; k ← v_num x; Ok (0, n + k).
Definition demo_double (t : list token) (d : option nat) (n : Z) : outcome (Z * Z) :=
  match d with Some k => Ok (0, 2 * n + Z.of_nat k) | None => Undef end.

Definition demo_contexts : list (config_context Z) :=
  [MkContext [] [] None None [MkStatement (lit "add") demo_add 1 1 [TOKEN_NUM]];
   MkContext (lit "step") (lit "up") (Some (λ _, Ok (Some 7%nat, 10))) (Some (λ _ n, Ok (0, n)))
     [MkStatement (lit "double") demo_double 0 0 []]].

Definition demo_junk : list token := replicate 10 (tok_char 0).

(** [add 3; step up { double; double; } add 5;] *)
Definition demo_conf : list item :=
  [Directive [tok_str (lit "add"); tok_num 3];
   Block (lit "step") (lit "up") [[tok_str (lit "double")]; [tok_str (lit "DOUBLE")]];
   Directive [tok_str (lit "add"); tok_num 5]].

Lemma config_file_runs_witness :
  read_config_file demo_contexts demo_junk (Some (concat (map render demo_conf))) 0 = Ok (true, 66).
Proof.
  rewrite (config_file_runs demo_contexts demo_junk demo_conf 0); [by vm_compute| |done|cbn; lia].
  assert (∀ s, word (tok_str s)) by (intros s; right; by eexists). assert (∀ n, word (tok_num n)) by (intros n; left; by eexists).
  unfold demo_conf. rewrite !Forall_cons. unfold wf_item, wf_words. rewrite !Forall_cons. cbn. by split_and!; try lia.
Defined.

Definition demo_inv (i : nat) (d : option nat) (n : Z) : Prop := i = 1%nat → d = Some 7%nat.

Lemma demo_contexts_wf i cc : demo_contexts !! i = Some cc → wf_context demo_inv i cc.
Proof.
  intros E. destruct i as [|[|i]]; [injection E as <-|injection E as <-|done].
  all: split; [|split; [cbn [cc_start_block]|cbn [cc_end_block]]].
  - constructor; [|constructor]. split; [done|]. intros t d st (Hl & Hw & Hty) _. cbn in Hl.
    destruct t as [|t0 [|t1 t]]; [cbn in Hl; lia..|]. apply Forall_cons in Hw as [_ [H1 _]%Forall_cons].
    specialize (Hty 0%nat t1 eq_refl). injection Hty as Hty. destruct (proj1 H1 (eq_sym Hty)) as [k Ek]. cbn [s_process]. unfold demo_add, v_num.
    rewrite (rd_Ok _ 1 t1), bind_Ok, Ek, bind_Ok by done. by apply returns_Ok.
  - done.
  - done.
  - constructor; [|constructor]. split; [done|]. intros t d st _ Hd. rewrite (Hd eq_refl). by apply returns_Ok.
  - intros st _. by apply returns_Ok.
  - intros d st Hd. by apply returns_Ok.
Qed.

(** Two blocks that are not closed, and a stray brace. *)
Lemma config_file_safe_witness :
  returns (read_config_file demo_contexts demo_junk
    (Some [tok_char 59; tok_str (lit "step"); tok_str (lit "up"); tok_char 123; tok_char 123; tok_char 125]) 0) (λ x, ∃ i d, demo_inv i d x.2).
Proof.
  apply (config_file_safe demo_inv demo_contexts demo_contexts_wf); [cbn; lia|done| |done].
  repeat constructor; intros; try done; by eexists.
Defined.
