(* ===== verification/ConfScan.v ===== *)
(** * The configuration scanner ([conf_scan.c])

    The scanner that flex generated for the configuration file: its tables, the loop of
    [yylex] that runs them over a buffer, the refilling of the buffer from the file, and the
    actions that make a token of the text that was matched.  Pointers into [yy_ch_buf] are
    indices; the byte that [yytext] replaces by a NUL is kept in [yy_hold_char], as in the
    code.  Allocation succeeds.  [ConfText] says what the scanner does to a text. *)

From S2P Require Import Prelude CString ConfParse.

Local Open Scope Z_scope.

(** ** Tables *)

Definition yy_accept : list nat :=
  [0; 0; 0; 14; 12; 6; 7; 12; 8; 4; 3; 3; 9; 10; 11; 6; 0; 5; 8; 4; 1; 0; 3; 2; 0]%nat.

Definition yy_ec : list nat :=
  [0; 1; 1; 1; 1; 1; 1; 1; 1; 2; 3; 1; 1; 1; 1; 1; 1; 1; 1; 1; 1; 1; 1; 1; 1; 1; 1; 1; 1; 1; 1; 1; 2; 1; 4; 5;
   1; 6; 1; 1; 1; 1; 1; 6; 1; 6; 6; 7; 8; 9; 9; 9; 9; 9; 9; 9; 9; 9; 6; 10; 1; 1; 1; 1; 6; 11; 11; 11; 11; 11;
   11; 7; 7; 7; 7; 7; 7; 7; 7; 7; 7; 7; 7; 7; 7; 7; 7; 7; 7; 7; 7; 1; 1; 1; 1; 6; 1; 11; 11; 11; 11; 11; 11;
   7; 7; 7; 7; 7; 7; 7; 7; 7; 7; 7; 7; 7; 7; 7; 7; 7; 12; 7; 7; 13; 1; 14; 1; 1; 1; 1; 1; 1; 1; 1; 1; 1; 1; 1;
   1; 1; 1; 1; 1; 1; 1; 1; 1; 1; 1; 1; 1; 1; 1; 1; 1; 1; 1; 1; 1; 1; 1; 1; 1; 1; 1; 1; 1; 1; 1; 1; 1; 1; 1; 1;
   1; 1; 1; 1; 1; 1; 1; 1; 1; 1; 1; 1; 1; 1; 1; 1; 1; 1; 1; 1; 1; 1; 1; 1; 1; 1; 1; 1; 1; 1; 1; 1; 1; 1; 1; 1;
   1; 1; 1; 1; 1; 1; 1; 1; 1; 1; 1; 1; 1; 1; 1; 1; 1; 1; 1; 1; 1; 1; 1; 1; 1; 1; 1; 1; 1; 1; 1; 1; 1; 1; 1; 1;
   1; 1; 1; 1; 1; 1; 1; 1; 1; 1]%nat.

Definition yy_meta : list nat :=
  [0; 1; 1; 2; 1; 1; 3; 3; 4; 4; 1; 5; 6; 1; 1]%nat.

Definition yy_base : list nat :=
  [0; 0; 0; 44; 45; 41; 45; 38; 0; 0; 26; 7; 45; 45; 45; 26; 18; 45; 0; 0; 9; 0; 11; 0; 45; 20; 26; 30; 33;
   36]%nat.

Definition yy_def : list nat :=
  [0; 24; 1; 24; 24; 24; 24; 25; 26; 27; 28; 24; 24; 24; 24; 24; 25; 24; 26; 27; 24; 29; 24; 29; 0; 24; 24;
   24; 24; 24]%nat.

Definition yy_nxt : list nat :=
  [0; 4; 5; 6; 7; 8; 4; 9; 10; 11; 12; 9; 9; 13; 14; 22; 22; 20; 20; 22; 22; 16; 17; 16; 16; 16; 16; 18; 15;
   18; 18; 18; 18; 19; 19; 19; 19; 20; 21; 20; 23; 23; 17; 15; 24; 3; 24; 24; 24; 24; 24; 24; 24; 24; 24; 24;
   24; 24; 24; 24]%nat.

Definition yy_chk : list nat :=
  [0; 1; 1; 1; 1; 1; 1; 1; 1; 1; 1; 1; 1; 1; 1; 11; 11; 20; 20; 22; 22; 25; 16; 25; 25; 25; 25; 26; 15; 26;
   26; 26; 26; 27; 27; 27; 27; 28; 10; 28; 29; 29; 7; 5; 3; 24; 24; 24; 24; 24; 24; 24; 24; 24; 24; 24; 24;
   24; 24; 24]%nat.

(** ** State *)

Definition YY_BUF_SIZE : Z := 16384.
Definition YY_READ_BUF_SIZE : Z := 8192.
Definition YY_END_OF_BUFFER : nat := 14.

(** What can still be read from a file, whether reading ends in an error, and [isatty]. *)
Record file := MkFile { f_rest : list Z; f_error : bool; f_tty : bool }.

Inductive buffer_status := YY_BUFFER_NEW | YY_BUFFER_NORMAL | YY_BUFFER_EOF_PENDING.

(** [yy_buf_pos] is the start of the buffer whenever it is read; [yy_input_file] is [yyin]. *)
Record yy_buffer_state := MkBuffer {
  yy_ch_buf : list Z;
  yy_buf_size : Z;
  b_n_chars : nat;
  yy_is_our_buffer : bool;
  yy_is_interactive : bool;
  yy_fill_buffer : bool;
  yy_buffer_status : buffer_status }.

Record scanner := MkScanner {
  yyin : option file;
  yy_current_buffer : option yy_buffer_state;
  yy_init : bool;
  yy_n_chars : nat;
  yy_hold_char : Z;
  yy_c_buf_p : nat;
  yytext_ptr : nat;
  yyleng : nat;
  yy_last_accepting_state : nat;
  yy_last_accepting_cpos : nat;
  lineno : Z }.

(** [yy_start] is 1 from the first call on. *)
Definition yy_start : nat := 1.

Definition set_buffer (s : scanner) (b : yy_buffer_state) : scanner :=
  MkScanner (yyin s) (Some b) (yy_init s) (yy_n_chars s) (yy_hold_char s) (yy_c_buf_p s) (yytext_ptr s) (yyleng s)
    (yy_last_accepting_state s) (yy_last_accepting_cpos s) (lineno s).
Definition set_yyin (s : scanner) (f : file) : scanner :=
  MkScanner (Some f) (yy_current_buffer s) (yy_init s) (yy_n_chars s) (yy_hold_char s) (yy_c_buf_p s) (yytext_ptr s) (yyleng s)
    (yy_last_accepting_state s) (yy_last_accepting_cpos s) (lineno s).
Definition set_n_chars (s : scanner) (n : nat) : scanner :=
  MkScanner (yyin s) (yy_current_buffer s) (yy_init s) n (yy_hold_char s) (yy_c_buf_p s) (yytext_ptr s) (yyleng s)
    (yy_last_accepting_state s) (yy_last_accepting_cpos s) (lineno s).
Definition set_c_buf_p (s : scanner) (p : nat) : scanner :=
  MkScanner (yyin s) (yy_current_buffer s) (yy_init s) (yy_n_chars s) (yy_hold_char s) p (yytext_ptr s) (yyleng s)
    (yy_last_accepting_state s) (yy_last_accepting_cpos s) (lineno s).
Definition set_text (s : scanner) (p len : nat) : scanner :=
  MkScanner (yyin s) (yy_current_buffer s) (yy_init s) (yy_n_chars s) (yy_hold_char s) (yy_c_buf_p s) p len
    (yy_last_accepting_state s) (yy_last_accepting_cpos s) (lineno s).
Definition set_hold (s : scanner) (c : Z) : scanner :=
  MkScanner (yyin s) (yy_current_buffer s) (yy_init s) (yy_n_chars s) c (yy_c_buf_p s) (yytext_ptr s) (yyleng s)
    (yy_last_accepting_state s) (yy_last_accepting_cpos s) (lineno s).
Definition set_last (s : scanner) (last : nat * nat) : scanner :=
  MkScanner (yyin s) (yy_current_buffer s) (yy_init s) (yy_n_chars s) (yy_hold_char s) (yy_c_buf_p s) (yytext_ptr s) (yyleng s)
    last.1 last.2 (lineno s).
Definition set_lineno (s : scanner) (l : Z) : scanner :=
  MkScanner (yyin s) (yy_current_buffer s) (yy_init s) (yy_n_chars s) (yy_hold_char s) (yy_c_buf_p s) (yytext_ptr s) (yyleng s)
    (yy_last_accepting_state s) (yy_last_accepting_cpos s) l.

Definition last_accepting (s : scanner) : nat * nat := (yy_last_accepting_state s, yy_last_accepting_cpos s).

(** [*yy_current_buffer] and its bytes. *)
Definition the_buffer (s : scanner) : outcome yy_buffer_state :=
  match yy_current_buffer s with Some b => Ok b | None => Undef end.

Definition with_bytes (b : yy_buffer_state) (d : list Z) : yy_buffer_state :=
  MkBuffer d (yy_buf_size b) (b_n_chars b) (yy_is_our_buffer b) (yy_is_interactive b) (yy_fill_buffer b) (yy_buffer_status b).
Definition with_n_chars (b : yy_buffer_state) (n : nat) : yy_buffer_state :=
  MkBuffer (yy_ch_buf b) (yy_buf_size b) n (yy_is_our_buffer b) (yy_is_interactive b) (yy_fill_buffer b) (yy_buffer_status b).
Definition with_status (b : yy_buffer_state) (st : buffer_status) : yy_buffer_state :=
  MkBuffer (yy_ch_buf b) (yy_buf_size b) (b_n_chars b) (yy_is_our_buffer b) (yy_is_interactive b) (yy_fill_buffer b) st.

(** [*p = c] in the current buffer. *)
Definition poke (s : scanner) (p : nat) (c : Z) : outcome scanner :=
  b ← the_buffer s;
  d ← wr (yy_ch_buf b) p c;
  Ok (set_buffer s (with_bytes b d)).

(** ** Buffers *)

Definition yy_load_buffer_state (s : scanner) : outcome scanner :=
  b ← the_buffer s;
  c ← rd (yy_ch_buf b) 0;
  Ok (set_hold (set_c_buf_p (set_text (set_n_chars s (b_n_chars b)) 0 (yyleng s)) 0) c).

(** The [yy_load_buffer_state] of a current buffer is done again by the caller. *)
Definition yy_flush_buffer (b : yy_buffer_state) : outcome yy_buffer_state :=
  d ← wr (yy_ch_buf b) 0 0;
  d ← wr d 1 0;
  Ok (with_status (with_n_chars (with_bytes b d) 0) YY_BUFFER_NEW).

Definition yy_init_buffer (b : yy_buffer_state) (f : option file) : outcome yy_buffer_state :=
  b ← yy_flush_buffer b;
  Ok (MkBuffer (yy_ch_buf b) (yy_buf_size b) (b_n_chars b) (yy_is_our_buffer b)
        (match f with Some f => f_tty f | None => false end) true (yy_buffer_status b)).

(** What fresh memory holds: [junk]. *)
Section scan.
Context (junk : nat → Z).

Definition yy_create_buffer (f : option file) (size : Z) : outcome yy_buffer_state :=
  yy_init_buffer (MkBuffer (map junk (seq 0 (Z.to_nat (size + 2)))) size 0 true false false YY_BUFFER_NEW) f.

Definition yyrestart (s : scanner) : outcome scanner :=
  b ← match yy_current_buffer s with Some b => Ok b | None => yy_create_buffer (yyin s) YY_BUF_SIZE end;
  b ← yy_init_buffer b (yyin s);
  yy_load_buffer_state (set_buffer s b).

(** ** Reading the file *)

(** [getc] up to a newline: what was read, what is left, and whether the end was met. *)
Fixpoint read_line (max : nat) (l : list Z) : list Z * list Z * bool :=
  match max with
  | O => ([], l, false)
  | S max => match l with
             | [] => ([], [], true)
             | c :: l => if c =? 10 then ([c], l, false) else let '(x, r, e) := read_line max l in (c :: x, r, e)
             end
  end.

(** [YY_INPUT]: a terminal is read line by line, any other file with [fread].  [Fail] is the
    call of [scanner_error], which ends the program. *)
Definition YY_INPUT (interactive : bool) (max : nat) (f : file) : outcome (list Z * file) :=
  let '(x, r, eof) :=
    if interactive then read_line max (f_rest f)
    else (take max (f_rest f), drop max (f_rest f), (length (f_rest f) =? 0)%nat) in
  if eof && f_error f then Fail else Ok (x, MkFile r (f_error f) (f_tty f)).

Inductive eob_act := EOB_ACT_CONTINUE_SCAN | EOB_ACT_END_OF_FILE | EOB_ACT_LAST_MATCH.

(** [*(dest++) = *(source++)], [k] times. *)
Fixpoint move_chars (k dest source : nat) (d : list Z) : outcome (list Z) :=
  match k with
  | O => Ok d
  | S k => c ← rd d source; d ← wr d dest c; move_chars k (S dest) (S source) d
  end.

(** [while (num_to_read <= 0)]: [realloc] to twice the size. *)
Fixpoint grow_buffer (fuel : nat) (b : yy_buffer_state) (number_to_move : Z) : outcome yy_buffer_state :=
  if 0 <? i32 (yy_buf_size b - number_to_move - 1) then Ok b else
  match fuel with
  | O => Diverge
  | S fuel =>
      if negb (yy_is_our_buffer b) then Fail else
      let size := if i32 (yy_buf_size b * 2) <=? 0 then u32 (yy_buf_size b + yy_buf_size b / 8) else u32 (yy_buf_size b * 2) in
      let d := yy_ch_buf b in
      grow_buffer fuel
        (MkBuffer (take (Z.to_nat (size + 2)) d ++ map junk (seq (length d) (Z.to_nat (size + 2) - length d))) size (b_n_chars b)
           (yy_is_our_buffer b) (yy_is_interactive b) (yy_fill_buffer b) (yy_buffer_status b)) number_to_move
  end.

(** Storing what was read from index [i] on. *)
Fixpoint store_chars (i : nat) (l d : list Z) : outcome (list Z) :=
  match l with [] => Ok d | c :: l => d ← wr d i c; store_chars (S i) l d end.

(** The characters that are read after the [number_to_move] that stay. *)
Definition fill_chars (s : scanner) (b : yy_buffer_state) (number_to_move : nat) : outcome scanner :=
  match yy_buffer_status b with
  | YY_BUFFER_EOF_PENDING => Ok (set_n_chars (set_buffer s (with_n_chars b 0)) 0)
  | _ =>
      b ← grow_buffer 64 b (Z.of_nat number_to_move);
      let num_to_read := i32 (yy_buf_size b - Z.of_nat number_to_move - 1) in
      let num_to_read := if YY_READ_BUF_SIZE <? num_to_read then YY_READ_BUF_SIZE else num_to_read in
      match yyin s with
      | None => Undef
      | Some f =>
          '(x, f) ← YY_INPUT (yy_is_interactive b) (Z.to_nat num_to_read) f;
          d ← store_chars number_to_move x (yy_ch_buf b);
          Ok (set_n_chars (set_yyin (set_buffer s (with_n_chars (with_bytes b d) (length x))) f) (length x))
      end
  end.

Definition yy_get_next_buffer (s : scanner) : outcome (eob_act * scanner) :=
  b ← the_buffer s;
  if (yy_n_chars s + 1 <? yy_c_buf_p s)%nat then Fail else
  if negb (yy_fill_buffer b) then
    Ok (if (yy_c_buf_p s - yytext_ptr s =? 1)%nat then EOB_ACT_END_OF_FILE else EOB_ACT_LAST_MATCH, s)
  else
  let number_to_move := (yy_c_buf_p s - yytext_ptr s - 1)%nat in
  d ← move_chars number_to_move 0 (yytext_ptr s) (yy_ch_buf b);
  s ← fill_chars s (with_bytes b d) number_to_move;
  '(ret, s) ←
    (if (yy_n_chars s =? 0)%nat then
       if (number_to_move =? 0)%nat then s ← yyrestart s; Ok (EOB_ACT_END_OF_FILE, s)
       else b ← the_buffer s; Ok (EOB_ACT_LAST_MATCH, set_buffer s (with_status b YY_BUFFER_EOF_PENDING))
     else Ok (EOB_ACT_CONTINUE_SCAN, s));
  let n := (yy_n_chars s + number_to_move)%nat in
  s ← poke (set_n_chars s n) n 0;
  s ← poke s (n + 1) 0;
  Ok (ret, set_text s 0 (yyleng s)).

(** ** Matching *)

(** The state after a character of class [c]. *)
Fixpoint yy_next (fuel : nat) (st c : nat) : outcome nat :=
  i ← rd yy_base st;
  k ← rd yy_chk (i + c);
  if (k =? st)%nat then rd yy_nxt (i + c) else
  match fuel with
  | O => Diverge
  | S fuel =>
      st ← rd yy_def st;
      c ← (if (25 <=? st)%nat then rd yy_meta c else Ok c);
      yy_next fuel st c
  end.

Definition yy_transition (st c : nat) : outcome nat := yy_next 8 st c.

Definition note_accept (st cp : nat) (last : nat * nat) : outcome (nat * nat) :=
  a ← rd yy_accept st; Ok (if (a =? 0)%nat then last else (st, cp)).

(** [yy_match]: [l] are the bytes of the buffer from [cp] on. *)
Fixpoint yy_match (l : list Z) (st cp : nat) (last : nat * nat) : outcome (nat * nat * (nat * nat)) :=
  match l with
  | [] => Undef
  | b :: l =>
      c ← rd yy_ec (Z.to_nat b);
      last ← note_accept st cp last;
      st ← yy_transition st c;
      i ← rd yy_base st;
      if (i =? 45)%nat then Ok (st, S cp, last) else yy_match l st (S cp) last
  end.

(** The loop of [yy_get_previous_state] over the text. *)
Fixpoint previous_state (l : list Z) (st cp : nat) (last : nat * nat) : outcome (nat * (nat * nat)) :=
  match l with
  | [] => Ok (st, last)
  | b :: l =>
      c ← (if b =? 0 then Ok 1%nat else rd yy_ec (Z.to_nat b));
      last ← note_accept st cp last;
      st ← yy_transition st c;
      previous_state l st (S cp) last
  end.

Definition yy_get_previous_state (s : scanner) : outcome (nat * scanner) :=
  b ← the_buffer s;
  '(st, last) ← previous_state (take (yy_c_buf_p s - yytext_ptr s) (drop (yytext_ptr s) (yy_ch_buf b))) yy_start (yytext_ptr s) (last_accepting s);
  Ok (st, set_last s last).

Definition yy_try_NUL_trans (st : nat) (s : scanner) : outcome (nat * scanner) :=
  last ← note_accept st (yy_c_buf_p s) (last_accepting s);
  st ← yy_transition st 1;
  Ok (if (st =? 24)%nat then O else st, set_last s last).

(** [YY_DO_BEFORE_ACTION]. *)
Definition YY_DO_BEFORE_ACTION (s : scanner) (bp cp : nat) : outcome scanner :=
  b ← the_buffer s;
  c ← rd (yy_ch_buf b) cp;
  s ← poke (set_hold (set_text s bp (cp - bp)) c) cp 0;
  Ok (set_c_buf_p s cp).

(** Where [yylex] goes on: at [yy_match] or at [yy_find_action]. *)
Inductive place := AtMatch (bp st cp : nat) | AtFind (bp st cp : nat).

(** [case YY_END_OF_BUFFER], with [yy_cp = cp]; [None] is the end of the file. *)
Definition end_of_buffer (s : scanner) (cp : nat) : outcome (option place * scanner) :=
  let amount := (cp - yytext_ptr s - 1)%nat in
  s ← poke s cp (yy_hold_char s);
  b ← the_buffer s;
  let s := match yy_buffer_status b with
           | YY_BUFFER_NEW => set_buffer (set_n_chars s (b_n_chars b)) (with_status b YY_BUFFER_NORMAL)
           | _ => s
           end in
  if (yy_c_buf_p s <=? yy_n_chars s)%nat then
    let s := set_c_buf_p s (yytext_ptr s + amount) in
    '(st, s) ← yy_get_previous_state s;
    '(next, s) ← yy_try_NUL_trans st s;
    if (next =? 0)%nat then Ok (Some (AtFind (yytext_ptr s) st (yy_c_buf_p s)), s)
    else let s := set_c_buf_p s (S (yy_c_buf_p s)) in Ok (Some (AtMatch (yytext_ptr s) next (yy_c_buf_p s)), s)
  else
    '(act, s) ← yy_get_next_buffer s;
    match act with
    | EOB_ACT_END_OF_FILE => Ok (None, set_c_buf_p s (yytext_ptr s))
    | EOB_ACT_CONTINUE_SCAN =>
        let s := set_c_buf_p s (yytext_ptr s + amount) in
        '(st, s) ← yy_get_previous_state s;
        Ok (Some (AtMatch (yytext_ptr s) st (yy_c_buf_p s)), s)
    | EOB_ACT_LAST_MATCH =>
        let s := set_c_buf_p s (yy_n_chars s) in
        '(st, s) ← yy_get_previous_state s;
        Ok (Some (AtFind (yytext_ptr s) st (yy_c_buf_p s)), s)
    end.

(** [yy_find_action]: the action, and [yy_cp]. *)
Definition find_action (s : scanner) (bp st cp : nat) : outcome (nat * nat * scanner) :=
  a ← rd yy_accept st;
  '(act, cp) ← (if (a =? 0)%nat then a ← rd yy_accept (yy_last_accepting_state s); Ok (a, yy_last_accepting_cpos s) else Ok (a, cp));
  s ← YY_DO_BEFORE_ACTION s bp cp;
  Ok (act, cp, s).

(** From [yy_match] to [yy_find_action]. *)
Definition run_match (s : scanner) (p : place) : outcome (nat * nat * nat * scanner) :=
  match p with
  | AtMatch bp st cp =>
      b ← the_buffer s;
      '(st, cp, last) ← yy_match (drop cp (yy_ch_buf b)) st cp (last_accepting s);
      Ok (bp, st, cp, set_last s last)
  | AtFind bp st cp => Ok (bp, st, cp, s)
  end.

(** Up to the action of a rule, or [YY_STATE_EOF(INITIAL)]. *)
Fixpoint next_action (fuel : nat) (p : place) (s : scanner) : outcome (nat * scanner) :=
  match fuel with
  | O => Diverge
  | S fuel =>
      '(bp, st, cp, s) ← run_match s p;
      '(act, cp, s) ← find_action s bp st cp;
      if (act =? 0)%nat then
        s ← poke s cp (yy_hold_char s);
        next_action fuel (AtFind bp (yy_last_accepting_state s) (yy_last_accepting_cpos s)) s
      else if (act =? YY_END_OF_BUFFER)%nat then
        '(p, s) ← end_of_buffer s cp;
        match p with Some p => next_action fuel p s | None => Ok (S YY_END_OF_BUFFER, s) end
      else Ok (act, s)
  end.

(** ** Actions *)

Definition digit_of (c : Z) : Z :=
  if (48 <=? c) && (c <=? 57) then c - 48
  else if (97 <=? c) && (c <=? 102) then c - 87
  else if (65 <=? c) && (c <=? 70) then c - 55
  else 99.

(** [strtol] in another base, of a text that begins with a digit. *)
Fixpoint scan_base (base acc : Z) (l : list Z) : Z :=
  match l with
  | c :: l => if digit_of c <? base then scan_base base (acc * base + digit_of c) l else acc
  | [] => acc
  end.

Definition strtol_base (base : Z) (l : list Z) : Z := clamp_long (scan_base base 0 l).

(** [strncpy] and the terminator into [str[256]]. *)
Definition str_token (l : list Z) : outcome token :=
  if (256 <=? length l)%nat then Undef else Ok (tok_str (upto_nul l)).

(** The token an action makes of the text; [None]: the action makes none. *)
Definition action_token (act : nat) (text : list Z) : outcome (option token) :=
  match act with
  | 1%nat => Ok (Some (tok_num (strtol_base 8 (upto_nul (drop 1 text)))))
  | 2%nat => Ok (Some (tok_num (strtol_base 16 (upto_nul (drop 2 text)))))
  | 3%nat => Ok (Some (tok_num (strtol (upto_nul text)).1))
  | 4%nat => t ← str_token text; Ok (Some t)
  | 5%nat => t ← str_token (take (length text - 2) (drop 1 text)); Ok (Some t)
  | 9%nat | 10%nat | 11%nat => c ← rd text 0; Ok (Some (tok_char c))
  | _ => Ok None
  end.

(** What [yylex] returns after an action; [None]: it goes on scanning. *)
Definition action_return (act : nat) (tok : option token) : option Z :=
  match act with
  | 12%nat => Some (-1)
  | 15%nat => Some 0
  | _ => match tok with Some t => Some (t_type t) | None => None end
  end.

Definition yytext (s : scanner) : outcome (list Z) :=
  b ← the_buffer s; Ok (take (yyleng s) (drop (yytext_ptr s) (yy_ch_buf b))).

Definition unread (s : scanner) : nat :=
  (match yy_current_buffer s with Some b => length (yy_ch_buf b) | None => 0 end +
   match yyin s with Some f => length (f_rest f) | None => 0 end)%nat.

(** [while (1)]: one turn for each rule that is matched. *)
Fixpoint yylex_loop (fuel : nat) (s : scanner) : outcome (Z * option token * scanner) :=
  match fuel with
  | O => Diverge
  | S fuel =>
      s ← poke s (yy_c_buf_p s) (yy_hold_char s);
      '(act, s) ← next_action (2 * unread s + 4) (AtMatch (yy_c_buf_p s) yy_start (yy_c_buf_p s)) s;
      text ← yytext s;
      tok ← action_token act text;
      let s := if (act =? 7)%nat then set_lineno s (lineno s + 1) else s in
      match action_return act tok with
      | Some ret => Ok (ret, tok, s)
      | None => yylex_loop fuel s
      end
  end.

Definition yylex (s : scanner) : outcome (Z * option token * scanner) :=
  s ← (if yy_init s then
         b ← match yy_current_buffer s with Some b => Ok b | None => yy_create_buffer (yyin s) YY_BUF_SIZE end;
         s ← yy_load_buffer_state (set_buffer s b);
         Ok (MkScanner (yyin s) (yy_current_buffer s) false (yy_n_chars s) (yy_hold_char s) (yy_c_buf_p s) (yytext_ptr s)
               (yyleng s) (yy_last_accepting_state s) (yy_last_accepting_cpos s) (lineno s))
       else Ok s);
  yylex_loop (S (unread s)) s.

(** ** The interface of the parser *)

(** [fopen] is the argument. *)
Definition start_conf_read (s : scanner) (f : option file) : Z * scanner :=
  match f with
  | None => (-1, MkScanner None (yy_current_buffer s) (yy_init s) (yy_n_chars s) (yy_hold_char s) (yy_c_buf_p s) (yytext_ptr s)
                   (yyleng s) (yy_last_accepting_state s) (yy_last_accepting_cpos s) (lineno s))
  | Some f => (0, set_lineno (set_yyin s f) 1)
  end.

(** The return value, the token if one was stored, and the line. *)
Definition get_next_token (s : scanner) : outcome (Z * option token * Z * scanner) :=
  '(ret, tok, s) ← yylex s; Ok (ret, tok, lineno s, s).

(** Before the first file. *)
Definition scanner0 : scanner := MkScanner None None true 0 0 0 0 0 0 0 0.

(** The tokens up to the first call that does not return one. *)
Fixpoint all_tokens (fuel : nat) (s : scanner) : outcome (list token) :=
  match fuel with
  | O => Diverge
  | S fuel =>
      '(ret, tok, _, s) ← get_next_token s;
      if ret <=? 0 then Ok [] else
      match tok with Some t => ts ← all_tokens fuel s; Ok (t :: ts) | None => Undef end
  end.
End scan.
