(* ===== verification/ConfText.v ===== *)
(** * What the configuration scanner does to a text ([conf_scan.c])

    [munch] is the longest match of the automaton on a text, without a buffer; [lex] the
    token that the text begins with.  The theorems show that [yylex] returns the tokens of
    the text that the file holds, however the buffer cuts it into pieces, that the tokens are
    those of the lexical rules, and that a configuration file that is read from its text does
    what its directives say. *)

From Stdlib Require Import String.
From S2P Require Import Prelude CString ConfParse ConfScan.

Local Open Scope Z_scope.

(** ** The automaton *)

(** The class of a character of the text; a NUL is like a control character. *)
Definition class (b : Z) : nat := if b =? 0 then 1%nat else nth (Z.to_nat b) yy_ec 0%nat.

Definition delta (st c : nat) : nat := match yy_transition st c with Ok st => st | _ => 24%nat end.

Definition accepts (st : nat) : nat := nth st yy_accept 0%nat.

(** A state inside a text. *)
Definition live (st : nat) : Prop := (0 < st < 24)%nat ∧ st ≠ 3%nat.

Definition liveb (st : nat) : bool := ((0 <? st) && (st <? 24) && negb (st =? 3))%nat.

Lemma liveb_spec st : liveb st = true ↔ live st.
Proof.
  unfold liveb, live. rewrite !andb_true_iff, negb_true_iff, !Nat.ltb_lt, Nat.eqb_neq. lia.
Qed.

(** Facts of the tables, each by evaluation at every state and class. *)
(** State 0 is not used. *)
Definition each_state (P : nat → bool) : bool := forallb P (seq 1 24).
Definition each_class (P : nat → bool) : bool := forallb P (seq 0 15).

Lemma each_state_spec P : each_state P = true → ∀ st, (0 < st < 25)%nat → P st = true.
Proof. intros H st Hs. apply (proj1 (forallb_forall _ _) H), in_seq. lia. Qed.

Lemma each_class_spec P : each_class P = true → ∀ c, (c < 15)%nat → P c = true.
Proof. intros H c Hc. apply (proj1 (forallb_forall _ _) H), in_seq. lia. Qed.

Lemma table_fact (P : nat → nat → bool) :
  each_state (λ st, each_class (P st)) = true → ∀ st c, (0 < st < 25)%nat → (c < 15)%nat → P st c = true.
Proof. intros H st c Hs Hc. apply each_class_spec; [|done]. by apply (each_state_spec _ H). Qed.

Lemma transition_Ok st c : (0 < st < 25)%nat → (c < 15)%nat → yy_transition st c = Ok (delta st c).
Proof.
  intros Hs Hc. pose proof (table_fact (λ st c, match yy_transition st c with Ok _ => true | _ => false end) eq_refl st c Hs Hc) as H.
  cbn beta in H. unfold delta. by destruct (yy_transition st c).
Qed.

(** Inside a text the automaton stays inside it or is stuck in 24. *)
Lemma delta_live st c : live st → (0 < c < 15)%nat → live (delta st c) ∨ delta st c = 24%nat.
Proof.
  intros [Hs H3] Hc.
  pose proof (table_fact (λ st c, negb (liveb st) || (c =? 0)%nat || liveb (delta st c) || (delta st c =? 24)%nat) eq_refl st c ltac:(lia) ltac:(lia)) as H.
  cbn beta in H. rewrite !orb_true_iff, negb_true_iff, liveb_spec, !Nat.eqb_eq in H.
  destruct H as [[[H|H]|H]|H]; [|lia|by left|by right].
  assert (liveb st = true) by (by apply liveb_spec). congruence.
Qed.

Lemma delta_stuck c : (0 < c < 15)%nat → delta 24 c = 24%nat.
Proof.
  intros Hc. pose proof (each_class_spec (λ c, (c =? 0)%nat || (delta 24 c =? 24)%nat) eq_refl c ltac:(lia)) as H.
  cbn beta in H. rewrite orb_true_iff, !Nat.eqb_eq in H. lia.
Qed.

(** The NUL after the text leads to the end-of-buffer state, which any character leaves. *)
Lemma delta_eob st : live st → delta st 0 = 3%nat.
Proof.
  intros Hs. pose proof (each_state_spec (λ st, negb (liveb st) || (delta st 0 =? 3)%nat) eq_refl st ltac:(unfold live in Hs; lia)) as H.
  cbn beta in H. rewrite orb_true_iff, negb_true_iff, Nat.eqb_eq in H. apply liveb_spec in Hs. destruct H; congruence.
Qed.

Lemma delta_after_eob c : (c < 15)%nat → delta 3 c = 24%nat.
Proof.
  intros Hc. pose proof (each_class_spec (λ c, (delta 3 c =? 24)%nat) eq_refl c Hc) as H. cbn beta in H. by apply Nat.eqb_eq in H.
Qed.

(** The states at which [yy_match] stops: nothing follows them, and the stuck state apart
    they accept. *)
Lemma base_stops st : (0 < st < 25)%nat → nth st yy_base 0%nat = 45%nat →
  (st = 24%nat ∨ accepts st ≠ 0%nat) ∧ ∀ c, (0 < c < 15)%nat → delta st c = 24%nat.
Proof.
  intros Hs E. split.
  - pose proof (each_state_spec (λ st, negb (nth st yy_base 0 =? 45) || (st =? 24) || negb (accepts st =? 0))%nat eq_refl st Hs) as H.
    cbn beta in H. rewrite E in H. destruct (Nat.eqb_spec st 24); [by left|]. destruct (Nat.eqb_spec (accepts st) 0); [done|by right].
  - intros c Hc. pose proof (table_fact (λ st c, negb (nth st yy_base 0 =? 45) || (c =? 0) || (delta st c =? 24))%nat eq_refl st c Hs ltac:(lia)) as H.
    cbn beta in H. rewrite E in H. destruct (Nat.eqb_spec c 0); [lia|]. by destruct (Nat.eqb_spec (delta st c) 24).
Qed.

Lemma first_accepts c : (0 < c < 15)%nat → accepts (delta 1 c) ≠ 0%nat ∧ live (delta 1 c).
Proof.
  intros Hc. pose proof (each_class_spec (λ c, (c =? 0)%nat || negb (accepts (delta 1 c) =? 0)%nat && liveb (delta 1 c)) eq_refl c ltac:(lia)) as H.
  cbn beta in H. rewrite orb_true_iff, andb_true_iff, negb_true_iff, Nat.eqb_eq, Nat.eqb_neq, liveb_spec in H. destruct H; [lia|done].
Qed.

(** Only the end-of-buffer state has the end-of-buffer action. *)
Lemma accepts_rule st : live st → (accepts st < 14)%nat.
Proof.
  intros Hs. pose proof (each_state_spec (λ st, negb (liveb st) || (accepts st <? 14)%nat) eq_refl st ltac:(unfold live in Hs; lia)) as H.
  cbn beta in H. rewrite orb_true_iff, negb_true_iff, Nat.ltb_lt in H. apply liveb_spec in Hs. destruct H; [congruence|lia].
Qed.

Lemma accept_Ok st : (st < 25)%nat → rd yy_accept st = Ok (accepts st).
Proof. intros Hs. unfold rd, accepts. destruct (lookup_lt_is_Some_2 yy_accept st Hs) as [a E]. rewrite E. by rewrite (nth_lookup_Some _ _ _ _ E). Qed.

Lemma base_Ok st : (st < 25)%nat → rd yy_base st = Ok (nth st yy_base 0%nat).
Proof. intros Hs. unfold rd. destruct (lookup_lt_is_Some_2 yy_base st) as [a E]; [cbn; lia|]. rewrite E. by rewrite (nth_lookup_Some _ _ _ _ E). Qed.

(** ** Characters *)

Lemma class_fact b : is_byte b →
  (0 < class b < 15)%nat ∧ (b ≠ 0 → rd yy_ec (Z.to_nat b) = Ok (class b)).
Proof.
  intros Hb. unfold is_byte in Hb. assert (Z.to_nat b < 256)%nat as Hn by lia.
  assert (forallb (λ c, ((c =? 0) || ((0 <? nth c yy_ec 0) && (nth c yy_ec 0 <? 15)))%nat) (seq 0 256) = true) as Ht by reflexivity.
  pose proof (proj1 (forallb_forall _ _) Ht (Z.to_nat b) ltac:(apply in_seq; lia)) as H. cbn beta in H.
  rewrite orb_true_iff, andb_true_iff, Nat.eqb_eq, !Nat.ltb_lt in H. unfold class. destruct (Z.eqb_spec b 0) as [->|Hz]; [split; [lia|done]|].
  split; [lia|]. intros _. unfold rd. destruct (lookup_lt_is_Some_2 yy_ec (Z.to_nat b) Hn) as [c E]. rewrite E. by rewrite (nth_lookup_Some _ _ _ _ E).
Qed.

(** ** The longest match *)

(** The last accepting state and the length of the text before it. *)
Definition note (st n : nat) (last : option (nat * nat)) : option (nat * nat) :=
  if (accepts st =? 0)%nat then last else Some (st, n).

Fixpoint munch (st n : nat) (last : option (nat * nat)) (t : list Z) : option (nat * nat) :=
  match t with
  | [] => note st n last
  | b :: t => if (delta st (class b) =? 24)%nat then note st n last else munch (delta st (class b)) (S n) (note st n last) t
  end.

(** The state after a text, and the accepting states that were passed. *)
Fixpoint track (u : list Z) (st n : nat) (last : option (nat * nat)) : nat * option (nat * nat) :=
  match u with [] => (st, last) | b :: u => track u (delta st (class b)) (S n) (note st n last) end.

Lemma delta_range st b : live st ∨ st = 24%nat → is_byte b → live (delta st (class b)) ∨ delta st (class b) = 24%nat.
Proof. intros [Hs| ->] Hb; destruct (class_fact b Hb) as [Hc _]; [by apply delta_live|right; by apply delta_stuck]. Qed.

Lemma track_range u st n last : live st ∨ st = 24%nat → Forall is_byte u → live (track u st n last).1 ∨ (track u st n last).1 = 24%nat.
Proof. intros Hs Hu. revert st n last Hs. induction Hu as [|b u Hb _ IH]; intros st n last Hs; [done|]. by apply IH, delta_range. Qed.

Lemma track_stuck u n last : Forall is_byte u → (track u 24 n last).1 = 24%nat.
Proof.
  intros Hu. revert n last. induction Hu as [|b u Hb _ IH]; intros n last; [done|]. cbn [track].
  rewrite delta_stuck by (by apply class_fact). apply IH.
Qed.

Lemma track_app u v st n last :
  track (u ++ v) st n last = track v (track u st n last).1 (n + length u) (track u st n last).2.
Proof.
  revert st n last. induction u as [|b u IH]; intros st n last; [by cbn; rewrite Nat.add_0_r|]. cbn [app track length].
  rewrite IH. f_equal. lia.
Qed.

Lemma munch_track u t st n last : Forall is_byte u → live (track u st n last).1 →
  munch st n last (u ++ t) = munch (track u st n last).1 (n + length u) (track u st n last).2 t.
Proof.
  intros Hu. revert st n last. induction Hu as [|b u Hb Hu IH]; intros st n last Hl; [by cbn; rewrite Nat.add_0_r|].
  cbn [app track munch length] in *. destruct (Nat.eqb_spec (delta st (class b)) 24) as [E|E].
  - rewrite E, track_stuck in Hl by done. unfold live in Hl. lia.
  - rewrite IH by done. f_equal. lia.
Qed.

(** Where a text is cut does not matter once the automaton is stuck. *)
Lemma munch_stuck u b t st n last : Forall is_byte (u ++ [b]) → live (track u st n last).1 → delta (track u st n last).1 (class b) = 24%nat →
  munch st n last (u ++ b :: t) = note (track u st n last).1 (n + length u) (track u st n last).2.
Proof. intros [Hu _]%Forall_app Hl E. rewrite munch_track by done. cbn [munch]. by rewrite E. Qed.

(** A text that is not empty has a match, of a rule and not longer than the text. *)
Lemma munch_match t : Forall is_byte t → ∀ st n last, live st →
  (∀ p, last = Some p → live p.1 ∧ accepts p.1 ≠ 0%nat ∧ (0 < p.2 <= n)%nat) → (n = 0%nat → last = None ∧ st = 1%nat ∧ t ≠ []) →
  (0 < n → accepts st ≠ 0 ∨ last ≠ None)%nat →
  ∃ st' len, munch st n last t = Some (st', len) ∧ live st' ∧ accepts st' ≠ 0%nat ∧ (0 < len <= n + length t)%nat.
Proof.
  induction 1 as [|b t Hb Ht IH]; intros st n last Hs Hlast H0 Hn.
  - cbn [munch]. destruct (decide (n = 0%nat)) as [->|Hn0]; [naive_solver|]. unfold note. destruct (Nat.eqb_spec (accepts st) 0) as [E|E].
    + destruct last as [[st' len]|]; [|naive_solver lia]. destruct (Hlast _ eq_refl) as (? & ? & ?). cbn in *. exists st', len. split_and!; [done..|lia|lia].
    + exists st, n. split_and!; [done..|lia|lia].
  - destruct (class_fact b Hb) as [Hc _]. cbn [munch].
    assert (∀ p, note st n last = Some p → live p.1 ∧ accepts p.1 ≠ 0%nat ∧ (0 < p.2 <= n)%nat) as Hnote.
    { intros p. unfold note. destruct (Nat.eqb_spec (accepts st) 0) as [E|E]; [apply Hlast|]. intros [= <-]. cbn. split_and!; [done..| |lia].
      destruct (decide (n = 0%nat)) as [->|]; [|lia]. destruct (H0 eq_refl) as (_ & -> & _). by destruct E. }
    destruct (Nat.eqb_spec (delta st (class b)) 24) as [E|E].
    + destruct (decide (n = 0%nat)) as [->|Hn0].
      { destruct (H0 eq_refl) as (_ & -> & _). destruct (first_accepts _ Hc) as [_ [Hl _]]. lia. }
      unfold note in *. destruct (Nat.eqb_spec (accepts st) 0) as [Ea|Ea].
      * destruct last as [[st' len]|]; [|naive_solver lia]. destruct (Hlast _ eq_refl) as (? & ? & ?). cbn in *. exists st', len. split_and!; [done..|lia|lia].
      * exists st, n. split_and!; [done..|lia|cbn; lia].
    + destruct (IH (delta st (class b)) (S n) (note st n last)) as (st' & len & E' & Hl & Ha & Hlen).
      * destruct (delta_live st _ Hs Hc); [done|congruence].
      * intros p Hp. destruct (Hnote p Hp) as (? & ? & ?). split_and!; [done..|lia|lia].
      * lia.
      * intros _. destruct (decide (n = 0%nat)) as [->|Hn0].
        -- destruct (H0 eq_refl) as (_ & -> & _). left. by apply first_accepts.
        -- right. unfold note. destruct (Nat.eqb_spec (accepts st) 0) as [Ea|Ea]; [|done]. destruct (Hn ltac:(lia)); done.
      * exists st', len. split_and!; [done..|lia|cbn [length]; lia].
Qed.

Lemma first_match t : Forall is_byte t → t ≠ [] →
  ∃ st len, munch 1 0 None t = Some (st, len) ∧ live st ∧ accepts st ≠ 0%nat ∧ (0 < len <= length t)%nat.
Proof. intros Hb Hne. apply (munch_match t Hb 1 0 None); try done; [unfold live; lia|lia]. Qed.

(** ** [yy_match] on a buffer *)

(** The accepting state that the scanner remembers, for a text that starts at [bp]. *)
Definition last_ok (bp : nat) (last : option (nat * nat)) (p : nat * nat) : Prop :=
  match last with Some (st, n) => p = (st, bp + n)%nat | None => True end.

(** The action and the end of the text are those of the match [m]. *)
Definition decided (bp st cp : nat) (p : nat * nat) (m : option (nat * nat)) : Prop :=
  (0 < st < 25)%nat ∧ st ≠ 3%nat ∧ ∀ st' len, m = Some (st', len) →
    if (accepts st =? 0)%nat then p = (st', bp + len)%nat else st' = st ∧ cp = (bp + len)%nat.

Lemma note_accept_Ok bp st n last p : (st < 25)%nat → last_ok bp last p →
  ∃ p', note_accept st (bp + n) p = Ok p' ∧ last_ok bp (note st n last) p'.
Proof.
  intros Hs Hl. unfold note_accept, note. rewrite accept_Ok, bind_Ok by done.
  destruct (Nat.eqb_spec (accepts st) 0); eexists; by split.
Qed.

Lemma decided_note bp st n cp last p : live st → (accepts st = 0%nat → last_ok bp last p) → cp = (bp + n)%nat → decided bp st cp p (note st n last).
Proof.
  intros [Hs H3] Hl ->. split; [lia|]. split; [done|]. intros st' len. unfold note. destruct (Nat.eqb_spec (accepts st) 0) as [E|E].
  - intros ->. by apply Hl.
  - by intros [= -> ->].
Qed.

(** A character that stops the match. *)
Lemma decided_stop bp st n b t last p : live st → is_byte b → Forall is_byte t → last_ok bp (note st n last) p →
  nth (delta st (class b)) yy_base 0%nat = 45%nat →
  decided bp (delta st (class b)) (bp + S n) p (munch st n last (b :: t)).
Proof.
  intros Hs Hb Ht Hl E. destruct (class_fact b Hb) as [Hc _].
  assert ((0 < delta st (class b) < 25)%nat ∧ delta st (class b) ≠ 3%nat) as [Hd H3] by (destruct (delta_live st _ Hs Hc) as [[]| ->]; lia).
  split; [done|]. split; [done|]. destruct (base_stops _ Hd E) as [Ha Hstuck]. cbn [munch].
  destruct (Nat.eqb_spec (delta st (class b)) 24) as [->|E24].
  - intros st' len Em. rewrite Em in Hl. exact Hl.
  - destruct Ha as [Ha|Ha]; [done|]. destruct (Nat.eqb_spec (accepts (delta st (class b))) 0) as [|_]; [done|].
    assert (∀ l, munch (delta st (class b)) (S n) l t = Some (delta st (class b), S n)) as ->.
    { intros l. destruct Ht as [|b' t Hb' _]; cbn [munch]; rewrite ?(Hstuck (class b')) by (by apply class_fact); cbn [Nat.eqb];
        unfold note; destruct (Nat.eqb_spec (accepts (delta st (class b))) 0); done. }
    by intros ? ? [= -> ->].
Qed.

Definition text_byte (b : Z) : Prop := is_byte b ∧ b ≠ 0.

(** Up to the next NUL of the buffer: either the match is decided before it, or the whole
    text is inside a match and the end-of-buffer state is noted. *)
Lemma yy_match_spec bp w z rest t : Forall text_byte w → is_byte z → Forall is_byte t → ∀ st n last p, live st → last_ok bp last p →
  (∃ st' cp p', yy_match (w ++ 0 :: z :: rest) st (bp + n) p = Ok (st', cp, p') ∧ decided bp st' cp p' (munch st n last (w ++ t)) ∧
     w ≠ [] ∧ (cp <= bp + n + length w)%nat) ∨
  (live (track w st n last).1 ∧
   yy_match (w ++ 0 :: z :: rest) st (bp + n) p = Ok (24, bp + n + length w + 2, (3, bp + n + length w + 1))%nat).
Proof.
  intros Hw Hz Ht. induction Hw as [|b w [Hb Hb0] Hw IH]; intros st n last p Hs Hl.
  - right. split; [done|]. cbn [app yy_match]. change (rd yy_ec (Z.to_nat 0)) with (Ok 0%nat). rewrite bind_Ok.
    destruct (note_accept_Ok bp st n last p ltac:(unfold live in Hs; lia) Hl) as (p' & -> & _). rewrite bind_Ok.
    rewrite transition_Ok, delta_eob, bind_Ok by (done || (unfold live in Hs; lia)). change (rd yy_base 3) with (Ok 44%nat). rewrite bind_Ok.
    cbn [Nat.eqb]. assert (∃ c, (c < 15)%nat ∧ rd yy_ec (Z.to_nat z) = Ok c) as (c & Hc & ->).
    { destruct (decide (z = 0)) as [->|Hz0]; [exists O; split; [lia|done]|]. exists (class z). destruct (class_fact z Hz) as [? E]. split; [lia|by apply E]. }
    rewrite bind_Ok. change (note_accept 3 ?x p') with (Ok (3%nat, x)). rewrite bind_Ok, transition_Ok, delta_after_eob, bind_Ok by (done || lia).
    change (rd yy_base 24) with (Ok 45%nat). rewrite bind_Ok. cbn [Nat.eqb length]. f_equal. f_equal; [f_equal; lia|f_equal; lia].
  - destruct (class_fact b Hb) as [Hc Hec]. cbn [app yy_match track]. rewrite Hec, bind_Ok by done.
    destruct (note_accept_Ok bp st n last p ltac:(unfold live in Hs; lia) Hl) as (p' & -> & Hl'). rewrite bind_Ok.
    rewrite transition_Ok, bind_Ok by (unfold live in Hs; lia).
    assert (delta st (class b) < 25)%nat as Hd by (destruct (delta_live st _ Hs Hc) as [[]| ->]; lia).
    rewrite base_Ok, bind_Ok by done. destruct (Nat.eqb_spec (nth (delta st (class b)) yy_base 0%nat) 45) as [E|E].
    + left. do 3 eexists. split; [done|]. split; [|split; [done|cbn [length]; lia]]. replace (S (bp + n)) with (bp + S n)%nat by lia. apply decided_stop; try done.
      apply Forall_app. split; [|done]. eapply Forall_impl; [exact Hw|]. by intros ? [].
    + replace (S (bp + n)) with (bp + S n)%nat by lia. assert (delta st (class b) ≠ 24%nat) as E24 by (by intros E'; rewrite E' in E).
      destruct (IH (delta st (class b)) (S n) (note st n last) p') as [H|[Hlive H]]; [by destruct (delta_live st _ Hs Hc)|done| |].
      * left. destruct H as (st' & cp & p'' & H1 & H2 & _ & H3). do 3 eexists. split; [exact H1|]. split; [|split; [done|cbn [length]; lia]]. cbn [munch]. by destruct (Nat.eqb_spec (delta st (class b)) 24).
      * right. split; [done|]. rewrite H. cbn [length]. f_equal. f_equal; [f_equal; lia|f_equal; lia].
Qed.

Lemma previous_state_spec bp u : Forall is_byte u → ∀ st n last p, live st ∨ st = 24%nat → last_ok bp last p →
  ∃ p', previous_state u st (bp + n) p = Ok ((track u st n last).1, p') ∧ last_ok bp (track u st n last).2 p'.
Proof.
  induction 1 as [|b u Hb Hu IH]; intros st n last p Hs Hl; [by exists p|]. destruct (class_fact b Hb) as [Hc Hec].
  cbn [previous_state track]. assert ((if b =? 0 then Ok 1%nat else rd yy_ec (Z.to_nat b)) = Ok (class b)) as ->.
  { unfold class at 1. destruct (Z.eqb_spec b 0) as [->|]; [done|]. rewrite Hec by done. f_equal. unfold class. by destruct (Z.eqb_spec b 0). }
  rewrite bind_Ok. destruct (note_accept_Ok bp st n last p ltac:(unfold live in Hs; lia) Hl) as (p' & -> & Hl'). rewrite bind_Ok.
  rewrite transition_Ok, bind_Ok by (unfold live in Hs; lia). replace (S (bp + n)) with (bp + S n)%nat by lia.
  apply IH; [by apply delta_range|done].
Qed.

(** ** The buffer *)

Lemma move_chars_spec src k : ∀ i d, (src + i + k <= length d)%nat →
  move_chars k i (src + i) d = Ok (take i d ++ take k (drop (src + i) d) ++ drop (i + k) d).
Proof.
  induction k as [|k IH]; intros i d Hl; cbn [move_chars].
  { rewrite take_0, Nat.add_0_r. cbn [app]. by rewrite take_drop. }
  destruct (lookup_lt_is_Some_2 d (src + i)%nat ltac:(lia)) as [c Ec]. rewrite (rd_Ok _ _ _ Ec), bind_Ok, wr_Ok, bind_Ok by lia.
  replace (S (src + i)) with (src + S i)%nat by lia. rewrite IH by (rewrite length_insert; lia). f_equal.
  rewrite (take_S_r _ _ c) by (apply list_lookup_insert_eq; lia). rewrite take_insert_ge by lia. rewrite !drop_insert_lt by lia.
  rewrite <- app_assoc. f_equal. rewrite (drop_S d c (src + i)) by done. cbn [take app]. f_equal.
  replace (src + S i)%nat with (S (src + i)) by lia. f_equal. f_equal. lia.
Qed.

Lemma store_chars_spec l : ∀ i d, (i + length l <= length d)%nat → store_chars i l d = Ok (take i d ++ l ++ drop (i + length l) d).
Proof.
  induction l as [|c l IH]; intros i d Hl; cbn [store_chars length] in *.
  { rewrite Nat.add_0_r. cbn [app]. by rewrite take_drop. }
  rewrite wr_Ok, bind_Ok, IH by (rewrite ?length_insert; lia). f_equal.
  rewrite (take_S_r _ _ c) by (apply list_lookup_insert_eq; lia). rewrite take_insert_ge, drop_insert_lt by lia.
  rewrite <- app_assoc. cbn [app]. f_equal. f_equal. f_equal. f_equal. lia.
Qed.

Lemma read_line_spec max l : ∀ x r e, read_line max l = (x, r, e) → l = x ++ r ∧ (length x <= max)%nat ∧ ((0 < max)%nat → x = [] → l = []).
Proof.
  revert l. induction max as [|max IH]; intros l x r e; cbn [read_line]; [intros [= <- <- <-]; split_and!; [done|cbn; lia|lia]|].
  destruct l as [|c l]; [by intros [= <- <- <-]; split_and!; [..|cbn; lia|]|]. destruct (c =? 10); [intros [= <- <- <-]; split_and!; [done|cbn; lia|done]|].
  destruct (read_line max l) as [[x' r'] e'] eqn:E. intros [= <- <- <-]. destruct (IH _ _ _ _ E) as (-> & H & _). split_and!; [done|cbn; lia|done].
Qed.

Lemma YY_INPUT_spec inter max f : (0 < max)%nat → f_error f = false →
  ∃ x r, YY_INPUT inter max f = Ok (x, MkFile r false (f_tty f)) ∧ f_rest f = x ++ r ∧ (length x <= max)%nat ∧ (x = [] → f_rest f = []).
Proof.
  intros Hm He. unfold YY_INPUT. rewrite He. destruct inter.
  - destruct (read_line max (f_rest f)) as [[x r] e] eqn:E. destruct (read_line_spec _ _ _ _ _ E) as (H1 & H2 & H3).
    rewrite andb_false_r. exists x, r. split_and!; [done..|]. auto.
  - rewrite andb_false_r. exists (take max (f_rest f)), (drop max (f_rest f)). split_and!; [done|by rewrite take_drop|rewrite length_take; lia|].
    destruct (f_rest f); [done|]. destruct max; [lia|]. done.
Qed.

(** The scanner between two characters: the buffer with its bytes, the file behind it, and
    the text that starts at [bp]. *)
Definition scanner_at (f : file) (buf : list Z) (size : Z) (bn : nat) (inter : bool) (status : buffer_status)
    (n : nat) (hold : Z) (c tp len : nat) (p : nat * nat) (line : Z) : scanner :=
  MkScanner (Some f) (Some (MkBuffer buf size bn true inter true status)) false n hold c tp len p.1 p.2 line.

Record holds_text (f : file) (buf : list Z) (size : Z) (bn : nat) (status : buffer_status) (n bp : nat) (t : list Z) : Prop := HoldsText {
  ht_size : 16384 <= size < 2 ^ 30;
  ht_length : length buf = (Z.to_nat size + 2)%nat;
  ht_n : (bp <= n <= Z.to_nat size)%nat;
  ht_eob : buf !! n = Some 0 ∧ buf !! S n = Some 0;
  ht_text : t = take (n - bp) (drop bp buf) ++ f_rest f;
  ht_bytes : Forall is_byte t;
  ht_status : match status with
              | YY_BUFFER_NEW => n = 0%nat ∧ bn = 0%nat
              | YY_BUFFER_EOF_PENDING => f_rest f = []
              | YY_BUFFER_NORMAL => True
              end;
  ht_error : f_error f = false;
  ht_small : Z.of_nat (length t) < 2 ^ 28 }.

(** ** The tokens of a text *)

(** The return value and the token of [yylex], the line after it and the text that is left. *)
Fixpoint lex (fuel : nat) (line : Z) (t : list Z) : outcome (Z * option token * Z * list Z) :=
  match fuel with
  | O => Diverge
  | S fuel =>
      match munch 1 0 None t with
      | None => Ok (0, None, line, t)
      | Some (st, len) =>
          tok ← action_token (accepts st) (take len t);
          let line := if (accepts st =? 7)%nat then line + 1 else line in
          match action_return (accepts st) tok with
          | Some ret => Ok (ret, tok, line, drop len t)
          | None => lex fuel line (drop len t)
          end
      end
  end.

Lemma action_token_returns act text : match action_token act text with Ok _ | Undef => True | _ => False end.
Proof. unfold action_token, str_token, rd. repeat (case_match; try done); simplify_eq/=; by repeat (case_match; try done). Qed.

Lemma lex_fuel f1 : ∀ f2 line t, Forall is_byte t → (length t < f1)%nat → (length t < f2)%nat → lex f1 line t = lex f2 line t.
Proof.
  induction f1 as [|f1 IH]; intros [|f2] line t Hb H1 H2; try lia. cbn [lex]. destruct (decide (t = [])) as [->|Hne]; [done|].
  destruct (first_match t Hb Hne) as (st & len & -> & _ & _ & Hlen). destruct (action_token (accepts st) (take len t)) as [tok| | |]; try done. rewrite !bind_Ok. cbv zeta.
  destruct (action_return (accepts st) tok); [done|]. apply IH; [by apply Forall_drop|rewrite length_drop; lia..].
Qed.

Section machine.
Context (junk : nat → Z).

Lemma grow_buffer_done fuel b m : 0 < i32 (yy_buf_size b - m - 1) → grow_buffer junk fuel b m = Ok b.
Proof. intros H. apply Z.ltb_lt in H. destruct fuel; cbn [grow_buffer]; by rewrite H. Qed.

Lemma grow_buffer_spec buf size bn inter status m :
  16384 <= size < 2 ^ 30 → length buf = (Z.to_nat size + 2)%nat → 0 <= m <= size → m < 2 ^ 28 →
  ∃ ext size', grow_buffer junk 64 (MkBuffer buf size bn true inter true status) m = Ok (MkBuffer (buf ++ ext) size' bn true inter true status) ∧
    16384 <= size' < 2 ^ 30 ∧ length (buf ++ ext) = (Z.to_nat size' + 2)%nat ∧ 0 < size' - m - 1.
Proof.
  intros Hs Hl Hm Hm2. destruct (Z.ltb_spec 0 (size - m - 1)) as [H|H].
  - exists [], size. rewrite app_nil_r. split_and!; [|lia..]. apply grow_buffer_done. cbn [yy_buf_size]. rewrite i32_small; lia.
  - exists (map junk (seq (length buf) (Z.to_nat (size * 2 + 2) - length buf))), (size * 2). rewrite length_app, length_map, length_seq. split_and!; [|lia..].
    change 64%nat with (S 63). generalize 63%nat as fuel. intros fuel.
    cbn [grow_buffer yy_buf_size yy_is_our_buffer negb yy_ch_buf b_n_chars yy_is_interactive yy_fill_buffer yy_buffer_status].
    rewrite i32_small, (proj2 (Z.ltb_ge _ _)) by lia. rewrite i32_small, (proj2 (Z.leb_gt _ _)), u32_small by lia.
    rewrite take_ge by lia. apply grow_buffer_done. cbn [yy_buf_size]. rewrite i32_small; lia.
Qed.

(** What stays in the buffer when the text moves to its start. *)
Lemma moved_text (buf : list Z) n bp k : (bp <= n)%nat → (n < length buf)%nat → (k = n - bp)%nat →
  let d := take k (drop bp buf) ++ drop k buf in
  length d = length buf ∧ take k d = take (n - bp) (drop bp buf).
Proof.
  intros Hb Hn -> d. unfold d. rewrite length_app, length_take, !length_drop. split; [lia|].
  by rewrite take_app_le, take_take, Nat.min_id by (rewrite length_take, length_drop; lia).
Qed.

(** Two NULs after the text. *)
Lemma holds_text_end f d size bn status n t :
  16384 <= size < 2 ^ 30 → length d = (Z.to_nat size + 2)%nat → (n <= Z.to_nat size)%nat → t = take n d ++ f_rest f → Forall is_byte t →
  match status with YY_BUFFER_NEW => n = 0%nat ∧ bn = 0%nat | YY_BUFFER_EOF_PENDING => f_rest f = [] | YY_BUFFER_NORMAL => True end →
  f_error f = false → Z.of_nat (length t) < 2 ^ 28 →
  holds_text f (<[(n + 1)%nat := 0]> (<[n := 0]> d)) size bn status n 0 t.
Proof.
  intros Hs Hl Hn Ht Hb Hst He Hsm. replace (n + 1)%nat with (S n) by lia. constructor; try done.
  - by rewrite !length_insert.
  - lia.
  - split; [rewrite list_lookup_insert_ne by lia|]; apply list_lookup_insert_eq; rewrite ?length_insert; lia.
  - rewrite drop_0, Nat.sub_0_r, !take_insert_ge by lia. done.
Qed.

Lemma poke_end {A} (ret : A) f d size bn inter status n hold c tp len p line :
  length d = (Z.to_nat size + 2)%nat → (n <= Z.to_nat size)%nat →
  (s ← poke (scanner_at f d size bn inter status n hold c tp len p line) n 0; s ← poke s (n + 1) 0; Ok (ret, set_text s 0 (yyleng s))) =
  Ok (ret, scanner_at f (<[(n + 1)%nat := 0]> (<[n := 0]> d)) size bn inter status n hold c 0 len p line).
Proof.
  intros Hl Hn. unfold poke, the_buffer, scanner_at. cbn [yy_current_buffer yy_ch_buf]. rewrite !bind_Ok. cbn [yy_ch_buf].
  rewrite wr_Ok by lia. rewrite !bind_Ok. cbn [set_buffer yy_current_buffer]. rewrite !bind_Ok. cbn [with_bytes yy_ch_buf].
  rewrite wr_Ok by (rewrite length_insert; lia). by rewrite !bind_Ok.
Qed.

(** Reading, after the [k] characters that stay. *)
Lemma fill_chars_spec f d0 d size bn inter status n hold c tp len p line k :
  16384 <= size < 2 ^ 30 → length d = (Z.to_nat size + 2)%nat → Z.of_nat k <= size → Z.of_nat k < 2 ^ 28 → f_error f = false →
  status ≠ YY_BUFFER_NEW → (status = YY_BUFFER_EOF_PENDING → f_rest f = []) →
  ∃ x f' d' size' status', 
    fill_chars junk (scanner_at f d0 size bn inter status n hold c tp len p line) (MkBuffer d size bn true inter true status) k =
      Ok (scanner_at f' d' size' (length x) inter status' (length x) hold c tp len p line) ∧
    f_rest f = x ++ f_rest f' ∧ (x = [] → f_rest f = []) ∧ f_error f' = false ∧ take (k + length x) d' = take k d ++ x ∧
    16384 <= size' < 2 ^ 30 ∧ length d' = (Z.to_nat size' + 2)%nat ∧ (k + length x <= Z.to_nat size')%nat ∧ status' = status.
Proof.
  intros Hs Hl Hk Hk2 He Hnew Hp. unfold fill_chars. cbn [yy_buffer_status].
  assert (status = YY_BUFFER_EOF_PENDING ∨ status = YY_BUFFER_NORMAL) as [->| ->] by (destruct status; auto; done).
  - exists [], f, d, size, YY_BUFFER_EOF_PENDING. rewrite Nat.add_0_r, app_nil_r. split_and!; try done; try lia. intros _. by apply Hp.
  - destruct (grow_buffer_spec d size bn inter YY_BUFFER_NORMAL (Z.of_nat k)) as (ext & size' & -> & Hs' & Hl' & Hroom); [done..|lia|done|].
    rewrite bind_Ok. cbn [yy_buf_size yy_is_interactive yy_ch_buf]. rewrite i32_small by lia. cbv zeta.
    set (m := if _ <? _ then _ else _). assert (0 < m <= size' - Z.of_nat k - 1) as Hm.
    { unfold m, YY_READ_BUF_SIZE. destruct (Z.ltb_spec 8192 (size' - Z.of_nat k - 1)); lia. }
    unfold scanner_at at 1. cbn [yyin]. destruct (YY_INPUT_spec inter (Z.to_nat m) f ltac:(lia) He) as (x & r & -> & Hr & Hx & Hnil).
    rewrite bind_Ok, store_chars_spec, bind_Ok by lia. exists x. do 4 eexists. split; [reflexivity|]. cbn [f_rest f_error with_bytes with_n_chars yy_ch_buf yy_buf_size].
    pose proof Hl' as Hl2. rewrite length_app in Hl2. split_and!; try done; try lia.
    + rewrite (take_app_le d ext) by lia. assert (length (take k d) = k) as Hk' by (rewrite length_take; lia).
      rewrite app_assoc, take_app_le, take_ge by (rewrite length_app; lia). done.
    + rewrite !length_app, length_take, length_drop, length_app. lia.
Qed.

(** The end of the file. *)
Lemma restart_end f d0 d1 d size bn inter status n hold c tp len p line :
  ('(ret, s) ← (s ← yyrestart junk (scanner_at f (d0 :: d1 :: d) size bn inter status n hold c tp len p line); Ok (EOB_ACT_END_OF_FILE, s));
   s' ← poke (set_n_chars s (yy_n_chars s + 0)) (yy_n_chars s + 0) 0; s' ← poke s' (yy_n_chars s + 0 + 1) 0; Ok (ret, set_text s' 0 (yyleng s'))) =
  Ok (EOB_ACT_END_OF_FILE, scanner_at f (<[1%nat := 0]> (<[0%nat := 0]> (0 :: 0 :: d))) size 0 (f_tty f) YY_BUFFER_NEW 0 0 0 0 len p line).
Proof. reflexivity. Qed.

(** At the end of the text of the buffer more is read; the text that has been begun moves to
    the start of the buffer. *)
Lemma get_next_buffer_spec f buf size bn inter status n bp t hold len p line :
  holds_text f buf size bn status n bp t → status ≠ YY_BUFFER_NEW →
  ∃ act f' buf' size' bn' inter' status' n' hold' c',
    yy_get_next_buffer junk (scanner_at f buf size bn inter status n hold (n + 1) bp len p line) =
      Ok (act, scanner_at f' buf' size' bn' inter' status' n' hold' c' 0 len p line) ∧
    holds_text f' buf' size' bn' status' n' 0 t ∧
    match act with
    | EOB_ACT_CONTINUE_SCAN => (n - bp < n')%nat ∧ status' ≠ YY_BUFFER_NEW ∧ (length (f_rest f') < length (f_rest f))%nat
    | EOB_ACT_LAST_MATCH => n' = (n - bp)%nat ∧ n' = length t ∧ t ≠ [] ∧ status' ≠ YY_BUFFER_NEW
    | EOB_ACT_END_OF_FILE => t = [] ∧ hold' = 0
    end.
Proof.
  intros [Hs Hl Hn [He1 He2] Ht Hb Hst Herr Hsm] Hnew. set (k := (n - bp)%nat) in *.
  assert (length t = k + length (f_rest f))%nat as Hlt by (rewrite Ht, length_app, length_take, length_drop; lia).
  destruct (moved_text buf n bp k) as [Hml Hmt]; [lia..|]. cbv zeta in Hml, Hmt. set (d := take k (drop bp buf) ++ drop k buf) in *.
  unfold yy_get_next_buffer. set (s0 := scanner_at f buf _ _ _ _ _ _ _ _ _ _ _).
  assert (the_buffer s0 = Ok (MkBuffer buf size bn true inter true status)) as -> by reflexivity. rewrite bind_Ok.
  assert (yy_n_chars s0 = n) as -> by reflexivity. assert (yy_c_buf_p s0 = n + 1)%nat as -> by reflexivity. assert (yytext_ptr s0 = bp) as -> by reflexivity.
  rewrite Nat.ltb_irrefl. cbn [yy_fill_buffer negb yy_ch_buf]. replace (n + 1 - bp - 1)%nat with k by lia. cbv zeta.
  pose proof (move_chars_spec bp k 0 buf ltac:(lia)) as Em. rewrite Nat.add_0_r in Em. rewrite Em, bind_Ok. rewrite take_0, app_nil_l, Nat.add_0_l. fold d.
  destruct (fill_chars_spec f buf d size bn inter status n hold (n + 1) bp len p line k) as (x & f' & d' & size' & status' & Ef & Hr & Hnil & He' & Htk & Hs' & Hl' & Hn' & ->);
    [done|lia..|done|done|by intros ->|].
  assert (with_bytes (MkBuffer buf size bn true inter true status) d = MkBuffer d size bn true inter true status) as -> by reflexivity.
  unfold s0. rewrite Ef, bind_Ok. clear Ef s0.
  assert (∀ n c, yy_n_chars (scanner_at f' d' size' (length x) inter status n hold c bp len p line) = n) as Enc by reflexivity. rewrite Enc.
  assert (t = take (k + length x) d' ++ f_rest f') as Ht'.
  { rewrite Htk, Hmt, Ht, Hr. by rewrite <- app_assoc. }
  destruct x as [|x0 x]; cbn [length Nat.eqb].
  - cbn [length] in *. rewrite Nat.add_0_r in *. cbn [app] in Hr. rewrite (Hnil eq_refl) in Hr. rewrite <- Hr, app_nil_r in Ht'.
    destruct (Nat.eqb_spec k 0) as [Ek|Ek].
    + rewrite Ek in *. destruct d' as [|d0 [|d1 d']]; [cbn in Hl'; lia..|].
      do 10 eexists. split; [apply restart_end|]. split; [|by split; [|]].
      apply (holds_text_end f' (0 :: 0 :: d') size' 0 YY_BUFFER_NEW 0); try done. by rewrite <- Hr.
    + do 10 eexists. split; [apply (poke_end EOB_ACT_LAST_MATCH f' d' size' 0 inter YY_BUFFER_EOF_PENDING k hold (n + 1) bp len p line); done|].
      split; [apply holds_text_end; try done; rewrite <- Hr, app_nil_r; done|]. rewrite Hlt, (Hnil eq_refl) in *. cbn in *. split_and!; [done|lia| |done]. intros ->. cbn in Hlt. lia.
  - assert (S (length x) + k = k + S (length x))%nat as Ekx by lia. do 10 eexists.
    split; [rewrite bind_Ok; rewrite Enc, Ekx; apply (poke_end EOB_ACT_CONTINUE_SCAN f' d' size' (S (length x)) inter status (k + S (length x)) hold (n + 1) bp len p line); done|].
    split; [apply holds_text_end; try done; destruct status; try done; rewrite Hr in Hst; done|]. split_and!; [lia|done|]. rewrite Hr. cbn. rewrite length_app. lia.
Qed.
(** ** One match *)

(** Before [cp] the text is inside a match, in state [st]. *)
Record in_match (f : file) (buf : list Z) (size : Z) (bn : nat) (status : buffer_status) (n bp : nat) (t : list Z)
    (st cp : nat) (p : nat * nat) : Prop := InMatch {
  im_text : holds_text f buf size bn status n bp t;
  im_cp : (bp <= cp <= n)%nat;
  im_state : st = (track (take (cp - bp) t) 1 0 None).1;
  im_live : live st;
  im_last : last_ok bp (track (take (cp - bp) t) 1 0 None).2 p }.

Lemma nul_split w0 : Forall is_byte w0 → Forall text_byte w0 ∨ ∃ w v, w0 = w ++ 0 :: v ∧ Forall text_byte w.
Proof.
  induction 1 as [|b w0 Hb _ IH]; [by left|]. destruct (decide (b = 0)) as [->|Hb0]; [right; by exists [], w0|].
  destruct IH as [IH|(w & v & -> & Hw)]; [left; by constructor|]. right. exists (b :: w), v. split; [done|]. by constructor.
Qed.

(** The buffer from [cp] on. *)
Lemma text_from f buf size bn status n bp t cp : holds_text f buf size bn status n bp t → (bp <= cp <= n)%nat →
  ∃ w rest, drop cp buf = w ++ 0 :: 0 :: rest ∧ length w = (n - cp)%nat ∧ t = take (cp - bp) t ++ w ++ f_rest f ∧ Forall is_byte w ∧
    length (take (cp - bp) t) = (cp - bp)%nat ∧ take (cp - bp) (drop bp buf) = take (cp - bp) t.
Proof.
  intros [Hs Hl Hn [He1 He2] Ht Hb _ _ _] Hcp. exists (take (n - cp) (drop cp buf)), (drop (S (S n)) buf).
  assert (take (cp - bp) t = take (cp - bp) (drop bp buf)) as E1.
  { rewrite Ht, take_app_le by (rewrite length_take, length_drop; lia). rewrite take_take. f_equal. lia. }
  assert (t = take (cp - bp) t ++ take (n - cp) (drop cp buf) ++ f_rest f) as E2.
  { rewrite E1, Ht at 1. rewrite app_assoc. f_equal.
    rewrite <- (take_drop (cp - bp) (take (n - bp) (drop bp buf))), take_take. f_equal; [f_equal; lia|].
    rewrite skipn_firstn_comm, drop_drop. f_equal; [lia|f_equal; lia]. }
  split_and!.
  - rewrite <- (take_drop (n - cp) (drop cp buf)) at 1. f_equal. rewrite drop_drop. replace (cp + (n - cp))%nat with n by lia.
    rewrite (drop_S buf 0 n) by done. by rewrite (drop_S buf 0 (S n)) by done.
  - rewrite length_take, length_drop. lia.
  - done.
  - rewrite E2 in Hb. by apply Forall_app in Hb as [_ [Hb _]%Forall_app].
  - rewrite E1, length_take, length_drop. lia.
  - done.
Qed.
Lemma decided_det bp st cp p m m' st1 len1 st2 len2 :
  decided bp st cp p m → decided bp st cp p m' → m = Some (st1, len1) → m' = Some (st2, len2) → st1 = st2 ∧ len1 = len2.
Proof.
  intros (_ & _ & H) (_ & _ & H') E E'. specialize (H _ _ E). specialize (H' _ _ E').
  destruct (accepts st =? 0)%nat; [|destruct H, H'; split; [congruence|lia]]. rewrite H in H'. injection H'. intros ? ->. split; [done|lia].
Qed.

(** Up to the next NUL: the match is decided, and ends in the buffer, or the NUL is met
    inside a match. *)
Lemma match_step f buf size bn status n bp t st cp p : in_match f buf size bn status n bp t st cp p →
  (∃ st' cp' p' stf len, yy_match (drop cp buf) st cp p = Ok (st', cp', p') ∧ decided bp st' cp' p' (munch 1 0 None t) ∧
     munch 1 0 None t = Some (stf, len) ∧ (bp + len <= n)%nat) ∨
  (∃ q, (cp <= q <= n)%nat ∧ yy_match (drop cp buf) st cp p = Ok (24, q + 2, (3, q + 1))%nat ∧ ((q < n)%nat → t !! (q - bp)%nat = Some 0) ∧
     live (track (take (q - bp) t) 1 0 None).1).
Proof.
  intros [Ht Hcp Est Hlive Hlast]. destruct (text_from _ _ _ _ _ _ _ _ _ Ht Hcp) as (w0 & rest & Ed & Hw0 & Et & Hbw & Hlu & _).
  set (u := take (cp - bp) t) in *. pose proof (ht_bytes _ _ _ _ _ _ _ _ Ht) as Hb.
  assert (Forall is_byte u) as Hbu by (rewrite Et in Hb; by apply Forall_app in Hb as [? _]).
  assert (Forall is_byte (f_rest f)) as Hbr by (rewrite Et, app_assoc in Hb; by apply Forall_app in Hb as [_ ?]).
  (* the part of the buffer up to a NUL, and what follows it *)
  assert (∃ w v z rest', w0 ++ 0 :: 0 :: rest = w ++ 0 :: z :: rest' ∧ Forall text_byte w ∧ is_byte z ∧ t = u ++ w ++ v ∧ Forall is_byte v ∧
    (length w <= n - cp)%nat ∧ ((length w < n - cp)%nat → v !! 0%nat = Some 0)) as (w & v & z & rest' & Ew & Hw & Hz & Etv & Hbv & Hlw & Hv0).
  { destruct (nul_split w0 Hbw) as [Hw|(w & v & -> & Hw)].
    - exists w0, (f_rest f), 0, rest. split_and!; try done; lia.
    - rewrite <- app_assoc in *. cbn [app] in *. assert (Forall is_byte v) as Hbv by (by apply Forall_app in Hbw as [_ [_ ?]%Forall_cons]).
      rewrite length_app in Hw0. cbn [length] in Hw0.
      destruct v as [|z v]; [exists w, (0 :: f_rest f), 0, (0 :: rest)|exists w, (0 :: (z :: v) ++ f_rest f), z, (v ++ 0 :: 0 :: rest)].
      all: cbn [app] in *; rewrite <- ?app_assoc in Et; cbn [app] in Et; split_and!; try done; try lia.
      + by constructor.
      + by apply Forall_cons in Hbv as [? _].
      + constructor; [done|]. apply Forall_cons in Hbv as [? ?]. constructor; [done|]. by apply Forall_app. }
  rewrite Ed, Ew. replace cp with (bp + (cp - bp))%nat by lia. set (nn := (cp - bp)%nat) in *.
  assert (∀ x, munch 1 0 None (u ++ x) = munch st nn (track u 1 0 None).2 x) as Em.
  { intros x. rewrite munch_track by (done || by rewrite <- Est). rewrite Hlu, <- Est. done. }
  destruct (yy_match_spec bp w z rest' v Hw Hz Hbv st nn _ p Hlive Hlast) as [(st' & cp' & p' & E1 & Hd & Hne & Hle)|[Hl E1]].
  - left. destruct (yy_match_spec bp w z rest' [] Hw Hz ltac:(done) st nn _ p Hlive Hlast) as [(st2 & cp2 & p2 & E2 & Hd2 & _)|[_ E2]].
    2: { rewrite E1 in E2. injection E2 as -> -> ->. lia. }
    rewrite E1 in E2. injection E2 as <- <- <-. rewrite <- Em, <- Etv in Hd. rewrite <- Em, app_nil_r in Hd2.
    assert (Forall is_byte (u ++ w)) as Hbuw by (apply Forall_app; split; [done|]; eapply Forall_impl; [exact Hw|by intros ? []]).
    destruct (first_match t) as (stf & len & E & _ & _ & _); [done|rewrite Etv; by destruct u, w|].
    destruct (first_match (u ++ w)) as (st2 & len2 & E2 & _ & _ & Hlen); [done|by destruct u, w|].
    exists st', cp', p', stf, len. split_and!; [done..|]. destruct (decided_det _ _ _ _ _ _ _ _ _ _ Hd Hd2 E E2) as [_ ->].
    rewrite length_app in Hlen. lia.
  - right. exists (bp + nn + length w)%nat. split; [lia|]. split; [done|].
    replace (bp + nn + length w - bp)%nat with (length (u ++ w)) by (rewrite length_app; lia). split.
    + intros Hq. rewrite Etv, app_assoc, lookup_app_r, Nat.sub_diag by lia. apply Hv0. lia.
    + rewrite Etv, app_assoc, take_app_length, track_app. cbn [fst snd]. rewrite <- Est, Hlu. done.
Qed.
(** [YY_DO_BEFORE_ACTION] replaces the character after the text; [end_of_buffer] puts it back. *)
Lemma before_action_spec f buf size bn inter status n hold c tp len p line bp cp ch : buf !! cp = Some ch →
  YY_DO_BEFORE_ACTION (scanner_at f buf size bn inter status n hold c tp len p line) bp cp =
  Ok (scanner_at f (<[cp := 0]> buf) size bn inter status n ch cp bp (cp - bp) p line).
Proof.
  intros E. unfold YY_DO_BEFORE_ACTION. set (s0 := scanner_at _ _ _ _ _ _ _ _ _ _ _ _ _).
  assert (the_buffer s0 = Ok (MkBuffer buf size bn true inter true status)) as -> by reflexivity. rewrite bind_Ok. cbn [yy_ch_buf].
  rewrite (rd_Ok _ _ _ E), bind_Ok. unfold poke, the_buffer, s0. cbn [scanner_at set_hold set_text yy_current_buffer]. rewrite bind_Ok. cbn [yy_ch_buf].
  rewrite wr_Ok by (by eapply lookup_lt_Some). by rewrite !bind_Ok.
Qed.

Lemma poke_back f buf size bn inter status n hold c tp len p line cp : buf !! cp = Some hold →
  poke (scanner_at f (<[cp := 0]> buf) size bn inter status n hold c tp len p line) cp hold =
  Ok (scanner_at f buf size bn inter status n hold c tp len p line).
Proof.
  intros E. pose proof (lookup_lt_Some _ _ _ E) as Hl. unfold poke, the_buffer. cbn [scanner_at yy_current_buffer]. rewrite bind_Ok. cbn [yy_ch_buf].
  rewrite wr_Ok by (by rewrite length_insert). rewrite bind_Ok. unfold with_bytes. cbn [yy_buf_size b_n_chars yy_is_our_buffer yy_is_interactive yy_fill_buffer yy_buffer_status].
  by rewrite list_insert_insert_eq, (list_insert_id buf cp hold) by done.
Qed.

(** The action that is found is that of the match. *)
Lemma find_action_spec f buf size bn inter status n hold c tp len p line bp t st cp m stf L :
  holds_text f buf size bn status n bp t → decided bp st cp p m → m = Some (stf, L) → live stf → (bp + L <= n)%nat →
  ∃ ch, buf !! (bp + L)%nat = Some ch ∧
    find_action (scanner_at f buf size bn inter status n hold c tp len p line) bp st cp =
      Ok (accepts stf, (bp + L)%nat, scanner_at f (<[(bp + L)%nat := 0]> buf) size bn inter status n ch (bp + L) bp L p line).
Proof.
  intros Ht (Hst & _ & Hd) Em Hlive HL. destruct Ht as [_ Hl Hn _ _ _ _ _ _].
  destruct (lookup_lt_is_Some_2 buf (bp + L)%nat ltac:(lia)) as [ch Ech]. exists ch. split; [done|].
  unfold find_action. rewrite (accept_Ok st), bind_Ok by lia. specialize (Hd _ _ Em). destruct (Nat.eqb_spec (accepts st) 0) as [E|E].
  - cbn [scanner_at yy_last_accepting_state yy_last_accepting_cpos]. rewrite Hd. cbn [fst snd]. rewrite accept_Ok, !bind_Ok by (unfold live in Hlive; lia).
    change (MkScanner (Some f) _ _ _ _ _ _ _ _ _ _) with (scanner_at f buf size bn inter status n hold c tp len (stf, bp + L)%nat line).
    rewrite (before_action_spec _ _ _ _ _ _ _ _ _ _ _ _ _ bp _ ch Ech), bind_Ok. by replace (bp + L - bp)%nat with L by lia.
  - destruct Hd as [-> ->]. rewrite !bind_Ok, (before_action_spec _ _ _ _ _ _ _ _ _ _ _ _ _ bp _ ch Ech), bind_Ok. by replace (bp + L - bp)%nat with L by lia.
Qed.

Lemma previous_state_at f buf size bn inter status n hold c tp len p line t : holds_text f buf size bn status n tp t → (tp <= c <= n)%nat →
  ∃ p', yy_get_previous_state (scanner_at f buf size bn inter status n hold c tp len p line) =
    Ok ((track (take (c - tp) t) 1 0 None).1, scanner_at f buf size bn inter status n hold c tp len p' line) ∧
    last_ok tp (track (take (c - tp) t) 1 0 None).2 p'.
Proof.
  intros Ht Hc. destruct (text_from _ _ _ _ _ _ _ _ _ Ht Hc) as (w & rest & _ & _ & Et & _ & _ & Eu).
  unfold yy_get_previous_state. set (s0 := scanner_at _ _ _ _ _ _ _ _ _ _ _ _ _).
  assert (the_buffer s0 = Ok (MkBuffer buf size bn true inter true status)) as -> by reflexivity. rewrite bind_Ok. cbn [yy_ch_buf].
  assert (yy_c_buf_p s0 = c) as -> by reflexivity. assert (yytext_ptr s0 = tp) as -> by reflexivity. rewrite Eu.
  destruct (previous_state_spec tp (take (c - tp) t) ltac:(by apply Forall_take, (ht_bytes _ _ _ _ _ _ _ _ Ht)) 1 0 None (last_accepting s0)) as (p' & E & Hp);
    [left; unfold live; lia|done|]. rewrite Nat.add_0_r in E. unfold yy_start. rewrite E, bind_Ok. exists p'. by split.
Qed.
(** Characters that are still to be looked at, in the text and in the file. *)
Definition to_look (f : file) (t : list Z) (bp cp : nat) : nat := (length t - (cp - bp) + length (f_rest f))%nat.

(** Where [end_of_buffer] may go on, with the text unchanged. *)
Definition goes_on (look : nat) (t : list Z) (line : Z) (res : option place) (s : scanner) : Prop :=
  ∃ f buf size bn inter status n hold c tp len p,
    s = scanner_at f buf size bn inter status n hold c tp len p line ∧
    match res with
    | None => t = [] ∧ holds_text f buf size bn status n c t ∧ buf !! c = Some hold
    | Some (AtMatch bp st cp) => in_match f buf size bn status n bp t st cp p ∧ (to_look f t bp cp < look)%nat
    | Some (AtFind bp st cp) =>
        holds_text f buf size bn status n bp t ∧ decided bp st cp p (munch 1 0 None t) ∧ t ≠ [] ∧
        ∀ stf L, munch 1 0 None t = Some (stf, L) → (bp + L <= n)%nat
    end.

(** A match that ends where the text is cut at [q] does not reach behind it. *)
Lemma cut_match f buf size bn status n bp t q p : holds_text f buf size bn status n bp t → (bp < q <= n)%nat →
  live (track (take (q - bp) t) 1 0 None).1 → (accepts (track (take (q - bp) t) 1 0 None).1 = 0%nat → last_ok bp (track (take (q - bp) t) 1 0 None).2 p) →
  munch 1 0 None t = munch 1 0 None (take (q - bp) t) →
  decided bp (track (take (q - bp) t) 1 0 None).1 q p (munch 1 0 None t) ∧ t ≠ [] ∧
  ∀ stf L, munch 1 0 None t = Some (stf, L) → (bp + L <= n)%nat.
Proof.
  intros Ht Hq Hl Hlast Em. destruct (text_from _ _ _ _ _ _ _ _ q Ht ltac:(lia)) as (w & rest & _ & _ & _ & _ & Hlu & _).
  assert (Forall is_byte (take (q - bp) t)) as Hb by (apply Forall_take, (ht_bytes _ _ _ _ _ _ _ _ Ht)).
  pose proof (munch_track (take (q - bp) t) [] 1 0 None Hb Hl) as E. rewrite app_nil_r in E. cbn [munch] in E. split; [|split].
  - rewrite Em, E. apply decided_note; [done..|]. rewrite Hlu. lia.
  - intros ->. rewrite take_nil in Hlu. cbn in Hlu. lia.
  - rewrite Em. intros stf L EL. destruct (first_match (take (q - bp) t) Hb) as (st' & len & E' & _ & _ & Hlen); [intros E0; rewrite E0 in Hlu; cbn in Hlu; lia|].
    rewrite EL in E'. injection E' as <- <-. rewrite Hlu in Hlen. lia.
Qed.

Lemma last_accepting_at f buf size bn inter status n hold c tp len p line :
  last_accepting (scanner_at f buf size bn inter status n hold c tp len p line) = p.
Proof. by destruct p. Qed.

(** A NUL of the text. *)
Lemma nul_step f buf size bn inter status n bp t q hold len p line : holds_text f buf size bn status n bp t → (bp <= q < n)%nat → t !! (q - bp)%nat = Some 0 →
  live (track (take (q - bp) t) 1 0 None).1 →
  let s := scanner_at f buf size bn inter status n hold q bp len p line in
  ∃ res s', ('(st, s) ← yy_get_previous_state s; '(next, s) ← yy_try_NUL_trans st s;
     if (next =? 0)%nat then Ok (Some (AtFind (yytext_ptr s) st (yy_c_buf_p s)), s)
     else let s := set_c_buf_p s (S (yy_c_buf_p s)) in Ok (Some (AtMatch (yytext_ptr s) next (yy_c_buf_p s)), s)) = Ok (res, s') ∧
    goes_on (to_look f t bp q) t line res s'.
Proof.
  intros Ht Hq E0 Hl s. destruct (previous_state_at f buf size bn inter status n hold q bp len p line t Ht ltac:(lia)) as (p1 & E1 & Hp1).
  unfold s. rewrite E1, bind_Ok. set (u := take (q - bp) t) in *. set (st := (track u 1 0 None).1) in *.
  assert (st < 25)%nat as Hst by (unfold live in Hl; lia). destruct (text_from _ _ _ _ _ _ _ _ q Ht ltac:(lia)) as (w & rest & _ & _ & _ & _ & Hlu & _). fold u in Hlu.
  unfold yy_try_NUL_trans. rewrite last_accepting_at. change (yy_c_buf_p (scanner_at _ _ _ _ _ _ _ _ _ _ _ _ _)) with q.
  destruct (note_accept_Ok bp st (q - bp) (track u 1 0 None).2 p1 Hst Hp1) as (p2 & E2 & Hp2). replace (bp + (q - bp))%nat with q in E2 by lia.
  rewrite E2, bind_Ok, transition_Ok, !bind_Ok by (unfold live in Hl; lia).
  assert (take (S q - bp) t = u ++ [0]) as Eu by (replace (S q - bp)%nat with (S (q - bp)) by lia; by apply take_S_r).
  assert (t = u ++ 0 :: drop (S q - bp) t) as Et by (rewrite <- (take_drop (S q - bp) t) at 1; rewrite Eu, <- app_assoc; done).
  assert (Forall is_byte (u ++ [0])) as Hb by (rewrite <- Eu; apply Forall_take, (ht_bytes _ _ _ _ _ _ _ _ Ht)).
  destruct (Nat.eqb_spec (delta st 1) 24) as [E24|E24].
  - cbn [Nat.eqb]. do 2 eexists. split; [reflexivity|]. do 12 eexists. split; [reflexivity|].
    assert (bp < q)%nat as Hbq.
    { destruct (decide (bp = q)) as [->|]; [|lia]. unfold st, u in E24. rewrite Nat.sub_diag, take_0 in E24. done. }
    cbn [set_last yytext_ptr yy_c_buf_p scanner_at]. split; [exact Ht|]. apply (cut_match _ _ _ _ _ _ _ _ _ _ Ht); [lia|done|..]; fold u.
    + fold st. intros E. unfold note in Hp2. by rewrite E in Hp2.
    + rewrite Et at 1. rewrite munch_stuck by done. rewrite <- (app_nil_r u) at 4. rewrite munch_track; [done| |done]. by apply Forall_app in Hb as [? _].
  - destruct (Nat.eqb_spec (delta st 1) 0) as [E00|_].
    { destruct (delta_live st 1 Hl ltac:(lia)) as [[H _]|H]; rewrite E00 in H; lia. }
    cbv zeta. do 2 eexists. split; [reflexivity|]. do 12 eexists. split; [reflexivity|]. cbn [set_c_buf_p set_last yytext_ptr yy_c_buf_p scanner_at]. split.
    + assert (track (take (S q - bp) t) 1 0 None = (delta st 1, note st (q - bp) (track u 1 0 None).2)) as Etr.
      { rewrite Eu, track_app, Hlu. done. }
      change (in_match f buf size bn status n bp t (delta st 1) (S q) p2).
      constructor; [exact Ht|lia|by rewrite Etr| |by rewrite Etr]. by destruct (delta_live st 1 Hl ltac:(lia)).
    + change (to_look f t bp (S q) < to_look f t bp q)%nat. unfold to_look. assert (length u < length t)%nat by (rewrite Et, length_app; cbn [length]; lia). lia.
Qed.
(** The end of the text of the buffer. *)
Lemma refill_step f buf size bn inter status n bp t hold len p line : holds_text f buf size bn status n bp t → status ≠ YY_BUFFER_NEW →
  live (track (take (n - bp) t) 1 0 None).1 →
  let s := scanner_at f buf size bn inter status n hold (n + 1) bp len p line in
  let amount := (n - bp)%nat in
  ∃ res s', ('(act, s) ← yy_get_next_buffer junk s;
    match act with
    | EOB_ACT_END_OF_FILE => Ok (None, set_c_buf_p s (yytext_ptr s))
    | EOB_ACT_CONTINUE_SCAN =>
        let s := set_c_buf_p s (yytext_ptr s + amount) in
        '(st, s) ← yy_get_previous_state s;
        Ok (Some (AtMatch (yytext_ptr s) st (yy_c_buf_p s)), s)
    | EOB_ACT_LAST_MATCH =>
        let s := set_c_buf_p s (yy_n_chars s) in
        '(st, s) ← yy_get_previous_state s;
        Ok (Some (AtFind (yytext_ptr s) st (yy_c_buf_p s)), s)
    end) = Ok (res, s') ∧ goes_on (to_look f t bp n) t line res s'.
Proof.
  intros Ht Hnew Hl s amount. unfold s.
  destruct (get_next_buffer_spec f buf size bn inter status n bp t hold len p line Ht Hnew)
    as (act & f' & buf' & size' & bn' & inter' & status' & n' & hold' & c' & E & Ht' & Hact). rewrite E, bind_Ok. destruct act.
  - destruct Hact as (Hn' & Hnew' & Hless). cbv zeta.
    change (set_c_buf_p _ _) with (scanner_at f' buf' size' bn' inter' status' n' hold' amount 0 len p line).
    destruct (previous_state_at f' buf' size' bn' inter' status' n' hold' amount 0 len p line t Ht' ltac:(lia)) as (p' & -> & Hp'). rewrite bind_Ok.
    rewrite Nat.sub_0_r in *. do 2 eexists. split; [reflexivity|]. do 12 eexists. split; [reflexivity|]. split.
    + change (in_match f' buf' size' bn' status' n' 0 t (track (take amount t) 1 0 None).1 amount p'). constructor; rewrite ?Nat.sub_0_r; try done. lia.
    + change (to_look f' t 0 amount < to_look f t bp n)%nat. unfold to_look, amount. lia.
  - destruct Hact as [-> ->]. do 2 eexists. split; [reflexivity|]. do 12 eexists. split; [reflexivity|]. split; [done|]. split; [exact Ht'|].
    destruct Ht' as [_ Hl' Hn' [He _] Htx _ _ _ _]. destruct n'; [done|]. symmetry in Htx. apply app_eq_nil in Htx as [Htx _].
    apply (f_equal length) in Htx. rewrite length_take, length_drop in Htx. cbn [length] in Htx. lia.
  - destruct Hact as (-> & Hlen & Hne & _). cbv zeta. fold amount in Hlen, Ht' |- *.
    change (set_c_buf_p _ _) with (scanner_at f' buf' size' bn' inter' status' amount hold' amount 0 len p line).
    destruct (previous_state_at f' buf' size' bn' inter' status' amount hold' amount 0 len p line t Ht' ltac:(lia)) as (p' & -> & Hp'). rewrite bind_Ok.
    do 2 eexists. split; [reflexivity|]. do 12 eexists. split; [reflexivity|]. split; [exact Ht'|].
    assert (take amount t = t) as Eall by (rewrite Hlen; apply take_ge; done). fold amount in Hl. rewrite Eall in Hl.
    rewrite Nat.sub_0_r, Eall in *.
    pose proof (cut_match f' buf' size' bn' status' amount 0 t amount p' Ht') as Hc. rewrite Nat.sub_0_r, Eall in Hc.
    apply Hc; try done. destruct t; [done|]. cbn in Hlen. lia.
Qed.

(** [case YY_END_OF_BUFFER], after a NUL at [q]. *)
Lemma end_of_buffer_spec f buf size bn inter status n bp t q hold len p line : holds_text f buf size bn status n bp t → (bp <= q <= n)%nat →
  ((q < n)%nat → t !! (q - bp)%nat = Some 0) → live (track (take (q - bp) t) 1 0 None).1 → buf !! (q + 1)%nat = Some hold →
  ∃ res s', end_of_buffer junk (scanner_at f (<[(q + 1)%nat := 0]> buf) size bn inter status n hold (q + 1) bp len p line) (q + 1) = Ok (res, s') ∧
    goes_on (to_look f t bp q) t line res s'.
Proof.
  intros Ht Hq H0 Hl Eh. unfold end_of_buffer.
  change (yy_hold_char (scanner_at _ _ _ _ _ _ _ _ _ _ _ _ _)) with hold. rewrite poke_back, bind_Ok by done.
  unfold the_buffer. cbn [scanner_at yy_current_buffer]. rewrite bind_Ok. cbn [yy_buffer_status].
  set (s1 := match status with YY_BUFFER_NEW => _ | _ => _ end).
  assert (∃ status1, s1 = scanner_at f buf size bn inter status1 n hold (q + 1) bp len p line ∧ status1 ≠ YY_BUFFER_NEW ∧ holds_text f buf size bn status1 n bp t) as (status1 & -> & Hnew & Ht1).
  { unfold s1. destruct Ht as [? ? ? ? ? ? Hst ? ?]. destruct status; [|by eexists; split; [reflexivity|]..].
    destruct Hst as [-> ->]. exists YY_BUFFER_NORMAL. by split; [|split; [|constructor]]. }
  cbv zeta. change (yytext_ptr (scanner_at _ _ _ _ _ _ _ _ _ _ _ _ _)) with bp.
  change (yy_c_buf_p (scanner_at f buf size bn inter status1 n hold (q + 1) bp len p line)) with (q + 1)%nat.
  change (yy_n_chars (scanner_at _ _ _ _ _ _ _ _ _ _ _ _ _)) with n.
  replace (q + 1 - bp - 1)%nat with (q - bp)%nat by lia. replace (bp + (q - bp))%nat with q by lia.
  destruct (Nat.leb_spec (q + 1) n) as [Hlt|Hge].
  - apply (nul_step f buf size bn inter status1 n bp t q hold len p line Ht1); [lia|apply H0; lia|done].
  - replace q with n in * by lia. apply (refill_step f buf size bn inter status1 n bp t hold len p line Ht1 Hnew Hl).
Qed.
(** ** A token *)

(** After a match of [L] characters: the character after them is in [yy_hold_char]. *)
Definition found (s : scanner) (t : list Z) (L : nat) (line : Z) : Prop :=
  ∃ f buf size bn inter status n bp p hold,
    s = scanner_at f (<[(bp + L)%nat := 0]> buf) size bn inter status n hold (bp + L) bp L p line ∧
    buf !! (bp + L)%nat = Some hold ∧ holds_text f buf size bn status n bp t ∧ (bp + L <= n)%nat.

(** Between two calls: [t] is the text that is still to be read. *)
Definition running (s : scanner) (t : list Z) (line : Z) : Prop :=
  ∃ f buf size bn inter status n hold c tp len p,
    s = scanner_at f buf size bn inter status n hold c tp len p line ∧ (c < length buf)%nat ∧ holds_text f (<[c := hold]> buf) size bn status n c t.

Lemma find_step fuel p s t line bp st cp s1 : goes_on 0 t line (Some (AtFind bp st cp)) s1 → run_match s p = Ok (bp, st, cp, s1) →
  ∃ stf L s', munch 1 0 None t = Some (stf, L) ∧ next_action junk (S fuel) p s = Ok (accepts stf, s') ∧ found s' t L line.
Proof.
  intros (f & buf & size & bn & inter & status & n & hold & c & tp & len & pp & -> & Ht & Hd & Hne & Hb) Erun.
  destruct (first_match t (ht_bytes _ _ _ _ _ _ _ _ Ht) Hne) as (stf & L & Em & Hlive & Hacc & HL). exists stf, L.
  destruct (find_action_spec f buf size bn inter status n hold c tp len pp line bp t st cp _ stf L Ht Hd Em Hlive (Hb _ _ Em)) as (ch & Ech & Ef).
  eexists. split; [done|]. cbn [next_action]. rewrite Erun, bind_Ok, Ef, bind_Ok. pose proof (accepts_rule stf Hlive) as Hr.
  destruct (Nat.eqb_spec (accepts stf) 0); [done|]. unfold YY_END_OF_BUFFER. destruct (Nat.eqb_spec (accepts stf) 14); [lia|]. split; [done|].
  do 10 eexists. split; [reflexivity|]. split_and!; try done. by apply (Hb stf).
Qed.

(** The action after a text is that of its longest match; after the last text it is that of
    the end of the file. *)
Lemma next_action_spec t line fuel : ∀ look p s, goes_on look t line (Some p) s → (look < fuel)%nat →
  (t ≠ [] → ∃ stf L s', munch 1 0 None t = Some (stf, L) ∧ next_action junk fuel p s = Ok (accepts stf, s') ∧ found s' t L line) ∧
  (t = [] → ∃ s', next_action junk fuel p s = Ok (15%nat, s') ∧ goes_on 0 t line None s').
Proof.
  induction fuel as [|fuel IH]; intros look p s Hg Hlook; [lia|]. destruct p as [bp st cp|bp st cp].
  2: { assert (goes_on 0 t line (Some (AtFind bp st cp)) s) as Hg' by (destruct Hg as (f & buf & size & bn & inter & status & n & hold & c & tp & len & pp & E & H); by do 12 eexists).
       split; [intros _; by eapply find_step|]. intros ->. destruct Hg as (? & ? & ? & ? & ? & ? & ? & ? & ? & ? & ? & ? & _ & _ & _ & Hne & _). done. }
  destruct Hg as (f & buf & size & bn & inter & status & n & hold & c & tp & len & pp & -> & Him & Hless). pose proof (im_text _ _ _ _ _ _ _ _ _ _ _ Him) as Ht.
  destruct (match_step _ _ _ _ _ _ _ _ _ _ _ Him) as [(st' & cp' & p' & stf & L & E & Hd & Em & HL)|(q & Hq & E & H0 & Hl)].
  - assert (run_match (scanner_at f buf size bn inter status n hold c tp len pp line) (AtMatch bp st cp) =
      Ok (bp, st', cp', scanner_at f buf size bn inter status n hold c tp len p' line)) as Erun.
    { unfold run_match. rewrite last_accepting_at. unfold the_buffer. cbn [scanner_at yy_current_buffer]. rewrite bind_Ok. cbn [yy_ch_buf]. by rewrite E, bind_Ok. }
    assert (t ≠ []) as Hne by (intros ->; done). split; [intros _|done]. eapply find_step; [|exact Erun]. do 12 eexists. split; [reflexivity|]. split_and!; try done.
    intros ? ? E2. rewrite Em in E2. by injection E2 as <- <-.
  - destruct Ht as [Hsize Hlb Hn Heob Htx Hbt Hst Herr Hsm] eqn:EHt. clear EHt.
    destruct (lookup_lt_is_Some_2 buf (q + 1)%nat ltac:(lia)) as [ch Ech]. pose proof (im_cp _ _ _ _ _ _ _ _ _ _ _ Him) as Hcp.
    destruct (end_of_buffer_spec f buf size bn inter status n bp t q ch (q + 1 - bp) (3, q + 1)%nat line (im_text _ _ _ _ _ _ _ _ _ _ _ Him) ltac:(lia) H0 Hl Ech) as (res & s' & Ee & Hg).
    assert (next_action junk (S fuel) (AtMatch bp st cp) (scanner_at f buf size bn inter status n hold c tp len pp line) =
      match res with Some p => next_action junk fuel p s' | None => Ok (15%nat, s') end) as ->.
    { cbn [next_action]. unfold run_match. rewrite last_accepting_at. unfold the_buffer at 1. cbn [scanner_at yy_current_buffer]. rewrite bind_Ok. cbn [yy_ch_buf].
      rewrite E, !bind_Ok. change (set_last _ _) with (scanner_at f buf size bn inter status n hold c tp len (3, q + 1)%nat line).
      unfold find_action. change (rd yy_accept 24) with (Ok 0%nat). rewrite bind_Ok. cbn [Nat.eqb].
      assert (∀ c, yy_last_accepting_state (scanner_at f buf size bn inter status n hold c tp len (3, q + 1)%nat line) = 3%nat) as -> by reflexivity.
      assert (∀ c, yy_last_accepting_cpos (scanner_at f buf size bn inter status n hold c tp len (3, q + 1)%nat line) = (q + 1)%nat) as -> by reflexivity.
      change (rd yy_accept 3) with (Ok 14%nat). rewrite !bind_Ok. rewrite (before_action_spec _ _ _ _ _ _ _ _ _ _ _ _ _ bp _ ch Ech), !bind_Ok. cbn [Nat.eqb YY_END_OF_BUFFER]. rewrite Ee, bind_Ok. by destruct res. }
    destruct res as [p|].
    + eapply IH; [exact Hg|]. unfold to_look in *. lia.
    + pose proof Hg as (? & ? & ? & ? & ? & ? & ? & ? & ? & ? & ? & ? & _ & Et & _). split; [done|]. intros _. exists s'. split; [done|].
      destruct Hg as (f' & buf' & size' & bn' & inter' & status' & n' & hold' & c' & tp' & len' & p' & H). by do 12 eexists.
Qed.
(** ** [yylex] *)

Lemma found_running s t L line : found s t L line → running s (drop L t) line ∧ yytext s = Ok (take L t) ∧ lineno s = line.
Proof.
  intros (f & buf & size & bn & inter & status & n & bp & p & hold & -> & Eh & Ht & HL).
  destruct (text_from _ _ _ _ _ _ _ _ (bp + L) Ht ltac:(lia)) as (w & rest & Ed & Hw & Et & Hbw & Hlu & Eu). replace (bp + L - bp)%nat with L in * by lia.
  destruct Ht as [Hs Hl Hn He Htx Hb Hst Herr Hsm]. pose proof (lookup_lt_Some _ _ _ Eh) as Hlt. split; [|split; [|done]].
  - do 12 eexists. split; [reflexivity|]. split; [by rewrite length_insert|]. rewrite list_insert_insert_eq, (list_insert_id buf _ hold) by done. constructor; try done.
    + lia.
    + rewrite Et at 1. rewrite <- Hlu at 1. rewrite drop_app_length. f_equal. rewrite Ed, <- Hw. by rewrite take_app_length.
    + by apply Forall_drop.
    + rewrite length_drop. lia.
  - unfold yytext, the_buffer. cbn [scanner_at yy_current_buffer yyleng yytext_ptr]. rewrite bind_Ok. cbn [yy_ch_buf]. f_equal. rewrite <- Eu.
    apply list_eq. intros i. destruct (decide (i < L)%nat); [|rewrite !lookup_take_ge by lia; done].
    rewrite !lookup_take_lt, !lookup_drop, list_lookup_insert_ne by lia. done.
Qed.

Lemma running_match s t line : running s t line →
  ∃ s1, poke s (yy_c_buf_p s) (yy_hold_char s) = Ok s1 ∧ (2 * length t < 2 * unread s1 + 2)%nat ∧
    goes_on (2 * unread s1 + 3) t line (Some (AtMatch (yy_c_buf_p s1) yy_start (yy_c_buf_p s1))) s1.
Proof.
  intros (f & buf & size & bn & inter & status & n & hold & c & tp & len & p & -> & Hc & Ht).
  assert (poke (scanner_at f buf size bn inter status n hold c tp len p line) c hold = Ok (scanner_at f (<[c := hold]> buf) size bn inter status n hold c tp len p line)) as E.
  { unfold poke, the_buffer. cbn [scanner_at yy_current_buffer]. rewrite bind_Ok. cbn [yy_ch_buf]. by rewrite wr_Ok, bind_Ok. }
  eexists. split; [exact E|]. unfold unread. cbn [scanner_at yy_current_buffer yy_ch_buf yyin yy_c_buf_p].
  assert (length t <= length buf + length (f_rest f))%nat as Hlt.
  { rewrite (ht_text _ _ _ _ _ _ _ _ Ht), length_app, length_take, length_drop, length_insert. lia. }
  rewrite length_insert. split; [lia|]. do 12 eexists. split; [reflexivity|]. split.
  - constructor; rewrite ?Nat.sub_diag, ?take_0; try done; [|unfold live, yy_start; lia]. destruct Ht as [_ _ ? _ _ _ _ _ _]. lia.
  - unfold to_look. lia.
Qed.

(** [yylex] returns the next token of the text; it is undefined only for a token that does
    not fit in [str[256]]. *)
Lemma yylex_loop_spec fuel : ∀ s t line, running s t line → Forall is_byte t → (length t < fuel)%nat →
  match lex fuel line t with
  | Ok (ret, tok, line', t') => ∃ s', yylex_loop junk fuel s = Ok (ret, tok, s') ∧ running s' t' line' ∧ lineno s' = line'
  | Undef => yylex_loop junk fuel s = Undef
  | _ => False
  end.
Proof.
  induction fuel as [|fuel IH]; intros s t line Hr Hb Hf; [lia|].
  destruct (running_match s t line Hr) as (s1 & Ep & Hu & Hg). cbn [lex yylex_loop]. rewrite Ep, bind_Ok.
  destruct (next_action_spec t line (2 * unread s1 + 4) _ _ _ Hg ltac:(lia)) as [H1 H2]. destruct (decide (t = [])) as [->|Hne].
  - destruct (H2 eq_refl) as (s2 & -> & f & buf & size & bn & inter & status & n & hold & c & tp & len & p & -> & _ & Ht & Eh).
    rewrite bind_Ok. eexists. split; [reflexivity|]. split; [|done]. do 12 eexists. split; [reflexivity|]. split; [by eapply lookup_lt_Some|]. by rewrite list_insert_id.
  - destruct (H1 Hne) as (stf & L & s2 & Em & -> & Hfound). rewrite bind_Ok. destruct (found_running _ _ _ _ Hfound) as (Hrun & -> & Hline). rewrite bind_Ok.
    rewrite Em. pose proof (action_token_returns (accepts stf) (take L t)) as Ha.
    destruct (action_token (accepts stf) (take L t)) as [tok| | |]; try done. rewrite !bind_Ok. cbv zeta.
    destruct (first_match t Hb Hne) as (stf' & L' & E & _ & _ & HL'). rewrite Em in E. injection E as <- <-.
    set (s3 := if (accepts stf =? 7)%nat then _ else s2). set (line' := if (accepts stf =? 7)%nat then line + 1 else line).
    assert (running s3 (drop L t) line' ∧ lineno s3 = line') as [Hrun3 Hline3].
    { unfold s3, line'. destruct (accepts stf =? 7)%nat; [|done]. split; [|by rewrite <- Hline].
      destruct Hrun as (f & buf & size & bn & inter & status & n & hold & c & tp & len & p & -> & Hc & Ht). by do 12 eexists. }
    destruct (action_return (accepts stf) tok) as [ret|]; [by exists s3|]. apply IH; [done|by apply Forall_drop|rewrite length_drop; lia].
Qed.
(** A file before its first token: the scanner has no buffer yet, or one that is empty. *)
Definition opened (s : scanner) (t : list Z) (line : Z) : Prop :=
  ∃ f n hold c tp len a b, s = MkScanner (Some f) None true n hold c tp len a b line ∧
    f_rest f = t ∧ f_error f = false ∧ Forall is_byte t ∧ Z.of_nat (length t) < 2 ^ 28.

Definition ready (s : scanner) (t : list Z) (line : Z) : Prop := opened s t line ∨ running s t line.

Lemma create_buffer_spec f : ∃ d, yy_create_buffer junk (Some f) YY_BUF_SIZE = Ok (MkBuffer (0 :: 0 :: d) 16384 0 true (f_tty f) true YY_BUFFER_NEW) ∧
  length (0 :: 0 :: d) = Z.to_nat 16386.
Proof.
  unfold yy_create_buffer, yy_init_buffer, yy_flush_buffer. cbn [yy_ch_buf]. change (YY_BUF_SIZE + 2) with 16386.
  assert (length (map junk (seq 0 (Z.to_nat 16386))) = Z.to_nat 16386) as Hl by (by rewrite length_map, length_seq).
  set (d := map junk _) in *. destruct d as [|d0 [|d1 d]]; [cbn in Hl; lia..|]. exists d. split; [reflexivity|]. exact Hl.
Qed.

Lemma opened_running s t line : opened s t line →
  ∃ s', running s' t line ∧ (length t <= unread s')%nat ∧ yylex junk s = yylex_loop junk (S (unread s')) s'.
Proof.
  intros (f & n & hold & c & tp & len & a & b & -> & Et & He & Hb & Hsm). destruct (create_buffer_spec f) as (d & Ec & Hl).
  exists (scanner_at f (0 :: 0 :: d) 16384 0 (f_tty f) YY_BUFFER_NEW 0 0 0 0 len (a, b) line). split; [|split].
  - do 12 eexists. split; [reflexivity|]. split; [cbn; lia|]. constructor; try done; try lia.
  - unfold unread. cbn [scanner_at yyin yy_current_buffer]. rewrite Et. lia.
  - unfold yylex. cbn [yy_init yy_current_buffer yyin]. rewrite Ec, bind_Ok. reflexivity.
Qed.

Lemma running_unread s t line : running s t line → (length t <= unread s)%nat ∧ Forall is_byte t ∧ yylex junk s = yylex_loop junk (S (unread s)) s.
Proof.
  intros (f & buf & size & bn & inter & status & n & hold & c & tp & len & p & -> & Hc & Ht). split; [|split; [apply Ht|done]].
  unfold unread. cbn [scanner_at yyin yy_current_buffer yy_ch_buf].
  rewrite (ht_text _ _ _ _ _ _ _ _ Ht), length_app, length_take, length_drop, length_insert. lia.
Qed.

(** The next token of a text. *)
Definition lex_text (line : Z) (t : list Z) : outcome (Z * option token * Z * list Z) := lex (S (length t)) line t.

Lemma yylex_ready s t line : ready s t line →
  match lex_text line t with
  | Ok (ret, tok, line', t') => ∃ s', yylex junk s = Ok (ret, tok, s') ∧ ready s' t' line' ∧ lineno s' = line'
  | Undef => yylex junk s = Undef
  | _ => False
  end.
Proof.
  intros Hr. assert (∃ s1, running s1 t line ∧ (length t <= unread s1)%nat ∧ Forall is_byte t ∧ yylex junk s = yylex_loop junk (S (unread s1)) s1) as (s1 & Hr1 & Hu & Hb & ->).
  { destruct Hr as [Ho|Hr]; [|exists s; destruct (running_unread s t line Hr) as (? & ? & ?); by split_and!].
    destruct (opened_running s t line Ho) as (s1 & Hr1 & Hu & E). exists s1. destruct (running_unread s1 t line Hr1) as (_ & ? & _). by split_and!. }
  unfold lex_text. rewrite (lex_fuel (S (length t)) (S (unread s1))) by (done || lia).
  pose proof (yylex_loop_spec (S (unread s1)) s1 t line Hr1 Hb ltac:(lia)) as H. destruct (lex _ line t) as [[[[ret tok] line'] t']| | |]; try done.
  destruct H as (s' & E & Hrun & Hl). exists s'. split; [done|]. split; [by right|done].
Qed.
End machine.

(** ** Files *)

(** Opening a file makes its bytes the text. *)
Lemma start_opened f : f_error f = false → Forall is_byte (f_rest f) → Z.of_nat (length (f_rest f)) < 2 ^ 28 →
  ready (start_conf_read scanner0 (Some f)).2 (f_rest f) 1.
Proof. intros He Hb Hsm. left. exists f. do 7 eexists. split; [reflexivity|]. by split_and!. Qed.

(** The tokens of a text up to the first call that returns none. *)
Fixpoint text_tokens (fuel : nat) (line : Z) (t : list Z) : outcome (list token) :=
  match fuel with
  | O => Diverge
  | S fuel =>
      '(ret, tok, line, t) ← lex_text line t;
      if ret <=? 0 then Ok [] else
      match tok with Some tk => ts ← text_tokens fuel line t; Ok (tk :: ts) | None => Undef end
  end.

Lemma all_tokens_text junk fuel : ∀ s t line, ready s t line → all_tokens junk fuel s = text_tokens fuel line t.
Proof.
  induction fuel as [|fuel IH]; intros s t line Hr; [done|]. cbn [all_tokens text_tokens]. unfold get_next_token.
  pose proof (yylex_ready junk s t line Hr) as H. destruct (lex_text line t) as [[[[ret tok] line'] t']| | |]; try done.
  - destruct H as (s' & -> & Hr' & _). rewrite !bind_Ok. destruct (ret <=? 0); [done|]. destruct tok; [|done]. by rewrite (IH s' t' line').
  - by rewrite H.
Qed.

(** A token takes at least one character of the text. *)
Lemma lex_shorter fuel : ∀ line t ret tok line' t', Forall is_byte t → lex fuel line t = Ok (ret, tok, line', t') →
  Forall is_byte t' ∧ (length t' <= length t)%nat ∧ (0 < ret → (length t' < length t)%nat).
Proof.
  induction fuel as [|fuel IH]; intros line t ret tok line' t' Hb; [done|]. cbn [lex]. destruct (decide (t = [])) as [->|Hne].
  { cbn. intros [= <- <- <- <-]. split_and!; [done|cbn; lia|lia]. }
  destruct (first_match t Hb Hne) as (st & len & -> & _ & _ & Hlen).
  destruct (action_token (accepts st) (take len t)) as [tok0| | |]; try done. rewrite bind_Ok. cbv zeta.
  destruct (action_return (accepts st) tok0) as [r|].
  - intros [= <- <- <- <-]. rewrite length_drop. split_and!; [by apply Forall_drop|lia|lia].
  - intros E. apply IH in E as (? & ? & ?); [|by apply Forall_drop]. rewrite length_drop in *. split_and!; [done|lia|lia].
Qed.

Lemma lex_returns fuel : ∀ line t, Forall is_byte t → (length t < fuel)%nat → match lex fuel line t with Ok _ | Undef => True | _ => False end.
Proof.
  induction fuel as [|fuel IH]; intros line t Hb Hn; [lia|]. cbn [lex]. destruct (decide (t = [])) as [->|Hne]; [done|].
  destruct (first_match t Hb Hne) as (st & len & -> & _ & _ & Hlen). pose proof (action_token_returns (accepts st) (take len t)) as Ha.
  destruct (action_token (accepts st) (take len t)) as [tok0| | |]; try done. rewrite bind_Ok. cbv zeta.
  destruct (action_return (accepts st) tok0); [done|]. apply IH; [by apply Forall_drop|rewrite length_drop; lia].
Qed.

(** *** Short lines *)

(** Between two newlines there are fewer than 256 characters. *)
Definition short_lines (t : list Z) : Prop := ∀ u v w, t = u ++ v ++ w → 10 ∉ v → (length v < 256)%nat.

Lemma short_lines_drop t n : short_lines t → short_lines (drop n t).
Proof. intros H u v w E. apply (H (take n t ++ u) v w). rewrite <- app_assoc, <- E. by rewrite take_drop. Qed.

(** Only the rule of the newline matches a newline. *)
Lemma newline_stops st : live st → (2 < st)%nat → delta st (class 10) = 24%nat.
Proof.
  intros Hs H1. pose proof (each_state_spec (λ st, negb (liveb st) || (st <=? 2)%nat || (delta st 3 =? 24)%nat) eq_refl st ltac:(unfold live in Hs; lia)) as H.
  cbn beta in H. rewrite !orb_true_iff, negb_true_iff, Nat.leb_le, !Nat.eqb_eq in H. apply liveb_spec in Hs. change (class 10) with 3%nat. destruct H as [[H|H]|H]; [congruence|lia|done].
Qed.

Lemma no_return st c : live st → (0 < c < 15)%nat → (2 < delta st c)%nat.
Proof.
  intros Hs Hc. pose proof (table_fact (λ st c, negb (liveb st) || (c =? 0)%nat || (2 <? delta st c)%nat) eq_refl st c ltac:(unfold live in Hs; lia) ltac:(lia)) as H.
  cbn beta in H. rewrite !orb_true_iff, negb_true_iff, Nat.eqb_eq, Nat.ltb_lt in H. apply liveb_spec in Hs. destruct H as [[H|H]|H]; [congruence|lia|done].
Qed.

Lemma track_newline u st n last : Forall is_byte u → live st → (2 < st)%nat → live (track u st n last).1 → 10 ∉ u.
Proof.
  intros Hu. revert st n last. induction Hu as [|b u Hb Hu IH]; intros st n last Hs H1 Hl; [apply not_elem_of_nil|]. cbn [track] in Hl.
  destruct (class_fact b Hb) as [Hc _]. apply not_elem_of_cons. destruct (delta_live st _ Hs Hc) as [Hs'|E].
  - split; [|by eapply IH, Hl; [|apply no_return]]. intros <-. rewrite newline_stops in Hs' by done. unfold live in Hs'. lia.
  - rewrite E, track_stuck in Hl by done. unfold live in Hl. lia.
Qed.

(** The text of a match ends in the state that accepts it. *)
Lemma munch_state t : Forall is_byte t → ∀ st n last st' len, live st → munch st n last t = Some (st', len) →
  last = Some (st', len) ∨ ∃ k, len = (n + k)%nat ∧ (k <= length t)%nat ∧ (track (take k t) st n last).1 = st'.
Proof.
  induction 1 as [|b t Hb Ht IH]; intros st n last st' len Hs; cbn [munch].
  - unfold note. destruct (accepts st =? 0)%nat; [by left|]. intros [= <- <-]. right. exists O. split_and!; [lia|done|done].
  - assert (note st n last = Some (st', len) → last = Some (st', len) ∨ ∃ k, len = (n + k)%nat ∧ (k <= length (b :: t))%nat ∧ (track (take k (b :: t)) st n last).1 = st') as Hnote.
    { unfold note. destruct (accepts st =? 0)%nat; [by left|]. intros [= <- <-]. right. exists O. split_and!; [lia|cbn; lia|done]. }
    destruct (Nat.eqb_spec (delta st (class b)) 24) as [E|E]; [done|]. destruct (class_fact b Hb) as [Hc _].
    intros Em. destruct (IH _ _ _ _ _ ltac:(by destruct (delta_live st _ Hs Hc)) Em) as [H|(k & -> & Hk & Htr)]; [by apply Hnote|].
    right. exists (S k). split_and!; [lia|cbn; lia|done].
Qed.

Lemma match_one_line t st len : Forall is_byte t → munch 1 0 None t = Some (st, len) → live st → accepts st ≠ 7%nat → 10 ∉ take len t.
Proof.
  intros Hb Em Hl Ha. destruct (munch_state t Hb 1 0 None st len ltac:(unfold live; lia) Em) as [|(k & -> & Hk & Htr)]; [done|]. cbn [Nat.add].
  destruct t as [|b t]; [rewrite take_nil; apply not_elem_of_nil|]. destruct k as [|k]; [apply not_elem_of_nil|]. cbn [take track] in *.
  apply Forall_cons in Hb as [Hb Hbt]. destruct (class_fact b Hb) as [Hc _]. destruct (first_accepts _ Hc) as [_ Hl1].
  assert (10 ∉ take k t) as Hk10 by (eapply track_newline; [by apply Forall_take|exact Hl1|by apply no_return; [unfold live; lia|]|by rewrite Htr]).
  apply not_elem_of_cons. split; [|done]. intros <-. change (delta 1 (class 10)) with 6%nat in *.
  destruct (take k t) as [|b' t'] eqn:E; [by subst st|]. cbn [track] in Htr.
  assert (Forall is_byte (b' :: t')) as Hb' by (rewrite <- E; by apply Forall_take). apply Forall_cons in Hb' as [Hb' Ht'].
  assert (delta 6 (class b') = 24%nat) as E6 by (apply base_stops; [lia|done|by apply class_fact]).
  rewrite E6, track_stuck in Htr by done. subst st. unfold live in Hl. lia.
Qed.

Lemma action_token_short act text : act ≠ 9%nat → act ≠ 10%nat → act ≠ 11%nat → (length text < 256)%nat → ∃ tok, action_token act text = Ok tok.
Proof.
  intros H9 H10 H11 Hl. assert (∀ l, (length l < 256)%nat → str_token l = Ok (tok_str (upto_nul l))) as Hs.
  { intros l H. unfold str_token. by rewrite (proj2 (Nat.leb_gt _ _)). }
  unfold action_token.
  do 12 (destruct act as [|act]; [first [congruence | eexists; reflexivity | rewrite Hs; [eexists; reflexivity|rewrite ?length_take, ?length_drop; lia]]|]).
  eexists. reflexivity.
Qed.

Lemma lex_short fuel : ∀ line t, Forall is_byte t → short_lines t → (length t < fuel)%nat →
  ∃ ret tok line' t', lex fuel line t = Ok (ret, tok, line', t') ∧ short_lines t' ∧ (0 < ret → tok ≠ None).
Proof.
  induction fuel as [|fuel IH]; intros line t Hb Hsl Hn; [lia|]. cbn [lex]. destruct (decide (t = [])) as [->|Hne].
  { do 4 eexists. split; [reflexivity|]. split; [done|lia]. }
  destruct (first_match t Hb Hne) as (st & len & Em & Hlive & _ & Hlen). rewrite Em.
  assert (∃ tok, action_token (accepts st) (take len t) = Ok tok) as [tok Ea].
  { destruct t as [|b t]; [done|]. destruct len as [|len]; [lia|]. set (text := take (S len) (b :: t)).
    destruct (Nat.eqb_spec (accepts st) 9) as [->|H9]; [eexists; reflexivity|]. destruct (Nat.eqb_spec (accepts st) 10) as [->|H10]; [eexists; reflexivity|].
    destruct (Nat.eqb_spec (accepts st) 11) as [->|H11]; [eexists; reflexivity|]. destruct (Nat.eqb_spec (accepts st) 7) as [->|H7]; [by eexists|].
    apply action_token_short; [done..|]. apply (Hsl [] text (drop (S len) (b :: t))); [unfold text; by rewrite app_nil_l, take_drop|]. by eapply match_one_line. }
  rewrite Ea, bind_Ok. cbv zeta. destruct (action_return (accepts st) tok) as [ret|] eqn:Er.
  - do 4 eexists. split; [reflexivity|]. split; [by apply short_lines_drop|]. intros Hr. destruct tok; [done|]. unfold action_return in Er.
    repeat (case_match; simplify_eq/=; try lia).
  - apply IH; [by apply Forall_drop|by apply short_lines_drop|rewrite length_drop; lia].
Qed.

(** C26: The scanner reads the file.  Whatever was in the memory of the buffer, whether the
    file is a terminal that is read line by line or a file that is read in blocks of 8192
    bytes, wherever the buffer cuts a token, and with NUL bytes in the file or not: the
    tokens that [get_next_token] returns are those of the bytes of the file, each the longest
    match of the automaton. *)
Theorem scanner_reads junk f fuel :
  f_error f = false → Forall is_byte (f_rest f) → Z.of_nat (length (f_rest f)) < 2 ^ 28 →
  all_tokens junk fuel (start_conf_read scanner0 (Some f)).2 = text_tokens fuel 1 (f_rest f).
Proof. intros He Hb Hsm. by apply all_tokens_text, start_opened. Qed.

(** C27: The scanner ends.  For every file of bytes with lines of fewer than 256 characters
    the calls of [get_next_token] all return, after at most one call for each byte and one
    more, and no access is outside the buffer or the token. *)
Theorem scanner_ends junk f :
  f_error f = false → Forall is_byte (f_rest f) → Z.of_nat (length (f_rest f)) < 2 ^ 28 → short_lines (f_rest f) →
  ∃ ts, all_tokens junk (S (length (f_rest f))) (start_conf_read scanner0 (Some f)).2 = Ok ts.
Proof.
  intros He Hb Hsm Hsl. rewrite (all_tokens_text junk _ _ (f_rest f) 1) by (by apply start_opened). revert Hsl Hb. clear He Hsm.
  assert (∀ fuel line t, short_lines t → Forall is_byte t → (length t < fuel)%nat → ∃ ts, text_tokens fuel line t = Ok ts) as H; [|intros; by apply H; [..|lia]].
  clear. induction fuel as [|fuel IH]; intros line t Hsl Hb Hf; [lia|]. cbn [text_tokens].
  destruct (lex_short (S (length t)) line t Hb Hsl ltac:(lia)) as (ret & tok & line' & t' & E & Hsl' & Htok). unfold lex_text. rewrite E, bind_Ok.
  destruct (lex_shorter _ _ _ _ _ _ _ Hb E) as (Hb' & _ & Hlt). destruct (Z.leb_spec ret 0); [by eexists|]. destruct tok as [tk|]; [|by destruct Htok].
  destruct (IH line' t' Hsl' Hb' ltac:(lia)) as [ts ->]. by eexists.
Qed.

(** ** Witnesses *)

(** [Block rtsp "a b" { port 8080; } # end] with an octal and a hexadecimal number. *)
Definition w_conf : file :=
  MkFile (lit "Block rtsp " ++ [34] ++ lit "a b" ++ [34] ++ lit " { port 8080 0x1F 017; } # end" ++ [10]) false false.

Lemma scanner_reads_witness :
  all_tokens (λ _, 170) 20 (start_conf_read scanner0 (Some w_conf)).2 =
  Ok [tok_str (lit "Block"); tok_str (lit "rtsp"); tok_str (lit "a b"); tok_char 123; tok_str (lit "port"); tok_num 8080; tok_num 31; tok_num 15;
      tok_char 59; tok_char 125].
Proof.
  rewrite (scanner_reads (λ _, 170) w_conf 20); [vm_compute; reflexivity|done| |done].
  repeat (constructor; [unfold is_byte; cbn; lia|]). constructor.
Defined.

Lemma scanner_ends_witness :
  ∃ ts, all_tokens (λ _, 170) (S (length (f_rest w_conf))) (start_conf_read scanner0 (Some w_conf)).2 = Ok ts.
Proof.
  apply (scanner_ends (λ _, 170) w_conf); [done| |done|].
  - repeat (constructor; [unfold is_byte; cbn; lia|]). constructor.
  - intros u v w E _. apply (f_equal length) in E. rewrite !length_app in E. cbn in E. lia.
Defined.
