(* ===== verification/ConfSpell.v ===== *)
(** * Configuration files as text ([conf_scan.c], [conf_parse.c])

    [spells] says which tokens a text stands for, in the terms of the lexical rules: words,
    quoted strings, decimal, octal and hexadecimal numbers, punctuation, blanks and comments.
    The scanner returns these tokens, and so [read_config_file], which takes them one by one
    from the scanner, does what the directives and blocks of the text say. *)

From Stdlib Require Import String.
From S2P Require Import Prelude CString ConfParse ConfScan ConfText.

Local Open Scope Z_scope.

(** ** Lexical rules *)

Definition isalpha (c : Z) : bool := ((65 <=? c) && (c <=? 90)) || ((97 <=? c) && (c <=? 122)).
Definition isxdigit (c : Z) : bool := isdigit c || ((65 <=? c) && (c <=? 70)) || ((97 <=? c) && (c <=? 102)).

(** Letters and the slash begin a word. *)
Definition starts_word (c : Z) : bool := isalpha c || (c =? 47).

Definition in_word (c : Z) : bool :=
  starts_word c || isdigit c || (c =? 37) || (c =? 43) || (c =? 45) || (c =? 46) || (c =? 58) || (c =? 64) || (c =? 95).

Definition is_blank (c : Z) : bool := (c =? 32) || (c =? 9).

Definition is_punct (c : Z) : bool := (c =? 59) || (c =? 123) || (c =? 125).

(** A word or number ends here. *)
Definition word_ends (t : list Z) : Prop := match t with [] => True | c :: _ => in_word c = false end.

(** [spells e t ts]: the text [t], up to its rest [e], stands for the tokens [ts]. *)
Inductive spells (e : list Z) : list Z → list token → Prop :=
| sp_end : spells e e []
| sp_blank c t ts : is_blank c = true → spells e t ts → spells e (c :: t) ts
| sp_newline t ts : spells e t ts → spells e (10 :: t) ts
| sp_comment s t ts : Forall (λ c, is_byte c ∧ c ≠ 10) s → spells e (10 :: t) ts → spells e (35 :: s ++ 10 :: t) ts
| sp_punct c t ts : is_punct c = true → spells e t ts → spells e (c :: t) (tok_char c :: ts)
| sp_word c s t ts : starts_word c = true → Forall (λ c, in_word c = true) s → (length (c :: s) < 256)%nat → word_ends t →
    spells e t ts → spells e (c :: s ++ t) (tok_str (c :: s) :: ts)
| sp_quoted s t ts : Forall (λ c, text_byte c ∧ c ≠ 34 ∧ c ≠ 10) s → (length s < 256)%nat →
    spells e t ts → spells e (34 :: s ++ 34 :: t) (tok_str s :: ts)
| sp_zero t ts : word_ends t → spells e t ts → spells e (48 :: t) (tok_num 0 :: ts)
| sp_decimal c s t ts : 49 <= c <= 57 → Forall (λ c, isdigit c = true) s → word_ends t →
    spells e t ts → spells e (c :: s ++ t) (tok_num (strtol (c :: s)).1 :: ts)
| sp_octal s t ts : s ≠ [] → Forall (λ c, isdigit c = true) s → word_ends t →
    spells e t ts → spells e (48 :: s ++ t) (tok_num (strtol_base 8 s) :: ts)
| sp_hex s t ts : s ≠ [] → Forall (λ c, isxdigit c = true) s → word_ends t →
    spells e t ts → spells e (48 :: 120 :: s ++ t) (tok_num (strtol_base 16 s) :: ts).

(** ** The automaton on characters *)

Lemma byte_fact (P : Z → bool) b : forallb (λ n, P (Z.of_nat n)) (seq 0 256) = true → is_byte b → P b = true.
Proof.
  intros H Hb. unfold is_byte in Hb. pose proof (proj1 (forallb_forall _ _) H (Z.to_nat b) ltac:(apply in_seq; lia)) as E.
  cbn beta in E. by rewrite Z2Nat.id in E by lia.
Qed.

(** A set of characters on which the automaton goes from [s0] to [s1] and stays there, and
    outside of which it is stuck. *)
Definition loops (P : Z → bool) (s0 s1 : nat) : bool :=
  forallb (λ n, let c := Z.of_nat n in
    if P c then (delta s0 (class c) =? s1)%nat && (delta s1 (class c) =? s1)%nat else true) (seq 0 256).

Definition stuck_outside (P : Z → bool) (st : nat) : bool :=
  forallb (λ n, let c := Z.of_nat n in if P c then true else (delta st (class c) =? 24)%nat) (seq 0 256).

Lemma loops_spec P s0 s1 c : loops P s0 s1 = true → is_byte c → P c = true → delta s0 (class c) = s1 ∧ delta s1 (class c) = s1.
Proof.
  intros H Hb HP. pose proof (byte_fact (λ c, if P c then (delta s0 (class c) =? s1)%nat && (delta s1 (class c) =? s1)%nat else true) c H Hb) as E. cbn beta in E. rewrite HP, andb_true_iff, !Nat.eqb_eq in E. done.
Qed.

Lemma stuck_spec P st c : stuck_outside P st = true → is_byte c → P c = false → delta st (class c) = 24%nat.
Proof. intros H Hb HP. pose proof (byte_fact (λ c, if P c then true else (delta st (class c) =? 24)%nat) c H Hb) as E. cbn beta in E. by rewrite HP, Nat.eqb_eq in E. Qed.

Lemma track_loop P s0 s1 u : loops P s0 s1 = true → Forall is_byte u → Forall (λ c, P c = true) u → ∀ n last,
  (track u s0 n last).1 = match u with [] => s0 | _ => s1 end.
Proof.
  intros Hloop Hb HP. destruct Hb as [|c u Hc Hb]; [done|]. intros n last. cbn [track]. apply Forall_cons in HP as [HPc HP].
  destruct (loops_spec P s0 s1 c Hloop Hc HPc) as [-> _]. generalize (S n), (note s0 n last). clear c Hc HPc n last.
  induction Hb as [|c u Hc Hb IH]; intros n last; [done|]. cbn [track]. apply Forall_cons in HP as [HPc HP].
  destruct (loops_spec P s0 s1 c Hloop Hc HPc) as [_ ->]. by apply IH.
Qed.

(** What follows a text leaves the automaton stuck. *)
Definition stops (st : nat) (t : list Z) : Prop := match t with [] => True | c :: _ => delta st (class c) = 24%nat end.

Lemma rule_match u t st : Forall is_byte u → (track u 1 0 None).1 = st → live st → accepts st ≠ 0%nat → stops st t →
  munch 1 0 None (u ++ t) = Some (st, length u).
Proof.
  intros Hb Htr Hl Ha Hs. rewrite munch_track by (rewrite ?Htr; done). rewrite Htr. cbn [Nat.add]. unfold stops in Hs. 
  destruct t as [|c t]; cbn [munch]; rewrite ?Hs; unfold note; destruct (Nat.eqb_spec (accepts st) 0); done.
Qed.

Lemma word_ends_stops t st : Forall is_byte t → word_ends t → stuck_outside in_word st = true → stops st t.
Proof. intros Hb Hw Hs. destruct t as [|c t]; [done|]. apply Forall_cons in Hb as [Hb _]. by apply (stuck_spec in_word). Qed.

Lemma any_stops t st : Forall is_byte t → stuck_outside (λ _, false) st = true → stops st t.
Proof. intros Hb Hs. destruct t as [|c t]; [done|]. apply Forall_cons in Hb as [Hb _]. by apply (stuck_spec (λ _, false)). Qed.

(** ** The scanner on a spelled text *)

Lemma in_word_byte c : in_word c = true → is_byte c.
Proof. unfold in_word, starts_word, isalpha, isdigit, is_byte. lia. Qed.

Lemma digit_byte c : isdigit c = true → is_byte c.
Proof. unfold isdigit, is_byte. lia. Qed.

Lemma xdigit_byte c : isxdigit c = true → is_byte c.
Proof. unfold isxdigit, isdigit, is_byte. lia. Qed.

Lemma spells_bytes e t ts : Forall is_byte e → spells e t ts → Forall is_byte t.
Proof.
  intros He.
  assert (∀ P s t, (∀ c, P c → is_byte c) → Forall P s → Forall is_byte t → Forall is_byte (s ++ t)) as Happ.
  { intros P s t' HP Hs Ht. apply Forall_app. split; [by eapply Forall_impl|done]. }
  induction 1 as [|c t ts Hc _ IH|t ts _ IH|s t ts Hs _ IH|c t ts Hc _ IH|c s t ts Hc Hs _ _ _ IH|s t ts Hs _ _ IH|t ts _ _ IH|c s t ts Hc Hs _ _ IH|s t ts _ Hs _ _ IH|s t ts _ Hs _ _ IH].
  - done.
  - constructor; [unfold is_blank, is_byte in *; lia|done].
  - by constructor.
  - constructor; [done|]. eapply Happ; [|exact Hs|done]. by intros ? [].
  - constructor; [unfold is_punct, is_byte in *; lia|done].
  - constructor; [apply in_word_byte; unfold in_word; by rewrite Hc|]. by eapply Happ; [apply in_word_byte|..].
  - constructor; [done|]. eapply Happ; [|exact Hs|by constructor]. by intros ? [[] _].
  - by constructor.
  - constructor; [unfold is_byte; lia|]. by eapply Happ; [apply digit_byte|..].
  - constructor; [done|]. by eapply Happ; [apply digit_byte|..].
  - do 2 (constructor; [done|]). by eapply Happ; [apply xdigit_byte|..].
Qed.

(** One rule: the text it matches goes, and its action is done. *)
Lemma lex_text_step u t st line : Forall is_byte (u ++ t) → u ≠ [] → munch 1 0 None (u ++ t) = Some (st, length u) →
  lex_text line (u ++ t) =
  (tok ← action_token (accepts st) u;
   let line := if (accepts st =? 7)%nat then line + 1 else line in
   match action_return (accepts st) tok with Some ret => Ok (ret, tok, line, t) | None => lex_text line t end).
Proof.
  intros Hb Hu Em. unfold lex_text at 1. cbn [lex]. rewrite Em, take_app_length, drop_app_length.
  destruct (action_token (accepts st) u) as [tok| | |]; try done. rewrite !bind_Ok. cbv zeta. destruct (action_return (accepts st) tok); [done|].
  apply lex_fuel; [by apply Forall_app in Hb as [_ ?]|rewrite length_app; destruct u; [done|cbn; lia]|lia].
Qed.

Lemma blank_run t : ∃ bs t', t = bs ++ t' ∧ Forall (λ c, is_blank c = true) bs ∧ match t' with [] => True | c :: _ => is_blank c = false end.
Proof.
  induction t as [|c t (bs & t' & -> & Hbs & Ht')]; [by exists [], []|]. destruct (is_blank c) eqn:E.
  - exists (c :: bs), t'. split_and!; [done|by constructor|done].
  - exists [], (c :: bs ++ t'). by split_and!.
Qed.

Lemma lex_run bs t line : Forall is_byte (bs ++ t) → bs ≠ [] → Forall (λ c, is_blank c = true) bs → match t with [] => True | c :: _ => is_blank c = false end →
  lex_text line (bs ++ t) = lex_text line t.
Proof.
  intros Hb Hne Hbs Ht. destruct bs as [|c bs]; [done|]. apply Forall_cons in Hbs as [Hc Hbs].
  assert (delta 1 (class c) = 5%nat) as E1 by (unfold is_blank in Hc; assert (c = 32 ∨ c = 9) as [->| ->] by lia; done).
  pose proof Hb as [Hbb Hbt]%Forall_app. pose proof Hbb as [_ Hbbs]%Forall_cons.
  set (st := match bs with [] => 5%nat | _ => 15%nat end).
  assert ((track (c :: bs) 1 0 None).1 = st) as Htr by (cbn [track]; rewrite E1; by apply (track_loop is_blank 5 15)).
  assert (stops st t) as Hs by (destruct t as [|c' t]; [done|]; apply (stuck_spec is_blank); [unfold st; by destruct bs|by apply Forall_cons in Hbt as [? _]|done]).
  rewrite (lex_text_step (c :: bs) t st) by (done || (apply rule_match; try done; unfold live, st; destruct bs; lia || done)). unfold st. by destruct bs.
Qed.

Lemma lex_blank c t line : Forall is_byte (c :: t) → is_blank c = true → lex_text line (c :: t) = lex_text line t.
Proof.
  intros Hb Hc. destruct (blank_run t) as (bs & t' & -> & Hbs & Ht'). rewrite app_comm_cons, lex_run by (done || by constructor).
  destruct bs as [|b bs]; [done|]. rewrite lex_run by (done || by apply Forall_cons in Hb as [_ ?]). done.
Qed.

(** The token that a rule makes. *)
Lemma lex_token u t st line tk : Forall is_byte (u ++ t) → u ≠ [] → (track u 1 0 None).1 = st → live st → accepts st ≠ 0%nat → stops st t →
  action_token (accepts st) u = Ok (Some tk) → (accepts st <= 5 ∨ 9 <= accepts st <= 11)%nat → lex_text line (u ++ t) = Ok (t_type tk, Some tk, line, t).
Proof.
  intros Hb Hu Htr Hl Ha Hs Et Hr. pose proof Hb as [Hbu _]%Forall_app. rewrite (lex_text_step u t st) by (done || by apply rule_match).
  rewrite Et, bind_Ok. cbv zeta. destruct (Nat.eqb_spec (accepts st) 7) as [E7|_]; [lia|].
  assert (action_return (accepts st) (Some tk) = Some (t_type tk)) as ->; [|done]. unfold action_return.
  destruct (accepts st) as [|[|[|[|[|[|[|[|[|[|[|[|[|[|[|[|]]]]]]]]]]]]]]]]; done || lia.
Qed.

Lemma str_token_fits s : (length s < 256)%nat → no_nul s → str_token s = Ok (tok_str s).
Proof. intros Hl Hn. unfold str_token. rewrite (proj2 (Nat.leb_gt _ _)) by done. by rewrite upto_nul_id. Qed.

Lemma no_nul_of P s : (∀ c, P c → c ≠ 0) → Forall P s → no_nul s.
Proof. intros HP Hs. by eapply Forall_impl. Qed.

Lemma in_word_not_nul c : in_word c = true → c ≠ 0.
Proof. by intros H ->. Qed.

Lemma digit_not_nul c : isdigit c = true → c ≠ 0.
Proof. by intros H ->. Qed.

Lemma lex_word c s t line : starts_word c = true → Forall (λ c, in_word c = true) s → (length (c :: s) < 256)%nat → word_ends t → Forall is_byte (c :: s ++ t) →
  lex_text line (c :: s ++ t) = Ok (TOKEN_STR, Some (tok_str (c :: s)), line, t).
Proof.
  intros Hc Hs Hl Ht Hb. assert (in_word c = true) as Hw by (unfold in_word; by rewrite Hc).
  assert (delta 1 (class c) = 9%nat) as E1.
  { pose proof (byte_fact (λ c, negb (starts_word c) || (delta 1 (class c) =? 9)%nat) c eq_refl (in_word_byte c Hw)) as H. cbn beta in H.
    rewrite Hc in H. by apply Nat.eqb_eq in H. }
  rewrite app_comm_cons in *. pose proof Hb as [Hbu Hbt]%Forall_app. pose proof Hbu as [_ Hbs]%Forall_cons.
  assert ((track (c :: s) 1 0 None).1 = match s with [] => 9%nat | _ => 19%nat end) as Htr by (cbn [track]; rewrite E1; by apply (track_loop in_word 9 19)).
  apply (lex_token _ _ _ _ (tok_str (c :: s)) Hb ltac:(done) Htr).
  - destruct s; unfold live; lia.
  - by destruct s.
  - apply word_ends_stops; [done..|]. by destruct s.
  - assert (action_token 4 (c :: s) = Ok (Some (tok_str (c :: s)))) as E; [|by destruct s].
    cbn [action_token]. rewrite str_token_fits; [done|done|]. constructor; [by apply in_word_not_nul|]. by eapply no_nul_of; [apply in_word_not_nul|].
  - destruct s; cbn; lia.
Qed.

Lemma lex_quoted s t line : Forall (λ c, text_byte c ∧ c ≠ 34 ∧ c ≠ 10) s → (length s < 256)%nat → Forall is_byte (34 :: s ++ 34 :: t) →
  lex_text line (34 :: s ++ 34 :: t) = Ok (TOKEN_STR, Some (tok_str s), line, t).
Proof.
  intros Hs Hl Hb. replace (34 :: s ++ 34 :: t) with ((34 :: s ++ [34]) ++ t) in * by (cbn; by rewrite <- app_assoc). pose proof Hb as [Hbu Hbt]%Forall_app.
  assert ((track (34 :: s ++ [34]) 1 0 None).1 = 17%nat) as Htr.
  { cbn [track]. change (delta 1 (class 34)) with 7%nat. rewrite track_app.
    assert (∀ n l, (track s 7 n l).1 = match s with [] => 7%nat | _ => 16%nat end) as E; [|cbn [track fst]; rewrite E; by destruct s].
    intros n l. apply (track_loop (λ c, negb (c =? 34) && negb (c =? 10))); [done|by apply Forall_cons in Hbu as [_ [? _]%Forall_app]|].
    eapply Forall_impl; [exact Hs|]. intros c (_ & ? & ?). cbn beta. lia. }
  apply (lex_token _ _ 17 _ (tok_str s) Hb ltac:(done) Htr); [unfold live; lia|done|by apply any_stops| |cbn; lia].
  change (accepts 17) with 5%nat. cbn [action_token]. cbn [length]. rewrite length_app. cbn [length]. replace (S (length s + 1) - 2)%nat with (length s) by lia.
  change (drop 1 (34 :: s ++ [34])) with (s ++ [34]). rewrite take_app_length, str_token_fits; [done|done|]. eapply no_nul_of; [|exact Hs]. by intros ? [[] _].
Qed.

Lemma lex_number u t st line n : Forall is_byte (u ++ t) → u ≠ [] → (track u 1 0 None).1 = st → live st → (0 < accepts st <= 3)%nat →
  stuck_outside in_word st = true → word_ends t → action_token (accepts st) u = Ok (Some (tok_num n)) →
  lex_text line (u ++ t) = Ok (TOKEN_NUM, Some (tok_num n), line, t).
Proof.
  intros Hb Hu Htr Hl Ha Hst Hw Et. pose proof Hb as [_ Hbt]%Forall_app.
  apply (lex_token u t st line (tok_num n)); try done; [lia|by apply word_ends_stops|lia].
Qed.

Lemma lex_decimal c s t line : 49 <= c <= 57 → Forall (λ c, isdigit c = true) s → word_ends t → Forall is_byte (c :: s ++ t) →
  lex_text line (c :: s ++ t) = Ok (TOKEN_NUM, Some (tok_num (strtol (c :: s)).1), line, t).
Proof.
  intros Hc Hs Ht Hb. rewrite app_comm_cons in *. pose proof Hb as [Hbu _]%Forall_app. pose proof Hbu as [Hbc Hbs]%Forall_cons.
  assert (delta 1 (class c) = 11%nat) as E1.
  { pose proof (byte_fact (λ c, negb ((49 <=? c) && (c <=? 57)) || (delta 1 (class c) =? 11)%nat) c eq_refl Hbc) as H. cbn beta in H.
    replace ((49 <=? c) && (c <=? 57)) with true in H by lia. by apply Nat.eqb_eq in H. }
  assert ((track (c :: s) 1 0 None).1 = match s with [] => 11%nat | _ => 22%nat end) as Htr by (cbn [track]; rewrite E1; by apply (track_loop isdigit 11 22)).
  apply (lex_number _ _ _ _ _ Hb ltac:(done) Htr); [destruct s; unfold live; lia|destruct s; cbn; lia|by destruct s|done|].
  assert (action_token 3 (c :: s) = Ok (Some (tok_num (strtol (c :: s)).1))) as E; [|by destruct s]. cbn [action_token]. rewrite upto_nul_id; [done|].
  constructor; [lia|]. by eapply no_nul_of; [apply digit_not_nul|].
Qed.

Lemma lex_octal s t line : s ≠ [] → Forall (λ c, isdigit c = true) s → word_ends t → Forall is_byte (48 :: s ++ t) →
  lex_text line (48 :: s ++ t) = Ok (TOKEN_NUM, Some (tok_num (strtol_base 8 s)), line, t).
Proof.
  intros Hne Hs Ht Hb. rewrite app_comm_cons in *. pose proof Hb as [[_ Hbs]%Forall_cons _]%Forall_app.
  assert ((track (48 :: s) 1 0 None).1 = 20%nat) as Htr.
  { cbn [track]. change (delta 1 (class 48)) with 10%nat. rewrite (track_loop isdigit 10 20) by done. by destruct s. }
  apply (lex_number _ _ _ _ _ Hb ltac:(done) Htr); [unfold live; lia|cbn; lia|done|done|].
  change (accepts 20) with 1%nat. cbn [action_token drop]. rewrite upto_nul_id; [done|]. by eapply no_nul_of; [apply digit_not_nul|].
Qed.

Lemma lex_hex s t line : s ≠ [] → Forall (λ c, isxdigit c = true) s → word_ends t → Forall is_byte (48 :: 120 :: s ++ t) →
  lex_text line (48 :: 120 :: s ++ t) = Ok (TOKEN_NUM, Some (tok_num (strtol_base 16 s)), line, t).
Proof.
  intros Hne Hs Ht Hb. change (48 :: 120 :: s ++ t) with ((48 :: 120 :: s) ++ t) in *. pose proof Hb as [[_ [_ Hbs]%Forall_cons]%Forall_cons _]%Forall_app.
  assert ((track (48 :: 120 :: s) 1 0 None).1 = 23%nat) as Htr.
  { cbn [track]. change (delta 1 (class 48)) with 10%nat. change (delta 10 (class 120)) with 21%nat. rewrite (track_loop isxdigit 21 23) by done. by destruct s. }
  apply (lex_number _ _ _ _ _ Hb ltac:(done) Htr); [unfold live; lia|cbn; lia|done|done|].
  change (accepts 23) with 2%nat. cbn [action_token drop]. rewrite upto_nul_id; [done|]. eapply no_nul_of; [|exact Hs]. by intros c H ->.
Qed.

(** The first token of a spelled text. *)
Lemma spells_lex e t ts : Forall is_byte e → spells e t ts → ∀ line, ∃ line' t',
  match ts with
  | [] => lex_text line t = lex_text line' e
  | tk :: ts' => lex_text line t = Ok (t_type tk, Some tk, line', t') ∧ 0 < t_type tk ∧ spells e t' ts'
  end.
Proof.
  intros He H. pose proof (spells_bytes _ _ _ He H) as Hb. revert Hb.
  induction H as [|c t ts Hc H IH|t ts H IH|s t ts Hs H IH|c t ts Hc H IH|c s t ts Hc Hs Hl Hw H IH|s t ts Hs Hl H IH|t ts Hw H IH|c s t ts Hc Hs Hw H IH|s t ts Hne Hs Hw H IH|s t ts Hne Hs Hw H IH];
    intros Hb line.
  - by exists line, [].
  - rewrite lex_blank by done. apply IH. by apply Forall_cons in Hb as [_ ?].
  - pose proof Hb as [_ Hbt]%Forall_cons. change (10 :: t) with ([10] ++ t). rewrite (lex_text_step [10] t 6); [apply (IH Hbt)|done|done|].
    apply rule_match; try done; [by repeat constructor|unfold live; lia|by apply any_stops].
  - change (35 :: s ++ 10 :: t) with ((35 :: s) ++ 10 :: t) in *. pose proof Hb as [Hbu Hbt]%Forall_app. pose proof Hbu as [_ Hbs]%Forall_cons.
    set (st := match s with [] => 8%nat | _ => 18%nat end).
    assert ((track (35 :: s) 1 0 None).1 = st) as Htr.
    { cbn [track]. change (delta 1 (class 35)) with 8%nat. apply (track_loop (λ c, negb (c =? 10)) 8 18); [done|done|].
      eapply Forall_impl; [exact Hs|]. intros c [_ ?]. cbn beta. lia. }
    rewrite (lex_text_step (35 :: s) (10 :: t) st); [|done|done|apply rule_match; try done; unfold st; destruct s; (done || (unfold live; lia))].
    replace (accepts st) with 8%nat by (unfold st; by destruct s). apply (IH Hbt).
  - assert (is_punct c = true → c = 59 ∨ c = 123 ∨ c = 125) as Hc' by (unfold is_punct; lia). pose proof Hb as [_ Hbt]%Forall_cons.
    exists line, t. change (c :: t) with ([c] ++ t) in *. split; [|split; [cbn; destruct (Hc' Hc) as [->|[->| ->]]; lia|done]].
    destruct (Hc' Hc) as [->|[->| ->]]; [apply (lex_token _ _ 12 _ (tok_char 59) Hb)|apply (lex_token _ _ 13 _ (tok_char 123) Hb)|apply (lex_token _ _ 14 _ (tok_char 125) Hb)];
      try done; try (unfold live; lia); try (by apply any_stops); cbn; lia.
  - exists line, t. by rewrite lex_word.
  - exists line, t. by rewrite lex_quoted.
  - exists line, t. split; [|done]. change (48 :: t) with ([48] ++ t) in *. apply (lex_number _ _ 10 _ 0 Hb); [done|done|unfold live; lia|cbn; lia|done..].
  - exists line, t. by rewrite lex_decimal.
  - exists line, t. by rewrite lex_octal.
  - exists line, t. by rewrite lex_hex.
Qed.

(** ** Reading a configuration file *)

Section read.
Context {S : Type} (junk : nat → Z).

(** The loop of [read_config_file] over the tokens of the scanner. *)
Fixpoint token_loop (fuel : nat) (ccs : list (@config_context S)) (r : reader) (s : scanner) (st : S) : outcome (bool * S) :=
  match fuel with
  | O => Diverge
  | Datatypes.S fuel =>
      '(ret, tok, _, s) ← get_next_token junk s;
      if ret <=? 0 then Ok (true, st) else
      match tok with
      | None => Undef
      | Some tok =>
          '(r, st) ← take_token ccs r tok st;
          match r with Some r => token_loop fuel ccs r s st | None => Ok (false, st) end
      end
  end.

(** [fopen] is the argument; [t] the uninitialised array of tokens. *)
Definition read_config_text (ccs : list (@config_context S)) (t : list token) (s : scanner) (f : option file) (st : S) : outcome (bool * S) :=
  let '(ret, s) := start_conf_read s f in
  if ret <? 0 then Ok (false, st) else
  token_loop (2 + match f with Some f => length (f_rest f) | None => 0 end) ccs (MkReader t 0 0 None) s st.

(** Where the tokens end: at the end of the file, or at a character that no rule takes. *)
Definition illegal (c : Z) : bool :=
  negb (is_blank c || (c =? 10) || (c =? 34) || (c =? 35) || starts_word c || isdigit c || is_punct c).

Definition ends_here (e : list Z) : Prop := match e with [] => True | c :: _ => illegal c = true end.

Lemma lex_ends e line : Forall is_byte e → ends_here e → ∃ ret line' t', lex_text line e = Ok (ret, None, line', t') ∧ ret <= 0.
Proof.
  intros Hb He. destruct e as [|c e]; [by exists 0, line, []|]. pose proof Hb as [Hc Hbe]%Forall_cons. cbn in He.
  exists (-1), line, e. split; [|lia]. pose proof (byte_fact (λ c, negb (illegal c) || (delta 1 (class c) =? 4)%nat) c eq_refl Hc) as H. cbn beta in H.
  rewrite He in H. apply Nat.eqb_eq in H. change (c :: e) with ([c] ++ e) in *. rewrite (lex_text_step [c] e 4); [done|done|done|].
  apply rule_match; [by constructor|by cbn|unfold live; lia|done|by apply any_stops].
Qed.

Lemma token_loop_spells ccs e : Forall is_byte e → ends_here e → ∀ fuel t ts s line r st, ready s t line → spells e t ts → (length t < fuel)%nat →
  token_loop fuel ccs r s st = read_tokens ccs r ts st.
Proof.
  intros He Hend. induction fuel as [|fuel IH]; intros t ts s line r st Hr Hsp Hf; [lia|]. cbn [token_loop]. unfold get_next_token.
  pose proof (spells_bytes _ _ _ He Hsp) as Hb. destruct (spells_lex e t ts He Hsp line) as (line' & t' & H). pose proof (yylex_ready junk s t line Hr) as Hy. destruct ts as [|tk ts].
  - destruct (lex_ends e line' He Hend) as (ret & line2 & t2 & E & Hret). rewrite H, E in Hy. destruct Hy as (s' & -> & _). rewrite !bind_Ok.
    by rewrite (proj2 (Z.leb_le ret 0)).
  - destruct H as (E & Hpos & Hsp'). rewrite E in Hy. destruct Hy as (s' & -> & Hr' & _). rewrite !bind_Ok, (proj2 (Z.leb_gt _ 0)) by done. cbn [read_tokens].
    destruct (take_token ccs r tk st) as [[[r'|] st']| | |]; try done. rewrite !bind_Ok. apply (IH t' ts s' line'); try done.
    destruct (lex_shorter _ _ _ _ _ _ _ Hb E) as (_ & _ & Hlt). lia.
Qed.

(** C25: A configuration file does what its text says.  For any contexts, whatever was in the
    memory of the buffer and of the token array, and however the file is read: if the text of
    the file spells a sequence of directives and blocks, reading it runs each directive in
    the context of its block, in the order of the text, up to the first that is not accepted;
    the scanner and the parser add nothing to it and leave nothing out.  A character that no
    rule of the scanner takes ends the file there. *)
Theorem config_text_runs ccs t f e file st :
  f_error f = false → Forall is_byte e → Z.of_nat (length (f_rest f)) < 2 ^ 28 → ends_here e → spells e (f_rest f) (concat (map render file)) →
  Forall wf_item file → length t = 10%nat → (0 < length ccs)%nat →
  read_config_text ccs t scanner0 (Some f) st = exec_file ccs file st.
Proof.
  intros Herr He Hsm Hend Hsp Hf Ht Hc. pose proof (spells_bytes _ _ _ He Hsp) as Hb. unfold read_config_text.
  pose proof (start_opened f Herr Hb Hsm) as Ho. destruct (start_conf_read scanner0 (Some f)) as [ret s] eqn:Es.
  assert (ret = 0) as -> by (by injection Es as <- _). cbn [Z.ltb Z.compare snd] in *.
  rewrite (token_loop_spells ccs e He Hend _ (f_rest f) _ _ 1 _ _ Ho Hsp) by lia. by apply read_file.
Qed.
End read.

(** ** Witness *)

(** [add 3; # sum], then [step "up" { double; DOUBLE; }], [add 05;] and a carriage return,
    which no rule takes, before the rest of the file. *)
Definition w_rest : list Z := 13 :: 10 :: lit "add 7;".
Definition w_text : list Z :=
  97 :: lit "dd" ++ 32 :: 51 :: [] ++ 59 :: 32 :: 35 :: lit " sum" ++ 10 :: 115 :: lit "tep" ++ 32 :: 34 :: lit "up" ++ 34 :: 32 :: 123 :: 32 ::
  100 :: lit "ouble" ++ 59 :: 9 :: 68 :: lit "OUBLE" ++ 59 :: 125 :: 97 :: lit "dd" ++ 32 :: 48 :: [53] ++ 59 :: w_rest.

Lemma w_text_spells : spells w_rest w_text (concat (map render demo_conf)).
Proof.
  unfold w_text. change (concat (map render demo_conf)) with
    [tok_str (97 :: lit "dd"); tok_num (strtol [51]).1; tok_char 59; tok_str (115 :: lit "tep"); tok_str (lit "up"); tok_char 123;
     tok_str (100 :: lit "ouble"); tok_char 59; tok_str (68 :: lit "OUBLE"); tok_char 59; tok_char 125;
     tok_str (97 :: lit "dd"); tok_num (strtol_base 8 [53]); tok_char 59].
  repeat first
    [ apply sp_end
    | apply sp_blank; [reflexivity|]
    | apply sp_comment; [by repeat constructor|]
    | apply sp_newline
    | apply sp_punct; [reflexivity|]
    | apply sp_word; [reflexivity|by repeat constructor|cbn; lia|reflexivity|]
    | apply sp_quoted; [by repeat constructor|cbn; lia|]
    | apply sp_decimal; [lia|by repeat constructor|reflexivity|]
    | apply sp_octal; [done|by repeat constructor|reflexivity|] ].
Qed.

Lemma config_text_runs_witness :
  read_config_text (λ _, 170) demo_contexts demo_junk scanner0 (Some (MkFile w_text false false)) 0 = Ok (true, 66).
Proof.
  rewrite (config_text_runs (λ _, 170) demo_contexts demo_junk (MkFile w_text false false) w_rest demo_conf 0); [by vm_compute|done| |done|done|apply w_text_spells| |done|cbn; lia].
  - by repeat constructor.
  - assert (∀ s, word (tok_str s)) by (intros s; right; by eexists). assert (∀ n, word (tok_num n)) by (intros n; left; by eexists).
    unfold demo_conf. rewrite !Forall_cons. unfold wf_item, wf_words. rewrite !Forall_cons. cbn. by split_and!; try lia.
Defined.
