(* ===== verification/Log.v ===== *)
(** * The log ([log.c], [access_log.c])

    [spook_log] keeps the most recent lines of the log in a ring of 4096 bytes, from which
    [send_log_buffer] writes them out; the access log is a file with one line for each
    request.  The expansion of a format with its arguments ([vsnprintf]), the clock and
    the time zone are parameters. *)

From Stdlib Require Import String.
From S2P Require Import Prelude CString ConfParse.

Local Open Scope Z_scope.

(** ** The ring *)

Definition LOG_BUFFER_SIZE : Z := 4096.

Record log_state := MkLog {
  minlevel : Z;
  spookpid : Z;
  rb_data : list Z;
  rb_in : nat;
  rb_out : nat;
  rb_size : nat }.

Definition month : list (list Z) :=
  [lit "Jan"; lit "Feb"; lit "Mar"; lit "Apr"; lit "May"; lit "Jun"; lit "Jul"; lit "Aug"; lit "Sep"; lit "Oct"; lit "Nov"; lit "Dec"].

(** [junk] is what [malloc] returns, [pid] what [getpid] returns. *)
Definition spook_log_init (junk : nat → Z) (pid min : Z) : log_state :=
  MkLog min pid (map junk (seq 0 (Z.to_nat LOG_BUFFER_SIZE))) 0 0 (Z.to_nat LOG_BUFFER_SIZE).

(** The fields of [localtime_r] that are printed. *)
Record log_time := MkLogTime { tm_mon : nat; tm_mday : Z; tm_hour : Z; tm_min : Z; tm_sec : Z }.

(** [%2d] and [%02d]. *)
Definition pad (c : Z) (s : list Z) : list Z := replicate (2 - length s) c ++ s.

(** [newfmt[512]]. *)
Definition log_format (s : log_state) (tm : log_time) (fmt : list Z) : outcome (list Z) :=
  m ← rd month (tm_mon tm);
  let f := m ++ [32] ++ pad 32 (dec (tm_mday tm)) ++ [32] ++ pad 48 (dec (tm_hour tm)) ++ [58] ++ pad 48 (dec (tm_min tm)) ++ [58] ++
           pad 48 (dec (tm_sec tm)) ++ lit " spook[" ++ dec (spookpid s) ++ lit "]: " ++ fmt ++ [10] in
  if (512 <=? length f)%nat then Undef else Ok f.

Definition next_rb (s : log_state) (i : nat) : nat := if (S i =? rb_size s)%nat then 0%nat else S i.

(** The loop that stores the line: [overwrite] in the result. *)
Fixpoint store_line (s : log_state) (l : list Z) (overwrite : bool) : outcome (log_state * bool) :=
  match l with
  | [] => Ok (s, overwrite)
  | c :: l =>
      d ← wr (rb_data s) (rb_in s) c;
      let i := next_rb s (rb_in s) in
      store_line (MkLog (minlevel s) (spookpid s) d i (rb_out s) (rb_size s)) l (if (i =? rb_out s)%nat then true else overwrite)
  end.

(** [while (rb_data[rb_out] != '\n')], and one more. *)
Fixpoint skip_line (fuel : nat) (s : log_state) (out : nat) : outcome nat :=
  match fuel with
  | O => Diverge
  | S fuel => c ← rd (rb_data s) out; if c =? 10 then Ok (next_rb s out) else skip_line fuel s (next_rb s out)
  end.

(** The bytes of [line[1024]] that the loop reads: of a longer text there are 1023, the
    terminator, and then bytes outside the array. *)
Definition line_bytes (text : list Z) : outcome (list Z) :=
  if (length text <? 1024)%nat then Ok text
  else if (length text =? 1024)%nat then Ok (take 1023 text ++ [0])
  else Undef.

(** What [send_log_buffer] later sees; [text] is the whole expansion of the format. *)
Definition log_text (s : log_state) (text : list Z) : outcome log_state :=
  l ← line_bytes text;
  '(s, overwrite) ← store_line s l false;
  if (overwrite : bool) then
    out ← skip_line (S (rb_size s)) s (rb_in s);
    Ok (MkLog (minlevel s) (spookpid s) (rb_data s) (rb_in s) out (rb_size s))
  else Ok s.

(** [expand] are [vsnprintf] and the arguments. *)
Definition spook_log (s : log_state) (level : Z) (fmt : list Z) (tm : log_time) (expand : list Z → list Z) : outcome log_state :=
  if level <? minlevel s then Ok s else
  f ← log_format s tm fmt;
  log_text s (expand f).

(** The bytes that are written to [fd], when [write] takes them all. *)
Definition send_log_buffer (s : log_state) : list Z :=
  if (rb_in s <? rb_out s)%nat then drop (rb_out s) (rb_data s) ++ take (rb_in s) (rb_data s)
  else if (rb_out s <? rb_in s)%nat then take (rb_in s - rb_out s) (drop (rb_out s) (rb_data s))
  else [].

(** ** The access log *)

(** [log_fd]: what the file holds, [None] while there is none. *)
Definition access_log : Type := option (list Z).

(** The request up to the end of its line. *)
Fixpoint req_line (req : list Z) : list Z :=
  match req with [] => [] | c :: req => if (c =? 13) || (c =? 10) then [] else c :: req_line req end.

Definition or_dash (s : option (list Z)) : list Z := match s with Some (c :: s) => c :: s | _ => [45] end.

(** [addr] is the text of [inet_ntoa], [now] that of [strftime] with its quote; each has to
    fit in [s[128]]. *)
Definition write_access_log (log : access_log) (addr now : list Z) (code : Z) (req : list Z) (length : Z) (referer user_agent : option (list Z)) : outcome access_log :=
  match log with
  | None => Ok None
  | Some text =>
      if (128 <=? List.length addr)%nat then Undef else
      let result := [34; 32] ++ dec code ++ [32] ++ dec length ++ [32; 34] in
      if (128 <=? List.length result)%nat then Undef else
      Ok (Some (text ++ addr ++ now ++ req_line req ++ result ++ or_dash referer ++ [34; 32; 34] ++ or_dash user_agent ++ [34; 10]))
  end.

(** [open] is the argument: what the file holds when it could be opened to append. *)
Definition set_file (log : access_log) (t : list token) (open : list Z → option (list Z)) : outcome (Z * access_log) :=
  match log with
  | Some _ => Ok (-1, log)
  | None =>
      t1 ← rd t 1;
      name ← v_str t1;
      match open name with None => Ok (-1, None) | Some text => Ok (0, Some text) end
  end.

(** ** What the ring holds *)

(** The bytes of the ring in the order of their age, the oldest first. *)
Definition by_age (s : log_state) : list Z := drop (rb_in s) (rb_data s) ++ take (rb_in s) (rb_data s).

Record wf_log (s : log_state) : Prop := WfLog {
  wf_data : length (rb_data s) = rb_size s;
  wf_in : (rb_in s < rb_size s)%nat;
  wf_out : (rb_out s < rb_size s)%nat }.

(** The number of bytes between [rb_out] and [rb_in]. *)
Definition held (s : log_state) : nat := (if rb_out s <=? rb_in s then rb_in s - rb_out s else rb_in s + rb_size s - rb_out s)%nat.

Lemma held_lt s : wf_log s → (held s < rb_size s)%nat.
Proof. intros [_ Hi Ho]. unfold held. destruct (Nat.leb_spec (rb_out s) (rb_in s)); lia. Qed.

Lemma length_by_age s : wf_log s → length (by_age s) = rb_size s.
Proof. intros [Hd Hi _]. unfold by_age. rewrite length_app, length_drop, length_take. lia. Qed.

(** They are the youngest ones. *)
Lemma sent_by_age s : wf_log s → send_log_buffer s = drop (rb_size s - held s) (by_age s) ∧ length (send_log_buffer s) = held s.
Proof.
  intros [Hd Hi Ho]. unfold send_log_buffer, held, by_age. assert (length (drop (rb_in s) (rb_data s)) = rb_size s - rb_in s)%nat as Hl by (rewrite length_drop; lia).
  destruct (Nat.ltb_spec (rb_in s) (rb_out s)) as [H|H].
  - rewrite (proj2 (Nat.leb_gt _ _)) by lia. split; [|rewrite length_app, length_drop, length_take; lia].
    rewrite drop_app_le, drop_drop by lia. f_equal. f_equal. lia.
  - rewrite (proj2 (Nat.leb_le _ _)) by lia. rewrite drop_app_ge, Hl by lia.
    replace (rb_size s - (rb_in s - rb_out s) - (rb_size s - rb_in s))%nat with (rb_out s) by lia. rewrite skipn_firstn_comm.
    destruct (Nat.ltb_spec (rb_out s) (rb_in s)) as [H2|H2]; [split; [done|rewrite length_take, length_drop; lia]|].
    replace (rb_in s - rb_out s)%nat with 0%nat by lia. by rewrite take_0.
Qed.

(** Storing a byte drops the oldest. *)
Lemma store_byte s c d : wf_log s → wr (rb_data s) (rb_in s) c = Ok d → let s' := MkLog (minlevel s) (spookpid s) d (next_rb s (rb_in s)) (rb_out s) (rb_size s) in
  wf_log s' ∧ by_age s' = drop 1 (by_age s) ++ [c] ∧
  (if (next_rb s (rb_in s) =? rb_out s)%nat then held s' = 0%nat ∧ S (held s) = rb_size s else held s' = S (held s)) ∧ (held s < rb_size s)%nat.
Proof.
  intros [Hd Hi Ho] E. rewrite wr_Ok in E by lia. injection E as <-. unfold next_rb. cbv zeta. split_and!.
  - constructor; cbn [rb_data rb_in rb_out rb_size]; rewrite ?length_insert; [done| |done]. destruct (Nat.eqb_spec (S (rb_in s)) (rb_size s)); lia.
  - unfold by_age. cbn [rb_data rb_in]. destruct (lookup_lt_is_Some_2 (rb_data s) (rb_in s) ltac:(lia)) as [x Ex].
    rewrite (drop_S (rb_data s) x (rb_in s)) by done. cbn [app]. change (drop 1 (x :: ?l)) with l. destruct (Nat.eqb_spec (S (rb_in s)) (rb_size s)) as [En|En].
    + rewrite take_0, app_nil_r, drop_0. rewrite (drop_ge (rb_data s)) by lia. cbn [app].
      rewrite <- (take_drop (rb_in s) (<[rb_in s := c]> (rb_data s))). rewrite take_insert_ge by lia. f_equal.
      rewrite (drop_S _ c (rb_in s)) by (apply list_lookup_insert_eq; lia). f_equal. apply drop_ge. rewrite length_insert. lia.
    + rewrite drop_insert_lt by lia. rewrite (take_S_r _ _ c) by (apply list_lookup_insert_eq; lia). rewrite take_insert_ge by lia. by rewrite app_assoc.
  - unfold held. cbn [rb_in rb_out rb_size]. repeat case_match; rewrite ?Nat.eqb_eq, ?Nat.eqb_neq, ?Nat.leb_le, ?Nat.leb_gt in *; lia.
  - by apply held_lt.
Qed.

(** Storing a line. *)
Lemma store_line_spec l : ∀ s ow, wf_log s → ∃ s', store_line s l ow = Ok (s', ow || (rb_size s <=? held s + length l)%nat) ∧ wf_log s' ∧
  by_age s' = drop (length l) (by_age s ++ l) ∧ rb_size s' = rb_size s ∧ (held s + length l < rb_size s → held s' = held s + length l)%nat ∧
  minlevel s' = minlevel s ∧ spookpid s' = spookpid s.
Proof.
  induction l as [|c l IH]; intros s ow Hw.
  - exists s. cbn [store_line length]. rewrite Nat.add_0_r, app_nil_r, drop_0.
    pose proof (held_lt s Hw) as Hh.
    rewrite (proj2 (Nat.leb_gt _ _)), orb_false_r by lia. by split_and!.
  - cbn [store_line]. destruct (wr (rb_data s) (rb_in s) c) as [d| | |] eqn:E; [|destruct Hw; rewrite wr_Ok in E by lia; done..]. rewrite bind_Ok. cbv zeta.
    destruct (store_byte s c d Hw E) as (Hw' & Hage & Hheld & Hlt). set (s1 := MkLog _ _ d _ _ _) in *.
    destruct (IH s1 (if (next_rb s (rb_in s) =? rb_out s)%nat then true else ow) Hw') as (s' & -> & Hws & Hag & Hsz & Hhe & Hm & Hp). exists s'.
    change (rb_size s1) with (rb_size s) in *. split_and!; try done.
    + f_equal. f_equal. destruct (next_rb s (rb_in s) =? rb_out s)%nat.
      * cbn [orb length]. rewrite (proj2 (Nat.leb_le _ _)) by lia. by rewrite orb_true_r.
      * rewrite Hheld. cbn [length]. f_equal. f_equal. lia.
    + rewrite Hag, Hage, <- app_assoc. cbn [app length]. rewrite !drop_app, length_drop, drop_drop. f_equal. f_equal. rewrite length_by_age by done. destruct Hw. lia.
    + cbn [length]. intros H. destruct (next_rb s (rb_in s) =? rb_out s)%nat; [lia|]. rewrite Hhe by lia. lia.
Qed.

(** The index of the [j]-th byte by age. *)
Definition nth_rb (s : log_state) (j : nat) : nat := (if rb_in s + j <? rb_size s then rb_in s + j else rb_in s + j - rb_size s)%nat.

Lemma by_age_lookup s j : wf_log s → (j < rb_size s)%nat → by_age s !! j = rb_data s !! nth_rb s j.
Proof.
  intros [Hd Hi _] Hj. unfold by_age, nth_rb. assert (length (drop (rb_in s) (rb_data s)) = rb_size s - rb_in s)%nat as Hl by (rewrite length_drop; lia).
  destruct (Nat.ltb_spec (rb_in s + j) (rb_size s)); [by rewrite lookup_app_l, lookup_drop by lia|].
  rewrite lookup_app_r, Hl, lookup_take_lt by lia. f_equal. lia.
Qed.

Lemma next_nth_rb s j : wf_log s → (j < rb_size s)%nat → next_rb s (nth_rb s j) = nth_rb s (S j).
Proof.
  intros [_ Hi _] Hj. unfold next_rb, nth_rb. destruct (Nat.ltb_spec (rb_in s + j) (rb_size s)), (Nat.ltb_spec (rb_in s + S j) (rb_size s));
    destruct (Nat.eqb_spec (S (rb_in s + j)) (rb_size s)); destruct (Nat.eqb_spec (S (rb_in s + j - rb_size s)) (rb_size s)); lia.
Qed.

(** The search for a newline ends at the first. *)
Lemma skip_line_spec s u v : wf_log s → by_age s = u ++ 10 :: v → 10 ∉ u → ∀ k, (k <= length u)%nat → ∀ fuel, (length u - k < fuel)%nat →
  skip_line fuel s (nth_rb s k) = Ok (nth_rb s (S (length u))).
Proof.
  intros Hw E Hu k Hk fuel. pose proof (length_by_age s Hw) as Hl. rewrite E, length_app in Hl. cbn [length] in Hl. revert k Hk.
  induction fuel as [|fuel IH]; intros k Hk Hf; [lia|]. cbn [skip_line].
  assert (∃ c, rb_data s !! nth_rb s k = Some c ∧ (c = 10 ↔ k = length u)) as (c & Ec & Hc).
  { rewrite <- by_age_lookup by (done || lia). rewrite E. destruct (decide (k = length u)) as [->|Hne].
    - exists 10. by rewrite lookup_app_r, Nat.sub_diag by lia.
    - destruct (lookup_lt_is_Some_2 u k ltac:(lia)) as [c Ec]. exists c. rewrite lookup_app_l by lia. split; [done|]. split; [|done].
      intros ->. destruct Hu. by eapply list_elem_of_lookup_2. }
  rewrite (rd_Ok _ _ _ Ec), bind_Ok, next_nth_rb by (done || lia). destruct (Z.eqb_spec c 10) as [E10|E10].
  - by rewrite (proj1 Hc E10).
  - apply IH; [|lia]. destruct (decide (k = length u)) as [Ek|]; [by destruct E10; apply Hc|lia].
Qed.

(** What a ring of lines does: the oldest lines go when there is no room. *)
Fixpoint after_newline (l : list Z) : list Z := match l with [] => [] | c :: l => if c =? 10 then l else after_newline l end.

Definition add_line (size : nat) (c l : list Z) : list Z :=
  if (length (c ++ l) <? size)%nat then c ++ l else after_newline (drop (length (c ++ l) - size) (c ++ l)).

Lemma after_newline_split w : 10 ∈ w → ∃ u, w = u ++ 10 :: after_newline w ∧ 10 ∉ u.
Proof.
  induction w as [|c w IH]; [by intros ?%elem_of_nil|]. cbn [after_newline]. destruct (Z.eqb_spec c 10) as [->|Hc].
  - intros _. exists []. split; [done|apply not_elem_of_nil].
  - intros [|Hin]%elem_of_cons; [congruence|]. destruct (IH Hin) as (u & E & Hu). exists (c :: u). split; [by rewrite E at 1|]. by apply not_elem_of_cons.
Qed.

Lemma log_text_refines s m : wf_log s → (S (length m) < 1024)%nat →
  ∃ s', log_text s (m ++ [10]) = Ok s' ∧ wf_log s' ∧ rb_size s' = rb_size s ∧ minlevel s' = minlevel s ∧ spookpid s' = spookpid s ∧
    send_log_buffer s' = add_line (rb_size s) (send_log_buffer s) (m ++ [10]).
Proof.
  intros Hw Hm. unfold log_text, line_bytes. set (l := m ++ [10]). assert (length l = S (length m)) as Hl by (unfold l; rewrite length_app; cbn; lia).
  rewrite (proj2 (Nat.ltb_lt _ _)), bind_Ok by lia. destruct (sent_by_age s Hw) as [Hs Hsl].
  destruct (store_line_spec l s false Hw) as (s1 & -> & Hw1 & Hage & Hsz & Hheld & Hmin & Hpid). rewrite bind_Ok. cbn [orb].
  destruct (sent_by_age s1 Hw1) as [Hs1 _]. pose proof (length_by_age s Hw) as Hba. pose proof (held_lt s Hw) as Hhl. unfold add_line. rewrite length_app, Hsl.
  destruct (Nat.leb_spec (rb_size s) (held s + length l)) as [Hov|Hfit].
  - rewrite (proj2 (Nat.ltb_ge _ _)) by lia.
    assert (by_age s1 = drop (held s + length l - rb_size s) (send_log_buffer s ++ l)) as Hw1'.
    { rewrite Hage, Hs. rewrite !drop_app, drop_drop, length_drop, Hba. f_equal; f_equal; lia. }
    rewrite <- Hw1'. assert (10 ∈ by_age s1) as Hin.
    { rewrite Hw1'. unfold l. rewrite app_assoc, drop_app_le by (rewrite !length_app; cbn [length]; lia). apply elem_of_app. right. by apply elem_of_cons; left. }
    destruct (after_newline_split _ Hin) as (u & Eu & Hu). pose proof (length_by_age s1 Hw1) as Hlen. rewrite Eu, length_app in Hlen. cbn [length] in Hlen.
    pose proof (skip_line_spec s1 u _ Hw1 Eu Hu 0 ltac:(lia) (S (rb_size s1)) ltac:(lia)) as Esk.
    replace (nth_rb s1 0) with (rb_in s1) in Esk by (unfold nth_rb; rewrite Nat.add_0_r, (proj2 (Nat.ltb_lt _ _)); [done|apply Hw1]).
    rewrite Esk, bind_Ok. eexists. split; [reflexivity|]. set (s2 := MkLog _ _ _ _ _ _). destruct Hw1 as [H1 H2 H3].
    assert (wf_log s2) as Hw2 by (constructor; cbn [s2 rb_data rb_in rb_out rb_size]; try done; unfold nth_rb; case_match; rewrite ?Nat.ltb_lt, ?Nat.ltb_ge in *; lia).
    split_and!; try done. destruct (sent_by_age s2 Hw2) as [-> _]. change (by_age s2) with (by_age s1). change (rb_size s2) with (rb_size s1).
    assert (rb_size s1 - held s2 = S (length u))%nat as ->.
    { unfold held, s2, nth_rb. cbn [rb_in rb_out rb_size]. repeat case_match; rewrite ?Nat.leb_le, ?Nat.leb_gt, ?Nat.ltb_lt, ?Nat.ltb_ge in *; lia. }
    rewrite Eu at 1. replace (S (length u)) with (length (u ++ [10])) by (rewrite length_app; cbn; lia).
    replace (u ++ 10 :: after_newline (by_age s1)) with ((u ++ [10]) ++ after_newline (by_age s1)) by (by rewrite <- app_assoc). by rewrite drop_app_length.
  - rewrite (proj2 (Nat.ltb_lt _ _)) by lia. exists s1. split_and!; try done. rewrite Hs1, Hsz, Hheld, Hage, Hs by lia.
    rewrite drop_drop, drop_app_le by lia. f_equal. f_equal. lia.
Qed.

(** ** The lines of the log *)

(** The calls of [spook_log] one after the other. *)
Fixpoint log_all (s : log_state) (ls : list (list Z)) : outcome log_state :=
  match ls with [] => Ok s | l :: ls => s ← log_text s l; log_all s ls end.

(** The start of a line of the log. *)
Definition line_start (pre : list Z) : Prop := pre = [] ∨ ∃ p, pre = p ++ [10].

(** The rest of a log from the start of a line on. *)
Definition whole_lines (T u : list Z) : Prop := ∃ pre, T = pre ++ u ∧ line_start pre.

(** [c] is the longest such rest that is shorter than the ring. *)
Definition recent (size : nat) (T c : list Z) : Prop :=
  whole_lines T c ∧ (length c < size)%nat ∧ ∀ u, whole_lines T u → (length u < size)%nat → (length u <= length c)%nat.

Lemma longer_rest {A} (a u b v : list A) : a ++ u = b ++ v → (length v <= length u)%nat → ∃ x, u = x ++ v ∧ b = a ++ x.
Proof.
  intros E Hl. apply app_eq_inv in E as [(k & -> & ->)|(k & -> & ->)]; [|by exists k].
  rewrite length_app in Hl. destruct k; [|cbn in Hl; lia]. exists []. by rewrite !app_nil_r.
Qed.

Lemma add_line_recent size T c m : recent size T c → (0 < size)%nat → recent size (T ++ m ++ [10]) (add_line size c (m ++ [10])).
Proof.
  intros ((pre & -> & Hpre) & Hc & Hmax) Hsz. set (l := m ++ [10]). unfold add_line.
  destruct (Nat.ltb_spec (length (c ++ l)) size) as [Hfit|Hov].
  - split_and!; [exists pre; by rewrite <- app_assoc|done|]. intros u (a & E & Ha) Hu. rewrite length_app.
    destruct (decide (length u <= length l)%nat); [lia|]. destruct (longer_rest _ _ _ _ (eq_sym E) ltac:(lia)) as (x & -> & Ex).
    rewrite length_app in *. enough (length x <= length c)%nat by lia. apply Hmax; [by exists a|lia].
  - set (d := c ++ l) in *. set (w := drop (length d - size) d). assert (length w = size) as Hw by (unfold w; rewrite length_drop; lia).
    assert ((pre ++ c) ++ l = (pre ++ take (length d - size) d) ++ w) as ET by (unfold w; by rewrite <- !app_assoc, take_drop).
    assert (10 ∈ w) as Hin.
    { unfold w, d, l. rewrite app_assoc, drop_app_le by (rewrite !length_app in *; cbn [length] in *; lia). apply elem_of_app. right. by apply elem_of_cons; left. }
    destruct (after_newline_split w Hin) as (x & Ew & Hx). assert (S (length x + length (after_newline w)) = size) as Hlen.
    { pose proof (f_equal length Ew) as H. rewrite length_app in H. cbn [length] in H. lia. }
    split_and!; [|lia|].
    + exists ((pre ++ take (length d - size) d) ++ x ++ [10]). split; [|right; by eexists (_ ++ x); rewrite app_assoc].
      rewrite ET, Ew at 1. by rewrite <- !app_assoc.
    + intros u (a & E & Ha) Hu. rewrite ET in E. destruct (longer_rest _ _ _ _ E ltac:(lia)) as (b & Eb & ->).
      assert (b ≠ []) as Hb by (intros ->; rewrite Eb in Hw; cbn in Hw; lia). destruct (exists_last Hb) as (b' & y & ->).
      assert (y = 10) as ->.
      { destruct Ha as [Ha|(p & Ha)]; [apply app_eq_nil in Ha as [_ Ha]; by destruct b'|]. rewrite app_assoc in Ha. by apply app_inj_tail in Ha as [_ ->]. }
      enough (length x <= length b')%nat as Hle by (rewrite Eb, !length_app in Hw; cbn [length] in Hw; lia).
      destruct (decide (length x <= length b')%nat) as [|Hgt]; [done|]. destruct Hx. rewrite Eb, <- app_assoc in Ew. cbn [app] in Ew.
      apply (f_equal (λ l, l !! length b')) in Ew. rewrite lookup_app_r, Nat.sub_diag, lookup_app_l in Ew by lia. by eapply list_elem_of_lookup_2.
Qed.

(** The ring holds the recent lines of the log [T]. *)
Definition holds_log (s : log_state) (T : list Z) : Prop := wf_log s ∧ rb_size s = Z.to_nat LOG_BUFFER_SIZE ∧ recent (rb_size s) T (send_log_buffer s).

Lemma log_all_holds ls : Forall (λ l, ∃ m, l = m ++ [10] ∧ (S (length m) < 1024)%nat) ls → ∀ s T, holds_log s T →
  ∃ s', log_all s ls = Ok s' ∧ holds_log s' (T ++ concat ls).
Proof.
  induction 1 as [|l ls (m & -> & Hm) _ IH]; intros s T (Hw & Hsz & Hr); [exists s; by rewrite app_nil_r|]. cbn [log_all concat].
  destruct (log_text_refines s m Hw Hm) as (s1 & -> & Hw1 & Hsz1 & _ & _ & E). rewrite bind_Ok.
  destruct (IH s1 (T ++ m ++ [10])) as (s' & -> & H); [|exists s'; split; [done|by rewrite app_assoc]].
  split_and!; [done|congruence|]. rewrite E, Hsz1. apply add_line_recent; [done|]. rewrite Hsz. unfold LOG_BUFFER_SIZE. lia.
Qed.

(** C29: The log keeps the recent lines.  After any sequence of messages of fewer than 1024
    bytes, each with its newline, every call has returned without an access outside the ring,
    and [send_log_buffer] writes whole lines: the longest end of the log, from the start of a
    line on, that is shorter than the 4096 bytes of the ring. *)
Theorem log_keeps_lines junk pid min ls :
  Forall (λ l, ∃ m, l = m ++ [10] ∧ (S (length m) < 1024)%nat) ls →
  ∃ s, log_all (spook_log_init junk pid min) ls = Ok s ∧ recent (Z.to_nat LOG_BUFFER_SIZE) (concat ls) (send_log_buffer s).
Proof.
  intros Hls. destruct (log_all_holds ls Hls (spook_log_init junk pid min) []) as (s & E & _ & Hsz & Hr).
  - split_and!; [|done|].
    + constructor; cbn [spook_log_init rb_data rb_size rb_in rb_out]; [by rewrite length_map, length_seq|unfold LOG_BUFFER_SIZE; lia..].
    + split_and!; [by exists []; split; [|left]|cbn; unfold LOG_BUFFER_SIZE; lia|]. intros u (a & E & _) _. symmetry in E. by apply app_eq_nil in E as [_ ->].
  - exists s. split; [done|]. by rewrite <- Hsz.
Qed.

(** ** Witness *)

Definition w_message : list Z := replicate 1000 97 ++ [10].

(** Of five messages of 1001 bytes the ring holds four. *)
Lemma log_keeps_lines_witness :
  ∃ s, log_all (spook_log_init (λ _, 170) 1 0) (replicate 5 w_message) = Ok s ∧
    recent (Z.to_nat LOG_BUFFER_SIZE) (concat (replicate 5 w_message)) (send_log_buffer s).
Proof.
  apply (log_keeps_lines (λ _, 170) 1 0 (replicate 5 w_message)). apply Forall_replicate. exists (replicate 1000 97). split; [done|].
  rewrite length_replicate. lia.
Defined.
