(* ===== verification/Cgi.v ===== *)
(** * The web configuration programs ([httpd-cgi/common.c], [param.c], [restart.c])

    Two CGI programs: [param.cgi] lists and changes the parameters in the files
    [network_config] and [stream_config], [restart.cgi] restarts the service that reads them.
    The configuration files are their bytes; whether a file can be opened, and what a shell
    command returns, are parameters. *)

From Stdlib Require Import String.
From S2P Require Import Prelude CString.

Local Open Scope Z_scope.

(** ** Lines ([common.c]) *)

(** [fgetc] up to a newline, which a carriage return counts as; [size] bytes at most. *)
Fixpoint read_bytes (size : nat) (f : list Z) : list Z * list Z :=
  match size with
  | O => ([], f)
  | S size =>
      match f with
      | [] => ([], [])
      | c :: f =>
          let c := if c =? 13 then 10 else c in
          if c =? 10 then ([c], f) else let '(l, f) := read_bytes size f in (c :: l, f)
      end
  end.

(** [None] is the end of the file; a line that fills the buffer has its terminator outside. *)
Definition ReadLine (size : nat) (f : list Z) : outcome (option (list Z) * list Z) :=
  let '(l, f) := read_bytes size f in
  match l with
  | [] => Ok (None, f)
  | _ => if (length l =? size)%nat then Undef else Ok (Some (upto_nul l), f)
  end.

(** The environment of a CGI program; a [NULL] that is dereferenced is [Undef]. *)
Record environment := MkEnv { REQUEST_METHOD : option (list Z); QUERY_STRING : option (list Z) }.

Definition get_cgi_data (e : environment) : outcome (option (list Z)) :=
  match REQUEST_METHOD e with
  | None => Undef
  | Some method => if streq method (lit "GET") then Ok (QUERY_STRING e) else Ok None
  end.

(** [strdup] of what [get_cgi_data] returns. *)
Definition input_data (e : environment) : outcome (list Z) :=
  d ← get_cgi_data e; match d with Some d => Ok d | None => Undef end.

(** ** Parameters ([param.c]) *)

Inductive config_group := eCONFIG_GROUP_WIFI | eCONFIG_GROUP_STREAM.

Definition g_astrGroupName : list (list Z * config_group) := [(lit "wifi", eCONFIG_GROUP_WIFI); (lit "stream", eCONFIG_GROUP_STREAM)].

Definition g_astrWifiParam : list (list Z) :=
  [lit "BOOTPROTO"; lit "IPADDR"; lit "GATEWAY"; lit "SSID"; lit "AUTH_MODE"; lit "ENCRYPT_TYPE"; lit "AUTH_KEY"; lit "WPS_TRIG_KEY";
   lit "AP_SSID"; lit "AP_CHANNEL"; lit "AP_AUTH_KEY"; lit "AP_CHANNEL"].

Definition g_astrStreamParam : list (list Z) := [lit "VINWIDTH"; lit "VINHEIGHT"; lit "JPEGENCWIDTH"; lit "JPEGENCHEIGHT"; lit "BITRATE"].

Definition g_astrParamGroup (g : config_group) : list (list Z) :=
  match g with eCONFIG_GROUP_WIFI => g_astrWifiParam | eCONFIG_GROUP_STREAM => g_astrStreamParam end.

(** The two files; [None] is one that cannot be opened. *)
Record config_files := MkFiles { network_config : option (list Z); stream_config : option (list Z) }.

Definition the_file (fs : config_files) (g : config_group) : option (list Z) :=
  match g with eCONFIG_GROUP_WIFI => network_config fs | eCONFIG_GROUP_STREAM => stream_config fs end.

Definition put_file (fs : config_files) (g : config_group) (d : list Z) : config_files :=
  match g with
  | eCONFIG_GROUP_WIFI => MkFiles (Some d) (stream_config fs)
  | eCONFIG_GROUP_STREAM => MkFiles (network_config fs) (Some d)
  end.

(** [strstr(s, name) == s]. *)
Definition starts_with (name s : list Z) : bool := bool_decide (take (length name) s = name).

Definition is_ssid (name : list Z) : bool := match strstr name (lit "SSID") with Some _ => true | None => false end.

Fixpoint take_while (P : Z → bool) (l : list Z) : list Z := match l with c :: l => if P c then c :: take_while P l else [] | [] => [] end.

(** The two [sscanf]; [None]: nothing is stored. *)
Definition scan_word (s : list Z) : option (list Z) :=
  match take_while (λ c, negb (isspace c)) (skip_space s) with [] => None | w => Some w end.

Definition scan_quoted (s : list Z) : option (list Z) :=
  match skip_space s with
  | c :: s => if c =? 34 then match take_while (λ c, negb (c =? 34)) s with [] => None | w => Some w end else None
  | [] => None
  end.

Definition scan_value (name s : list Z) : option (list Z) := if is_ssid name then scan_quoted s else scan_word s.

(** The loop over the lines; what is stored has to fit in [size] bytes. *)
Fixpoint find_param (fuel : nat) (f : list Z) (name : list Z) (size : nat) : outcome (list Z) :=
  match fuel with
  | O => Diverge
  | S fuel =>
      '(l, f) ← ReadLine 256 f;
      match l with
      | None => Ok []
      | Some l =>
          if starts_with name l then
            match scan_value name (drop (length name) l) with
            | Some v => if (size <=? length v)%nat then Undef else Ok v
            | None => Ok []
            end
          else find_param fuel f name size
      end
  end.

(** The value; the string is empty when nothing is found or the file cannot be opened, and
    the caller has cleared it. *)
Definition ReadParamStr (fs : config_files) (g : config_group) (name : list Z) (size : nat) : outcome (Z * list Z) :=
  match the_file fs g with
  | None => Ok (-3, [])
  | Some f => v ← find_param (S (length f)) f name size; Ok (0, v)
  end.

(** The line of a parameter. *)
Definition param_line (name value : list Z) : list Z :=
  if is_ssid name then name ++ [32; 34] ++ value ++ [34; 10] else name ++ [32] ++ value ++ [10].

(** The loop that writes the new file. *)
Fixpoint copy_params (fuel : nat) (f : list Z) (name value : list Z) : outcome (list Z) :=
  match fuel with
  | O => Diverge
  | S fuel =>
      '(l, f) ← ReadLine 256 f;
      match l with
      | None => Ok []
      | Some l => r ← copy_params fuel f name value; Ok ((if starts_with name l then param_line name value else l) ++ r)
      end
  end.

(** [can_write]: the new file can be created.  It replaces the old one. *)
Definition WriteParamStr (fs : config_files) (can_write : bool) (g : config_group) (name value : list Z) : outcome (Z * config_files) :=
  match the_file fs g with
  | None => Ok (-1, fs)
  | Some f => if can_write then d ← copy_params (S (length f)) f name value; Ok (0, put_file fs g d) else Ok (-1, fs)
  end.

(** The elements of the answer; [pBuf[128]].  No name has a dot. *)
Fixpoint list_params (fs : config_files) (g : config_group) (names : list (list Z)) : outcome (list Z) :=
  match names with
  | [] => Ok []
  | name :: names =>
      '(_, v) ← ReadParamStr fs g name 128;
      let e := [34] ++ name ++ [34; 58; 32; 34] ++ v ++ [34] in
      if (128 <=? length e)%nat then Undef else
      r ← list_params fs g names;
      Ok (e ++ (match names with [] => [] | _ => [44; 32] end) ++ r)
  end.

Definition configs_list_all (fs : config_files) (g : config_group) : outcome (list Z) := list_params fs g (g_astrParamGroup g).

(** The first group whose name is anywhere in the text. *)
Fixpoint search_group (l : list (list Z * config_group)) (s : list Z) : option config_group :=
  match l with [] => None | (name, g) :: l => if match strstr s name with Some _ => true | None => false end then Some g else search_group l s end.

Definition configs_search_groupname (s : list Z) : option config_group := search_group g_astrGroupName s.

(** [strtok_r(s, "&")]: the token, and the text behind the byte that ends it, [None] when
    that is the end of the string. *)
Fixpoint skip_char (c : Z) (s : list Z) : list Z := match s with x :: s' => if x =? c then skip_char c s' else s | [] => [] end.

Fixpoint cut_at (c : Z) (s : list Z) : list Z * option (list Z) :=
  match s with [] => ([], None) | x :: s => if x =? c then ([], Some s) else let '(a, r) := cut_at c s in (x :: a, r) end.

Definition strtok (c : Z) (s : list Z) : option (list Z * option (list Z)) :=
  match skip_char c s with [] => None | s => Some (cut_at c s) end.

(** [strtok(token, "=")], and the value one byte behind the name: the rest of the token or,
    when it has no equals sign, the text behind the token. *)
Definition name_value (token : list Z) (behind : option (list Z)) : outcome (list Z * list Z) :=
  match strtok 61 token with
  | None => Undef
  | Some (name, Some value) => Ok (name, value)
  | Some (name, None) => match behind with Some value => Ok (name, value) | None => Undef end
  end.

Fixpoint update_params (fuel : nat) (fs : config_files) (can_write : bool) (g : config_group) (s : option (list Z)) : outcome (Z * config_files) :=
  match fuel with
  | O => Diverge
  | S fuel =>
      match s with
      | None => Ok (0, fs)
      | Some s =>
          match strtok 38 s with
          | None => Ok (0, fs)
          | Some (token, behind) =>
              '(name, value) ← name_value token behind;
              '(ret, fs) ← WriteParamStr fs can_write g name value;
              if negb (ret =? 0) then Ok (-1, fs) else update_params fuel fs can_write g behind
          end
      end
  end.

(** The text behind [key], if the string has it. *)
Definition behind_key (key s : list Z) : option (list Z) := match strstr s key with Some r => Some (drop (length key) r) | None => None end.

Definition configs_update (fs : config_files) (can_write : bool) (s : list Z) : outcome (Z * config_files) :=
  match behind_key (lit "group=") s with
  | None => Ok (-1, fs)
  | Some h => match configs_search_groupname h with None => Ok (-1, fs) | Some g => update_params (S (length h)) fs can_write g (Some h) end
  end.

(** [None] is [eCONFIG_GROUP_UNKNOWN]. *)
Definition configs_list (fs : config_files) (s : list Z) : outcome (option (list Z)) :=
  match behind_key (lit "group=") s with
  | None => Ok None
  | Some h => match configs_search_groupname h with None => Ok None | Some g => d ← configs_list_all fs g; Ok (Some d) end
  end.

(** [pHeadPtr += n]: one byte behind the terminator is outside the string. *)
Definition advance (n : nat) (s : list Z) : outcome (list Z) := if (length s <? n)%nat then Undef else Ok (drop n s).

Definition contains (s t : list Z) : bool := match strstr s t with Some _ => true | None => false end.

(** The output and the return code. *)
Definition configs_process (fs : config_files) (can_write : bool) (s : list Z) : outcome (option (list Z) * Z * config_files) :=
  match behind_key (lit "action=") s with
  | None => Ok (None, -1, fs)
  | Some h =>
      if contains h (lit "list") then
        h ← advance 5 h; out ← configs_list fs h; Ok (out, -1, fs)
      else if contains h (lit "update") then
        h ← advance 7 h; '(ret, fs) ← configs_update fs can_write h; Ok (None, ret, fs)
      else Ok (None, -1, fs)
  end.

Definition cgi_response (out : option (list Z)) (ret : Z) : list Z :=
  lit "Content-type: application/json" ++ [13; 10; 13; 10; 123] ++
  (match out with Some d => d | None => [34] ++ lit "value" ++ [34; 58; 32; 34] ++ dec ret ++ [34] end) ++ [125; 13; 10; 13; 10].

(** [main] of [param.c]: the answer and the files. *)
Definition param_main (e : environment) (fs : config_files) (can_write : bool) : outcome (list Z * config_files) :=
  s ← input_data e;
  '(out, ret, fs) ← configs_process fs can_write s;
  Ok (cgi_response out ret, fs).

(** ** Restarting ([restart.c]) *)

Inductive restart_group := restart_WIFI | restart_BOARD | restart_STREAM.

Definition restart_names : list (list Z * restart_group) :=
  [(lit "wifi", restart_WIFI); (lit "board", restart_BOARD); (lit "stream", restart_STREAM)].

Fixpoint search_restart (l : list (list Z * restart_group)) (s : list Z) : option restart_group :=
  match l with [] => None | (name, g) :: l => if contains s name then Some g else search_restart l s end.

Definition restart_command (g : restart_group) : list Z :=
  match g with
  | restart_WIFI => lit "/mnt/nuwicam/bin/go_networking.sh"
  | restart_BOARD => lit "export PATH=/sbin:$PATH; sync;sync;sync; reboot"
  | restart_STREAM => lit "killall -9 RTSPServer"
  end.

(** [system] is what a command returns; the result has the command that was run. *)
Definition restart_process (system : list Z → Z) (s : list Z) : Z * option (list Z) :=
  match behind_key (lit "group=") s with
  | None => (-1, None)
  | Some h => match search_restart restart_names h with None => (-1, None) | Some g => (system (restart_command g), Some (restart_command g)) end
  end.

Definition restart_main (e : environment) (system : list Z → Z) : outcome (list Z * option (list Z)) :=
  s ← input_data e;
  let '(ret, cmd) := restart_process system s in
  Ok (cgi_response None ret, cmd).

(** ** Files of lines *)

Definition line_char (c : Z) : Prop := c ≠ 0 ∧ c ≠ 10 ∧ c ≠ 13.

(** A line without its newline, short enough for [ReadLine]. *)
Definition wf_line (l : list Z) : Prop := Forall line_char l ∧ (length l < 255)%nat.

Definition file_of (ls : list (list Z)) : list Z := concat (map (λ l, l ++ [10]) ls).

Lemma read_bytes_line l f n : Forall line_char l → (length l < n)%nat → read_bytes n (l ++ 10 :: f) = (l ++ [10], f).
Proof.
  intros Hl. revert n. induction Hl as [|c l (_ & H10 & H13) _ IH]; intros [|n] Hn; cbn [length app read_bytes] in *; try lia; [done|].
  destruct (Z.eqb_spec c 13); [done|]. destruct (Z.eqb_spec c 10); [done|]. by rewrite IH by lia.
Qed.

Lemma upto_nul_line l : Forall line_char l → upto_nul (l ++ [10]) = l ++ [10].
Proof. induction 1 as [|c l (H & _) _ IH]; [done|]. cbn [app upto_nul]. destruct (Z.eqb_spec c 0); [done|]. by rewrite IH. Qed.

Lemma ReadLine_line l f : wf_line l → ReadLine 256 (l ++ 10 :: f) = Ok (Some (l ++ [10]), f).
Proof.
  intros [Hl Hn]. unfold ReadLine. rewrite read_bytes_line by (done || lia). destruct (l ++ [10]) as [|c l'] eqn:E; [by destruct l|]. rewrite <- E.
  destruct (Nat.eqb_spec (length (l ++ [10])) 256) as [H|_]; [rewrite length_app in H; cbn [length] in H; lia|]. by rewrite upto_nul_line.
Qed.

Lemma ReadLine_end : ReadLine 256 [] = Ok (None, []).
Proof. done. Qed.

(** The newline is not part of a name. *)
Lemma starts_with_line name l : Forall line_char name → starts_with name (l ++ [10]) = starts_with name l.
Proof.
  intros Hn. unfold starts_with. apply bool_decide_ext. destruct (decide (length name <= length l)%nat) as [H|H].
  - by rewrite take_app_le.
  - split; intros E.
    + exfalso. assert (10 ∈ name) as Hin.
      { rewrite <- E, take_ge by (rewrite length_app; cbn; lia). apply elem_of_app. right. by apply elem_of_cons; left. }
      by apply (proj1 (Forall_forall _ _) Hn) in Hin as (_ & ? & _).
    + apply (f_equal length) in E. rewrite length_take in E. lia.
Qed.

(** What [ReadParamStr] looks for: the first line that starts with the name. *)
Fixpoint lookup_param (ls : list (list Z)) (name : list Z) : option (list Z) :=
  match ls with [] => None | l :: ls => if starts_with name l then scan_value name (drop (length name) (l ++ [10])) else lookup_param ls name end.

Definition value_or_empty (v : option (list Z)) : list Z := match v with Some v => v | None => [] end.

Definition lines_fit (ls : list (list Z)) (name : list Z) : Prop := ∀ v, lookup_param ls name = Some v → (length v < 128)%nat.

Lemma find_param_lines ls name fuel : Forall wf_line ls → Forall line_char name → lines_fit ls name → (length ls < fuel)%nat →
  find_param fuel (file_of ls) name 128 = Ok (value_or_empty (lookup_param ls name)).
Proof.
  intros Hls Hn. revert fuel. induction Hls as [|l ls Hl Hls IH]; intros [|fuel] Hfit Hf; cbn [length] in Hf; try lia; [done|].
  unfold file_of. cbn [find_param map concat]. rewrite <- app_assoc. cbn [app]. rewrite ReadLine_line, bind_Ok by done. rewrite starts_with_line by done.
  unfold lines_fit in Hfit. cbn [lookup_param] in *. destruct (starts_with name l); [|apply IH; [done|lia]].
  destruct (scan_value name (drop (length name) (l ++ [10]))) as [v|]; [|done]. by rewrite (proj2 (Nat.leb_gt _ _)) by (by apply Hfit).
Qed.

Lemma copy_params_lines ls name value fuel : Forall wf_line ls → Forall line_char name → (length ls < fuel)%nat →
  copy_params fuel (file_of ls) name value = Ok (concat (map (λ l, if starts_with name l then param_line name value else l ++ [10]) ls)).
Proof.
  intros Hls Hn. revert fuel. induction Hls as [|l ls Hl Hls IH]; intros [|fuel] Hf; cbn [length] in Hf; try lia; [done|].
  unfold file_of. cbn [copy_params map concat]. rewrite <- app_assoc. cbn [app]. rewrite ReadLine_line, bind_Ok by done. rewrite starts_with_line by done.
  fold (file_of ls). rewrite IH, bind_Ok by lia. done.
Qed.

Lemma length_file_of ls : (length ls <= length (file_of ls))%nat.
Proof. induction ls as [|l ls IH]; [done|]. unfold file_of in *. cbn [map concat length]. rewrite !length_app. cbn [length]. lia. Qed.

(** The line of a parameter without its newline. *)
Definition param_text (name value : list Z) : list Z := if is_ssid name then name ++ [32; 34] ++ value ++ [34] else name ++ [32] ++ value.

Lemma param_line_text name value : param_line name value = param_text name value ++ [10].
Proof. unfold param_line, param_text. destruct (is_ssid name); by rewrite <- !app_assoc. Qed.

(** A value that can be stored: a quoted one has no quote, any other no white space. *)
Definition good_value (name value : list Z) : Prop :=
  value ≠ [] ∧ (length value < 128)%nat ∧ (length name + length value < 251)%nat ∧ Forall line_char value ∧
  Forall (λ c, (if is_ssid name then c =? 34 else isspace c) = false) value.

Definition set_param (name value : list Z) (ls : list (list Z)) : list (list Z) := map (λ l, if starts_with name l then param_text name value else l) ls.

Lemma write_file ls name value : Forall wf_line ls → Forall line_char name →
  copy_params (S (length (file_of ls))) (file_of ls) name value = Ok (file_of (set_param name value ls)).
Proof.
  intros Hls Hn. rewrite copy_params_lines by (done || (pose proof (length_file_of ls); lia)). f_equal. unfold file_of, set_param. f_equal. rewrite map_map.
  apply map_ext. intros l. destruct (starts_with name l); [apply param_line_text|done].
Qed.

Lemma starts_with_app name s : starts_with name (name ++ s) = true.
Proof. unfold starts_with. rewrite take_app_length. by apply bool_decide_eq_true. Qed.

Lemma param_text_starts name value : starts_with name (param_text name value) = true.
Proof. unfold param_text. destruct (is_ssid name); apply starts_with_app. Qed.

Lemma take_while_app (P : Z → bool) u c s : Forall (λ c, P c = true) u → P c = false → take_while P (u ++ c :: s) = u.
Proof. intros Hu Hc. induction Hu as [|x u Hx _ IH]; cbn [app take_while]; [by rewrite Hc|]. by rewrite Hx, IH. Qed.

(** What was written is read back. *)
Lemma scan_param name value : good_value name value → scan_value name (drop (length name) (param_text name value ++ [10])) = Some value.
Proof.
  intros (Hne & _ & _ & _ & Hv). unfold scan_value, param_text. destruct (is_ssid name).
  - rewrite <- !app_assoc, drop_app_length. cbn [app scan_quoted skip_space]. change (isspace 32) with true. cbn [skip_space]. change (isspace 34) with false.
    change (34 =? 34) with true. cbn iota. unfold scan_quoted. cbn [skip_space]. change (isspace 32) with true. cbn iota. change (isspace 34) with false. cbn iota. change (34 =? 34) with true. cbn iota.
    rewrite take_while_app; [by destruct value| |done]. eapply Forall_impl; [exact Hv|]. intros c Hc. cbn beta in *. by rewrite Hc.
  - rewrite <- !app_assoc, drop_app_length. unfold scan_word. cbn [app skip_space]. change (isspace 32) with true. cbn iota.
    destruct value as [|c value]; [done|]. pose proof (Forall_inv Hv) as Hc. cbn beta in Hc. cbn [app skip_space]. rewrite Hc. rewrite app_comm_cons.
    rewrite take_while_app; [done| |done]. eapply Forall_impl; [exact Hv|]. intros x Hx. cbn beta in *. by rewrite Hx.
Qed.

(** Names of which neither starts the other. *)
Definition apart (name other : list Z) : Prop := starts_with name other = false ∧ starts_with other name = false.

Lemma starts_with_prefix name l : starts_with name l = true ↔ name `prefix_of` l.
Proof.
  unfold starts_with. rewrite bool_decide_eq_true. split.
  - intros <-. apply prefix_take.
  - intros [r ->]. apply take_app_length.
Qed.

Lemma apart_lines name other l : apart name other → starts_with name l = true → starts_with other l = false.
Proof.
  intros [H1 H2] H. apply not_true_iff_false. intros H'. apply starts_with_prefix in H, H'.
  destruct (prefix_weak_total _ _ _ H H') as [P|P]; apply starts_with_prefix in P; congruence.
Qed.

Lemma lookup_set_same name value ls : good_value name value → Exists (λ l, starts_with name l = true) ls →
  lookup_param (set_param name value ls) name = Some value.
Proof.
  intros Hv. induction 1 as [l ls H|l ls _ IH]; cbn [set_param map lookup_param].
  - by rewrite H, param_text_starts, scan_param.
  - fold (set_param name value ls). destruct (starts_with name l) eqn:E; [by rewrite param_text_starts, scan_param|by rewrite E].
Qed.

Lemma lookup_set_other name other value ls : apart name other → lookup_param (set_param name value ls) other = lookup_param ls other.
Proof.
  intros Ha. induction ls as [|l ls IH]; [done|]. cbn [set_param map lookup_param]. fold (set_param name value ls). rewrite IH.
  destruct (starts_with name l) eqn:E; [|done].
  by rewrite (apart_lines name other l Ha E), (apart_lines name other _ Ha (param_text_starts name value)).
Qed.

Lemma param_text_wf name value : Forall line_char name → good_value name value → wf_line (param_text name value).
Proof.
  intros Hn (_ & _ & Hlen & Hv & _). unfold wf_line, param_text. split.
  - destruct (is_ssid name); repeat (apply Forall_app; split); try done; repeat constructor; done.
  - destruct (is_ssid name); rewrite !length_app; cbn [length]; lia.
Qed.

Lemma set_param_wf name value ls : Forall line_char name → good_value name value → Forall wf_line ls → Forall wf_line (set_param name value ls).
Proof.
  intros Hn Hv Hls. apply Forall_map. eapply Forall_impl; [exact Hls|]. intros l Hl. cbn beta. destruct (starts_with name l); [by apply param_text_wf|done].
Qed.

(** A name that starts no line changes nothing. *)
Lemma set_param_absent name value ls : Forall (λ l, starts_with name l = false) ls → set_param name value ls = ls.
Proof. induction 1 as [|l ls H _ IH]; [done|]. cbn [set_param map]. rewrite H. by f_equal. Qed.

Lemma the_put fs g d : the_file (put_file fs g d) g = Some d.
Proof. by destruct g. Qed.

Lemma put_put fs g d d' : put_file (put_file fs g d) g d' = put_file fs g d'.
Proof. by destruct g. Qed.

Lemma put_the fs g d : the_file fs g = Some d → put_file fs g d = fs.
Proof. destruct fs, g; cbn; by intros ->. Qed.

Lemma read_lines fs g ls name : the_file fs g = Some (file_of ls) → Forall wf_line ls → Forall line_char name → lines_fit ls name →
  ReadParamStr fs g name 128 = Ok (0, value_or_empty (lookup_param ls name)).
Proof.
  intros Hf Hls Hn Hfit. unfold ReadParamStr. rewrite Hf. rewrite find_param_lines; try done. pose proof (length_file_of ls). lia.
Qed.

Lemma write_lines fs g ls name value : the_file fs g = Some (file_of ls) → Forall wf_line ls → Forall line_char name →
  WriteParamStr fs true g name value = Ok (0, put_file fs g (file_of (set_param name value ls))).
Proof. intros Hf Hls Hn. unfold WriteParamStr. by rewrite Hf, write_file by done. Qed.

(** ** Update requests *)

(** The text of an assignment, and of the assignments that follow. *)
Definition assign (p : list Z * list Z) : list Z := p.1 ++ 61 :: p.2.

Definition assigns (ps : list (list Z * list Z)) : list Z := concat (map (λ p, 38 :: assign p) ps).

Definition behind_of (ps : list (list Z * list Z)) : option (list Z) := match ps with [] => None | p :: ps => Some (assign p ++ assigns ps) end.

Definition good_assign (p : list Z * list Z) : Prop :=
  p.1 ≠ [] ∧ Forall line_char p.1 ∧ Forall (λ c, c ≠ 38 ∧ c ≠ 61) p.1 ∧ Forall (λ c, c ≠ 38) p.2 ∧ good_value p.1 p.2.

Definition set_params (ps : list (list Z * list Z)) (ls : list (list Z)) : list (list Z) := foldl (λ ls p, set_param p.1 p.2 ls) ls ps.

Lemma cut_at_app c u s : Forall (λ x, x ≠ c) u → cut_at c (u ++ c :: s) = (u, Some s).
Proof. induction 1 as [|x u Hx _ IH]; cbn [app cut_at]; [by rewrite Z.eqb_refl|]. destruct (Z.eqb_spec x c); [done|]. by rewrite IH. Qed.

Lemma cut_at_end c u : Forall (λ x, x ≠ c) u → cut_at c u = (u, None).
Proof. induction 1 as [|x u Hx _ IH]; [done|]. cbn [cut_at]. destruct (Z.eqb_spec x c); [done|]. by rewrite IH. Qed.

Lemma strtok_token c u s : u ≠ [] → Forall (λ x, x ≠ c) u → strtok c (u ++ s) = Some (cut_at c (u ++ s)).
Proof. intros Hne Hu. destruct Hu as [|x u Hx _]; [done|]. unfold strtok. cbn [app skip_char]. by destruct (Z.eqb_spec x c). Qed.

Lemma strtok_assigns u ps : u ≠ [] → Forall (λ x, x ≠ 38) u → strtok 38 (u ++ assigns ps) = Some (u, behind_of ps).
Proof.
  intros Hne Hu. rewrite strtok_token by done. f_equal. destruct ps as [|p ps].
  - unfold assigns. cbn [map concat]. rewrite app_nil_r. by apply cut_at_end.
  - unfold assigns. cbn [map concat app]. by apply cut_at_app.
Qed.

Lemma assign_token p : good_assign p → assign p ≠ [] ∧ Forall (λ x, x ≠ 38) (assign p).
Proof.
  intros (Hne & _ & Hn & Hv & _). split; [by destruct p as [[|? ?] ?]|]. apply Forall_app. split; [eapply Forall_impl; [exact Hn|]; naive_solver|by constructor].
Qed.

Lemma assign_name_value p behind : good_assign p → name_value (assign p) behind = Ok p.
Proof.
  intros (Hne & _ & Hn & _). assert (Forall (λ x, x ≠ 61) p.1) as H by (eapply Forall_impl; [exact Hn|]; naive_solver).
  unfold name_value, assign. rewrite strtok_token, cut_at_app by done. by destruct p.
Qed.

Lemma update_assigns ps g : ∀ fs ls fuel, the_file fs g = Some (file_of ls) → Forall wf_line ls → Forall good_assign ps → (length ps < fuel)%nat →
  update_params fuel fs true g (behind_of ps) = Ok (0, put_file fs g (file_of (set_params ps ls))).
Proof.
  induction ps as [|p ps IH]; intros fs ls [|fuel] Hf Hls Hps Hfuel; cbn [length] in Hfuel; try lia.
  - cbn. by rewrite put_the.
  - apply Forall_cons in Hps as [Hp Hps]. destruct (assign_token p Hp) as [Hne Htok]. cbn [behind_of update_params].
    rewrite strtok_assigns by done. rewrite assign_name_value, bind_Ok by done. destruct Hp as (_ & Hn & _ & _ & Hv). destruct p as [n v]. cbn [fst snd] in *.
    rewrite (write_lines fs g ls) by done. rewrite bind_Ok. change (negb (0 =? 0)) with false. cbn iota.
    rewrite (IH _ (set_param n v ls)); [by rewrite put_put|apply the_put|by apply set_param_wf|done|lia].
Qed.

(** Names of which no one starts another. *)
Fixpoint names_apart (ps : list (list Z * list Z)) : Prop := match ps with [] => True | p :: ps => Forall (λ q, apart p.1 q.1) ps ∧ names_apart ps end.

Lemma lookup_set_params name ps ls : Forall (λ q, apart q.1 name) ps → lookup_param (set_params ps ls) name = lookup_param ls name.
Proof. intros H. revert ls. induction H as [|q ps Hq _ IH]; intros ls; [done|]. unfold set_params in *. cbn [foldl]. rewrite IH. by apply lookup_set_other. Qed.

Lemma apart_sym a b : apart a b → apart b a.
Proof. by intros [? ?]. Qed.

Lemma exists_set_param name other value ls : apart name other → Exists (λ l, starts_with other l = true) ls → Exists (λ l, starts_with other l = true) (set_param name value ls).
Proof.
  intros Ha. induction 1 as [l ls H|l ls _ IH]; cbn [set_param map]; [|by right]. left. destruct (starts_with name l) eqn:E; [|done].
  rewrite (apart_lines name other l Ha E) in H. done.
Qed.

Lemma set_params_all ps : names_apart ps → Forall (λ p, good_value p.1 p.2) ps → ∀ ls, Forall (λ p, Exists (λ l, starts_with p.1 l = true) ls) ps →
  Forall (λ p, lookup_param (set_params ps ls) p.1 = Some p.2) ps.
Proof.
  induction ps as [|p ps IH]; intros Ha Hv ls Hex; [constructor|]. destruct Ha as [Ha Has]. apply Forall_cons in Hv as [Hv Hvs], Hex as [Hex Hexs].
  unfold set_params. cbn [foldl]. fold (set_params ps (set_param p.1 p.2 ls)). constructor.
  - rewrite lookup_set_params; [by apply lookup_set_same|]. eapply Forall_impl; [exact Ha|]. intros q. apply apart_sym.
  - apply IH; try done. rewrite Forall_forall in Ha, Hexs |- *. intros q Hq. apply exists_set_param; [by apply Ha|by apply Hexs].
Qed.

Lemma set_params_wf ps ls : Forall good_assign ps → Forall wf_line ls → Forall wf_line (set_params ps ls).
Proof.
  intros Hps. revert ls. induction Hps as [|p ps (_ & Hn & _ & _ & Hv) _ IH]; intros ls Hls; [done|]. unfold set_params in *. cbn [foldl]. apply IH. by apply set_param_wf.
Qed.

Definition group_name (g : config_group) : list Z := match g with eCONFIG_GROUP_WIFI => lit "wifi" | eCONFIG_GROUP_STREAM => lit "stream" end.

(** The query of an update of the parameters [ps]. *)
Definition update_query (g : config_group) (ps : list (list Z * list Z)) : list Z := lit "action=update&group=" ++ group_name g ++ assigns ps.

(** No part of the query is taken for the action [list] or for another group. *)
Definition unambiguous (g : config_group) (ps : list (list Z * list Z)) : Prop :=
  contains (lit "update&group=" ++ group_name g ++ assigns ps) (lit "list") = false ∧
  configs_search_groupname (group_name g ++ assigns ps) = Some g.

(** ** Properties *)

(** A parameter that is written is read back, with its exact value, an SSID in quotes; every
    parameter whose name is neither a prefix of the written one nor starts with it keeps its
    value, the other configuration file keeps its bytes, and the written file is again one of
    short lines, so that any number of updates can follow. *)
Theorem param_roundtrip fs g ls name value : the_file fs g = Some (file_of ls) → Forall wf_line ls → Forall line_char name → good_value name value →
  Exists (λ l, starts_with name l = true) ls →
  ∃ ls', WriteParamStr fs true g name value = Ok (0, put_file fs g (file_of ls')) ∧
    Forall wf_line ls' ∧ length ls' = length ls ∧
    ReadParamStr (put_file fs g (file_of ls')) g name 128 = Ok (0, value) ∧
    (∀ other, Forall line_char other → apart name other → lines_fit ls other →
       ReadParamStr (put_file fs g (file_of ls')) g other 128 = ReadParamStr fs g other 128) ∧
    (∀ g', g' ≠ g → the_file (put_file fs g (file_of ls')) g' = the_file fs g').
Proof.
  intros Hf Hls Hn Hv Hex. pose proof (set_param_wf name value ls Hn Hv Hls) as Hwf. pose proof (lookup_set_same name value ls Hv Hex) as Hsame.
  exists (set_param name value ls). split_and!.
  - by apply write_lines.
  - done.
  - apply length_map.
  - rewrite (read_lines _ _ (set_param name value ls)); [by rewrite Hsame|apply the_put|done|done|].
    intros v Ev. rewrite Hsame in Ev. injection Ev as <-. apply Hv.
  - intros other Ho Ha Hfit. rewrite (read_lines fs g ls) by done.
    rewrite (read_lines _ _ (set_param name value ls)); [by rewrite lookup_set_other|apply the_put|done|done|].
    unfold lines_fit. by rewrite lookup_set_other.
  - by destruct g, g'.
Qed.

Lemma param_roundtrip_witness : ∃ ls', WriteParamStr (MkFiles (Some (lit "SSID x" ++ [10])) None) true eCONFIG_GROUP_WIFI (lit "SSID") (lit "my net")
  = Ok (0, put_file (MkFiles (Some (lit "SSID x" ++ [10])) None) eCONFIG_GROUP_WIFI (file_of ls')).
Proof.
  destruct (param_roundtrip (MkFiles (Some (lit "SSID x" ++ [10])) None) eCONFIG_GROUP_WIFI [lit "SSID x"] (lit "SSID") (lit "my net")) as (ls' & H & _);
    [reflexivity|repeat constructor; cbn; lia|repeat constructor; cbn; lia| |left; reflexivity|by exists ls'].
  split_and!; [done|cbn; lia|cbn; lia|repeat constructor; cbn; lia|repeat constructor; reflexivity].
Defined.

(** The group name itself is the first token, and is taken for a parameter: no line starts
    with it. *)
Lemma update_group fs g ls ps : the_file fs g = Some (file_of ls) → Forall wf_line ls → Forall (λ l, starts_with (group_name g) l = false) ls →
  ps ≠ [] → Forall good_assign ps →
  update_params (S (length (group_name g ++ assigns ps))) fs true g (Some (group_name g ++ assigns ps)) = Ok (0, put_file fs g (file_of (set_params ps ls))).
Proof.
  intros Hf Hls Hg Hne Hps. cbn [update_params]. rewrite strtok_assigns by (destruct g; repeat constructor; done).
  destruct ps as [|p ps]; [done|]. cbn [behind_of].
  assert (name_value (group_name g) (Some (assign p ++ assigns ps)) = Ok (group_name g, assign p ++ assigns ps)) as -> by by destruct g.
  rewrite bind_Ok, (write_lines fs g ls), set_param_absent, bind_Ok by (done || (destruct g; repeat constructor; done)).
  rewrite put_the by done. cbn iota. change (negb (0 =? 0)) with false. cbn iota. apply (update_assigns (p :: ps)); try done.
  rewrite length_app. unfold assigns. generalize (p :: ps). intros qs. induction qs as [|q qs IH]; cbn [map concat length]; [destruct g; cbn; lia|].
  cbn [app length]. rewrite length_app. destruct g; cbn [group_name] in *; lia.
Qed.


