(* ===== verification/Event.v ===== *)
(** * The event loop ([event.c])

    Time arithmetic, events and their flags, and the turns of the loop.
    Events are named by numbers, their addresses, and live in a store; the three lists
    are kept newest first, as [add_*_event] links them.  What callbacks do to the loop
    they do through its functions: a callback is a parameter that gives the calls it
    makes.  A list is walked as it was when the walk began, which is what following
    [next] does while callbacks only add at the front. *)

From S2P Require Import Prelude Rtp.

Local Open Scope Z_scope.
Local Open Scope c_scope.

(** ** Time *)

(** [time_ref]: seconds and microseconds, in the 32-bit [long] of the target. *)
Definition time_ref := (Z * Z)%type.

Definition time_diff (tr_start tr_end : time_ref) : Z :=
  Z.quot (i32 (i32 (i32 (i32 (i32 (tr_end.1 - tr_start.1) * 1000000) + tr_end.2) - tr_start.2) + 500)) 1000.

Definition time_add (tr : time_ref) (msec : Z) : time_ref :=
  let sec := i32 (tr.1 + Z.quot msec 1000) in
  let usec := i32 (tr.2 + Z.rem msec 1000 * 1000) in
  if 1000000 <=? usec then (i32 (sec + 1), usec - 1000000) else (sec, usec).

(** [time_ago] and [time_future] with what [gettimeofday] returns. *)
Definition time_ago (tr now : time_ref) : Z := time_diff tr now.

Definition time_future (now : time_ref) (msec : Z) : time_ref := time_add now msec.

(** ** Events *)

Definition EVENT_F_ENABLED : Z := 1.
Definition EVENT_F_REMOVE : Z := 2.
Definition EVENT_F_ONESHOT : Z := 4.
Definition EVENT_F_RUNNING : Z := 8.

Inductive event_type := EVENT_TIME | EVENT_FD | EVENT_ALWAYS.

Record event := MkEvent {
  e_func : nat; e_type : event_type; e_flags : Z;
  e_fire : time_ref; e_ival : Z;         (* ev.time *)
  e_fd : Z; e_write : bool }.            (* ev.fd *)

Definition has (flags bit : Z) : bool := truth (flags .& bit).
Definition set_bit (flags bit : Z) : Z := flags .| bit.
Definition clear_bits (flags bits : Z) : Z := Z.ldiff flags bits.

Definition with_flags (e : event) (f : Z) : event :=
  MkEvent (e_func e) (e_type e) f (e_fire e) (e_ival e) (e_fd e) (e_write e).
Definition with_fire (e : event) (t : time_ref) : event :=
  MkEvent (e_func e) (e_type e) (e_flags e) t (e_ival e) (e_fd e) (e_write e).
Definition with_ival (e : event) (ms : Z) : event :=
  MkEvent (e_func e) (e_type e) (e_flags e) (e_fire e) ms (e_fd e) (e_write e).

(** [tr] is [NULL] or a time; [now] is read only for an event that is not enabled. *)
Definition resched_event (e : event) (tr : option time_ref) (now : time_ref) : event :=
  let e :=
    match tr with
    | Some t => with_fire e t
    | None =>
        if has (e_flags e) EVENT_F_ENABLED then with_fire e (time_add (e_fire e) (e_ival e))
        else with_fire e (time_future now (e_ival e))
    end in
  with_flags e (set_bit (clear_bits (e_flags e) EVENT_F_REMOVE) EVENT_F_ENABLED).

Definition remove_event (e : event) : event :=
  with_flags e (clear_bits (set_bit (e_flags e) EVENT_F_REMOVE) (EVENT_F_RUNNING .| EVENT_F_ENABLED)).

Definition set_event_interval (e : event) (msec : Z) (now : time_ref) : event :=
  let e := with_ival e msec in
  if has (e_flags e) EVENT_F_ENABLED then resched_event e None now else e.

Definition set_event_enabled (e : event) (enabled : bool) : event :=
  let f := clear_bits (e_flags e) EVENT_F_ENABLED in
  with_flags e (if enabled then set_bit f EVENT_F_ENABLED else f).

Definition get_event_enabled (e : event) : Z := if has (e_flags e) EVENT_F_ENABLED then 1 else 0.

(** ** The loop's state *)

Record loop := MkLoop {
  l_events : gmap nat event;
  time_event_list : list nat;
  fd_event_list : list nat;
  always_event_list : list nat;
  end_loop : bool;
  l_fresh : nat }.

Definition set_event (l : loop) (id : nat) (e : event) : loop :=
  MkLoop (<[id := e]> (l_events l)) (time_event_list l) (fd_event_list l) (always_event_list l)
    (end_loop l) (l_fresh l).

Definition update_event (l : loop) (id : nat) (f : event → event) : outcome loop :=
  match l_events l !! id with
  | None => Undef
  | Some e => Ok (set_event l id (f e))
  end.

(** [new_event], linked at the front of its list. *)
Definition add_event (l : loop) (e : event) : loop :=
  let id := l_fresh l in
  let events := <[id := e]> (l_events l) in
  match e_type e with
  | EVENT_TIME =>
      MkLoop events (id :: time_event_list l) (fd_event_list l) (always_event_list l) (end_loop l) (S id)
  | EVENT_FD =>
      MkLoop events (time_event_list l) (id :: fd_event_list l) (always_event_list l) (end_loop l) (S id)
  | EVENT_ALWAYS =>
      MkLoop events (time_event_list l) (fd_event_list l) (id :: always_event_list l) (end_loop l) (S id)
  end.

Definition add_timer_event (l : loop) (msec flags : Z) (f : nat) (now now' : time_ref) : loop :=
  add_event l (resched_event (MkEvent f EVENT_TIME flags now msec 0 false) None now').

(** [ev.time.ival] is not set. *)
Definition add_alarm_event (l : loop) (t : time_ref) (flags : Z) (f : nat) (junk : Z) : loop :=
  add_event l (resched_event (MkEvent f EVENT_TIME (set_bit flags EVENT_F_ONESHOT) t junk 0 false) (Some t) t).

Definition add_fd_event (l : loop) (fd : Z) (write : bool) (flags : Z) (f : nat) : loop :=
  add_event l (MkEvent f EVENT_FD (set_bit flags EVENT_F_ENABLED) (0, 0) 0 fd write).

Definition add_always_event (l : loop) (flags : Z) (f : nat) : loop :=
  add_event l (MkEvent f EVENT_ALWAYS (set_bit flags EVENT_F_ENABLED) (0, 0) 0 0 false).

Definition exit_event_loop (l : loop) : loop :=
  MkLoop (l_events l) (time_event_list l) (fd_event_list l) (always_event_list l) true (l_fresh l).

(** ** Callbacks *)

(** The calls of this interface that a callback makes. *)
Inductive action :=
| ActRemove (e : nat)
| ActEnable (e : nat) (enabled : bool)
| ActResched (e : nat) (t : option time_ref) (now : time_ref)
| ActInterval (e : nat) (msec : Z) (now : time_ref)
| ActTimer (msec flags : Z) (f : nat) (now now' : time_ref)
| ActAlarm (t : time_ref) (flags : Z) (f : nat) (junk : Z)
| ActFd (fd : Z) (write : bool) (flags : Z) (f : nat)
| ActAlways (flags : Z) (f : nat)
| ActExit.

Definition act (l : loop) (a : action) : outcome loop :=
  match a with
  | ActRemove e => update_event l e remove_event
  | ActEnable e b => update_event l e (λ x, set_event_enabled x b)
  | ActResched e t now => update_event l e (λ x, resched_event x t now)
  | ActInterval e ms now => update_event l e (λ x, set_event_interval x ms now)
  | ActTimer ms flags f now now' => Ok (add_timer_event l ms flags f now now')
  | ActAlarm t flags f junk => Ok (add_alarm_event l t flags f junk)
  | ActFd fd w flags f => Ok (add_fd_event l fd w flags f)
  | ActAlways flags f => Ok (add_always_event l flags f)
  | ActExit => Ok (exit_event_loop l)
  end.

Fixpoint acts (l : loop) (as_ : list action) : outcome loop :=
  match as_ with [] => Ok l | a :: as_ => l ← act l a; acts l as_ end.

(** What [select] reported: its result and the descriptors that are set. *)
Record selected := MkSelected { sel_ret : Z; sel_read : Z → bool; sel_write : Z → bool }.

(** A call of a callback: of a timer, with when it was to fire and the time of the call,
    or of an event that was ready. *)
Inductive call :=
| Timer (e : nat) (fire now : time_ref)
| Ready (e : nat).

Definition called (c : call) : nat := match c with Timer e _ _ => e | Ready e => e end.

Section loop.
Context {X : Type}.

(** The function of an event: given the event, the loop and the program's own state,
    the new state and the calls made. *)
Context (callback : nat → nat → loop → X → X * list action).

Definition call_event (e : nat) (c : call) (w : loop * X) : outcome (loop * X * list call) :=
  match l_events w.1 !! e with
  | None => Undef
  | Some ev =>
      let '(x, as_) := callback (e_func ev) e w.1 w.2 in
      l ← acts w.1 as_; Ok (l, x, [c])
  end.

(** Before [select]: an enabled event is marked as running.  The timeout [st] and
    [nexttime] decide how long [select] sleeps: the nearest timer, and not at all when an
    always event is enabled. *)
Definition mark (l : loop) (id : nat) : outcome loop :=
  update_event l id (λ e,
    with_flags e
      (if has (e_flags e) EVENT_F_ENABLED then set_bit (e_flags e) EVENT_F_RUNNING
       else clear_bits (e_flags e) EVENT_F_RUNNING)).

Fixpoint mark_all (l : loop) (ids : list nat) : outcome loop :=
  match ids with [] => Ok l | id :: ids => l ← mark l id; mark_all l ids end.

Fixpoint timeout (l : loop) (ids : list nat) (now : clock) (next : option Z) : option Z * clock :=
  match ids with
  | [] => (next, now)
  | id :: ids =>
      match l_events l !! id with
      | Some e =>
          if has (e_flags e) EVENT_F_ENABLED then
            let diff := i32 (- time_ago (e_fire e) (now O)) in
            let diff := if diff <? 5 then 0 else diff in
            timeout l ids (later now 1)
              (match next with Some n => if diff <? n then Some diff else Some n | None => Some diff end)
          else timeout l ids now next
      | None => timeout l ids now next
      end
  end.

Definition enabled (l : loop) (id : nat) : bool :=
  match l_events l !! id with Some e => has (e_flags e) EVENT_F_ENABLED | None => false end.

(** The three loops after [select]. *)
Fixpoint run_timers (ids : list nat) (now : clock) (w : loop * X) : outcome (loop * X * list call) :=
  match ids with
  | [] => Ok (w.1, w.2, [])
  | id :: ids =>
      match l_events w.1 !! id with
      | None => Undef
      | Some e =>
          if negb (has (e_flags e) EVENT_F_RUNNING) then run_timers ids now w
          else if end_loop w.1 then Ok (w.1, w.2, [])
          else
            let t := now O in
            if i32 (- time_ago (e_fire e) t) <? 5 then
              let e' := if has (e_flags e) EVENT_F_ONESHOT
                        then with_flags e (set_bit (e_flags e) EVENT_F_REMOVE)
                        else resched_event e None (now 1%nat) in
              '(l, x, tr) ← call_event id (Timer id (e_fire e) t) (set_event w.1 id e', w.2);
              '(l, x, tr') ← run_timers ids (later now 2) (l, x);
              Ok (l, x, tr ++ tr')
            else run_timers ids (later now 1) w
      end
  end.

(** [ready] is [FD_ISSET]; always events are always ready. *)
Fixpoint run_ready (ready : event → bool) (ids : list nat) (w : loop * X)
    : outcome (loop * X * list call) :=
  match ids with
  | [] => Ok (w.1, w.2, [])
  | id :: ids =>
      match l_events w.1 !! id with
      | None => Undef
      | Some e =>
          if negb (has (e_flags e) EVENT_F_RUNNING) then run_ready ready ids w
          else if end_loop w.1 then Ok (w.1, w.2, [])
          else if ready e then
            let e' := if has (e_flags e) EVENT_F_ONESHOT
                      then with_flags e (set_bit (e_flags e) EVENT_F_REMOVE) else e in
            '(l, x, tr) ← call_event id (Ready id) (set_event w.1 id e', w.2);
            '(l, x, tr') ← run_ready ready ids (l, x);
            Ok (l, x, tr ++ tr')
          else run_ready ready ids w
      end
  end.

(** [strip_events]. *)
Definition stays (l : loop) (id : nat) : bool :=
  match l_events l !! id with Some e => negb (has (e_flags e) EVENT_F_REMOVE) | None => false end.

Definition strip_events (l : loop) : loop :=
  MkLoop (l_events l) (List.filter (stays l) (time_event_list l)) (List.filter (stays l) (fd_event_list l))
    (List.filter (stays l) (always_event_list l)) (end_loop l) (l_fresh l).

Definition fd_ready (s : selected) (e : event) : bool :=
  if e_write e then sel_write s (e_fd e) else sel_read s (e_fd e).

(** One turn of the [do] loop; [select] answers according to the timeout. *)
Definition event_turn (select : option Z → selected) (now : clock) (w : loop * X)
    : outcome (loop * X * list call) :=
  let '(l, x) := w in
  let '(next, now) := timeout l (time_event_list l) now None in
  let s := select (if existsb (enabled l) (always_event_list l) then Some 0 else next) in
  l ← mark_all l (time_event_list l);
  l ← mark_all l (always_event_list l);
  l ← mark_all l (fd_event_list l);
  '(l, x, tr1) ← run_timers (time_event_list l) now (l, x);
  '(l, x, tr2) ← run_ready (λ _, true) (always_event_list l) (l, x);
  '(l, x, tr3) ← (if 0 <? sel_ret s then run_ready (fd_ready s) (fd_event_list l) (l, x)
                  else Ok (l, x, []));
  Ok (strip_events l, x, tr1 ++ tr2 ++ tr3).

(** [event_loop]: turns until [end_loop] is set, or one if [single]; [env] gives what
    [select] and the clock return in each. *)
Fixpoint turns (fuel : nat) (single : bool) (env : nat → (option Z → selected) * clock) (w : loop * X)
    : outcome (loop * X * list call) :=
  match fuel with
  | O => Diverge
  | S fuel =>
      '(l, x, tr) ← event_turn (env O).1 (env O).2 w;
      if negb (end_loop l) && negb single then
        '(l, x, tr') ← turns fuel single (λ k, env (S k)) (l, x);
        Ok (l, x, tr ++ tr')
      else Ok (l, x, tr)
  end.

Definition event_loop (fuel : nat) (single : bool) (env : nat → (option Z → selected) * clock) (w : loop * X)
    : outcome (loop * X * list call) :=
  let l := w.1 in
  turns fuel single env
    (MkLoop (l_events l) (time_event_list l) (fd_event_list l) (always_event_list l) false (l_fresh l), w.2).

End loop.

(** ** Removed events *)

(** [remove_event] has been called, and nothing has brought the event back. *)
Definition dead (l : loop) (e : nat) : Prop :=
  (e < l_fresh l)%nat ∧
  ∃ ev, l_events l !! e = Some ev ∧ has (e_flags ev) EVENT_F_REMOVE = true ∧
    has (e_flags ev) EVENT_F_ENABLED = false ∧ has (e_flags ev) EVENT_F_RUNNING = false.

(** The calls that bring an event back. *)
Definition revives (e : nat) (a : action) : Prop :=
  match a with
  | ActResched e' _ _ => e' = e
  | ActInterval e' _ _ => e' = e
  | ActEnable e' b => e' = e ∧ b = true
  | _ => False
  end.

Lemma has_set f b c : has (set_bit f b) c = has f c || has b c.
Proof.
  unfold has, set_bit, truth. rewrite Z.land_lor_distr_l.
  destruct (Z.eqb_spec (f .& c .| b .& c) 0) as [E|E].
  - apply Z.lor_eq_0_iff in E as [-> ->]. done.
  - destruct (Z.eqb_spec (f .& c) 0) as [E1|], (Z.eqb_spec (b .& c) 0) as [E2|]; try done.
    by rewrite E1, E2 in E.
Qed.

Lemma has_clear f b c : has (clear_bits f b) c = has f (Z.ldiff c b).
Proof.
  unfold has, clear_bits. f_equal. apply Z.bits_inj'. intros i Hi.
  rewrite !Z.land_spec, !Z.ldiff_spec. by destruct (Z.testbit f i), (Z.testbit b i), (Z.testbit c i).
Qed.

Lemma has_0 f : has f 0 = false.
Proof. unfold has. by rewrite Z.land_0_r. Qed.

(** Which of the four bits are set after a change. *)
Ltac flags :=
  unfold EVENT_F_ENABLED, EVENT_F_REMOVE, EVENT_F_ONESHOT, EVENT_F_RUNNING in *;
  repeat (rewrite has_set || rewrite has_clear);
  repeat match goal with |- context [Z.ldiff ?a ?b] =>
    let v := eval vm_compute in (Z.ldiff a b) in progress change (Z.ldiff a b) with v end;
  repeat match goal with |- context [has (Zpos ?a) ?b] =>
    let v := eval vm_compute in (has (Zpos a) b) in progress change (has (Zpos a) b) with v end;
  rewrite ?has_0, ?orb_false_r, ?orb_true_r.

Lemma remove_event_dead e :
  has (e_flags (remove_event e)) EVENT_F_REMOVE = true ∧
  has (e_flags (remove_event e)) EVENT_F_ENABLED = false ∧
  has (e_flags (remove_event e)) EVENT_F_RUNNING = false.
Proof. unfold remove_event. cbn [e_flags with_flags]. split_and!; by flags. Qed.

Lemma dead_set l e id ev :
  dead l e → (id = e → has (e_flags ev) EVENT_F_REMOVE = true ∧
    has (e_flags ev) EVENT_F_ENABLED = false ∧ has (e_flags ev) EVENT_F_RUNNING = false) →
  dead (set_event l id ev) e.
Proof.
  intros (Hlt & ev0 & E & Hf) Hev. split; [done|]. cbn [set_event l_events].
  destruct (decide (id = e)) as [->|Hne].
  - rewrite lookup_insert_eq. eexists. split; [done|]. by apply Hev.
  - rewrite lookup_insert_ne by done. eauto.
Qed.

Lemma dead_add l e ev : dead l e → dead (add_event l ev) e.
Proof.
  intros (Hlt & ev0 & E & Hf). unfold add_event.
  destruct (e_type ev); (split; [cbn [l_fresh]; lia|]); cbn [l_events]; rewrite lookup_insert_ne by lia; eauto.
Qed.

Lemma dead_act l e a l' : dead l e → ¬ revives e a → act l a = Ok l' → dead l' e.
Proof.
  intros Hd Hr. pose proof Hd as (Hlt & ev0 & E0 & F1 & F2 & F3).
  destruct a as [id|id b|id t now|id ms now|? ? ? ? ?|? ? ? ?|? ? ? ?|? ?|]; cbn [act revives] in *;
    unfold update_event;
    try (destruct (l_events l !! id) as [ev|] eqn:E; [|done]); intros [= <-].
  - apply dead_set; [done|]. intros _. apply remove_event_dead.
  - apply dead_set; [done|]. intros ->. rewrite E0 in E. injection E as <-.
    destruct b; [tauto|]. unfold set_event_enabled. cbn [e_flags with_flags].
    split_and!; flags; done.
  - apply dead_set; [done|]. intros ->. done.
  - apply dead_set; [done|]. intros ->. done.
  - by apply dead_add.
  - by apply dead_add.
  - by apply dead_add.
  - by apply dead_add.
  - done.
Qed.

Lemma dead_acts as_ l e l' :
  dead l e → (∀ a, a ∈ as_ → ¬ revives e a) → acts l as_ = Ok l' → dead l' e.
Proof.
  revert l. induction as_ as [|a as_ IH]; intros l Hd Hr; cbn [acts]; [by intros [= <-]|].
  destruct (act l a) as [l1| | |] eqn:E; try done. rewrite bind_Ok.
  apply IH; [|set_solver]. eapply dead_act; [done| |done]. apply Hr. by left.
Qed.

Lemma dead_mark l e id l' : dead l e → mark l id = Ok l' → dead l' e.
Proof.
  intros Hd. pose proof Hd as (Hlt & ev0 & E0 & F1 & F2 & F3). unfold mark, update_event.
  destruct (l_events l !! id) as [ev|] eqn:E; [|done]. intros [= <-]. apply dead_set; [done|]. intros ->.
  rewrite E0 in E. injection E as <-. rewrite F2. cbn [e_flags with_flags]. split_and!; flags; done.
Qed.

Lemma dead_mark_all ids l e l' : dead l e → mark_all l ids = Ok l' → dead l' e.
Proof.
  revert l. induction ids as [|id ids IH]; intros l Hd; cbn [mark_all]; [by intros [= <-]|].
  destruct (mark l id) as [l1| | |] eqn:E; try done. rewrite bind_Ok. apply IH. by eapply dead_mark.
Qed.

Section removed.
Context {X : Type} (callback : nat → nat → loop → X → X * list action) (e : nat).
Context (Hcb : ∀ f id l x a, a ∈ (callback f id l x).2 → ¬ revives e a).

Lemma dead_call id c w l x tr :
  dead w.1 e → id ≠ e → called c = id → call_event callback id c w = Ok (l, x, tr) →
  dead l e ∧ e ∉ map called tr.
Proof.
  intros Hd Hne Hc. unfold call_event. destruct (l_events w.1 !! id) as [ev|]; [|done].
  pose proof (Hcb (e_func ev) id w.1 w.2) as Hr.
  destruct (callback (e_func ev) id w.1 w.2) as [x' as_]. cbn [snd] in Hr.
  destruct (acts w.1 as_) as [l1| | |] eqn:E; try done. rewrite bind_Ok. intros [= <- <- <-].
  split; [by eapply dead_acts|]. cbn [map]. rewrite Hc. set_solver.
Qed.

Lemma dead_not_running l ev : dead l e → l_events l !! e = Some ev → has (e_flags ev) EVENT_F_RUNNING = false.
Proof. intros (_ & ev0 & E0 & _ & _ & F3) E. rewrite E0 in E. by injection E as <-. Qed.

Lemma dead_run_timers ids now w l x tr :
  dead w.1 e → run_timers callback ids now w = Ok (l, x, tr) → dead l e ∧ e ∉ map called tr.
Proof.
  revert now w l x tr. induction ids as [|id ids IH]; intros now w l x tr Hd; cbn [run_timers].
  { intros [= <- <- <-]. split; [done|]. apply not_elem_of_nil. }
  destruct (l_events w.1 !! id) as [ev|] eqn:E; [|done].
  destruct (has (e_flags ev) EVENT_F_RUNNING) eqn:Er; cbn [negb]; [|by apply IH].
  assert (id ≠ e) as Hne by (intros ->; rewrite (dead_not_running _ _ Hd E) in Er; done).
  destruct (end_loop w.1); [intros [= <- <- <-]; split; [done|]; apply not_elem_of_nil|].
  destruct (_ <? 5); [|by apply IH].
  destruct (call_event callback id _ _) as [[[l1 x1] tr1]| | |] eqn:Ec; try done. rewrite bind_Ok.
  apply dead_call in Ec as [Hd1 Ht1]; [|by apply dead_set|done|done].
  destruct (run_timers callback ids _ _) as [[[l2 x2] tr2]| | |] eqn:E2; try done. rewrite bind_Ok.
  apply IH in E2 as [Hd2 Ht2]; [|done]. intros [= <- <- <-]. split; [done|].
  rewrite map_app. set_solver.
Qed.

Lemma dead_run_ready ready ids w l x tr :
  dead w.1 e → run_ready callback ready ids w = Ok (l, x, tr) → dead l e ∧ e ∉ map called tr.
Proof.
  revert w l x tr. induction ids as [|id ids IH]; intros w l x tr Hd; cbn [run_ready].
  { intros [= <- <- <-]. split; [done|]. apply not_elem_of_nil. }
  destruct (l_events w.1 !! id) as [ev|] eqn:E; [|done].
  destruct (has (e_flags ev) EVENT_F_RUNNING) eqn:Er; cbn [negb]; [|by apply IH].
  assert (id ≠ e) as Hne by (intros ->; rewrite (dead_not_running _ _ Hd E) in Er; done).
  destruct (end_loop w.1); [intros [= <- <- <-]; split; [done|]; apply not_elem_of_nil|].
  destruct (ready ev); [|by apply IH].
  destruct (call_event callback id _ _) as [[[l1 x1] tr1]| | |] eqn:Ec; try done. rewrite bind_Ok.
  apply dead_call in Ec as [Hd1 Ht1]; [|by apply dead_set|done|done].
  destruct (run_ready callback ready ids _) as [[[l2 x2] tr2]| | |] eqn:E2; try done. rewrite bind_Ok.
  apply IH in E2 as [Hd2 Ht2]; [|done]. intros [= <- <- <-]. split; [done|].
  rewrite map_app. set_solver.
Qed.

Definition linked (l : loop) : list nat := time_event_list l ++ fd_event_list l ++ always_event_list l.

Lemma dead_strip l : dead l e → dead (strip_events l) e ∧ e ∉ linked (strip_events l).
Proof.
  intros Hd. split; [done|]. destruct Hd as (_ & ev & E & F & _).
  assert (∀ ids, e ∉ List.filter (stays l) ids) as Hn.
  { intros ids Hi. apply list_elem_of_In, filter_In in Hi as [_ Hs]. unfold stays in Hs.
    rewrite E, F in Hs. done. }
  unfold linked, strip_events. cbn [time_event_list fd_event_list always_event_list].
  rewrite !not_elem_of_app. auto.
Qed.

Lemma dead_turn sel now w l x tr :
  dead w.1 e → event_turn callback sel now w = Ok (l, x, tr) →
  dead l e ∧ (e ∉ linked l) ∧ e ∉ map called tr.
Proof.
  intros Hd. unfold event_turn. destruct w as [l0 x0]. cbn [fst] in Hd.
  destruct (timeout _ _ _ _) as [next now'].
  destruct (mark_all l0 _) as [l1| | |] eqn:E1; try done. rewrite bind_Ok. apply (dead_mark_all _ _ e) in E1; [|done].
  destruct (mark_all l1 _) as [l2| | |] eqn:E2; try done. rewrite bind_Ok. apply (dead_mark_all _ _ e) in E2; [|done].
  destruct (mark_all l2 _) as [l3| | |] eqn:E3; try done. rewrite bind_Ok. apply (dead_mark_all _ _ e) in E3; [|done].
  destruct (run_timers callback _ _ _) as [[[l4 x4] t4]| | |] eqn:E4; try done. rewrite bind_Ok.
  apply dead_run_timers in E4 as [D4 T4]; [|done].
  destruct (run_ready callback _ _ _) as [[[l5 x5] t5]| | |] eqn:E5; try done. rewrite bind_Ok.
  apply dead_run_ready in E5 as [D5 T5]; [|done].
  destruct (if 0 <? _ then _ else _) as [[[l6 x6] t6]| | |] eqn:E6; try done. rewrite bind_Ok.
  assert (dead l6 e ∧ e ∉ map called t6) as [D6 T6].
  { destruct (0 <? _); [by apply dead_run_ready in E6|]. injection E6 as <- <- <-.
    split; [done|]. apply not_elem_of_nil. }
  intros [= <- <- <-]. destruct (dead_strip _ D6) as [D7 N7]. split; [done|]. split; [done|].
  rewrite !map_app. set_solver.
Qed.

Lemma dead_turns fuel single env w l x tr :
  dead w.1 e → turns callback fuel single env w = Ok (l, x, tr) →
  dead l e ∧ (e ∉ linked l) ∧ e ∉ map called tr.
Proof.
  revert env w l x tr. induction fuel as [|fuel IH]; intros env w l x tr Hd; cbn [turns]; [done|].
  destruct (event_turn callback _ _ w) as [[[l1 x1] tr1]| | |] eqn:E1; try done. rewrite bind_Ok.
  apply dead_turn in E1 as (D1 & N1 & T1); [|done].
  destruct (_ && _); [|by intros [= <- <- <-]].
  destruct (turns callback fuel single _ _) as [[[l2 x2] tr2]| | |] eqn:E2; try done. rewrite bind_Ok.
  apply IH in E2 as (D2 & N2 & T2); [|done]. intros [= <- <- <-]. split; [done|]. split; [done|].
  rewrite map_app. set_solver.
Qed.
End removed.


(** Two [always] events; the first is removed, the callback of the second adds a timer. *)
Definition w_loop : loop :=
  add_always_event (add_always_event (MkLoop ∅ [] [] [] false 0) 0 10) 0 11.
Definition w_callback (f id : nat) (l : loop) (x : nat) : nat * list action :=
  (S x, [ActTimer 40 0 12 (7, 0) (7, 0)]).
Definition w_env (k : nat) : (option Z → selected) * clock :=
  (λ _, MkSelected 0 (λ _, false) (λ _, false), λ _, (7, 0)).
Definition w_removed : loop := match act w_loop (ActRemove 0) with Ok l => l | _ => w_loop end.


(** ** Timers *)

Definition microseconds (t : time_ref) : Z := t.1 * 1000000 + t.2.

Definition wf_time (t : time_ref) : Prop := 0 <= t.1 < 2 ^ 31 - 2000 ∧ 0 <= t.2 < 1000000.

Lemma time_diff_exact a b :
  0 <= a.2 < 1000000 → 0 <= b.2 < 1000000 → -2000 < b.1 - a.1 < 2000 →
  time_diff a b = Z.quot (microseconds b - microseconds a + 500) 1000.
Proof.
  intros Ha Hb Hd. unfold time_diff, microseconds.
  rewrite (i32_small (b.1 - a.1)) by lia. rewrite (i32_small ((b.1 - a.1) * 1000000)) by lia.
  rewrite (i32_small ((b.1 - a.1) * 1000000 + b.2)) by lia.
  rewrite (i32_small ((b.1 - a.1) * 1000000 + b.2 - a.2)) by lia.
  rewrite i32_small by lia. f_equal. lia.
Qed.

(** Timers keep their time -- an interval added to a time of day is measured back
    exactly by [time_diff], and a timer that is due [d] milliseconds from now is not
    called while [d] is 5.5 or more: when its callback is tried, the clock is past the
    due time or within 5.5 milliseconds of it. *)
Theorem timer_keeps_time now msec fire :
  wf_time now → 0 <= msec < 1000000 →
  time_diff now (time_add now msec) = msec ∧
  (wf_time fire → -2000 < now.1 - fire.1 < 2000 →
   (i32 (- time_ago fire now) <? 5) = true ↔ microseconds fire - 5500 < microseconds now).
Proof.
  intros Hn Hm. split.
  - pose proof Hn as [Hn1 Hn2]. unfold time_add.
    rewrite Z.quot_div_nonneg, Z.rem_mod_nonneg by lia.
    pose proof (Z.div_mod msec 1000 ltac:(lia)). pose proof (Z.mod_pos_bound msec 1000 ltac:(lia)).
    assert (0 <= msec / 1000 < 1000) by (split; [apply Z.div_pos; lia|apply Z.div_lt_upper_bound; lia]).
    rewrite (i32_small (now.1 + _)), (i32_small (now.2 + _)) by lia.
    destruct (Z.leb_spec 1000000 (now.2 + msec mod 1000 * 1000)).
    + rewrite (i32_small (now.1 + msec / 1000 + 1)), time_diff_exact by (cbn [fst snd]; lia).
      unfold microseconds. cbn [fst snd]. rewrite Z.quot_div_nonneg by lia.
      symmetry. apply Z.div_unique with 500; lia.
    + rewrite time_diff_exact by (cbn [fst snd]; lia).
      unfold microseconds. cbn [fst snd]. rewrite Z.quot_div_nonneg by lia.
      symmetry. apply Z.div_unique with 500; lia.
  - intros Hf Hd. pose proof Hn as [Hn1 Hn2]. pose proof Hf as [Hf1 Hf2].
    unfold time_ago. rewrite time_diff_exact by done. rewrite Z.ltb_lt. unfold microseconds in *.
    set (y := now.1 * 1000000 + now.2 - (fire.1 * 1000000 + fire.2) + 500) in *.
    assert (-3000000000 < y < 3000000000) by lia.
    assert (-3000001 < Z.quot y 1000 < 3000001) by (Z.to_euclidean_division_equations; lia).
    rewrite i32_small by lia. Z.to_euclidean_division_equations; lia.
Qed.

Lemma timer_keeps_time_witness :
  time_diff (1000, 999000) (time_add (1000, 999000) 1500) = 1500 ∧
  ((i32 (- time_ago (1001, 2000) (1000, 999000)) <? 5) = true ↔
   microseconds (1001, 2000) - 5500 < microseconds (1000, 999000)).
Proof.
  assert (wf_time (1000, 999000)) as H1 by (unfold wf_time; cbn; lia).
  assert (wf_time (1001, 2000)) as H2 by (unfold wf_time; cbn; lia).
  assert (0 <= 1500 < 1000000) as H3 by lia.
  assert (-2000 < (1000, 999000).1 - (1001, 2000).1 < 2000) as H4 by (cbn; lia).
  destruct (timer_keeps_time (1000, 999000) 1500 (1001, 2000) H1 H3) as [Ha Hb].
  split; [exact Ha|exact (Hb H2 H4)].
Defined.
