(* ===== verification/Meter.v ===== *)
(** * The meters of the sample rate ([frame.c])

    A meter compares the number of samples that come with the number that the rate promises,
    over half a minute, and says how many to add or to drop; and [enlarge_frame_buffer].
    Nothing in the program calls them. *)

From Stdlib Require Import SpecFloat.
From S2P Require Import Prelude Oss Frame Event.

Local Open Scope Z_scope.

(** ** Numbers of type [double] *)

Definition add (x y : spec_float) : spec_float := SFadd 53 1024 x y.
Definition sub (x y : spec_float) : spec_float := SFsub 53 1024 x y.
Definition mul (x y : spec_float) : spec_float := SFmul 53 1024 x y.

(** The conversion to [int]. *)
Definition int_of (x : spec_float) : outcome Z :=
  match x with
  | S754_zero _ => Ok 0
  | S754_finite s m e =>
      let v := if 0 <=? e then Zpos m * 2 ^ e else Zpos m / 2 ^ (- e) in
      let v := if s then - v else v in
      if (- 2 ^ 31 <=? v) && (v <? 2 ^ 31) then Ok v else Undef
  | _ => Undef
  end.

(** ** Meters *)

Record meter := MkMeter {
  m_started : bool; m_downstream : bool; m_last_check : time_ref; m_rate : Z; m_ticks : Z;
  m_slip : spec_float; m_avg_slip : spec_float; m_precomp : Z; m_correction_rate : Z; m_corrected : Z }.

Definition meter_init (junk : time_ref) (fbase : Z) (downstream : bool) : meter :=
  MkMeter false downstream junk fbase 0 (S754_zero false) (S754_zero false) 0 0 0.

(** The signed sum; one that is out of range is undefined. *)
Definition int_add (a b : Z) : outcome Z := if (- 2 ^ 31 <=? a + b) && (a + b <? 2 ^ 31) then Ok (a + b) else Undef.

(** [want]: the caller gives a place for the rate.  The result, what is stored there, and the
    meter. *)
Definition meter_count (m : meter) (ticks : Z) (want : bool) (now : time_ref) : outcome (Z * option Z * meter) :=
  if negb (m_started m) then
    Ok (0, None, MkMeter true (m_downstream m) now (m_rate m) ticks (m_slip m) (m_avg_slip m) (m_precomp m) (m_correction_rate m) (m_corrected m))
  else
  let msec := time_diff (m_last_check m) now in
  if msec <? 30000 then
    t ← int_add (m_ticks m) ticks;
    Ok (0, None, MkMeter true (m_downstream m) (m_last_check m) (m_rate m) t (m_slip m) (m_avg_slip m) (m_precomp m) (m_correction_rate m) (m_corrected m))
  else
  let d := to_double in
  let expected := div_double (mul (d (m_rate m)) (d msec)) (d 1000) in
  let expected := if m_downstream m then expected else sub expected (d (m_corrected m)) in
  let short := sub expected (d (m_ticks m)) in
  let slip := add (add (m_slip m) (sub short (d (m_precomp m)))) (d (m_corrected m)) in
  let avg_slip := add (div_double (mul (d 4) (m_avg_slip m)) (d 5)) (div_double (div_double (mul short (d 1000)) (d msec)) (d 5)) in
  precomp ← int_of (div_double (mul (d 30) avg_slip) (d 2));
  let slip := add slip (d precomp) in
  rate ← int_of (div_double (d (m_ticks m)) slip);
  Ok (if want then 1 else 0, if want then Some rate else None, MkMeter true (m_downstream m) now (m_rate m) ticks slip avg_slip precomp rate 0).

Definition meter_get_adjustment (m : meter) (now : time_ref) : outcome Z :=
  match m_slip m with
  | S754_zero _ => Ok 0
  | slip => int_of (add (div_double (mul slip (to_double (time_ago (m_last_check m) now))) (to_double 30000)) (to_double (m_corrected m)))
  end.

Definition meter_report_correction (m : meter) (ticks : Z) : outcome meter :=
  c ← int_add (m_corrected m) (- ticks);
  Ok (MkMeter (m_started m) (m_downstream m) (m_last_check m) (m_rate m) (m_ticks m) (m_slip m) (m_avg_slip m) (m_precomp m) (m_correction_rate m) c).

(** ** Frames *)

(** [realloc] and the new bytes it gives, [None] when it fails; the frame is at the number [id]. *)
Definition enlarge_frame_buffer (f : frame) (new_size : Z) (mem : option (nat * list Z)) : outcome (option frame) :=
  if new_size =? 0 then Ok None else
  if new_size <? 0 then Undef else
  match mem with
  | None => Ok None
  | Some (id, new) =>
      if (length new <? Z.to_nat new_size)%nat then Undef else
      Ok (Some (MkFrame (f_ref_count f) new_size (f_destructor f) (f_format f) (f_width f) (f_height f) (f_length f) (f_key f) (f_step f) id (f_timestamp f)
                  (take (Z.to_nat new_size) (f_data f ++ drop (length (f_data f)) new))))
  end.

(** ** Theorems *)

(** The calls of [meter_count] with their times. *)
Fixpoint count_all (m : meter) (l : list (Z * time_ref)) : outcome (list Z * meter) :=
  match l with
  | [] => Ok ([], m)
  | (ticks, now) :: l => '(r, _, m) ← meter_count m ticks true now; '(rs, m) ← count_all m l; Ok (r :: rs, m)
  end.

Lemma count_started m l : m_started m = true → Forall (λ x, 0 <= x.1 ∧ time_diff (m_last_check m) x.2 < 30000) l →
  0 <= m_ticks m → m_ticks m + foldr Z.add 0 (map fst l) < 2 ^ 31 →
  ∃ m', count_all m l = Ok (replicate (length l) 0, m') ∧ m_ticks m' = m_ticks m + foldr Z.add 0 (map fst l) ∧ m_last_check m' = m_last_check m.
Proof.
  revert m. induction l as [|[t now] l IH]; intros m Hs Hl H0 Hsum; [exists m; cbn; split_and!; [done|lia|done]|].
  apply Forall_cons in Hl as [[Ht Hd] Hl]. cbn [fst snd map foldr] in *. cbn [count_all]. unfold meter_count. rewrite Hs. cbn [negb]. rewrite (proj2 (Z.ltb_lt _ _)) by done.
  assert (0 <= foldr Z.add 0 (map fst l)) as Hf.
  { clear -Hl. induction Hl as [|[a b] l [H _] _ IH]; cbn in *; lia. }
  unfold int_add. rewrite (proj2 (Z.leb_le _ _)), (proj2 (Z.ltb_lt _ _)) by lia. cbn [andb]. rewrite !bind_Ok.
  edestruct (IH (MkMeter true (m_downstream m) (m_last_check m) (m_rate m) (m_ticks m + t) (m_slip m) (m_avg_slip m) (m_precomp m) (m_correction_rate m) (m_corrected m)))
    as (m' & -> & E & E'); [done|exact Hl|cbn; lia|cbn; lia|].
  rewrite bind_Ok. exists m'. split; [done|]. cbn in E. split; [lia|done].
Qed.

(** During the first half minute the meter only counts: every call answers 0, and the meter has all
    the samples. *)
Theorem meter_counts junk fbase down t0 start l : 0 <= t0 → Forall (λ x, 0 <= x.1 ∧ time_diff start x.2 < 30000) l → t0 + foldr Z.add 0 (map fst l) < 2 ^ 31 →
  ∃ m, count_all (meter_init junk fbase down) ((t0, start) :: l) = Ok (replicate (S (length l)) 0, m) ∧ m_ticks m = t0 + foldr Z.add 0 (map fst l).
Proof.
  intros Ht Hl Hsum. cbn [count_all]. unfold meter_count at 1. cbn [meter_init m_started negb]. rewrite bind_Ok.
  edestruct (count_started (MkMeter true down start fbase t0 (S754_zero false) (S754_zero false) 0 0 0)) as (m' & -> & E & _); [done|exact Hl|done|done|].
  rewrite bind_Ok. by exists m'.
Qed.

(** A source that keeps exactly to its rate divides by a slip of 0. *)
Example exact_rate_divides :
  let t s := (s, 0) in
  count_all (meter_init (t 0) 8000 true) [(0, t 0); (240000, t 10)] = Ok ([0; 0], MkMeter true true (t 0) 8000 240000 (S754_zero false) (S754_zero false) 0 0 0) ∧
  count_all (meter_init (t 0) 8000 true) [(0, t 0); (240000, t 10); (1, t 30)] = Undef.
Proof. by vm_compute. Qed.
