(* ===== verification/SoftQueue.v ===== *)
(** * Soft queues ([event.c])

    The queue of messages between threads: two circular doubly linked lists of the same
    nodes, the ones in use and the empty ones.  The [next], [prev] and [event_data] of
    the nodes are three maps from addresses.  The queue's other code, [sq_run] and the
    events that listen to the queue, is written against an interface to the lists, which
    the linked lists and a bounded queue both implement.  Each function runs with the
    queue's mutex held, and callbacks with the mutex free. *)

From S2P Require Import Prelude Event.

(** ** The linked lists *)

Record nodes := MkNodes { n_next : gmap nat nat; n_prev : gmap nat nat; n_data : gmap nat nat }.

Definition ptr (m : gmap nat nat) (a : nat) : outcome nat :=
  match m !! a with Some v => Ok v | None => Undef end.

Definition set_next (h : nodes) (a v : nat) : nodes := MkNodes (<[a := v]> (n_next h)) (n_prev h) (n_data h).
Definition set_prev (h : nodes) (a v : nat) : nodes := MkNodes (n_next h) (<[a := v]> (n_prev h)) (n_data h).
Definition set_data (h : nodes) (a v : nat) : nodes := MkNodes (n_next h) (n_prev h) (<[a := v]> (n_data h)).

(** [remove_from_list(&list)] with [*list = se]. *)
Definition remove_from_list (h : nodes) (se : nat) : outcome (nodes * option nat) :=
  next ← ptr (n_next h) se;
  if (next =? se)%nat then Ok (h, None) else
  prev ← ptr (n_prev h) se;
  Ok (set_prev (set_next h prev next) next prev, Some next).

(** [add_to_list(se, &list)]: at the end, before the head. *)
Definition add_to_list (h : nodes) (se : nat) (list_ : option nat) : outcome (nodes * option nat) :=
  match list_ with
  | Some l =>
      let h := set_next h se l in
      prev ← ptr (n_prev h) l;
      let h := set_prev h se prev in
      let h := set_prev h l se in
      Ok (set_next h prev se, Some l)
  | None => Ok (set_prev (set_next h se se) se se, Some se)
  end.

(** ** The queue *)

(** The two lists of a [soft_queue]. *)
Record se_lists := MkSeLists { sq_nodes : nodes; empty_se_list : option nat; se_list : option nat }.

Fixpoint add_empty (length : nat) (i : nat) (h : nodes) (l : option nat) : outcome (nodes * option nat) :=
  match length with
  | O => Ok (h, l)
  | S length => '(h, l) ← add_to_list h i l; add_empty length (S i) h l
  end.

(** The loop of [new_soft_queue]. *)
Definition new_se_lists (length : nat) : outcome se_lists :=
  '(h, l) ← add_empty length 0 (MkNodes ∅ ∅ ∅) None; Ok (MkSeLists h l None).

(** [None] is the [NULL] of an empty queue. *)
Definition locked_get_next_event (sq : se_lists) : outcome (option nat * se_lists) :=
  match se_list sq with
  | None => Ok (None, sq)
  | Some se =>
      '(h, used) ← remove_from_list (sq_nodes sq) se;
      d ← ptr (n_data h) se;
      '(h, empty) ← add_to_list h se (empty_se_list sq);
      Ok (Some d, MkSeLists h empty used)
  end.

(** [soft_queue_add] on the lists; [false] when no node is empty. *)
Definition put_event (sq : se_lists) (d : nat) : outcome (bool * se_lists) :=
  match empty_se_list sq with
  | None => Ok (false, sq)
  | Some se =>
      '(h, empty) ← remove_from_list (sq_nodes sq) se;
      '(h, used) ← add_to_list h se (se_list sq);
      Ok (true, MkSeLists (set_data h se d) empty used)
  end.

(** What the rest of the queue's code needs of the two lists. *)
Class Fifo (Q : Type) := {
  get : Q → outcome (option nat * Q);
  put : Q → nat → outcome (bool * Q) }.

#[export] Instance se_fifo : Fifo se_lists := { get := locked_get_next_event; put := put_event }.

(** What it promises: at most [n] messages, first in, first out. *)
Record bounded := MkBounded { capacity : nat; messages : list nat }.

#[export] Instance bounded_fifo : Fifo bounded := {
  get q := match messages q with
           | [] => Ok (None, q)
           | d :: l => Ok (Some d, MkBounded (capacity q) l)
           end;
  put q d := if (length (messages q) <? capacity q)%nat
             then Ok (true, MkBounded (capacity q) (messages q ++ [d])) else Ok (false, q) }.

(** ** The queue and its events *)

(** The pipe is the number of bytes in it, when there is an [fd_event]; the events are
    their addresses and flags; [sq_end] is [end_loop]. *)
Record soft_queue (Q : Type) := MkSq {
  sq_lists : Q; sq_pipe : option nat; ev_list : list (nat * Z); sq_fresh : nat; sq_end : bool }.
Arguments MkSq {Q}. Arguments sq_lists {Q}. Arguments sq_pipe {Q}. Arguments ev_list {Q}.
Arguments sq_fresh {Q}. Arguments sq_end {Q}.

Definition new_soft_queue (length : nat) : outcome (soft_queue se_lists) :=
  q ← new_se_lists length; Ok (MkSq q None [] 0 false).

(** What a thread, or a callback, does with the queue: [soft_queue_add], the part of
    [get_next_event] after the wait, [add_softqueue_event] (with the result of [pipe]),
    [remove_event] and [exit_event_loop]. *)
Inductive sq_op :=
  | SAdd (d : nat)
  | SGet
  | SListen (pipe_ok : bool) (flags : Z)
  | SRemove (e : nat)
  | SExit.

Inductive sq_result :=
  | RAdd (ok : bool)
  | RGet (d : option nat)
  | RListen (e : option nat)
  | RDone
  | RCall (e : nat) (d : option nat).

Section queue.
Context {Q : Type} `{!Fifo Q}.

Definition soft_queue_add (sq : soft_queue Q) (d : nat) : outcome (bool * soft_queue Q) :=
  '(ok, q) ← put (sq_lists sq) d;
  if (ok : bool) then Ok (true, MkSq q (S <$> sq_pipe sq) (ev_list sq) (sq_fresh sq) (sq_end sq))
  else Ok (false, MkSq q (sq_pipe sq) (ev_list sq) (sq_fresh sq) (sq_end sq)).

Definition get_next_event (sq : soft_queue Q) : outcome (option nat * soft_queue Q) :=
  '(d, q) ← get (sq_lists sq);
  Ok (d, MkSq q (sq_pipe sq) (ev_list sq) (sq_fresh sq) (sq_end sq)).

Definition add_softqueue_event (sq : soft_queue Q) (pipe_ok : bool) (flags : Z) : option nat * soft_queue Q :=
  let attach fd :=
    let e := sq_fresh sq in
    (Some e, MkSq (sq_lists sq) fd ((e, set_bit flags EVENT_F_ENABLED) :: ev_list sq) (S e) (sq_end sq)) in
  match sq_pipe sq with
  | None => if pipe_ok then attach (Some O) else (None, sq)
  | fd => attach fd
  end.

(** [e->flags |= EVENT_F_REMOVE; e->flags &= ~(EVENT_F_RUNNING | EVENT_F_ENABLED)] of [remove_event]. *)
Definition remove_listener (sq : soft_queue Q) (e : nat) : soft_queue Q :=
  MkSq (sq_lists sq) (sq_pipe sq)
    ((λ p : nat * Z, if (p.1 =? e)%nat then (p.1, clear_bits (set_bit p.2 EVENT_F_REMOVE) (Z.lor EVENT_F_RUNNING EVENT_F_ENABLED)) else p) <$> ev_list sq)
    (sq_fresh sq) (sq_end sq).

Definition sq_do (sq : soft_queue Q) (op : sq_op) : outcome (sq_result * soft_queue Q) :=
  match op with
  | SAdd d => '(ok, sq) ← soft_queue_add sq d; Ok (RAdd ok, sq)
  | SGet => '(d, sq) ← get_next_event sq; Ok (RGet d, sq)
  | SListen ok flags => let '(e, sq) := add_softqueue_event sq ok flags in Ok (RListen e, sq)
  | SRemove e => Ok (RDone, remove_listener sq e)
  | SExit => Ok (RDone, MkSq (sq_lists sq) (sq_pipe sq) (ev_list sq) (sq_fresh sq) true)
  end.

Fixpoint sq_dos (sq : soft_queue Q) (ops : list sq_op) : outcome (list sq_result * soft_queue Q) :=
  match ops with
  | [] => Ok ([], sq)
  | op :: ops => '(r, sq) ← sq_do sq op; '(rs, sq) ← sq_dos sq ops; Ok (r :: rs, sq)
  end.

(** What happens to the queue while event [e] is called with message [d], the mutex being
    free: what the callback and the other threads do. *)
Context (callback : nat → option nat → list sq_op).

Definition mark_oneshot (sq : soft_queue Q) (e : nat) : soft_queue Q :=
  MkSq (sq_lists sq) (sq_pipe sq)
    ((λ p : nat * Z, if (p.1 =? e)%nat && has p.2 EVENT_F_ONESHOT then (p.1, set_bit p.2 EVENT_F_REMOVE) else p) <$> ev_list sq)
    (sq_fresh sq) (sq_end sq).

(** The walk of [ev_list]. *)
Fixpoint call_listeners (es : list nat) (d : option nat) (sq : soft_queue Q)
    : outcome (list sq_result * soft_queue Q) :=
  match es with
  | [] => Ok ([], sq)
  | e :: es =>
      if sq_end sq then Ok ([], sq) else
      '(rs, sq) ← sq_dos (mark_oneshot sq e) (callback e d);
      '(rs', sq) ← call_listeners es d sq;
      Ok (RCall e d :: rs ++ rs', sq)
  end.

(** [sq_run]: when the read of the pipe gives nothing the queue stops listening; reading an
    empty pipe blocks. *)
Definition sq_run (read_ok : bool) (sq : soft_queue Q) : outcome (list sq_result * soft_queue Q) :=
  match sq_pipe sq with
  | None => Undef
  | Some n =>
      if read_ok then
        match n with
        | O => Diverge
        | S n =>
            '(d, q) ← get (sq_lists sq);
            let sq := MkSq q (Some n) (ev_list sq) (sq_fresh sq) (sq_end sq) in
            '(rs, sq) ← call_listeners (fst <$> ev_list sq) d sq;
            Ok (rs, MkSq (sq_lists sq) (sq_pipe sq)
                      (List.filter (λ p : nat * Z, negb (has p.2 EVENT_F_REMOVE)) (ev_list sq)) (sq_fresh sq) (sq_end sq))
        end
      else Ok ([], MkSq (sq_lists sq) None (ev_list sq) (sq_fresh sq) (sq_end sq))
  end.

(** The life of a queue: operations of threads, and runs of [sq_run] by the event loop. *)
Inductive sq_step := Op (op : sq_op) | Run (read_ok : bool).

Fixpoint sq_steps (sq : soft_queue Q) (steps : list sq_step) : outcome (list sq_result * soft_queue Q) :=
  match steps with
  | [] => Ok ([], sq)
  | s :: steps =>
      '(rs, sq) ← match s with
                  | Op op => '(r, sq) ← sq_do sq op; Ok ([r], sq)
                  | Run ok => sq_run ok sq
                  end;
      '(rs', sq) ← sq_steps sq steps; Ok (rs ++ rs', sq)
  end.
End queue.

(** ** Paths and rings *)

(** From [a] along [l] to [b], with the links in both directions. *)
Fixpoint path (nx pv : gmap nat nat) (a : nat) (l : list nat) (b : nat) : Prop :=
  match l with
  | [] => nx !! a = Some b ∧ pv !! b = Some a
  | c :: l => nx !! a = Some c ∧ pv !! c = Some a ∧ path nx pv c l b
  end.

(** The nodes of a list, from its head. *)
Definition cycle (h : nodes) (head : option nat) (l : list nat) : Prop :=
  match l with
  | [] => head = None
  | x :: l' => head = Some x ∧ NoDup l ∧ path (n_next h) (n_prev h) x l' x
  end.

Lemma path_frame nx pv nx' pv' a l b :
  path nx pv a l b → (∀ x, x ∈ a :: l → nx' !! x = nx !! x) → (∀ x, x ∈ b :: l → pv' !! x = pv !! x) →
  path nx' pv' a l b.
Proof.
  revert a. induction l as [|c l IH]; intros a; cbn [path].
  - intros [H1 H2] Hn Hp. rewrite Hn, Hp by set_solver. done.
  - intros (H1 & H2 & H3) Hn Hp. rewrite Hn, Hp by set_solver. split; [done|]. split; [done|].
    apply IH; [done| |]; intros x Hx; [apply Hn|apply Hp]; set_solver.
Qed.

(** The last node before [b] is [b]'s predecessor. *)
Lemma path_end nx pv a l b : path nx pv a l b → ∃ z, pv !! b = Some z ∧ z ∈ a :: l ∧ nx !! z = Some b.
Proof.
  revert a. induction l as [|c l IH]; intros a; cbn [path].
  - intros [H1 H2]. exists a. split; [done|]. split; [by left|done].
  - intros (H1 & H2 & H3). destruct (IH c H3) as (z & Hz & Hin & Hnz). exists z. split; [done|].
    split; [by right|done].
Qed.

(** Its successor can be changed, to a node whose predecessor the path does not use. *)
Lemma path_retarget nx pv a l b z c :
  path nx pv a l b → NoDup (a :: l) → b ∉ l → pv !! b = Some z → c ∉ l →
  path (<[z := c]> nx) (<[c := z]> pv) a l c.
Proof.
  revert a. induction l as [|d l IH]; intros a; cbn [path].
  - intros [H1 H2] _ _ Hz _. rewrite H2 in Hz. injection Hz as ->. by rewrite !lookup_insert_eq.
  - intros (H1 & H2 & H3) Hnd Hb Hz Hc. apply NoDup_cons in Hnd as [Ha Hnd].
    assert (z ≠ a) as Hza.
    { intros ->. destruct (path_end _ _ _ _ _ H3) as (z & Hz' & Hin & _). rewrite Hz in Hz'. by injection Hz' as <-. }
    rewrite lookup_insert_ne by done. rewrite lookup_insert_ne by set_solver. split; [done|]. split; [done|].
    apply IH; [done|done|set_solver|done|set_solver].
Qed.

(** A cycle whose nodes' links are untouched stays. *)
Lemma cycle_frame h h' head l :
  cycle h head l → (∀ x, x ∈ l → n_next h' !! x = n_next h !! x ∧ n_prev h' !! x = n_prev h !! x) →
  cycle h' head l.
Proof.
  destruct l as [|x l]; [done|]. intros (H1 & H2 & H3) Hf. split; [done|]. split; [done|].
  eapply path_frame; [done| |]; intros y Hy; by apply Hf.
Qed.

Lemma remove_from_list_cycle h x l :
  cycle h (Some x) (x :: l) →
  ∃ h' head', remove_from_list h x = Ok (h', head') ∧ cycle h' head' l ∧ n_data h' = n_data h ∧
    (∀ y, y ∉ x :: l → n_next h' !! y = n_next h !! y ∧ n_prev h' !! y = n_prev h !! y).
Proof.
  intros (_ & Hnd & Hp). unfold remove_from_list, ptr. apply NoDup_cons in Hnd as [Hx Hnd].
  destruct l as [|y l]; cbn [path] in Hp.
  - destruct Hp as [-> _]. rewrite bind_Ok, Nat.eqb_refl. by do 2 eexists.
  - destruct Hp as (-> & H2 & H3). rewrite bind_Ok. destruct (Nat.eqb_spec y x) as [->|Hyx]; [set_solver|].
    destruct (path_end _ _ _ _ _ H3) as (z & Hz & Hin & _). rewrite Hz, bind_Ok.
    do 2 eexists. split; [done|]. cbn [cycle n_next n_prev n_data set_next set_prev].
    split; [|split; [done|]].
    + split; [done|]. split; [done|]. apply NoDup_cons in Hnd as [Hy Hnd].
      apply (path_retarget _ _ _ _ x); [done|by constructor|set_solver|done|done].
    + intros w Hw. rewrite !lookup_insert_ne by set_solver. done.
Qed.

Lemma add_to_list_cycle h head l se :
  cycle h head l → se ∉ l →
  ∃ h' head', add_to_list h se head = Ok (h', head') ∧ cycle h' head' (l ++ [se]) ∧ n_data h' = n_data h ∧
    (∀ y, y ∉ se :: l → n_next h' !! y = n_next h !! y ∧ n_prev h' !! y = n_prev h !! y).
Proof.
  intros Hr Hse. destruct l as [|x l]; cbn [cycle] in Hr.
  - subst head. cbn [add_to_list app]. do 2 eexists. split; [done|].
    cbn [cycle path n_next n_prev n_data set_next set_prev]. rewrite !lookup_insert_eq.
    split; [split; [done|]; split; [apply NoDup_singleton|done]|]. split; [done|].
    intros y Hy. rewrite !lookup_insert_ne by set_solver. done.
  - destruct Hr as (-> & Hnd & Hp). cbn [add_to_list]. unfold ptr.
    destruct (path_end _ _ _ _ _ Hp) as (z & Hz & Hin & _). cbn [n_prev set_next]. rewrite Hz, bind_Ok.
    do 2 eexists. split; [done|]. cbn [app cycle n_next n_prev n_data set_next set_prev].
    split; [|split; [done|intros y Hy; rewrite !lookup_insert_ne by set_solver; done]].
    split; [done|]. split.
    + rewrite <- (app_nil_r (x :: l ++ [se])). cbn [app]. rewrite app_nil_r.
      change (x :: l ++ [se]) with ((x :: l) ++ [se]). apply NoDup_app. split; [done|].
      split; [set_solver|apply NoDup_singleton].
    + pose proof Hnd as [Hx Hnd']%NoDup_cons.
      assert (path (<[z := se]> (n_next h)) (<[se := z]> (n_prev h)) x l se) as Hp1
        by (apply (path_retarget _ _ _ _ x); [done|done|done|done|set_solver]).
      assert (∀ nx pv a k b c, path nx pv a k b → nx !! b = Some c → pv !! c = Some b → path nx pv a (k ++ [b]) c) as Hsnoc.
      { intros nx pv a k b c. revert a. induction k as [|y k IH]; intros a; cbn [path app]; [tauto|].
        intros (A1 & A2 & A3) A4 A5. split; [done|]. split; [done|]. by apply IH. }
      apply Hsnoc.
      * eapply path_frame; [exact Hp1| |].
        -- intros y Hy. destruct (decide (y = z)) as [->|]; [by rewrite !lookup_insert_eq|].
           rewrite !lookup_insert_ne by set_solver. done.
        -- intros y Hy. rewrite (lookup_insert_ne _ x) by set_solver. done.
      * rewrite lookup_insert_ne by set_solver. by rewrite lookup_insert_eq.
      * by rewrite lookup_insert_eq.
Qed.

(** ** Refinement *)

(** The lists hold the messages of the bounded queue. *)
Definition fifo_rep (q : se_lists) (b : bounded) : Prop :=
  ∃ used empty, cycle (sq_nodes q) (se_list q) used ∧ cycle (sq_nodes q) (empty_se_list q) empty ∧
    NoDup (used ++ empty) ∧ length used + length empty = capacity b ∧
    (λ a, n_data (sq_nodes q) !! a) <$> used = Some <$> messages b.

Lemma cycle_head h head l : cycle h head l → head = List.hd_error l.
Proof. by destruct l; [|intros [-> _]]. Qed.

(** Moving the first node of one cycle to the end of another. *)
Lemma move_head h x from to to_head :
  cycle h (Some x) (x :: from) → cycle h to_head to → NoDup (x :: from ++ to) →
  ∃ h1 from_head h2 to_head',
    remove_from_list h x = Ok (h1, from_head) ∧ n_data h1 = n_data h ∧
    add_to_list h1 x to_head = Ok (h2, to_head') ∧ n_data h2 = n_data h ∧
    cycle h2 from_head from ∧ cycle h2 to_head' (to ++ [x]).
Proof.
  intros Hf Ht Hnd. apply NoDup_cons in Hnd as [Hx Hnd]. apply NoDup_app in Hnd as (Hn1 & Hdis & Hn2).
  destruct (remove_from_list_cycle _ _ _ Hf) as (h1 & fh & E1 & Hf1 & Hd1 & Hfr1).
  assert (cycle h1 to_head to) as Ht1.
  { eapply cycle_frame; [exact Ht|]. intros y Hy. apply Hfr1. set_solver. }
  destruct (add_to_list_cycle h1 to_head to x Ht1) as (h2 & th & E2 & Ht2 & Hd2 & Hfr2); [set_solver|].
  exists h1, fh, h2, th. split; [done|]. split; [done|]. split; [done|]. split; [congruence|].
  split; [|done]. eapply cycle_frame; [exact Hf1|]. intros y Hy. apply Hfr2. set_solver.
Qed.

Lemma get_refines q b :
  fifo_rep q b → ∃ d q' b', get q = Ok (d, q') ∧ get b = Ok (d, b') ∧ fifo_rep q' b'.
Proof.
  intros (used & empty & Hu & He & Hnd & Hlen & Hdat). cbn. unfold locked_get_next_event.
  rewrite (cycle_head _ _ _ Hu). destruct used as [|x used], (messages b) as [|d l] eqn:Hm; try done; cbn [List.hd_error].
  - exists None, q, b. split; [done|]. split; [done|]. exists [], empty. by rewrite Hm.
  - pose proof (cycle_head _ _ _ Hu) as Hh. cbn in Hh. rewrite Hh in Hu.
    destruct (move_head _ _ _ _ _ Hu He Hnd) as (h1 & fh & h2 & th & -> & Hd1 & Hadd & Hd2 & Hr1 & Hr2).
    rewrite bind_Ok. cbn in Hdat. injection Hdat as Hx Hdat. unfold ptr. rewrite Hd1, Hx, bind_Ok, Hadd, bind_Ok.
    do 3 eexists. split; [done|]. split; [done|]. exists used, (empty ++ [x]). cbn [sq_nodes se_list empty_se_list].
    split; [done|]. split; [done|]. split; [|split; [rewrite length_app; cbn in *; lia|by rewrite Hd2]].
    revert Hnd. rewrite app_assoc. apply NoDup_Permutation_proper. by rewrite <- (Permutation_cons_append _ x).
Qed.

Lemma put_refines q b d :
  fifo_rep q b → ∃ ok q' b', put q d = Ok (ok, q') ∧ put b d = Ok (ok, b') ∧ fifo_rep q' b'.
Proof.
  intros (used & empty & Hu & He & Hnd & Hlen & Hdat). cbn [put se_fifo bounded_fifo]. unfold put_event.
  pose proof (f_equal length Hdat) as Hl. rewrite !length_fmap in Hl.
  rewrite (cycle_head _ _ _ He). destruct empty as [|x empty]; cbn [List.hd_error].
  - replace (length (messages b) <? capacity b)%nat with false by (symmetry; apply Nat.ltb_ge; cbn in *; lia).
    do 3 eexists. split; [done|]. split; [done|]. by exists used, [].
  - replace (length (messages b) <? capacity b)%nat with true by (symmetry; apply Nat.ltb_lt; cbn in *; lia).
    pose proof (cycle_head _ _ _ He) as Hh. cbn in Hh. rewrite Hh in He.
    assert (NoDup (x :: empty ++ used)) as Hnd' by (revert Hnd; apply NoDup_Permutation_proper; apply (Permutation_app_comm (x :: empty))).
    destruct (move_head _ _ _ _ _ He Hu Hnd') as (h1 & fh & h2 & th & -> & Hd1 & Hadd & Hd2 & Hr1 & Hr2).
    rewrite bind_Ok, Hadd, bind_Ok. do 3 eexists. split; [done|]. split; [done|].
    exists (used ++ [x]), empty. cbn [sq_nodes se_list empty_se_list].
    split; [eapply cycle_frame; [exact Hr2|done]|]. split; [eapply cycle_frame; [exact Hr1|done]|].
    split; [by rewrite <- app_assoc|].
    split; [cbn; rewrite length_app; cbn in *; lia|]. cbn [n_data set_data messages].
    rewrite !fmap_app. cbn. rewrite lookup_insert_eq, Hd2. f_equal. rewrite <- Hdat.
    apply list_fmap_ext. intros i a Ha. apply lookup_insert_ne. intros ->.
    apply NoDup_app in Hnd as (_ & Hdis & _). apply (Hdis a); [by eapply list_elem_of_lookup_2|by left].
Qed.

Lemma new_se_lists_rep n : ∃ q, new_se_lists n = Ok q ∧ fifo_rep q (MkBounded n []).
Proof.
  assert (∀ n i h head, cycle h head (seq 0 i) →
    ∃ h' head', add_empty n i h head = Ok (h', head') ∧ cycle h' head' (seq 0 (i + n))) as Hadd.
  { intros k. induction k as [|k IH]; intros i h head Hr; cbn [add_empty].
    - rewrite Nat.add_0_r. by do 2 eexists.
    - destruct (add_to_list_cycle _ _ _ i Hr) as (h' & head' & -> & Hr' & _).
      { rewrite elem_of_seq. lia. }
      rewrite bind_Ok. cbn beta iota. rewrite <- Nat.add_succ_comm. apply IH. by rewrite seq_S. }
  destruct (Hadd n O (MkNodes ∅ ∅ ∅) None eq_refl) as (h & head & Hn & Hr).
  unfold new_se_lists. rewrite Hn, bind_Ok. eexists. split; [done|].
  exists [], (seq 0 n). split; [done|]. split; [done|]. split; [apply NoDup_seq|].
  by rewrite length_seq.
Qed.

(** The rest of the code cannot tell one queue from the other. *)
Definition sq_rep (s : soft_queue se_lists) (t : soft_queue bounded) : Prop :=
  fifo_rep (sq_lists s) (sq_lists t) ∧ sq_pipe s = sq_pipe t ∧ ev_list s = ev_list t ∧
  sq_fresh s = sq_fresh t ∧ sq_end s = sq_end t.

(** Both computations end the same way, and with related results when they return. *)
Definition same {R} (c : outcome (R * soft_queue se_lists)) (a : outcome (R * soft_queue bounded)) : Prop :=
  match c, a with
  | Ok (r, s), Ok (r', t) => r = r' ∧ sq_rep s t
  | Diverge, Diverge => True
  | Undef, Undef => True
  | _, _ => False
  end.

Lemma same_bind {R R'} c a (f : R * soft_queue se_lists → outcome (R' * soft_queue se_lists)) g :
  same c a → (∀ r s t, sq_rep s t → same (f (r, s)) (g (r, t))) → same (c ≫= f) (a ≫= g).
Proof.
  intros Hs Hf. destruct c as [[r s]| | |], a as [[r' t]| | |]; try done. destruct Hs as [-> Hs]. by apply Hf.
Qed.

Lemma same_get s t : sq_rep s t → same (get_next_event s) (get_next_event t).
Proof.
  intros (Hq & Hp & He & Hf & Hd). unfold get_next_event.
  destruct (get_refines _ _ Hq) as (d & q' & b' & -> & -> & Hr). cbn. by rewrite Hp, He, Hf, Hd.
Qed.

Lemma same_add s t d : sq_rep s t → same (soft_queue_add s d) (soft_queue_add t d).
Proof.
  intros (Hq & Hp & He & Hf & Hd). unfold soft_queue_add.
  destruct (put_refines _ _ d Hq) as ([|] & q' & b' & -> & -> & Hr); cbn; by rewrite Hp, He, Hf, Hd.
Qed.

Lemma same_do s t op : sq_rep s t → same (sq_do s op) (sq_do t op).
Proof.
  intros Hr. destruct op as [d| |ok flags|e|]; cbn [sq_do].
  - apply same_bind; [by apply same_add|]. by intros ? ? ? ?.
  - apply same_bind; [by apply same_get|]. by intros ? ? ? ?.
  - destruct Hr as (Hq & Hp & He & Hf & Hd). unfold add_softqueue_event. rewrite Hp.
    destruct (sq_pipe t) as [n|] eqn:Ht; [|destruct ok]; cbn; unfold sq_rep; cbn; rewrite ?He, ?Hf, ?Hd; (split; [done|]); by rewrite ?Hp, ?Ht.
  - destruct Hr as (Hq & Hp & He & Hf & Hd). split; [done|]. unfold sq_rep, remove_listener. cbn. by rewrite He.
  - destruct Hr as (Hq & Hp & He & Hf & Hd). by split.
Qed.

Lemma same_dos ops s t : sq_rep s t → same (sq_dos s ops) (sq_dos t ops).
Proof.
  revert s t. induction ops as [|op ops IH]; intros s t Hr; [done|]. cbn [sq_dos].
  apply same_bind; [by apply same_do|]. intros r s' t' Hr'.
  apply same_bind; [by apply IH|]. by intros ? ? ? ?.
Qed.

Lemma same_calls callback es d s t :
  sq_rep s t → same (call_listeners callback es d s) (call_listeners callback es d t).
Proof.
  revert s t. induction es as [|e es IH]; intros s t Hr; [done|]. cbn [call_listeners].
  pose proof Hr as (Hq & Hp & He & Hf & Hd). rewrite Hd. destruct (sq_end t) eqn:Ht; [by split|].
  apply same_bind.
  - apply same_dos. unfold sq_rep, mark_oneshot. cbn. rewrite He, Ht, <- Hd. done.
  - intros r s' t' Hr'. apply same_bind; [by apply IH|]. by intros ? ? ? ?.
Qed.

Lemma same_run callback ok s t : sq_rep s t → same (sq_run callback ok s) (sq_run callback ok t).
Proof.
  intros (Hq & Hp & He & Hf & Hd). unfold sq_run. rewrite Hp. destruct (sq_pipe t) as [[|n]|], ok; try done.
  destruct (get_refines _ _ Hq) as (d & q' & b' & -> & -> & Hr). rewrite !bind_Ok. cbn [ev_list]. rewrite He.
  apply same_bind; [by apply same_calls|].
  intros r s' t' (Hq' & Hp' & He' & Hf' & Hd'). split; [done|]. unfold sq_rep. cbn. by rewrite He'.
Qed.

Lemma same_steps callback steps s t : sq_rep s t → same (sq_steps callback s steps) (sq_steps callback t steps).
Proof.
  revert s t. induction steps as [|st steps IH]; intros s t Hr; [done|]. cbn [sq_steps]. apply same_bind.
  - destruct st as [op|ok]; [|by apply same_run]. apply same_bind; [by apply same_do|]. by intros ? ? ? ?.
  - intros r s' t' Hr'. apply same_bind; [by apply IH|]. by intros ? ? ? ?.
Qed.

(** ** Properties *)

(** C20: A soft queue of [n] nodes is a bounded first-in first-out queue.  Whatever threads
    and callbacks do with it and however often its [sq_run] runs, the two linked lists of
    nodes are never followed through a missing link, and every result, every message a
    thread gets and every message an event is called with are those of a queue of at most
    [n] messages. *)
Theorem soft_queue_fifo n callback steps :
  ∃ sq, new_soft_queue n = Ok sq ∧
    same (sq_steps callback sq steps) (sq_steps callback (MkSq (MkBounded n []) None [] 0 false) steps).
Proof.
  destruct (new_se_lists_rep n) as (q & Hq & Hr). unfold new_soft_queue. rewrite Hq, bind_Ok.
  eexists. split; [done|]. by apply same_steps.
Qed.
