(* ===== verification/Server.v ===== *)
(** * Sessions, endpoints and channels ([session.c], [live.c], [rtsp.c], [rtp.c])

    The objects that make up a running server and point at one another: connections and
    their interleaved channels, sessions, the RTSP sessions that name them to clients, RTP
    endpoints, live sources with their tracks and sessions.  Every object is named by a
    number, its address, and lives in a map of its type; following a pointer to an object
    that was freed, or to one of another type, is undefined.  The C lists are lists of
    addresses, newest first.  [malloc] is taken to succeed. *)

From Stdlib Require Import String.
From S2P Require Import Prelude CString HttpAuth SendBuf Frame Stream Rtcp Rtp RtpMedia.

Local Open Scope Z_scope.
Local Open Scope c_scope.

(** ** Data *)

Definition MAX_TRACKS : nat := 2.
Definition MAX_INTERLEAVE_CHANNELS : nat := 8.

(** An entry of [ichan] of a [struct rtsp_conn]. *)
Record ichan := MkIchan { ic_ep : option nat; ic_rtcp : bool }.

Inductive conn_proto := CONN_PROTO_START | CONN_PROTO_RTSP | CONN_PROTO_HTTP.

(** [struct conn]: [cn_addr] is the text of the client's address, [cn_second_event]
    whether [second_read_event] is set, and [cn_proto_state] an untyped pointer. *)
Record conn := MkConn {
  cn_fd : Z;
  cn_second_fd : Z;
  cn_addr : list Z;
  cn_second_event : bool;
  cn_proto : conn_proto;
  cn_cookie : list Z;
  cn_base64_count : Z;
  cn_req_buf : list Z;
  cn_req_len : nat;
  cn_ring : ring;
  cn_drop_after : bool;
  cn_proto_state : option nat }.

(** [struct session]; [ss_control] is [control_private] with [control_close] set to
    [rtsp_session_close].  The functions of a session are those of [live.c], the one
    kind of session there is; it has no [pause]. *)
Record session := MkSession {
  ss_ep : list (option nat);
  ss_private : nat;
  ss_control : option nat;
  ss_addr : list Z;
  ss_open_time : Z }.

Record rtsp_session := MkRtspSession { rs_id : list Z; rs_sess : nat }.

Record live_session := MkLive { ls_sess : nat; ls_source : nat; ls_playing : bool }.

(** The two media [set_track] makes. *)
Inductive media :=
| MediaJpeg (m : rtp_jpeg)
| MediaRaw (m : rtp_rawaudio).

Record live_track := MkTrack { tr_stream : option nat; tr_ready : bool; tr_rtp : option media }.

Record live_source := MkSource {
  lv_sess_list : list nat;
  lv_track : list live_track;
  lv_max_trans_size : Z;
  lv_max_conn : Z;
  lv_cur_conn : Z }.

(** An endpoint with its [session] pointer. *)
Record endpoint := MkEndpoint { e_session : nat; e_ep : rtp_endpoint }.

(** What the endpoints send through: the connections, the results of the next [sendmsg]
    calls and of the [write] calls of the next flushes, and the packets taken. *)
Record wire := MkWire {
  wi_conns : gmap nat conn;
  wi_udp : nat → bool;
  wi_writes : nat → list write_result;
  wi_log : list (dest * list Z) }.

Record server := MkServer {
  sv_wire : wire;
  sv_rconns : gmap nat (list ichan);
  sv_sessions : gmap nat session;
  sv_sess_list : list nat;
  sv_rtsps : gmap nat rtsp_session;
  sv_rtsp_list : list nat;
  sv_lives : gmap nat live_session;
  sv_sources : gmap nat live_source;
  sv_eps : gmap nat endpoint;
  sv_streams : streams;
  sv_fresh : nat }.

(** ** Access to the objects *)

Abbreviation sv_conns sv := (wi_conns (sv_wire sv)).

(** Following a pointer. *)
Definition deref {A} (m : gmap nat A) (p : nat) : outcome A :=
  match m !! p with Some x => Ok x | None => Undef end.

Definition with_wire (sv : server) (w : wire) : server :=
  MkServer w (sv_rconns sv) (sv_sessions sv) (sv_sess_list sv) (sv_rtsps sv) (sv_rtsp_list sv)
    (sv_lives sv) (sv_sources sv) (sv_eps sv) (sv_streams sv) (sv_fresh sv).

Definition with_conns (sv : server) (m : gmap nat conn) : server :=
  with_wire sv (MkWire m (wi_udp (sv_wire sv)) (wi_writes (sv_wire sv)) (wi_log (sv_wire sv))).

Definition with_rconns (sv : server) (m : gmap nat (list ichan)) : server :=
  MkServer (sv_wire sv) m (sv_sessions sv) (sv_sess_list sv) (sv_rtsps sv) (sv_rtsp_list sv)
    (sv_lives sv) (sv_sources sv) (sv_eps sv) (sv_streams sv) (sv_fresh sv).

Definition with_sessions (sv : server) (m : gmap nat session) (l : list nat) : server :=
  MkServer (sv_wire sv) (sv_rconns sv) m l (sv_rtsps sv) (sv_rtsp_list sv)
    (sv_lives sv) (sv_sources sv) (sv_eps sv) (sv_streams sv) (sv_fresh sv).

Definition with_rtsps (sv : server) (m : gmap nat rtsp_session) (l : list nat) : server :=
  MkServer (sv_wire sv) (sv_rconns sv) (sv_sessions sv) (sv_sess_list sv) m l
    (sv_lives sv) (sv_sources sv) (sv_eps sv) (sv_streams sv) (sv_fresh sv).

Definition with_lives (sv : server) (m : gmap nat live_session) : server :=
  MkServer (sv_wire sv) (sv_rconns sv) (sv_sessions sv) (sv_sess_list sv) (sv_rtsps sv) (sv_rtsp_list sv)
    m (sv_sources sv) (sv_eps sv) (sv_streams sv) (sv_fresh sv).

Definition with_sources (sv : server) (m : gmap nat live_source) : server :=
  MkServer (sv_wire sv) (sv_rconns sv) (sv_sessions sv) (sv_sess_list sv) (sv_rtsps sv) (sv_rtsp_list sv)
    (sv_lives sv) m (sv_eps sv) (sv_streams sv) (sv_fresh sv).

Definition with_eps (sv : server) (m : gmap nat endpoint) : server :=
  MkServer (sv_wire sv) (sv_rconns sv) (sv_sessions sv) (sv_sess_list sv) (sv_rtsps sv) (sv_rtsp_list sv)
    (sv_lives sv) (sv_sources sv) m (sv_streams sv) (sv_fresh sv).

Definition with_streams (sv : server) (w : streams) : server :=
  MkServer (sv_wire sv) (sv_rconns sv) (sv_sessions sv) (sv_sess_list sv) (sv_rtsps sv) (sv_rtsp_list sv)
    (sv_lives sv) (sv_sources sv) (sv_eps sv) w (sv_fresh sv).

Definition with_ring (cx : conn) (r : ring) : conn :=
  MkConn (cn_fd cx) (cn_second_fd cx) (cn_addr cx) (cn_second_event cx) (cn_proto cx) (cn_cookie cx)
    (cn_base64_count cx) (cn_req_buf cx) (cn_req_len cx) r (cn_drop_after cx) (cn_proto_state cx).

Definition set_conn_at (sv : server) (c : nat) (x : conn) : server := with_conns sv (<[c := x]> (sv_conns sv)).
Definition set_session (sv : server) (s : nat) (x : session) : server :=
  with_sessions sv (<[s := x]> (sv_sessions sv)) (sv_sess_list sv).
Definition set_ep (sv : server) (e : nat) (x : endpoint) : server := with_eps sv (<[e := x]> (sv_eps sv)).
Definition set_source_at (sv : server) (k : nat) (x : live_source) : server :=
  with_sources sv (<[k := x]> (sv_sources sv)).

(** The address of the next object. *)
Definition malloc (sv : server) : nat * server :=
  (sv_fresh sv,
   MkServer (sv_wire sv) (sv_rconns sv) (sv_sessions sv) (sv_sess_list sv) (sv_rtsps sv) (sv_rtsp_list sv)
     (sv_lives sv) (sv_sources sv) (sv_eps sv) (sv_streams sv) (S (sv_fresh sv))).

(** [p->prev->next = p->next] and so on: unlinking from a list. *)
Definition unlink (p : nat) (l : list nat) : list nat := filter (λ x, x ≠ p) l.

(** What the environment gives to a call: random bytes, the clock, the content of blocks
    that [malloc] returns, the sockets and [random] for [connect_udp_endpoint] with the
    configured ports, and whether a text starts with a number as [%lf] reads it. *)
Record env := MkEnv {
  v_random : random_stream;
  v_clock : clock;
  v_block : nat → list Z;
  v_junk_rtt : Z;
  v_junk_rtcp : bool;
  v_sockets : sockets;
  v_rand : Z;
  v_range : port_range;
  v_double : list Z → bool }.

(** ** Endpoints ([rtp.c], [rtsp.c]) *)

Definition interleave_disconnect (sv : server) (c : nat) (chan : nat) : outcome server :=
  conn ← deref (sv_conns sv) c;
  match cn_proto_state conn with
  | None => Undef
  | Some rc =>
      t ← deref (sv_rconns sv) rc;
      x ← rd t chan;
      t ← wr t chan (MkIchan None (ic_rtcp x));
      Ok (with_rconns sv (<[rc := t]> (sv_rconns sv)))
  end.

(** The events and descriptors of the endpoint go with it. *)
Definition del_rtp_endpoint (sv : server) (e : nat) : outcome server :=
  x ← deref (sv_eps sv) e;
  sv ← match ep_trans (e_ep x) with
       | RTP_TRANS_INTER c rtp_chan rtcp_chan =>
           sv ← interleave_disconnect sv c (Z.to_nat rtp_chan);
           interleave_disconnect sv c (Z.to_nat rtcp_chan)
       | _ => Ok sv
       end;
  Ok (with_eps sv (delete e (sv_eps sv))).

(** ** Sessions ([session.c]) *)

(** [new_session]; the caller fills in the functions and [private]. *)
Definition new_session (sv : server) (private : nat) (now : Z) : nat * server :=
  let '(s, sv) := malloc sv in
  (s, with_sessions sv
        (<[s := MkSession (replicate MAX_TRACKS None) private None (lit "(unconnected)") now]> (sv_sessions sv))
        (s :: sv_sess_list sv)).

Definition rtsp_session_close (sv : server) (rs : nat) : outcome server :=
  _ ← deref (sv_rtsps sv) rs;
  Ok (with_rtsps sv (delete rs (sv_rtsps sv)) (unlink rs (sv_rtsp_list sv))).

Definition del_session (sv : server) (s : nat) : outcome server :=
  x ← deref (sv_sessions sv) s;
  let sv := with_sessions sv (sv_sessions sv) (unlink s (sv_sess_list sv)) in
  sv ← match ss_control x with Some rs => rtsp_session_close sv rs | None => Ok sv end;
  Ok (with_sessions sv (delete s (sv_sessions sv)) (sv_sess_list sv)).

Definition new_rtsp_session (sv : server) (s : nat) (r : random_stream) : outcome (nat * server) :=
  let '(rs, sv) := malloc sv in
  x ← deref (sv_sessions sv) s;
  let sv := with_rtsps sv (<[rs := MkRtspSession (random_id r 30).1 s]> (sv_rtsps sv)) (rs :: sv_rtsp_list sv) in
  Ok (rs, set_session sv s (MkSession (ss_ep x) (ss_private x) (Some rs) (ss_addr x) (ss_open_time x))).

Fixpoint find_session (sv : server) (l : list nat) (id : list Z) : outcome (option nat) :=
  match l with
  | [] => Ok None
  | rs :: l =>
      x ← deref (sv_rtsps sv) rs;
      if streq (rs_id x) id then Ok (Some rs) else find_session sv l id
  end.

Definition get_session (sv : server) (id : option (list Z)) : outcome (option nat) :=
  match id with None => Ok None | Some id => find_session sv (sv_rtsp_list sv) id end.

(** ** Live sources ([live.c]) *)

Definition media_get_payload (payload : Z) (m : media) : Z :=
  match m with
  | MediaJpeg _ => jpeg_get_payload payload
  | MediaRaw m => rawaudio_get_payload payload m
  end.

(** The live session behind a session, with its source. *)
Definition live_of (sv : server) (s : nat) : outcome (session * live_session * live_source) :=
  x ← deref (sv_sessions sv) s;
  ls ← deref (sv_lives sv) (ss_private x);
  src ← deref (sv_sources sv) (ls_source ls);
  Ok (x, ls, src).

Definition live_open (sv : server) (k : nat) (now : Z) : outcome (option nat * server) :=
  src ← deref (sv_sources sv) k;
  if lv_max_conn src <=? lv_cur_conn src then Ok (None, sv) else
  let '(l, sv) := malloc sv in
  let sv := set_source_at sv k (MkSource (l :: lv_sess_list src) (lv_track src) (lv_max_trans_size src)
              (lv_max_conn src) (lv_cur_conn src)) in
  let '(s, sv) := new_session sv l now in
  Ok (Some s, with_lives sv (<[l := MkLive s k false]> (sv_lives sv))).

(** [new_rtp_endpoint] and what [live_setup] sets. *)
Definition live_endpoint (src : live_source) (payload format : Z) (v : env) : rtp_endpoint :=
  let ep := (new_rtp_endpoint payload (v_random v) (v_clock v) (v_junk_rtt v) format None).1 in
  MkEp (ep_payload ep) (lv_max_trans_size src) (ep_ssrc ep) (ep_start_timestamp ep) (ep_last_timestamp ep)
    (ep_seqnum ep) (ep_packet_count ep) (ep_octet_count ep) (ep_rtcp_event_enabled ep) (ep_force_rtcp ep)
    (ep_last_rtcp_recv ep) (ep_last_rtcp_send ep) (ep_trans ep) (ep_dRTT ep)
    (Some (SimpleQOSAnalyserNew (ep_ssrc ep))) format.

(** [stream->stream->format]. *)
Definition track_format (sv : server) (tr : live_track) : outcome Z :=
  match tr_stream tr with
  | None => Undef
  | Some d =>
      dest ← deref (st_dests (sv_streams sv)) d;
      st ← deref (st_streams (sv_streams sv)) (d_stream dest);
      Ok (s_format st)
  end.

(** [false] is -1. *)
Definition live_setup (sv : server) (s : nat) (t : nat) (v : env) : outcome (bool * server) :=
  '(x, ls, src) ← live_of sv s;
  tr ← rd (lv_track src) t;
  match tr_rtp tr with
  | None => Ok (false, sv)
  | Some m =>
      let payload := media_get_payload (96 + Z.of_nat t) m in
      let '(e, sv) := malloc sv in
      eps ← wr (ss_ep x) t (Some e);
      format ← track_format sv tr;
      let sv := set_session sv s (MkSession eps (ss_private x) (ss_control x) (ss_addr x) (ss_open_time x)) in
      Ok (true, set_ep sv e (MkEndpoint s (live_endpoint src payload format v)))
  end.

(** [&source->track[t]], as the client of a stream. *)
Definition track_id (k t : nat) : nat := (k * MAX_TRACKS + t)%nat.

(** [set_waiting] on a track's destination; the depth of converters is bounded by the
    number of streams. *)
Definition track_set_waiting (sv : server) (tr : live_track) (waiting : Z) : outcome server :=
  match tr_stream tr with
  | None => Undef
  | Some d => w ← set_waiting (st_fresh (sv_streams sv)) (sv_streams sv) d waiting; Ok (with_streams sv w)
  end.

(** The loop of [live_play] from track [t]: the tracks up to the first without media. *)
Fixpoint play_tracks (sv : server) (trs : list live_track) (eps : list (option nat)) : outcome server :=
  match trs, eps with
  | tr :: trs, ep :: eps =>
      match tr_rtp tr with
      | None => Ok sv
      | Some _ =>
          sv ← match ep with Some _ => track_set_waiting sv tr 1 | None => Ok sv end;
          play_tracks sv trs eps
      end
  | _, _ => Ok sv
  end.

(** [live_play]; [*start] is set to -1 by the caller.  [new_listener_notify] asks the
    encoder for a key frame. *)
Definition live_play (sv : server) (s : nat) : outcome server :=
  '(x, ls, src) ← live_of sv s;
  let sv := with_lives sv (<[ss_private x := MkLive (ls_sess ls) (ls_source ls) true]> (sv_lives sv)) in
  let sv := set_source_at sv (ls_source ls)
              (MkSource (lv_sess_list src) (lv_track src) (lv_max_trans_size src) (lv_max_conn src)
                 (u32 (lv_cur_conn src + 1))) in
  play_tracks sv (lv_track src) (ss_ep x).

(** Some session of the list plays track [t]. *)
Fixpoint track_in_use (sv : server) (l : list nat) (t : nat) : outcome bool :=
  match l with
  | [] => Ok false
  | p :: l =>
      ls ← deref (sv_lives sv) p;
      if ls_playing ls then
        x ← deref (sv_sessions sv) (ls_sess ls);
        ep ← rd (ss_ep x) t;
        match ep with Some _ => Ok true | None => track_in_use sv l t end
      else track_in_use sv l t
  end.

Definition track_check_running (sv : server) (k : nat) (t : nat) : outcome server :=
  src ← deref (sv_sources sv) k;
  used ← track_in_use sv (lv_sess_list src) t;
  if (used : bool) then Ok sv else
  tr ← rd (lv_track src) t;
  track_set_waiting sv tr 0.

(** The endpoint of track [t] goes: [del_rtp_endpoint] and [s->ep[t] = NULL]. *)
Definition drop_track (sv : server) (s t e : nat) : outcome server :=
  sv ← del_rtp_endpoint sv e;
  x ← deref (sv_sessions sv) s;
  eps ← wr (ss_ep x) t None;
  Ok (set_session sv s (MkSession eps (ss_private x) (ss_control x) (ss_addr x) (ss_open_time x))).

(** The loop of [live_teardown] from track [t], with the endpoints still there;
    [ep = None] is [NULL], every endpoint. *)
Fixpoint teardown_tracks (sv : server) (s k : nat) (ep : option nat) (trs : list live_track)
    (t : nat) (remaining : nat) : outcome (nat * server) :=
  match trs with
  | [] => Ok (remaining, sv)
  | tr :: trs =>
      match tr_rtp tr with
      | None => Ok (remaining, sv)
      | Some _ =>
          x ← deref (sv_sessions sv) s;
          p ← rd (ss_ep x) t;
          match p with
          | None => teardown_tracks sv s k ep trs (S t) remaining
          | Some e =>
              if match ep with None => true | Some e' => (e =? e')%nat end then
                sv ← drop_track sv s t e;
                sv ← track_check_running sv k t;
                teardown_tracks sv s k ep trs (S t) remaining
              else teardown_tracks sv s k ep trs (S t) (S remaining)
          end
      end
  end.

(** The end of a session without endpoints. *)
Definition end_session (sv : server) (s l : nat) (ls : live_session) : outcome server :=
  src ← deref (sv_sources sv) (ls_source ls);
  let cur := if (0 <? lv_cur_conn src) && ls_playing ls then lv_cur_conn src - 1 else lv_cur_conn src in
  let sv := set_source_at sv (ls_source ls)
              (MkSource (unlink l (lv_sess_list src)) (lv_track src) (lv_max_trans_size src)
                 (lv_max_conn src) cur) in
  let sv := with_lives sv (delete l (sv_lives sv)) in
  del_session sv s.

Definition live_teardown (sv : server) (s : nat) (ep : option nat) : outcome server :=
  '(x, ls, src) ← live_of sv s;
  '(remaining, sv) ← teardown_tracks sv s (ls_source ls) ep (lv_track src) 0 0;
  if (remaining =? 0)%nat then end_session sv s (ss_private x) ls else Ok sv.

(** [ep->session->teardown(ep->session, ep)]. *)
Definition teardown_ep (sv : server) (e : nat) : outcome server :=
  x ← deref (sv_eps sv) e; live_teardown sv (e_session x) (Some e).

(** ** The end of a connection ([rtsp.c]) *)

(** The loop over the channels, from [i]. *)
Fixpoint disconnect_channels (n : nat) (sv : server) (rc : nat) (i : nat) : outcome server :=
  match n with
  | O => Ok sv
  | S n =>
      t ← deref (sv_rconns sv) rc;
      x ← rd t i;
      sv ← match ic_ep x with
           | Some e => if ic_rtcp x then Ok sv else teardown_ep sv e
           | None => Ok sv
           end;
      disconnect_channels n sv rc (S i)
  end.

Definition rtsp_conn_disconnect (sv : server) (c : nat) : outcome server :=
  conn ← deref (sv_conns sv) c;
  match cn_proto_state conn with
  | None => Undef
  | Some rc =>
      sv ← disconnect_channels MAX_INTERLEAVE_CHANNELS sv rc 0;
      Ok (with_rconns sv (delete rc (sv_rconns sv)))
  end.
