(* ===== verification/ServerInv.v ===== *)
(** * No dangling pointers

    The invariant that ties the objects of [Server] together -- every pointer the code
    follows leads to a live object, and back pointers agree -- and its preservation by
    the operations that take sessions, endpoints and channels down. *)

From Stdlib Require Import String.
From S2P Require Import Prelude CString HttpAuth SendBuf Frame Stream Rtcp Rtp RtpMedia Server.

Local Open Scope Z_scope.
Local Open Scope c_scope.

(** ** The invariant *)

(** Channel [i] of connection [c] belongs to endpoint [e]. *)
Definition at_chan (sv : server) (c i e : nat) (rtcp : bool) : Prop :=
  ∃ cx rc tbl, sv_conns sv !! c = Some cx ∧ cn_proto_state cx = Some rc ∧
    sv_rconns sv !! rc = Some tbl ∧ tbl !! i = Some (MkIchan (Some e) rtcp).

Definition wf_session (sv : server) (s : nat) (x : session) : Prop :=
  length (ss_ep x) = MAX_TRACKS ∧
  (∃ ls, sv_lives sv !! ss_private x = Some ls ∧ ls_sess ls = s) ∧
  (∀ r, ss_control x = Some r → ∃ y, sv_rtsps sv !! r = Some y ∧ rs_sess y = s) ∧
  (∀ t e, ss_ep x !! t = Some (Some e) → ∃ y, sv_eps sv !! e = Some y ∧ e_session y = s).

Definition wf_live (sv : server) (l : nat) (ls : live_session) : Prop :=
  (∃ x, sv_sessions sv !! ls_sess ls = Some x ∧ ss_private x = l) ∧
  (∃ src, sv_sources sv !! ls_source ls = Some src ∧ l ∈ lv_sess_list src).

(** Track [t] has a medium, and so have the tracks before it. *)
Definition has_media (src : live_source) (t : nat) : Prop :=
  ∃ tr, lv_track src !! t = Some tr ∧ is_Some (tr_rtp tr).

Definition wf_track (w : streams) (k t : nat) (tr : live_track) : Prop :=
  is_Some (tr_rtp tr) →
  ∃ d x, tr_stream tr = Some d ∧ st_dests w !! d = Some x ∧ d_process x = Client (track_id k t).

Definition wf_source (sv : server) (k : nat) (src : live_source) : Prop :=
  NoDup (lv_sess_list src) ∧
  (∀ l, l ∈ lv_sess_list src → ∃ ls, sv_lives sv !! l = Some ls ∧ ls_source ls = k) ∧
  length (lv_track src) = MAX_TRACKS ∧ (∀ t tr, lv_track src !! t = Some tr → wf_track (sv_streams sv) k t tr) ∧
  (∀ t t', (t' <= t)%nat → has_media src t → has_media src t').

Definition wf_rtsp (sv : server) (r : nat) (y : rtsp_session) : Prop :=
  ∃ x, sv_sessions sv !! rs_sess y = Some x ∧ ss_control x = Some r.

(** An endpoint is at one place of its session, on a track with a medium, and at its
    channels. *)
Definition wf_endpoint (sv : server) (e : nat) (y : endpoint) : Prop :=
  (∃ x ls src t, sv_sessions sv !! e_session y = Some x ∧ ss_ep x !! t = Some (Some e) ∧
     (∀ t', ss_ep x !! t' = Some (Some e) → t' = t) ∧
     sv_lives sv !! ss_private x = Some ls ∧ sv_sources sv !! ls_source ls = Some src ∧ has_media src t) ∧
  match ep_trans (e_ep y) with
  | RTP_TRANS_INTER c a b => at_chan sv c (Z.to_nat a) e false ∧ at_chan sv c (Z.to_nat b) e true
  | _ => True
  end.

(** The channels of a connection lead to endpoints that know them. *)
Definition wf_rconn (sv : server) (rc : nat) (tbl : list ichan) : Prop :=
  length tbl = MAX_INTERLEAVE_CHANNELS ∧
  ∃ c cx, sv_conns sv !! c = Some cx ∧ cn_proto_state cx = Some rc ∧
    (∀ c' cx', sv_conns sv !! c' = Some cx' → cn_proto_state cx' = Some rc → c' = c) ∧
    ∀ i e rtcp, tbl !! i = Some (MkIchan (Some e) rtcp) →
      ∃ y a b, sv_eps sv !! e = Some y ∧ ep_trans (e_ep y) = RTP_TRANS_INTER c a b ∧
        i = Z.to_nat (if rtcp then b else a).

Definition unused (sv : server) (p : nat) : Prop :=
  sv_conns sv !! p = None ∧ sv_rconns sv !! p = None ∧ sv_sessions sv !! p = None ∧
  sv_rtsps sv !! p = None ∧ sv_lives sv !! p = None ∧ sv_sources sv !! p = None ∧ sv_eps sv !! p = None.

Record server_inv (sv : server) : Prop := {
  iv_session s x : sv_sessions sv !! s = Some x → wf_session sv s x;
  iv_live l x : sv_lives sv !! l = Some x → wf_live sv l x;
  iv_source k x : sv_sources sv !! k = Some x → wf_source sv k x;
  iv_rtsp r y : sv_rtsps sv !! r = Some y → wf_rtsp sv r y;
  iv_rtsp_list r : r ∈ sv_rtsp_list sv ↔ is_Some (sv_rtsps sv !! r);
  iv_ep e y : sv_eps sv !! e = Some y → wf_endpoint sv e y;
  iv_rconn rc t : sv_rconns sv !! rc = Some t → wf_rconn sv rc t;
  iv_fresh p : (sv_fresh sv <= p)%nat → unused sv p;
  iv_proto c x rc : sv_conns sv !! c = Some x → cn_proto_state x = Some rc → (rc < sv_fresh sv)%nat;
  iv_streams : streams_inv (sv_streams sv) None }.

Lemma deref_Ok {A} (m : gmap nat A) p x : m !! p = Some x → deref m p = Ok x.
Proof. intros E. unfold deref. by rewrite E. Qed.

(** Reading the objects of an updated server. *)
Ltac sv_cbn :=
  cbn [sv_wire sv_rconns sv_sessions sv_sess_list sv_rtsps sv_rtsp_list sv_lives sv_sources sv_eps
       sv_streams sv_fresh with_wire with_conns with_rconns with_sessions with_rtsps with_lives
       with_sources with_eps with_streams set_conn_at set_session set_ep set_source_at wi_conns malloc
       ss_ep ss_private ss_control ls_sess ls_source ls_playing e_session e_ep rs_sess rs_id
       lv_sess_list lv_track lv_cur_conn lv_max_conn fst snd] in *.

Lemma not_unused {A} (m : gmap nat A) (p : nat) x fresh :
  (∀ p, (fresh <= p)%nat → m !! p = None) → m !! p = Some x → (p < fresh)%nat.
Proof. intros H E. destruct (Nat.lt_ge_cases p fresh); [done|]. rewrite H in E by done. done. Qed.

(** ** Channels *)

(** The entries of [e] are cleared, the others kept. *)
Definition clear_ep (e : nat) (x : ichan) : ichan :=
  if decide (ic_ep x = Some e) then MkIchan None (ic_rtcp x) else x.

Definition clear_channels (sv : server) (e : nat) : server :=
  with_rconns sv (map (clear_ep e) <$> sv_rconns sv).

Lemma interleave_disconnect_at sv c i e b :
  at_chan sv c i e b →
  ∃ cx rc tbl, sv_conns sv !! c = Some cx ∧ cn_proto_state cx = Some rc ∧ sv_rconns sv !! rc = Some tbl ∧
    tbl !! i = Some (MkIchan (Some e) b) ∧
    interleave_disconnect sv c i = Ok (with_rconns sv (<[rc := <[i := MkIchan None b]> tbl]> (sv_rconns sv))).
Proof.
  intros (cx & rc & tbl & E1 & E2 & E3 & E4). exists cx, rc, tbl. split_and!; try done.
  unfold interleave_disconnect. rewrite (deref_Ok _ _ _ E1), bind_Ok, E2, (deref_Ok _ _ _ E3), bind_Ok.
  rewrite (rd_Ok _ _ _ E4), bind_Ok, wr_Ok, bind_Ok; [done|]. by eapply lookup_lt_Some.
Qed.

Lemma clear_table_id e tbl :
  (∀ i b, tbl !! i ≠ Some (MkIchan (Some e) b)) → map (clear_ep e) tbl = tbl.
Proof.
  intros H. apply list_eq. intros i. change (map (clear_ep e) tbl) with (clear_ep e <$> tbl).
  rewrite list_lookup_fmap. destruct (tbl !! i) as [[o b]|] eqn:Ei; [|done]. cbn. f_equal.
  unfold clear_ep. cbn. case_decide; [|done]. subst o. by destruct (H i b).
Qed.

(** Where the channels of [e] are. *)
Lemma channel_owner sv e y rc tbl i b :
  server_inv sv → sv_eps sv !! e = Some y → sv_rconns sv !! rc = Some tbl →
  tbl !! i = Some (MkIchan (Some e) b) →
  ∃ c cx a a', ep_trans (e_ep y) = RTP_TRANS_INTER c a a' ∧ sv_conns sv !! c = Some cx ∧
    cn_proto_state cx = Some rc ∧ i = Z.to_nat (if b then a' else a).
Proof.
  intros Hi E Er Ei. destruct (iv_rconn _ Hi rc tbl Er) as (_ & c & cx & Ec & Ep & _ & Hc).
  destruct (Hc _ _ _ Ei) as (y' & a & a' & E' & Et & Hi'). simplify_eq. by exists c, cx, a, a'.
Qed.

(** Clearing the two channels an endpoint says it has clears all it has. *)
Lemma disconnect_endpoint sv e y :
  server_inv sv → sv_eps sv !! e = Some y →
  match ep_trans (e_ep y) with
  | RTP_TRANS_INTER c a b =>
      sv ← interleave_disconnect sv c (Z.to_nat a); interleave_disconnect sv c (Z.to_nat b)
  | _ => Ok sv
  end = Ok (clear_channels sv e).
Proof.
  intros Hi E. destruct (iv_ep _ Hi _ _ E) as [_ Ht].
  assert (∀ m, m = map (clear_ep e) <$> sv_rconns sv → with_rconns sv m = clear_channels sv e) as Hm
    by (by intros m ->).
  assert (sv = with_rconns sv (sv_rconns sv)) as Hsv by (by destruct sv).
  destruct (ep_trans (e_ep y)) as [|p f1 f2|c a b] eqn:Etr.
  1,2: rewrite Hsv at 1; f_equal; apply Hm, map_eq; intros rc; rewrite lookup_fmap;
    destruct (sv_rconns sv !! rc) as [tbl|] eqn:Er; [|done]; cbn; f_equal; symmetry; apply clear_table_id;
    intros i b Ei; destruct (channel_owner _ _ _ _ _ _ _ Hi E Er Ei) as (c & cx & a & a' & Et & _); congruence.
  destruct Ht as [Ha Hb].
  destruct (interleave_disconnect_at _ _ _ _ _ Ha) as (cx & rc & tbl & E1 & E2 & E3 & E4 & ->).
  destruct Hb as (cx' & rc' & tbl' & E1' & E2' & E3' & E4').
  assert (cx' = cx) as -> by congruence. assert (rc' = rc) as -> by congruence.
  assert (tbl' = tbl) as -> by congruence. rewrite bind_Ok.
  set (tbl1 := <[Z.to_nat a := MkIchan None false]> tbl).
  destruct (interleave_disconnect_at (with_rconns sv (<[rc := tbl1]> (sv_rconns sv)))
    c (Z.to_nat b) e true) as (cx' & rc' & tbl' & F1 & F2 & F3 & F4 & ->).
  { exists cx, rc, tbl1. split_and!; try done; sv_cbn; [by rewrite lookup_insert_eq|].
    unfold tbl1. rewrite list_lookup_insert_ne; [done|]. intros Heq. rewrite Heq in E4. congruence. }
  sv_cbn. assert (cx' = cx) as -> by congruence. assert (rc' = rc) as -> by congruence.
  rewrite lookup_insert_eq in F3. injection F3 as <-. f_equal. apply Hm. rewrite insert_insert_eq. apply map_eq. intros rc'. rewrite lookup_fmap.
  destruct (decide (rc' = rc)) as [->|Hne].
  - rewrite lookup_insert_eq, E3. cbn. f_equal. apply list_eq. intros i.
    change (map (clear_ep e) tbl) with (clear_ep e <$> tbl). rewrite list_lookup_fmap.
    destruct (decide (i = Z.to_nat b)) as [->|Hnb].
    { rewrite list_lookup_insert_eq, E4' by (unfold tbl1; rewrite length_insert; by eapply lookup_lt_Some). cbn.
      unfold clear_ep. by rewrite decide_True. }
    rewrite list_lookup_insert_ne by done. unfold tbl1. destruct (decide (i = Z.to_nat a)) as [->|Hna].
    { rewrite list_lookup_insert_eq, E4 by (by eapply lookup_lt_Some). cbn.
      unfold clear_ep. by rewrite decide_True. }
    rewrite list_lookup_insert_ne by done. destruct (tbl !! i) as [[o bb]|] eqn:Ei; [|done]. cbn. f_equal.
    unfold clear_ep. cbn. case_decide as Hd; [|done]. subst o. exfalso.
    destruct (channel_owner _ _ _ _ _ _ _ Hi E E3 Ei) as (c' & cx' & a' & b' & Et & _ & _ & Hi').
    rewrite Etr in Et. injection Et as -> -> ->. by destruct bb.
  - rewrite lookup_insert_ne by done. destruct (sv_rconns sv !! rc') as [tbl'|] eqn:Er; [|done].
    cbn. f_equal. symmetry. apply clear_table_id. intros i bb Ei.
    destruct (channel_owner _ _ _ _ _ _ _ Hi E Er Ei) as (c' & cx' & a' & b' & Et & Ec' & Ep' & _). sv_cbn. congruence.
Qed.

Lemma clear_channels_lookup sv e rc tbl i e' b :
  e' ≠ e → sv_rconns sv !! rc = Some tbl → tbl !! i = Some (MkIchan (Some e') b) →
  map (clear_ep e) tbl !! i = Some (MkIchan (Some e') b).
Proof.
  intros Hne Er Ei. change (map (clear_ep e) tbl) with (clear_ep e <$> tbl).
  rewrite list_lookup_fmap, Ei. cbn. unfold clear_ep. cbn. by rewrite decide_False by congruence.
Qed.

Lemma at_chan_clear sv e c i e' b :
  e' ≠ e → at_chan sv c i e' b → at_chan (clear_channels sv e) c i e' b.
Proof.
  intros Hne (cx & rc & tbl & E1 & E2 & E3 & E4). exists cx, rc, (map (clear_ep e) tbl).
  split_and!; [done|done| |by eapply clear_channels_lookup]. sv_cbn. unfold clear_channels. sv_cbn.
  by rewrite lookup_fmap, E3.
Qed.

(** ** An endpoint goes *)

Definition without_track (x : session) (t : nat) : session :=
  MkSession (<[t := None]> (ss_ep x)) (ss_private x) (ss_control x) (ss_addr x) (ss_open_time x).

Definition dropped (sv : server) (s : nat) (x : session) (t e : nat) : server :=
  set_session (with_eps (clear_channels sv e) (delete e (sv_eps sv))) s (without_track x t).

Lemma drop_track_eq sv s x t e y :
  server_inv sv → sv_sessions sv !! s = Some x → ss_ep x !! t = Some (Some e) →
  sv_eps sv !! e = Some y → drop_track sv s t e = Ok (dropped sv s x t e).
Proof.
  intros Hi E Et Ee. unfold drop_track, del_rtp_endpoint.
  rewrite (deref_Ok _ _ _ Ee), bind_Ok, (disconnect_endpoint _ _ _ Hi Ee), !bind_Ok.
  rewrite (deref_Ok _ s x) by done. rewrite bind_Ok, wr_Ok by (by eapply lookup_lt_Some). done.
Qed.

Lemma without_track_lookup x t t' e :
  ss_ep (without_track x t) !! t' = Some (Some e) → t' ≠ t ∧ ss_ep x !! t' = Some (Some e).
Proof.
  cbn. intros H. apply list_lookup_insert_Some in H as [(-> & ? & _)|[Hne H]]; [done|]. by split.
Qed.

Section dropped.
Context (sv : server) (s : nat) (x : session) (t e : nat).
Hypothesis Hi : server_inv sv.
Hypothesis Hs : sv_sessions sv !! s = Some x.
Hypothesis Ht : ss_ep x !! t = Some (Some e).
Abbreviation sv' := (dropped sv s x t e).

(** Sessions keep their links. *)
Lemma dropped_session s' x' :
  sv_sessions sv !! s' = Some x' →
  ∃ x'', sv_sessions sv' !! s' = Some x'' ∧ ss_private x'' = ss_private x' ∧ ss_control x'' = ss_control x' ∧
    ∀ t' e', e' ≠ e → ss_ep x' !! t' = Some (Some e') ↔ ss_ep x'' !! t' = Some (Some e').
Proof.
  intros E. unfold dropped. sv_cbn. destruct (decide (s' = s)) as [->|Hne].
  - rewrite Hs in E. injection E as <-. rewrite lookup_insert_eq. eexists. split_and!; [done|done|done|].
    intros t' e' He. cbn [ss_ep without_track]. destruct (decide (t' = t)) as [->|Htt].
    + rewrite list_lookup_insert_eq by (by eapply lookup_lt_Some). split; [|done]. intros H'. congruence.
    + by rewrite list_lookup_insert_ne.
  - rewrite lookup_insert_ne by done. by exists x'.
Qed.

Lemma dropped_endpoint_place : ∃ y, sv_eps sv !! e = Some y ∧ e_session y = s ∧
  ∀ t', ss_ep x !! t' = Some (Some e) → t' = t.
Proof.
  destruct (iv_session _ Hi _ _ Hs) as (_ & _ & _ & He). destruct (He _ _ Ht) as (y & Ey & Eys).
  exists y. split; [done|]. split; [done|]. intros t' H.
  destruct (iv_ep _ Hi _ _ Ey) as [(x1 & _ & _ & t1 & E1 & Et1 & Hu & _) _].
  rewrite Eys, Hs in E1. injection E1 as <-. rewrite (Hu _ H), (Hu _ Ht). done.
Qed.

Lemma dropped_sessions_inv s' x' : sv_sessions sv' !! s' = Some x' → wf_session sv' s' x'.
Proof.
  destruct dropped_endpoint_place as (y & Ey & Eys & Hu).
  intros E. unfold dropped in E. sv_cbn. apply lookup_insert_Some in E as [[<- <-]|[Hne E]].
  - destruct (iv_session _ Hi _ _ Hs) as (Hl & Hp & Hc & He). split_and!; [cbn; by rewrite length_insert|done|done|].
    intros t' e' H%without_track_lookup. destruct H as [Hnt H]. destruct (He _ _ H) as (y' & Ey' & Eys').
    exists y'. split; [|done]. unfold dropped. sv_cbn. rewrite lookup_delete_ne; [done|].
    intros ->. by apply Hnt, Hu.
  - destruct (iv_session _ Hi _ _ E) as (Hl & Hp & Hc & He). split_and!; [done|done|done|].
    intros t' e' H. destruct (He _ _ H) as (y' & Ey' & Eys'). exists y'. split; [|done]. unfold dropped. sv_cbn.
    rewrite lookup_delete_ne; [done|]. intros ->. congruence.
Qed.

Lemma dropped_eps_inv e' y' : sv_eps sv' !! e' = Some y' → wf_endpoint sv' e' y'.
Proof.
  intros E. unfold dropped in E. sv_cbn. apply lookup_delete_Some in E as [Hne E].
  destruct (iv_ep _ Hi _ _ E) as [(x1 & ls & src & t1 & E1 & Et1 & Hu & El & Esrc & Hm) Htr]. split.
  - destruct (dropped_session _ _ E1) as (x2 & E2 & Hp2 & _ & H2). exists x2, ls, src, t1.
    split_and!; [done|by apply H2; [congruence|]| |by rewrite Hp2|done|done].
    intros t' H. apply Hu, H2; [congruence|done].
  - destruct (ep_trans (e_ep y')); try done. destruct Htr as [Ha Hb].
    split; apply at_chan_clear; (done || congruence).
Qed.

Lemma dropped_rconns_inv rc tbl : sv_rconns sv' !! rc = Some tbl → wf_rconn sv' rc tbl.
Proof.
  intros E. unfold dropped, clear_channels in E. sv_cbn. rewrite lookup_fmap in E.
  destruct (sv_rconns sv !! rc) as [tbl0|] eqn:E0; [|done]. cbn in E. injection E as <-.
  destruct (iv_rconn _ Hi _ _ E0) as (Hl & c & cx & Ec & Ep & Hu & Hc).
  split; [by rewrite length_map|]. exists c, cx. split_and!; [done|done|done|]. intros i e' b Ei.
  change (map (clear_ep e) tbl0) with (clear_ep e <$> tbl0) in Ei. rewrite list_lookup_fmap in Ei.
  destruct (tbl0 !! i) as [[o b0]|] eqn:Ei0; [|done]. cbn in Ei. unfold clear_ep in Ei. cbn in Ei.
  case_decide as Hd; simplify_eq. destruct (Hc _ _ _ Ei0) as (y' & a & a' & Ey' & Et' & Hi').
  exists y', a, a'. split_and!; [|done|done]. unfold dropped. sv_cbn. by rewrite lookup_delete_ne by congruence.
Qed.

Lemma dropped_inv : server_inv sv'.
Proof.
  split; try (apply dropped_sessions_inv || apply dropped_eps_inv || apply dropped_rconns_inv).
  - intros l ls E. destruct (iv_live _ Hi l ls E) as [(x1 & E1 & Hp) Hsrc]. split; [|done].
    destruct (dropped_session _ _ E1) as (x2 & E2 & Hp2 & _). exists x2. by rewrite Hp2.
  - intros k src E. apply (iv_source _ Hi k src E).
  - intros r y E. destruct (iv_rtsp _ Hi r y E) as (x1 & E1 & Hc).
    destruct (dropped_session _ _ E1) as (x2 & E2 & _ & Hc2 & _). exists x2. by rewrite Hc2.
  - apply (iv_rtsp_list _ Hi).
  - intros p Hp. destruct (iv_fresh _ Hi p Hp) as (H1 & H2 & H3 & H4 & H5 & H6 & H7).
    unfold unused, dropped, clear_channels. sv_cbn. rewrite lookup_fmap, H2. split_and!; try done.
    + rewrite lookup_insert_ne; [done|]. intros ->. congruence.
    + rewrite lookup_delete_None. by right.
  - apply (iv_proto _ Hi).
  - apply (iv_streams _ Hi).
Qed.
End dropped.

(** ** Tracks wait or rest *)

(** Some flags of destinations change. *)
Definition flags_only (w w' : streams) : Prop :=
  st_streams w' = st_streams w ∧
  ∀ d x, st_dests w !! d = Some x → ∃ v, st_dests w' !! d = Some (MkDest (d_stream x) v (d_process x)).

#[export] Instance flags_only_preorder : PreOrder flags_only.
Proof.
  split; [intros w; split; [done|]; intros d x E; exists (d_waiting x); by destruct x|].
  intros a b c [A1 A2] [B1 B2]. split; [congruence|]. intros d x E. destruct (A2 d x E) as [v Ev].
  destruct (B2 _ _ Ev) as [v' Ev']. by exists v'.
Qed.

Lemma with_streams_inv sv w :
  server_inv sv → streams_inv w None → flags_only (sv_streams sv) w → server_inv (with_streams sv w).
Proof.
  intros [] Hw [_ Hf]. split; try done. intros k src E.
  destruct (iv_source0 k src E) as (H1 & H2 & H3 & H4 & H5). split_and!; try done.
  intros t tr Et Hm. destruct (H4 t tr Et Hm) as (d & x & Ed & Ex & Hp). destruct (Hf d x Ex) as [v Ev].
  by exists d, (MkDest (d_stream x) v (d_process x)).
Qed.

Lemma track_set_waiting_ok sv k src t tr v :
  server_inv sv → sv_sources sv !! k = Some src → lv_track src !! t = Some tr → is_Some (tr_rtp tr) →
  ∃ w d, tr_stream tr = Some d ∧ track_set_waiting sv tr v = Ok (with_streams sv w) ∧
    server_inv (with_streams sv w) ∧ flags_only (sv_streams sv) w ∧ is_waiting w d = truth v ∧
    ∀ d' x' n, d' ≠ d → st_dests (sv_streams sv) !! d' = Some x' → d_process x' = Client n →
      is_waiting w d' = is_waiting (sv_streams sv) d'.
Proof.
  intros Hi Ek Et Hm. pose proof (iv_streams _ Hi) as Hw.
  destruct (iv_source _ Hi k src Ek) as (_ & _ & _ & Htr & _).
  destruct (Htr t tr Et Hm) as (d & x & Ed & Ex & Hp).
  destruct (si_dests _ _ Hw _ _ Ex) as (_ & _ & (sx & Es & _) & _).
  destruct (si_streams _ _ Hw _ _ Es) as [Hlt _].
  destruct (set_waiting_inv (st_fresh (sv_streams sv)) (sv_streams sv) None d x v Hw Ex Hlt)
    as (w' & E & Hi' & Hf & Hwt); [done|congruence|].
  assert (flags_only (sv_streams sv) w') as Hfo.
  { destruct Hf as (H1 & _ & _ & H4). split; [done|]. intros d' x' E'. destruct (H4 d' x' E') as (v' & Ev & _). by exists v'. }
  exists w', d. split_and!; [done| | |done|done|].
  - unfold track_set_waiting. by rewrite Ed, E, bind_Ok.
  - by apply with_streams_inv.
  - intros d' x' n Hne E' Hc. destruct Hf as (_ & _ & _ & H4). destruct (H4 d' x' E') as (v' & Ev & Hv).
    unfold is_waiting. rewrite Ev, E'. cbn. rewrite Hv; [done|done|]. right. by exists n.
Qed.

(** Some session of the list plays track [t]. *)
Definition plays (sv : server) (t : nat) (l : nat) : Prop :=
  ∃ ls x e, sv_lives sv !! l = Some ls ∧ ls_playing ls = true ∧ sv_sessions sv !! ls_sess ls = Some x ∧
    ss_ep x !! t = Some (Some e).

Lemma track_in_use_ok sv k src l t :
  server_inv sv → sv_sources sv !! k = Some src → (t < MAX_TRACKS)%nat →
  (∀ p, p ∈ l → p ∈ lv_sess_list src) →
  ∃ b, track_in_use sv l t = Ok b ∧ (b = true ↔ ∃ p, p ∈ l ∧ plays sv t p).
Proof.
  intros Hi Ek Ht. destruct (iv_source _ Hi k src Ek) as (_ & Hls & _).
  induction l as [|p l IH]; intros Hl; cbn [track_in_use].
  { exists false. split; [done|]. split; [done|]. by intros (p & ?%not_elem_of_nil & _). }
  destruct IH as (b & Eb & Hb); [set_solver|].
  destruct (Hls p) as (ls & El & _); [set_solver|]. rewrite (deref_Ok _ _ _ El), bind_Ok.
  destruct (iv_live _ Hi _ _ El) as [(x & Ex & _) _]. destruct (iv_session _ Hi _ _ Ex) as (Hlen & _).
  assert (is_Some (ss_ep x !! t)) as [o Ee] by (apply lookup_lt_is_Some_2; lia).
  rewrite (deref_Ok _ _ _ Ex), bind_Ok, (rd_Ok _ _ _ Ee), bind_Ok.
  assert (¬ plays sv t p → b = true ↔ ∃ q, q ∈ p :: l ∧ plays sv t q) as Hskip.
  { intros Hp. rewrite Hb. split; intros (q & Hq & Hpq); exists q; (split; [|done]); [set_solver|].
    apply elem_of_cons in Hq as [->|Hq]; done. }
  assert (∀ ls' x' e', sv_lives sv !! p = Some ls' → sv_sessions sv !! ls_sess ls' = Some x' →
    ss_ep x' !! t = Some (Some e') → ls' = ls ∧ o = Some e') as Hdet by (intros; simplify_eq; done).
  destruct (ls_playing ls) eqn:Epl; [destruct o as [e|]|].
  - exists true. split; [done|]. split; [|done]. intros _. exists p. split; [by left|]. by exists ls, x, e.
  - exists b. split; [done|]. apply Hskip. intros (ls' & x' & e' & H1 & _ & H3 & H4).
    by destruct (Hdet _ _ _ H1 H3 H4).
  - exists b. split; [done|]. apply Hskip. intros (ls' & x' & e' & H1 & H2 & H3 & H4).
    destruct (Hdet _ _ _ H1 H3 H4) as [-> _]. congruence.
Qed.

(** After [track_check_running], the track waits only if some session plays it. *)
Lemma track_check_running_ok sv k src t tr :
  server_inv sv → sv_sources sv !! k = Some src → lv_track src !! t = Some tr → is_Some (tr_rtp tr) →
  ∃ w d, tr_stream tr = Some d ∧ track_check_running sv k t = Ok (with_streams sv w) ∧
    server_inv (with_streams sv w) ∧ flags_only (sv_streams sv) w ∧
    (is_waiting w d = true → ∃ p, p ∈ lv_sess_list src ∧ plays sv t p) ∧
    ∀ d' x' n, d' ≠ d → st_dests (sv_streams sv) !! d' = Some x' → d_process x' = Client n →
      is_waiting w d' = is_waiting (sv_streams sv) d'.
Proof.
  intros Hi Ek Et Hm. unfold track_check_running. rewrite (deref_Ok _ _ _ Ek), bind_Ok.
  pose proof (iv_source _ Hi k src Ek) as (_ & _ & Hlen & Htr & _).
  destruct (track_in_use_ok sv k src (lv_sess_list src) t Hi Ek) as (b & -> & Hb); [|done|].
  { apply lookup_lt_Some in Et. lia. }
  rewrite bind_Ok. destruct b.
  - destruct (Htr t tr Et Hm) as (d & x & Ed & _). exists (sv_streams sv), d. destruct sv as [].
    split_and!; try done. by intros _; apply Hb.
  - rewrite (rd_Ok _ _ _ Et), bind_Ok.
    destruct (track_set_waiting_ok sv k src t tr 0 Hi Ek Et Hm) as (w & d & Ed & E & Hi' & Hf & Hw & Ho).
    exists w, d. split_and!; try done. by rewrite Hw.
Qed.

(** ** Nothing is captured for nobody *)

(** A track that has seen its first frame waits for more only while a session plays it;
    [hole] are tracks for which this is about to be seen to. *)
Definition idle (sv : server) (hole : nat → nat → Prop) : Prop :=
  ∀ k src t tr d, sv_sources sv !! k = Some src → lv_track src !! t = Some tr → is_Some (tr_rtp tr) →
    tr_ready tr = true → tr_stream tr = Some d → ¬ hole k t → is_waiting (sv_streams sv) d = true →
    ∃ p, p ∈ lv_sess_list src ∧ plays sv t p.

Definition nowhere (k t : nat) : Prop := False.

Lemma track_id_inj k t k' t' :
  (t < MAX_TRACKS)%nat → (t' < MAX_TRACKS)%nat → track_id k t = track_id k' t' → k = k' ∧ t = t'.
Proof. unfold track_id, MAX_TRACKS. lia. Qed.

(** The destinations of two tracks differ. *)
Lemma track_dest_inj sv k src t tr d k' src' t' tr' :
  server_inv sv → sv_sources sv !! k = Some src → lv_track src !! t = Some tr → is_Some (tr_rtp tr) →
  sv_sources sv !! k' = Some src' → lv_track src' !! t' = Some tr' → is_Some (tr_rtp tr') →
  tr_stream tr = Some d → tr_stream tr' = Some d → k = k' ∧ t = t'.
Proof.
  intros Hi Ek Et Hm Ek' Et' Hm' Ed Ed'.
  destruct (iv_source _ Hi k src Ek) as (_ & _ & Hl & H & _).
  destruct (iv_source _ Hi k' src' Ek') as (_ & _ & Hl' & H' & _).
  destruct (H t tr Et Hm) as (d1 & x1 & E1 & Ex1 & Hp1).
  destruct (H' t' tr' Et' Hm') as (d2 & x2 & E2 & Ex2 & Hp2). simplify_eq.
  apply lookup_lt_Some in Et, Et'. apply track_id_inj; [lia|lia|congruence].
Qed.

Lemma idle_weaken sv hole : idle sv nowhere → idle sv hole.
Proof.
  intros Hidle k src t tr d A1 A2 A3 A4 A5 _ A7. apply (Hidle k src t tr d); try done. by intros [].
Qed.

(** Changing the flag of one track keeps the others idle. *)
Lemma idle_set_flag sv k src t tr d w hole :
  server_inv sv → sv_sources sv !! k = Some src → lv_track src !! t = Some tr → is_Some (tr_rtp tr) →
  tr_stream tr = Some d →
  (∀ d' x' n, d' ≠ d → st_dests (sv_streams sv) !! d' = Some x' → d_process x' = Client n →
     is_waiting w d' = is_waiting (sv_streams sv) d') →
  idle sv (λ k' t', hole k' t' ∨ (k' = k ∧ t' = t)) →
  (is_waiting w d = true → ¬ hole k t → ∃ p, p ∈ lv_sess_list src ∧ plays sv t p) →
  idle (with_streams sv w) hole.
Proof.
  intros Hi Ek Et Hm Ed Ho Hidle Hw k' src' t' tr' d' Ek' Et' Hm' Hr Ed' Hh Hwait. sv_cbn.
  destruct (decide (d' = d)) as [->|Hne].
  - destruct (track_dest_inj sv k src t tr d k' src' t' tr') as [<- <-]; try done.
    rewrite Ek in Ek'. injection Ek' as <-. by apply Hw.
  - destruct (iv_source _ Hi k' src' Ek') as (_ & _ & _ & H' & _).
    destruct (H' t' tr' Et' Hm') as (d2 & x2 & E2 & Ex2 & Hp2).
    assert (d2 = d') as -> by congruence. apply (Hidle k' src' t' tr' d'); try done.
    + intros [Hx|[-> ->]]; [done|]. congruence.
    + by rewrite <- (Ho _ _ _ Hne Ex2 Hp2).
Qed.

Lemma dropped_plays sv s x t e k src t' p :
  server_inv sv → sv_sessions sv !! s = Some x → ss_ep x !! t = Some (Some e) →
  sv_sources sv !! k = Some src → p ∈ lv_sess_list src →
  plays sv t' p → (t' ≠ t ∨ p ≠ ss_private x) → plays (dropped sv s x t e) t' p.
Proof.
  intros Hi Hs Ht Ek Hp (ls & x' & e' & E1 & E2 & E3 & E4) Hne.
  destruct (dropped_session sv s x t e Hs Ht _ _ E3) as (x'' & Ex'' & _ & _ & He).
  exists ls, x'', e'. split_and!; [done|done|done|]. apply He; [|done]. intros ->.
  destruct (dropped_endpoint_place sv s x t e Hi Hs Ht) as (y & Ey & Eys & Hu).
  destruct (iv_session _ Hi _ _ E3) as (_ & _ & _ & H'). destruct (H' _ _ E4) as (y' & Ey' & Eys').
  assert (ls_sess ls = s) as Els by congruence. rewrite Els in E3. assert (x' = x) as -> by congruence.
  destruct Hne as [Hne|Hne]; apply Hne; [by apply Hu|].
  destruct (iv_live _ Hi _ _ E1) as [(x2 & Ex2 & Hx2) _]. congruence.
Qed.

Lemma dropped_idle sv s x ls t e k :
  server_inv sv → sv_sessions sv !! s = Some x → ss_ep x !! t = Some (Some e) →
  sv_lives sv !! ss_private x = Some ls → ls_source ls = k →
  idle sv nowhere → idle (dropped sv s x t e) (λ k' t', nowhere k' t' ∨ (k' = k ∧ t' = t)).
Proof.
  intros Hi Hs Ht El Eks Hidle k' src' t' tr' d' Ek' Et' Hm' Hr Ed' Hh Hwait.
  destruct (Hidle k' src' t' tr' d') as (p & Hp & Hpl); try done; [by intros []|].
  exists p. split; [done|]. apply (dropped_plays _ _ _ _ _ k' src'); try done.
  destruct (decide (t' = t)) as [->|]; [|by left]. right. intros ->. apply Hh. right. split; [|done].
  destruct (iv_source _ Hi k' src' Ek') as (_ & Hls & _). destruct (Hls _ Hp) as (ls' & El' & <-). congruence.
Qed.

(** ** Teardown *)

(** What taking endpoints from session [s] keeps. *)
Record torn (sv sv' : server) (s : nat) : Prop := {
  to_wire : sv_wire sv' = sv_wire sv;
  to_sources : sv_sources sv' = sv_sources sv;
  to_lives : sv_lives sv' = sv_lives sv;
  to_rtsps : sv_rtsps sv' = sv_rtsps sv;
  to_rtsp_list : sv_rtsp_list sv' = sv_rtsp_list sv;
  to_fresh : sv_fresh sv' = sv_fresh sv;
  to_sess_list : sv_sess_list sv' = sv_sess_list sv;
  to_eps e y : sv_eps sv' !! e = Some y → sv_eps sv !! e = Some y;
  to_eps_other e y : sv_eps sv !! e = Some y → e_session y ≠ s → sv_eps sv' !! e = Some y;
  to_rconns rc : is_Some (sv_rconns sv' !! rc) ↔ is_Some (sv_rconns sv !! rc);
  to_sessions s' : s' ≠ s → sv_sessions sv' !! s' = sv_sessions sv !! s';
  to_streams : flags_only (sv_streams sv) (sv_streams sv') }.

Lemma torn_streams sv w s : flags_only (sv_streams sv) w → torn sv (with_streams sv w) s.
Proof. by split. Qed.

Lemma torn_trans a b c s : torn a b s → torn b c s → torn a c s.
Proof.
  intros A B. split; try (by rewrite (to_wire _ _ _ B), (to_wire _ _ _ A)).
  - by rewrite (to_sources _ _ _ B), (to_sources _ _ _ A).
  - by rewrite (to_lives _ _ _ B), (to_lives _ _ _ A).
  - by rewrite (to_rtsps _ _ _ B), (to_rtsps _ _ _ A).
  - by rewrite (to_rtsp_list _ _ _ B), (to_rtsp_list _ _ _ A).
  - by rewrite (to_fresh _ _ _ B), (to_fresh _ _ _ A).
  - by rewrite (to_sess_list _ _ _ B), (to_sess_list _ _ _ A).
  - intros e y E. by apply (to_eps _ _ _ A), (to_eps _ _ _ B).
  - intros e y E Hs. by apply (to_eps_other _ _ _ B); [apply (to_eps_other _ _ _ A)|].
  - intros rc. by rewrite (to_rconns _ _ _ B), (to_rconns _ _ _ A).
  - intros s' Hs. by rewrite (to_sessions _ _ _ B), (to_sessions _ _ _ A).
  - etrans; [apply (to_streams _ _ _ A)|apply (to_streams _ _ _ B)].
Qed.

Lemma dropped_torn sv s x t e y :
  sv_eps sv !! e = Some y → e_session y = s → torn sv (dropped sv s x t e) s.
Proof.
  intros Ey Es. unfold dropped, clear_channels. split; sv_cbn; try done.
  - intros e' y' E. by apply lookup_delete_Some in E as [_ E].
  - intros e' y' E Hne. rewrite lookup_delete_ne; [done|]. congruence.
  - intros rc. rewrite lookup_fmap. by rewrite fmap_is_Some.
  - intros s' Hne. by rewrite lookup_insert_ne.
Qed.

(** One turn of the loop of [live_teardown]: the endpoint of track [t] goes. *)
Lemma drop_and_check sv s x ls k src t e :
  server_inv sv → idle sv nowhere → sv_sessions sv !! s = Some x → sv_lives sv !! ss_private x = Some ls →
  ls_source ls = k → sv_sources sv !! k = Some src → ss_ep x !! t = Some (Some e) →
  ∃ sv1 sv2, drop_track sv s t e = Ok sv1 ∧ track_check_running sv1 k t = Ok sv2 ∧
    server_inv sv2 ∧ idle sv2 nowhere ∧ torn sv sv2 s ∧
    sv_sessions sv2 !! s = Some (without_track x t) ∧ sv_eps sv2 !! e = None.
Proof.
  intros Hi Hidle Hs El Eks Ek Ht.
  destruct (dropped_endpoint_place sv s x t e Hi Hs Ht) as (y & Ey & Eys & Hu).
  pose proof (dropped_inv sv s x t e Hi Hs Ht) as Hi1. set (sv1 := dropped sv s x t e) in *.
  destruct (iv_ep _ Hi _ _ Ey) as [(x1 & ls1 & src1 & t1 & E1 & Et1 & Hu1 & El1 & Esrc1 & tr & Etr & Hm) _].
  rewrite Eys in E1. assert (x1 = x) as -> by congruence. assert (ls1 = ls) as -> by congruence.
  assert (src1 = src) as -> by congruence. assert (t1 = t) as -> by (symmetry; by apply Hu1).
  destruct (track_check_running_ok sv1 k src t tr Hi1 Ek Etr Hm)
    as (w & d & Ed & E & Hi2 & Hf & Hw & Ho).
  exists sv1, (with_streams sv1 w). split; [by eapply drop_track_eq|]. split; [done|]. split; [done|].
  split; [|split; [|split]].
  - eapply idle_set_flag; [done|exact Ek|exact Etr|done|exact Ed|done| |].
    + by eapply dropped_idle.
    + intros Hwait _. by apply Hw.
  - eapply torn_trans; [by eapply dropped_torn|by apply torn_streams].
  - unfold sv1, dropped. sv_cbn. by rewrite lookup_insert_eq.
  - unfold sv1, dropped. sv_cbn. by rewrite lookup_delete_eq.
Qed.

Lemma session_ep_media sv s x ls src t e :
  server_inv sv → sv_sessions sv !! s = Some x → sv_lives sv !! ss_private x = Some ls →
  sv_sources sv !! ls_source ls = Some src → ss_ep x !! t = Some (Some e) → has_media src t.
Proof.
  intros Hi Hs El Ek Ht. destruct (iv_session _ Hi _ _ Hs) as (_ & _ & _ & He).
  destruct (He _ _ Ht) as (y & Ey & Eys).
  destruct (iv_ep _ Hi _ _ Ey) as [(x1 & ls1 & src1 & t1 & E1 & Et1 & Hu1 & El1 & Esrc1 & Hm) _].
  rewrite Eys in E1. assert (x1 = x) as -> by congruence. assert (ls1 = ls) as -> by congruence.
  assert (src1 = src) as -> by congruence. by rewrite (Hu1 _ Ht).
Qed.

Definition wanted (ep : option nat) (e : nat) : bool :=
  match ep with None => true | Some e' => (e =? e')%nat end.

(** The loop of [live_teardown] from track [t]. *)
Lemma teardown_tracks_ok ep trs sv s x ls k src t rem :
  server_inv sv → idle sv nowhere → sv_sessions sv !! s = Some x → sv_lives sv !! ss_private x = Some ls →
  ls_source ls = k → sv_sources sv !! k = Some src → trs = drop t (lv_track src) →
  ∃ n sv' x', teardown_tracks sv s k ep trs t rem = Ok (n, sv') ∧
    server_inv sv' ∧ idle sv' nowhere ∧ torn sv sv' s ∧
    sv_sessions sv' !! s = Some x' ∧ ss_private x' = ss_private x ∧
    (∀ t' e, ss_ep x' !! t' = Some (Some e) → ss_ep x !! t' = Some (Some e)) ∧
    (∀ t' e, (t <= t')%nat → ss_ep x !! t' = Some (Some e) →
       if wanted ep e then sv_eps sv' !! e = None ∧ ss_ep x' !! t' = Some None else (rem < n)%nat) ∧
    (rem <= n)%nat ∧ (ep = None → n = rem).
Proof.
  revert sv x t rem.
  induction trs as [|tr trs IH]; intros sv x t rem Hi Hidle Hs El Eks Ek Etr; cbn [teardown_tracks].
  { exists rem, sv, x. split_and!; try done. intros t' e Hle He. exfalso. subst k.
    destruct (session_ep_media _ _ _ _ _ _ _ Hi Hs El Ek He) as (tr & Et & _). apply lookup_lt_Some in Et.
    apply (f_equal length) in Etr. rewrite length_drop in Etr. cbn in Etr. lia. }
  assert (lv_track src !! t = Some tr) as Ett by (rewrite <- (Nat.add_0_r t), <- lookup_drop, <- Etr; done).
  assert (trs = drop (S t) (lv_track src)) as Etr' by (rewrite (drop_S _ tr) in Etr by done; congruence).
  destruct (tr_rtp tr) as [m|] eqn:Em.
  2:{ exists rem, sv, x. split_and!; try done. intros t' e Hle He. exfalso. subst k.
      pose proof (session_ep_media _ _ _ _ _ _ _ Hi Hs El Ek He) as Hm.
      destruct (iv_source _ Hi _ _ Ek) as (_ & _ & _ & _ & Hpre).
      destruct (Hpre t' t Hle Hm) as (tr' & Et' & [m Hm']). congruence. }
  rewrite (deref_Ok _ _ _ Hs), bind_Ok.
  destruct (iv_session _ Hi _ _ Hs) as (Hlen & _). destruct (iv_source _ Hi _ _ Ek) as (_ & _ & Hlt & _).
  assert (is_Some (ss_ep x !! t)) as [o Eo] by (apply lookup_lt_is_Some_2; apply lookup_lt_Some in Ett; lia).
  rewrite (rd_Ok _ _ _ Eo), bind_Ok. destruct o as [e|].
  2:{ destruct (IH sv x (S t) rem) as (n & sv' & x' & E & H1 & H2 & H3 & H4 & H5 & H6 & H7 & H8 & H9); try done.
      exists n, sv', x'. split_and!; try done. intros t' e Hle He. apply H7; [|done].
      destruct (decide (t' = t)) as [->|]; [congruence|lia]. }
  fold (wanted ep e). destruct (wanted ep e) eqn:Ew.
  - destruct (drop_and_check sv s x ls k src t e) as (sv1 & sv2 & -> & E2 & Hi2 & Hidle2 & Ht2 & Hs2 & He2); try done.
    rewrite bind_Ok, E2, bind_Ok. 
    destruct (IH sv2 (without_track x t) (S t) rem) as (n & sv' & x' & E & H1 & H2 & H3 & H4 & H5 & H6 & H7 & H8 & H9);
      try done; [by rewrite (to_lives _ _ _ Ht2)|by rewrite (to_sources _ _ _ Ht2)|].
    exists n, sv', x'. split_and!; try done; [by eapply torn_trans| |].
    + intros t' e' He'. by apply H6, without_track_lookup in He' as [_ He'].
    + intros t' e' Hle He'. destruct (decide (t' = t)) as [->|Hne].
      * assert (e' = e) as -> by congruence. rewrite Ew. split.
        -- destruct (sv_eps sv' !! e) as [y|] eqn:Ey; [|done].
           apply (to_eps _ _ _ H3) in Ey. congruence.
        -- destruct (ss_ep x' !! t) as [[e'|]|] eqn:Ex'; [|done|].
           ++ apply H6, without_track_lookup in Ex' as [? _]. done.
           ++ apply lookup_ge_None in Ex'. destruct (iv_session _ H1 _ _ H4) as [Hl' _].
              apply lookup_lt_Some in Eo. lia.
      * apply H7; [lia|]. cbn [ss_ep without_track]. by rewrite list_lookup_insert_ne.
  - destruct (IH sv x (S t) (S rem)) as (n & sv' & x' & E & H1 & H2 & H3 & H4 & H5 & H6 & H7 & H8 & H9); try done.
    exists n, sv', x'. split_and!; try done; [|lia|by intros ->]. intros t' e' Hle He'.
    destruct (decide (t' = t)) as [->|Hne].
    + assert (e' = e) as -> by congruence. rewrite Ew. lia.
    + specialize (H7 t' e' ltac:(lia) He'). destruct (wanted ep e'); [done|lia].
Qed.

(** What requests leave alone in a source: the tracks and the size of packets. *)
Definition lv_static (src : live_source) : list live_track * Z := (lv_track src, lv_max_trans_size src).

(** What closing sessions keeps. *)
Record closing (sv sv' : server) : Prop := {
  cl_wire : sv_wire sv' = sv_wire sv;
  cl_fresh : sv_fresh sv' = sv_fresh sv;
  cl_eps e y : sv_eps sv' !! e = Some y → sv_eps sv !! e = Some y;
  cl_rconns rc : is_Some (sv_rconns sv' !! rc) ↔ is_Some (sv_rconns sv !! rc);
  cl_tracks k : lv_static <$> sv_sources sv' !! k = lv_static <$> sv_sources sv !! k;
  cl_rtsps r y : sv_rtsps sv' !! r = Some y → sv_rtsps sv !! r = Some y;
  cl_sessions s : is_Some (sv_sessions sv' !! s) → is_Some (sv_sessions sv !! s);
  cl_streams : flags_only (sv_streams sv) (sv_streams sv') }.

#[export] Instance closing_preorder : PreOrder closing.
Proof.
  split.
  - intros sv. by split.
  - intros a b c A B. split.
    + by rewrite (cl_wire _ _ B), (cl_wire _ _ A).
    + by rewrite (cl_fresh _ _ B), (cl_fresh _ _ A).
    + intros e y E. by apply (cl_eps _ _ A), (cl_eps _ _ B).
    + intros rc. by rewrite (cl_rconns _ _ B), (cl_rconns _ _ A).
    + intros k. by rewrite (cl_tracks _ _ B), (cl_tracks _ _ A).
    + intros r y E. by apply (cl_rtsps _ _ A), (cl_rtsps _ _ B).
    + intros s Hs. by apply (cl_sessions _ _ A), (cl_sessions _ _ B).
    + etrans; [apply (cl_streams _ _ A)|apply (cl_streams _ _ B)].
Qed.

Lemma torn_closing sv sv' s : is_Some (sv_sessions sv !! s) → torn sv sv' s → closing sv sv'.
Proof.
  intros Hs T. split.
  - apply (to_wire _ _ _ T).
  - apply (to_fresh _ _ _ T).
  - apply (to_eps _ _ _ T).
  - apply (to_rconns _ _ _ T).
  - by rewrite (to_sources _ _ _ T).
  - by rewrite (to_rtsps _ _ _ T).
  - intros s' Hs'. destruct (decide (s' = s)) as [->|Hne]; [done|]. by rewrite (to_sessions _ _ _ T) in Hs'.
  - apply (to_streams _ _ _ T).
Qed.

(** The state after [end_session]. *)
Definition ended (sv : server) (s : nat) (x : session) (ls : live_session) (src : live_source) : server :=
  let cur := if (0 <? lv_cur_conn src) && ls_playing ls then lv_cur_conn src - 1 else lv_cur_conn src in
  let rtsps := match ss_control x with Some r => delete r (sv_rtsps sv) | None => sv_rtsps sv end in
  let rtsp_list := match ss_control x with Some r => unlink r (sv_rtsp_list sv) | None => sv_rtsp_list sv end in
  MkServer (sv_wire sv) (sv_rconns sv) (delete s (sv_sessions sv)) (unlink s (sv_sess_list sv))
    rtsps rtsp_list (delete (ss_private x) (sv_lives sv))
    (<[ls_source ls := MkSource (unlink (ss_private x) (lv_sess_list src)) (lv_track src)
         (lv_max_trans_size src) (lv_max_conn src) cur]> (sv_sources sv))
    (sv_eps sv) (sv_streams sv) (sv_fresh sv).

Section ended.
Context (sv : server) (s : nat) (x : session) (ls : live_session) (src : live_source).
Hypothesis Hi : server_inv sv.
Hypothesis Hs : sv_sessions sv !! s = Some x.
Hypothesis Hl : sv_lives sv !! ss_private x = Some ls.
Hypothesis Hk : sv_sources sv !! ls_source ls = Some src.
Hypothesis Hnone : ∀ t e, ss_ep x !! t ≠ Some (Some e).
Abbreviation sv' := (ended sv s x ls src).

Lemma end_session_eq : end_session sv s (ss_private x) ls = Ok sv'.
Proof.
  unfold end_session, del_session, rtsp_session_close, ended. rewrite (deref_Ok _ _ _ Hk), bind_Ok. sv_cbn.
  rewrite (deref_Ok _ _ _ Hs), bind_Ok. destruct (ss_control x) as [r|] eqn:Er; [|done].
  destruct (iv_session _ Hi _ _ Hs) as (_ & _ & Hc & _). destruct (Hc r Er) as (y & Ey & _). sv_cbn.
  by rewrite (deref_Ok _ _ _ Ey).
Qed.

(** The objects of other sessions are still there. *)
Lemma ended_lives l ls' : sv_lives sv' !! l = Some ls' ↔ l ≠ ss_private x ∧ sv_lives sv !! l = Some ls'.
Proof.
  unfold ended. sv_cbn. rewrite lookup_delete_Some. split; intros [H1 H2]; (split; [congruence|done]).
Qed.

Lemma ended_sessions s' x' : sv_sessions sv' !! s' = Some x' ↔ s' ≠ s ∧ sv_sessions sv !! s' = Some x'.
Proof.
  unfold ended. sv_cbn. rewrite lookup_delete_Some. split; intros [H1 H2]; (split; [congruence|done]).
Qed.

Lemma ended_rtsps r y :
  sv_rtsps sv' !! r = Some y ↔ ss_control x ≠ Some r ∧ sv_rtsps sv !! r = Some y.
Proof.
  unfold ended. sv_cbn. destruct (ss_control x) as [r'|]; [|naive_solver]. rewrite lookup_delete_Some. naive_solver.
Qed.

Lemma private_inj s' x' :
  sv_sessions sv !! s' = Some x' → ss_private x' = ss_private x → s' = s.
Proof.
  intros E Ep. destruct (iv_session _ Hi _ _ E) as (_ & (l1 & El1 & <-) & _).
  destruct (iv_session _ Hi _ _ Hs) as (_ & (l2 & El2 & <-) & _). congruence.
Qed.

Lemma control_inj s' x' r :
  sv_sessions sv !! s' = Some x' → ss_control x' = Some r → ss_control x = Some r → s' = s.
Proof.
  intros E Ep Ec. destruct (iv_session _ Hi _ _ E) as (_ & _ & H1 & _).
  destruct (iv_session _ Hi _ _ Hs) as (_ & _ & H2 & _).
  destruct (H1 r Ep) as (y1 & Ey1 & <-). destruct (H2 r Ec) as (y2 & Ey2 & <-). congruence.
Qed.

Lemma ended_source k src' :
  sv_sources sv' !! k = Some src' →
  ∃ src0, sv_sources sv !! k = Some src0 ∧ lv_track src' = lv_track src0 ∧
    ∀ l, l ∈ lv_sess_list src' ↔ l ∈ lv_sess_list src0 ∧ l ≠ ss_private x.
Proof.
  unfold ended. sv_cbn. intros E. apply lookup_insert_Some in E as [[<- <-]|[Hne E]].
  - exists src. split_and!; [done|done|]. intros l. cbn [lv_sess_list]. unfold unlink. rewrite list_elem_of_filter. tauto.
  - exists src'. split_and!; [done|done|]. intros l. split; [|tauto]. intros Hin. split; [done|]. intros ->.
    destruct (iv_source _ Hi _ _ E) as (_ & H & _). destruct (H _ Hin) as (ls' & El' & Es').
    assert (ls' = ls) as -> by congruence. congruence.
Qed.

Lemma ended_source_kept k src0 :
  sv_sources sv !! k = Some src0 →
  ∃ src', sv_sources sv' !! k = Some src' ∧ lv_track src' = lv_track src0 ∧
    ∀ l, l ∈ lv_sess_list src0 → l ≠ ss_private x → l ∈ lv_sess_list src'.
Proof.
  intros E. unfold ended. sv_cbn. destruct (decide (k = ls_source ls)) as [->|Hne].
  - rewrite lookup_insert_eq. eexists. assert (src0 = src) as -> by congruence. split_and!; [done|done|].
    intros l Hin Hne. cbn [lv_sess_list]. unfold unlink. by apply list_elem_of_filter.
  - rewrite lookup_insert_ne by done. exists src0. by split_and!.
Qed.

Lemma ended_ep_session e y : sv_eps sv !! e = Some y → e_session y ≠ s.
Proof.
  intros E He. destruct (iv_ep _ Hi _ _ E) as [(x1 & ls1 & src1 & t1 & E1 & Et1 & _) _].
  rewrite He in E1. assert (x1 = x) as -> by congruence. by eapply Hnone.
Qed.

Lemma ended_sessions_inv s' x' : sv_sessions sv' !! s' = Some x' → wf_session sv' s' x'.
Proof.
  intros [Hne E]%ended_sessions. destruct (iv_session _ Hi _ _ E) as (H1 & (ls1 & El1 & Es1) & H3 & H4).
  split; [done|]. split; [|split].
  - exists ls1. split; [|done]. apply ended_lives. split; [|done]. intros Hp. apply Hne. by eapply private_inj.
  - intros r Hr. destruct (H3 r Hr) as (y & Ey & Ery). exists y. split; [|done]. apply ended_rtsps. split; [|done].
    intros Hc. apply Hne. by eapply control_inj.
  - intros t e He. apply (H4 t e He).
Qed.

Lemma ended_source_inv k src' : sv_sources sv' !! k = Some src' → wf_source sv' k src'.
Proof.
  intros E. destruct (ended_source k src' E) as (src0 & E0 & Ht & Hin).
  destruct (iv_source _ Hi _ _ E0) as (H1 & H2 & H3 & H4 & H5). split; [|split; [|split; [|split]]].
  - unfold ended in E. sv_cbn. apply lookup_insert_Some in E as [[<- <-]|[Hne E]]; [|congruence].
    cbn [lv_sess_list]. apply NoDup_filter. assert (src0 = src) as -> by congruence. done.
  - intros l [Hl' Hne]%Hin. destruct (H2 l Hl') as (ls' & El' & Es'). exists ls'. split; [|done]. by apply ended_lives.
  - by rewrite Ht.
  - rewrite Ht. apply H4.
  - unfold has_media. rewrite Ht. apply H5.
Qed.

Lemma ended_ep_inv e y : sv_eps sv' !! e = Some y → wf_endpoint sv' e y.
Proof.
  intros E. change (sv_eps sv !! e = Some y) in E. pose proof (ended_ep_session e y E) as Hes.
  destruct (iv_ep _ Hi _ _ E) as [(x1 & ls1 & src1 & t1 & E1 & Et1 & Hu & El1 & Es1 & Hm) Htr]. split; [|exact Htr].
  destruct (ended_source_kept _ _ Es1) as (src' & Es' & Ht' & _). exists x1, ls1, src', t1.
  split; [by apply ended_sessions|]. split; [done|]. split; [done|]. split; [|split; [done|]].
  - apply ended_lives. split; [|done]. intros Hp. apply Hes. by eapply private_inj.
  - unfold has_media. by rewrite Ht'.
Qed.

Lemma ended_inv : server_inv sv'.
Proof.
  split; try (apply ended_sessions_inv || apply ended_source_inv || apply ended_ep_inv).
  - intros l ls' [Hne E]%ended_lives. destruct (iv_live _ Hi _ _ E) as [(x1 & E1 & Hp) (src0 & E0 & Hin)]. split.
    + exists x1. split; [|done]. apply ended_sessions. split; [|done]. intros Heq. apply Hne. rewrite Heq in E1. congruence.
    + destruct (ended_source_kept _ _ E0) as (src' & E' & _ & Hin'). exists src'. split; [done|]. by apply Hin'.
  - intros r y [Hne E]%ended_rtsps. destruct (iv_rtsp _ Hi _ _ E) as (x1 & E1 & Hc). exists x1. split; [|done].
    apply ended_sessions. split; [|done]. intros Heq. apply Hne. rewrite Heq in E1. congruence.
  - intros r. pose proof (iv_rtsp_list _ Hi r) as H. unfold ended. sv_cbn. destruct (ss_control x) as [r'|]; [|done].
    unfold unlink. rewrite list_elem_of_filter, H, lookup_delete_is_Some. naive_solver.
  - intros rc t E. apply (iv_rconn _ Hi rc t E).
  - intros p Hp. destruct (iv_fresh _ Hi p Hp) as (H1 & H2 & H3 & H4 & H5 & H6 & H7).
    unfold unused, ended. sv_cbn. split_and!; try done.
    + rewrite lookup_delete_None. by right.
    + destruct (ss_control x); [rewrite lookup_delete_None; by right|done].
    + rewrite lookup_delete_None. by right.
    + rewrite lookup_insert_ne; [done|]. intros <-. congruence.
  - apply (iv_proto _ Hi).
  - apply (iv_streams _ Hi).
Qed.

Lemma ended_idle : idle sv nowhere → idle sv' nowhere.
Proof.
  intros Hidle k src' t tr d Ek Et Hm Hr Ed Hh Hw. destruct (ended_source _ _ Ek) as (src0 & E0 & Ht & Hin).
  rewrite Ht in Et. destruct (Hidle k src0 t tr d) as (p & Hp & ls1 & x1 & e1 & P1 & P2 & P3 & P4); try done.
  assert (p ≠ ss_private x) as Hne.
  { intros ->. assert (ls1 = ls) as -> by congruence. destruct (iv_session _ Hi _ _ Hs) as (_ & (ls2 & El2 & Es2) & _).
    assert (ls2 = ls) as -> by congruence. rewrite Es2 in P3. assert (x1 = x) as -> by congruence. by eapply Hnone. }
  exists p. split; [by apply Hin|]. exists ls1, x1, e1. split_and!; try done; [by apply ended_lives|].
  apply ended_sessions. split; [|done]. intros Heq. rewrite Heq in P3. assert (x1 = x) as -> by congruence. by eapply Hnone.
Qed.

Lemma ended_closing : closing sv sv'.
Proof.
  split; try done.
  - intros k. unfold ended. sv_cbn. destruct (decide (k = ls_source ls)) as [->|Hne].
    + by rewrite lookup_insert_eq, Hk.
    + by rewrite lookup_insert_ne.
  - by intros r y [_ E]%ended_rtsps.
  - intros s' [x' [_ E]%ended_sessions]. by exists x'.
Qed.
End ended.

(** Taking session [s] or some of its endpoints down leaves the others alone; [l] is its
    live session. *)
Record others (sv sv' : server) (s l : nat) : Prop := {
  ot_sessions s' : s' ≠ s → sv_sessions sv' !! s' = sv_sessions sv !! s';
  ot_lives l' : l' ≠ l → sv_lives sv' !! l' = sv_lives sv !! l';
  ot_eps e y : sv_eps sv !! e = Some y → e_session y ≠ s → sv_eps sv' !! e = Some y;
  ot_list k src : sv_sources sv !! k = Some src → ∃ src', sv_sources sv' !! k = Some src' ∧
    (lv_sess_list src' = lv_sess_list src ∨ lv_sess_list src' = unlink l (lv_sess_list src)) }.

Lemma torn_others sv sv' s l : torn sv sv' s → others sv sv' s l.
Proof.
  intros T. split.
  - apply (to_sessions _ _ _ T).
  - by rewrite (to_lives _ _ _ T).
  - apply (to_eps_other _ _ _ T).
  - rewrite (to_sources _ _ _ T). eauto.
Qed.

Lemma ended_others sv sv1 s x ls src :
  torn sv sv1 s → sv_sources sv1 !! ls_source ls = Some src → others sv (ended sv1 s x ls src) s (ss_private x).
Proof.
  intros T Ek. unfold ended. split; sv_cbn.
  - intros s' Hne. rewrite lookup_delete_ne by done. by apply (to_sessions _ _ _ T).
  - intros l Hne. rewrite lookup_delete_ne by done. by rewrite (to_lives _ _ _ T).
  - apply (to_eps_other _ _ _ T).
  - intros k src0 E. rewrite <- (to_sources _ _ _ T) in E. destruct (decide (k = ls_source ls)) as [->|Hne].
    + rewrite lookup_insert_eq. eexists. split; [done|]. right. cbn. congruence.
    + rewrite lookup_insert_ne by done. eauto.
Qed.

(** [live_teardown] of a session that exists returns; the endpoints it was asked to take
    down are gone, all of them and the session when it was asked for all. *)
Lemma live_teardown_ok sv s x ep :
  server_inv sv → idle sv nowhere → sv_sessions sv !! s = Some x →
  ∃ sv', live_teardown sv s ep = Ok sv' ∧ server_inv sv' ∧ idle sv' nowhere ∧ closing sv sv' ∧
    (∀ t e, ss_ep x !! t = Some (Some e) → wanted ep e = true → sv_eps sv' !! e = None) ∧
    (ep = None → sv_sessions sv' !! s = None) ∧ others sv sv' s (ss_private x).
Proof.
  intros Hi Hidle Hs. unfold live_teardown, live_of. rewrite (deref_Ok _ _ _ Hs), bind_Ok.
  destruct (iv_session _ Hi _ _ Hs) as (Hlen & (ls & El & Els) & _). rewrite (deref_Ok _ _ _ El), bind_Ok.
  destruct (iv_live _ Hi _ _ El) as [_ (src & Ek & _)]. rewrite (deref_Ok _ _ _ Ek), !bind_Ok.
  destruct (teardown_tracks_ok ep (lv_track src) sv s x ls (ls_source ls) src 0 0)
    as (n & sv1 & x1 & -> & H1 & H2 & H3 & H4 & H5 & H6 & H7 & H8 & H9); try done.
  rewrite bind_Ok. assert (closing sv sv1) as Hc1 by (by eapply torn_closing).
  destruct (Nat.eqb_spec n 0) as [->|Hn].
  - assert (∀ t e, ss_ep x1 !! t ≠ Some (Some e)) as Hnone.
    { intros t e He. pose proof (H7 t e ltac:(lia) (H6 _ _ He)) as H. destruct (wanted ep e); [|lia].
      destruct H as [_ H]. congruence. }
    rewrite <- H5 in El |- *. rewrite <- (to_lives _ _ _ H3) in El. rewrite <- (to_sources _ _ _ H3) in Ek.
    exists (ended sv1 s x1 ls src). split; [by apply end_session_eq|]. split; [by apply ended_inv|].
    split; [by apply ended_idle|]. split; [etrans; [exact Hc1|by apply ended_closing]|]. split; [|split].
    + intros t e He Hw. specialize (H7 t e ltac:(lia) He). rewrite Hw in H7. apply H7.
    + intros _. unfold ended. sv_cbn. by rewrite lookup_delete_eq.
    + by apply ended_others.
  - exists sv1. do 4 (split; [done|]). split; [|split].
    + intros t e He Hw. specialize (H7 t e ltac:(lia) He). rewrite Hw in H7. apply H7.
    + intros ->. by rewrite H9 in Hn.
    + by apply torn_others.
Qed.

Lemma teardown_ep_ok sv e y :
  server_inv sv → idle sv nowhere → sv_eps sv !! e = Some y →
  ∃ sv', teardown_ep sv e = Ok sv' ∧ server_inv sv' ∧ idle sv' nowhere ∧ closing sv sv' ∧ sv_eps sv' !! e = None.
Proof.
  intros Hi Hidle E. unfold teardown_ep. rewrite (deref_Ok _ _ _ E), bind_Ok.
  destruct (iv_ep _ Hi _ _ E) as [(x & ls & src & t & Ex & Et & _) _].
  destruct (live_teardown_ok sv (e_session y) x (Some e)) as (sv' & Eq & H1 & H2 & H3 & H4 & _); try done.
  exists sv'. split_and!; try done. apply (H4 t); [done|]. cbn. apply Nat.eqb_refl.
Qed.

(** ** The end of a connection *)

(** The loop of [rtsp_conn_disconnect] from channel [i]. *)
Lemma disconnect_channels_ok n sv rc i :
  server_inv sv → idle sv nowhere → is_Some (sv_rconns sv !! rc) → (i + n = MAX_INTERLEAVE_CHANNELS)%nat →
  ∃ sv', disconnect_channels n sv rc i = Ok sv' ∧ server_inv sv' ∧ idle sv' nowhere ∧ closing sv sv' ∧
    ∀ tbl' j e, sv_rconns sv' !! rc = Some tbl' → (i <= j)%nat → tbl' !! j ≠ Some (MkIchan (Some e) false).
Proof.
  revert sv i. induction n as [|n IH]; intros sv i Hi Hidle [tbl Er] Hn; cbn [disconnect_channels].
  - exists sv. split_and!; try done. intros tbl' j e E Hj Ht. assert (tbl' = tbl) as -> by congruence.
    destruct (iv_rconn _ Hi _ _ Er) as [Hl _]. apply lookup_lt_Some in Ht. lia.
  - destruct (iv_rconn _ Hi _ _ Er) as (Hl & c & cx & Ec & Ep & Hu & Hc). rewrite (deref_Ok _ _ _ Er), bind_Ok.
    assert (is_Some (tbl !! i)) as [[o b] Ei] by (apply lookup_lt_is_Some_2; lia). rewrite (rd_Ok _ _ _ Ei), bind_Ok.
    cbn [ic_ep ic_rtcp].
    assert (∃ sv1, match o with Some e => if b then Ok sv else teardown_ep sv e | None => Ok sv end = Ok sv1 ∧
      server_inv sv1 ∧ idle sv1 nowhere ∧ closing sv sv1 ∧
      (∀ e, o = Some e → b = false → sv_eps sv1 !! e = None)) as (sv1 & -> & H1 & H2 & H3 & H4).
    { destruct o as [e|]; [destruct b|]; [by exists sv| |by exists sv].
      destruct (Hc _ _ _ Ei) as (y & _ & _ & Ey & _).
      destruct (teardown_ep_ok sv e y) as (sv1 & E1 & H1 & H2 & H3 & H4); try done.
      exists sv1. split_and!; try done. by intros e' [= <-] _. }
    rewrite bind_Ok. destruct (IH sv1 (S i)) as (sv' & E' & H1' & H2' & H3' & H4'); try done.
    { by apply (cl_rconns _ _ H3). }
    { lia. }
    exists sv'. split_and!; try done; [by etrans|]. intros tbl' j e E Hj Ht.
    destruct (decide (j = i)) as [->|Hne]; [|by apply (H4' tbl' j e E); [lia|]].
    destruct (iv_rconn _ H1' _ _ E) as (_ & c' & cx' & Ec' & Ep' & _ & Hc').
    destruct (Hc' _ _ _ Ht) as (y & a & a' & Ey & Et & Ha). apply (cl_eps _ _ H3') in Ey.
    pose proof (cl_eps _ _ H3 _ _ Ey) as Ey0. destruct (iv_ep _ Hi _ _ Ey0) as [_ Htr]. rewrite Et in Htr.
    destruct Htr as [(cx0 & rc0 & tbl0 & Ec0 & Ep0 & Er0 & Ei0) _].
    rewrite (cl_wire _ _ H3'), (cl_wire _ _ H3) in Ec'. assert (cx0 = cx') as -> by congruence.
    assert (rc0 = rc) as -> by congruence. assert (tbl0 = tbl) as -> by congruence.
    rewrite <- Ha, Ei in Ei0. injection Ei0 as -> ->. rewrite (H4 e) in Ey by done. done.
Qed.

(** The sessions of the connection are closed, and the channels freed. *)
Lemma rtsp_conn_disconnect_ok sv c cx rc :
  server_inv sv → idle sv nowhere → sv_conns sv !! c = Some cx → cn_proto_state cx = Some rc →
  is_Some (sv_rconns sv !! rc) →
  ∃ sv1, let sv' := with_rconns sv1 (delete rc (sv_rconns sv1)) in
    rtsp_conn_disconnect sv c = Ok sv' ∧ closing sv sv1 ∧ server_inv sv' ∧ idle sv' nowhere.
Proof.
  intros Hi Hidle Ec Ep Hr. unfold rtsp_conn_disconnect. rewrite (deref_Ok _ _ _ Ec), bind_Ok, Ep.
  destruct (disconnect_channels_ok MAX_INTERLEAVE_CHANNELS sv rc 0) as (sv1 & -> & H1 & H2 & H3 & H4); try done.
  rewrite bind_Ok. exists sv1. cbv zeta. split; [done|]. split; [done|].
  apply (cl_rconns _ _ H3) in Hr as Hr1. destruct Hr1 as [tbl Er].
  destruct (iv_rconn _ H1 _ _ Er) as (_ & c1 & cx1 & Ec1 & Ep1 & Hu1 & Hc1).
  assert (c1 = c) as -> by (symmetry; apply (Hu1 c cx); [by rewrite (cl_wire _ _ H3)|done]).
  (* no endpoint sends on the connection any more *)
  assert (∀ e y a b, sv_eps sv1 !! e = Some y → ep_trans (e_ep y) ≠ RTP_TRANS_INTER c a b) as Hno.
  { intros e y a b Ey Et. destruct (iv_ep _ H1 _ _ Ey) as [_ Htr]. rewrite Et in Htr.
    destruct Htr as [(cx0 & rc0 & tbl0 & Ec0 & Ep0 & Er0 & Ei0) _].
    assert (rc0 = rc) as -> by congruence. eapply H4; [exact Er0| |exact Ei0]. lia. }
  split.
  - split; try apply H1.
    + intros e y Ey. sv_cbn. destruct (iv_ep _ H1 _ _ Ey) as [Hp Htr]. split; [exact Hp|].
      destruct (ep_trans (e_ep y)) as [| |c' a b] eqn:Et; try done.
      assert (∀ i b', at_chan sv1 c' i e b' → at_chan (with_rconns sv1 (delete rc (sv_rconns sv1))) c' i e b') as Hk.
      { intros i b' (cx0 & rc0 & tbl0 & Ec0 & Ep0 & Er0 & Ei0). exists cx0, rc0, tbl0. split_and!; try done. sv_cbn.
        rewrite lookup_delete_ne; [done|]. intros ->. apply (Hno e y a b Ey). rewrite Et. f_equal.
        by apply (Hu1 c' cx0). }
      destruct Htr. split; by apply Hk.
    + intros rc' t E. sv_cbn. apply lookup_delete_Some in E as [_ E]. apply (iv_rconn _ H1 _ _ E).
    + intros p Hp. destruct (iv_fresh _ H1 p Hp) as (F1 & F2 & F3). unfold unused. sv_cbn.
      rewrite lookup_delete_None. split; [done|]. split; [by right|done].
  - apply H2.
Qed.
