(* ===== verification/ServerOps.v ===== *)
(** * Opening sessions

    The operations that make sessions, endpoints and channels keep the invariant of
    [ServerInv]. *)

From Stdlib Require Import String.
From S2P Require Import Prelude CString HttpAuth SendBuf Frame Stream Rtcp Rtp RtpMedia Server ServerInv.

Local Open Scope Z_scope.
Local Open Scope c_scope.

(** ** A new session *)

Definition opened (sv : server) (k : nat) (src : live_source) (now : Z) : server :=
  let l := sv_fresh sv in
  let s := S l in
  MkServer (sv_wire sv) (sv_rconns sv)
    (<[s := MkSession (replicate MAX_TRACKS None) l None (lit "(unconnected)") now]> (sv_sessions sv))
    (s :: sv_sess_list sv) (sv_rtsps sv) (sv_rtsp_list sv)
    (<[l := MkLive s k false]> (sv_lives sv))
    (<[k := MkSource (l :: lv_sess_list src) (lv_track src) (lv_max_trans_size src) (lv_max_conn src)
              (lv_cur_conn src)]> (sv_sources sv))
    (sv_eps sv) (sv_streams sv) (S s).

Lemma live_open_eq sv k src now :
  sv_sources sv !! k = Some src →
  live_open sv k now =
  if lv_max_conn src <=? lv_cur_conn src then Ok (None, sv)
  else Ok (Some (S (sv_fresh sv)), opened sv k src now).
Proof. intros E. unfold live_open. rewrite (deref_Ok _ _ _ E), bind_Ok. by destruct (_ <=? _). Qed.

Section opened.
Context (sv : server) (k : nat) (src : live_source) (now : Z).
Hypothesis Hi : server_inv sv.
Hypothesis Hk : sv_sources sv !! k = Some src.
Abbreviation sv' := (opened sv k src now).
Abbreviation fresh := (sv_fresh sv).

Lemma opened_sessions s x : sv_sessions sv !! s = Some x → sv_sessions sv' !! s = Some x.
Proof.
  intros E. unfold opened. sv_cbn. rewrite lookup_insert_ne; [done|]. intros <-.
  destruct (iv_fresh _ Hi (S fresh)) as (_ & _ & H & _); [lia|congruence].
Qed.

Lemma opened_lives l ls : sv_lives sv !! l = Some ls → sv_lives sv' !! l = Some ls.
Proof.
  intros E. unfold opened. sv_cbn. rewrite lookup_insert_ne; [done|]. intros <-.
  destruct (iv_fresh _ Hi fresh) as (_ & _ & _ & _ & H & _); [lia|congruence].
Qed.

Lemma opened_sources k' src' :
  sv_sources sv !! k' = Some src' →
  ∃ src1, sv_sources sv' !! k' = Some src1 ∧ lv_track src1 = lv_track src' ∧
    ∀ l, l ∈ lv_sess_list src' → l ∈ lv_sess_list src1.
Proof.
  intros E. unfold opened. sv_cbn. destruct (decide (k' = k)) as [->|Hne].
  - rewrite lookup_insert_eq. eexists. split; [done|]. assert (src' = src) as -> by congruence. cbn. set_solver.
  - rewrite lookup_insert_ne by done. by exists src'.
Qed.

Lemma opened_source_inv k' src' : sv_sources sv' !! k' = Some src' → wf_source sv' k' src'.
Proof.
  intros E. unfold opened in E. sv_cbn. apply lookup_insert_Some in E as [[<- <-]|[Hne E]].
  - destruct (iv_source _ Hi _ _ Hk) as (H1 & H2 & H3). split; [|split; [|done]].
    + cbn [lv_sess_list]. apply NoDup_cons. split; [|done]. intros Hin. destruct (H2 _ Hin) as (ls & El & _).
      destruct (iv_fresh _ Hi fresh) as (_ & _ & _ & _ & H & _); [lia|congruence].
    + intros l [->|Hl]%elem_of_cons.
      * eexists. split; [apply lookup_insert_eq|done].
      * destruct (H2 l Hl) as (ls & El & Es). exists ls. split; [by apply opened_lives|done].
  - destruct (iv_source _ Hi _ _ E) as (H1 & H2 & H3). split; [done|]. split; [|done].
    intros l Hl. destruct (H2 l Hl) as (ls & El & Es). exists ls. split; [by apply opened_lives|done].
Qed.

Lemma opened_inv : server_inv sv'.
Proof.
  split; try apply opened_source_inv; try (by apply Hi).
  - intros s x E. unfold opened in E. sv_cbn. apply lookup_insert_Some in E as [[<- <-]|[Hne E]].
    + split; [done|]. split; [|split; [done|]].
      * eexists. split; [apply lookup_insert_eq|done].
      * intros t e He. cbn in He. apply (lookup_replicate_1 MAX_TRACKS None) in He as [? _]. done.
    + destruct (iv_session _ Hi _ _ E) as (H1 & (ls & El & Es) & H3). split; [done|]. split; [|done].
      exists ls. split; [by apply opened_lives|done].
  - intros l ls E. unfold opened in E. sv_cbn. apply lookup_insert_Some in E as [[<- <-]|[Hne E]].
    + split; [eexists; split; [apply lookup_insert_eq|done]|]. cbn [ls_source]. unfold opened. sv_cbn.
      rewrite lookup_insert_eq. eexists. split; [done|]. by left.
    + destruct (iv_live _ Hi _ _ E) as [(x & Ex & Hp) (src' & Es & Hin)]. split.
      * exists x. split; [by apply opened_sessions|done].
      * destruct (opened_sources _ _ Es) as (src1 & E1 & _ & H). exists src1. split; [done|]. by apply H.
  - intros r y E. destruct (iv_rtsp _ Hi _ _ E) as (x & Ex & Hc). exists x. split; [by apply opened_sessions|done].
  - intros e y E. destruct (iv_ep _ Hi _ _ E) as [(x & ls & src' & t & H1 & H2 & H3 & H4 & H5 & H6) Htr]. split; [|exact Htr].
    destruct (opened_sources _ _ H5) as (src1 & E1 & Ht & _). exists x, ls, src1, t.
    split; [by apply opened_sessions|]. split; [done|]. split; [done|]. split; [by apply opened_lives|].
    split; [done|]. unfold has_media. by rewrite Ht.
  - intros p Hp. cbn [sv_fresh opened] in Hp. destruct (iv_fresh _ Hi p ltac:(lia)) as (H1 & H2 & H3 & H4 & H5 & H6 & H7).
    unfold unused, opened. sv_cbn. rewrite !lookup_insert_ne; try done; try lia. intros <-. congruence.
  - intros c x rc Ec Ep. pose proof (iv_proto _ Hi c x rc Ec Ep). cbn. lia.
Qed.

Lemma opened_idle : idle sv nowhere → idle sv' nowhere.
Proof.
  intros Hidle k' src' t tr d Ek Et Hm Hr Ed Hh Hw.
  assert (∃ src0, sv_sources sv !! k' = Some src0 ∧ lv_track src' = lv_track src0 ∧
    ∀ l, l ∈ lv_sess_list src0 → l ∈ lv_sess_list src') as (src0 & E0 & Ht & Hin).
  { unfold opened in Ek. sv_cbn. apply lookup_insert_Some in Ek as [[<- <-]|[Hne E]]; [|by exists src'].
    exists src. cbn. split_and!; [done|done|set_solver]. }
  rewrite Ht in Et. destruct (Hidle k' src0 t tr d) as (p & Hp & ls & x & e & P1 & P2 & P3 & P4); try done.
  exists p. split; [by apply Hin|]. exists ls, x, e.
  split_and!; [by apply opened_lives|done|by apply opened_sessions|done].
Qed.
End opened.

(** ** Changes that keep the links *)

(** The buffers of connections change, not their [proto_state]. *)
Definition same_conns (m m' : gmap nat conn) : Prop :=
  ∀ c, cn_proto_state <$> m' !! c = cn_proto_state <$> m !! c.

#[export] Instance same_conns_preorder : PreOrder same_conns.
Proof. split; [done|]. intros a b c A B x. by rewrite B, A. Qed.

Lemma same_conns_fwd m m' c x :
  same_conns m m' → m !! c = Some x → ∃ x', m' !! c = Some x' ∧ cn_proto_state x' = cn_proto_state x.
Proof.
  intros H E. specialize (H c). rewrite E in H. destruct (m' !! c) as [x'|] eqn:E'; [|done].
  exists x'. split; [done|]. by injection H.
Qed.

Lemma same_conns_bwd m m' c x' :
  same_conns m m' → m' !! c = Some x' → ∃ x, m !! c = Some x ∧ cn_proto_state x' = cn_proto_state x.
Proof.
  intros H E. specialize (H c). rewrite E in H. destruct (m !! c) as [x|] eqn:E'; [|done].
  exists x. split; [done|]. by injection H.
Qed.

Lemma same_conns_at_chan sv w c i e b :
  same_conns (sv_conns sv) (wi_conns w) → at_chan sv c i e b → at_chan (with_wire sv w) c i e b.
Proof.
  intros H (cx & rc & tbl & E1 & E2 & E3 & E4). destruct (same_conns_fwd _ _ _ _ H E1) as (cx' & E1' & Hp).
  exists cx', rc, tbl. by rewrite Hp.
Qed.

Lemma with_wire_inv sv w :
  server_inv sv → same_conns (sv_conns sv) (wi_conns w) → server_inv (with_wire sv w).
Proof.
  intros Hi H. split; try (by apply Hi).
  - intros e y E. destruct (iv_ep _ Hi _ _ E) as [Hp Htr]. split; [exact Hp|].
    destruct (ep_trans (e_ep y)); try done. destruct Htr. split; by apply same_conns_at_chan.
  - intros rc tbl E. destruct (iv_rconn _ Hi _ _ E) as (H1 & c & cx & Ec & Ep & Hu & Hc). split; [done|].
    destruct (same_conns_fwd _ _ _ _ H Ec) as (cx' & Ec' & Hp). exists c, cx'. split_and!; [done|by rewrite Hp| |done].
    intros c' cx1 E1 P1. destruct (same_conns_bwd _ _ _ _ H E1) as (cx2 & E2 & P2). apply (Hu c' cx2); [done|congruence].
  - intros p Hp. destruct (iv_fresh _ Hi p Hp) as (H1 & H2). split; [|done]. sv_cbn.
    destruct (wi_conns w !! p) as [x'|] eqn:E; [|done].
    destruct (same_conns_bwd _ _ _ _ H E) as (x & Ex & _). congruence.
  - intros c x rc E P. destruct (same_conns_bwd _ _ _ _ H E) as (x' & E' & P'). apply (iv_proto _ Hi c x'); congruence.
Qed.

Lemma with_wire_idle sv w hole : idle sv hole → idle (with_wire sv w) hole.
Proof. done. Qed.

(** The channels of an endpoint, if it has any. *)
Definition channels_of (ep : rtp_endpoint) : option (nat * Z * Z) :=
  match ep_trans ep with RTP_TRANS_INTER c a b => Some (c, a, b) | _ => None end.

Lemma channels_of_Some ep c a b : channels_of ep = Some (c, a, b) ↔ ep_trans ep = RTP_TRANS_INTER c a b.
Proof. unfold channels_of. destruct (ep_trans ep); split; by intros [=]; subst. Qed.

(** An endpoint keeps its channels. *)
Lemma set_ep_inv sv e y ep :
  server_inv sv → sv_eps sv !! e = Some y → channels_of ep = channels_of (e_ep y) →
  server_inv (set_ep sv e (MkEndpoint (e_session y) ep)).
Proof.
  intros Hi E Et.
  assert (∀ e' y', sv_eps sv !! e' = Some y' → ∃ y'', sv_eps (set_ep sv e (MkEndpoint (e_session y) ep)) !! e' = Some y'' ∧
    e_session y'' = e_session y' ∧ channels_of (e_ep y'') = channels_of (e_ep y')) as Hfwd.
  { intros e' y' E'. sv_cbn. destruct (decide (e' = e)) as [->|Hne].
    - rewrite lookup_insert_eq. eexists. split; [done|]. assert (y' = y) as -> by congruence. done.
    - rewrite lookup_insert_ne by done. by exists y'. }
  split; try (by apply Hi).
  - intros s x Es. destruct (iv_session _ Hi _ _ Es) as (H1 & H2 & H3 & H4). split_and!; try done.
    intros t e' He. destruct (H4 _ _ He) as (y' & Ey' & Esy). destruct (Hfwd _ _ Ey') as (y'' & E'' & S'' & _).
    exists y''. by rewrite S''.
  - intros e' y' E'. sv_cbn. apply lookup_insert_Some in E' as [[<- <-]|[Hne E']].
    + destruct (iv_ep _ Hi _ _ E) as [Hp Htr]. split; [done|]. cbn [e_ep].
      destruct (ep_trans ep) as [| |c a b] eqn:Eep; try done. apply channels_of_Some in Eep. rewrite Eep in Et.
      symmetry in Et. apply channels_of_Some in Et. by rewrite Et in Htr.
    + destruct (iv_ep _ Hi _ _ E') as [Hp Htr]. by split.
  - intros rc tbl Er. destruct (iv_rconn _ Hi _ _ Er) as (H1 & c & cx & Ec & Ep & Hu & Hc). split; [done|].
    exists c, cx. split_and!; try done. intros i e' b Hie. destruct (Hc _ _ _ Hie) as (y' & a & a' & Ey' & Et' & Hia).
    destruct (Hfwd _ _ Ey') as (y'' & E'' & _ & T''). exists y'', a, a'. split_and!; [done| |done].
    apply channels_of_Some. rewrite T''. by apply channels_of_Some.
  - intros p Hp. destruct (iv_fresh _ Hi p Hp) as (H1 & H2 & H3 & H4 & H5 & H6 & H7). unfold unused. sv_cbn.
    split_and!; try done. rewrite lookup_insert_ne; [done|]. intros <-. congruence.
Qed.

Lemma set_ep_idle sv e y hole : idle sv hole → idle (set_ep sv e y) hole.
Proof. done. Qed.

(** ** A track is set up *)

Section set_up.
Context (sv : server) (s : nat) (x : session) (ls : live_session) (src : live_source) (t : nat) (ep : rtp_endpoint).
Hypothesis Hi : server_inv sv.
Hypothesis Hs : sv_sessions sv !! s = Some x.
Hypothesis Hl : sv_lives sv !! ss_private x = Some ls.
Hypothesis Hk : sv_sources sv !! ls_source ls = Some src.
Hypothesis Ht : ss_ep x !! t = Some None.
Hypothesis Hm : has_media src t.
Hypothesis Hep : ep_trans ep = RTP_TRANS_NONE.

Definition with_track (x : session) (t e : nat) : session :=
  MkSession (<[t := Some e]> (ss_ep x)) (ss_private x) (ss_control x) (ss_addr x) (ss_open_time x).

Definition set_up : server :=
  let e := sv_fresh sv in
  set_ep (set_session (malloc sv).2 s (with_track x t e)) e (MkEndpoint s ep).

Lemma with_track_lookup t' e :
  ss_ep (with_track x t (sv_fresh sv)) !! t' = Some (Some e) →
  (t' = t ∧ e = sv_fresh sv) ∨ ss_ep x !! t' = Some (Some e).
Proof.
  cbn. intros H. apply list_lookup_insert_Some in H as [(-> & [= ->] & _)|[_ H]]; [by left|by right].
Qed.

Lemma set_up_sessions s' x' :
  sv_sessions sv !! s' = Some x' →
  ∃ x'', sv_sessions set_up !! s' = Some x'' ∧ ss_private x'' = ss_private x' ∧ ss_control x'' = ss_control x' ∧
    ∀ t' e', ss_ep x' !! t' = Some (Some e') → ss_ep x'' !! t' = Some (Some e').
Proof.
  intros E. unfold set_up. sv_cbn. destruct (decide (s' = s)) as [->|Hne].
  - rewrite lookup_insert_eq. eexists. assert (x' = x) as -> by congruence. split_and!; [done|done|done|].
    intros t' e' He. cbn. rewrite list_lookup_insert_ne; [done|]. intros ->. congruence.
  - rewrite lookup_insert_ne by done. by exists x'.
Qed.

Lemma fresh_ep : sv_eps sv !! sv_fresh sv = None.
Proof. by destruct (iv_fresh _ Hi (sv_fresh sv)) as (_ & _ & _ & _ & _ & _ & H). Qed.

Lemma set_up_eps e y : sv_eps sv !! e = Some y → sv_eps set_up !! e = Some y.
Proof.
  intros E. unfold set_up. sv_cbn. rewrite lookup_insert_ne; [done|]. intros <-. by rewrite fresh_ep in E.
Qed.

Lemma set_up_ep_inv e y : sv_eps set_up !! e = Some y → wf_endpoint set_up e y.
Proof.
  intros E. unfold set_up in E. sv_cbn. apply lookup_insert_Some in E as [[<- <-]|[Hne E]].
  - split; [|by cbn; rewrite Hep]. exists (with_track x t (sv_fresh sv)), ls, src, t. unfold set_up. sv_cbn.
    rewrite lookup_insert_eq. split_and!; try done.
    + cbn. apply list_lookup_insert_eq. by eapply lookup_lt_Some.
    + intros t' [[-> _]|H']%with_track_lookup; [done|].
      destruct (iv_session _ Hi _ _ Hs) as (_ & _ & _ & H4). destruct (H4 _ _ H') as (y & Ey & _).
      by rewrite fresh_ep in Ey.
  - destruct (iv_ep _ Hi _ _ E) as [(x1 & ls1 & src1 & t1 & H1 & H2 & H3 & H4 & H5 & H6) Htr]. split; [|done].
    destruct (set_up_sessions _ _ H1) as (x2 & E2 & P2 & _ & F2). exists x2, ls1, src1, t1.
    split_and!; try done; [by apply F2| |by rewrite P2].
    intros t' H'. unfold set_up in E2. sv_cbn. apply lookup_insert_Some in E2 as [[Hse <-]|[Hns E2]].
    + assert (x1 = x) as -> by congruence. apply with_track_lookup in H' as [[_ ->]|H']; [|by apply H3]. done.
    + assert (x2 = x1) as -> by congruence. by apply H3.
Qed.

Lemma set_up_inv : server_inv set_up.
Proof.
  split; try apply set_up_ep_inv; try (by apply Hi).
  - intros s' x' E. unfold set_up in E. sv_cbn. apply lookup_insert_Some in E as [[<- <-]|[Hne E]].
    + destruct (iv_session _ Hi _ _ Hs) as (H1 & H2 & H3 & H4). split; [cbn; by rewrite length_insert|].
      split; [done|]. split; [done|]. intros t' e [[-> ->]|H']%with_track_lookup.
      * eexists. unfold set_up. sv_cbn. split; [apply lookup_insert_eq|done].
      * destruct (H4 _ _ H') as (y & Ey & Esy). exists y. split; [by apply set_up_eps|done].
    + destruct (iv_session _ Hi _ _ E) as (H1 & H2 & H3 & H4). split_and!; try done.
      intros t' e He. destruct (H4 _ _ He) as (y & Ey & Esy). exists y. split; [by apply set_up_eps|done].
  - intros l ls' E. destruct (iv_live _ Hi _ _ E) as [(x1 & E1 & P1) H2]. split; [|done].
    destruct (set_up_sessions _ _ E1) as (x2 & E2 & P2 & _). exists x2. by rewrite P2.
  - intros r y E. destruct (iv_rtsp _ Hi _ _ E) as (x1 & E1 & C1).
    destruct (set_up_sessions _ _ E1) as (x2 & E2 & _ & C2 & _). exists x2. by rewrite C2.
  - intros rc tbl E. destruct (iv_rconn _ Hi _ _ E) as (H1 & c & cx & Ec & Ep & Hu & Hc). split; [done|].
    exists c, cx. split_and!; try done. intros i e b Hie. destruct (Hc _ _ _ Hie) as (y & a & a' & Ey & Et & Hia).
    exists y, a, a'. split; [by apply set_up_eps|done].
  - intros p Hp. cbn [sv_fresh set_up] in Hp. unfold set_up in Hp. sv_cbn.
    destruct (iv_fresh _ Hi p ltac:(lia)) as (H1 & H2 & H3 & H4 & H5 & H6 & H7).
    unfold unused, set_up. sv_cbn. split_and!; try done; rewrite lookup_insert_ne; try done; try lia.
    intros <-. congruence.
  - intros c cx rc Ec Ep. pose proof (iv_proto _ Hi c cx rc Ec Ep). unfold set_up. sv_cbn. lia.
Qed.

Lemma set_up_idle : idle sv nowhere → idle set_up nowhere.
Proof.
  intros Hidle k src' t' tr d Ek Et Hm' Hr Ed Hh Hw.
  destruct (Hidle k src' t' tr d) as (p & Hp & ls1 & x1 & e & P1 & P2 & P3 & P4); try done.
  exists p. split; [done|]. destruct (set_up_sessions _ _ P3) as (x2 & E2 & _ & _ & F2).
  exists ls1, x2, e. split_and!; try done. by apply F2.
Qed.
End set_up.

Lemma live_setup_ok sv s x t v :
  server_inv sv → idle sv nowhere → sv_sessions sv !! s = Some x → ss_ep x !! t = Some None →
  ∃ ok sv', live_setup sv s t v = Ok (ok, sv') ∧ server_inv sv' ∧ idle sv' nowhere ∧
    if (ok : bool) then
      ∃ ep k src, ep_trans ep = RTP_TRANS_NONE ∧ wf_ep_qos ep ∧ sv_sources sv !! k = Some src ∧
        ep_max_data_size ep = lv_max_trans_size src ∧ sv' = set_up sv s x t ep
    else sv' = sv.
Proof.
  intros Hi Hidle Hs Ht. unfold live_setup, live_of. rewrite (deref_Ok _ _ _ Hs), bind_Ok.
  destruct (iv_session _ Hi _ _ Hs) as (Hlen & (ls & El & Els) & _). rewrite (deref_Ok _ _ _ El), bind_Ok.
  destruct (iv_live _ Hi _ _ El) as [_ (src & Ek & _)]. rewrite (deref_Ok _ _ _ Ek), !bind_Ok.
  destruct (iv_source _ Hi _ _ Ek) as (_ & _ & Hlt & Htr & _).
  assert (is_Some (lv_track src !! t)) as [tr Etr] by (apply lookup_lt_is_Some_2; apply lookup_lt_Some in Ht; lia).
  rewrite (rd_Ok _ _ _ Etr), bind_Ok. destruct (tr_rtp tr) as [m|] eqn:Em; [|by do 2 eexists].
  assert (is_Some (tr_rtp tr)) as Hsome by (by rewrite Em).
  destruct (Htr t tr Etr Hsome) as (d & dx & Ed & Edx & _).
  destruct (si_dests _ _ (iv_streams _ Hi) _ _ Edx) as (_ & _ & (sx & Esx & _) & _).
  cbn [malloc]. rewrite wr_Ok by (by eapply lookup_lt_Some). rewrite bind_Ok. unfold track_format. sv_cbn. rewrite Ed.
  rewrite (deref_Ok _ _ _ Edx), bind_Ok, (deref_Ok _ _ _ Esx), !bind_Ok.
  set (ep := live_endpoint _ _ _ _).
  assert (ep_trans ep = RTP_TRANS_NONE ∧ wf_ep_qos ep) as [Hep Hq].
  { split; [done|]. apply SimpleQOSAnalyserNew_wf. }
  assert (has_media src t) as Hmed by (by exists tr).
  exists true, (set_up sv s x t ep). split; [done|]. split; [by eapply set_up_inv|].
  split; [by eapply set_up_idle|]. by exists ep, (ls_source ls), src.
Qed.

(** ** A session plays *)

Definition played (sv : server) (x : session) (ls : live_session) (src : live_source) : server :=
  set_source_at (with_lives sv (<[ss_private x := MkLive (ls_sess ls) (ls_source ls) true]> (sv_lives sv)))
    (ls_source ls)
    (MkSource (lv_sess_list src) (lv_track src) (lv_max_trans_size src) (lv_max_conn src) (u32 (lv_cur_conn src + 1))).

Section played.
Context (sv : server) (s : nat) (x : session) (ls : live_session) (src : live_source).
Hypothesis Hi : server_inv sv.
Hypothesis Hs : sv_sessions sv !! s = Some x.
Hypothesis Hl : sv_lives sv !! ss_private x = Some ls.
Hypothesis Hk : sv_sources sv !! ls_source ls = Some src.
Abbreviation sv' := (played sv x ls src).

Lemma played_lives l l1 :
  sv_lives sv !! l = Some l1 →
  ∃ l2, sv_lives sv' !! l = Some l2 ∧ ls_sess l2 = ls_sess l1 ∧ ls_source l2 = ls_source l1 ∧
    (ls_playing l1 = true → ls_playing l2 = true).
Proof.
  intros E. unfold played. sv_cbn. destruct (decide (l = ss_private x)) as [->|Hne].
  - rewrite lookup_insert_eq. eexists. assert (l1 = ls) as -> by congruence. by split_and!.
  - rewrite lookup_insert_ne by done. by exists l1.
Qed.

Lemma played_sources k s1 :
  sv_sources sv !! k = Some s1 →
  ∃ s2, sv_sources sv' !! k = Some s2 ∧ lv_sess_list s2 = lv_sess_list s1 ∧ lv_track s2 = lv_track s1.
Proof.
  intros E. unfold played. sv_cbn. destruct (decide (k = ls_source ls)) as [->|Hne].
  - rewrite lookup_insert_eq. eexists. assert (s1 = src) as -> by congruence. by split_and!.
  - rewrite lookup_insert_ne by done. by exists s1.
Qed.

Lemma played_sources_bwd k s2 :
  sv_sources sv' !! k = Some s2 →
  ∃ s1, sv_sources sv !! k = Some s1 ∧ lv_sess_list s2 = lv_sess_list s1 ∧ lv_track s2 = lv_track s1.
Proof.
  unfold played. sv_cbn. intros E. apply lookup_insert_Some in E as [[<- <-]|[Hne E]]; [by exists src|by exists s2].
Qed.

Lemma played_plays t p : plays sv t p → plays sv' t p.
Proof.
  intros (l1 & x1 & e1 & P1 & P2 & P3 & P4). destruct (played_lives _ _ P1) as (l2 & E2 & S2 & _ & Pl).
  exists l2, x1, e1. rewrite S2. split_and!; try done. by apply Pl.
Qed.

Lemma played_inv : server_inv sv'.
Proof.
  split; try (by apply Hi).
  - intros s' x' E. destruct (iv_session _ Hi _ _ E) as (H1 & (l1 & E1 & S1) & H3). split; [done|]. split; [|done].
    destruct (played_lives _ _ E1) as (l2 & E2 & S2 & _). exists l2. by rewrite S2.
  - intros l l2 E.
    assert (∃ l1, sv_lives sv !! l = Some l1 ∧ ls_sess l2 = ls_sess l1 ∧ ls_source l2 = ls_source l1) as (l1 & E1 & S1 & K1).
    { unfold played in E. sv_cbn. apply lookup_insert_Some in E as [[<- <-]|[Hne E]]; [by exists ls|by exists l2]. }
    destruct (iv_live _ Hi _ _ E1) as [H1 (s1 & Es1 & Hin)]. split; [by rewrite S1|].
    destruct (played_sources _ _ Es1) as (s2 & Es2 & L2 & _). exists s2. by rewrite K1, L2.
  - intros k s2 E. destruct (played_sources_bwd _ _ E) as (s1 & E1 & L1 & T1).
    destruct (iv_source _ Hi _ _ E1) as (H1 & H2 & H3 & H4 & H5). unfold wf_source, has_media. rewrite L1, T1.
    split_and!; try done. intros l Hin. destruct (H2 l Hin) as (l1 & El1 & K1).
    destruct (played_lives _ _ El1) as (l2 & E2 & _ & K2 & _). exists l2. by rewrite K2.
  - intros e y E. destruct (iv_ep _ Hi _ _ E) as [(x1 & l1 & s1 & t1 & H1 & H2 & H3 & H4 & H5 & H6) Htr]. split; [|done].
    destruct (played_lives _ _ H4) as (l2 & E2 & _ & K2 & _). rewrite <- K2 in H5.
    destruct (played_sources _ _ H5) as (s2 & Es2 & _ & T2). exists x1, l2, s2, t1. unfold has_media. rewrite T2.
    by split_and!.
  - intros p Hp. destruct (iv_fresh _ Hi p Hp) as (H1 & H2 & H3 & H4 & H5 & H6 & H7).
    unfold unused, played. sv_cbn. split_and!; try done; rewrite lookup_insert_ne; try done; intros <-; congruence.
Qed.

Lemma played_idle : idle sv nowhere → idle sv' nowhere.
Proof.
  intros Hidle k s2 t tr d Ek Et Hm Hr Ed Hh Hw. destruct (played_sources_bwd _ _ Ek) as (s1 & E1 & L1 & T1).
  rewrite T1 in Et. destruct (Hidle k s1 t tr d) as (p & Hp & Hpl); try done.
  exists p. rewrite L1. split; [done|]. by apply played_plays.
Qed.
End played.

(** The loop of [live_play] from track [t]: the tracks the session has wait. *)
Lemma play_tracks_ok trs eps sv s x ls k src t :
  server_inv sv → idle sv nowhere → sv_sessions sv !! s = Some x → sv_lives sv !! ss_private x = Some ls →
  ls_playing ls = true → ls_source ls = k → sv_sources sv !! k = Some src →
  trs = drop t (lv_track src) → eps = drop t (ss_ep x) →
  ∃ w, play_tracks sv trs eps = Ok (with_streams sv w) ∧ server_inv (with_streams sv w) ∧
    idle (with_streams sv w) nowhere ∧ flags_only (sv_streams sv) w ∧
    (∀ t' e tr d, (t <= t')%nat → ss_ep x !! t' = Some (Some e) → lv_track src !! t' = Some tr →
       tr_stream tr = Some d → is_waiting w d = true) ∧
    (∀ d' x' n, st_dests (sv_streams sv) !! d' = Some x' → d_process x' = Client n →
       is_waiting (sv_streams sv) d' = true → is_waiting w d' = true).
Proof.
  revert eps sv t. induction trs as [|tr trs IH]; intros eps sv t Hi Hidle Hs El Hpl Eks Ek Etr Eep.
  { exists (sv_streams sv). destruct sv. cbn [play_tracks]. split_and!; try done.
    intros t' e tr d Hle _ Et. apply lookup_lt_Some in Et. apply (f_equal length) in Etr.
    rewrite length_drop in Etr. cbn in Etr. lia. }
  assert (lv_track src !! t = Some tr) as Ett by (rewrite <- (Nat.add_0_r t), <- lookup_drop, <- Etr; done).
  assert (trs = drop (S t) (lv_track src)) as Etr' by (rewrite (drop_S _ tr) in Etr by done; congruence).
  destruct (iv_session _ Hi _ _ Hs) as (Hlen & _ & _ & Hses). destruct (iv_source _ Hi _ _ Ek) as (_ & _ & Hlt & _ & Hpre).
  assert (is_Some (ss_ep x !! t)) as [o Eo] by (apply lookup_lt_is_Some_2; apply lookup_lt_Some in Ett; lia).
  rewrite (drop_S _ o) in Eep by done. subst eps. cbn [play_tracks].
  destruct (tr_rtp tr) as [m|] eqn:Em.
  2:{ exists (sv_streams sv). assert (sv = with_streams sv (sv_streams sv)) as <- by (by destruct sv).
      split_and!; try done. intros t' e tr' d Hle He _ _. exfalso. rewrite <- Eks in Ek.
      pose proof (session_ep_media _ _ _ _ _ _ _ Hi Hs El Ek He) as Hm.
      destruct (Hpre t' t Hle Hm) as (tr1 & Et1 & [m1 Hm1]). congruence. }
  assert (is_Some (tr_rtp tr)) as Hsome by (by rewrite Em).
  destruct o as [e|].
  - destruct (track_set_waiting_ok sv k src t tr 1 Hi Ek Ett Hsome) as (w1 & d & Ed & -> & Hi1 & Hf1 & Hw1 & Ho1).
    rewrite bind_Ok. destruct (IH (drop (S t) (ss_ep x)) (with_streams sv w1) (S t))
      as (w & E & H1 & H2 & H3 & H4 & H5); try done.
    { eapply idle_set_flag; [done|exact Ek|exact Ett|done|exact Ed|done| |].
      - by apply idle_weaken.
      - intros _ _. exists (ss_private x). split.
        + destruct (iv_live _ Hi _ _ El) as [_ (src' & Es' & Hin)]. rewrite Eks in Es'. congruence.
        + exists ls, x, e. destruct (iv_session _ Hi _ _ Hs) as (_ & (l2 & El2 & Es2) & _).
          assert (l2 = ls) as -> by congruence. by rewrite Es2. }
    exists w. split; [done|]. split_and!; try done; [by etrans| |].
    + intros t' e' tr' d' Hle He' Et' Ed'. destruct (decide (t' = t)) as [->|Hne].
      * assert (tr' = tr) as -> by congruence. assert (d' = d) as -> by congruence.
        destruct (iv_source _ Hi _ _ Ek) as (_ & _ & _ & Htr & _). destruct (Htr t tr Ett Hsome) as (d1 & x1 & E1 & Ex1 & Hp1).
        assert (d1 = d) as -> by congruence. destruct Hf1 as [_ Hf1]. destruct (Hf1 _ _ Ex1) as [v1 Ev1].
        eapply H5; [exact Ev1|exact Hp1|exact Hw1].
      * by apply (H4 t' e' tr' d'); [lia| | |].
    + intros d' x' n Ex' Hc Hw. destruct Hf1 as [_ Hf1]. destruct (Hf1 _ _ Ex') as [v1 Ev1].
      eapply H5; [exact Ev1|exact Hc|]. sv_cbn. destruct (decide (d' = d)) as [->|Hne]; [done|].
      by rewrite (Ho1 _ _ _ Hne Ex' Hc).
  - rewrite bind_Ok. destruct (IH (drop (S t) (ss_ep x)) sv (S t)) as (w & E & H1 & H2 & H3 & H4 & H5); try done.
    exists w. split_and!; try done. intros t' e' tr' d' Hle He' Et' Ed'.
    destruct (decide (t' = t)) as [->|Hne]; [congruence|]. by apply (H4 t' e' tr' d'); [lia| | |].
Qed.

(** [live_play] of a session that exists returns, the session plays, and its tracks wait. *)
Lemma live_play_ok sv s x ls src :
  server_inv sv → idle sv nowhere → sv_sessions sv !! s = Some x → sv_lives sv !! ss_private x = Some ls →
  sv_sources sv !! ls_source ls = Some src →
  ∃ w, live_play sv s = Ok (with_streams (played sv x ls src) w) ∧
    server_inv (with_streams (played sv x ls src) w) ∧ idle (with_streams (played sv x ls src) w) nowhere ∧
    flags_only (sv_streams sv) w ∧
    ∀ t e tr d, ss_ep x !! t = Some (Some e) → lv_track src !! t = Some tr → tr_stream tr = Some d →
      is_waiting w d = true.
Proof.
  intros Hi Hidle Hs El Ek. unfold live_play, live_of.
  rewrite (deref_Ok _ _ _ Hs), bind_Ok, (deref_Ok _ _ _ El), bind_Ok, (deref_Ok _ _ _ Ek), !bind_Ok.
  fold (played sv x ls src).
  destruct (play_tracks_ok (lv_track src) (ss_ep x) (played sv x ls src) s x
    (MkLive (ls_sess ls) (ls_source ls) true) (ls_source ls)
    (MkSource (lv_sess_list src) (lv_track src) (lv_max_trans_size src) (lv_max_conn src) (u32 (lv_cur_conn src + 1))) 0)
    as (w & E & H1 & H2 & H3 & H4 & _); try done.
  - by apply played_inv.
  - by apply played_idle.
  - unfold played. sv_cbn. by rewrite lookup_insert_eq.
  - unfold played. sv_cbn. by rewrite lookup_insert_eq.
  - exists w. split; [done|]. split; [done|]. split; [done|]. split; [done|].
    intros t e tr d He Et Ed. by apply (H4 t e tr d); [lia| | |].
Qed.

(** ** A session gets a name *)

Definition named (sv : server) (s : nat) (x : session) (id : list Z) : server :=
  let r := sv_fresh sv in
  set_session (with_rtsps (malloc sv).2 (<[r := MkRtspSession id s]> (sv_rtsps sv)) (r :: sv_rtsp_list sv)) s
    (MkSession (ss_ep x) (ss_private x) (Some r) (ss_addr x) (ss_open_time x)).

(** A session keeps its endpoints and its live session. *)
Lemma set_session_inv sv s x c addr time rtsps rtsp_list fresh :
  let sv' := MkServer (sv_wire sv) (sv_rconns sv) (<[s := MkSession (ss_ep x) (ss_private x) c addr time]> (sv_sessions sv))
               (sv_sess_list sv) rtsps rtsp_list (sv_lives sv) (sv_sources sv) (sv_eps sv) (sv_streams sv) fresh in
  server_inv sv → sv_sessions sv !! s = Some x → (sv_fresh sv <= fresh)%nat →
  (∀ p, (fresh <= p)%nat → rtsps !! p = None) →
  (∀ r, r ∈ rtsp_list ↔ is_Some (rtsps !! r)) →
  (∀ r, c = Some r → ∃ y, rtsps !! r = Some y ∧ rs_sess y = s) →
  (∀ r y, rtsps !! r = Some y → (rs_sess y = s ∧ c = Some r) ∨ (rs_sess y ≠ s ∧ sv_rtsps sv !! r = Some y)) →
  (∀ r y, sv_rtsps sv !! r = Some y → rs_sess y ≠ s → rtsps !! r = Some y) →
  server_inv sv' ∧ (idle sv nowhere → idle sv' nowhere).
Proof.
  intros sv' Hi Hs Hf Hfr Hl Hc H1 H2.
  assert (∀ s1 x1, sv_sessions sv !! s1 = Some x1 → ∃ x2, sv_sessions sv' !! s1 = Some x2 ∧
    ss_ep x2 = ss_ep x1 ∧ ss_private x2 = ss_private x1) as Hfwd.
  { intros s1 x1 E1. unfold sv'. sv_cbn. destruct (decide (s1 = s)) as [->|Hne].
    - rewrite lookup_insert_eq. eexists. assert (x1 = x) as -> by congruence. by split_and!.
    - rewrite lookup_insert_ne by done. by exists x1. }
  split.
  2:{ intros Hidle k src t tr d Ek Et Hm Hr Ed Hh Hw.
      destruct (Hidle k src t tr d) as (p & Hp & ls1 & x1 & e1 & P1 & P2 & P3 & P4); try done.
      exists p. split; [done|]. destruct (Hfwd _ _ P3) as (x2 & E2 & F2 & _). exists ls1, x2, e1.
      rewrite F2. by split_and!. }
  split; try (by apply Hi); try done.
  - intros s1 x1 E. unfold sv' in E. sv_cbn. apply lookup_insert_Some in E as [[<- <-]|[Hne E]].
    + destruct (iv_session _ Hi _ _ Hs) as (A1 & A2 & A3 & A4). by split_and!.
    + destruct (iv_session _ Hi _ _ E) as (A1 & A2 & A3 & A4). split_and!; try done.
      intros r Hr. destruct (A3 r Hr) as (y & Ey & Es). exists y. split; [|done]. apply H2; [done|congruence].
  - intros l ls E. destruct (iv_live _ Hi _ _ E) as [(x1 & E1 & P1) A2]. split; [|done].
    destruct (Hfwd _ _ E1) as (x2 & E2 & _ & P2). exists x2. by rewrite P2.
  - intros r y E. destruct (H1 r y E) as [[Hr Hcr]|[Hr E']]; unfold wf_rtsp, sv'; sv_cbn.
    + rewrite Hr, lookup_insert_eq. by eexists.
    + rewrite lookup_insert_ne by done. by apply (iv_rtsp _ Hi).
  - intros e y E. destruct (iv_ep _ Hi _ _ E) as [(x1 & ls1 & src1 & t1 & A1 & A2 & A3 & A4 & A5 & A6) Htr]. split; [|done].
    destruct (Hfwd _ _ A1) as (x2 & E2 & F2 & P2). exists x2, ls1, src1, t1. rewrite F2, P2. by split_and!.
  - intros p Hp. destruct (iv_fresh _ Hi p) as (A1 & A2 & A3 & A4 & A5 & A6 & A7); [cbn in Hp; lia|].
    unfold unused, sv'. sv_cbn. split_and!; try done; [|by apply Hfr]. rewrite lookup_insert_ne; [done|].
    intros <-. congruence.
  - intros c1 cx rc Ec Ep. pose proof (iv_proto _ Hi c1 cx rc Ec Ep). cbn. lia.
Qed.

Lemma named_inv sv s x id :
  server_inv sv → idle sv nowhere → sv_sessions sv !! s = Some x → ss_control x = None →
  server_inv (named sv s x id) ∧ idle (named sv s x id) nowhere.
Proof.
  intros Hi Hidle Hs Hc.
  assert (sv_rtsps sv !! sv_fresh sv = None) as Hfr by (by destruct (iv_fresh _ Hi (sv_fresh sv)) as (_ & _ & _ & H & _)).
  pose proof (set_session_inv sv s x (Some (sv_fresh sv)) (ss_addr x) (ss_open_time x)
    (<[sv_fresh sv := MkRtspSession id s]> (sv_rtsps sv)) (sv_fresh sv :: sv_rtsp_list sv) (S (sv_fresh sv))) as H.
  destruct H as [H1 H2]; try done.
  - lia.
  - intros p Hp. rewrite lookup_insert_ne by lia. destruct (iv_fresh _ Hi p) as (_ & _ & _ & H & _); [lia|done].
  - intros r. rewrite elem_of_cons, (iv_rtsp_list _ Hi), lookup_insert_is_Some.
    split; [intros [->|H]|intros [<-|[_ H]]]; [by left| |by left|by right].
    destruct (decide (sv_fresh sv = r)); [by left|by right].
  - intros r [= <-]. rewrite lookup_insert_eq. by eexists.
  - intros r y E. apply lookup_insert_Some in E as [[<- <-]|[Hne E]]; [by left|right]. split; [|done].
    intros Hsy. destruct (iv_rtsp _ Hi _ _ E) as (x1 & E1 & C1). rewrite Hsy in E1. congruence.
  - intros r y E Hne. rewrite lookup_insert_ne; [done|]. intros <-. congruence.
  - split; [done|]. by apply H2.
Qed.

Lemma new_rtsp_session_ok sv s x r :
  sv_sessions sv !! s = Some x →
  new_rtsp_session sv s r = Ok (sv_fresh sv, named sv s x (random_id r 30).1).
Proof. intros E. unfold new_rtsp_session. cbn [malloc]. sv_cbn. by rewrite (deref_Ok _ _ _ E). Qed.

(** ** A connection gets channels *)

Definition with_proto_state (cx : conn) (p : option nat) : conn :=
  MkConn (cn_fd cx) (cn_second_fd cx) (cn_addr cx) (cn_second_event cx) (cn_proto cx) (cn_cookie cx)
    (cn_base64_count cx) (cn_req_buf cx) (cn_req_len cx) (cn_ring cx) (cn_drop_after cx) p.

(** [proto_state] points to a new [rtsp_conn]; [junk] is what [malloc] leaves in [rtcp]. *)
Definition with_channels (sv : server) (c : nat) (cx : conn) (junk : bool) : server :=
  let rc := sv_fresh sv in
  set_conn_at (with_rconns (malloc sv).2
    (<[rc := replicate MAX_INTERLEAVE_CHANNELS (MkIchan None junk)]> (sv_rconns sv))) c
    (with_proto_state cx (Some rc)).

Lemma with_channels_inv sv c cx junk :
  server_inv sv → idle sv nowhere → sv_conns sv !! c = Some cx → cn_proto_state cx = None →
  server_inv (with_channels sv c cx junk) ∧ idle (with_channels sv c cx junk) nowhere.
Proof.
  intros Hi Hidle Ec Ep. split; [|done]. set (sv' := with_channels sv c cx junk).
  assert (sv_rconns sv !! sv_fresh sv = None) as Hfr by (by destruct (iv_fresh _ Hi (sv_fresh sv)) as (_ & H & _)).
  assert (∀ c' cx' rc, sv_conns sv !! c' = Some cx' → cn_proto_state cx' = Some rc → sv_conns sv' !! c' = Some cx') as Hc1.
  { intros c' cx' rc E P. unfold sv', with_channels. sv_cbn. rewrite lookup_insert_ne; [done|]. intros <-. congruence. }
  assert (∀ rc t, sv_rconns sv !! rc = Some t → sv_rconns sv' !! rc = Some t) as Hr1.
  { intros rc t E. unfold sv', with_channels. sv_cbn. rewrite lookup_insert_ne; [done|]. intros <-. congruence. }
  split; try (by apply Hi).
  - intros e y E. destruct (iv_ep _ Hi _ _ E) as [Hp Htr]. split; [done|].
    destruct (ep_trans (e_ep y)) as [| |c' a b]; try done.
    destruct Htr as [(x1 & r1 & t1 & A1 & A2 & A3 & A4) (x2 & r2 & t2 & B1 & B2 & B3 & B4)].
    split; [exists x1, r1, t1|exists x2, r2, t2]; (split_and!; [by eapply Hc1|done|by apply Hr1|done]).
  - intros rc t E. unfold sv', with_channels in E. sv_cbn. apply lookup_insert_Some in E as [[<- <-]|[Hne E]].
    + split; [done|]. exists c, (with_proto_state cx (Some (sv_fresh sv))). unfold sv', with_channels. sv_cbn.
      rewrite lookup_insert_eq. split_and!; try done.
      * intros c' cx' E P. apply lookup_insert_Some in E as [[<- _]|[_ E]]; [done|].
        pose proof (iv_proto _ Hi _ _ _ E P). lia.
      * intros i e b Hie. apply lookup_replicate_1 in Hie as [? _]. done.
    + destruct (iv_rconn _ Hi _ _ E) as (H1 & c1 & cx1 & Ec1 & Ep1 & Hu & Hc). split; [done|].
      exists c1, cx1. split_and!; [by eapply Hc1|done| |done]. intros c' cx' E' P'. unfold sv', with_channels in E'. sv_cbn.
      apply lookup_insert_Some in E' as [[<- <-]|[_ E']]; [|by eapply Hu]. cbn in P'. congruence.
  - intros p Hp. unfold sv', with_channels in Hp. sv_cbn.
    destruct (iv_fresh _ Hi p ltac:(lia)) as (H1 & H2 & H3). unfold unused, sv', with_channels. sv_cbn.
    rewrite !lookup_insert_ne; try done; [lia|]. intros <-. congruence.
  - intros c' cx' rc E P. unfold sv', with_channels in *. sv_cbn. apply lookup_insert_Some in E as [[<- <-]|[_ E]].
    + cbn in P. injection P as <-. lia.
    + pose proof (iv_proto _ Hi _ _ _ E P). lia.
Qed.

Section claimed.
Context (sv : server) (c : nat) (cx : conn) (rc : nat) (tbl : list ichan) (a b : nat) (e : nat) (y : endpoint).
Hypothesis Hi : server_inv sv.
Hypothesis Ec : sv_conns sv !! c = Some cx.
Hypothesis Ep : cn_proto_state cx = Some rc.
Hypothesis Er : sv_rconns sv !! rc = Some tbl.
Hypothesis Ee : sv_eps sv !! e = Some y.
Hypothesis Ht : ep_trans (e_ep y) = RTP_TRANS_NONE.
Hypothesis Ha : ic_ep <$> tbl !! a = Some None.
Hypothesis Hb : ic_ep <$> tbl !! b = Some None.
Hypothesis Hab : a ≠ b.

(** Channels [a] and [b] of the connection belong to endpoint [e]. *)
Definition claimed : server :=
  set_ep (with_rconns sv
            (<[rc := <[b := MkIchan (Some e) true]> (<[a := MkIchan (Some e) false]> tbl)]> (sv_rconns sv))) e
    (MkEndpoint (e_session y) (connect_interleaved_endpoint (e_ep y) c (Z.of_nat a) (Z.of_nat b))).

Lemma claimed_table i :
  <[b := MkIchan (Some e) true]> (<[a := MkIchan (Some e) false]> tbl) !! i =
  if decide (i = b) then Some (MkIchan (Some e) true)
  else if decide (i = a) then Some (MkIchan (Some e) false) else tbl !! i.
Proof.
  assert (a < length tbl)%nat as La by (destruct (tbl !! a) eqn:E; [by eapply lookup_lt_Some|done]).
  assert (b < length tbl)%nat as Lb by (destruct (tbl !! b) eqn:E; [by eapply lookup_lt_Some|done]).
  case_decide as H1; [subst i; apply list_lookup_insert_eq; by rewrite length_insert|].
  rewrite list_lookup_insert_ne by done.
  case_decide as H2; [subst i; by apply list_lookup_insert_eq|]. by rewrite list_lookup_insert_ne.
Qed.

Lemma claimed_at_chan c' i e' b' : at_chan sv c' i e' b' → at_chan claimed c' i e' b'.
Proof.
  intros (x1 & r1 & t1 & A1 & A2 & A3 & A4). unfold claimed.
  destruct (decide (r1 = rc)) as [->|Hne].
  - assert (t1 = tbl) as -> by congruence. eexists x1, rc, _. sv_cbn. rewrite lookup_insert_eq.
    split_and!; [done|done|done|]. rewrite claimed_table.
    rewrite !decide_False; [done| |]; intros ->; [rewrite A4 in Ha|rewrite A4 in Hb]; done.
  - exists x1, r1, t1. sv_cbn. by rewrite lookup_insert_ne.
Qed.

Lemma claimed_eps e' y' :
  sv_eps sv !! e' = Some y' → ∃ y'', sv_eps claimed !! e' = Some y'' ∧ e_session y'' = e_session y' ∧ (e' ≠ e → y'' = y').
Proof.
  intros E. unfold claimed. sv_cbn. destruct (decide (e' = e)) as [->|Hne].
  - rewrite lookup_insert_eq. eexists. assert (y' = y) as -> by congruence. done.
  - rewrite lookup_insert_ne by done. by exists y'.
Qed.

Lemma claimed_ep_inv e' y' : sv_eps claimed !! e' = Some y' → wf_endpoint claimed e' y'.
Proof.
  intros E. unfold claimed in E. sv_cbn. apply lookup_insert_Some in E as [[<- <-]|[Hne E]].
  - destruct (iv_ep _ Hi _ _ Ee) as [Hp _]. split; [exact Hp|]. cbn [e_ep ep_trans connect_interleaved_endpoint].
    rewrite !Nat2Z.id. split; (eexists cx, rc, _; unfold claimed; sv_cbn; rewrite lookup_insert_eq;
      (split_and!; [done|done|done|]); rewrite claimed_table).
    + by rewrite (decide_False (P := a = b)), decide_True.
    + by rewrite decide_True.
  - destruct (iv_ep _ Hi _ _ E) as [Hp Htr]. split; [exact Hp|].
    destruct (ep_trans (e_ep y')); try done. destruct Htr. split; by apply claimed_at_chan.
Qed.

Lemma claimed_rconn_inv r t : sv_rconns claimed !! r = Some t → wf_rconn claimed r t.
Proof.
  assert (∀ i e' b' c', (∃ y0 a0 b0, sv_eps sv !! e' = Some y0 ∧ ep_trans (e_ep y0) = RTP_TRANS_INTER c' a0 b0 ∧
      i = Z.to_nat (if (b' : bool) then b0 else a0)) →
    ∃ y0 a0 b0, sv_eps claimed !! e' = Some y0 ∧ ep_trans (e_ep y0) = RTP_TRANS_INTER c' a0 b0 ∧
      i = Z.to_nat (if b' then b0 else a0)) as Hkeep.
  { intros i e' b' c' (y0 & a0 & b0 & E0 & T0 & I0). destruct (claimed_eps _ _ E0) as (y1 & E1 & _ & H1).
    assert (y1 = y0) as -> by (apply H1; intros ->; congruence). by exists y0, a0, b0. }
  intros E. unfold claimed in E. sv_cbn. apply lookup_insert_Some in E as [[<- <-]|[Hne E]].
  - destruct (iv_rconn _ Hi _ _ Er) as (H1 & c1 & cx1 & Ec1 & Ep1 & Hu & Hc).
    assert (c1 = c) as -> by (symmetry; by eapply Hu). split; [by rewrite !length_insert|]. exists c, cx1.
    split_and!; try done. intros i e' b'. rewrite claimed_table.
    assert (sv_eps claimed !! e = Some (MkEndpoint (e_session y)
      (connect_interleaved_endpoint (e_ep y) c (Z.of_nat a) (Z.of_nat b)))) as Ecl
      by (unfold claimed; sv_cbn; apply lookup_insert_eq).
    case_decide as D1; [|case_decide as D2].
    + intros [= <- <-]. eexists _, _, _. split_and!; [exact Ecl|done|]. by rewrite Nat2Z.id.
    + intros [= <- <-]. eexists _, _, _. split_and!; [exact Ecl|done|]. by rewrite Nat2Z.id.
    + intros Hie. by apply Hkeep, Hc.
  - destruct (iv_rconn _ Hi _ _ E) as (H1 & c1 & cx1 & Ec1 & Ep1 & Hu & Hc). split; [done|]. exists c1, cx1.
    split_and!; try done. intros i e' b' Hie. by apply Hkeep, Hc.
Qed.

Lemma claimed_inv : idle sv nowhere → server_inv claimed ∧ idle claimed nowhere.
Proof.
  intros Hidle. split; [|done]. split; try apply claimed_ep_inv; try apply claimed_rconn_inv; try (by apply Hi).
  - intros s x E. destruct (iv_session _ Hi _ _ E) as (H1 & H2 & H3 & H4). split_and!; try done.
    intros t e' He. destruct (H4 _ _ He) as (y' & Ey' & Es'). destruct (claimed_eps _ _ Ey') as (y'' & E'' & S'' & _).
    exists y''. by rewrite S''.
  - intros p Hp. destruct (iv_fresh _ Hi p Hp) as (H1 & H2 & H3 & H4 & H5 & H6 & H7). unfold unused, claimed. sv_cbn.
    split_and!; try done; rewrite lookup_insert_ne; try done; intros <-; congruence.
Qed.
End claimed.
