(* ===== verification/Reply.v ===== *)
(** * The size of replies ([pmsg.c], [tcp.c])

    A reply is built string by string in a block of fixed size, so the text that
    [tcp_send_pmsg] makes of it has a bound: the lemmas show that it always fits the
    array it is formatted in. *)

From Stdlib Require Import String.
From S2P Require Import Prelude CString Pmsg HttpAuth SendBuf.

Local Open Scope Z_scope.

(** The strings a list of pointers denotes, with their terminators. *)
Definition used (m : pmsg) (ps : list nat) : nat := sum_list_with (λ p, S (length (str_of m p))) ps.

(** Every string of the message has its own place in the used part of the block. *)
Definition tight (m : pmsg) : Prop := wf_pmsg m ∧ (used m (ptrs m) <= p_msg_len m)%nat.

Lemma used_app m ps qs : used m (ps ++ qs) = (used m ps + used m qs)%nat.
Proof. unfold used. apply sum_list_with_app. Qed.

Lemma used_extends m m' ps : extends m m' → Forall (wf_ptr m) ps → used m' ps = used m ps.
Proof.
  intros HE. induction 1 as [|p ps Hp Hps IH]; [done|]. unfold used in *. cbn [sum_list_with].
  by rewrite IH, (proj1 (extends_str m m' p HE Hp)).
Qed.

(** A message with more text and the same pointers. *)
Lemma tight_extends m m' :
  tight m → extends m m' → (p_msg_len m' <= p_max_len m')%nat →
  p_fields m' = p_fields m → p_sl m' = p_sl m → p_proto_id m' = p_proto_id m → tight m'.
Proof.
  intros [(H1 & H2 & H3) Hu] HE Hl Ef Es Ep. assert (ptrs m' = ptrs m) as Eq by (unfold ptrs; by rewrite Ef, Es, Ep).
  split; [split_and!; [done|unfold header_count in *; by rewrite Ef|]|].
  - rewrite Eq. by apply extends_ptrs.
  - rewrite Eq, (used_extends m m') by done. destruct HE as (_ & HE & _). lia.
Qed.

(** A header field whose strings were just added. *)
Lemma tight_field m m1 f :
  tight m → (header_count m < MAX_FIELDS)%nat → extends m m1 → (p_msg_len m1 <= p_max_len m1)%nat →
  p_fields m1 = p_fields m → p_sl m1 = p_sl m → p_proto_id m1 = p_proto_id m →
  wf_ptr m1 (h_name f) → wf_ptr m1 (h_value f) →
  (p_msg_len m + length (str_of m1 (h_name f)) + length (str_of m1 (h_value f)) + 2 <= p_msg_len m1)%nat →
  tight (MkPmsg (p_msg m1) (p_msg_len m1) (p_fields m1 ++ [f]) (p_sl m1) (p_proto_id m1)).
Proof.
  intros [Hw Hu] Hc HE Hl Ef Es Ep Hn Hv Hlen. destruct (wf_with_field m m1 f) as [HW _]; try done. cbn zeta in HW.
  split; [done|]. set (m2 := MkPmsg _ _ _ _ _) in *.
  rewrite (ptrs_fields m m2 f) by (unfold m2; cbn; congruence). rewrite used_app.
  assert (extends m m2) as HE2 by done. rewrite (used_extends m m2) by (done || apply Hw).
  unfold used at 2. cbn [sum_list_with]. change (str_of m2) with (str_of m1). change (p_msg_len m2) with (p_msg_len m1). lia.
Qed.

Lemma add_header_tight m name value :
  tight m → no_nul name → no_nul value →
  let m' := (add_header m name value).2 in
  tight m' ∧ p_max_len m' = p_max_len m ∧ p_sl m' = p_sl m ∧ p_proto_id m' = p_proto_id m.
Proof.
  intros Hm Hn Hv. cbv zeta. unfold add_header. pose proof Hm as [(Hlen & Hcnt & _) _].
  destruct (Nat.eqb_spec (header_count m) MAX_FIELDS) as [E|E]; [done|].
  pose proof (add_pmsg_string_spec m name Hn Hlen) as HA.
  destruct (add_pmsg_string m name) as [[p|] m1]; cycle 1; [by destruct HA as [-> _]|].
  destruct HA as (Hr & HE & El & Hp & Hs & Ef & Es & Epr).
  assert (p_msg_len m1 <= p_max_len m1)%nat as Hl1 by (destruct HE as [-> _]; lia).
  pose proof (add_pmsg_string_spec m1 value Hv Hl1) as HB.
  destruct (add_pmsg_string m1 value) as [[q|] m2]; cycle 1.
  { destruct HB as [-> _]. cbn [snd]. split; [by apply (tight_extends m)|]. by destruct HE as [-> _]. }
  destruct HB as (Hr2 & HE2 & El2 & Hq & Hs2 & Ef2 & Es2 & Epr2). cbn [snd].
  destruct (extends_str m1 m2 p HE2 Hp) as [Hsp Hwp].
  split_and!; [|destruct HE as [<- _], HE2 as [<- _]; done|cbn; congruence|cbn; congruence].
  apply (tight_field m m2 (Hdrf p q)); try done; try congruence.
  - lia.
  - by transitivity m1.
  - destruct HE2 as [-> _]. lia.
  - cbn [h_name h_value]. rewrite Hsp, Hs, Hs2. lia.
Qed.

Lemma add_headers_tight hs n m :
  tight m → Forall (λ h, no_nul h.1 ∧ no_nul h.2) hs →
  let m' := (foldl (λ '(c, d) h, (S c, snd (add_header d h.1 h.2))) (n, m) hs).2 in
  tight m' ∧ p_max_len m' = p_max_len m ∧ p_sl m' = p_sl m ∧ p_proto_id m' = p_proto_id m.
Proof.
  intros Hm Hhs. revert n m Hm. induction Hhs as [|[nm v] hs [Hn Hv] Hhs IH]; intros n m Hm; [done|].
  cbn [foldl fst snd] in *. destruct (add_header_tight m nm v Hm Hn Hv) as (H1 & H2 & H3 & H4).
  destruct (IH (S n) (add_header m nm v).2 H1) as (J1 & J2 & J3 & J4). split_and!; [done|congruence..].
Qed.

Lemma str_of_no_nul m p : no_nul (str_of m p).
Proof.
  unfold str_of, string_at. destruct (take_string (drop p (p_msg m))) eqn:E; [by eapply take_string_no_nul|constructor].
Qed.

Lemma copy_headers_tight dest src name :
  tight dest →
  let m' := (copy_headers dest src name).2 in
  tight m' ∧ p_max_len m' = p_max_len dest ∧ p_sl m' = p_sl dest ∧ p_proto_id m' = p_proto_id dest.
Proof.
  intros Hd. cbv zeta. rewrite copy_headers_fold. apply add_headers_tight; [done|].
  apply Forall_forall. intros h Hh. apply list_elem_of_filter in Hh as [_ Hh].
  unfold headers_of in Hh. apply list_elem_of_In, in_map_iff in Hh as (f & <- & _). split; apply str_of_no_nul.
Qed.

(** [vsnprintf] writes behind the used part. *)
Lemma printf_extends m stored :
  (p_msg_len m <= p_max_len m)%nat → (length stored <= p_max_len m - p_msg_len m)%nat →
  extends m (MkPmsg (splice (p_msg_len m) stored (p_msg m)) (p_msg_len m) (p_fields m) (p_sl m) (p_proto_id m)).
Proof.
  intros Hl Hs. unfold extends, p_max_len in *. cbn [p_msg p_msg_len]. split_and!; [apply splice_length; lia|done|].
  apply splice_take. lia.
Qed.

Lemma add_header_printf_tight m name text :
  tight m → no_nul name → no_nul text →
  let m' := (add_header_printf m name text).2 in
  tight m' ∧ p_max_len m' = p_max_len m ∧ p_sl m' = p_sl m ∧ p_proto_id m' = p_proto_id m.
Proof.
  intros Hm Hn Ht. cbv zeta. unfold add_header_printf. pose proof Hm as [(Hlen & Hcnt & _) _].
  set (room := (p_max_len m - p_msg_len m)%nat).
  set (stored := if (room =? 0)%nat then [] else take (room - 1) text ++ [0]).
  assert (length stored <= room)%nat as Hst.
  { unfold stored. destruct (Nat.eqb_spec room 0); [cbn; lia|]. rewrite length_app, length_take. cbn. lia. }
  pose proof (printf_extends m stored Hlen Hst) as HE1. set (m1 := MkPmsg _ _ _ _ _) in *.
  assert (p_max_len m1 = p_max_len m) as Emax by apply HE1.
  assert (tight m1) as Hm1 by (apply (tight_extends m); try done; rewrite Emax; done).
  destruct (Nat.eqb_spec (header_count m1) MAX_FIELDS) as [E|E]; [done|].
  destruct (Nat.leb_spec (p_max_len m1) (p_msg_len m1 + length text)) as [|Hroom]; [done|].
  change (p_msg_len m1) with (p_msg_len m) in *.
  set (v := p_msg_len m). set (m2 := MkPmsg (p_msg m1) (v + length text + 1) (p_fields m1) (p_sl m1) (p_proto_id m1)).
  assert (stored = take (room - 1) text ++ [0]) as Est.
  { unfold stored. destruct (Nat.eqb_spec room 0); [unfold room in *; lia|done]. }
  assert (take (room - 1) text = text) as Etake by (apply take_ge; unfold room; lia). rewrite Etake in Est.
  assert (extends m1 m2) as HE2 by (unfold extends; split_and!; [done|unfold m2; cbn; unfold v; lia|done]).
  assert (p_msg_len m2 <= p_max_len m2)%nat as Hl2.
  { unfold m2, p_max_len in *. cbn [p_msg p_msg_len] in *. lia. }
  assert (wf_ptr m2 v ∧ str_of m2 v = text) as [Hwv Hsv].
  { assert (string_at (take (p_msg_len m2) (p_msg m2)) v = Some text) as Hat.
    { unfold m2. cbn [p_msg p_msg_len]. replace (v + length text + 1)%nat with (v + length stored)%nat by (rewrite Est; len_eq).
      unfold m1. cbn [p_msg]. rewrite splice_take_all by (unfold v, p_max_len in *; lia). rewrite Est.
      apply (string_at_app _ (take v (p_msg m)) text []); [done| |done]. rewrite length_take. unfold v, p_max_len in *. lia. }
    split; [by eexists|]. unfold str_of. by rewrite (string_at_weaken _ _ _ _ Hat). }
  pose proof (add_pmsg_string_spec m2 name Hn Hl2) as HB.
  destruct (add_pmsg_string m2 name) as [[q|] m3]; cycle 1.
  { destruct HB as [-> _]. cbn [snd]. split; [by apply (tight_extends m1)|]. by rewrite (proj1 HE2). }
  destruct HB as (Hr2 & HE3 & El3 & Hq & Hs3 & Ef3 & Es3 & Epr3). cbn [snd].
  destruct (extends_str m2 m3 v HE3 Hwv) as [Hsp Hwp].
  split_and!; [|rewrite <- Emax, <- (proj1 HE2); by destruct HE3 as [<- _]|cbn; by rewrite Es3|cbn; by rewrite Epr3].
  apply (tight_field m1 m3 (Hdrf q v)); try done.
  - destruct Hm1 as [(_ & Hc & _) _]. lia.
  - by transitivity m2.
  - destruct HE3 as [-> _]. lia.
  - cbn [h_name h_value]. rewrite Hsp, Hsv, Hs3, El3. unfold m2. cbn [p_msg_len]. change (p_msg_len m1) with v. lia.
Qed.

(** ** The text of a reply *)

Lemma used_fields m :
  sum_list_with (λ f, length (str_of m (h_name f)) + length (str_of m (h_value f)) + 2)%nat (p_fields m) =
  used m (concat (map (λ f, [h_name f; h_value f]) (p_fields m))).
Proof.
  induction (p_fields m) as [|f fs IH]; [done|]. cbn [map concat sum_list_with]. rewrite used_app, IH.
  unfold used at 2. cbn [sum_list_with]. lia.
Qed.

Lemma length_fields_text m :
  length (concat (map (λ f, str_of m (h_name f) ++ lit ": " ++ str_of m (h_value f) ++ crlf) (p_fields m))) =
  (used m (concat (map (λ f, [h_name f; h_value f]) (p_fields m))) + 2 * header_count m)%nat.
Proof.
  rewrite <- used_fields. unfold header_count. induction (p_fields m) as [|f fs IH]; [done|].
  cbn [map concat sum_list_with length]. rewrite length_app, IH, !length_app. cbn. lia.
Qed.

Lemma dec_length n : - 2 ^ 31 <= n < 2 ^ 31 → (length (dec n) <= 11)%nat.
Proof.
  intros Hn.
  assert (∀ fuel k m acc, 0 <= m < 10 ^ Z.of_nat k → (0 < k)%nat →
    (length (digits_aux fuel m acc) <= k + length acc)%nat) as Hd.
  { intros fuel. induction fuel as [|fuel IH]; intros k m acc Hm Hk; cbn [digits_aux]; [lia|].
    destruct (Z.eqb_spec (m / 10) 0); [cbn; lia|]. destruct k as [|[|k]]; [lia| |].
    - change (10 ^ Z.of_nat 1) with 10 in Hm. Z.div_mod_to_equations; lia.
    - etrans; [apply (IH (S k)); [|lia]|cbn; lia]. rewrite Nat2Z.inj_succ, Z.pow_succ_r in Hm by lia.
      split; [apply Z.div_pos; lia|apply Z.div_lt_upper_bound; lia]. }
  assert (∀ m, 0 <= m <= 2 ^ 31 → (length (udec m) <= 10)%nat) as Hu.
  { intros m Hm. unfold udec. etrans; [apply (Hd _ 10%nat)|cbn; lia]; [|lia].
    change (10 ^ Z.of_nat 10) with 10000000000. change (2 ^ 31) with 2147483648 in *. lia. }
  unfold dec. destruct (Z.ltb_spec n 0); [cbn [length]; specialize (Hu (- n) ltac:(lia)); lia|specialize (Hu n ltac:(lia)); lia].
Qed.

Lemma reply_text_length m code reason len :
  tight m → p_sl m = Some (PMSG_RESP code reason) →
  - 2 ^ 31 <= code < 2 ^ 31 → (∀ n, len = Some n → 0 <= n < 2 ^ 31) →
  (length (format_response m code reason len) <= p_max_len m + 132)%nat.
Proof.
  intros [(Hl & Hc & _) Hu] Hsl Hcode Hlen. unfold format_response. rewrite !length_app, length_fields_text.
  pose proof (dec_length code Hcode) as Hd. unfold MAX_FIELDS in Hc.
  assert (length (str_or_null m (p_proto_id m)) <= used m (option_list (p_proto_id m)) + 6)%nat as H1.
  { unfold used. destruct (p_proto_id m); cbn; lia. }
  assert (length (str_or_null m reason) <= used m (sline_ptrs (p_sl m)) + 6)%nat as H2.
  { rewrite Hsl. unfold used. destruct reason; cbn; lia. }
  assert (length (match len with Some n => lit "Content-Length: " ++ dec n ++ crlf ++ crlf | None => crlf end) <= 31)%nat as H3.
  { destruct len as [n|]; [|cbn; lia]. pose proof (dec_length n ltac:(specialize (Hlen n eq_refl); lia)). rewrite !length_app. cbn. lia. }
  unfold ptrs in Hu. rewrite !used_app in Hu. change (length crlf) with 2%nat. change (length [SP]) with 1%nat. lia.
Qed.

(** A reply made in a block of 512 bytes never overruns [buf[2048]]: it is queued or
    refused for want of room in the send buffer. *)
Lemma tcp_send_reply c m code reason len :
  wf_ring c → tight m → p_max_len m = 512%nat → p_sl m = Some (PMSG_RESP code reason) →
  - 2 ^ 31 <= code < 2 ^ 31 → (∀ n, len = Some n → 0 <= n < 2 ^ 31) →
  tcp_send_pmsg c m len = Fail ∨
  ∃ c', tcp_send_pmsg c m len = Ok c' ∧ wf_ring c' ∧ queue c' = queue c ++ format_response m code reason len.
Proof.
  intros Hc Hm Hmax Hsl Hcode Hlen. pose proof (reply_text_length m code reason len Hm Hsl Hcode Hlen) as Ht.
  unfold tcp_send_pmsg. rewrite Hsl. destruct (Nat.leb_spec 2048 (length (format_response m code reason len))); [lia|].
  destruct (Z.ltb_spec (Z.of_nat (avail_send_buf c)) (Z.of_nat (length (format_response m code reason len)) + default 0 len))
    as [|Hroom]; [by left|]. right.
  assert (length (format_response m code reason len) <= avail_send_buf c)%nat as Hfit.
  { destruct len as [n|]; cbn [default id] in Hroom; [specialize (Hlen n eq_refl)|]; lia. }
  pose proof (send_data_queue c (format_response m code reason len) Hc) as HQ.
  destruct (send_data c (format_response m code reason len)) as [ok c']. destruct HQ as (-> & H1 & H2 & _).
  exists c'. split; [done|]. split; [done|]. by rewrite H2, (proj2 (Nat.leb_le _ _) Hfit).
Qed.
