(* ===== verification/Rtsp.v ===== *)
(** * RTSP requests ([rtsp.c], and the session description of [live.c])

    Locations and their search, replies, and the handler of each method.  A handler works
    on the parsed request and the connection it came on, and leaves the reply in the
    connection's send buffer; its state is the server of [Server], the secret of digest
    authentication, and the lines written to the access log, as status and length. *)

From Stdlib Require Import String.
From S2P Require Import Prelude CString Pmsg HttpAuth SendBuf Frame Stream Rtcp Rtp RtpMedia Server ServerInv ServerOps Reply.

Local Open Scope Z_scope.
Local Open Scope c_scope.

(** ** Locations *)

(** [struct rtsp_location]: [lo_path] is the whole array [path[256]], the string and what
    was in the memory behind it; [open] is [live_open] and [private] a live source. *)
Record rtsp_location := MkLocation {
  lo_path : list Z;
  lo_realm : list Z;
  lo_username : list Z;
  lo_password : list Z;
  lo_private : nat }.

(** [strcpy(node->path, path)] over [junk], the content of the array. *)
Definition init_location (path junk : list Z) : outcome (list Z) :=
  if (length junk <=? length path)%nat then Undef else Ok (splice 0 (path ++ [0]) junk).

(** [strcpy] into an array of 128 bytes; [NULL] gives the empty string. *)
Definition copy_128 (s : option (list Z)) : outcome (list Z) :=
  match s with
  | None => Ok []
  | Some s => if (128 <=? length s)%nat then Undef else Ok s
  end.

Definition new_rtsp_location (l : list rtsp_location) (path : list Z) (realm username password : option (list Z))
    (private : nat) (junk : list Z) : outcome (list rtsp_location) :=
  p ← init_location path junk;
  r ← copy_128 realm;
  u ← copy_128 username;
  w ← copy_128 password;
  Ok (MkLocation p r u w private :: l).

(** The part of an [rtsp://] address after the host, ["/"] when there is none. *)
Definition get_local_path (uri : list Z) : option (list Z) :=
  if strncaseeq uri (lit "rtsp://") 7 then
    match strchr (drop 7 uri) 47 with Some c => Some c | None => Some (lit "/") end
  else None.

(** [loc->path] as a string. *)
Definition loc_string (loc : rtsp_location) : list Z := default [] (take_string (lo_path loc)).

(** The test reads [loc->path[len]], with the length of the requested path. *)
Fixpoint node_find_location (l : list rtsp_location) (path : list Z) (len : nat) : outcome (option rtsp_location) :=
  match l with
  | [] => Ok None
  | loc :: l =>
      if strneq path (loc_string loc) (length (loc_string loc)) then
        c ← rd (lo_path loc) len;
        if (c =? 47) || (c =? 0) then Ok (Some loc) else node_find_location l path len
      else node_find_location l path len
  end.

(** The number after the last [/track] of the path, and the length of what is before. *)
Definition split_track (path : list Z) : Z * nat :=
  match strrchr path 47 with
  | Some c =>
      if strneq c (lit "/track") 6 then
        let '(track, rest) := strtol (drop 6 c) in
        (track, if bool_decide (rest = []) then (length path - length c)%nat else length path)
      else (-1, length path)
  | None => (-1, length path)
  end.

(** [find_rtsp_location(uri, base, &track)] with [base] an array of 256 bytes, or [NULL]
    when [want_base] is false; [want_track] is false for a [NULL] third argument. *)
Definition find_rtsp_location (l : list rtsp_location) (uri : list Z) (want_base want_track : bool)
    : outcome (option rtsp_location * Z) :=
  match get_local_path uri with
  | None => Ok (None, 0)
  | Some path =>
      let '(track, len) := if want_track then split_track path else (-1, length path) in
      let len := if (1 <? len)%nat && bool_decide (path !! (len - 1)%nat = Some 47) then (len - 1)%nat else len in
      if want_base && (256 <=? len)%nat then Undef else
      r ← node_find_location l path len;
      Ok (r, track)
  end.

(** ** Replies *)

Record rtsp_state := MkRtsp {
  rt_server : server;
  rt_secret : secret;
  rt_log : list (Z * Z) }.

Definition with_server (st : rtsp_state) (sv : server) : rtsp_state := MkRtsp sv (rt_secret st) (rt_log st).
Definition log_request (st : rtsp_state) (code length : Z) : rtsp_state :=
  MkRtsp (rt_server st) (rt_secret st) (rt_log st ++ [(code, length)]).

(** [rtsp_create_reply] in the block [malloc] gave. *)
Definition rtsp_create_reply (block : list Z) (req : pmsg) (code : Z) (reason : list Z) : pmsg :=
  let m := MkPmsg block 0 [] None None in
  let '(proto, m) := add_pmsg_string m (lit "RTSP/1.0") in
  let '(r, m) := add_pmsg_string m reason in
  let m := MkPmsg (p_msg m) (p_msg_len m) (p_fields m) (Some (PMSG_RESP code r)) proto in
  (copy_headers m req (lit "CSeq")).2.

(** [tcp_send_pmsg(req->conn, resp, len)]; [false] is -1. *)
Definition send_reply (sv : server) (c : nat) (m : pmsg) (len : option Z) : outcome (bool * server) :=
  cx ← deref (sv_conns sv) c;
  match tcp_send_pmsg (cn_ring cx) m len with
  | Ok r => Ok (true, set_conn_at sv c (with_ring cx r))
  | Fail => Ok (false, sv)
  | Undef => Undef
  | Diverge => Diverge
  end.

Definition send_on (sv : server) (c : nat) (d : list Z) : outcome server :=
  cx ← deref (sv_conns sv) c;
  Ok (set_conn_at sv c (with_ring cx (send_data (cn_ring cx) d).2)).

Definition rtsp_send_error (st : rtsp_state) (c : nat) (req : pmsg) (block : list Z) (code : Z) (reason : list Z)
    : outcome rtsp_state :=
  let st := log_request st code 0 in
  '(_, sv) ← send_reply (rt_server st) c (rtsp_create_reply block req code reason) None;
  Ok (with_server st sv).

(** [rtsp_verify_auth]: [true] is 0, the request may go on. *)
Definition rtsp_verify_auth (st : rtsp_state) (c : nat) (req : pmsg) (loc : rtsp_location) (v : env)
    : outcome (bool * rtsp_state) :=
  let now := (v_clock v 0%nat).1 in
  ret ← check_digest_response (rt_secret st) now req (lo_realm loc) (lo_username loc) (lo_password loc);
  if 0 <? ret then Ok (true, st) else
  let st := log_request st 401 0 in
  let m := rtsp_create_reply (v_block v 0%nat) req 401 (lit "Unauthorized") in
  '(_, m, secret, _) ← add_digest_challenge (rt_secret st) now (v_random v) m (lo_realm loc) (ret =? 0);
  let st := MkRtsp (rt_server st) secret (rt_log st) in
  '(_, sv) ← send_reply (rt_server st) c m None;
  Ok (false, with_server st sv).

(** [loc->realm[0] && rtsp_verify_auth(...) < 0]. *)
Definition check_auth (st : rtsp_state) (c : nat) (req : pmsg) (loc : rtsp_location) (v : env)
    : outcome (bool * rtsp_state) :=
  match lo_realm loc with [] => Ok (true, st) | _ => rtsp_verify_auth st c req loc v end.

(** [req->req->sl.req]: the union is read as a request. *)
Definition req_uri (req : pmsg) : outcome (list Z) :=
  match p_sl req with Some (PMSG_REQ _ uri) => Ok (str_of req uri) | _ => Undef end.
Definition req_method (req : pmsg) : outcome (list Z) :=
  match p_sl req with Some (PMSG_REQ method _) => Ok (str_of req method) | _ => Undef end.

(** ** OPTIONS *)

Definition handle_OPTIONS (st : rtsp_state) (c : nat) (req : pmsg) (v : env) : outcome rtsp_state :=
  let m := rtsp_create_reply (v_block v 0%nat) req 200 (lit "OK") in
  let m := (add_header m (lit "Public") (lit "DESCRIBE, SETUP, TEARDOWN, PLAY, PAUSE")).2 in
  let st := log_request st 200 0 in
  '(_, sv) ← send_reply (rt_server st) c m None;
  Ok (with_server st sv).

(** ** DESCRIBE *)

(** [get_sdp] of a medium; [None] is the -1 of a format without description. *)
Definition media_get_sdp (payload port : Z) (m : media) : option (list Z) :=
  match m with
  | MediaJpeg _ => Some (jpeg_get_sdp port)
  | MediaRaw m => rawaudio_get_sdp payload port m
  end.

(** [sdp_port] of an endpoint that uses UDP. *)
Definition udp_port (sv : server) (ep : option nat) : outcome (option Z) :=
  match ep with
  | None => Ok None
  | Some e =>
      y ← deref (sv_eps sv) e;
      Ok (match ep_trans (e_ep y) with RTP_TRANS_UDP port _ _ => Some port | _ => None end)
  end.

(** The loop over the tracks from [t]: the number of tracks and the text, [None] when a
    track is not ready. *)
Fixpoint sdp_tracks (sv : server) (trs : list live_track) (eps : list (option nat)) (t : nat) (text : list Z)
    : outcome (option (nat * list Z)) :=
  match trs, eps with
  | tr :: trs, ep :: eps =>
      match tr_rtp tr with
      | None => Ok (Some (t, text))
      | Some m =>
          if negb (tr_ready tr) then Ok None else
          p ← udp_port sv ep;
          let port := default 0 p in
          let text :=
            match media_get_sdp (96 + Z.of_nat t) port m with
            | Some d => text ++ d
            | None => removelast text
            end in
          let text :=
            if port =? 0 then text ++ lit "a=control:track" ++ dec (Z.of_nat t) ++ [CR; LF] else text in
          sdp_tracks sv trs eps (S t) text
      end
  | _, _ => Ok (Some (t, text))
  end.

Definition sdp_head (addr : list Z) : list Z :=
  lit "v=0" ++ crlf ++ lit "o=- 1 1 IN IP4 127.0.0.1" ++ crlf ++ lit "s=Test" ++ crlf ++
  lit "a=type:broadcast" ++ crlf ++ lit "t=0 0" ++ crlf ++ lit "c=IN " ++ addr ++ crlf.

(** [live_get_sdp]: the text when the result is positive; [addr] is the [sdp_addr] of an
    endpoint.  The text has to fit the caller's array. *)
Definition live_get_sdp (sv : server) (s : nat) (addr : nat → list Z) (len : Z) : outcome (option (list Z)) :=
  '(x, ls, src) ← live_of sv s;
  tr0 ← rd (lv_track src) 0;
  match tr_rtp tr0 with
  | None => Ok None
  | Some _ =>
      if negb (tr_ready tr0) then Ok None else
      ep0 ← rd (ss_ep x) 0;
      p0 ← udp_port sv ep0;
      let a := match p0, ep0 with Some _, Some e => addr e | _, _ => lit "IP4 0.0.0.0" end in
      r ← sdp_tracks sv (lv_track src) (ss_ep x) 0 (sdp_head a);
      match r with
      | Some (t, text) => if len <=? Z.of_nat (length text) then Undef else Ok (Some text)
      | None => Ok None
      end
  end.

Definition handle_DESCRIBE (locs : list rtsp_location) (st : rtsp_state) (c : nat) (req : pmsg) (v : env)
    : outcome rtsp_state :=
  uri ← req_uri req;
  '(r, _) ← find_rtsp_location locs uri true false;
  let not_found (st : rtsp_state) := rtsp_send_error st c req (v_block v 1%nat) 404 (lit "Not Found") in
  match r with
  | None => not_found st
  | Some loc =>
      '(o, sv) ← live_open (rt_server st) (lo_private loc) (v_clock v 0%nat).1;
      match o with
      | None => not_found st
      | Some s =>
          '(ok, st) ← check_auth (with_server st sv) c req loc v;
          if negb ok then Ok st else
          sdp ← live_get_sdp (rt_server st) s (λ _, []) 8190;
          st ← match sdp with
               | Some text =>
                   let m := rtsp_create_reply (v_block v 0%nat) req 200 (lit "OK") in
                   if (512 <=? length uri + 1)%nat then Undef else        (* hdr[512] *)
                   let m := (add_header m (lit "Content-Base") (uri ++ lit "/")).2 in
                   let m := (add_header m (lit "Content-Type") (lit "application/sdp")).2 in
                   let st := log_request st 200 (Z.of_nat (length text)) in
                   '(sent, sv) ← send_reply (rt_server st) c m (Some (Z.of_nat (length text)));
                   sv ← (if (sent : bool) then send_on sv c text else Ok sv);
                   Ok (with_server st sv)
               | None => not_found st
               end;
          sv ← live_teardown (rt_server st) s None;
          Ok (with_server st sv)
      end
  end.

(** ** SETUP *)

(** The number after [tag=] in the transport header: [None] is an error, [Some None] when
    the tag does not occur. *)
Definition transport_number (t tag : list Z) : option (option Z) :=
  match strstr t tag with
  | None => Some None
  | Some p =>
      match drop (length tag) p with
      | 61 :: q =>
          let '(n, rest) := strtol q in
          if bool_decide (length rest = length q) then None else Some (Some n)
      | _ => None
      end
  end.

Definition udp_transport (cport server_port : Z) : list Z :=
  lit "RTP/AVP;unicast;client_port=" ++ dec cport ++ lit "-" ++ dec (i32 (cport + 1)) ++
  lit ";server_port=" ++ dec server_port ++ lit "-" ++ dec (i32 (server_port + 1)).

(** The two transports: [None] is -1; otherwise the [Transport] header of the reply. *)
Definition rtsp_udp_setup (sv : server) (e : nat) (t : list Z) (v : env) : outcome (option (server * list Z)) :=
  match transport_number t (lit "client_port") with
  | Some (Some cport) =>
      y ← deref (sv_eps sv) e;
      match connect_udp_endpoint (v_range v) (v_sockets v) (v_rand v) (e_ep y) with
      | None => Ok None
      | Some (server_port, ep) =>
          Ok (Some (set_ep sv e (MkEndpoint (e_session y) ep), udp_transport cport server_port))
      end
  | _ => Ok None
  end.

Definition chan_free (t : list ichan) (i : nat) : outcome bool :=
  x ← rd t i; Ok (match ic_ep x with None => true | Some _ => false end).

(** The first free pair of channels, from [i]; [n] is the number of pairs left. *)
Fixpoint free_pair (n : nat) (t : list ichan) (i : nat) : outcome (option nat) :=
  match n with
  | O => Ok None
  | S n =>
      a ← chan_free t i;
      b ← (if (a : bool) then chan_free t (i + 1) else Ok false);
      if (b : bool) then Ok (Some i) else free_pair n t (i + 2)
  end.

(** The channels to use: what the client asks for, or the first free pair. *)
Definition pick_channels (rc : option (list ichan)) (t : list Z) : outcome (option nat) :=
  match transport_number t (lit "interleaved") with
  | None => Ok None
  | Some (Some n) =>
      if (n <? 0) || (i32 (n + 1) <? 0) || (8 <=? n) || (8 <=? i32 (n + 1)) then Ok None else
      let i := Z.to_nat n in
      match rc with
      | None => Ok (Some i)
      | Some tbl =>
          a ← chan_free tbl i;
          b ← (if (a : bool) then chan_free tbl (i + 1) else Ok false);
          Ok (if (b : bool) then Some i else None)
      end
  | Some None => match rc with Some tbl => free_pair 4 tbl 0 | None => Ok (Some 0%nat) end
  end.

Definition inter_transport (i : nat) : list Z :=
  lit "RTP/AVP/TCP;unicast;interleaved=" ++ dec (Z.of_nat i) ++ lit "-" ++ dec (Z.of_nat i + 1).

Definition rtsp_interleave_setup (sv : server) (c e : nat) (t : list Z) (v : env) : outcome (option (server * list Z)) :=
  cx ← deref (sv_conns sv) c;
  rc ← match cn_proto_state cx with
       | None => Ok None
       | Some p => tbl ← deref (sv_rconns sv) p; Ok (Some tbl)
       end;
  r ← pick_channels rc t;
  match r with
  | None => Ok None
  | Some i =>
      let sv := match rc with None => with_channels sv c cx (v_junk_rtcp v) | Some _ => sv end in
      cx ← deref (sv_conns sv) c;
      match cn_proto_state cx with
      | None => Undef
      | Some p =>
          tbl ← deref (sv_rconns sv) p;
          tbl ← wr tbl i (MkIchan (Some e) false);
          tbl ← wr tbl (i + 1) (MkIchan (Some e) true);
          let sv := with_rconns sv (<[p := tbl]> (sv_rconns sv)) in
          y ← deref (sv_eps sv) e;
          Ok (Some (set_ep sv e (MkEndpoint (e_session y)
                      (connect_interleaved_endpoint (e_ep y) c (Z.of_nat i) (Z.of_nat (i + 1)))),
                    inter_transport i))
      end
  end.

Definition rtsp_transport_setup (sv : server) (c e : nat) (t : list Z) (v : env) : outcome (option (server * list Z)) :=
  if strncaseeq t (lit "RTP/AVP/TCP") 11 then rtsp_interleave_setup sv c e t v
  else if (strncaseeq t (lit "RTP/AVP") 7 && negb (bool_decide (t !! 7%nat = Some 47))) ||
          strncaseeq t (lit "RTP/AVP/UDP") 11 then rtsp_udp_setup sv e t v
  else Ok None.

(** The session a SETUP is for: a new one of the location, or the one the client names;
    the status and reason of the error otherwise. *)
Definition setup_session (st : rtsp_state) (c : nat) (req : pmsg) (loc : rtsp_location) (v : env)
    : outcome ((nat * option nat * server) + (Z * list Z)) :=
  match get_header req (lit "Session") with
  | None =>
      '(o, sv) ← live_open (rt_server st) (lo_private loc) (v_clock v 0%nat).1;
      match o with
      | None => Ok (inr (404, lit "Not Found"))
      | Some s =>
          cx ← deref (sv_conns sv) c;
          x ← deref (sv_sessions sv) s;
          Ok (inl (s, None, set_session sv s (MkSession (ss_ep x) (ss_private x) (ss_control x)
                              (lit "IP4 " ++ cn_addr cx) (ss_open_time x))))
      end
  | Some id =>
      r ← get_session (rt_server st) (Some id);
      match r with
      | None => Ok (inr (454, lit "Session Not Found"))
      | Some rs => y ← deref (sv_rtsps (rt_server st)) rs; Ok (inl (rs_sess y, Some rs, rt_server st))
      end
  end.

(** The session is named to the client, and the reply sent. *)
Definition setup_reply (st : rtsp_state) (c s : nat) (rs : option nat) (m : pmsg) (trans : list Z) (v : env)
    : outcome rtsp_state :=
  let m := (add_header m (lit "Transport") trans).2 in
  '(rs, sv) ← match rs with
              | Some rs => Ok (rs, rt_server st)
              | None => new_rtsp_session (rt_server st) s (advance (v_random v) 10)
              end;
  y ← deref (sv_rtsps sv) rs;
  let m := (add_header m (lit "Session") (rs_id y)).2 in
  let st := log_request (with_server st sv) 200 0 in
  '(_, sv) ← send_reply (rt_server st) c m None;
  Ok (with_server st sv).

Definition handle_SETUP (locs : list rtsp_location) (st : rtsp_state) (c : nat) (req : pmsg) (v : env)
    : outcome rtsp_state :=
  uri ← req_uri req;
  let error (st : rtsp_state) (code : Z) (reason : list Z) := rtsp_send_error st c req (v_block v 1%nat) code reason in
  '(r, track) ← find_rtsp_location locs uri true true;
  match r with
  | None => error st 404 (lit "Not Found")
  | Some loc =>
      if (track <? 0) || (Z.of_nat MAX_TRACKS <=? track) then error st 404 (lit "Not Found") else
      '(ok, st) ← check_auth st c req loc v;
      if negb ok then Ok st else
      match get_header req (lit "Transport") with
      | None => error st 461 (lit "Unspecified Transport")
      | Some t =>
          r ← setup_session st c req loc v;
          match r with
          | inr (code, reason) => error st code reason
          | inl (s, rs, sv) =>
              let st := with_server st sv in
              x ← deref (sv_sessions sv) s;
              ep ← rd (ss_ep x) (Z.to_nat track);
              match ep with
              | Some _ => error st 461 (lit "Unsupported Transport")
              | None =>
                  '(ok, sv) ← live_setup sv s (Z.to_nat track) v;
                  let st := with_server st sv in
                  if negb (ok : bool) then
                    st ← error st 404 (lit "Not Found");
                    match rs with
                    | None => sv ← live_teardown (rt_server st) s None; Ok (with_server st sv)
                    | Some _ => Ok st
                    end
                  else
                    let m := rtsp_create_reply (v_block v 0%nat) req 200 (lit "OK") in
                    x ← deref (sv_sessions sv) s;
                    ep ← rd (ss_ep x) (Z.to_nat track);
                    match ep with
                    | None => Undef
                    | Some e =>
                        r ← rtsp_transport_setup sv c e t v;
                        match r with
                        | None =>
                            st ← error st 461 (lit "Unsupported Transport");
                            sv ← live_teardown (rt_server st) s (Some e);
                            Ok (with_server st sv)
                        | Some (sv, trans) => setup_reply (with_server st sv) c s rs m trans v
                        end
                    end
              end
          end
      end
  end.

(** ** PLAY, PAUSE, TEARDOWN *)

(** The session the client names, or the error 454. *)
Definition named_session (st : rtsp_state) (req : pmsg) : outcome (option (nat * rtsp_session)) :=
  r ← get_session (rt_server st) (get_header req (lit "Session"));
  match r with
  | None => Ok None
  | Some rs => y ← deref (sv_rtsps (rt_server st)) rs; Ok (Some (rs, y))
  end.

(** One entry per endpoint; [None] when the array is full. *)
Fixpoint rtp_info (sv : server) (uri : list Z) (eps : list (option nat)) (i : nat) (p : list Z)
    : outcome (option (list Z)) :=
  match eps with
  | [] => Ok (Some p)
  | None :: eps => rtp_info sv uri eps (S i) p
  | Some e :: eps =>
      y ← deref (sv_eps sv) e;
      let d := lit "url=" ++ uri ++ lit "/track" ++ dec (Z.of_nat i) ++ lit ";seq=" ++ dec (ep_seqnum (e_ep y)) ++
               lit ";rtptime=" ++ dec (ep_last_timestamp (e_ep y)) ++ lit "," in
      if (512 - length p <=? length d)%nat then Ok None else rtp_info sv uri eps (S i) (p ++ d)
  end.

(** The headers of a reply when the session has sought to [start], in units of 0.1 ms. *)
Definition play_position (sv : server) (uri : list Z) (x : session) (start : Z) (m : pmsg) : outcome pmsg :=
  let frac := start mod 10000 in
  let pad := (if frac <? 10 then lit "000" else if frac <? 100 then lit "00" else if frac <? 1000 then lit "0" else []) in
  let m := (add_header m (lit "Range") (lit "npt=" ++ dec (start / 10000) ++ lit "." ++ pad ++ dec frac ++ lit "-")).2 in
  r ← rtp_info sv uri (ss_ep x) 0 [];
  match r with
  | Some (b :: p) => Ok (add_header m (lit "RTP-Info") (removelast (b :: p))).2
  | _ => Ok m
  end.

(** [have_start]: the [Range] header names a position; [live_play] answers -1. *)
Definition handle_PLAY (st : rtsp_state) (c : nat) (req : pmsg) (v : env) : outcome rtsp_state :=
  r ← named_session st req;
  match r with
  | None => rtsp_send_error st c req (v_block v 1%nat) 454 (lit "Session Not Found")
  | Some (rs, y) =>
      let have_start :=
        match get_header req (lit "Range") with
        | Some range => strneq range (lit "npt=") 4 && v_double v (drop 4 range)
        | None => false
        end in
      sv ← live_play (rt_server st) (rs_sess y);
      let start := -10000 in
      let st := with_server st sv in
      let m := rtsp_create_reply (v_block v 0%nat) req 200 (lit "OK") in
      let m := (add_header m (lit "Session") (rs_id y)).2 in
      m ← (if have_start && (0 <=? start) then
             uri ← req_uri req;
             x ← deref (sv_sessions sv) (rs_sess y);
             play_position sv uri x start m
           else Ok m);
      let st := log_request st 200 0 in
      '(_, sv) ← send_reply (rt_server st) c m None;
      Ok (with_server st sv)
  end.

(** A live session has no [pause]. *)
Definition handle_PAUSE (st : rtsp_state) (c : nat) (req : pmsg) (v : env) : outcome rtsp_state :=
  r ← named_session st req;
  match r with
  | None => rtsp_send_error st c req (v_block v 1%nat) 454 (lit "Session Not Found")
  | Some _ => rtsp_send_error st c req (v_block v 1%nat) 501 (lit "Not Implemented")
  end.

Definition handle_TEARDOWN (locs : list rtsp_location) (st : rtsp_state) (c : nat) (req : pmsg) (v : env)
    : outcome rtsp_state :=
  uri ← req_uri req;
  let error (code : Z) (reason : list Z) := rtsp_send_error st c req (v_block v 1%nat) code reason in
  '(r, track) ← find_rtsp_location locs uri false true;
  match r with
  | None => error 404 (lit "Not Found")
  | Some _ =>
      if Z.of_nat MAX_TRACKS <=? track then error 404 (lit "Not Found") else
      r ← named_session st req;
      match r with
      | None => error 454 (lit "Session Not Found")
      | Some (rs, y) =>
          let m := rtsp_create_reply (v_block v 0%nat) req 200 (lit "OK") in
          let m := (add_header m (lit "Session") (rs_id y)).2 in
          ep ← (if track <? 0 then Ok None
                else x ← deref (sv_sessions (rt_server st)) (rs_sess y); rd (ss_ep x) (Z.to_nat track));
          sv ← live_teardown (rt_server st) (rs_sess y) ep;
          let st := log_request (with_server st sv) 200 0 in
          '(_, sv) ← send_reply (rt_server st) c m None;
          Ok (with_server st sv)
      end
  end.

Definition rtsp_handle_unknown (st : rtsp_state) (c : nat) (req : pmsg) (v : env) : outcome rtsp_state :=
  rtsp_send_error st c req (v_block v 1%nat) 501 (lit "Not Implemented").

Definition rtsp_handle_msg (locs : list rtsp_location) (st : rtsp_state) (c : nat) (req : pmsg) (v : env)
    : outcome rtsp_state :=
  method ← req_method req;
  if strcaseeq method (lit "OPTIONS") then handle_OPTIONS st c req v
  else if strcaseeq method (lit "DESCRIBE") then handle_DESCRIBE locs st c req v
  else if strcaseeq method (lit "SETUP") then handle_SETUP locs st c req v
  else if strcaseeq method (lit "PLAY") then handle_PLAY st c req v
  else if strcaseeq method (lit "PAUSE") then handle_PAUSE st c req v
  else if strcaseeq method (lit "TEARDOWN") then handle_TEARDOWN locs st c req v
  else rtsp_handle_unknown st c req v.
