(* ===== verification/RtspSafe.v ===== *)
(** * Requests keep the server whole

    Every handler of [Rtsp] returns, whatever the request says, as long as the path of the
    address and the address itself fit the arrays they are copied to; the objects stay
    linked as [ServerInv] says, no track waits for nobody, and every send buffer stays a
    queue.  Then: what a wrong password, a wrong path and an unknown session lead to. *)

From Stdlib Require Import String.
From S2P Require Import Prelude CString Pmsg HttpAuth SendBuf Frame Stream Rtcp Rtp RtpMedia Server ServerInv ServerOps Reply Rtsp.

Local Open Scope Z_scope.
Local Open Scope c_scope.

(** ** What is kept *)

Definition wf_location (sv : server) (loc : rtsp_location) : Prop :=
  length (lo_path loc) = 256%nat ∧ (length (lo_realm loc) < 128)%nat ∧ no_nul (lo_realm loc) ∧
  is_Some (sv_sources sv !! lo_private loc).

(** The numbers in the description of a medium are C integers. *)
Definition wf_media (m : media) : Prop :=
  match m with
  | MediaJpeg _ => True
  | MediaRaw m => - 2 ^ 31 <= ra_rate m < 2 ^ 31 ∧ - 2 ^ 31 <= ra_channels m < 2 ^ 31
  end.

(** The statistics of an endpoint are in order, and its packets have room for the headers
    and tables of a JPEG frame. *)
Definition fit_ep (ep : rtp_endpoint) : Prop := wf_ep_qos ep ∧ 145 <= ep_max_data_size ep.

Record served (locs : list rtsp_location) (sv : server) : Prop := {
  se_inv : server_inv sv;
  se_idle : idle sv nowhere;
  se_rings c cx : sv_conns sv !! c = Some cx → wf_ring (cn_ring cx);
  se_eps e y : sv_eps sv !! e = Some y → fit_ep (e_ep y);
  se_mtu k src : sv_sources sv !! k = Some src → 145 <= lv_max_trans_size src;
  se_ids r y : sv_rtsps sv !! r = Some y → no_nul (rs_id y);
  se_media k src t tr m : sv_sources sv !! k = Some src → lv_track src !! t = Some tr → tr_rtp tr = Some m → wf_media m;
  se_locs : Forall (wf_location sv) locs }.

(** [proto_state] is [NULL] or points to a [struct rtsp_conn]. *)
Definition conn_ok (sv : server) (c : nat) : Prop :=
  ∃ cx, sv_conns sv !! c = Some cx ∧ ∀ rc, cn_proto_state cx = Some rc → is_Some (sv_rconns sv !! rc).

(** Serving connection [c] touches the buffer and the [proto_state] of no other; channels
    that exist stay. *)
Record serves (c : nat) (sv sv' : server) : Prop := {
  sr_other c' : c' ≠ c → sv_conns sv' !! c' = sv_conns sv !! c';
  sr_self cx : sv_conns sv !! c = Some cx → ∃ r p,
    sv_conns sv' !! c = Some (with_proto_state (with_ring cx r) p) ∧
    (p = cn_proto_state cx ∨ (cn_proto_state cx = None ∧ ∃ rc, p = Some rc ∧ is_Some (sv_rconns sv' !! rc)));
  sr_rconns rc : is_Some (sv_rconns sv !! rc) → is_Some (sv_rconns sv' !! rc);
  sr_new rc : is_Some (sv_rconns sv' !! rc) → is_Some (sv_rconns sv !! rc) ∨ (sv_fresh sv <= rc)%nat;
  sr_fresh : (sv_fresh sv <= sv_fresh sv')%nat;
  sr_writes : wi_writes (sv_wire sv') = wi_writes (sv_wire sv);
  sr_tracks k : lv_static <$> sv_sources sv' !! k = lv_static <$> sv_sources sv !! k;
  sr_streams : flags_only (sv_streams sv) (sv_streams sv') }.

#[export] Instance serves_preorder c : PreOrder (serves c).
Proof.
  split.
  - intros sv. split; try done; [|eauto].
    intros cx E. exists (cn_ring cx), (cn_proto_state cx). rewrite E. split; [by destruct cx|auto].
  - intros a b d [o1 s1 r1 n1 f1 z1 k1 w1] [o2 s2 r2 n2 f2 z2 k2 w2]. split; [|  |auto| | lia |congruence| |by etrans].
    + intros c' Hc. by rewrite o2, o1.
    + intros cx E. destruct (s1 cx E) as (r & p & E1 & H1). destruct (s2 _ E1) as (r' & p' & E2 & H2).
      exists r', p'. split; [by rewrite E2; destruct cx|]. simpl in H2.
      destruct H2 as [->|(-> & H2)]; [|right; destruct H1 as [<-|(_ & rc & ? & _)]; done].
      destruct H1 as [->|(H1 & rc & -> & H)]; [auto|]. right. split; [done|]. exists rc. auto.
    + intros rc H. destruct (n2 rc H) as [H'|H']; [destruct (n1 rc H'); auto|right; lia].
    + intros k. by rewrite k2, k1.
Qed.

Lemma serves_conn_ok c c' sv sv' : serves c sv sv' → conn_ok sv c' → conn_ok sv' c'.
Proof.
  intros Hs (cx & E & Hcx). destruct (decide (c' = c)) as [->|Hne].
  - destruct (sr_self _ _ _ Hs cx E) as (r & p & E' & Hp). exists (with_proto_state (with_ring cx r) p).
    split; [done|]. intros rc Hrc. simpl in Hrc. subst p. destruct Hp as [Hp|(_ & rc' & [= <-] & H)]; [|done].
    apply (sr_rconns _ _ _ Hs). by apply Hcx.
  - exists cx. split; [by rewrite (sr_other _ _ _ Hs)|]. intros rc Hrc. apply (sr_rconns _ _ _ Hs). by apply Hcx.
Qed.

(** ** Replies *)

Lemma dec_no_nul n : no_nul (dec n).
Proof.
  unfold dec. destruct (Z.ltb_spec n 0); [constructor; [done|]|]; apply udec_no_nul; lia.
Qed.

Lemma random_id_no_nul r n : no_nul (random_id r n).1.
Proof.
  unfold random_id. cbn [fst]. unfold no_nul. apply Forall_concat, Forall_map, Forall_forall. intros i _.
  assert (∀ d, 0 <= d < 16 → HEXdigit d ≠ 0) as Hd by (intros d Hd; unfold HEXdigit; destruct (Z.ltb_spec d 10); lia).
  pose proof (land_255_byte (r i)) as Hb. unfold is_byte in Hb. unfold HEX2.
  repeat constructor; apply Hd; Z.div_mod_to_equations; lia.
Qed.

(** The reply to be sent: made of whole strings in a block of 512 bytes. *)
Definition reply (code : Z) (m : pmsg) : Prop :=
  tight m ∧ p_max_len m = 512%nat ∧ ∃ reason, p_sl m = Some (PMSG_RESP code reason).

(** The strings of the status line: the protocol always fits the block. *)
Lemma status_tight m1 p reason code :
  tight (MkPmsg (p_msg m1) (p_msg_len m1) [] None (Some p)) → p_fields m1 = [] → p_max_len m1 = 512%nat → no_nul reason →
  let '(r, m2) := add_pmsg_string m1 reason in
  reply code (MkPmsg (p_msg m2) (p_msg_len m2) (p_fields m2) (Some (PMSG_RESP code r)) (Some p)).
Proof.
  intros [(Hlen & _ & Hp) Hu] Hf Hm Hr. apply Forall_inv in Hp. cbn [p_msg_len] in *.
  change (p_max_len (MkPmsg (p_msg m1) _ _ _ _)) with (p_max_len m1) in Hlen.
  change (used _ _) with (S (length (str_of m1 p)) + 0)%nat in Hu. change (wf_ptr m1 p) in Hp.
  pose proof (add_pmsg_string_spec m1 reason Hr Hlen) as S2. destruct (add_pmsg_string m1 reason) as [r m2].
  set (m3 := MkPmsg _ _ _ _ _).
  enough (tight m3 ∧ p_max_len m3 = 512%nat) as [H3 H3'] by (split; [done|]; split; [done|]; by exists r).
  destruct r as [r|].
  - destruct S2 as (S2 & X2 & L2 & W2 & T2 & F2 & _). destruct (extends_str m1 m2 p X2 Hp) as [E2 W1'].
    assert (p_max_len m3 = p_max_len m1) as M3 by apply X2. split; [|congruence]. split; [split_and!|].
    + unfold m3 at 1. cbn [p_msg_len]. lia.
    + unfold header_count, m3. cbn [p_fields]. rewrite F2, Hf. simpl. lia.
    + unfold ptrs, m3. cbn [p_proto_id p_sl p_fields sline_ptrs option_list]. rewrite F2, Hf. by repeat constructor.
    + unfold ptrs, used, m3. cbn [p_proto_id p_sl p_fields sline_ptrs option_list]. rewrite F2, Hf. simpl.
      change (length (str_of m2 p) + (S (length (str_of m2 r)) + 0) < p_msg_len m2)%nat. rewrite E2, T2, L2. lia.
  - destruct S2 as [-> _]. split; [|done]. split; [split_and!|].
    + done.
    + unfold header_count, m3. cbn [p_fields]. rewrite Hf. simpl. lia.
    + unfold ptrs, m3. cbn [p_proto_id p_sl p_fields sline_ptrs option_list]. rewrite Hf. by repeat constructor.
    + unfold ptrs, used, m3. cbn [p_proto_id p_sl p_fields sline_ptrs option_list]. rewrite Hf. simpl.
      change (length (str_of m1 p) + 0 < p_msg_len m1)%nat. lia.
Qed.

Lemma status_reply block proto code reason :
  length block = 512%nat → no_nul proto → (length proto < 512)%nat → no_nul reason →
  let '(p, m1) := add_pmsg_string (MkPmsg block 0 [] None None) proto in
  let '(r, m2) := add_pmsg_string m1 reason in
  reply code (MkPmsg (p_msg m2) (p_msg_len m2) (p_fields m2) (Some (PMSG_RESP code r)) p).
Proof.
  intros Hb Hp Hl Hr. set (m0 := MkPmsg block 0 [] None None). assert (p_max_len m0 = 512%nat) as H0 by done.
  pose proof (add_pmsg_string_spec m0 proto Hp ltac:(simpl; lia)) as S1.
  destruct (add_pmsg_string m0 proto) as [[p|] m1].
  2: { destruct S1 as [_ S1]. rewrite H0 in S1. cbn [p_msg_len m0] in S1. lia. }
  destruct S1 as (_ & X1 & L1 & W1 & T1 & F1 & _). cbn [p_msg_len m0] in L1.
  assert (p_max_len m1 = 512%nat) as M1 by (rewrite <- H0; apply X1).
  apply status_tight; try done. split; [split_and!|].
  - change (p_msg_len m1 <= p_max_len m1)%nat. lia.
  - apply Nat.le_0_l.
  - by repeat constructor.
  - change (S (length (str_of m1 p)) + 0 <= p_msg_len m1)%nat. rewrite T1, L1. lia.
Qed.

Lemma create_reply_reply block req code reason :
  length block = 512%nat → no_nul reason → reply code (rtsp_create_reply block req code reason).
Proof.
  intros Hb Hr. unfold rtsp_create_reply. pose proof (status_reply block (lit "RTSP/1.0") code reason Hb) as H.
  destruct (add_pmsg_string _ (lit "RTSP/1.0")) as [p m1]. destruct (add_pmsg_string m1 reason) as [r m2].
  destruct H as (Ht & Hm & q & Hq); [by repeat constructor|simpl; lia|done|].
  destruct (copy_headers_tight _ req (lit "CSeq") Ht) as (J1 & J2 & J3 & _).
  split; [done|]. split; [by rewrite J2|]. exists q. by rewrite J3.
Qed.

Lemma add_header_reply code m name value :
  reply code m → no_nul name → no_nul value → reply code (add_header m name value).2.
Proof.
  intros (Ht & Hm & r & Hr) Hn Hv. destruct (add_header_tight m name value Ht Hn Hv) as (J1 & J2 & J3 & _).
  split; [done|]. split; [congruence|]. exists r. congruence.
Qed.

Lemma add_header_printf_reply code m name text :
  reply code m → no_nul name → no_nul text → reply code (add_header_printf m name text).2.
Proof.
  intros (Ht & Hm & r & Hr) Hn Hv. destruct (add_header_printf_tight m name text Ht Hn Hv) as (J1 & J2 & J3 & _).
  split; [done|]. split; [congruence|]. exists r. congruence.
Qed.

(** ** Sending *)

(** The clauses that follow from the tracks being the same. *)
Lemma same_tracks_served locs sv sv' :
  served locs sv → (∀ k, lv_static <$> sv_sources sv' !! k = lv_static <$> sv_sources sv !! k) →
  server_inv sv' → idle sv' nowhere →
  (∀ c cx, sv_conns sv' !! c = Some cx → wf_ring (cn_ring cx)) →
  (∀ e y, sv_eps sv' !! e = Some y → fit_ep (e_ep y)) →
  (∀ r y, sv_rtsps sv' !! r = Some y → no_nul (rs_id y)) →
  served locs sv'.
Proof.
  intros Hs Hk H1 H2 H3 H4 H5. split; try done.
  - intros k src E. specialize (Hk k). rewrite E in Hk. destruct (sv_sources sv !! k) as [src0|] eqn:E0; [|done].
    injection Hk as _ ->. by eapply (se_mtu _ _ Hs).
  - intros k src t tr m E Et Em. specialize (Hk k). rewrite E in Hk.
    destruct (sv_sources sv !! k) as [src0|] eqn:E0; [|done]. injection Hk as Hk _. rewrite Hk in Et.
    by eapply (se_media _ _ Hs).
  - eapply Forall_impl; [apply (se_locs _ _ Hs)|]. intros loc (? & ? & ? & [src E]). split_and!; try done.
    specialize (Hk (lo_private loc)). rewrite E in Hk. by destruct (sv_sources sv' !! lo_private loc).
Qed.

(** A connection gets another send buffer. *)
Lemma ring_served locs sv c cx r :
  served locs sv → sv_conns sv !! c = Some cx → wf_ring r →
  served locs (set_conn_at sv c (with_ring cx r)) ∧ serves c sv (set_conn_at sv c (with_ring cx r)).
Proof.
  intros [Hi Hd Hr Hq Hu Hn Hm Hl] E Hw.
  assert (same_conns (sv_conns sv) (<[c := with_ring cx r]> (sv_conns sv))) as Hs.
  { intros c'. destruct (decide (c' = c)) as [->|]; [by rewrite lookup_insert_eq, E|by rewrite lookup_insert_ne]. }
  split; split; try done.
  - by apply with_wire_inv.
  - intros c' cx'. sv_cbn. destruct (decide (c' = c)) as [->|]; [rewrite lookup_insert_eq; by intros [= <-]|].
    rewrite lookup_insert_ne by done. apply Hr.
  - intros c' Hc. sv_cbn. by rewrite lookup_insert_ne.
  - intros cx' E'. assert (cx' = cx) as -> by congruence. exists r, (cn_proto_state cx). sv_cbn.
    rewrite lookup_insert_eq. auto.
  - sv_cbn. auto.
Qed.

(** Only the send buffer of [c] has changed. *)
Definition sent (c : nat) (sv sv' : server) : Prop :=
  ∃ cx r, sv_conns sv !! c = Some cx ∧ sv' = set_conn_at sv c (with_ring cx r).

Lemma sent_same c sv sv' :
  sent c sv sv' → sv_sessions sv' = sv_sessions sv ∧ sv_eps sv' = sv_eps sv ∧ sv_lives sv' = sv_lives sv ∧
    sv_rtsps sv' = sv_rtsps sv ∧ sv_sources sv' = sv_sources sv ∧ sv_rconns sv' = sv_rconns sv ∧
    sv_streams sv' = sv_streams sv.
Proof. by intros (cx & r & _ & ->). Qed.

Lemma sent_refl c sv : is_Some (sv_conns sv !! c) → sent c sv sv.
Proof.
  intros (cx & E). exists cx, (cn_ring cx). split; [done|]. unfold set_conn_at, with_conns, with_wire.
  destruct sv as [w]; destruct w; sv_cbn. f_equal. f_equal. rewrite insert_id; [done|]. by rewrite E; destruct cx.
Qed.

Lemma send_reply_ok locs sv c m code len :
  served locs sv → is_Some (sv_conns sv !! c) → reply code m → 0 <= code < 2 ^ 31 →
  (∀ n, len = Some n → 0 <= n < 2 ^ 31) →
  returns (send_reply sv c m len) (λ p, served locs p.2 ∧ serves c sv p.2 ∧ sent c sv p.2).
Proof.
  intros Hs [cx E] (Ht & Hm & reason & Hsl) Hc Hl. unfold send_reply. rewrite (deref_Ok _ _ _ E), bind_Ok.
  pose proof (se_rings _ _ Hs _ _ E) as Hw.
  destruct (tcp_send_reply (cn_ring cx) m code reason len Hw Ht Hm Hsl ltac:(lia) Hl) as [->|(r & -> & Hr & _)].
  - apply returns_Ok. cbn [snd]. split; [done|]. split; [done|]. by apply sent_refl.
  - apply returns_Ok. cbn [snd]. destruct (ring_served locs sv c cx r Hs E Hr) as [H1 H2].
    split; [done|]. split; [done|]. by exists cx, r.
Qed.

Lemma send_on_ok locs sv c d :
  served locs sv → is_Some (sv_conns sv !! c) →
  returns (send_on sv c d) (λ sv', served locs sv' ∧ serves c sv sv' ∧ sent c sv sv').
Proof.
  intros Hs [cx E]. unfold send_on. rewrite (deref_Ok _ _ _ E), bind_Ok.
  pose proof (send_data_queue (cn_ring cx) d (se_rings _ _ Hs _ _ E)) as H.
  destruct (send_data (cn_ring cx) d) as [ok r]. destruct H as (_ & Hr & _). apply returns_Ok. cbn [snd].
  destruct (ring_served locs sv c cx r Hs E Hr) as [H1 H2]. split; [done|]. split; [done|]. by exists cx, r.
Qed.

Definition good (locs : list rtsp_location) (st : rtsp_state) : Prop :=
  served locs (rt_server st) ∧ wf_secret (rt_secret st).

(** What a handler for connection [c] leaves. *)
Definition after (locs : list rtsp_location) (c : nat) (sv : server) (st : rtsp_state) : Prop :=
  good locs st ∧ serves c sv (rt_server st).

Lemma after_trans locs c sv sv' st : serves c sv sv' → after locs c sv' st → after locs c sv st.
Proof. intros H [Hg Hs]. split; [done|by etrans]. Qed.

Lemma no_nul_app s t : no_nul s → no_nul t → no_nul (s ++ t).
Proof. intros. by apply Forall_app. Qed.

Ltac no_nul :=
  repeat lazymatch goal with
  | |- no_nul (_ ++ _) => apply no_nul_app
  | |- no_nul (dec _) => apply dec_no_nul
  | |- no_nul (str_of _ _) => apply str_of_no_nul
  | |- no_nul (random_id _ _).1 => apply random_id_no_nul
  | |- no_nul (lit _) => by repeat constructor
  | |- no_nul (_ :: _) => by repeat constructor
  end; try done.

Section requests.
Context (locs : list rtsp_location) (c : nat) (req : pmsg) (v : env).
Hypothesis Hblock : ∀ n, length (v_block v n) = 512%nat.

(** The last step of the handlers: a line in the log, the reply on its way. *)
Lemma finish_reply st m code len :
  good locs st → is_Some (sv_conns (rt_server st) !! c) → reply code m → 0 <= code < 2 ^ 31 →
  (∀ n, len = Some n → 0 <= n < 2 ^ 31) →
  returns ('(_, sv) ← send_reply (rt_server st) c m len; Ok (with_server st sv))
    (λ st', after locs c (rt_server st) st' ∧ sent c (rt_server st) (rt_server st')).
Proof.
  intros [Hs Hk] Hc Hm Hcode Hl. eapply returns_bind; [by eapply send_reply_ok|].
  intros [b sv] (H1 & H2 & H3). apply returns_Ok. done.
Qed.

Lemma rtsp_send_error_ok st n code reason :
  good locs st → is_Some (sv_conns (rt_server st) !! c) → no_nul reason → 0 <= code < 2 ^ 31 →
  returns (rtsp_send_error st c req (v_block v n) code reason)
    (λ st', after locs c (rt_server st) st' ∧ sent c (rt_server st) (rt_server st')).
Proof.
  intros Hg Hc Hr Hcode. unfold rtsp_send_error. apply (finish_reply (log_request st code 0) _ code); try done.
  by apply create_reply_reply.
Qed.

Lemma check_digest_ok st now realm username password method uri :
  p_sl req = Some (PMSG_REQ method uri) →
  returns (check_digest_response st now req realm username password) (λ _, True).
Proof.
  intros E. unfold check_digest_response. destruct (get_header _ _) as [hdr|]; [|by apply returns_Ok].
  pose proof (parse_auth_header_safe hdr auth_zero) as H. specialize (H ltac:(unfold fits; simpl; lia)).
  destruct (parse_auth_header hdr auth_zero); try done; [|by apply returns_Ok]. rewrite E.
  cbv zeta. repeat (lazymatch goal with |- returns (if ?b then _ else _) _ => destruct b; [by apply returns_Ok|] end).
  by apply returns_Ok.
Qed.

Lemma challenge_ok st now m realm stale code :
  wf_secret st → (length realm < 128)%nat → no_nul realm → reply code m →
  returns (add_digest_challenge st now (v_random v) m realm stale)
    (λ p, reply code p.1.1.2 ∧ wf_secret p.1.2).
Proof.
  intros Hst Hl Hn Hm. unfold add_digest_challenge. destruct (Nat.leb_spec 128 (length realm)); [lia|].
  destruct (create_nonce st now (v_random v)) as [[nonce st'] r'] eqn:E.
  destruct (create_nonce_spec _ _ _ _ _ _ Hst E) as (_ & H2 & rnd & Hrnd & Hb & -> & Htok).
  pose proof (add_header_printf_reply code m (lit "WWW-Authenticate")
    (challenge_text realm (hex_string (PUT_32 now ++ rnd) ++
       RFC2617.H [hex_string (PUT_32 now ++ rnd); digest_secret st']) stale) Hm) as Ha.
  destruct (add_header_printf _ _ _) as [ok m']. apply returns_Ok. cbn [fst snd] in *. split; [|by intros _].
  apply Ha; [by repeat constructor|]. unfold challenge_text.
  assert (∀ l, Forall (λ x, 48 <= x <= 102) l → no_nul l) as Hh.
  { intros l H'. eapply Forall_impl; [exact H'|]. simpl. lia. }
  no_nul; [apply Hh, hex_string_chars, Forall_app; split; [apply PUT_32_bytes|done]|apply Hh, H_chars|].
  destruct stale; by repeat constructor.
Qed.

Lemma check_auth_ok st loc method uri :
  good locs st → is_Some (sv_conns (rt_server st) !! c) → wf_location (rt_server st) loc →
  p_sl req = Some (PMSG_REQ method uri) →
  returns (check_auth st c req loc v)
    (λ p, after locs c (rt_server st) p.2 ∧ sent c (rt_server st) (rt_server p.2) ∧ (p.1 = true → p.2 = st)).
Proof.
  intros Hg Hc (_ & Hr & Hn & _) Hsl. unfold check_auth.
  assert (after locs c (rt_server st) st ∧ sent c (rt_server st) (rt_server st)) as [Ha Hs]
    by (split; [done|by apply sent_refl]).
  destruct (lo_realm loc) as [|b realm] eqn:E; [by apply returns_Ok|]. rewrite <- E in *.
  unfold rtsp_verify_auth. eapply returns_bind; [by eapply check_digest_ok|]. intros ret _.
  destruct (0 <? ret); [by apply returns_Ok|]. cbv zeta.
  eapply returns_bind.
  { apply (challenge_ok _ _ _ _ _ 401); [apply Hg|done|done|]. apply create_reply_reply; [done|no_nul]. }
  intros [[[ok m] sec] r'] [Hm Hsec]. cbn [fst snd rt_server log_request rt_log] in *. eapply returns_bind.
  { eapply send_reply_ok; [apply Hg|done|exact Hm|lia|done]. }
  intros [b' sv] (H1 & H2 & H3). apply returns_Ok. cbn [fst snd] in *. by split_and!.
Qed.

Lemma handle_OPTIONS_ok st :
  good locs st → is_Some (sv_conns (rt_server st) !! c) →
  returns (handle_OPTIONS st c req v) (after locs c (rt_server st)).
Proof.
  intros Hg Hc. unfold handle_OPTIONS. cbv zeta. eapply returns_mono.
  { apply (finish_reply (log_request st 200 0) _ 200); [done|done| |lia|done].
    apply add_header_reply; [apply create_reply_reply; [done|no_nul]|no_nul..]. }
  by intros st' [H _].
Qed.
End requests.

(** ** Locations *)

(** The local path fits [path[256]]. *)
Definition path_fits (uri : list Z) : Prop :=
  match get_local_path uri with Some path => (length path < 256)%nat | None => True end.

Lemma split_track_length path : ((split_track path).2 <= length path)%nat.
Proof.
  unfold split_track. destruct (strrchr path 47) as [r|]; [|done]. destruct (strneq _ _ _); [|done].
  destruct (strtol _) as [n rest]. case_match; simpl; lia.
Qed.

Lemma node_find_location_ok locs path len :
  Forall (λ loc, length (lo_path loc) = 256%nat) locs → (len < 256)%nat →
  returns (node_find_location locs path len) (λ r, ∀ loc, r = Some loc → loc ∈ locs).
Proof.
  intros H Hlen. induction H as [|loc locs Hloc H IH]; [by apply returns_Ok|]. cbn [node_find_location].
  assert (returns (node_find_location locs path len) (λ r, ∀ loc', r = Some loc' → loc' ∈ loc :: locs)) as IH'.
  { eapply returns_mono; [exact IH|]. intros r Hr l' ->. right. by apply Hr. }
  destruct (strneq _ _ _); [|done]. destruct (lookup_lt_is_Some_2 (lo_path loc) len) as [ch Ech]; [lia|].
  rewrite (rd_Ok _ _ _ Ech), bind_Ok. destruct (_ || _); [|done]. apply returns_Ok. intros l' [= <-]. left.
Qed.

Lemma find_rtsp_location_ok locs sv uri want_base want_track :
  Forall (wf_location sv) locs → path_fits uri →
  returns (find_rtsp_location locs uri want_base want_track) (λ p, ∀ loc, p.1 = Some loc → wf_location sv loc).
Proof.
  intros H Hp. unfold find_rtsp_location, path_fits in *. destruct (get_local_path uri) as [path|]; [|by apply returns_Ok].
  assert (((if want_track then split_track path else ((-1)%Z, length path)).2 <= length path)%nat) as Hl.
  { destruct want_track; [apply split_track_length|done]. }
  destruct (if want_track then _ else _) as [track len]. cbn [fst snd] in *. cbv zeta.
  set (len' := if (1 <? len)%nat && _ then _ else _). assert (len' <= len)%nat as Hl' by (unfold len'; case_match; lia).
  destruct (Nat.leb_spec 256 len'); [lia|]. rewrite andb_false_r.
  eapply returns_bind; [apply node_find_location_ok; [|done]|].
  { eapply Forall_impl; [exact H|]. by intros loc (? & _). }
  intros r Hr. apply returns_Ok. cbn [fst]. intros loc E. rewrite Forall_forall in H. by apply H, Hr.
Qed.

(** ** The operations of sessions *)

Lemma opened_served locs c sv k src now :
  served locs sv → sv_sources sv !! k = Some src →
  served locs (opened sv k src now) ∧ serves c sv (opened sv k src now).
Proof.
  intros Hs E. assert (∀ k', lv_static <$> sv_sources (opened sv k src now) !! k' = lv_static <$> sv_sources sv !! k') as Hk.
  { intros k'. unfold opened. sv_cbn. destruct (decide (k' = k)) as [->|];
      [by rewrite lookup_insert_eq, E|by rewrite lookup_insert_ne]. }
  split.
  - apply (same_tracks_served _ _ _ Hs Hk); [apply opened_inv; [apply Hs|done]|apply opened_idle; try done; apply Hs|apply Hs..].
  - split; try done; [|eauto|unfold opened; sv_cbn; lia].
    intros cx Ecx. exists (cn_ring cx), (cn_proto_state cx). split; [by destruct cx|by left].
Qed.

Lemma closing_served locs c sv sv' :
  served locs sv → closing sv sv' → server_inv sv' → idle sv' nowhere → served locs sv' ∧ serves c sv sv'.
Proof.
  intros Hs Hc Hi Hd. split.
  - apply (same_tracks_served _ _ _ Hs); try done.
    + apply (cl_tracks _ _ Hc).
    + rewrite (cl_wire _ _ Hc). apply Hs.
    + intros e y E. eapply (se_eps _ _ Hs), (cl_eps _ _ Hc), E.
    + intros r y E. eapply (se_ids _ _ Hs), (cl_rtsps _ _ Hc), E.
  - split.
    + intros. by rewrite (cl_wire _ _ Hc).
    + intros cx E. exists (cn_ring cx), (cn_proto_state cx). rewrite (cl_wire _ _ Hc), E. split; [by destruct cx|by left].
    + intros rc. apply (cl_rconns _ _ Hc).
    + intros rc H. left. by apply (cl_rconns _ _ Hc).
    + by rewrite (cl_fresh _ _ Hc).
    + by rewrite (cl_wire _ _ Hc).
    + apply (cl_tracks _ _ Hc).
    + apply (cl_streams _ _ Hc).
Qed.

Lemma teardown_served locs c sv s ep :
  served locs sv → is_Some (sv_sessions sv !! s) →
  returns (live_teardown sv s ep) (λ sv', served locs sv' ∧ serves c sv sv').
Proof.
  intros Hs [x E]. destruct (live_teardown_ok sv s x ep) as (sv' & -> & H1 & H2 & H3 & _); [apply Hs..|done|].
  apply returns_Ok. by apply closing_served.
Qed.

Lemma set_up_served locs c sv s x t ep :
  served locs sv → server_inv (set_up sv s x t ep) → idle (set_up sv s x t ep) nowhere → fit_ep ep →
  served locs (set_up sv s x t ep) ∧ serves c sv (set_up sv s x t ep).
Proof.
  intros Hs Hi Hd Hq. split.
  - apply (same_tracks_served _ _ _ Hs); try done; [apply Hs| |apply Hs].
    intros e y. unfold set_up. sv_cbn. destruct (decide (e = sv_fresh sv)) as [->|Hne].
    + rewrite lookup_insert_eq. by intros [= <-].
    + rewrite lookup_insert_ne by done. apply Hs.
  - split; try done; [|eauto|unfold set_up; sv_cbn; lia].
    intros cx E. exists (cn_ring cx), (cn_proto_state cx). split; [by destruct cx|by left].
Qed.

Lemma live_setup_served locs c sv s x t v :
  served locs sv → sv_sessions sv !! s = Some x → ss_ep x !! t = Some None →
  returns (live_setup sv s t v) (λ p, served locs p.2 ∧ serves c sv p.2 ∧
    if p.1 then ∃ ep, ep_trans ep = RTP_TRANS_NONE ∧ p.2 = set_up sv s x t ep else p.2 = sv).
Proof.
  intros Hs E Et. destruct (live_setup_ok sv s x t v) as (ok & sv' & -> & H1 & H2 & H3); [apply Hs..|done|done|].
  apply returns_Ok. cbn [fst snd]. destruct ok; [|by subst].
  destruct H3 as (ep & k & src & Ht & Hq & Ek & Emax & ->).
  destruct (set_up_served locs c sv s x t ep) as [J1 J2]; try done; [|by eauto].
  split; [done|]. rewrite Emax. by apply (se_mtu _ _ Hs k).
Qed.

(** ** DESCRIBE *)

Lemma media_sdp_length payload m d :
  wf_media m → 0 <= payload < 2 ^ 31 → media_get_sdp payload 0 m = Some d → (length d <= 150)%nat.
Proof.
  intros Hm Hp. destruct m as [m|m]; cbn [media_get_sdp]; [by intros [= <-]; vm_compute; lia|].
  destruct Hm as [Hr Hc]. pose proof (dec_length _ Hr). pose proof (dec_length _ Hc).
  pose proof (dec_length payload ltac:(lia)).
  assert (∀ name, (length name <= 4)%nat → (length (rtpmap 0 payload name (ra_rate m) (ra_channels m)) <= 150)%nat) as Hl.
  { intros name Hn. unfold rtpmap. rewrite !length_app. change (length (dec 0)) with 1%nat.
    unfold lit. rewrite !length_map. cbn [list_ascii_of_string length]. lia. }
  unfold rawaudio_get_sdp. cbv zeta.
  repeat case_match; try done; intros E; injection E as E; subst d;
    lazymatch goal with
    | |- (length (rtpmap _ _ _ _ _) <= _)%nat => apply Hl; vm_compute; lia
    | |- _ => vm_compute; lia
    end.
Qed.

(** The tracks of a session nobody has set up: no endpoint is read. *)
Lemma sdp_tracks_ok sv trs n t text :
  Forall (λ tr, ∀ m, tr_rtp tr = Some m → wf_media m) trs → (t + length trs <= 1000)%nat →
  returns (sdp_tracks sv trs (replicate n None) t text)
    (λ r, ∀ k text', r = Some (k, text') → (length text' <= length text + 200 * length trs)%nat).
Proof.
  intros H. revert n t text. induction H as [|tr trs Htr H IH]; intros n t text Ht; cbn [sdp_tracks].
  { apply returns_Ok. intros k text' [= _ <-]. simpl. lia. }
  destruct n as [|n]; cbn [replicate]; [apply returns_Ok; intros k text' [= _ <-]; lia|].
  destruct (tr_rtp tr) as [m|] eqn:Em; [|apply returns_Ok; intros k text' [= _ <-]; lia].
  destruct (tr_ready tr); cbn [negb]; [|by apply returns_Ok]. cbn [udp_port]. rewrite bind_Ok.
  cbn [default from_option length] in *. cbv zeta.
  change (0 =? 0) with true. cbv iota.
  eapply returns_mono; [apply IH; lia|]. intros r Hr k text' E. specialize (Hr _ _ E). rewrite !length_app in Hr.
  pose proof (dec_length (Z.of_nat t) ltac:(lia)) as Hd.
  assert (length (match media_get_sdp (96 + Z.of_nat t) 0 m with Some d => text ++ d | None => removelast text end)
          <= length text + 150)%nat as Hs.
  { destruct (media_get_sdp _ _ _) as [d|] eqn:Es.
    - rewrite length_app. pose proof (media_sdp_length (96 + Z.of_nat t) m d (Htr _ eq_refl) ltac:(lia) Es). lia.
    - destruct text using rev_ind; [simpl; lia|]. rewrite removelast_last, length_app. lia. }
  change (length (lit "a=control:track")) with 15%nat in Hr. cbn [length] in Hr. lia.
Qed.

Lemma live_get_sdp_ok locs sv s x addr :
  served locs sv → sv_sessions sv !! s = Some x → ss_ep x = replicate MAX_TRACKS None →
  returns (live_get_sdp sv s addr 8190) (λ r, ∀ text, r = Some text → Z.of_nat (length text) < 8190).
Proof.
  intros Hs E Ex. unfold live_get_sdp, live_of. rewrite (deref_Ok _ _ _ E), bind_Ok.
  destruct (iv_session _ (se_inv _ _ Hs) _ _ E) as (_ & (ls & El & _) & _).
  rewrite (deref_Ok _ _ _ El), bind_Ok.
  destruct (iv_live _ (se_inv _ _ Hs) _ _ El) as (_ & src & Ek & _). rewrite (deref_Ok _ _ _ Ek), !bind_Ok.
  destruct (iv_source _ (se_inv _ _ Hs) _ _ Ek) as (_ & _ & Hl & _).
  assert (Forall (λ tr, ∀ m, tr_rtp tr = Some m → wf_media m) (lv_track src)) as Hm.
  { apply Forall_lookup. intros t tr Et m Em. by eapply (se_media _ _ Hs). }
  destruct (lv_track src) as [|tr0 trs] eqn:Et; [done|]. rewrite <- Et in *.
  rewrite (rd_Ok (lv_track src) 0 tr0) by (by rewrite Et). rewrite bind_Ok.
  destruct (tr_rtp tr0) as [m|]; [|by apply returns_Ok]. destruct (tr_ready tr0); cbn [negb]; [|by apply returns_Ok].
  rewrite Ex. rewrite (rd_Ok (replicate MAX_TRACKS None) 0 None) by done. rewrite bind_Ok. cbn [udp_port].
  rewrite bind_Ok. cbv zeta iota. eapply returns_bind; [apply sdp_tracks_ok; [done|rewrite Hl; unfold MAX_TRACKS; lia]|].
  intros [[k text]|] Hr; [|by apply returns_Ok]. specialize (Hr _ _ eq_refl). rewrite Hl in Hr.
  assert (length (sdp_head (lit "IP4 0.0.0.0")) <= 200)%nat by (vm_compute; lia). unfold MAX_TRACKS in Hr.
  destruct (Z.leb_spec 8190 (Z.of_nat (length text))); [lia|]. apply returns_Ok. by intros ? [= <-].
Qed.

Section handlers.
Context (locs : list rtsp_location) (c : nat) (req : pmsg) (v : env) (method uri : nat).
Hypothesis Hblock : ∀ n, length (v_block v n) = 512%nat.
Hypothesis Hsl : p_sl req = Some (PMSG_REQ method uri).
Hypothesis Hpath : path_fits (str_of req uri).

Lemma error_ok st n code reason sv :
  good locs st → serves c sv (rt_server st) → is_Some (sv_conns (rt_server st) !! c) → no_nul reason → 0 <= code < 2 ^ 31 →
  returns (rtsp_send_error st c req (v_block v n) code reason) (after locs c sv).
Proof.
  intros Hg Hs Hc Hr Hcode. eapply returns_mono; [by eapply (rtsp_send_error_ok locs c req v)|].
  intros st' [H _]. by eapply after_trans.
Qed.

Lemma serves_conn sv sv' : serves c sv sv' → is_Some (sv_conns sv !! c) → is_Some (sv_conns sv' !! c).
Proof. intros H [cx E]. destruct (sr_self _ _ _ H _ E) as (r & p & -> & _). done. Qed.

(** The end of DESCRIBE and of failed requests: the session is closed. *)
Lemma teardown_after st s ep sv :
  good locs st → serves c sv (rt_server st) → is_Some (sv_sessions (rt_server st) !! s) →
  returns (sv' ← live_teardown (rt_server st) s ep; Ok (with_server st sv')) (after locs c sv).
Proof.
  intros [Hg Hk] Hs Hx. eapply returns_bind; [by eapply (teardown_served locs c)|].
  intros sv' [H1 H2]. apply returns_Ok. split; [done|]. by etrans.
Qed.

Lemma describe_reply_ok st text :
  good locs st → is_Some (sv_conns (rt_server st) !! c) → Z.of_nat (length text) < 8190 →
  (length (str_of req uri) < 511)%nat →
  returns
    (let m := rtsp_create_reply (v_block v 0%nat) req 200 (lit "OK") in
     if (512 <=? length (str_of req uri) + 1)%nat then Undef else
     let m := (add_header m (lit "Content-Base") (str_of req uri ++ lit "/")).2 in
     let m := (add_header m (lit "Content-Type") (lit "application/sdp")).2 in
     let st := log_request st 200 (Z.of_nat (length text)) in
     '(sent, sv) ← send_reply (rt_server st) c m (Some (Z.of_nat (length text)));
     sv ← (if (sent : bool) then send_on sv c text else Ok sv);
     Ok (with_server st sv))
    (λ st', after locs c (rt_server st) st' ∧ sv_sessions (rt_server st') = sv_sessions (rt_server st)).
Proof.
  intros [Hg Hk] Hc Ht Hu. cbv zeta. destruct (Nat.leb_spec 512 (length (str_of req uri) + 1)); [lia|].
  eapply returns_bind.
  { eapply send_reply_ok; [exact Hg|done| |by instantiate (1 := 200)|by intros n [= <-]; lia].
    repeat (apply add_header_reply; [|by no_nul..]). apply create_reply_reply; [done|no_nul]. }
  intros [b sv] (H1 & H2 & H3). cbn [snd fst] in *. destruct (sent_same _ _ _ H3) as (E1 & _).
  destruct b; [|rewrite bind_Ok; apply returns_Ok; by split_and!].
  eapply returns_bind; [by eapply send_on_ok, serves_conn|].
  intros sv' (J1 & J2 & J3). destruct (sent_same _ _ _ J3) as (E2 & _). apply returns_Ok.
  split; [split; [done|by etrans]|]. cbn [rt_server with_server]. by rewrite E2, E1.
Qed.

Lemma handle_DESCRIBE_ok st :
  good locs st → conn_ok (rt_server st) c → (length (str_of req uri) < 511)%nat →
  returns (handle_DESCRIBE locs st c req v) (after locs c (rt_server st)).
Proof.
  intros Hg (cx & Ec & _) Hu. unfold handle_DESCRIBE, req_uri. rewrite Hsl, bind_Ok.
  assert (is_Some (sv_conns (rt_server st) !! c)) as Hc by done.
  eapply returns_bind; [eapply find_rtsp_location_ok; [apply Hg|done]|]. intros [[loc|] track] Hloc.
  2: { apply (error_ok st); try done; no_nul. }
  specialize (Hloc loc eq_refl). pose proof Hloc as (_ & _ & _ & [src Ek]). destruct Hg as [Hg Hsec].
  rewrite (live_open_eq _ _ _ _ Ek). destruct (_ <=? _); rewrite bind_Ok.
  { apply (error_ok st); try done; no_nul. }
  destruct (opened_served locs c (rt_server st) _ src (v_clock v 0%nat).1 Hg Ek) as [Hg1 Hs1].
  set (sv1 := opened _ _ _ _) in *. assert (is_Some (sv_conns sv1 !! c)) as Hc1 by (by eapply serves_conn).
  assert (sv_sessions sv1 !! S (sv_fresh (rt_server st)) =
    Some (MkSession (replicate MAX_TRACKS None) (sv_fresh (rt_server st)) None (lit "(unconnected)") (v_clock v 0%nat).1)) as Ex.
  { unfold sv1, opened. sv_cbn. by rewrite lookup_insert_eq. }
  set (s := S _) in *. set (x := MkSession _ _ _ _ _) in *.
  eapply returns_bind; [eapply (check_auth_ok locs c req v); [done|split; [exact Hg1|done]|done| |done]|].
  { destruct Hloc as (L1 & L2 & L3 & _). split_and!; try done.
    cbn. unfold sv1, opened. sv_cbn. rewrite lookup_insert_eq. done. }
  intros [[|] st2] (Ha2 & Hsent & Hst2); cbn [fst snd negb] in *.
  2: { apply returns_Ok. by eapply after_trans. }
  rewrite (Hst2 eq_refl) in *. cbn [rt_server with_server] in *.
  eapply returns_bind; [by eapply live_get_sdp_ok|]. intros sdp Hsdp.
  eapply (returns_bind _ (λ st', after locs c sv1 st' ∧ sv_sessions (rt_server st') = sv_sessions sv1)).
  - destruct sdp as [text|]; [apply (describe_reply_ok (with_server st sv1)); auto; by split|].
    eapply returns_mono; [eapply (rtsp_send_error_ok locs c req v); [done|split; [exact Hg1|done]|done|no_nul|lia]|].
    intros st' [H1 H2]. split; [done|]. by destruct (sent_same _ _ _ H2) as (-> & _).
  - intros st' ([Hg' Hs'] & Es). apply teardown_after; [done|by etrans|]. by rewrite Es, Ex.
Qed.
End handlers.

(** ** SETUP *)

(** Channel [i] is within the table and nobody's. *)
Definition free_at (tbl : list ichan) (i : nat) : Prop := ic_ep <$> tbl !! i = Some None.

Lemma chan_free_ok tbl i :
  (i < length tbl)%nat → returns (chan_free tbl i) (λ b, b = true → free_at tbl i).
Proof.
  intros Hi. destruct (lookup_lt_is_Some_2 tbl i Hi) as [x Ex]. unfold chan_free. rewrite (rd_Ok _ _ _ Ex), bind_Ok.
  apply returns_Ok. unfold free_at. rewrite Ex. by destruct (ic_ep x) eqn:E; intros; cbn; rewrite ?E.
Qed.

(** Both tests of a pair of channels. *)
Lemma pair_free_ok tbl i :
  (i + 1 < length tbl)%nat →
  returns (a ← chan_free tbl i; if (a : bool) then chan_free tbl (i + 1) else Ok false)
    (λ b, b = true → free_at tbl i ∧ free_at tbl (i + 1)).
Proof.
  intros Hi. eapply returns_bind; [apply chan_free_ok; lia|]. intros [|] Ha; [|by apply returns_Ok].
  eapply returns_mono; [apply chan_free_ok; lia|]. auto.
Qed.

Lemma free_pair_ok n tbl i :
  (i + 2 * n <= length tbl)%nat →
  returns (free_pair n tbl i) (λ r, ∀ j, r = Some j → free_at tbl j ∧ free_at tbl (j + 1)).
Proof.
  revert i. induction n as [|n IH]; intros i Hi; cbn [free_pair]; [by apply returns_Ok|].
  destruct (pair_free_ok tbl i ltac:(lia)) as (b & Eb & Hb). revert Eb.
  destruct (chan_free tbl i) as [a| | |]; try done. rewrite !bind_Ok. intros ->. rewrite bind_Ok.
  destruct b; [apply returns_Ok; intros j [= <-]; auto|]. apply IH. lia.
Qed.

Lemma pick_channels_ok rc t :
  (∀ tbl, rc = Some tbl → length tbl = MAX_INTERLEAVE_CHANNELS) →
  returns (pick_channels rc t) (λ r, ∀ i, r = Some i → (i + 1 < 8)%nat ∧
    ∀ tbl, rc = Some tbl → free_at tbl i ∧ free_at tbl (i + 1)).
Proof.
  intros Hl. unfold pick_channels. destruct (transport_number _ _) as [[n|]|]; [| |by apply returns_Ok].
  - destruct (_ || (8 <=? i32 (n + 1))) eqn:E; [by apply returns_Ok|].
    assert (0 <= n < 8 ∧ i32 (n + 1) < 8) as [Hn Hn'] by lia.
    assert (i32 (n + 1) = n + 1) as Hi by (unfold i32; rewrite Z.mod_small by lia; lia).
    rewrite Hi in Hn'. cbv zeta. destruct rc as [tbl|]; [|apply returns_Ok; intros i [= <-]; split; [lia|done]].
    specialize (Hl tbl eq_refl). unfold MAX_INTERLEAVE_CHANNELS in Hl.
    destruct (pair_free_ok tbl (Z.to_nat n) ltac:(lia)) as (b & Eb & Hb). revert Eb.
    destruct (chan_free tbl (Z.to_nat n)) as [a| | |]; try done. rewrite !bind_Ok. intros ->. rewrite bind_Ok.
    apply returns_Ok. destruct b; [|done]. intros i [= <-]. split; [lia|]. intros tbl' [= <-]. auto.
  - destruct rc as [tbl|]; [|apply returns_Ok; intros i [= <-]; split; [lia|done]].
    specialize (Hl tbl eq_refl). unfold MAX_INTERLEAVE_CHANNELS in Hl.
    eapply returns_mono; [apply free_pair_ok; lia|]. intros r Hr i Ei. destruct (Hr i Ei) as [H1 H2].
    split; [|by intros ? [= <-]]. unfold free_at in H2.
    destruct (tbl !! (i + 1)%nat) eqn:E; [|done]. apply lookup_lt_Some in E. lia.
Qed.

(** The connection gets its table of channels. *)
Lemma with_channels_served locs sv c cx junk :
  served locs sv → sv_conns sv !! c = Some cx → cn_proto_state cx = None →
  served locs (with_channels sv c cx junk) ∧ serves c sv (with_channels sv c cx junk).
Proof.
  intros Hs E Ep. destruct (with_channels_inv sv c cx junk) as [Hi Hd]; try done; [apply Hs..|].
  split.
  - apply (same_tracks_served _ _ _ Hs); try done; [|apply Hs..].
    intros c' cx'. unfold with_channels. sv_cbn. destruct (decide (c' = c)) as [->|Hne].
    + rewrite lookup_insert_eq. intros [= <-]. by apply (se_rings _ _ Hs c cx).
    + rewrite lookup_insert_ne by done. apply Hs.
  - split; try done; unfold with_channels; sv_cbn.
    + intros c' Hne. by rewrite lookup_insert_ne.
    + intros cx' E'. assert (cx' = cx) as -> by congruence. exists (cn_ring cx), (Some (sv_fresh sv)).
      rewrite !lookup_insert_eq. split; [by destruct cx|]. right. split; [done|]. exists (sv_fresh sv).
      by rewrite lookup_insert_eq.
    + intros rc [tbl Er]. destruct (decide (rc = sv_fresh sv)) as [->|Hne];
        [by rewrite lookup_insert_eq|by rewrite lookup_insert_ne, Er].
    + intros rc Hr. destruct (decide (rc = sv_fresh sv)) as [->|Hne]; [by right|left].
      by rewrite lookup_insert_ne in Hr.
    + lia.
Qed.

(** An endpoint changes; its statistics and packet size are kept. *)
Lemma set_ep_fit sv locs e y ep e' y' :
  served locs sv → sv_eps sv !! e = Some y → fit_ep ep →
  <[e := MkEndpoint (e_session y) ep]> (sv_eps sv) !! e' = Some y' → fit_ep (e_ep y').
Proof.
  intros Hs E Hf. destruct (decide (e' = e)) as [->|Hne].
  - rewrite lookup_insert_eq. by intros [= <-].
  - rewrite lookup_insert_ne by done. apply Hs.
Qed.

Lemma claimed_served locs sv c cx rc tbl i e y :
  served locs sv → sv_conns sv !! c = Some cx → cn_proto_state cx = Some rc → sv_rconns sv !! rc = Some tbl →
  sv_eps sv !! e = Some y → ep_trans (e_ep y) = RTP_TRANS_NONE → free_at tbl i → free_at tbl (i + 1) →
  let sv' := claimed sv c rc tbl i (i + 1) e y in served locs sv' ∧ serves c sv sv'.
Proof.
  intros Hs Ec Ep Er Ee Ht Ha Hb sv'.
  destruct (claimed_inv sv c cx rc tbl i (i + 1) e y) as [Hi Hd]; try done; [apply Hs|lia|apply Hs|]. split.
  - apply (same_tracks_served _ _ _ Hs); try done; [apply Hs| |apply Hs].
    intros e' y'. unfold sv', claimed. sv_cbn. eapply set_ep_fit; [done..|]. apply (se_eps _ _ Hs _ _ Ee).
  - split; try done; unfold sv', claimed; sv_cbn.
    + intros cx' E. exists (cn_ring cx'), (cn_proto_state cx'). split; [by destruct cx'|by left].
    + intros rc' [tbl' Er']. destruct (decide (rc' = rc)) as [->|Hne];
        [by rewrite lookup_insert_eq|by rewrite lookup_insert_ne, Er'].
    + intros rc' Hr. left. destruct (decide (rc' = rc)) as [->|Hne]; [by rewrite Er|by rewrite lookup_insert_ne in Hr].
Qed.

(** What setting up the transport of endpoint [e] gives. *)
Definition transported (locs : list rtsp_location) (c : nat) (sv : server) (r : option (server * list Z)) : Prop :=
  ∀ sv' trans, r = Some (sv', trans) → served locs sv' ∧ serves c sv sv' ∧ no_nul trans ∧
    sv_sessions sv' = sv_sessions sv ∧ sv_rtsps sv' = sv_rtsps sv.

Lemma rtsp_udp_setup_ok locs c sv e y t v :
  served locs sv → sv_eps sv !! e = Some y → ep_trans (e_ep y) = RTP_TRANS_NONE →
  returns (rtsp_udp_setup sv e t v) (transported locs c sv).
Proof.
  intros Hs E Ht. unfold rtsp_udp_setup. destruct (transport_number _ _) as [[cport|]|]; try by apply returns_Ok.
  rewrite (deref_Ok _ _ _ E), bind_Ok. unfold connect_udp_endpoint.
  destruct (find_port _ _ _ _ _) as [port f| |]; try by apply returns_Ok.
  destruct (_ || _); [by apply returns_Ok|]. destruct (s_getsockname _) as [p|]; [|by apply returns_Ok].
  apply returns_Ok. intros sv' trans H. injection H as H1 H2. rewrite <- H1, <- H2.
  set (ep := MkEp _ _ _ _ _ _ _ _ _ _ _ _ _ _ _ _). split; [|split; [|split; [unfold udp_transport; no_nul|done]]].
  - apply (same_tracks_served _ _ _ Hs); try done; [| |apply Hs| |apply Hs].
    + apply set_ep_inv; [apply Hs|done|]. unfold channels_of. by rewrite Ht.
    + apply set_ep_idle, Hs.
    + intros e' y'. sv_cbn. eapply set_ep_fit; [done..|]. apply (se_eps _ _ Hs _ _ E).
  - split; try done; sv_cbn; [|auto]. intros cx' E'. exists (cn_ring cx'), (cn_proto_state cx').
    split; [by destruct cx'|by left].
Qed.

(** The channels found are claimed for [e]. *)
Lemma claim_ok locs c sv cx rc tbl i e y :
  served locs sv → sv_conns sv !! c = Some cx → cn_proto_state cx = Some rc → sv_rconns sv !! rc = Some tbl →
  sv_eps sv !! e = Some y → ep_trans (e_ep y) = RTP_TRANS_NONE → free_at tbl i → free_at tbl (i + 1) →
  returns (cx ← deref (sv_conns sv) c;
           match cn_proto_state cx with
           | None => Undef
           | Some p =>
               tbl ← deref (sv_rconns sv) p;
               tbl ← wr tbl i (MkIchan (Some e) false);
               tbl ← wr tbl (i + 1) (MkIchan (Some e) true);
               let sv := with_rconns sv (<[p := tbl]> (sv_rconns sv)) in
               y ← deref (sv_eps sv) e;
               Ok (Some (set_ep sv e (MkEndpoint (e_session y)
                           (connect_interleaved_endpoint (e_ep y) c (Z.of_nat i) (Z.of_nat (i + 1)))),
                         inter_transport i))
           end) (transported locs c sv).
Proof.
  intros Hs Ec Ep Er Ee Ht Ha Hb. rewrite (deref_Ok _ _ _ Ec), bind_Ok, Ep, (deref_Ok _ _ _ Er), bind_Ok.
  assert ((i < length tbl)%nat ∧ (i + 1 < length tbl)%nat) as [Hi1 Hi2].
  { unfold free_at in *. split; apply lookup_lt_is_Some_1; [by destruct (tbl !! i)|by destruct (tbl !! (i + 1)%nat)]. }
  rewrite wr_Ok, bind_Ok, wr_Ok, bind_Ok by (by rewrite ?length_insert). cbv zeta. sv_cbn.
  rewrite (deref_Ok _ _ _ Ee), bind_Ok. apply returns_Ok. intros sv' trans H. injection H as H1 H2.
  rewrite <- H1, <- H2. destruct (claimed_served locs sv c cx rc tbl i e y) as [J1 J2]; try done.
  split; [exact J1|]. split; [exact J2|]. split; [unfold inter_transport; no_nul|done].
Qed.

Lemma transported_trans locs c sv sv1 r :
  serves c sv sv1 → sv_sessions sv1 = sv_sessions sv → sv_rtsps sv1 = sv_rtsps sv →
  transported locs c sv1 r → transported locs c sv r.
Proof.
  intros Hs E1 E2 H sv' trans Hr. destruct (H sv' trans Hr) as (H1 & H2 & H3 & H4 & H5).
  split; [done|]. split; [by etrans|]. split; [done|]. by rewrite H4, H5.
Qed.

Lemma rtsp_interleave_setup_ok locs c sv e y t v :
  served locs sv → conn_ok sv c → sv_eps sv !! e = Some y → ep_trans (e_ep y) = RTP_TRANS_NONE →
  returns (rtsp_interleave_setup sv c e t v) (transported locs c sv).
Proof.
  intros Hs (cx & Ec & Hrc) E Ht. unfold rtsp_interleave_setup. rewrite (deref_Ok _ _ _ Ec), bind_Ok.
  destruct (cn_proto_state cx) as [rc|] eqn:Ep.
  - destruct (Hrc rc eq_refl) as [tbl Er]. rewrite (deref_Ok _ _ _ Er), !bind_Ok.
    eapply returns_bind; [apply pick_channels_ok|].
    { intros ? [= <-]. by destruct (iv_rconn _ (se_inv _ _ Hs) _ _ Er). }
    intros [i|] Hi; [|by apply returns_Ok]. destruct (Hi i eq_refl) as [_ Hf]. destruct (Hf tbl eq_refl) as [F1 F2].
    by eapply claim_ok.
  - rewrite bind_Ok. eapply returns_bind; [by apply pick_channels_ok|].
    intros [i|] Hi; [|by apply returns_Ok]. destruct (Hi i eq_refl) as [Hb _].
    destruct (with_channels_served locs sv c cx (v_junk_rtcp v) Hs Ec Ep) as [Hs1 Hv1]. cbv zeta.
    eapply returns_mono; [|intros r Hr; eapply transported_trans; [exact Hv1|done|done|exact Hr]].
    assert (∀ j, (j < 8)%nat →
      free_at (replicate MAX_INTERLEAVE_CHANNELS (MkIchan None (v_junk_rtcp v))) j) as Hf.
    { intros j Hj. unfold free_at. by rewrite lookup_replicate_2. }
    eapply (claim_ok _ _ _ (with_proto_state cx (Some (sv_fresh sv))) (sv_fresh sv)); try done.
    + unfold with_channels. sv_cbn. apply lookup_insert_eq.
    + unfold with_channels. sv_cbn. apply lookup_insert_eq.
    + apply Hf. lia.
    + apply Hf. lia.
Qed.

Lemma rtsp_transport_setup_ok locs c sv e y t v :
  served locs sv → conn_ok sv c → sv_eps sv !! e = Some y → ep_trans (e_ep y) = RTP_TRANS_NONE →
  returns (rtsp_transport_setup sv c e t v) (transported locs c sv).
Proof.
  intros Hs Hc E Ht. unfold rtsp_transport_setup. destruct (strncaseeq _ _ 11); [by eapply rtsp_interleave_setup_ok|].
  destruct (_ || _); [by eapply rtsp_udp_setup_ok|by apply returns_Ok].
Qed.

(** ** The session of a SETUP *)

Lemma find_session_ok sv l id :
  (∀ r, r ∈ l → is_Some (sv_rtsps sv !! r)) →
  returns (find_session sv l id) (λ r, ∀ rs, r = Some rs → ∃ y, sv_rtsps sv !! rs = Some y ∧ rs_id y = id).
Proof.
  induction l as [|r l IH]; intros Hl; cbn [find_session]; [by apply returns_Ok|].
  destruct (Hl r) as [y Ey]; [left|]. rewrite (deref_Ok _ _ _ Ey), bind_Ok. unfold streq.
  case_bool_decide; [apply returns_Ok; intros rs [= <-]; eauto|]. apply IH. intros r' Hr'. apply Hl. by right.
Qed.

Lemma get_session_ok sv id :
  server_inv sv →
  returns (get_session sv id) (λ r, ∀ rs, r = Some rs → ∃ y, sv_rtsps sv !! rs = Some y ∧ Some (rs_id y) = id).
Proof.
  intros Hi. destruct id as [id|]; cbn [get_session]; [|by apply returns_Ok].
  eapply returns_mono; [apply find_session_ok; intros r; by apply (iv_rtsp_list _ Hi)|].
  intros r Hr rs ->. destruct (Hr rs eq_refl) as (y & Ey & <-). eauto.
Qed.

(** A session to set a track up in, its name known or not. *)
Definition ready_session (locs : list rtsp_location) (c : nat) (sv : server) (s : nat) (rs : option nat) (sv' : server) : Prop :=
  served locs sv' ∧ serves c sv sv' ∧ ∃ x, sv_sessions sv' !! s = Some x ∧
    match rs with None => ss_control x = None | Some r => is_Some (sv_rtsps sv' !! r) end.

Lemma setup_session_ok locs c st req loc v :
  good locs st → is_Some (sv_conns (rt_server st) !! c) → wf_location (rt_server st) loc →
  returns (setup_session st c req loc v)
    (λ r, match r with
          | inl (s, rs, sv) => ready_session locs c (rt_server st) s rs sv
          | inr (code, reason) => no_nul reason ∧ 0 <= code < 2 ^ 31
          end).
Proof.
  intros [Hg Hk] [cx Ec] (_ & _ & _ & [src Ek]). unfold setup_session. destruct (get_header _ _) as [id|].
  - eapply returns_bind; [apply get_session_ok, Hg|]. intros [rs|] Hr; [|apply returns_Ok; split; [no_nul|lia]].
    destruct (Hr rs eq_refl) as (y & Ey & _). rewrite (deref_Ok _ _ _ Ey), bind_Ok. apply returns_Ok.
    destruct (iv_rtsp _ (se_inv _ _ Hg) _ _ Ey) as (x & Ex & _). split; [done|]. split; [done|]. eauto.
  - rewrite (live_open_eq _ _ _ _ Ek). destruct (_ <=? _); rewrite bind_Ok; [apply returns_Ok; split; [no_nul|lia]|].
    destruct (opened_served locs c (rt_server st) _ src (v_clock v 0%nat).1 Hg Ek) as [Hg1 Hs1].
    set (sv1 := opened _ _ _ _) in *. rewrite (deref_Ok _ c cx) by done. rewrite bind_Ok.
    assert (∃ x, sv_sessions sv1 !! S (sv_fresh (rt_server st)) = Some x ∧ ss_control x = None) as (x & Ex & Hx).
    { unfold sv1, opened. sv_cbn. rewrite lookup_insert_eq. by eexists. }
    rewrite (deref_Ok _ _ _ Ex), bind_Ok. apply returns_Ok.
    destruct (set_session_inv sv1 (S (sv_fresh (rt_server st))) x (ss_control x) (lit "IP4 " ++ cn_addr cx)
      (ss_open_time x) (sv_rtsps sv1) (sv_rtsp_list sv1) (sv_fresh sv1)) as [Hi Hd];
      [apply Hg1|done|lia|apply (iv_fresh _ (se_inv _ _ Hg1))|apply (iv_rtsp_list _ (se_inv _ _ Hg1))|by rewrite Hx| |done|].
    { intros r y Ey. right. split; [|done]. intros Es. destruct (iv_rtsp _ (se_inv _ _ Hg1) _ _ Ey) as (x' & Ex' & Hc').
      rewrite Es in Ex'. congruence. }
    split; [|split].
    + apply (same_tracks_served _ _ _ Hg1); try done; [apply Hd, Hg1|apply Hg1..].
    + etrans; [exact Hs1|]. split; try done; [|auto]. intros cx' E'. exists (cn_ring cx'), (cn_proto_state cx').
      split; [by destruct cx'|by left].
    + eexists. sv_cbn. rewrite lookup_insert_eq. split; [done|]. by rewrite Hx.
Qed.

Lemma named_served locs c sv s x id :
  served locs sv → sv_sessions sv !! s = Some x → ss_control x = None → no_nul id →
  served locs (named sv s x id) ∧ serves c sv (named sv s x id).
Proof.
  intros Hs E Hx Hid. destruct (named_inv sv s x id) as [Hi Hd]; try done; [apply Hs..|]. split.
  - apply (same_tracks_served _ _ _ Hs); try done; [apply Hs..|]. intros r y. unfold named. sv_cbn.
    destruct (decide (r = sv_fresh sv)) as [->|Hne]; [rewrite lookup_insert_eq; by intros [= <-]|].
    rewrite lookup_insert_ne by done. apply Hs.
  - split; try done; unfold named; sv_cbn; [|auto|lia]. intros cx E'. exists (cn_ring cx), (cn_proto_state cx).
    split; [by destruct cx|by left].
Qed.

Section more_handlers.
Context (locs : list rtsp_location) (c : nat) (req : pmsg) (v : env) (method uri : nat).
Hypothesis Hblock : ∀ n, length (v_block v n) = 512%nat.
Hypothesis Hsl : p_sl req = Some (PMSG_REQ method uri).
Hypothesis Hpath : path_fits (str_of req uri).

Lemma setup_reply_ok st s rs x m trans :
  good locs st → is_Some (sv_conns (rt_server st) !! c) → sv_sessions (rt_server st) !! s = Some x →
  match rs with None => ss_control x = None | Some r => is_Some (sv_rtsps (rt_server st) !! r) end →
  reply 200 m → no_nul trans →
  returns (setup_reply st c s rs m trans v) (after locs c (rt_server st)).
Proof.
  intros [Hg Hk] Hc Ex Hrs Hm Ht. unfold setup_reply. cbv zeta.
  eapply (returns_bind _ (λ p, served locs p.2 ∧ serves c (rt_server st) p.2 ∧ is_Some (sv_rtsps p.2 !! p.1))).
  - destruct rs as [r|]; [by apply returns_Ok|]. rewrite (new_rtsp_session_ok _ _ _ _ Ex). apply returns_Ok. cbn [fst snd].
    destruct (named_served locs c (rt_server st) s x (random_id (advance (v_random v) 10) 30).1) as [H1 H2]; try done.
    { apply random_id_no_nul. }
    split; [done|]. split; [done|]. unfold named. sv_cbn. by rewrite lookup_insert_eq.
  - intros [r sv] (H1 & H2 & [y Ey]). cbn [fst snd] in *. rewrite (deref_Ok _ _ _ Ey), bind_Ok.
    eapply returns_mono.
    { apply (finish_reply locs c (log_request (with_server st sv) 200 0) _ 200);
        [by split|by eapply serves_conn| |lia|done].
      repeat apply add_header_reply; try done; try no_nul. by apply (se_ids _ _ H1 _ _ Ey). }
    intros st' [Ha _]. by eapply after_trans.
Qed.

(** A track of the session is set up: transport, name and reply, or an error. *)
Lemma setup_track_ok st s rs x t tr :
  good locs st → conn_ok (rt_server st) c → sv_sessions (rt_server st) !! s = Some x →
  match rs with None => ss_control x = None | Some r => is_Some (sv_rtsps (rt_server st) !! r) end →
  ss_ep x !! tr = Some None →
  returns
    ('(ok, sv) ← live_setup (rt_server st) s tr v;
     let st := with_server st sv in
     if negb (ok : bool) then
       st ← rtsp_send_error st c req (v_block v 1%nat) 404 (lit "Not Found");
       match rs with
       | None => sv ← live_teardown (rt_server st) s None; Ok (with_server st sv)
       | Some _ => Ok st
       end
     else
       let m := rtsp_create_reply (v_block v 0%nat) req 200 (lit "OK") in
       x ← deref (sv_sessions sv) s;
       ep ← rd (ss_ep x) tr;
       match ep with
       | None => Undef
       | Some e =>
           r ← rtsp_transport_setup sv c e t v;
           match r with
           | None =>
               st ← rtsp_send_error st c req (v_block v 1%nat) 461 (lit "Unsupported Transport");
               sv ← live_teardown (rt_server st) s (Some e);
               Ok (with_server st sv)
           | Some (sv, trans) => setup_reply (with_server st sv) c s rs m trans v
           end
       end) (after locs c (rt_server st)).
Proof.
  intros [Hg Hk] Hc Ex Hrs Et. eapply returns_bind; [by apply (live_setup_served locs c)|].
  intros [[|] sv] (Hg1 & Hs1 & H1); cbn [fst snd negb] in *; cbv zeta.
  - destruct H1 as (ep & Hnone & ->). set (sv1 := set_up _ _ _ _ _) in *.
    assert (sv_sessions sv1 !! s = Some (with_track x tr (sv_fresh (rt_server st)))) as Ex1.
    { unfold sv1, set_up. sv_cbn. by rewrite lookup_insert_eq. }
    assert (sv_eps sv1 !! sv_fresh (rt_server st) = Some (MkEndpoint s ep)) as Ee.
    { unfold sv1, set_up. sv_cbn. by rewrite lookup_insert_eq. }
    rewrite (deref_Ok _ _ _ Ex1), bind_Ok, (rd_Ok _ _ (Some (sv_fresh (rt_server st)))), bind_Ok.
    2: { cbn. apply list_lookup_insert_eq. by eapply lookup_lt_Some. }
    assert (is_Some (sv_conns sv1 !! c)) as Hc1 by (eapply serves_conn; [exact Hs1|by destruct Hc as (? & -> & _)]).
    eapply returns_bind; [by apply (rtsp_transport_setup_ok locs c sv1 _ (MkEndpoint s ep)); eauto using serves_conn_ok|].
    intros [[sv2 trans]|] Ht.
    + destruct (Ht _ _ eq_refl) as (Hg2 & Hs2 & Hn & E1 & E2). eapply returns_mono.
      { apply (setup_reply_ok (with_server st sv2) s rs (with_track x tr (sv_fresh (rt_server st)))); try done.
        - eapply serves_conn; [exact Hs2|done].
        - cbn. by rewrite E1.
        - destruct rs as [r|]; [|done]. cbn. by rewrite E2.
        - apply create_reply_reply; [done|no_nul]. }
      intros st' Ha. eapply after_trans; [|exact Ha]. by etrans.
    + eapply returns_bind; [apply (rtsp_send_error_ok locs c req v Hblock (with_server st sv1)); try done; no_nul|].
      intros st' [[Hg' Hs'] Hsent]. destruct (sent_same _ _ _ Hsent) as (E & _).
      apply teardown_after; [done|by etrans|]. rewrite E. cbn [rt_server with_server]. by rewrite Ex1.
  - subst sv. destruct Hc as (cx & Ec & Hc).
    eapply returns_bind; [apply (rtsp_send_error_ok locs c req v Hblock (with_server st (rt_server st))); try done; no_nul|].
    intros st' [[Hg' Hs'] Hsent]. destruct (sent_same _ _ _ Hsent) as (E & _).
    destruct rs as [r|]; [by apply returns_Ok|]. apply teardown_after; [done|done|]. rewrite E. cbn [rt_server with_server]. by rewrite Ex.
Qed.

Lemma handle_SETUP_ok st :
  good locs st → conn_ok (rt_server st) c → returns (handle_SETUP locs st c req v) (after locs c (rt_server st)).
Proof.
  intros Hg Hc. unfold handle_SETUP, req_uri. rewrite Hsl, bind_Ok.
  assert (is_Some (sv_conns (rt_server st) !! c)) as Hc1 by (by destruct Hc as (? & -> & _)). cbv zeta.
  eapply returns_bind; [eapply find_rtsp_location_ok; [apply Hg|done]|]. intros [[loc|] track] Hloc.
  2: { apply (error_ok locs c req v); try done; no_nul. }
  specialize (Hloc loc eq_refl). destruct (_ || _) eqn:Et; [apply (error_ok locs c req v); try done; no_nul|].
  apply orb_false_iff in Et as [Et1%Z.ltb_ge Et2%Z.leb_gt].
  eapply returns_bind; [by eapply (check_auth_ok locs c req v)|]. intros [[|] st1] (Ha1 & Hsent & Hst); cbn [fst snd negb] in *.
  2: { by apply returns_Ok. }
  rewrite (Hst eq_refl) in *. clear Hst Ha1 Hsent.
  destruct (get_header req (lit "Transport")) as [t|]; [|apply (error_ok locs c req v); try done; no_nul].
  eapply returns_bind; [by apply (setup_session_ok locs c)|]. intros [[[s rs] sv]|[code reason]] Hr.
  2: { destruct Hr. by apply (error_ok locs c req v). }
  destruct Hr as (Hg1 & Hs1 & x & Ex & Hx). rewrite (deref_Ok _ _ _ Ex), bind_Ok.
  destruct (iv_session _ (se_inv _ _ Hg1) _ _ Ex) as (Hl & _).
  destruct (lookup_lt_is_Some_2 (ss_ep x) (Z.to_nat track)) as [ep Eep]; [lia|].
  rewrite (rd_Ok _ _ _ Eep), bind_Ok. destruct Hg as [_ Hk].
  assert (conn_ok sv c) as Hc2 by (eapply serves_conn_ok; [exact Hs1|exact Hc]).
  destruct ep as [e|].
  - apply (error_ok locs c req v Hblock (with_server st sv)); try done; [|no_nul].
    destruct Hc2 as (cx & Ecx & _). by exists cx.
  - eapply returns_mono; [by apply (setup_track_ok (with_server st sv) s rs x t (Z.to_nat track))|].
    intros st' Ha. by eapply after_trans.
Qed.
End more_handlers.

(** ** PLAY, PAUSE, TEARDOWN *)

Lemma live_play_served locs c sv s :
  served locs sv → is_Some (sv_sessions sv !! s) →
  returns (live_play sv s) (λ sv', served locs sv' ∧ serves c sv sv').
Proof.
  intros Hs [x Ex]. destruct (iv_session _ (se_inv _ _ Hs) _ _ Ex) as (_ & (ls & El & _) & _).
  destruct (iv_live _ (se_inv _ _ Hs) _ _ El) as (_ & src & Ek & _).
  destruct (live_play_ok sv s x ls src) as (w & -> & H1 & H2 & H3 & _); try done; [apply Hs..|].
  apply returns_Ok. set (sv' := with_streams _ _) in *.
  assert (∀ k, lv_static <$> sv_sources sv' !! k = lv_static <$> sv_sources sv !! k) as Hk.
  { intros k. unfold sv', played. sv_cbn. destruct (decide (k = ls_source ls)) as [->|Hne];
      [by rewrite lookup_insert_eq, Ek|by rewrite lookup_insert_ne]. }
  split; [by apply (same_tracks_served _ _ _ Hs); try done; apply Hs|].
  split; try done; unfold sv', played; sv_cbn; [|auto]. intros cx E'. exists (cn_ring cx), (cn_proto_state cx).
  split; [by destruct cx|by left].
Qed.

Lemma named_session_ok locs st req :
  good locs st →
  returns (named_session st req) (λ r, ∀ rs y, r = Some (rs, y) →
    sv_rtsps (rt_server st) !! rs = Some y ∧ is_Some (sv_sessions (rt_server st) !! rs_sess y) ∧ no_nul (rs_id y)).
Proof.
  intros [Hg _]. unfold named_session. eapply returns_bind; [apply get_session_ok, Hg|].
  intros [rs|] Hr; [|by apply returns_Ok]. destruct (Hr rs eq_refl) as (y & Ey & _).
  rewrite (deref_Ok _ _ _ Ey), bind_Ok. apply returns_Ok. intros rs' y' H. injection H as H1 H2. subst rs' y'.
  destruct (iv_rtsp _ (se_inv _ _ Hg) _ _ Ey) as (x & -> & _). split; [done|]. split; [done|]. by apply (se_ids _ _ Hg _ _ Ey).
Qed.

Section session_handlers.
Context (locs : list rtsp_location) (c : nat) (req : pmsg) (v : env) (method uri : nat).
Hypothesis Hblock : ∀ n, length (v_block v n) = 512%nat.
Hypothesis Hsl : p_sl req = Some (PMSG_REQ method uri).
Hypothesis Hpath : path_fits (str_of req uri).

Lemma handle_PLAY_ok st :
  good locs st → is_Some (sv_conns (rt_server st) !! c) →
  returns (handle_PLAY st c req v) (after locs c (rt_server st)).
Proof.
  intros Hg Hc. unfold handle_PLAY. eapply returns_bind; [by apply (named_session_ok locs)|]. intros [[rs y]|] Hr.
  2: { apply (error_ok locs c req v); try done; no_nul. }
  destruct (Hr rs y eq_refl) as (Ey & Hx & Hid). destruct Hg as [Hg Hk]. cbv zeta.
  eapply returns_bind; [by apply (live_play_served locs c)|]. intros sv [Hg1 Hs1].
  change (0 <=? -10000) with false. rewrite andb_false_r, bind_Ok. eapply returns_mono.
  { apply (finish_reply locs c (log_request (with_server st sv) 200 0) _ 200); [done|by eapply serves_conn| |lia|done].
    apply add_header_reply; [|no_nul..]. apply create_reply_reply; [done|no_nul]. }
  intros st' [Ha _]. by eapply after_trans.
Qed.

Lemma handle_PAUSE_ok st :
  good locs st → is_Some (sv_conns (rt_server st) !! c) →
  returns (handle_PAUSE st c req v) (after locs c (rt_server st)).
Proof.
  intros Hg Hc. unfold handle_PAUSE. eapply returns_bind; [by apply (named_session_ok locs)|].
  intros [[rs y]|] _; apply (error_ok locs c req v); try done; no_nul.
Qed.

Lemma handle_TEARDOWN_ok st :
  good locs st → is_Some (sv_conns (rt_server st) !! c) →
  returns (handle_TEARDOWN locs st c req v) (after locs c (rt_server st)).
Proof.
  intros Hg Hc. unfold handle_TEARDOWN, req_uri. rewrite Hsl, bind_Ok. cbv zeta.
  eapply returns_bind; [eapply find_rtsp_location_ok; [apply Hg|done]|]. intros [[loc|] track] _.
  2: { apply (error_ok locs c req v); try done; no_nul. }
  destruct (Z.leb_spec (Z.of_nat MAX_TRACKS) track); [apply (error_ok locs c req v); try done; no_nul|].
  eapply returns_bind; [by apply (named_session_ok locs)|]. intros [[rs y]|] Hr.
  2: { apply (error_ok locs c req v); try done; no_nul. }
  destruct (Hr rs y eq_refl) as (Ey & [x Ex] & Hid). destruct Hg as [Hg Hk].
  eapply (returns_bind _ (λ _, True)).
  { destruct (Z.ltb_spec track 0); [by apply returns_Ok|]. rewrite (deref_Ok _ _ _ Ex), bind_Ok.
    destruct (iv_session _ (se_inv _ _ Hg) _ _ Ex) as (Hl & _).
    destruct (lookup_lt_is_Some_2 (ss_ep x) (Z.to_nat track)) as [ep Eep]; [lia|]. rewrite (rd_Ok _ _ _ Eep).
    by apply returns_Ok. }
  intros ep _. eapply returns_bind; [by apply (teardown_served locs c)|]. intros sv [Hg1 Hs1]. eapply returns_mono.
  { apply (finish_reply locs c (log_request (with_server st sv) 200 0) _ 200); [done|by eapply serves_conn| |lia|done].
    apply add_header_reply; [|no_nul..]. apply create_reply_reply; [done|no_nul]. }
  intros st' [Ha _]. by eapply after_trans.
Qed.

Lemma rtsp_handle_msg_ok st :
  good locs st → conn_ok (rt_server st) c → (length (str_of req uri) < 511)%nat →
  returns (rtsp_handle_msg locs st c req v) (after locs c (rt_server st)).
Proof.
  intros Hg Hc Hu. assert (is_Some (sv_conns (rt_server st) !! c)) as Hc1 by (by destruct Hc as (? & -> & _)).
  unfold rtsp_handle_msg, req_method. rewrite Hsl, bind_Ok.
  destruct (strcaseeq _ (lit "OPTIONS")); [by apply handle_OPTIONS_ok|].
  destruct (strcaseeq _ (lit "DESCRIBE")); [by eapply handle_DESCRIBE_ok|].
  destruct (strcaseeq _ (lit "SETUP")); [by eapply handle_SETUP_ok|].
  destruct (strcaseeq _ (lit "PLAY")); [by apply handle_PLAY_ok|].
  destruct (strcaseeq _ (lit "PAUSE")); [by apply handle_PAUSE_ok|].
  destruct (strcaseeq _ (lit "TEARDOWN")); [by apply handle_TEARDOWN_ok|].
  apply (error_ok locs c req v); try done; no_nul.
Qed.
End session_handlers.
