(* ===== verification/Live.v ===== *)
(** * Frames to sessions ([live.c], [rtp.c])

    A frame that reaches a track of a live source is prepared by the track's medium and
    sent to every session that plays the track.  Sending may end a session -- its client
    is gone or silent -- while the list of sessions is being walked.  Also the events of an
    endpoint.  The network is the [wire] of the
    server: datagrams, and the send buffers of the connections. *)

From Stdlib Require Import String.
From S2P Require Import Prelude CString Pmsg HttpAuth SendBuf Frame Stream Rtcp Rtp RtpMedia Server ServerInv ServerOps Reply Rtsp.

Local Open Scope Z_scope.
Local Open Scope c_scope.

(** ** The network of the server *)

(** Each [sendmsg] takes the next result; each interleaved packet takes the next list of
    results of [write], for the flush it may need. *)
#[export] Instance wire_transport : Transport wire := {|
  udp_send w fd d :=
    let ok := wi_udp w 0%nat in
    Ok (ok, MkWire (wi_conns w) (λ n, wi_udp w (S n)) (wi_writes w)
              (if ok then wi_log w ++ [(Socket fd, d)] else wi_log w));
  inter_send w c chan v :=
    cx ← deref (wi_conns w) c;
    '(ok, r, _) ← interleave_send (wi_writes w 0%nat) (cn_ring cx) chan v;
    Ok (MkWire (<[c := with_ring cx r]> (wi_conns w)) (wi_udp w) (λ n, wi_writes w (S n))
          (if (ok : bool) then wi_log w ++ [(Channel c chan, concat v)] else wi_log w));
  packets := wi_log |}.

#[export] Instance wire_laws : TransportLaws wire.
Proof.
  split.
  - intros w fd d ok w' [= <- <-]. cbn. destruct (wi_udp w 0%nat); [done|by rewrite app_nil_r].
  - intros w c chan v w'. cbn [inter_send wire_transport packets].
    destruct (deref (wi_conns w) c) as [cx| | |]; try done. rewrite bind_Ok.
    destruct (interleave_send _ _ _ _) as [[[ok r] out]| | |]; try done. rewrite bind_Ok. intros [= <-].
    destruct ok; [by right|by left].
Qed.

(** ** A frame *)

(** What the media read of a frame: its bytes, [length], its timestamp, and the clock. *)
Record live_frame := MkLiveFrame { lf_d : list Z; lf_length : Z; lf_timestamp : Z; lf_now_ms : Z }.

(** [rtp->frame] and [rtp->send] of the two media. *)
Definition media_frame (m : media) (f : live_frame) : outcome (bool * media) :=
  match m with
  | MediaJpeg m => '(ok, m) ← jpeg_process_frame (lf_d f) (lf_length f) (lf_now_ms f) m; Ok (ok, MediaJpeg m)
  | MediaRaw m => let '(ok, m) := rawaudio_process_frame (lf_d f) (lf_length f) (lf_timestamp f) m in Ok (ok, MediaRaw m)
  end.

Definition media_send {N} `{Transport N} (n : N) (ep : rtp_endpoint) (m : media) (cs : nat → clock)
    : outcome (sent * rtp_endpoint * N) :=
  match m with
  | MediaJpeg m => jpeg_send n ep m cs
  | MediaRaw m => rawaudio_send n ep m cs
  end.

(** What an operation on endpoint [e] leaves; a failure ends in [session->teardown]. *)
Definition ep_done (sv : server) (e : nat) (y : endpoint) (r : sent) (ep : rtp_endpoint) (w : wire) : outcome server :=
  let sv := set_ep (with_wire sv w) e (MkEndpoint (e_session y) ep) in
  match r with
  | Sent => Ok sv
  | TornDown => live_teardown sv (e_session y) (Some e)
  end.

Definition send_live (sv : server) (e : nat) (m : media) (cs : nat → clock) : outcome server :=
  y ← deref (sv_eps sv) e;
  '(r, ep, w) ← media_send (sv_wire sv) (e_ep y) m cs;
  ep_done sv e y r ep w.

(** [ls->next] of a session in the list of its source. *)
Fixpoint next_in (l : list nat) (p : nat) : outcome (option nat) :=
  match l with
  | [] => Undef
  | q :: l => if (q =? p)%nat then Ok (head l) else next_in l p
  end.

(** The loop over the sessions of source [k]: [next] is read before the frame is sent. *)
Fixpoint live_sessions (fuel : nat) (sv : server) (k t : nat) (m : media) (cur : option nat)
    (cs : nat → nat → clock) : outcome server :=
  match cur with
  | None => Ok sv
  | Some l =>
      match fuel with
      | O => Diverge
      | S fuel =>
          ls ← deref (sv_lives sv) l;
          src ← deref (sv_sources sv) k;
          next ← next_in (lv_sess_list src) l;
          sv ← (if ls_playing ls then
                  x ← deref (sv_sessions sv) (ls_sess ls);
                  ep ← rd (ss_ep x) t;
                  match ep with Some e => send_live sv e m (cs O) | None => Ok sv end
                else Ok sv);
          live_sessions fuel sv k t m next (λ n, cs (S n))
      end
  end.

Definition with_tracks (src : live_source) (trs : list live_track) : live_source :=
  MkSource (lv_sess_list src) trs (lv_max_trans_size src) (lv_max_conn src) (lv_cur_conn src).

Definition set_track_at (sv : server) (k t : nat) (tr : live_track) : outcome server :=
  src ← deref (sv_sources sv) k;
  trs ← wr (lv_track src) t tr;
  Ok (set_source_at sv k (with_tracks src trs)).

(** [next_live_frame] on track [t] of source [k]; on each path the frame's reference is
    given up once. *)
Definition next_live_frame (sv : server) (k t : nat) (f : live_frame) (cs : nat → nat → clock) : outcome server :=
  src ← deref (sv_sources sv) k;
  tr ← rd (lv_track src) t;
  match tr_rtp tr with
  | None => Undef
  | Some m =>
      '(ok, m) ← media_frame m f;
      sv ← set_track_at sv k t (MkTrack (tr_stream tr) (tr_ready tr) (Some m));
      if negb (ok : bool) then Ok sv else
      sv ← (if tr_ready tr then Ok sv else
              sv ← track_set_waiting sv tr 0;
              set_track_at sv k t (MkTrack (tr_stream tr) true (Some m)));
      src ← deref (sv_sources sv) k;
      live_sessions (length (lv_sess_list src)) sv k t m (head (lv_sess_list src)) cs
  end.

(** ** The events of an endpoint ([rtp.c]) *)

Definition rtcp_fire (sv : server) (e : nat) (c : clock) : outcome server :=
  y ← deref (sv_eps sv) e;
  '(r, ep, w) ← rtcp_send (sv_wire sv) (e_ep y) c;
  ep_done sv e y r ep w.

Definition on_udp_rtp (sv : server) (e : nat) (ret : Z) (c : clock) : outcome server :=
  y ← deref (sv_eps sv) e;
  let '(r, ep) := udp_rtp_read (e_ep y) ret c in
  ep_done sv e y r ep (sv_wire sv).

Definition on_udp_rtcp (sv : server) (e : nat) (ret : Z) (buf : list Z) (c : clock) : outcome server :=
  y ← deref (sv_eps sv) e;
  '(r, ep) ← udp_rtcp_read (e_ep y) ret buf c;
  ep_done sv e y r ep (sv_wire sv).

(** [interleave_recv]: a packet the client sent on channel [chan]; the result is not
    looked at.  [proto_state] is followed whether it is set or not. *)
Definition interleave_recv (sv : server) (c : nat) (chan : Z) (d : list Z) (cl : clock) : outcome server :=
  cx ← deref (sv_conns sv) c;
  if Z.of_nat MAX_INTERLEAVE_CHANNELS <=? chan then Ok sv else
  match cn_proto_state cx with
  | None => Undef
  | Some rc =>
      tbl ← deref (sv_rconns sv) rc;
      ch ← rd tbl (Z.to_nat chan);
      match ic_ep ch with
      | None => Ok sv
      | Some e =>
          if ic_rtcp ch then
            y ← deref (sv_eps sv) e;
            '(ep, _) ← interleave_recv_rtcp (e_ep y) d cl;
            Ok (set_ep sv e (MkEndpoint (e_session y) ep))
          else Ok sv
      end
  end.
