(* ===== verification/LiveSafe.v ===== *)
(** * Streaming keeps the server whole

    Frames, RTCP timers and packets of the clients may arrive in any order, and each may
    end sessions: the functions of [Live] return, and the invariants of [ServerInv] and
    [RtspSafe] are kept.  Then: who gets a frame. *)

From Stdlib Require Import String.
From S2P Require Import Prelude CString Pmsg HttpAuth SendBuf Frame Stream Rtcp Rtp RtpMedia Server ServerInv ServerOps Reply Rtsp RtspSafe Live.

Local Open Scope Z_scope.
Local Open Scope c_scope.

(** ** The network *)

(** The [write] calls of a flush come to an end: not [EAGAIN] for ever. *)
Definition drained (w : wire) : Prop :=
  ∀ n c, wf_ring c → ∃ r, tcp_conn_flush (wi_writes w n) c = Ok r.

Definition rings_ok (w : wire) : Prop := ∀ c cx, wi_conns w !! c = Some cx → wf_ring (cn_ring cx).

(** Packets were sent: the connections are the same but for their send buffers. *)
Record wired (w w' : wire) : Prop := {
  wr_conns c : match wi_conns w !! c with
               | Some cx => ∃ r, wi_conns w' !! c = Some (with_ring cx r)
               | None => wi_conns w' !! c = None
               end;
  wr_rings : rings_ok w → rings_ok w';
  wr_drained : drained w → drained w';
  wr_log : wi_log w `prefix_of` wi_log w' }.

#[export] Instance wired_preorder : PreOrder wired.
Proof.
  split.
  - intros w. split; try done. intros c. destruct (wi_conns w !! c) as [cx|]; [|done]. exists (cn_ring cx). by destruct cx.
  - intros a b d [c1 r1 d1 l1] [c2 r2 d2 l2]. split; [|auto..|by etrans]. intros c. specialize (c1 c). specialize (c2 c).
    destruct (wi_conns a !! c) as [cx|]; [|by rewrite c1 in c2]. destruct c1 as [r E]. rewrite E in c2.
    destruct c2 as [r' E']. by exists r'.
Qed.

Lemma wired_same_conns w w' : wired w w' → same_conns (wi_conns w) (wi_conns w').
Proof.
  intros H c. pose proof (wr_conns _ _ H c) as Hc. destruct (wi_conns w !! c) as [cx|]; [|by rewrite Hc].
  by destruct Hc as [r ->].
Qed.

Lemma same_wired w w' :
  wi_conns w' = wi_conns w → wi_writes w' = wi_writes w → wi_log w `prefix_of` wi_log w' → wired w w'.
Proof.
  intros E1 E2 E3. split; [| | |done].
  - intros c. rewrite E1. destruct (wi_conns w !! c) as [cx|]; [|done]. exists (cn_ring cx). by destruct cx.
  - unfold rings_ok. by rewrite E1.
  - unfold drained. by rewrite E2.
Qed.

Lemma udp_wired w fd d : returns (udp_send w fd d) (λ p, wired w p.2).
Proof.
  apply returns_Ok. apply same_wired; try done. cbn [snd wi_log]. destruct (wi_udp w 0%nat); [by eexists|done].
Qed.

(** Whatever is stored, a send buffer stays one. *)
Lemma store_all_wf v c : wf_ring c → wf_ring (foldl (λ c b, snd (send_data c b)) c v).
Proof.
  revert c. induction v as [|b v IH]; intros c Hc; [done|]. cbn [foldl]. apply IH.
  pose proof (send_data_queue c b Hc) as H. destruct (send_data c b) as [ok c']. apply H.
Qed.

Lemma interleave_send_ok w n c chan v :
  drained w → wf_ring c → returns (interleave_send (wi_writes w n) c chan v) (λ p, wf_ring p.1.2).
Proof.
  intros Hd Hc. unfold interleave_send. cbv zeta.
  eapply (returns_bind _ (λ p, wf_ring p.1)).
  - destruct (_ <? _)%nat; [|by apply returns_Ok]. destruct (Hd n c Hc) as [[c' out] E]. rewrite E. apply returns_Ok.
    unfold tcp_conn_flush in E. destruct (drain _ c []) as [[[ok c1] o1]| | |] eqn:Ed; try done.
    rewrite bind_Ok in E. injection E as E1 E2. subst c1 o1. by destruct (drain_Ok _ _ _ _ _ _ Hc Ed).
  - intros [c' out] Hc'. cbn [fst] in Hc'. destruct (_ <? _)%nat; [by apply returns_Ok|]. apply returns_Ok. cbn [fst snd].
    apply store_all_wf. pose proof (send_data_queue c' (interleave_head chan (sum_list_with length v)) Hc') as H.
    destruct (send_data c' _) as [ok c'']. apply H.
Qed.

Lemma inter_wired w c chan v :
  drained w → rings_ok w → is_Some (wi_conns w !! c) → returns (inter_send w c chan v) (wired w).
Proof.
  intros Hd Hr [cx E]. cbn [inter_send wire_transport]. rewrite (deref_Ok _ _ _ E), bind_Ok.
  eapply returns_bind; [apply interleave_send_ok; [done|by eapply Hr]|].
  intros [[ok r] out] Hw. cbn [fst snd] in Hw. apply returns_Ok. split.
  - intros c'. cbn [wi_conns]. destruct (decide (c' = c)) as [->|Hne].
    + rewrite E, lookup_insert_eq. by exists r.
    + rewrite lookup_insert_ne by done. destruct (wi_conns w !! c') as [cx'|]; [|done]. exists (cn_ring cx'). by destruct cx'.
  - intros _ c' cx'. cbn [wi_conns]. destruct (decide (c' = c)) as [->|Hne];
      [rewrite lookup_insert_eq; by intros [= <-]|rewrite lookup_insert_ne by done; apply Hr].
  - intros _ n. apply (Hd (S n)).
  - cbn [wi_log]. destruct ok; [by eexists|done].
Qed.

(** ** Packets *)

(** What sending keeps of an endpoint. *)
Definition kept_ep (ep ep' : rtp_endpoint) : Prop :=
  ep_trans ep' = ep_trans ep ∧ ep_qos ep' = ep_qos ep ∧ ep_max_data_size ep' = ep_max_data_size ep.

#[export] Instance kept_ep_preorder : PreOrder kept_ep.
Proof. split; [done|]. unfold kept_ep. intros a b c (A1 & A2 & A3) (B1 & B2 & B3). by rewrite B1, B2, B3. Qed.

(** The connection of an interleaved endpoint exists. *)
Definition connected (w : wire) (ep : rtp_endpoint) : Prop :=
  match ep_trans ep with RTP_TRANS_INTER c _ _ => is_Some (wi_conns w !! c) | _ => True end.

Lemma connected_wired w w' ep ep' : wired w w' → kept_ep ep ep' → connected w ep → connected w' ep'.
Proof.
  intros Hw (Et & _) Hc. unfold connected in *. rewrite Et. destruct (ep_trans ep) as [| |c a b]; try done.
  destruct Hc as [cx E]. pose proof (wr_conns _ _ Hw c) as H. rewrite E in H. by destruct H as [r ->].
Qed.

Definition packet_done (w : wire) (ep : rtp_endpoint) (p : Rtp.sent * rtp_endpoint * wire) : Prop :=
  wired w p.2 ∧ kept_ep ep p.1.2.

Section packets.
Context (w : wire) (ep : rtp_endpoint).
Hypothesis Hd : drained w.
Hypothesis Hr : rings_ok w.
Hypothesis Hc : connected w ep.

Lemma rtcp_send_ok c : returns (rtcp_send w ep c) (packet_done w ep).
Proof using All.
  unfold rtcp_send. destruct (c 0%nat) as [sec usec]. cbv zeta. cbn [ep_trans ep_last_rtcp_recv].
  case_match; [by apply returns_Ok|]. unfold connected in Hc.
  destruct (ep_trans ep) as [|port fd fd'|conn a b] eqn:Et.
  - apply returns_Ok. done.
  - eapply returns_bind; [apply udp_wired|]. intros [ok w'] Hw. by apply returns_Ok.
  - eapply returns_bind; [by apply inter_wired|]. intros w' Hw. by apply returns_Ok.
Qed.

Lemma follow_up_ok c : returns (rtcp_follow_up w ep c) (packet_done w ep).
Proof using All.
  unfold rtcp_follow_up. destruct (ep_force_rtcp ep).
  - eapply returns_bind; [apply rtcp_send_ok|]. intros [[r ep'] w'] [H1 H2]. cbn [fst snd] in *.
    destruct r; by apply returns_Ok.
  - destruct (_ <? _); [apply rtcp_send_ok|by apply returns_Ok].
Qed.
End packets.

Lemma packet_done_trans w ep w1 ep1 p : wired w w1 → kept_ep ep ep1 → packet_done w1 ep1 p → packet_done w ep p.
Proof. intros Hw Hk [H1 H2]. split; by etrans. Qed.

Lemma send_rtp_packet_ok w ep v ts marker c :
  drained w → rings_ok w → connected w ep → returns (send_rtp_packet w ep v ts marker c) (packet_done w ep).
Proof.
  intros Hd Hr Hc. unfold send_rtp_packet. cbv zeta. cbn [set_timestamp ep_trans].
  eapply (returns_bind _ (λ p, wired w p.2)).
  - unfold connected in Hc. destruct (ep_trans ep) as [|port fd fd'|conn a b]; [by apply returns_Ok|apply udp_wired|].
    eapply returns_bind; [by apply inter_wired|]. intros w' Hw. by apply returns_Ok.
  - intros [[|] w1] Hw; cbn [snd] in Hw; [|by apply returns_Ok].
    set (ep1 := count_packet _ _). assert (kept_ep ep ep1) as Hk by done.
    eapply returns_mono; [apply follow_up_ok|intros p Hp; by eapply packet_done_trans].
    + by apply (wr_drained _ _ Hw).
    + by apply (wr_rings _ _ Hw).
    + by eapply connected_wired.
Qed.

Lemma send_calls_ok ps w ep :
  drained w → rings_ok w → connected w ep → returns (send_calls w ep ps) (packet_done w ep).
Proof.
  revert w ep. induction ps as [|[[[v ts] m] c] ps IH]; intros w ep Hd Hr Hc; cbn [send_calls]; [by apply returns_Ok|].
  eapply returns_bind; [by apply send_rtp_packet_ok|]. intros [[r ep1] w1] [Hw Hk]. cbn [fst snd] in *.
  destruct r; [|by apply returns_Ok]. eapply returns_mono; [apply IH|intros p Hp; by eapply packet_done_trans].
  - by apply (wr_drained _ _ Hw).
  - by apply (wr_rings _ _ Hw).
  - by eapply connected_wired.
Qed.

(** ** An endpoint *)

(** The server is up: requests were served and the network drains. *)
Definition running (locs : list rtsp_location) (sv : server) : Prop := served locs sv ∧ drained (sv_wire sv).

(** What streaming keeps. *)
Record streamed (sv sv' : server) : Prop := {
  sm_wire : wired (sv_wire sv) (sv_wire sv');
  sm_rconns rc : is_Some (sv_rconns sv' !! rc) ↔ is_Some (sv_rconns sv !! rc);
  sm_fresh : sv_fresh sv' = sv_fresh sv;
  sm_eps e : is_Some (sv_eps sv' !! e) → is_Some (sv_eps sv !! e);
  sm_streams : flags_only (sv_streams sv) (sv_streams sv') }.

#[export] Instance streamed_preorder : PreOrder streamed.
Proof.
  split; [by split|]. intros a b c [w1 r1 f1 e1 s1] [w2 r2 f2 e2 s2]. split.
  - by etrans.
  - intros rc. by rewrite r2.
  - by rewrite f2.
  - auto.
  - by etrans.
Qed.

Lemma closing_streamed sv sv' : closing sv sv' → streamed sv sv'.
Proof.
  intros H. split.
  - by rewrite (cl_wire _ _ H).
  - apply (cl_rconns _ _ H).
  - apply (cl_fresh _ _ H).
  - intros e [y E]. exists y. by apply (cl_eps _ _ H).
  - apply (cl_streams _ _ H).
Qed.

Lemma ep_connected locs sv e y : served locs sv → sv_eps sv !! e = Some y → connected (sv_wire sv) (e_ep y).
Proof.
  intros Hs E. unfold connected. destruct (iv_ep _ (se_inv _ _ Hs) _ _ E) as [_ H].
  destruct (ep_trans (e_ep y)); try done. destruct H as [(cx & _ & _ & Ec & _) _]. by rewrite Ec.
Qed.

(** The endpoint after packets were sent, or refused. *)
Lemma put_ep_ok locs sv e y ep w :
  running locs sv → sv_eps sv !! e = Some y → wired (sv_wire sv) w → ep_trans ep = ep_trans (e_ep y) → fit_ep ep →
  let sv' := set_ep (with_wire sv w) e (MkEndpoint (e_session y) ep) in running locs sv' ∧ streamed sv sv'.
Proof.
  intros [Hs Hd] E Hw Ht Hf sv'. pose proof (wired_same_conns _ _ Hw) as Hc.
  assert (served locs sv') as Hs'.
  { apply (same_tracks_served _ _ _ Hs); try done.
    - apply set_ep_inv; [by apply with_wire_inv; [apply Hs|]|done|]. unfold channels_of. by rewrite Ht.
    - apply set_ep_idle, with_wire_idle, Hs.
    - apply (wr_rings _ _ Hw). intros c cx. apply (se_rings _ _ Hs).
    - intros e' y'. unfold sv'. sv_cbn. by eapply set_ep_fit.
    - apply (se_ids _ _ Hs). }
  split; [split; [done|by apply (wr_drained _ _ Hw)]|]. split; try done. unfold sv'. sv_cbn.
  intros e' H. destruct (decide (e' = e)) as [->|]; [by rewrite E|by rewrite lookup_insert_ne in H].
Qed.

Lemma ep_done_ok locs sv e y r ep w :
  running locs sv → sv_eps sv !! e = Some y → wired (sv_wire sv) w → ep_trans ep = ep_trans (e_ep y) → fit_ep ep →
  returns (ep_done sv e y r ep w) (λ sv', running locs sv' ∧ streamed sv sv' ∧
    ∃ x, sv_sessions sv !! e_session y = Some x ∧
      ((r = Sent ∧ sv' = set_ep (with_wire sv w) e (MkEndpoint (e_session y) ep)) ∨
       (r = TornDown ∧ others (set_ep (with_wire sv w) e (MkEndpoint (e_session y) ep)) sv' (e_session y) (ss_private x) ∧
        sv_eps sv' !! e = None))).
Proof.
  intros Hr E Hw Ht Hf. destruct (put_ep_ok locs sv e y ep w) as [Hr1 Hm1]; try done. unfold ep_done. cbv zeta.
  destruct (iv_ep _ (se_inv _ _ (proj1 Hr)) _ _ E) as [(x & ls & src & t & Ex & Et & _) _].
  destruct r; [apply returns_Ok; split; [done|]; split; [done|]; exists x; auto|].
  destruct Hr1 as [Hs1 Hd1]. set (sv1 := set_ep _ _ _) in *.
  destruct (live_teardown_ok sv1 (e_session y) x (Some e)) as (sv2 & -> & H1 & H2 & H3 & H4 & _ & H6); try done; [apply Hs1..|].
  apply returns_Ok. destruct (closing_served locs 0 sv1 sv2) as [J1 _]; try done.
  split; [split; [done|by rewrite (cl_wire _ _ H3)]|]. split; [etrans; [exact Hm1|by apply closing_streamed]|].
  exists x. split; [done|]. right. split; [done|]. split; [done|]. apply (H4 t); [done|]. cbn. apply Nat.eqb_refl.
Qed.

(** ** The sessions of a frame *)

(** [pk max] are the packets the medium makes of its frame for packets of [max] bytes. *)
Definition sendable (m : media) (pk : Z → list packet) : Prop :=
  ∀ (w : wire) ep cs, 145 <= ep_max_data_size ep →
    media_send w ep m cs = send_calls w ep (with_clocks (pk (ep_max_data_size ep)) cs).

(** Between [sv] and [sv'] all packets of the frame went out of endpoint [y], or its client
    could not be reached. *)
Definition frame_sent (sv sv' : server) (ps : list packet) (y y' : endpoint) : Prop :=
  e_session y' = e_session y ∧ ∃ (w : wire) cs w',
    wi_log (sv_wire sv) `prefix_of` wi_log w ∧ send_calls w (e_ep y) (with_clocks ps cs) = Ok (Sent, e_ep y', w') ∧
    wi_log w `prefix_of` wi_log w' ∧ wi_log w' `prefix_of` wi_log (sv_wire sv').

Definition frame_refused (ps : list packet) (y : endpoint) : Prop :=
  ∃ (w : wire) cs ep' w', send_calls w (e_ep y) (with_clocks ps cs) = Ok (TornDown, ep', w').

(** [l] is a playing session with endpoint [e] on track [t]. *)
Definition gets (sv : server) (t l e : nat) : Prop :=
  ∃ ls x, sv_lives sv !! l = Some ls ∧ ls_playing ls = true ∧ sv_sessions sv !! ls_sess ls = Some x ∧
    ss_ep x !! t = Some (Some e).

(** What one session's turn leaves. *)
Record turn (pk : Z → list packet) (sv sv' : server) (l : nat) (ls : live_session) (e : nat) (y : endpoint) : Prop := {
  tu_others : ∀ l', l' ≠ l → sv_lives sv' !! l' = sv_lives sv !! l';
  tu_sessions : ∀ s', s' ≠ ls_sess ls → sv_sessions sv' !! s' = sv_sessions sv !! s';
  tu_eps : ∀ e' y', sv_eps sv !! e' = Some y' → e_session y' ≠ ls_sess ls → sv_eps sv' !! e' = Some y';
  tu_list : ∀ k src, sv_sources sv !! k = Some src → ∃ src', sv_sources sv' !! k = Some src' ∧
    (lv_sess_list src' = lv_sess_list src ∨ lv_sess_list src' = unlink l (lv_sess_list src));
  tu_ep : (sv_eps sv' !! e = None ∧ frame_refused (pk (ep_max_data_size (e_ep y))) y) ∨
    ∃ y', sv_eps sv' !! e = Some y' ∧ frame_sent sv sv' (pk (ep_max_data_size (e_ep y))) y y' }.

Lemma send_live_ok locs sv m pk l ls x t e y cs :
  running locs sv → sendable m pk → sv_lives sv !! l = Some ls → sv_sessions sv !! ls_sess ls = Some x →
  ss_ep x !! t = Some (Some e) → sv_eps sv !! e = Some y → e_session y = ls_sess ls → ss_private x = l →
  returns (send_live sv e m cs) (λ sv', running locs sv' ∧ streamed sv sv' ∧ turn pk sv sv' l ls e y).
Proof.
  intros Hr Hm El Ex Ee Ey Es Ep. unfold send_live. rewrite (deref_Ok _ _ _ Ey), bind_Ok.
  pose proof (se_eps _ _ (proj1 Hr) _ _ Ey) as [Hq Hmax]. rewrite (Hm _ _ _ Hmax).
  destruct (send_calls_ok (with_clocks (pk (ep_max_data_size (e_ep y))) cs) (sv_wire sv) (e_ep y))
    as ([[r ep] w] & Esend & Hw & Hk); [apply Hr|intros c cx; apply (se_rings _ _ (proj1 Hr))|by eapply ep_connected; [apply Hr|]|].
  rewrite Esend, bind_Ok. cbn [fst snd] in *. destruct Hk as (K1 & K2 & K3).
  assert (fit_ep ep) as Hf by (unfold fit_ep, wf_ep_qos in *; by rewrite K2, K3).
  eapply returns_mono; [by apply (ep_done_ok locs)|]. intros sv' (H1 & H2 & x' & Ex' & H3). cbv beta.
  split; [done|]. split; [done|]. rewrite Es in Ex'. assert (x' = x) as -> by congruence.
  destruct H3 as [(-> & ->)|(-> & Ho & He)].
  - split; try done.
    + intros e' y' E' Hne. sv_cbn. rewrite lookup_insert_ne; [done|]. intros <-. congruence.
    + intros k src E. sv_cbn. eauto.
    + right. eexists. sv_cbn. rewrite lookup_insert_eq. split; [done|]. split; [done|].
      exists (sv_wire sv), cs, w. split_and!; try done. apply (wr_log _ _ Hw).
  - rewrite Es, Ep in Ho. split.
    + apply (ot_lives _ _ _ _ Ho).
    + apply (ot_sessions _ _ _ _ Ho).
    + intros e' y' E' Hne. apply (ot_eps _ _ _ _ Ho); [|done]. sv_cbn. rewrite lookup_insert_ne; [done|].
      intros <-. congruence.
    + apply (ot_list _ _ _ _ Ho).
    + left. split; [done|]. by exists (sv_wire sv), cs, ep, w.
Qed.

Lemma next_in_app pre l post : l ∉ pre → next_in (pre ++ l :: post) l = Ok (head post).
Proof.
  induction pre as [|p pre IH]; intros Hn; cbn [app next_in]; [by rewrite Nat.eqb_refl|].
  rewrite not_elem_of_cons in Hn. destruct Hn as [H1 H2]. destruct (Nat.eqb_spec p l); [congruence|]. auto.
Qed.

Lemma unlink_notin l ls : l ∉ ls → unlink l ls = ls.
Proof.
  induction ls as [|p ls IH]; [done|]. rewrite not_elem_of_cons. intros [H1 H2]. unfold unlink in *.
  rewrite filter_cons_True by auto. by rewrite IH.
Qed.

Lemma unlink_app pre l post : l ∉ pre → l ∉ post → unlink l (pre ++ l :: post) = pre ++ post.
Proof.
  intros H1 H2. rewrite <- (unlink_notin l pre) at 2 by done. rewrite <- (unlink_notin l post) at 2 by done.
  unfold unlink. by rewrite filter_app, filter_cons_False by auto.
Qed.

(** The frame reaches the sessions of the list that play the track, and nothing else. *)
Definition reaches (pk : Z → list packet) (t : nat) (todo : list nat) (sv sv' : server) : Prop :=
  (∀ l e y, l ∈ todo → gets sv t l e → sv_eps sv !! e = Some y →
     (sv_eps sv' !! e = None ∧ frame_refused (pk (ep_max_data_size (e_ep y))) y) ∨
     ∃ y', sv_eps sv' !! e = Some y' ∧ frame_sent sv sv' (pk (ep_max_data_size (e_ep y))) y y') ∧
  (∀ e y, sv_eps sv !! e = Some y →
     (∀ l ls e', l ∈ todo → gets sv t l e' → sv_lives sv !! l = Some ls → ls_sess ls ≠ e_session y) →
     sv_eps sv' !! e = Some y) ∧
  (∀ e, is_Some (sv_eps sv' !! e) → is_Some (sv_eps sv !! e)).

Lemma gets_same sv sv' t l e :
  sv_lives sv' !! l = sv_lives sv !! l →
  (∀ ls, sv_lives sv !! l = Some ls → sv_sessions sv' !! ls_sess ls = sv_sessions sv !! ls_sess ls) →
  gets sv' t l e ↔ gets sv t l e.
Proof.
  intros E1 E2. unfold gets. rewrite E1. split; intros (ls & x & El & Hp & Ex & Et); exists ls, x.
  - by rewrite <- E2.
  - by rewrite E2.
Qed.

(** Two live sessions have two sessions. *)
Lemma live_sess_inj sv l l' ls ls' :
  server_inv sv → sv_lives sv !! l = Some ls → sv_lives sv !! l' = Some ls' → ls_sess ls' = ls_sess ls → l' = l.
Proof.
  intros Hi E E' Es. destruct (iv_live _ Hi _ _ E) as [(x & Ex & Ep) _].
  destruct (iv_live _ Hi _ _ E') as [(x' & Ex' & Ep') _]. rewrite Es in Ex'. congruence.
Qed.

Lemma frame_sent_mono sv sv1 sv2 sv' ps y y' :
  wi_log (sv_wire sv) `prefix_of` wi_log (sv_wire sv1) → wi_log (sv_wire sv2) `prefix_of` wi_log (sv_wire sv') →
  frame_sent sv1 sv2 ps y y' → frame_sent sv sv' ps y y'.
Proof. intros H1 H2 (Hs & w & cs & w' & P1 & E & P2 & P3). split; [done|]. exists w, cs, w'. split_and!; [by etrans|done|done|by etrans]. Qed.

(** A session's turn, then the others': [l] is not among them. *)
Section reaches_turn.
Context (pk : Z → list packet) (t l : nat) (ls : live_session) (todo : list nat) (sv sv1 sv2 : server).
Hypothesis Hi : server_inv sv.
Hypothesis El : sv_lives sv !! l = Some ls.
Hypothesis Hl : l ∉ todo.
Hypothesis Htodo : ∀ l', l' ∈ todo → is_Some (sv_lives sv !! l').
Hypothesis Hlives : ∀ l', l' ≠ l → sv_lives sv1 !! l' = sv_lives sv !! l'.
Hypothesis Hsess : ∀ s', s' ≠ ls_sess ls → sv_sessions sv1 !! s' = sv_sessions sv !! s'.
Hypothesis HR : reaches pk t todo sv1 sv2.
Hypothesis Hlog1 : wi_log (sv_wire sv) `prefix_of` wi_log (sv_wire sv1).

Lemma rest_lives l' ls' :
  l' ∈ todo → sv_lives sv !! l' = Some ls' → sv_lives sv1 !! l' = Some ls' ∧ ls_sess ls' ≠ ls_sess ls.
Proof using Hi El Hl Hlives.
  intros Hin E'. assert (l' ≠ l) as Hne by congruence. split; [by rewrite Hlives|].
  intros Eq. by apply Hne, (live_sess_inj sv l l' ls ls').
Qed.

Lemma rest_gets l' e' : l' ∈ todo → gets sv1 t l' e' ↔ gets sv t l' e'.
Proof using Hi El Hl Hlives Hsess.
  intros Hin. assert (l' ≠ l) as Hne by congruence. apply gets_same; [by apply Hlives|].
  intros ls' E'. apply Hsess. by apply rest_lives with l'.
Qed.

(** The endpoints of [l] are as its turn left them. *)
Lemma rest_keeps e y1 : sv_eps sv1 !! e = Some y1 → e_session y1 = ls_sess ls → sv_eps sv2 !! e = Some y1.
Proof using Hi El Hl Htodo Hlives HR.
  intros Ey1 Es1. apply HR; [done|]. intros l' ls' e'' Hin _ El'. rewrite Es1.
  destruct (Htodo l' Hin) as [ls'' El'']. destruct (rest_lives l' ls'' Hin El'') as [E1 E2]. congruence.
Qed.

(** The turns of the other sessions. *)
Lemma rest_reaches l' e y :
  l' ∈ todo → gets sv t l' e → sv_eps sv1 !! e = Some y →
  (sv_eps sv2 !! e = None ∧ frame_refused (pk (ep_max_data_size (e_ep y))) y) ∨
  ∃ y', sv_eps sv2 !! e = Some y' ∧ frame_sent sv sv2 (pk (ep_max_data_size (e_ep y))) y y'.
Proof using Hi El Hl Hlives Hsess HR Hlog1.
  intros Hin Hg Ey. destruct HR as (R1 & _). destruct (R1 l' e y Hin) as [?|(y' & Ey' & Hs)]; [by apply rest_gets|done|by left|].
  right. exists y'. split; [done|]. by eapply frame_sent_mono.
Qed.

Lemma rest_untouched e y :
  sv_eps sv1 !! e = Some y →
  (∀ l' ls' e', l' ∈ todo → gets sv t l' e' → sv_lives sv !! l' = Some ls' → ls_sess ls' ≠ e_session y) →
  sv_eps sv2 !! e = Some y.
Proof using Hi El Hl Htodo Hlives Hsess HR.
  intros Ey Hno. apply HR; [done|]. intros l' ls' e' Hin Hg El'. destruct (Htodo l' Hin) as [ls'' El''].
  destruct (rest_lives l' ls'' Hin El'') as [E1 _]. assert (ls'' = ls') as -> by congruence.
  apply (Hno l' ls' e'); [done|by apply rest_gets|done].
Qed.
End reaches_turn.

(** The session [l] plays the track: its endpoint had a turn. *)
Lemma reaches_turn pk t l ls e y todo sv sv1 sv2 :
  server_inv sv → sv_lives sv !! l = Some ls → gets sv t l e → sv_eps sv !! e = Some y → e_session y = ls_sess ls →
  l ∉ todo → (∀ l', l' ∈ todo → is_Some (sv_lives sv !! l')) → turn pk sv sv1 l ls e y →
  (∀ e, is_Some (sv_eps sv1 !! e) → is_Some (sv_eps sv !! e)) → wired (sv_wire sv) (sv_wire sv1) →
  wired (sv_wire sv1) (sv_wire sv2) → reaches pk t todo sv1 sv2 →
  reaches pk t (l :: todo) sv sv2.
Proof.
  intros Hi El Hg Ey Es Hl Htodo [T1 T2 T3 _ T5] Hold [_ _ _ HL1] [_ _ _ HL2] HR. pose proof HR as (_ & _ & R3). split; [|split]; [| |by auto].
  - intros l' e' y' [->|Hin]%elem_of_cons Hg' Ey'.
    + destruct Hg as (ls1 & x1 & El1 & _ & Ex1 & Et1). destruct Hg' as (ls2 & x2 & El2 & _ & Ex2 & Et2).
      assert (ls1 = ls) as -> by congruence. assert (ls2 = ls) as -> by congruence. assert (x2 = x1) as -> by congruence.
      assert (e' = e) as -> by congruence. assert (y' = y) as -> by congruence.
      destruct T5 as [[H1 H2]|(y1 & Ey1 & Hs1)].
      * left. split; [|done]. destruct (sv_eps sv2 !! e) as [y2|] eqn:E2; [|done].
        destruct (R3 e) as [y3 E3]; [by rewrite E2|congruence].
      * right. exists y1. split; [|by apply (frame_sent_mono sv sv sv1 sv2)]. eapply rest_keeps with (sv := sv) (l := l); try done. by destruct Hs1 as [-> _].
    + eapply rest_reaches with (sv := sv) (l := l); try done. apply T3; [done|].
      destruct Hg' as (ls' & x' & El' & _ & Ex' & Et').
      destruct (iv_session _ Hi _ _ Ex') as (_ & _ & _ & H). destruct (H _ _ Et') as (y'' & Ey'' & Es'').
      assert (y'' = y') as -> by congruence. rewrite Es''.
      by apply (rest_lives l ls todo sv sv1 Hi El Hl T1 l' ls').
  - intros e' y' Ey' Hno. eapply rest_untouched with (sv := sv) (l := l); try done.
    + apply T3; [done|]. intros Eq. apply (Hno l ls e); [left|done|done|done].
    + intros l' ls' e'' Hin. apply Hno. by right.
Qed.

(** The session [l] does not play the track. *)
Lemma reaches_skip pk t l todo sv sv2 :
  (∀ e, ¬ gets sv t l e) → reaches pk t todo sv sv2 → reaches pk t (l :: todo) sv sv2.
Proof.
  intros Hg (R1 & R2 & R3). split; [|split]; [| |done].
  - intros l' e y [->|Hin]%elem_of_cons Hg' Ey; [by destruct (Hg e)|eauto].
  - intros e y Ey Hno. apply R2; [done|]. intros l' ls' e' Hin. apply Hno. by right.
Qed.

Lemma reaches_nil pk t sv : reaches pk t [] sv sv.
Proof. split; [|split]; [by intros l e y H%elem_of_nil|by auto|done]. Qed.

(** The loop over the sessions survives the end of any of them. *)
Lemma live_sessions_ok locs fuel sv k t m pk src pre todo cs :
  running locs sv → sendable m pk → sv_sources sv !! k = Some src → (t < MAX_TRACKS)%nat →
  lv_sess_list src = pre ++ todo → (length todo <= fuel)%nat →
  returns (live_sessions fuel sv k t m (head todo) cs)
    (λ sv', running locs sv' ∧ streamed sv sv' ∧ reaches pk t todo sv sv').
Proof.
  revert sv src pre todo cs. induction fuel as [|fuel IH]; intros sv src pre todo cs Hr Hm Ek Ht Hl Hf;
    (destruct todo as [|l todo]; [apply returns_Ok; split; [done|]; split; [done|]; apply reaches_nil|]); [simpl in Hf; lia|].
  cbn [head live_sessions]. pose proof (se_inv _ _ (proj1 Hr)) as Hi.
  destruct (iv_source _ Hi _ _ Ek) as (Hnd & Hlv & _). rewrite Hl in Hnd, Hlv.
  destruct (Hlv l) as (ls & El & Els); [set_solver|]. rewrite (deref_Ok _ _ _ El), bind_Ok, (deref_Ok _ _ _ Ek), bind_Ok, Hl.
  apply NoDup_app in Hnd as (Hnd1 & Hdis & [Hnl Hnd2]%NoDup_cons).
  assert (l ∉ pre) as Hpre by (intros H; apply (Hdis l H); left).
  rewrite next_in_app, bind_Ok by done.
  assert (∀ l', l' ∈ todo → is_Some (sv_lives sv !! l')) as Htodo.
  { intros l' Hin. destruct (Hlv l') as (ls' & -> & _); [set_solver|done]. }
  destruct (iv_live _ Hi _ _ El) as [(x & Ex & Ep) _].
  destruct (iv_session _ Hi _ _ Ex) as (Hlen & _ & _ & Heps).
  destruct (lookup_lt_is_Some_2 (ss_ep x) t) as [[e|] Eep]; [lia| |].
  - destruct (Heps _ _ Eep) as (y & Ey & Es). destruct (ls_playing ls) eqn:Hp.
    + rewrite (deref_Ok _ _ _ Ex), bind_Ok, (rd_Ok _ _ _ Eep), bind_Ok.
      assert (gets sv t l e) as Hg by (by exists ls, x).
      eapply returns_bind; [by eapply (send_live_ok locs)|]. intros sv1 (Hr1 & Hs1 & T).
      destruct (tu_list _ _ _ _ _ _ _ T _ _ Ek) as (src1 & Ek1 & Hl1).
      assert (∃ pre1, lv_sess_list src1 = pre1 ++ todo) as [pre1 Epre].
      { destruct Hl1 as [-> | ->]; rewrite Hl; [exists (pre ++ [l]); by rewrite <- app_assoc|exists pre; by apply unlink_app]. }
      eapply returns_mono; [apply (IH sv1 src1 pre1 todo); try done; simpl in Hf; lia|].
      intros sv2 (Hr2 & Hs2 & R). split; [done|]. split; [by etrans|].
      eapply reaches_turn; try done; [apply (sm_eps _ _ Hs1)|apply (sm_wire _ _ Hs1)|apply (sm_wire _ _ Hs2)].
    + rewrite bind_Ok. eapply returns_mono; [apply (IH sv src (pre ++ [l]) todo); try done; [by rewrite <- app_assoc|simpl in Hf; lia]|].
      intros sv2 (Hr2 & Hs2 & R). split; [done|]. split; [done|]. apply reaches_skip; [|done].
      intros e' (ls' & x' & El' & Hp' & _). congruence.
  - eapply (returns_bind _ (λ sv', sv' = sv)).
    { destruct (ls_playing ls); [|by apply returns_Ok]. rewrite (deref_Ok _ _ _ Ex), bind_Ok, (rd_Ok _ _ _ Eep), bind_Ok.
      by apply returns_Ok. }
    intros ? ->. eapply returns_mono; [apply (IH sv src (pre ++ [l]) todo); try done; [by rewrite <- app_assoc|simpl in Hf; lia]|].
    intros sv2 (Hr2 & Hs2 & R). split; [done|]. split; [done|]. apply reaches_skip; [|done].
    intros e' (ls' & x' & El' & Hp' & Ex' & Et'). congruence.
Qed.

(** ** A track changes *)

Section set_track.
Context (sv : server) (k : nat) (src : live_source) (t : nat) (tr tr' : live_track).
Hypothesis Hi : server_inv sv.
Hypothesis Ek : sv_sources sv !! k = Some src.
Hypothesis Et : lv_track src !! t = Some tr.
Hypothesis Hstream : tr_stream tr' = tr_stream tr.
Hypothesis Hm : is_Some (tr_rtp tr).
Hypothesis Hm' : is_Some (tr_rtp tr').
Abbreviation sv' := (set_source_at sv k (with_tracks src (<[t := tr']> (lv_track src)))).

Lemma set_track_at_eq : set_track_at sv k t tr' = Ok sv'.
Proof using Ek Et.
  unfold set_track_at. rewrite (deref_Ok _ _ _ Ek), bind_Ok, wr_Ok, bind_Ok by (by eapply lookup_lt_Some). done.
Qed.

Lemma track_at t1 : <[t := tr']> (lv_track src) !! t1 = if decide (t1 = t) then Some tr' else lv_track src !! t1.
Proof using Et.
  destruct (decide (t1 = t)) as [->|Hne]; [|by rewrite list_lookup_insert_ne].
  apply list_lookup_insert_eq. by eapply lookup_lt_Some.
Qed.

Lemma track_media t1 : has_media (with_tracks src (<[t := tr']> (lv_track src))) t1 ↔ has_media src t1.
Proof using Et Hm Hm'.
  unfold has_media. cbn [with_tracks lv_track]. rewrite track_at. destruct (decide (t1 = t)) as [->|]; [|done].
  rewrite Et. split; [intros _|intros _]; eauto.
Qed.

(** The sources are the same but for the track. *)
Lemma track_sources k1 src1 :
  sv_sources sv !! k1 = Some src1 → ∃ src2, sv_sources sv' !! k1 = Some src2 ∧ lv_sess_list src2 = lv_sess_list src1 ∧
    ∀ t1, has_media src2 t1 ↔ has_media src1 t1.
Proof using Ek Et Hm Hm'.
  intros E. sv_cbn. destruct (decide (k1 = k)) as [->|Hne].
  - rewrite lookup_insert_eq. assert (src1 = src) as -> by congruence. eexists. split; [done|]. split; [done|]. apply track_media.
  - rewrite lookup_insert_ne by done. eauto.
Qed.

Lemma set_track_inv : server_inv sv'.
Proof using All.
  split; try apply Hi.
  - intros l ls E. destruct (iv_live _ Hi _ _ E) as [H1 (src1 & Ek1 & Hin)]. split; [exact H1|].
    destruct (track_sources _ _ Ek1) as (src2 & Ek2 & El & _). exists src2. by rewrite El.
  - intros k1 src1. sv_cbn. destruct (decide (k1 = k)) as [->|Hne].
    2: { rewrite lookup_insert_ne by done. intros E. apply (iv_source _ Hi _ _ E). }
    rewrite lookup_insert_eq. intros [= <-]. destruct (iv_source _ Hi _ _ Ek) as (W1 & W2 & W3 & W4 & W5).
    split; [exact W1|]. split; [exact W2|]. split; [cbn; by rewrite length_insert|]. split.
    + intros t1 tr1. cbn [with_tracks lv_track]. rewrite track_at. destruct (decide (t1 = t)) as [->|]; [|apply W4].
      intros [= <-] _. rewrite Hstream. by apply (W4 t tr).
    + intros t1 t2 Hle. rewrite !track_media. by apply W5.
  - intros e y E. destruct (iv_ep _ Hi _ _ E) as [(x & ls & src1 & t1 & E1 & E2 & E3 & E4 & E5 & E6) Htr].
    destruct (track_sources _ _ E5) as (src2 & Ek2 & _ & Hmed). split; [|exact Htr].
    exists x, ls, src2, t1. split_and!; try done. by apply Hmed.
  - intros p Hp. destruct (iv_fresh _ Hi p Hp) as (F1 & F2 & F3 & F4 & F5 & F6 & F7). unfold unused. sv_cbn.
    split_and!; try done. rewrite lookup_insert_ne; [done|]. congruence.
Qed.

(** The track becomes ready only when nobody is told to wait for it. *)
Lemma set_track_idle :
  (tr_ready tr' = true → tr_ready tr = true ∨ ∀ d, tr_stream tr = Some d → is_waiting (sv_streams sv) d = false) →
  idle sv nowhere → idle sv' nowhere.
Proof using Et Ek Hm Hstream.
  intros Hrdy Hid k1 src1 t1 tr1 d. sv_cbn. destruct (decide (k1 = k)) as [->|Hne].
  2: { rewrite lookup_insert_ne by done. apply Hid. }
  rewrite lookup_insert_eq. intros [= <-]. cbn [with_tracks lv_track lv_sess_list]. rewrite track_at.
  destruct (decide (t1 = t)) as [->|Hne]; [|by apply Hid]. intros [= <-] _ Hr Hd Hno Hw. rewrite Hstream in Hd.
  destruct (Hrdy Hr) as [Hr'|Hw']; [|by rewrite Hw' in Hw]. by apply (Hid k src t tr d).
Qed.
End set_track.

Lemma set_track_ok locs sv k src t tr rdy m0 m :
  running locs sv → sv_sources sv !! k = Some src → lv_track src !! t = Some tr → tr_rtp tr = Some m0 → wf_media m →
  (rdy = true → tr_ready tr = true ∨ ∀ d, tr_stream tr = Some d → is_waiting (sv_streams sv) d = false) →
  let tr' := MkTrack (tr_stream tr) rdy (Some m) in
  let sv' := set_source_at sv k (with_tracks src (<[t := tr']> (lv_track src))) in
  set_track_at sv k t tr' = Ok sv' ∧ running locs sv' ∧ streamed sv sv'.
Proof.
  intros [Hs Hd] Ek Et Em Hm Hrdy tr' sv'. split; [by eapply set_track_at_eq|]. split; [|by split].
  split; [|exact Hd]. assert (is_Some (tr_rtp tr)) as Hsome by (by rewrite Em). split; try apply Hs.
  - by eapply set_track_inv; try done; apply Hs.
  - by eapply set_track_idle; try done; apply Hs.
  - intros k1 src1. unfold sv'. sv_cbn. destruct (decide (k1 = k)) as [->|Hne]; [|rewrite lookup_insert_ne by done; apply Hs].
    rewrite lookup_insert_eq. intros [= <-]. apply (se_mtu _ _ Hs _ _ Ek).
  - intros k1 src1 t1 tr1 m1. unfold sv'. sv_cbn. destruct (decide (k1 = k)) as [->|Hne];
      [|rewrite lookup_insert_ne by done; apply (se_media _ _ Hs)].
    rewrite lookup_insert_eq. intros [= <-]. cbn [with_tracks lv_track]. rewrite (track_at src t tr) by done.
    destruct (decide (t1 = t)) as [->|]; [|by eapply (se_media _ _ Hs)]. by intros [= <-] [= <-].
  - eapply Forall_impl; [apply (se_locs _ _ Hs)|]. intros loc (? & ? & ? & H). split_and!; try done. unfold sv'. sv_cbn.
    destruct (decide (lo_private loc = k)) as [->|Hne]; [by rewrite lookup_insert_eq|by rewrite lookup_insert_ne].
Qed.

(** ** A frame arrives *)

(** The medium accepts or refuses the frame, and can send what it accepts. *)
Definition frame_ok (m : media) (f : live_frame) (pk : Z → list packet) : Prop :=
  ∃ ok m', media_frame m f = Ok (ok, m') ∧ wf_media m' ∧ (ok = true → sendable m' pk).

(** [reaches] does not look at the tracks. *)
Lemma reaches_same pk t todo sv sv1 sv2 :
  sv_lives sv1 = sv_lives sv → sv_sessions sv1 = sv_sessions sv → sv_eps sv1 = sv_eps sv → wired (sv_wire sv) (sv_wire sv1) →
  reaches pk t todo sv1 sv2 → reaches pk t todo sv sv2.
Proof.
  intros E1 E2 E3 Hw. unfold reaches, gets. rewrite E1, E2, E3. intros (R1 & R2). split; [|done].
  intros l e y Hl Hg Ey. destruct (R1 l e y Hl Hg Ey) as [?|(y' & Ey' & Hs)]; [by left|right].
  exists y'. split; [done|]. eapply frame_sent_mono; [apply (wr_log _ _ Hw)|done|done].
Qed.

Lemma with_streams_served locs sv w hole :
  served locs sv → server_inv (with_streams sv w) → idle (with_streams sv w) hole →
  (hole = nowhere) → served locs (with_streams sv w).
Proof. intros Hs Hi Hd ->. by apply (same_tracks_served _ _ _ Hs); try done; apply Hs. Qed.

(** The first frame: the track is told to rest, and is ready. *)
Lemma first_frame_ok locs sv k src t tr m0 m :
  running locs sv → sv_sources sv !! k = Some src → lv_track src !! t = Some tr → tr_rtp tr = Some m0 → wf_media m →
  tr_ready tr = false →
  returns (sv ← track_set_waiting sv tr 0; set_track_at sv k t (MkTrack (tr_stream tr) true (Some m)))
    (λ sv', running locs sv' ∧ streamed sv sv' ∧ sv_lives sv' = sv_lives sv ∧ sv_sessions sv' = sv_sessions sv ∧
      sv_eps sv' = sv_eps sv ∧ ∃ src', sv_sources sv' !! k = Some src' ∧ lv_sess_list src' = lv_sess_list src ∧
      ∃ d, tr_stream tr = Some d ∧ is_waiting (sv_streams sv') d = false).
Proof.
  intros [Hs Hd] Ek Et Em Hm Hr. assert (is_Some (tr_rtp tr)) as Hsome by (by rewrite Em).
  destruct (track_set_waiting_ok sv k src t tr 0) as (w & d & Ed & -> & Hi & Hf & Hw & Ho); try done; [apply Hs|].
  rewrite bind_Ok.
  assert (served locs (with_streams sv w)) as Hs1.
  { eapply with_streams_served; [done|done| |done]. eapply (idle_set_flag sv k src t tr d); try done; [apply Hs| |].
    - apply idle_weaken, Hs.
    - by rewrite Hw. }
  destruct (set_track_ok locs (with_streams sv w) k src t tr true m0 m) as (E & Hr1 & Hm1); try done.
  { intros _. right. intros d' Ed'. assert (d' = d) as -> by congruence. exact Hw. }
  rewrite E. apply returns_Ok. split; [done|]. split; [|split; [done|]].
  - etrans; [|exact Hm1]. by split.
  - split; [done|]. split; [done|]. eexists. sv_cbn. rewrite lookup_insert_eq. split; [done|]. split; [done|].
    exists d. split; [done|]. exact Hw.
Qed.

Lemma next_live_frame_ok locs sv k t f pk cs src tr m :
  running locs sv → sv_sources sv !! k = Some src → lv_track src !! t = Some tr → tr_rtp tr = Some m →
  frame_ok m f pk →
  returns (next_live_frame sv k t f cs) (λ sv', running locs sv' ∧ streamed sv sv' ∧
    ∃ ok m', media_frame m f = Ok (ok, m') ∧
      if ok then reaches pk t (lv_sess_list src) sv sv' else sv_eps sv' = sv_eps sv).
Proof.
  intros Hr Ek Et Em (ok & m' & Ef & Hm' & Hsend). unfold next_live_frame.
  rewrite (deref_Ok _ _ _ Ek), bind_Ok, (rd_Ok _ _ _ Et), bind_Ok, Em, Ef, bind_Ok.
  destruct (set_track_ok locs sv k src t tr (tr_ready tr) m m') as (E1 & Hr1 & Hs1); try done; [auto|].
  rewrite E1, bind_Ok. set (sv1 := set_source_at _ _ _) in *.
  destruct ok; cbn [negb]; [|apply returns_Ok; split; [done|]; split; [done|]; by exists false, m'].
  set (src1 := with_tracks src (<[t:=MkTrack (tr_stream tr) (tr_ready tr) (Some m')]> (lv_track src))) in *.
  set (tr1 := MkTrack (tr_stream tr) (tr_ready tr) (Some m')) in *.
  assert (sv_sources sv1 !! k = Some src1) as Ek1 by (unfold sv1; sv_cbn; apply lookup_insert_eq).
  assert (lv_track src1 !! t = Some tr1) as Et1
    by (cbn; apply list_lookup_insert_eq; by eapply lookup_lt_Some).
  eapply (returns_bind _ (λ sv', running locs sv' ∧ streamed sv1 sv' ∧ sv_lives sv' = sv_lives sv ∧
    sv_sessions sv' = sv_sessions sv ∧ sv_eps sv' = sv_eps sv ∧
    ∃ src', sv_sources sv' !! k = Some src' ∧ lv_sess_list src' = lv_sess_list src)).
  - destruct (tr_ready tr) eqn:Hrdy; [apply returns_Ok; split_and!; try done; by exists src1|].
    eapply returns_mono; [apply (first_frame_ok locs sv1 k src1 t tr1 m' m'); try done|].
    intros sv' (H1 & H2 & H3 & H4 & H5 & src' & H6 & H7 & _). split_and!; try done. by exists src'.
  - intros sv2 (Hr2 & Hs2 & E2 & E3 & E4 & src2 & Ek2 & El2). rewrite (deref_Ok _ _ _ Ek2), bind_Ok, El2.
    eapply returns_mono; [apply (live_sessions_ok locs _ sv2 k t m' pk src2 [] (lv_sess_list src)); try done; [by apply Hsend|]|].
    { apply lookup_lt_Some in Et. by destruct (iv_source _ (se_inv _ _ (proj1 Hr)) _ _ Ek) as (_ & _ & <- & _). }
    intros sv3 (Hr3 & Hs3 & R). split; [done|]. split; [by etrans; [|etrans]|]. exists true, m'. split; [done|].
    eapply reaches_same; try done. etrans; [apply (sm_wire _ _ Hs1)|apply (sm_wire _ _ Hs2)].
Qed.

(** ** The events of an endpoint *)

Lemma rtcp_fire_ok locs sv e c :
  running locs sv → is_Some (sv_eps sv !! e) →
  returns (rtcp_fire sv e c) (λ sv', running locs sv' ∧ streamed sv sv').
Proof.
  intros Hr [y Ey]. unfold rtcp_fire. rewrite (deref_Ok _ _ _ Ey), bind_Ok.
  destruct (rtcp_send_ok (sv_wire sv) (e_ep y)) with (c := c) as ([[r ep] w] & Esend & Hw & Hk);
    [apply Hr|intros c' cx; apply (se_rings _ _ (proj1 Hr))|by eapply ep_connected; [apply Hr|]|].
  rewrite Esend, bind_Ok. destruct Hk as (K1 & K2 & K3). cbn [fst snd] in *.
  pose proof (se_eps _ _ (proj1 Hr) _ _ Ey) as Hf.
  eapply returns_mono; [apply (ep_done_ok locs); try done|by intros sv' (H1 & H2 & _)].
  unfold fit_ep, wf_ep_qos in *. by rewrite K2, K3.
Qed.

Lemma on_udp_rtp_ok locs sv e ret c :
  running locs sv → is_Some (sv_eps sv !! e) →
  returns (on_udp_rtp sv e ret c) (λ sv', running locs sv' ∧ streamed sv sv').
Proof.
  intros Hr [y Ey]. unfold on_udp_rtp, udp_rtp_read. rewrite (deref_Ok _ _ _ Ey), bind_Ok.
  pose proof (se_eps _ _ (proj1 Hr) _ _ Ey) as Hf.
  destruct (0 <? ret); (eapply returns_mono; [by apply (ep_done_ok locs)|by intros sv' (H1 & H2 & _)]).
Qed.

(** An endpoint that has seen a report. *)
Lemma report_fit ep ep' t : fit_ep ep → wf_ep_qos ep' → same_stream (set_rtcp_recv ep t) ep' →
  fit_ep ep' ∧ ep_trans ep' = ep_trans ep.
Proof. intros [_ H] Hq Hs. unfold fit_ep. rewrite Hs in *. done. Qed.

Lemma on_udp_rtcp_ok locs sv e ret buf c :
  running locs sv → is_Some (sv_eps sv !! e) → Forall is_byte buf →
  returns (on_udp_rtcp sv e ret buf c) (λ sv', running locs sv' ∧ streamed sv sv').
Proof.
  intros Hr [y Ey] Hb. unfold on_udp_rtcp, udp_rtcp_read. rewrite (deref_Ok _ _ _ Ey), bind_Ok.
  pose proof (se_eps _ _ (proj1 Hr) _ _ Ey) as Hf.
  destruct (0 <? ret); [|rewrite bind_Ok; eapply returns_mono; [by apply (ep_done_ok locs)|by intros sv' (H1 & H2 & _)]].
  destruct (ProcRTCPPacket_ok (set_rtcp_recv (e_ep y) (c 0%nat).1) (take (Z.to_nat ret) buf) (later c 1))
    as (ep' & acts & E & Hq & Hs & _); [apply Hf|by apply Forall_take|].
  rewrite E, !bind_Ok. destruct (report_fit _ _ _ Hf Hq Hs) as [Hf' Ht].
  eapply returns_mono; [by apply (ep_done_ok locs)|by intros sv' (H1 & H2 & _)].
Qed.

Lemma interleave_recv_ok locs sv c cx chan d cl :
  running locs sv → sv_conns sv !! c = Some cx → Forall is_byte d → 0 <= chan →
  (∃ rc, cn_proto_state cx = Some rc ∧ is_Some (sv_rconns sv !! rc)) →
  returns (interleave_recv sv c chan d cl) (λ sv', running locs sv' ∧ streamed sv sv').
Proof.
  intros Hr Ec Hb Hch (rc & Ep & [tbl Er]). unfold interleave_recv. rewrite (deref_Ok _ _ _ Ec), bind_Ok.
  destruct (Z.leb_spec (Z.of_nat MAX_INTERLEAVE_CHANNELS) chan); [by apply returns_Ok|].
  rewrite Ep, (deref_Ok _ _ _ Er), bind_Ok. pose proof (se_inv _ _ (proj1 Hr)) as Hi.
  destruct (iv_rconn _ Hi _ _ Er) as (Hl & c' & cx' & _ & _ & _ & Hch').
  destruct (lookup_lt_is_Some_2 tbl (Z.to_nat chan)) as [ch Ech]; [lia|]. rewrite (rd_Ok _ _ _ Ech), bind_Ok.
  destruct ch as [[e|] rtcp]; cbn [ic_ep ic_rtcp]; [|by apply returns_Ok]. destruct rtcp; [|by apply returns_Ok].
  destruct (Hch' _ _ _ Ech) as (y & a & b & Ey & _). rewrite (deref_Ok _ _ _ Ey), bind_Ok.
  pose proof (se_eps _ _ (proj1 Hr) _ _ Ey) as Hf. unfold interleave_recv_rtcp.
  destruct (ProcRTCPPacket_ok (set_rtcp_recv (e_ep y) (cl 0%nat).1) d (later cl 1))
    as (ep' & acts & E & Hq & Hs & _); [apply Hf|done|].
  rewrite E, bind_Ok. destruct (report_fit _ _ _ Hf Hq Hs) as [Hf' Ht]. apply returns_Ok.
  by destruct (put_ep_ok locs sv e y ep' (sv_wire sv)) as [H1 H2].
Qed.

(** ** Frames that can be sent *)

(** A JPEG file, with whatever follows it in the buffer. *)
Lemma jpeg_frame_ok out0 f pad ts now_ms :
  wf_file f →
  ∃ pk, frame_ok (MediaJpeg out0)
    (MkLiveFrame (jpeg_bytes f ++ pad) (Z.of_nat (length (jpeg_bytes f))) ts now_ms) pk.
Proof.
  intros Hf. pose proof Hf as (Hsam & Hw & Hh & Hr & Hl & Hc & _ & _ & _ & _ & Hscan).
  destruct (jpeg_process_file f pad now_ms out0 Hf)
    as (out & lp & cp & Ep & Et & Ew & Eh & El & Ec & Q0 & Q1 & Es & Esl & Edri & Ets).
  exists (jpeg_packets out (jf_luma f) (jf_chroma f) (jf_scan f)), true, (MediaJpeg out).
  cbn [media_frame lf_d lf_length lf_now_ms]. rewrite Ep, bind_Ok. split; [done|]. split; [done|].
  intros _ w ep cs Hmax. cbn [media_send].
  apply jpeg_send_calls with (lp := lp) (cp := cp) (extra := pad); rewrite ?El, ?Ec, ?Et, ?Ew, ?Eh; done.
Qed.

(** Samples of a raw format. *)
Lemma raw_frame_ok out0 d pad ts now_ms :
  wf_media (MediaRaw out0) → 0 < ra_channels out0 → 0 < ra_sampsize out0 → ra_channels out0 * ra_sampsize out0 <= 145 →
  ∃ pk, frame_ok (MediaRaw out0) (MkLiveFrame (d ++ pad) (Z.of_nat (length d)) ts now_ms) pk.
Proof.
  intros Hm Hch Hss Hk. set (out := MkRaw (d ++ pad) (Z.of_nat (length d)) (ra_format out0) (ra_sampsize out0)
    (ra_channels out0) (ra_rate out0) ts).
  exists (rawaudio_packets out d), true, (MediaRaw out). split; [done|]. split; [done|].
  intros _ w ep cs Hmax. cbn [media_send]. apply rawaudio_send_calls with (pad := pad); try done. cbn. lia.
Qed.
