(* ===== verification/Http.v ===== *)
(** * Pictures over HTTP ([http.c])

    An HTTP location shows the frames of a JPEG stream: the last one on request, or every
    one as the parts of a multipart reply.  A connection that streams has a session in the
    list of its location and a pointer to it in [proto_state]. *)

From Stdlib Require Import String.
From S2P Require Import Prelude CString Pmsg HttpAuth SendBuf Frame Stream Rtcp Rtp RtpMedia Server ServerInv ServerOps Reply Rtsp Live.

Local Open Scope Z_scope.
Local Open Scope c_scope.

(** ** Data *)

(** [hl_path] is the whole array; the frame is its bytes and [length]. *)
Record http_location := MkHttpLoc {
  hl_path : list Z;
  hl_input : option nat;
  hl_frame : option (list Z * Z);
  hl_length_with_jfif : Z;
  hl_sess_list : list nat;
  hl_streaming : bool }.

Record http_stream_session := MkHttpSess { hs_loc : nat; hs_conn : nat }.

(** [http_loc_list], the locations and the sessions. *)
Record http_state := MkHttp {
  ht_loc_list : list nat;
  ht_locs : gmap nat http_location;
  ht_sess : gmap nat http_stream_session }.

(** The state of the request handlers: RTSP, with the connections, and HTTP. *)
Record web_state := MkWeb { wb_rtsp : rtsp_state; wb_http : http_state }.

Definition wb_server (st : web_state) : server := rt_server (wb_rtsp st).
Definition put_server (st : web_state) (sv : server) : web_state := MkWeb (with_server (wb_rtsp st) sv) (wb_http st).
Definition put_http (st : web_state) (h : http_state) : web_state := MkWeb (wb_rtsp st) h.
Definition log_http (st : web_state) (code length : Z) : web_state := MkWeb (log_request (wb_rtsp st) code length) (wb_http st).

Definition set_loc (h : http_state) (p : nat) (x : http_location) : http_state :=
  MkHttp (ht_loc_list h) (<[p := x]> (ht_locs h)) (ht_sess h).

Definition with_sess_list (x : http_location) (l : list nat) : http_location :=
  MkHttpLoc (hl_path x) (hl_input x) (hl_frame x) (hl_length_with_jfif x) l (hl_streaming x).

(** ** Locations *)

Fixpoint http_find_location (h : http_state) (l : list nat) (path : list Z) (len : nat) : outcome (option nat) :=
  match l with
  | [] => Ok None
  | p :: l =>
      loc ← deref (ht_locs h) p;
      let s := default [] (take_string (hl_path loc)) in
      if strneq path s (length s) then
        c ← rd (hl_path loc) len;
        if (c =? 47) || (c =? 0) then Ok (Some p) else http_find_location h l path len
      else http_find_location h l path len
  end.

(** [path[len - 1]] of an empty path is outside the string. *)
Definition find_http_location (h : http_state) (path : list Z) : outcome (option nat) :=
  match last path with
  | None => Undef
  | Some c => http_find_location h (ht_loc_list h) path (if c =? 47 then length path - 1 else length path)
  end.

(** ** Replies *)

Definition http_create_reply (block : list Z) (code : Z) (reason : list Z) : pmsg :=
  let m := MkPmsg block 0 [] None None in
  let '(proto, m) := add_pmsg_string m (lit "HTTP/1.0") in
  let '(r, m) := add_pmsg_string m reason in
  MkPmsg (p_msg m) (p_msg_len m) (p_fields m) (Some (PMSG_RESP code r)) proto.

(** [c->drop_after = 1]. *)
Definition set_drop_after (sv : server) (c : nat) : outcome server :=
  cx ← deref (sv_conns sv) c;
  Ok (set_conn_at sv c
        (MkConn (cn_fd cx) (cn_second_fd cx) (cn_addr cx) (cn_second_event cx) (cn_proto cx) (cn_cookie cx)
           (cn_base64_count cx) (cn_req_buf cx) (cn_req_len cx) (cn_ring cx) true (cn_proto_state cx))).

Definition http_send_error (st : web_state) (c : nat) (block : list Z) (code : Z) (reason t : list Z) : outcome web_state :=
  let st := log_http st code 0 in
  let m := http_create_reply block code reason in
  let m := (add_header m (lit "Connection") (lit "close")).2 in
  let m := (add_header m (lit "Content-Type") (lit "text/html")).2 in
  sv ← set_drop_after (wb_server st) c;
  '(sent, sv) ← send_reply sv c m (Some (Z.of_nat (length t)));
  sv ← (if (sent : bool) then send_on sv c t else Ok sv);
  Ok (put_server st sv).

(** ** Sessions *)

Definition http_conn_disconnect (st : web_state) (c : nat) : outcome web_state :=
  cx ← deref (sv_conns (wb_server st)) c;
  match cn_proto_state cx with
  | None => Undef
  | Some p =>
      s ← deref (ht_sess (wb_http st)) p;
      loc ← deref (ht_locs (wb_http st)) (hs_loc s);
      let h := set_loc (wb_http st) (hs_loc s) (with_sess_list loc (unlink p (hl_sess_list loc))) in
      Ok (put_http st (MkHttp (ht_loc_list h) (ht_locs h) (delete p (ht_sess h))))
  end.

Definition add_http_stream_session (st : web_state) (p c : nat) : outcome web_state :=
  let '(s, sv) := malloc (wb_server st) in
  let h := wb_http st in
  loc ← deref (ht_locs h) p;
  let h := set_loc h p (with_sess_list loc (s :: hl_sess_list loc)) in
  let h := MkHttp (ht_loc_list h) (ht_locs h) (<[s := MkHttpSess p c]> (ht_sess h)) in
  cx ← deref (sv_conns sv) c;
  Ok (put_http (put_server st (set_conn_at sv c (with_proto_state cx (Some s)))) h).

(** ** Frames *)

Definition add_jfif : list Z :=
  [0xff; 0xd8; 0xff; 0xe0; 0x00; 0x10; 0x4a; 0x46; 0x49; 0x46; 0x00; 0x01; 0x02; 0x01; 0x00; 0x48; 0x00; 0x48; 0x00; 0x00].

(** [send_data(c, p, n)]; nothing is read for a negative [n]. *)
Definition send_bytes (sv : server) (c : nat) (p : list Z) (n : Z) : outcome server :=
  d ← (if n <? 0 then Ok [] else bytes_at p n); send_on sv c d.

Definition send_frame_with_jfif (sv : server) (c : nat) (loc : http_location) : outcome server :=
  match hl_frame loc with
  | None => Undef
  | Some (d, len) =>
      if len <? hl_length_with_jfif loc then
        sv ← send_on sv c add_jfif; send_bytes sv c (drop 2 d) (len - 2)
      else send_bytes sv c d len
  end.

Definition multipart_head (len : Z) : list Z :=
  lit "--boundary" ++ crlf ++ lit "Content-Type: image/jpeg" ++ crlf ++ lit "Content-Length: " ++ dec len ++ crlf ++ crlf.

Definition send_multipart_frame (sv : server) (c : nat) (loc : http_location) : outcome server :=
  let hdrs := multipart_head (hl_length_with_jfif loc) in
  if (128 <=? length hdrs)%nat then Undef else
  cx ← deref (sv_conns sv) c;
  if Z.of_nat (avail_send_buf (cn_ring cx)) <? hl_length_with_jfif loc + Z.of_nat (length hdrs) then Ok sv else
  sv ← send_on sv c hdrs;
  send_frame_with_jfif sv c loc.

(** The loop over the sessions of a location. *)
Fixpoint send_sessions (st : web_state) (l : list nat) (loc : http_location) : outcome web_state :=
  match l with
  | [] => Ok st
  | p :: l =>
      s ← deref (ht_sess (wb_http st)) p;
      sv ← send_multipart_frame (wb_server st) (hs_conn s) loc;
      send_sessions (put_server st sv) l loc
  end.

(** [strcmp(f->d + 6, "JFIF")] needs the storage to have the bytes it compares; the
    first difference ends it. *)
Fixpoint bytes_differ (d : list Z) (i : nat) (s : list Z) : outcome bool :=
  match s with
  | [] => Ok false
  | b :: s => c ← rd d i; if c =? b then bytes_differ d (S i) s else Ok true
  end.

Definition jpeg_next_frame (st : web_state) (p : nat) (f : live_frame) : outcome web_state :=
  b0 ← rd (lf_d f) 0;
  b1 ← (if b0 =? 0xff then rd (lf_d f) 1 else Ok 0);
  b2 ← (if b1 =? 0xd8 then rd (lf_d f) 2 else Ok 0);
  if negb (b2 =? 0xff) then Ok st else
  loc ← deref (ht_locs (wb_http st)) p;
  b3 ← rd (lf_d f) 3;
  b10 ← (if b3 =? 0xe0 then rd (lf_d f) 10 else Ok 1);
  differ ← (if (b3 =? 0xe0) && (b10 =? 0) then bytes_differ (lf_d f) 6 (lit "JFIF" ++ [0]) else Ok true);
  let len := if (differ : bool) then lf_length f + 18 else lf_length f in
  let loc := MkHttpLoc (hl_path loc) (hl_input loc) (Some (lf_d f, lf_length f)) len (hl_sess_list loc) (hl_streaming loc) in
  send_sessions (put_http st (set_loc (wb_http st) p loc)) (hl_sess_list loc) loc.

(** ** Requests *)

Definition not_found_text : list Z := lit "<html><body><p>File not found</p></body></html>".
Definition no_image_text : list Z := lit "<html><body><p>Image not available</p></body></html>".
Definition no_post_text : list Z := lit "<html><body><p>POST requests are unsupported here</p></body></html>".

Definition http_handle_GET (st : web_state) (c : nat) (req : pmsg) (v : env) : outcome web_state :=
  uri ← req_uri req;
  r ← find_http_location (wb_http st) uri;
  let error (text : list Z) := http_send_error st c (v_block v 0%nat) 404 (lit "Not Found") text in
  match r with
  | None => error not_found_text
  | Some p =>
      loc ← deref (ht_locs (wb_http st)) p;
      if (length (default [] (take_string (hl_path loc))) <? length uri)%nat then error not_found_text else
      cx ← deref (sv_conns (wb_server st)) c;
      match hl_frame loc with
      | None => error no_image_text
      | Some (d, len) =>
          if Z.of_nat (avail_send_buf (cn_ring cx)) <? len + 400 then error no_image_text else
          let m := http_create_reply (v_block v 0%nat) 200 (lit "OK") in
          let m := (add_header m (lit "Expires") (lit "0")).2 in
          let m := (add_header m (lit "Pragma") (lit "no-cache")).2 in
          let m := (add_header m (lit "Cache-Control") (lit "no-cache")).2 in
          if hl_streaming loc then
            let st := log_http st 200 0 in
            let m := (add_header m (lit "Content-Type")
                        (lit "multipart/x-mixed-replace;boundary=" ++ [dquote] ++ lit "boundary" ++ [dquote])).2 in
            '(_, sv) ← send_reply (wb_server st) c m None;
            st ← add_http_stream_session (put_server st sv) p c;
            loc ← deref (ht_locs (wb_http st)) p;
            sv ← send_multipart_frame (wb_server st) c loc;
            Ok (put_server st sv)
          else
            let st := log_http st 200 len in
            let m := (add_header m (lit "Connection") (lit "close")).2 in
            let m := (add_header m (lit "Content-Type") (lit "image/jpeg")).2 in
            sv ← set_drop_after (wb_server st) c;
            '(sent, sv) ← send_reply sv c m (Some (hl_length_with_jfif loc));
            sv ← (if (sent : bool) then send_frame_with_jfif sv c loc else Ok sv);
            Ok (put_server st sv)
      end
  end.

Definition http_handle_unknown (st : web_state) (c : nat) (v : env) : outcome web_state :=
  http_send_error st c (v_block v 0%nat) 501 (lit "Not Implemented") no_post_text.

Definition http_handle_msg (st : web_state) (c : nat) (req : pmsg) (v : env) : outcome web_state :=
  method ← req_method req;
  if strcaseeq method (lit "GET") then http_handle_GET st c req v else http_handle_unknown st c v.

(** ** Configuration *)

Definition http_start_block (st : web_state) (junk : list Z) : outcome (nat * web_state) :=
  let '(p, sv) := malloc (wb_server st) in
  path ← init_location [] junk;
  let h := wb_http st in
  Ok (p, put_http (put_server st sv)
           (MkHttp (p :: ht_loc_list h) (<[p := MkHttpLoc path None None 0 [] false]> (ht_locs h)) (ht_sess h))).

(** [end_block]: [false] is -1. *)
Definition http_end_block (st : web_state) (p : nat) : outcome (bool * web_state) :=
  loc ← deref (ht_locs (wb_http st)) p;
  match hl_input loc with
  | None => Ok (false, st)
  | Some d =>
      if bool_decide (default [] (take_string (hl_path loc)) = []) then Ok (false, st) else
      let sv := wb_server st in
      w ← set_waiting (st_fresh (sv_streams sv)) (sv_streams sv) d 1;
      Ok (true, put_server st (with_streams sv w))
  end.

(** [client] is how the location is named to the stream. *)
Definition http_set_input (st : web_state) (p : nat) (name : list Z) (client : nat) : outcome (bool * web_state) :=
  loc ← deref (ht_locs (wb_http st)) p;
  let sv := wb_server st in
  '(d, w) ← connect_to_stream (sv_streams sv) name client [FORMAT_JPEG];
  let st := put_server st (with_streams sv w) in
  let loc := MkHttpLoc (hl_path loc) d (hl_frame loc) (hl_length_with_jfif loc) (hl_sess_list loc) (hl_streaming loc) in
  Ok (match d with Some _ => true | None => false end, put_http st (set_loc (wb_http st) p loc)).

Definition http_set_path (st : web_state) (p : nat) (path : list Z) : outcome web_state :=
  loc ← deref (ht_locs (wb_http st)) p;
  a ← init_location path (hl_path loc);
  let loc := MkHttpLoc a (hl_input loc) (hl_frame loc) (hl_length_with_jfif loc) (hl_sess_list loc) (hl_streaming loc) in
  Ok (put_http st (set_loc (wb_http st) p loc)).

Definition http_set_mode (st : web_state) (p : nat) (mode : list Z) : outcome (bool * web_state) :=
  loc ← deref (ht_locs (wb_http st)) p;
  let put (b : bool) :=
    put_http st (set_loc (wb_http st) p
      (MkHttpLoc (hl_path loc) (hl_input loc) (hl_frame loc) (hl_length_with_jfif loc) (hl_sess_list loc) b)) in
  if strcaseeq mode (lit "single") then Ok (true, put false)
  else if strcaseeq mode (lit "stream") then Ok (true, put true)
  else Ok (false, st).
