(* ===== verification/Tcp.v ===== *)
(** * TCP connections ([tcp.c])

    Accepting, reading and dropping connections; recognising the protocol; requests and
    interleaved packets taken from the read buffer; RTSP tunnelled in HTTP. *)

From Stdlib Require Import String.
From S2P Require Import Prelude CString Pmsg HttpAuth SendBuf Base64 Frame Stream Rtcp Rtp RtpMedia Server ServerInv ServerOps Reply Rtsp Live Http.

Local Open Scope Z_scope.
Local Open Scope c_scope.

(** ** State *)

(** [conn_list] besides the connections themselves. *)
Record tcp_state := MkTcp { tc_web : web_state; tc_list : list nat }.

Definition tc_server (st : tcp_state) : server := wb_server (tc_web st).
Definition put_web (st : tcp_state) (w : web_state) : tcp_state := MkTcp w (tc_list st).
Definition put_sv (st : tcp_state) (sv : server) : tcp_state := put_web st (put_server (tc_web st) sv).
Definition put_rtsp (st : tcp_state) (r : rtsp_state) : tcp_state := put_web st (MkWeb r (wb_http (tc_web st))).

Definition REQ_BUF_SIZE : nat := 4096.
Definition SEND_BUF_SIZE : nat := Z.to_nat 65536.

(** Changes of the fields of a connection. *)
Definition with_input (cx : conn) (buf : list Z) (len : nat) (count : Z) : conn :=
  MkConn (cn_fd cx) (cn_second_fd cx) (cn_addr cx) (cn_second_event cx) (cn_proto cx) (cn_cookie cx)
    count buf len (cn_ring cx) (cn_drop_after cx) (cn_proto_state cx).

Definition with_proto (cx : conn) (p : conn_proto) : conn :=
  MkConn (cn_fd cx) (cn_second_fd cx) (cn_addr cx) (cn_second_event cx) p (cn_cookie cx)
    (cn_base64_count cx) (cn_req_buf cx) (cn_req_len cx) (cn_ring cx) (cn_drop_after cx) (cn_proto_state cx).

Definition with_tunnel (cx : conn) (cookie : list Z) : conn :=
  MkConn (cn_fd cx) (cn_second_fd cx) (cn_addr cx) (cn_second_event cx) CONN_PROTO_RTSP cookie
    0 (cn_req_buf cx) (cn_req_len cx) (cn_ring cx) (cn_drop_after cx) (cn_proto_state cx).

Definition with_second (cx : conn) (fd : Z) (event : bool) : conn :=
  MkConn (cn_fd cx) fd (cn_addr cx) event (cn_proto cx) (cn_cookie cx)
    (cn_base64_count cx) (cn_req_buf cx) (cn_req_len cx) (cn_ring cx) (cn_drop_after cx) (cn_proto_state cx).

Definition with_fd (cx : conn) (fd : Z) : conn :=
  MkConn fd (cn_second_fd cx) (cn_addr cx) (cn_second_event cx) (cn_proto cx) (cn_cookie cx)
    (cn_base64_count cx) (cn_req_buf cx) (cn_req_len cx) (cn_ring cx) (cn_drop_after cx) (cn_proto_state cx).

Definition update_conn (st : tcp_state) (c : nat) (f : conn → conn) : outcome tcp_state :=
  cx ← deref (sv_conns (tc_server st)) c;
  Ok (put_sv st (set_conn_at (tc_server st) c (f cx))).

(** ** The end of a connection *)

(** The events and descriptors of the connection go with it. *)
Definition drop_conn (st : tcp_state) (c : nat) : outcome tcp_state :=
  cx ← deref (sv_conns (tc_server st)) c;
  st ← match cn_proto_state cx, cn_proto cx with
       | Some _, CONN_PROTO_HTTP => w ← http_conn_disconnect (tc_web st) c; Ok (put_web st w)
       | Some _, CONN_PROTO_RTSP => sv ← rtsp_conn_disconnect (tc_server st) c; Ok (put_sv st sv)
       | _, _ => Ok st
       end;
  let sv := tc_server st in
  let st := put_sv st (with_conns sv (delete c (sv_conns sv))) in
  Ok (MkTcp (tc_web st) (unlink c (tc_list st))).

(** [conn_write]: the write event; [ws] are the results of its [write] calls. *)
Definition on_writable (st : tcp_state) (c : nat) (ws : list write_result) : outcome tcp_state :=
  cx ← deref (sv_conns (tc_server st)) c;
  '(drop, r, _) ← conn_write ws (cn_ring cx) (cn_drop_after cx);
  st ← update_conn st c (λ cx, with_ring cx r);
  if (drop : bool) then drop_conn st c else Ok st.

(** ** Tunnelled RTSP *)

Definition no_cookie_text : list Z :=
  lit "HTTP/1.0 400 Missing session cookie" ++ crlf ++ lit "Connection: close" ++ crlf ++
  lit "Content-Type: text/html" ++ crlf ++ crlf ++
  lit "<html><body><p>Broken RTSP/HTTP tunnel request</p></body></html>" ++ [LF].
Definition bad_cookie_text : list Z :=
  lit "HTTP/1.0 400 Unknown session cookie" ++ crlf ++ lit "Connection: close" ++ crlf ++
  lit "Content-Type: text/html" ++ crlf ++ crlf ++
  lit "<html><body><p>Broken RTSP/HTTP tunnel request</p></body></html>" ++ [LF].
Definition tunnel_text : list Z :=
  lit "HTTP/1.0 200 OK" ++ crlf ++ lit "Connection: close" ++ crlf ++ lit "Cache-Control: no-cache" ++ crlf ++
  lit "Pragma: no-cache" ++ crlf ++ lit "Content-Type: application/x-rtsp-tunnelled" ++ crlf ++ crlf.

(** A refusal: the text is sent and the connection dropped after it. *)
Definition tunnel_error (st : tcp_state) (c : nat) (text : list Z) : outcome tcp_state :=
  sv ← send_on (tc_server st) c text;
  sv ← set_drop_after sv c;
  Ok (put_sv st sv).

(** The connection whose cookie is [t]. *)
Fixpoint find_cookie (sv : server) (l : list nat) (t : list Z) : outcome (option nat) :=
  match l with
  | [] => Ok None
  | c :: l =>
      cx ← deref (sv_conns sv) c;
      if streq (cn_cookie cx) t then Ok (Some c) else find_cookie sv l t
  end.

(** [true] is [return 1]: the POST connection has become the second one of its GET. *)
Definition handle_QT_tunnel (st : tcp_state) (c : nat) (req : pmsg) (post : bool) : outcome (bool * tcp_state) :=
  match get_header req (lit "x-sessioncookie") with
  | None => st ← tunnel_error st c no_cookie_text; Ok (false, st)
  | Some t =>
      if (128 <? length t + 1)%nat then st ← tunnel_error st c no_cookie_text; Ok (false, st) else
      if negb post then
        sv ← send_on (tc_server st) c tunnel_text;
        st ← update_conn (put_sv st sv) c (λ cx, with_tunnel cx t);
        Ok (false, st)
      else
        r ← find_cookie (tc_server st) (tc_list st) t;
        match r with
        | None => st ← tunnel_error st c bad_cookie_text; Ok (false, st)
        | Some cg =>
            cx ← deref (sv_conns (tc_server st)) c;
            st ← update_conn st cg (λ g, with_second g (cn_fd cx) true);
            st ← update_conn st c (λ cx, with_fd cx (-1));
            Ok (true, st)
        end
  end.

(** The handlers return [false] for -1. *)
Definition tunnel_or_http (st : tcp_state) (c : nat) (req : pmsg) (header : list Z) (post : bool) (v : env)
    : outcome (bool * tcp_state) :=
  let http := w ← http_handle_msg (tc_web st) c req v; Ok (true, put_web st w) in
  match get_header req header with
  | Some t =>
      if strcaseeq t (lit "application/x-rtsp-tunnelled") then
        '(gone, st) ← handle_QT_tunnel st c req post; Ok (negb gone, st)
      else http
  | None => http
  end.

Definition handle_GET (st : tcp_state) (c : nat) (req : pmsg) (v : env) := tunnel_or_http st c req (lit "Accept") false v.
Definition handle_POST (st : tcp_state) (c : nat) (req : pmsg) (v : env) := tunnel_or_http st c req (lit "Content-Type") true v.

(** [handle_unknown], in a block of 256 bytes; [proto_id] as parsed. *)
Definition handle_unknown (st : tcp_state) (c : nat) (req : pmsg) (v : env) : outcome tcp_state :=
  let st := put_rtsp st (log_request (wb_rtsp (tc_web st)) 501 0) in
  sv ← set_drop_after (tc_server st) c;
  let m := MkPmsg (take 256 (v_block v 0%nat)) 0 [] None None in
  let '(proto, m) := add_pmsg_string m (match p_proto_id req with Some p => str_of req p | None => [] end) in
  let '(r, m) := add_pmsg_string m (lit "Not Implemented") in
  let m := MkPmsg (p_msg m) (p_msg_len m) (p_fields m) (Some (PMSG_RESP 501 r)) proto in
  '(_, sv) ← send_reply sv c (copy_headers m req (lit "CSeq")).2 None;
  Ok (put_sv st sv).

(** ** Requests *)

(** [false] is -1.  The line for the log prints [sl.req] of whatever was parsed. *)
Definition handle_request (locs : list rtsp_location) (st : tcp_state) (c : nat) (v : env) : outcome (bool * tcp_state) :=
  cx ← deref (sv_conns (tc_server st)) c;
  b ← rd (cn_req_buf cx) 0;
  if b =? 0 then Ok (false, st) else
  match parse_pmsg (MkPmsg (take (cn_req_len cx) (cn_req_buf cx)) (cn_req_len cx) [] None None) with
  | Fail => Ok (false, st)
  | Undef => Undef
  | Diverge => Diverge
  | Ok (req, _) =>
      method ← req_method req;
      match cn_proto cx with
      | CONN_PROTO_HTTP =>
          if strcaseeq method (lit "GET") then handle_GET st c req v
          else if strcaseeq method (lit "POST") then handle_POST st c req v
          else w ← http_handle_msg (tc_web st) c req v; Ok (true, put_web st w)
      | CONN_PROTO_RTSP => r ← rtsp_handle_msg locs (wb_rtsp (tc_web st)) c req v; Ok (true, put_rtsp st r)
      | CONN_PROTO_START => st ← handle_unknown st c req v; Ok (true, st)
      end
  end.

(** What one look at the buffer comes to: -1, 0 or 1. *)
Inductive parsed := Reject | Wait | Again.

(** [c->req_buf] as a string. *)
Definition req_string (cx : conn) : list Z := default [] (take_string (cn_req_buf cx)).

(** The protocol named at the end of the first line; [None] is -1. *)
Definition first_line_proto (line : list Z) : option conn_proto :=
  match strrchr line SP with
  | None => None
  | Some b =>
      if strneq (drop 1 b) (lit "HTTP/") 5 then Some CONN_PROTO_HTTP
      else if strneq (drop 1 b) (lit "RTSP/") 5 then Some CONN_PROTO_RTSP
      else None
  end.

(** A request that is complete is handled, and the buffer emptied. *)
Definition try_request (locs : list rtsp_location) (st : tcp_state) (c : nat) (cx : conn) (v : env)
    : outcome (parsed * tcp_state) :=
  match strstr (req_string cx) (crlf ++ crlf) with
  | None => Ok (Wait, st)
  | Some _ =>
      '(ok, st) ← handle_request locs st c v;
      if negb (ok : bool) then Ok (Reject, st) else
      st ← update_conn st c (λ cx, with_input cx (cn_req_buf cx) 0 (cn_base64_count cx));
      Ok (Wait, st)
  end.

Definition parse_client_data (locs : list rtsp_location) (st : tcp_state) (c : nat) (v : env)
    : outcome (parsed * tcp_state) :=
  cx ← deref (sv_conns (tc_server st)) c;
  match cn_proto cx with
  | CONN_PROTO_START =>
      match strchr (req_string cx) LF with
      | None => Ok (Wait, st)
      | Some a =>
          match first_line_proto (take (length (req_string cx) - length a) (req_string cx)) with
          | None => Ok (Reject, st)
          | Some p => st ← update_conn st c (λ cx, with_proto cx p); Ok (Again, st)
          end
      end
  | CONN_PROTO_RTSP =>
      if (cn_req_len cx <? 4)%nat then Ok (Wait, st) else
      b ← rd (cn_req_buf cx) 0;
      if b =? 36 then
        chan ← rd (cn_req_buf cx) 1;
        match GET_16 (drop 2 (cn_req_buf cx)) with
        | None => Undef
        | Some n =>
            if Z.of_nat (cn_req_len cx) <? n + 4 then Ok (Wait, st) else
            sv ← interleave_recv (tc_server st) c chan (take (Z.to_nat n) (drop 4 (cn_req_buf cx))) (v_clock v);
            st ← update_conn (put_sv st sv) c (λ cx, with_input cx (cn_req_buf cx) 0 (cn_base64_count cx));
            Ok (Wait, st)
        end
      else try_request locs st c cx v
  | CONN_PROTO_HTTP => try_request locs st c cx v
  end.

(** [while ((ret = parse_client_data(c)) > 0)]; the protocol is recognised once. *)
Fixpoint parse_all (fuel : nat) (locs : list rtsp_location) (st : tcp_state) (c : nat) (v : env)
    : outcome (bool * tcp_state) :=
  match fuel with
  | O => Diverge
  | S fuel =>
      '(r, st) ← parse_client_data locs st c v;
      match r with
      | Again => parse_all fuel locs st c v
      | Wait => Ok (true, st)
      | Reject => Ok (false, st)
      end
  end.

(** ** Reading *)

Inductive read_result :=
| ReadData (d : list Z)
| ReadAgain
| ReadEnd.        (* 0, or an error other than EAGAIN *)

(** The bytes go behind the buffered ones; [read] was given the room that is left. *)
Definition store_input (cx : conn) (d : list Z) : outcome conn :=
  if (REQ_BUF_SIZE - cn_req_len cx - 1 <? length d)%nat then Undef else
  if 0 <=? cn_base64_count cx then
    '(buf, len, count) ← tunnel_read (cn_req_buf cx) (cn_req_len cx) (Z.to_nat (cn_base64_count cx)) d;
    Ok (with_input cx buf len (Z.of_nat count))
  else Ok (with_input cx (splice (cn_req_len cx) d (cn_req_buf cx)) (cn_req_len cx + length d)%nat (cn_base64_count cx)).

(** One turn of the loop of [do_read]; [true] when the loop goes on. *)
Definition read_turn (locs : list rtsp_location) (st : tcp_state) (c : nat) (second : bool) (r : read_result) (v : env)
    : outcome (bool * tcp_state) :=
  match r with
  | ReadAgain => Ok (false, st)
  | ReadEnd =>
      st ← (if second then update_conn st c (λ cx, with_second cx (-1) false) else drop_conn st c);
      Ok (false, st)
  | ReadData d =>
      cx ← deref (sv_conns (tc_server st)) c;
      cx ← store_input cx d;
      st ← update_conn st c (λ _, cx);
      if (cn_req_len cx =? REQ_BUF_SIZE - 1)%nat then st ← drop_conn st c; Ok (false, st) else
      if 0 <? cn_base64_count cx then Ok (true, st) else
      buf ← wr (cn_req_buf cx) (cn_req_len cx) 0;
      st ← update_conn st c (λ cx, with_input cx buf (cn_req_len cx) (cn_base64_count cx));
      '(ok, st) ← parse_all 2 locs st c v;
      if (ok : bool) then Ok (true, st) else st ← drop_conn st c; Ok (false, st)
  end.

(** [do_read]: [rs] are the results of the [read] calls; a loop that goes on after them
    has not returned. *)
Fixpoint do_read (locs : list rtsp_location) (st : tcp_state) (c : nat) (second : bool) (rs : list (read_result * env))
    : outcome tcp_state :=
  match rs with
  | [] => Diverge
  | (r, v) :: rs =>
      '(more, st) ← read_turn locs st c second r v;
      if (more : bool) then do_read locs st c second rs else Ok st
  end.

(** ** Accepting *)

(** [do_accept]; [junk] is what [malloc] leaves in the buffers. *)
Definition do_accept (st : tcp_state) (fd : Z) (addr junk_req junk_send : list Z) : tcp_state :=
  if fd <? 0 then st else
  let '(c, sv) := malloc (tc_server st) in
  let cx := MkConn fd (-1) addr false CONN_PROTO_START [] (-1) junk_req 0 (MkRing junk_send 0 0 false) false None in
  let st := put_sv st (set_conn_at sv c cx) in
  MkTcp (tc_web st) (c :: tc_list st).

(** [tcp_listen]: the results of [socket], [bind] and [listen]; [false] is -1. *)
Definition tcp_listen (socket bind listen : Z) : bool := (0 <=? socket) && (0 <=? bind) && (0 <=? listen).

Definition config_port (port : Z) (socket bind listen : Z) : bool :=
  if (port <=? 0) || (65535 <? port) then false else tcp_listen socket bind listen.
