(* ===== verification/TcpSafe.v ===== *)
(** * The server keeps its feet

    An invariant of the whole server -- connections, their buffers and what their untyped
    [proto_state] points to, HTTP locations and sessions, and all of [RtspSafe] and
    [LiveSafe] -- and that every event keeps it: connections come and go, bytes arrive in
    any portions, frames and reports come in between. *)

From Stdlib Require Import String.
From S2P Require Import Prelude CString Pmsg HttpAuth SendBuf Base64 Frame Stream Rtcp Rtp RtpMedia Server ServerInv ServerOps Reply Rtsp RtspSafe Live LiveSafe Http Tcp.

Local Open Scope Z_scope.
Local Open Scope c_scope.

(** ** The invariant *)

(** The buffer is an array of 4096 bytes with room for the NUL; what a tunnel has not
    decoded yet is an incomplete group at its end. *)
Definition wf_conn (cx : conn) : Prop :=
  length (cn_req_buf cx) = REQ_BUF_SIZE ∧ (cn_req_len cx < REQ_BUF_SIZE)%nat ∧
  Forall is_byte (take (cn_req_len cx) (cn_req_buf cx)) ∧
  (0 <= cn_base64_count cx → ∃ out rest,
     holds (cn_req_buf cx) (cn_req_len cx) (Z.to_nat (cn_base64_count cx)) out rest).

(** What [proto_state] points to depends on the protocol. *)
Definition conn_typed (sv : server) (h : http_state) (c : nat) (cx : conn) : Prop :=
  match cn_proto_state cx with
  | None => True
  | Some p =>
      match cn_proto cx with
      | CONN_PROTO_START => False
      | CONN_PROTO_RTSP => is_Some (sv_rconns sv !! p)
      | CONN_PROTO_HTTP => ∃ s, ht_sess h !! p = Some s ∧ hs_conn s = c
      end
  end.

(** The picture of a location is within its storage. *)
Definition wf_picture (loc : http_location) : Prop :=
  match hl_frame loc with
  | None => True
  | Some (d, len) =>
      2 <= len <= Z.of_nat (length d) ∧ len < 2 ^ 30 ∧
      (hl_length_with_jfif loc = len ∨ hl_length_with_jfif loc = len + 18)
  end.

Definition wf_http_loc (h : http_state) (p : nat) (loc : http_location) : Prop :=
  length (hl_path loc) = 256%nat ∧ wf_picture loc ∧
  ∀ s, s ∈ hl_sess_list loc → ∃ x, ht_sess h !! s = Some x ∧ hs_loc x = p.

(** A session is in the list of its location, and its connection knows it. *)
Definition wf_http_sess (sv : server) (h : http_state) (s : nat) (x : http_stream_session) : Prop :=
  (∃ loc, ht_locs h !! hs_loc x = Some loc ∧ s ∈ hl_sess_list loc) ∧
  (∃ cx, sv_conns sv !! hs_conn x = Some cx ∧ cn_proto cx = CONN_PROTO_HTTP ∧ cn_proto_state cx = Some s) ∧
  (s < sv_fresh sv)%nat ∧ sv_rconns sv !! s = None.

Record http_inv (sv : server) (h : http_state) : Prop := {
  hi_list p : p ∈ ht_loc_list h → is_Some (ht_locs h !! p);
  hi_loc p loc : ht_locs h !! p = Some loc → wf_http_loc h p loc;
  hi_sess s x : ht_sess h !! s = Some x → wf_http_sess sv h s x }.

Record tcp_inv (locs : list rtsp_location) (st : tcp_state) : Prop := {
  ti_running : running locs (tc_server st);
  ti_secret : wf_secret (rt_secret (wb_rtsp (tc_web st)));
  ti_list : NoDup (tc_list st) ∧ ∀ c, c ∈ tc_list st ↔ is_Some (sv_conns (tc_server st) !! c);
  ti_conn c cx : sv_conns (tc_server st) !! c = Some cx → wf_conn cx;
  ti_typed c cx : sv_conns (tc_server st) !! c = Some cx → conn_typed (tc_server st) (wb_http (tc_web st)) c cx;
  ti_http : http_inv (tc_server st) (wb_http (tc_web st)) }.

Lemma tcp_conn_ok locs st c cx :
  tcp_inv locs st → sv_conns (tc_server st) !! c = Some cx → cn_proto cx = CONN_PROTO_RTSP → conn_ok (tc_server st) c.
Proof.
  intros Hi E Hp. exists cx. split; [done|]. intros rc Er. pose proof (ti_typed _ _ Hi _ _ E) as Ht.
  unfold conn_typed in Ht. by rewrite Er, Hp in Ht.
Qed.

(** ** Changes of a server that keep the connections *)

(** The connections are the same but for their buffers; channels are only added. *)
Record calm (sv sv' : server) : Prop := {
  ca_conns c : match sv_conns sv !! c with
               | Some cx => ∃ r, sv_conns sv' !! c = Some (with_ring cx r)
               | None => sv_conns sv' !! c = None
               end;
  ca_rconns rc : is_Some (sv_rconns sv !! rc) → is_Some (sv_rconns sv' !! rc);
  ca_new rc : is_Some (sv_rconns sv' !! rc) → is_Some (sv_rconns sv !! rc) ∨ (sv_fresh sv <= rc)%nat;
  ca_fresh : (sv_fresh sv <= sv_fresh sv')%nat }.

Lemma streamed_calm sv sv' : streamed sv sv' → calm sv sv'.
Proof.
  intros H. split.
  - apply (wr_conns _ _ (sm_wire _ _ H)).
  - intros rc. apply (sm_rconns _ _ H).
  - intros rc Hr. left. by apply (sm_rconns _ _ H).
  - by rewrite (sm_fresh _ _ H).
Qed.

Lemma new_rconn_none sv sv' h s x :
  wf_http_sess sv h s x → (∀ rc, is_Some (sv_rconns sv' !! rc) → is_Some (sv_rconns sv !! rc) ∨ (sv_fresh sv <= rc)%nat) →
  sv_rconns sv' !! s = None.
Proof.
  intros (_ & _ & Hf & Hn) H. destruct (sv_rconns sv' !! s) eqn:E; [|done].
  destruct (H s) as [[? H']|H']; [by rewrite E|congruence|lia].
Qed.

Lemma kept_http sv sv' h :
  (∀ c cx, sv_conns sv !! c = Some cx → ∃ r, sv_conns sv' !! c = Some (with_ring cx r)) →
  (∀ rc, is_Some (sv_rconns sv' !! rc) → is_Some (sv_rconns sv !! rc) ∨ (sv_fresh sv <= rc)%nat) →
  (sv_fresh sv <= sv_fresh sv')%nat → http_inv sv h → http_inv sv' h.
Proof.
  intros Hc Hnew Hf Hh. split; [apply Hh|apply Hh|]. intros s x E. pose proof (hi_sess _ _ Hh _ _ E) as Hs.
  pose proof (new_rconn_none _ sv' _ _ _ Hs Hnew) as Hn. destruct Hs as (H1 & (cx & Ec & Hp & Hst) & H3 & H4).
  split; [done|]. split; [|split; [lia|done]]. destruct (Hc _ _ Ec) as [r E']. by exists (with_ring cx r).
Qed.

Lemma calm_http sv sv' h : calm sv sv' → http_inv sv h → http_inv sv' h.
Proof.
  intros Hc. apply kept_http; [|apply Hc..]. intros c cx E. pose proof (ca_conns _ _ Hc c) as H. by rewrite E in H.
Qed.

Lemma calm_tcp locs st sv' :
  tcp_inv locs st → running locs sv' → calm (tc_server st) sv' → tcp_inv locs (put_sv st sv').
Proof.
  intros Hi Hr Hc. assert (∀ c cx', sv_conns sv' !! c = Some cx' → ∃ cx r,
    sv_conns (tc_server st) !! c = Some cx ∧ cx' = with_ring cx r) as Hback.
  { intros c cx' E. pose proof (ca_conns _ _ Hc c) as H. destruct (sv_conns (tc_server st) !! c) as [cx|]; [|congruence].
    destruct H as [r E']. exists cx, r. split; [done|congruence]. }
  split; [done|apply Hi| | | |].
  - destruct (ti_list _ _ Hi) as [Hnd Hl]. split; [done|]. intros c. cbn [tc_list put_sv put_web]. rewrite Hl.
    pose proof (ca_conns _ _ Hc c) as H. unfold tc_server in H |- *. cbn in H |- *.
    destruct (sv_conns (wb_server (tc_web st)) !! c) as [cx|]; [destruct H as [r ->]|rewrite H]; done.
  - intros c cx' E. destruct (Hback _ _ E) as (cx & r & E' & ->). apply (ti_conn _ _ Hi _ _ E').
  - intros c cx' E. destruct (Hback _ _ E) as (cx & r & E' & ->). pose proof (ti_typed _ _ Hi _ _ E') as Ht.
    unfold conn_typed in *. cbn [with_ring cn_proto_state cn_proto]. destruct (cn_proto_state cx); [|done].
    destruct (cn_proto cx); try done. by apply (ca_rconns _ _ Hc).
  - apply (calm_http _ _ _ Hc), Hi.
Qed.

(** ** Changes of one connection *)

(** Any change but of [proto_state]. *)
Lemma conn_running locs sv c cx cx' :
  running locs sv → sv_conns sv !! c = Some cx → cn_proto_state cx' = cn_proto_state cx → wf_ring (cn_ring cx') →
  running locs (set_conn_at sv c cx').
Proof.
  intros [Hs Hd] E Hp Hw. split; [|done].
  assert (same_conns (sv_conns sv) (<[c := cx']> (sv_conns sv))) as Hc.
  { intros c'. destruct (decide (c' = c)) as [->|]; [rewrite lookup_insert_eq, E; cbn; by rewrite Hp|by rewrite lookup_insert_ne]. }
  apply (same_tracks_served _ _ _ Hs); try done; try apply Hs.
  - apply with_wire_inv; [apply Hs|done].
  - intros c' cx''. sv_cbn. destruct (decide (c' = c)) as [->|]; [rewrite lookup_insert_eq; by intros [= <-]|].
    rewrite lookup_insert_ne by done. apply Hs.
Qed.

(** An HTTP session stays with its connection. *)
Lemma conn_http sv h c cx cx' :
  http_inv sv h → sv_conns sv !! c = Some cx → cn_proto_state cx' = cn_proto_state cx → conn_typed sv h c cx' →
  http_inv (set_conn_at sv c cx') h.
Proof.
  intros Hh E Hp Ht. split; [apply Hh|apply Hh|]. intros s x Es.
  destruct (hi_sess _ _ Hh _ _ Es) as (H1 & (cx1 & Ec & Hpr & Hst) & H3 & H4).
  split; [done|]. split; [|done]. sv_cbn. destruct (decide (hs_conn x = c)) as [Heq|Hne].
  - rewrite Heq in Ec |- *. rewrite lookup_insert_eq. exists cx'. split; [done|]. assert (cx1 = cx) as -> by congruence.
    unfold conn_typed in Ht. rewrite Hp, Hst in Ht |- *. split; [|done].
    destruct (cn_proto cx'); [done| |done]. rewrite H4 in Ht. by destruct Ht.
  - rewrite lookup_insert_ne by done. eauto.
Qed.

Lemma conn_put locs st c cx cx' :
  tcp_inv locs st → sv_conns (tc_server st) !! c = Some cx → cn_proto_state cx' = cn_proto_state cx →
  wf_ring (cn_ring cx') → wf_conn cx' → conn_typed (tc_server st) (wb_http (tc_web st)) c cx' →
  tcp_inv locs (put_sv st (set_conn_at (tc_server st) c cx')).
Proof.
  intros Hi E Hp Hw Hwf Ht. split.
  - eapply conn_running; [apply Hi|done..].
  - apply Hi.
  - destruct (ti_list _ _ Hi) as [Hnd Hl]. split; [done|]. intros c'. cbn [tc_list put_sv put_web]. rewrite Hl.
    change (tc_server (put_sv st ?sv)) with sv. sv_cbn. destruct (decide (c' = c)) as [->|].
    + by rewrite lookup_insert_eq, E.
    + by rewrite lookup_insert_ne.
  - intros c' cx''. change (tc_server (put_sv st ?sv)) with sv. sv_cbn. destruct (decide (c' = c)) as [->|].
    + rewrite lookup_insert_eq. by intros [= <-].
    + rewrite lookup_insert_ne by done. apply Hi.
  - intros c' cx''. change (tc_server (put_sv st ?sv)) with sv. sv_cbn. destruct (decide (c' = c)) as [->|].
    + rewrite lookup_insert_eq. by intros [= <-].
    + rewrite lookup_insert_ne by done. apply Hi.
  - eapply conn_http; [apply Hi|done..].
Qed.

(** A change of the input side: the protocol, the cookie and the pointer are kept. *)
Lemma conn_typed_same sv h c cx cx' :
  cn_proto_state cx' = cn_proto_state cx → cn_proto cx' = cn_proto cx → conn_typed sv h c cx → conn_typed sv h c cx'.
Proof. intros E1 E2. unfold conn_typed. by rewrite E1, E2. Qed.

Lemma update_conn_ok locs st c cx f :
  tcp_inv locs st → sv_conns (tc_server st) !! c = Some cx →
  cn_proto_state (f cx) = cn_proto_state cx → cn_proto (f cx) = cn_proto cx → wf_ring (cn_ring (f cx)) → wf_conn (f cx) →
  returns (update_conn st c f) (λ st', tcp_inv locs st' ∧ st' = put_sv st (set_conn_at (tc_server st) c (f cx))).
Proof.
  intros Hi E H1 H2 Hw Hwf. unfold update_conn. rewrite (deref_Ok _ _ _ E), bind_Ok. apply returns_Ok. split; [|done].
  eapply conn_put; try done. eapply conn_typed_same; [done..|]. by apply Hi.
Qed.

Lemma conn_at_put st c cx : sv_conns (tc_server (put_sv st (set_conn_at (tc_server st) c cx))) !! c = Some cx.
Proof. change (tc_server (put_sv st ?sv)) with sv. sv_cbn. apply lookup_insert_eq. Qed.

(** ** Requests of RTSP *)

Lemma serves_http sv sv' c h :
  serves c sv sv' → conn_ok sv c → http_inv sv h → http_inv sv' h.
Proof.
  intros Hs (cx & Ec & Hcx) Hh. split; [apply Hh|apply Hh|]. intros s x Es. pose proof (hi_sess _ _ Hh _ _ Es) as Hx.
  pose proof (new_rconn_none _ sv' _ _ _ Hx (sr_new _ _ _ Hs)) as Hn. destruct Hx as (H1 & (cx1 & Ec1 & Hp & Hst) & H3 & H4).
  split; [done|]. split; [|split; [pose proof (sr_fresh _ _ _ Hs); lia|done]].
  exists cx1. rewrite (sr_other _ _ _ Hs); [done|]. intros Heq. rewrite Heq in Ec1. assert (cx1 = cx) as -> by congruence.
  destruct (Hcx s Hst) as [? H]. congruence.
Qed.

Lemma rtsp_request_ok locs st c cx r :
  tcp_inv locs st → sv_conns (tc_server st) !! c = Some cx → cn_proto cx = CONN_PROTO_RTSP →
  after locs c (tc_server st) r → tcp_inv locs (put_rtsp st r).
Proof.
  intros Hi E Hp [[Hg Hk] Hs]. pose proof (tcp_conn_ok _ _ _ _ Hi E Hp) as Hok.
  destruct (sr_self _ _ _ Hs cx E) as (rg & p & E' & Hp'). split.
  - split; [done|]. unfold drained. change (tc_server (put_rtsp st r)) with (rt_server r). rewrite (sr_writes _ _ _ Hs).
    apply (proj2 (ti_running _ _ Hi)).
  - done.
  - destruct (ti_list _ _ Hi) as [Hnd Hl]. split; [done|]. intros c'. cbn [tc_list put_rtsp put_web]. rewrite Hl.
    change (tc_server (put_rtsp st r)) with (rt_server r). destruct (decide (c' = c)) as [->|].
    + by rewrite E, E'.
    + by rewrite (sr_other _ _ _ Hs).
  - intros c' cx'. change (tc_server (put_rtsp st r)) with (rt_server r). destruct (decide (c' = c)) as [->|].
    + rewrite E'. intros [= <-]. apply (ti_conn _ _ Hi _ _ E).
    + rewrite (sr_other _ _ _ Hs) by done. apply Hi.
  - intros c' cx'. change (tc_server (put_rtsp st r)) with (rt_server r). change (wb_http (tc_web (put_rtsp st r))) with (wb_http (tc_web st)).
    destruct (decide (c' = c)) as [->|].
    + rewrite E'. intros [= <-]. unfold conn_typed. cbn [with_proto_state cn_proto_state cn_proto with_ring]. rewrite Hp.
      destruct Hp' as [-> |(_ & rc & -> & H)]; [|done]. destruct (cn_proto_state cx) as [rc|] eqn:Est; [|done].
      apply (sr_rconns _ _ _ Hs). destruct Hok as (cx2 & Ec2 & H). apply H. congruence.
    + rewrite (sr_other _ _ _ Hs) by done. intros E2. pose proof (ti_typed _ _ Hi _ _ E2) as Ht. unfold conn_typed in *.
      destruct (cn_proto_state cx'); [|done]. destruct (cn_proto cx'); try done. by apply (sr_rconns _ _ _ Hs).
  - eapply serves_http; [exact Hs|done|apply Hi].
Qed.

(** ** Replies *)

(** The connection has no incomplete group of base64. *)
Definition settled (sv : server) (c : nat) : Prop :=
  ∃ cx, sv_conns sv !! c = Some cx ∧ cn_base64_count cx <= 0.

(** What the handlers of requests on [c] leave. *)
Definition handled (locs : list rtsp_location) (l : list nat) (c : nat) (w : web_state) : Prop :=
  tcp_inv locs (MkTcp w l) ∧ settled (wb_server w) c.

Lemma conn_put_handled locs w l c cx cx' :
  handled locs l c w → sv_conns (wb_server w) !! c = Some cx →
  cn_proto_state cx' = cn_proto_state cx → cn_proto cx' = cn_proto cx → wf_ring (cn_ring cx') → wf_conn cx' →
  cn_base64_count cx' <= 0 → handled locs l c (put_server w (set_conn_at (wb_server w) c cx')).
Proof.
  intros [Hi (cx0 & E0 & Hc)] E H1 H2 Hw Hwf Hn. split.
  - eapply (conn_put locs (MkTcp w l)); try done. eapply conn_typed_same; [done..|]. by apply (ti_typed _ _ Hi).
  - exists cx'. split; [|done]. cbn. sv_cbn. apply lookup_insert_eq.
Qed.

Lemma sent_handled locs w l c sv :
  handled locs l c w → served locs sv → sent c (wb_server w) sv → handled locs l c (put_server w sv).
Proof.
  intros Hh Hs (cx & r & E & ->). pose proof Hh as [Hi (cx0 & E0 & Hc)]. assert (cx0 = cx) as -> by congruence.
  eapply conn_put_handled; try done.
  - apply (se_rings _ _ Hs c). sv_cbn. apply lookup_insert_eq.
  - apply (ti_conn _ _ Hi _ _ E).
Qed.

Lemma handled_conn locs w l c : handled locs l c w → is_Some (sv_conns (wb_server w) !! c).
Proof. intros [_ (cx & -> & _)]. done. Qed.

Lemma handled_served locs w l c : handled locs l c w → served locs (wb_server w).
Proof. intros [Hi _]. apply (ti_running _ _ Hi). Qed.

Lemma send_reply_handled locs w l c m code len :
  handled locs l c w → reply code m → 0 <= code < 2 ^ 31 → (∀ n, len = Some n → 0 <= n < 2 ^ 31) →
  returns (send_reply (wb_server w) c m len) (λ p, handled locs l c (put_server w p.2) ∧ sent c (wb_server w) p.2).
Proof.
  intros Hh Hm Hc Hl. eapply returns_mono; [eapply send_reply_ok; try done; [by eapply handled_served|by eapply handled_conn]|].
  intros [b sv] (H1 & _ & H3). split; [|done]. by apply sent_handled.
Qed.

Lemma send_on_handled locs w l c d :
  handled locs l c w → returns (send_on (wb_server w) c d) (λ sv, handled locs l c (put_server w sv) ∧ sent c (wb_server w) sv).
Proof.
  intros Hh. eapply returns_mono; [eapply send_on_ok; [by eapply handled_served|by eapply handled_conn]|].
  intros sv (H1 & _ & H3). split; [|done]. by apply sent_handled.
Qed.

Lemma set_drop_after_handled locs w l c :
  handled locs l c w → returns (set_drop_after (wb_server w) c) (λ sv, handled locs l c (put_server w sv)).
Proof.
  intros Hh. pose proof Hh as [Hi (cx & E & Hc)]. unfold set_drop_after. rewrite (deref_Ok _ _ _ E), bind_Ok. apply returns_Ok.
  eapply conn_put_handled; try done.
  - apply (se_rings _ _ (proj1 (ti_running _ _ Hi)) c cx E).
  - apply (ti_conn _ _ Hi _ _ E).
Qed.

(** Logging changes nothing here. *)
Lemma log_handled locs l c w code n : handled locs l c w → handled locs l c (log_http w code n).
Proof. intros [[H1 H2 H3 H4 H5 H6] H7]. by split; [split|]. Qed.

Lemma http_reply_reply block code reason :
  length block = 512%nat → no_nul reason → reply code (http_create_reply block code reason).
Proof.
  intros Hb Hr. unfold http_create_reply. pose proof (status_reply block (lit "HTTP/1.0") code reason Hb) as H.
  destruct (add_pmsg_string _ (lit "HTTP/1.0")) as [p m1]. destruct (add_pmsg_string m1 reason) as [r m2].
  apply H; [by repeat constructor|simpl; lia|done].
Qed.

Section http.
Context (locs : list rtsp_location) (l : list nat) (c : nat) (v : env).
Hypothesis Hblock : ∀ n, length (v_block v n) = 512%nat.

Lemma http_send_error_ok w code reason t :
  handled locs l c w → no_nul reason → 0 <= code < 2 ^ 31 → Z.of_nat (length t) < 2 ^ 31 →
  returns (http_send_error w c (v_block v 0%nat) code reason t) (handled locs l c).
Proof using Hblock.
  intros Hh Hr Hc Ht. unfold http_send_error. cbv zeta. apply (log_handled _ _ _ _ code 0) in Hh. set (w1 := log_http w code 0) in *.
  eapply returns_bind; [by apply set_drop_after_handled|]. intros sv Hh1.
  eapply returns_bind; [apply (send_reply_handled locs (put_server w1 sv) l c _ code); [done| |done|intros n [= <-]; lia]|].
  { repeat apply add_header_reply; try no_nul. by apply http_reply_reply. }
  intros [b sv2] [Hh2 _]. cbn [snd] in *. destruct b; [|rewrite bind_Ok; by apply returns_Ok].
  eapply returns_bind; [by apply (send_on_handled locs (put_server (put_server w1 sv) sv2) l c)|].
  intros sv3 [Hh3 _]. by apply returns_Ok.
Qed.
End http.

(** ** A connection starts to stream over HTTP *)

(** An object is allocated and a connection without [proto_state] changed, or a new one
    made: no channel is concerned. *)
Definition renewed (sv : server) (c : nat) (cx : conn) : server := set_conn_at (malloc sv).2 c cx.

Section renewed.
Context (sv : server) (c : nat) (cx : conn).
Hypothesis Hi : server_inv sv.
Hypothesis Hc : (c <= sv_fresh sv)%nat.
Hypothesis Hold : ∀ cx0, sv_conns sv !! c = Some cx0 → cn_proto_state cx0 = None.
Hypothesis Hnew : ∀ rc, cn_proto_state cx = Some rc → rc = sv_fresh sv.

Lemma renewed_other c' cx' rc : sv_conns sv !! c' = Some cx' → cn_proto_state cx' = Some rc → c ≠ c'.
Proof using Hold. intros E1 E2 Heq. rewrite <- Heq in E1. rewrite (Hold _ E1) in E2. done. Qed.

Lemma renewed_at_chan c' i e b : at_chan sv c' i e b → at_chan (renewed sv c cx) c' i e b.
Proof using Hold.
  intros (cx' & rc & tbl & E1 & E2 & E3 & E4). exists cx', rc, tbl. split_and!; try done. unfold renewed. sv_cbn.
  rewrite lookup_insert_ne; [done|by eapply renewed_other].
Qed.

Lemma renewed_inv : server_inv (renewed sv c cx).
Proof using All.
  split; try apply Hi.
  - intros e y Ey. destruct (iv_ep _ Hi _ _ Ey) as [H1 H2]. split; [exact H1|].
    destruct (ep_trans (e_ep y)); try done. destruct H2. split; by apply renewed_at_chan.
  - intros rc t Er. destruct (iv_rconn _ Hi _ _ Er) as (Hl & c0 & cx0 & E0 & P0 & U0 & H0). split; [done|].
    exists c0, cx0. unfold renewed. sv_cbn. split; [rewrite lookup_insert_ne; [done|by eapply renewed_other]|]. split; [done|]. split; [|done].
    intros c' cx'. rewrite lookup_insert_Some. intros [[<- <-]|[_ E1]] E2; [|by eapply U0].
    rewrite (Hnew _ E2) in Er. change (sv_rconns sv !! sv_fresh sv = Some t) in Er.
    destruct (iv_fresh _ Hi (sv_fresh sv)) as (_ & Hr & _); [lia|congruence].
  - intros p Hp. unfold renewed in Hp. sv_cbn. destruct (iv_fresh _ Hi p) as (F1 & F2 & F3); [lia|]. unfold unused, renewed. sv_cbn.
    split; [|split; done]. rewrite lookup_insert_ne; [done|lia].
  - intros c' cx' rc. unfold renewed. sv_cbn. rewrite lookup_insert_Some. intros [[<- <-]|[_ E1]] E2; [rewrite (Hnew _ E2); lia|].
    pose proof (iv_proto _ Hi _ _ _ E1 E2). lia.
Qed.

Lemma renewed_running locs : running locs sv → wf_ring (cn_ring cx) → running locs (renewed sv c cx).
Proof using All.
  intros [Hs Hd] Hw. split; [|exact Hd]. apply (same_tracks_served _ _ _ Hs); try done; try apply Hs.
  - apply renewed_inv.
  - intros c' cx'. unfold renewed. sv_cbn. rewrite lookup_insert_Some. intros [[<- <-]|[_ E1]]; [done|by eapply (se_rings _ _ Hs)].
Qed.
End renewed.

Lemma conn_old sv c cx : server_inv sv → sv_conns sv !! c = Some cx → (c < sv_fresh sv)%nat.
Proof. intros Hi E. eapply not_unused; [|exact E]. intros p Hp. apply (iv_fresh _ Hi p Hp). Qed.

(** [proto_state] gets a pointer that is no channel table. *)
Definition with_session (sv : server) (c : nat) (cx : conn) : server := renewed sv c (with_proto_state cx (Some (sv_fresh sv))).

Lemma with_session_running locs sv c cx :
  sv_conns sv !! c = Some cx → cn_proto_state cx = None → running locs sv → running locs (with_session sv c cx).
Proof.
  intros E Hn Hr. pose proof (se_inv _ _ (proj1 Hr)) as Hi. apply renewed_running; try done.
  - pose proof (conn_old _ _ _ Hi E). lia.
  - congruence.
  - by intros rc [= <-].
  - apply (se_rings _ _ (proj1 Hr) _ _ E).
Qed.

Definition streaming_loc (loc : http_location) (s : nat) : http_location := with_sess_list loc (s :: hl_sess_list loc).

Definition add_session (h : http_state) (p : nat) (loc : http_location) (s c : nat) : http_state :=
  MkHttp (ht_loc_list h) (<[p := streaming_loc loc s]> (ht_locs h)) (<[s := MkHttpSess p c]> (ht_sess h)).

Section add_session.
Context (sv : server) (h : http_state) (p c : nat) (loc : http_location) (cx : conn).
Hypothesis Hi : server_inv sv.
Hypothesis Hh : http_inv sv h.
Hypothesis El : ht_locs h !! p = Some loc.
Hypothesis E : sv_conns sv !! c = Some cx.
Hypothesis Hnone : cn_proto_state cx = None.
Hypothesis Hp : cn_proto cx = CONN_PROTO_HTTP.
Abbreviation s := (sv_fresh sv).
Abbreviation h' := (add_session h p loc s c).

Lemma session_fresh : ht_sess h !! s = None.
Proof using Hh.
  destruct (ht_sess h !! s) as [x|] eqn:Es; [|done]. destruct (hi_sess _ _ Hh _ _ Es) as (_ & _ & H & _). lia.
Qed.

Lemma session_kept s' x : ht_sess h !! s' = Some x → ht_sess h' !! s' = Some x.
Proof using Hh.
  intros Ex. cbn. rewrite lookup_insert_ne; [done|]. intros <-. rewrite session_fresh in Ex. done.
Qed.

Lemma add_session_list q (l : list nat) s' : (∀ s', s' ∈ l → ∃ x, ht_sess h !! s' = Some x ∧ hs_loc x = q) →
  s' ∈ l → ∃ x, ht_sess h' !! s' = Some x ∧ hs_loc x = q.
Proof using Hh. intros H Hin. destruct (H s' Hin) as (x & Ex & Hx). exists x. split; [by apply session_kept|done]. Qed.

Lemma add_session_http : http_inv (with_session sv c cx) h'.
Proof using All.
  split.
  - intros q Hq. cbn. apply lookup_insert_is_Some'. right. by apply (hi_list _ _ Hh).
  - intros q loc'. cbn. rewrite lookup_insert_Some. intros [[<- <-]|[_ E1]].
    + destruct (hi_loc _ _ Hh _ _ El) as (H1 & H2 & H3). split; [done|]. split; [done|].
      intros s'. cbn. intros [->|Hin]%elem_of_cons; [rewrite lookup_insert_eq; by eexists|by eapply add_session_list].
    + destruct (hi_loc _ _ Hh _ _ E1) as (H1 & H2 & H3). split; [done|]. split; [done|]. intros s' Hin.
      by eapply add_session_list.
  - intros s' x. cbn. rewrite lookup_insert_Some. unfold wf_http_sess, with_session, renewed. cbn. sv_cbn. intros [[<- <-]|[Hne Ex]]; cbn.
    + split; [exists (streaming_loc loc s); rewrite lookup_insert_eq; split; [done|by apply elem_of_cons; left]|].
      split; [exists (with_proto_state cx (Some s)); rewrite lookup_insert_eq; done|]. split; [lia|]. apply (iv_fresh _ Hi s). lia.
    + destruct (hi_sess _ _ Hh _ _ Ex) as ((loc1 & E1 & Hin) & (cx1 & Ec & Hp1 & Hs1) & Hlt & Hn). split_and!; [|..|lia|done].
      * destruct (decide (hs_loc x = p)) as [Heq|].
        -- rewrite Heq in *. exists (streaming_loc loc s). rewrite lookup_insert_eq. split; [done|]. apply elem_of_cons. right. congruence.
        -- exists loc1. by rewrite lookup_insert_ne.
      * exists cx1. rewrite lookup_insert_ne; [done|]. congruence.
Qed.

Lemma add_session_typed c' cx' :
  conn_typed sv h c' cx' → conn_typed (with_session sv c cx) h' c' cx'.
Proof using Hh.
  unfold conn_typed. destruct (cn_proto_state cx') as [q|]; [|done]. destruct (cn_proto cx'); try done.
  intros (x & Ex & Hx). exists x. split; [by apply session_kept|done].
Qed.
End add_session.

Lemma add_http_stream_session_ok locs l c w p loc cx :
  handled locs l c w → ht_locs (wb_http w) !! p = Some loc → sv_conns (wb_server w) !! c = Some cx →
  cn_proto_state cx = None → cn_proto cx = CONN_PROTO_HTTP →
  returns (add_http_stream_session w p c) (λ w', handled locs l c w' ∧
    ht_locs (wb_http w') !! p = Some (streaming_loc loc (sv_fresh (wb_server w)))).
Proof.
  intros [Hi (cx0 & E0 & Hcnt)] El E Hnone Hp. assert (cx0 = cx) as -> by congruence.
  unfold add_http_stream_session. cbn [malloc]. rewrite (deref_Ok _ _ _ El), bind_Ok. sv_cbn. rewrite (deref_Ok _ _ _ E), bind_Ok.
  apply returns_Ok. set (s := sv_fresh (wb_server w)). change (MkHttp _ _ _) with (add_session (wb_http w) p loc s c).
  set (sv' := set_conn_at _ _ _). assert (sv' = with_session (wb_server w) c cx) as -> by done.
  pose proof (ti_http _ _ Hi) as Hh. pose proof (se_inv _ _ (proj1 (ti_running _ _ Hi))) as Hsi.
  assert (∀ c' cx', sv_conns (with_session (wb_server w) c cx) !! c' = Some cx' →
    c' = c ∧ cx' = with_proto_state cx (Some s) ∨ sv_conns (wb_server w) !! c' = Some cx') as Hback.
  { intros c' cx'. unfold with_session, renewed. sv_cbn. rewrite lookup_insert_Some. naive_solver. }
  split; [|cbn; by rewrite lookup_insert_eq]. split; [|by exists (with_proto_state cx (Some s)); split; [apply lookup_insert_eq|]].
  split.
  - apply with_session_running; try done. apply (ti_running _ _ Hi).
  - apply (ti_secret _ _ Hi).
  - destruct (ti_list _ _ Hi) as [Hnd Hl]. split; [done|]. intros c'. rewrite (Hl c'). unfold tc_server. cbn. unfold with_session, renewed. sv_cbn.
    rewrite lookup_insert_is_Some'. split; [by right|]. intros [<-|?]; [by rewrite E|done].
  - intros c' cx' [[-> ->]|E']%Hback; [apply (ti_conn _ _ Hi _ _ E)|apply (ti_conn _ _ Hi _ _ E')].
  - intros c' cx' [[-> ->]|E']%Hback; [|by apply add_session_typed, (ti_typed _ _ Hi)].
    unfold conn_typed. cbn. rewrite Hp, lookup_insert_eq. by eexists.
  - by apply add_session_http.
Qed.

(** ** Frames *)

(** Data was put in the buffer of [c], and nothing else happened. *)
Definition sends (locs : list rtsp_location) (c : nat) (sv sv' : server) : Prop := served locs sv' ∧ sent c sv sv'.

Lemma sent_trans c sv1 sv2 sv3 : sent c sv1 sv2 → sent c sv2 sv3 → sent c sv1 sv3.
Proof.
  intros (cx & r & E & ->) (cx2 & r2 & E2 & ->). revert E2. sv_cbn. rewrite lookup_insert_eq. intros [= <-].
  exists cx, r2. split; [done|]. sv_cbn. unfold set_conn_at, with_conns. cbn. by rewrite insert_insert_eq.
Qed.

Lemma sent_conn c sv sv' : sent c sv sv' → is_Some (sv_conns sv' !! c).
Proof. intros (cx & r & E & ->). sv_cbn. by rewrite lookup_insert_eq. Qed.

Lemma sent_calm c sv sv' : sent c sv sv' → calm sv sv'.
Proof.
  intros (cx & r & E & ->). split; sv_cbn; [|done|by left|done].
  intros c'. sv_cbn. destruct (decide (c' = c)) as [->|]; [rewrite lookup_insert_eq, E; by eexists|].
  rewrite lookup_insert_ne by done. destruct (sv_conns sv !! c') as [cx'|]; [|done]. exists (cn_ring cx'). by destruct cx'.
Qed.

Lemma sends_running locs c sv sv' : running locs sv → sends locs c sv sv' → running locs sv'.
Proof. intros [_ Hd] [Hs (cx & r & E & ->)]. by split. Qed.

Section frames.
Context (locs : list rtsp_location) (c : nat) (sv0 : server).

Lemma sends_on sv d : sends locs c sv0 sv → returns (send_on sv c d) (sends locs c sv0).
Proof.
  intros [Hs Hc]. eapply returns_mono; [apply send_on_ok; [done|by eapply sent_conn]|].
  intros sv' (H1 & _ & H2). split; [done|by eapply sent_trans].
Qed.

Lemma send_bytes_ok sv p n :
  sends locs c sv0 sv → n <= Z.of_nat (length p) → returns (send_bytes sv c p n) (sends locs c sv0).
Proof.
  intros Hs Hn. unfold send_bytes, bytes_at. destruct (n <? 0) eqn:E; [rewrite bind_Ok; by apply sends_on|].
  cbn [orb]. rewrite (proj2 (Z.ltb_ge _ _)) by lia. rewrite bind_Ok. by apply sends_on.
Qed.

Lemma send_frame_with_jfif_ok sv loc d len :
  sends locs c sv0 sv → wf_picture loc → hl_frame loc = Some (d, len) →
  returns (send_frame_with_jfif sv c loc) (sends locs c sv0).
Proof.
  intros Hs Hp Ef. unfold send_frame_with_jfif, wf_picture in *. rewrite Ef in *. destruct Hp as (Hl & _).
  destruct (len <? _); [|apply send_bytes_ok; [done|lia]]. eapply returns_bind; [by apply sends_on|]. intros sv1 Hs1.
  apply send_bytes_ok; [done|]. rewrite length_drop. lia.
Qed.

Lemma multipart_head_length n : - 2 ^ 31 <= n < 2 ^ 31 → (length (multipart_head n) < 128)%nat.
Proof. intros H. pose proof (dec_length n H). unfold multipart_head. rewrite !length_app. cbn. lia. Qed.

Lemma send_multipart_frame_ok sv loc d len :
  sends locs c sv0 sv → wf_picture loc → hl_frame loc = Some (d, len) →
  returns (send_multipart_frame sv c loc) (sends locs c sv0).
Proof.
  intros Hs Hp Ef. unfold send_multipart_frame. cbv zeta. rewrite (proj2 (Nat.leb_gt _ _)).
  2: { apply multipart_head_length. unfold wf_picture in Hp. rewrite Ef in Hp. lia. }
  destruct (sent_conn _ _ _ (proj2 Hs)) as [cx E]. rewrite (deref_Ok _ _ _ E), bind_Ok.
  destruct (_ <? _); [by apply returns_Ok|]. eapply returns_bind; [by apply sends_on|]. intros sv1 Hs1.
  by eapply send_frame_with_jfif_ok.
Qed.
End frames.

(** *** The next picture of a location *)

Lemma set_loc_http sv h p loc loc' :
  http_inv sv h → ht_locs h !! p = Some loc → hl_sess_list loc' = hl_sess_list loc → length (hl_path loc') = 256%nat →
  wf_picture loc' → http_inv sv (set_loc h p loc').
Proof.
  intros Hh El Hs Hp Hw. split.
  - intros q Hq. cbn. apply lookup_insert_is_Some'. right. by apply (hi_list _ _ Hh).
  - intros q loc1. cbn. rewrite lookup_insert_Some. intros [[<- <-]|[_ E1]]; [|apply (hi_loc _ _ Hh _ _ E1)].
    split; [done|]. split; [done|]. rewrite Hs. apply (hi_loc _ _ Hh _ _ El).
  - intros s x Ex. destruct (hi_sess _ _ Hh _ _ Ex) as ((loc1 & E1 & Hin) & H2 & H3). split; [|done].
    cbn. destruct (decide (hs_loc x = p)) as [Heq|]; [|exists loc1; by rewrite lookup_insert_ne].
    rewrite Heq in *. exists loc'. rewrite lookup_insert_eq, Hs. split; [done|]. congruence.
Qed.

Lemma put_http_inv locs w l h :
  tcp_inv locs (MkTcp w l) → http_inv (wb_server w) h → ht_sess h = ht_sess (wb_http w) → tcp_inv locs (MkTcp (put_http w h) l).
Proof.
  intros [H1 H2 H3 H4 H5 H6] Hh Hs. split; try done. intros c cx E. specialize (H5 c cx E). unfold conn_typed in *. cbn in *.
  by rewrite Hs.
Qed.

(** The storage has the bytes that are compared with the JFIF header. *)
Definition picture_ok (f : live_frame) : Prop :=
  (11 <= length (lf_d f))%nat ∧ 2 <= lf_length f <= Z.of_nat (length (lf_d f)) ∧ lf_length f < 2 ^ 30.

Lemma send_sessions_ok locs l loc d len ss w :
  tcp_inv locs (MkTcp w l) → wf_picture loc → hl_frame loc = Some (d, len) →
  (∀ s, s ∈ ss → is_Some (ht_sess (wb_http w) !! s)) →
  returns (send_sessions w ss loc) (λ w', tcp_inv locs (MkTcp w' l) ∧ wb_http w' = wb_http w).
Proof.
  intros Hi Hp Ef. revert w Hi. induction ss as [|s ss IH]; intros w Hi Hss; [by apply returns_Ok|].
  cbn [send_sessions]. destruct (Hss s) as [x Ex]; [by left|]. rewrite (deref_Ok _ _ _ Ex), bind_Ok.
  destruct (hi_sess _ _ (ti_http _ _ Hi) _ _ Ex) as (_ & (cx & Ec & _) & _).
  eapply returns_bind; [eapply send_multipart_frame_ok; [|done..]|].
  { split; [apply (ti_running _ _ Hi)|]. apply sent_refl. by exists cx. }
  intros sv Hsv. eapply returns_mono.
  - apply IH; [|by intros; apply Hss; right]. apply (calm_tcp locs (MkTcp w l) sv Hi).
    + eapply sends_running; [apply (ti_running _ _ Hi)|done].
    + eapply sent_calm, Hsv.
  - done.
Qed.

Lemma bytes_differ_ok d i s : (i + length s <= length d)%nat → returns (bytes_differ d i s) (λ _, True).
Proof.
  revert i. induction s as [|b s IH]; intros i Hl; [by apply returns_Ok|]. cbn [bytes_differ length] in *.
  destruct (lookup_lt_is_Some_2 d i) as [ch E]; [lia|]. rewrite (rd_Ok _ _ _ E), bind_Ok.
  destruct (_ =? _); [apply IH; lia|by apply returns_Ok].
Qed.

Lemma rd_returns (d : list Z) i : (i < length d)%nat → returns (rd d i) (λ _, True).
Proof. intros H. destruct (lookup_lt_is_Some_2 d i H) as [ch E]. rewrite (rd_Ok _ _ _ E). by apply returns_Ok. Qed.

Lemma if_returns {A} (b : bool) (o1 o2 : outcome A) P : returns o1 P → returns o2 P → returns (if b then o1 else o2) P.
Proof. by destruct b. Qed.

Lemma jpeg_next_frame_ok locs l w p f :
  tcp_inv locs (MkTcp w l) → is_Some (ht_locs (wb_http w) !! p) → picture_ok f →
  returns (jpeg_next_frame w p f) (λ w', tcp_inv locs (MkTcp w' l)).
Proof.
  intros Hi [loc El] (Hd & Hl & Hmax). unfold jpeg_next_frame.
  eapply returns_bind; [apply rd_returns; lia|]. intros b0 _.
  eapply returns_bind; [apply if_returns; [apply rd_returns; lia|by apply returns_Ok]|]. intros b1 _.
  eapply returns_bind; [apply if_returns; [apply rd_returns; lia|by apply returns_Ok]|]. intros b2 _.
  destruct (negb _); [by apply returns_Ok|].
  rewrite (deref_Ok _ _ _ El), bind_Ok. eapply returns_bind; [apply rd_returns; lia|]. intros b3 _.
  eapply returns_bind; [apply if_returns; [apply rd_returns; lia|by apply returns_Ok]|]. intros b10 _.
  eapply returns_bind; [apply if_returns; [apply bytes_differ_ok; cbn; lia|by apply returns_Ok]|]. intros differ _.
  cbv zeta. set (loc' := MkHttpLoc _ _ _ _ _ _). pose proof (hi_loc _ _ (ti_http _ _ Hi) _ _ El) as (Hpath & _ & Hss).
  assert (wf_picture loc') as Hw. { cbn. split; [lia|]. split; [done|]. destruct differ; [by right|by left]. }
  eapply returns_mono; [eapply (send_sessions_ok locs l loc'); [|done|done|]|].
  - apply put_http_inv; [done| |done]. eapply set_loc_http; try done. apply (ti_http _ _ Hi).
  - intros s Hin. cbn. destruct (Hss s Hin) as (x & Ex & _). by exists x.
  - by intros w' [H1 _].
Qed.

(** ** HTTP requests *)

Lemma http_find_location_ok h l path len :
  (∀ p, p ∈ l → ∃ loc, ht_locs h !! p = Some loc ∧ length (hl_path loc) = 256%nat) → (len < 256)%nat →
  returns (http_find_location h l path len) (λ r, ∀ p, r = Some p → is_Some (ht_locs h !! p)).
Proof.
  intros H Hlen. induction l as [|p l IH]; [by apply returns_Ok|]. cbn [http_find_location].
  destruct (H p) as (loc & E & Hp); [by left|]. rewrite (deref_Ok _ _ _ E), bind_Ok.
  assert (returns (http_find_location h l path len) (λ r, ∀ p, r = Some p → is_Some (ht_locs h !! p))) as IH'.
  { apply IH. intros q Hq. apply H. by right. }
  destruct (strneq _ _ _); [|done]. destruct (lookup_lt_is_Some_2 (hl_path loc) len) as [ch Ech]; [lia|].
  rewrite (rd_Ok _ _ _ Ech), bind_Ok. destruct (_ || _); [|done]. apply returns_Ok. intros q [= <-]. by rewrite E.
Qed.

(** A path with [path[len - 1]] and within the array of a location. *)
Definition uri_fits (uri : list Z) : Prop := uri ≠ [] ∧ (length uri < 256)%nat.

Lemma find_http_location_ok sv h path :
  http_inv sv h → uri_fits path →
  returns (find_http_location h path) (λ r, ∀ p, r = Some p → is_Some (ht_locs h !! p)).
Proof.
  intros Hh [Hn Hl]. unfold find_http_location. destruct (last path) as [ch|] eqn:El; [|by apply last_None in El].
  apply http_find_location_ok; [|case_match; lia]. intros p Hp. destruct (hi_list _ _ Hh _ Hp) as [loc E].
  exists loc. split; [done|]. apply (hi_loc _ _ Hh _ _ E).
Qed.

Section http_requests.
Context (locs : list rtsp_location) (l : list nat) (c : nat) (v : env) (req : pmsg) (method uri : nat).
Hypothesis Hblock : ∀ n, length (v_block v n) = 512%nat.
Hypothesis Hreq : p_sl req = Some (PMSG_REQ method uri).
Hypothesis Huri : uri_fits (str_of req uri).

(** The connection is no stream yet. *)
Definition plain (sv : server) : Prop :=
  ∃ cx, sv_conns sv !! c = Some cx ∧ cn_proto cx = CONN_PROTO_HTTP ∧ cn_proto_state cx = None.

Lemma stream_reply_ok w p loc d len m :
  handled locs l c w → plain (wb_server w) → ht_locs (wb_http w) !! p = Some loc → hl_frame loc = Some (d, len) →
  reply 200 m →
  returns ('(_, sv) ← send_reply (wb_server w) c m None;
           st ← add_http_stream_session (put_server w sv) p c;
           loc ← deref (ht_locs (wb_http st)) p;
           sv ← send_multipart_frame (wb_server st) c loc;
           Ok (put_server st sv)) (handled locs l c).
Proof.
  intros Hh (cx & E & Hp & Hn) El Ef Hm.
  eapply returns_bind; [by eapply (send_reply_handled locs w l c m 200)|]. intros [b sv] [Hh1 Hs]. cbn [snd] in *.
  destruct Hs as (cx' & r & E' & ->). assert (cx' = cx) as -> by congruence.
  eapply returns_bind; [eapply (add_http_stream_session_ok locs l c _ p loc (with_ring cx r)); try done|].
  { cbn. sv_cbn. apply lookup_insert_eq. }
  intros w2 [Hh2 El2]. rewrite (deref_Ok _ _ _ El2), bind_Ok.
  eapply returns_bind; [eapply (send_multipart_frame_ok locs c (wb_server w2))|].
  - split; [by eapply handled_served|]. eapply sent_refl, handled_conn, Hh2.
  - apply (hi_loc _ _ (ti_http _ _ (proj1 Hh2)) _ _ El2).
  - exact Ef.
  - intros sv2 [H1 H2]. apply returns_Ok. by apply sent_handled.
Qed.

Lemma still_reply_ok w loc d len m :
  handled locs l c w → wf_picture loc → hl_frame loc = Some (d, len) → reply 200 m →
  returns (sv ← set_drop_after (wb_server w) c;
           '(sent, sv) ← send_reply sv c m (Some (hl_length_with_jfif loc));
           sv ← (if (sent : bool) then send_frame_with_jfif sv c loc else Ok sv);
           Ok (put_server w sv)) (handled locs l c).
Proof.
  intros Hh Hp Ef Hm. eapply returns_bind; [by apply set_drop_after_handled|]. intros sv Hh1.
  eapply returns_bind; [eapply (send_reply_handled locs (put_server w sv) l c m 200); try done|].
  { intros n [= <-]. unfold wf_picture in Hp. rewrite Ef in Hp. lia. }
  intros [b sv2] [Hh2 Hs]. cbn [snd] in *. change (put_server (put_server w sv) sv2) with (put_server w sv2) in Hh2.
  destruct b; [|rewrite bind_Ok; by apply returns_Ok].
  eapply returns_bind; [eapply (send_frame_with_jfif_ok locs c sv2); [|done..]|].
  { split; [apply (handled_served _ _ _ _ Hh2)|]. eapply sent_refl, (handled_conn _ _ _ _ Hh2). }
  intros sv3 [H1 H2]. apply returns_Ok. by apply (sent_handled locs (put_server w sv2) l c).
Qed.

Lemma http_handle_GET_ok w :
  handled locs l c w → plain (wb_server w) → returns (http_handle_GET w c req v) (handled locs l c).
Proof.
  intros Hh Hpl. unfold http_handle_GET, req_uri. rewrite Hreq. rewrite bind_Ok.
  eapply returns_bind; [eapply find_http_location_ok; [apply (ti_http _ _ (proj1 Hh))|done]|]. intros [p|] Hp.
  2: { apply http_send_error_ok; try done; no_nul. }
  destruct (Hp p eq_refl) as [loc El]. rewrite (deref_Ok _ _ _ El), bind_Ok.
  destruct (_ <? _)%nat; [apply http_send_error_ok; try done; no_nul|]. pose proof Hpl as (cx & E & _).
  rewrite (deref_Ok _ _ _ E), bind_Ok. destruct (hl_frame loc) as [[d len]|] eqn:Ef; [|apply http_send_error_ok; try done; no_nul].
  destruct (_ <? _); [apply http_send_error_ok; try done; no_nul|]. cbv zeta.
  destruct (hl_streaming loc).
  - eapply (stream_reply_ok (log_http w 200 0)); [by apply log_handled|done|done|done|].
    repeat apply add_header_reply; try no_nul. apply http_reply_reply; [done|no_nul].
  - eapply (still_reply_ok (log_http w 200 len)); [by apply log_handled| |done|].
    + apply (hi_loc _ _ (ti_http _ _ (proj1 Hh)) _ _ El).
    + repeat apply add_header_reply; try no_nul. apply http_reply_reply; [done|no_nul].
Qed.

Lemma http_handle_msg_ok w :
  handled locs l c w → plain (wb_server w) → returns (http_handle_msg w c req v) (handled locs l c).
Proof.
  intros Hh Hpl. unfold http_handle_msg, req_method. rewrite Hreq, bind_Ok.
  destruct (strcaseeq _ _); [by apply http_handle_GET_ok|]. apply http_send_error_ok; try done; no_nul.
Qed.
End http_requests.

(** ** The end of a connection *)

(** Nothing points to the connection [c] any more. *)
Record leaving (locs : list rtsp_location) (c : nat) (cx : conn) (st : tcp_state) : Prop := {
  le_running : running locs (tc_server st);
  le_secret : wf_secret (rt_secret (wb_rtsp (tc_web st)));
  le_list : NoDup (tc_list st) ∧ ∀ c, c ∈ tc_list st ↔ is_Some (sv_conns (tc_server st) !! c);
  le_self : sv_conns (tc_server st) !! c = Some cx;
  le_conn c' cx' : sv_conns (tc_server st) !! c' = Some cx' → wf_conn cx';
  le_typed c' cx' : c' ≠ c → sv_conns (tc_server st) !! c' = Some cx' → conn_typed (tc_server st) (wb_http (tc_web st)) c' cx';
  le_http : http_inv (tc_server st) (wb_http (tc_web st));
  le_sess s x : ht_sess (wb_http (tc_web st)) !! s = Some x → hs_conn x ≠ c;
  le_gone rc : cn_proto_state cx = Some rc → sv_rconns (tc_server st) !! rc = None }.

Section delete_conn.
Context (sv : server) (c : nat) (cx : conn).
Hypothesis Hi : server_inv sv.
Hypothesis E : sv_conns sv !! c = Some cx.
Hypothesis Hgone : ∀ rc, cn_proto_state cx = Some rc → sv_rconns sv !! rc = None.
Abbreviation sv' := (with_conns sv (delete c (sv_conns sv))).

Lemma other_rconn c' cx' rc t :
  sv_conns sv !! c' = Some cx' → cn_proto_state cx' = Some rc → sv_rconns sv !! rc = Some t → c' ≠ c.
Proof using E Hgone. intros E1 E2 E3 ->. assert (cx' = cx) as -> by congruence. apply Hgone in E2. congruence. Qed.

Lemma delete_conn_at_chan c' i e b : at_chan sv c' i e b → at_chan sv' c' i e b.
Proof using E Hgone.
  intros (cx' & rc & tbl & E1 & E2 & E3 & E4). exists cx', rc, tbl. split_and!; try done.
  pose proof (other_rconn _ _ _ _ E1 E2 E3). sv_cbn. by rewrite lookup_delete_ne.
Qed.

Lemma delete_conn_inv : server_inv sv'.
Proof using All.
  split; try apply Hi.
  - intros e y Ey. destruct (iv_ep _ Hi _ _ Ey) as [H1 H2]. split; [exact H1|].
    destruct (ep_trans (e_ep y)); try done. destruct H2. split; by apply delete_conn_at_chan.
  - intros rc t Er. destruct (iv_rconn _ Hi _ _ Er) as (Hl & c0 & cx0 & E0 & P0 & U0 & H0). split; [done|].
    exists c0, cx0. pose proof (other_rconn _ _ _ _ E0 P0 Er). sv_cbn. rewrite lookup_delete_ne by done. split; [done|]. split; [done|].
    split; [|done]. intros c' cx' [_ Ec]%lookup_delete_Some. by apply U0.
  - intros p Hp. destruct (iv_fresh _ Hi p Hp) as (F1 & F2 & F3). split; [|done]. sv_cbn. rewrite lookup_delete_None. by right.
  - intros c' cx' rc. sv_cbn. intros [_ Ec]%lookup_delete_Some. by eapply (iv_proto _ Hi).
Qed.

Lemma delete_conn_running locs : running locs sv → running locs sv'.
Proof using All.
  intros [Hs Hd]. split; [|exact Hd]. apply (same_tracks_served _ _ _ Hs); try done; try apply Hs.
  - apply delete_conn_inv.
  - intros c' cx'. sv_cbn. intros [_ Ec]%lookup_delete_Some. by apply (se_rings _ _ Hs c').
Qed.
End delete_conn.

Lemma leaving_gone locs c cx st :
  leaving locs c cx st →
  tcp_inv locs (MkTcp (tc_web (put_sv st (with_conns (tc_server st) (delete c (sv_conns (tc_server st)))))) (unlink c (tc_list st))).
Proof.
  intros H. pose proof (se_inv _ _ (proj1 (le_running _ _ _ _ H))) as Hsi. split.
  - eapply delete_conn_running; [done|apply H|apply H|apply H].
  - apply H.
  - destruct (le_list _ _ _ _ H) as [Hnd Hl]. cbn [tc_list]. unfold unlink. split; [by apply NoDup_filter|].
    intros c'. rewrite list_elem_of_filter, Hl. unfold tc_server. cbn. sv_cbn. rewrite lookup_delete_is_Some. naive_solver.
  - intros c' cx'. unfold tc_server. cbn. sv_cbn. intros [_ E]%lookup_delete_Some. by apply (le_conn _ _ _ _ H c').
  - intros c' cx'. unfold tc_server. cbn. sv_cbn. intros [Hne E]%lookup_delete_Some. by apply (le_typed _ _ _ _ H c').
  - pose proof (le_http _ _ _ _ H) as Hh. split; [apply Hh|apply Hh|]. intros s x Es.
    destruct (hi_sess _ _ Hh _ _ Es) as (H1 & (cx' & E' & H2) & H3). split; [done|]. split; [|done].
    exists cx'. split; [|done]. unfold tc_server. cbn. sv_cbn. rewrite lookup_delete_ne; [done|]. intros Heq. by apply (le_sess _ _ _ _ H _ _ Es).
Qed.

Lemma plain_leaving locs c cx st :
  tcp_inv locs st → sv_conns (tc_server st) !! c = Some cx → cn_proto_state cx = None → leaving locs c cx st.
Proof.
  intros Hi E Hn. split; [apply Hi|apply Hi|apply Hi|done|apply Hi|by intros; apply (ti_typed _ _ Hi)|apply Hi| |congruence].
  intros s x Es Heq. destruct (hi_sess _ _ (ti_http _ _ Hi) _ _ Es) as (_ & (cx' & E' & _ & H) & _). rewrite Heq in E'. congruence.
Qed.

(** *** A stream over HTTP *)

Lemma http_disconnect_leaving locs c cx st p :
  tcp_inv locs st → sv_conns (tc_server st) !! c = Some cx → cn_proto_state cx = Some p → cn_proto cx = CONN_PROTO_HTTP →
  returns (http_conn_disconnect (tc_web st) c) (λ w, leaving locs c cx (put_web st w)).
Proof.
  intros Hi E Hst Hp. pose proof (ti_http _ _ Hi) as Hh. pose proof (ti_typed _ _ Hi _ _ E) as Ht. unfold conn_typed in Ht.
  rewrite Hst, Hp in Ht. destruct Ht as (x & Ex & Hx). destruct (hi_sess _ _ Hh _ _ Ex) as ((loc & El & Hin) & _ & Hf & Hr).
  unfold http_conn_disconnect. change (wb_server (tc_web st)) with (tc_server st). rewrite (deref_Ok _ _ _ E), bind_Ok, Hst, (deref_Ok _ _ _ Ex), bind_Ok, (deref_Ok _ _ _ El), bind_Ok.
  apply returns_Ok. split; [apply Hi|apply Hi|apply Hi|done|apply Hi| | | |].
  - intros c' cx' Hne E'. pose proof (ti_typed _ _ Hi _ _ E') as Ht. unfold conn_typed in *. cbn.
    destruct (cn_proto_state cx'); [|done]. destruct (cn_proto cx'); try done. destruct Ht as (x' & Ex' & Hx').
    exists x'. split; [|done]. rewrite lookup_delete_ne; [done|]. congruence.
  - split.
    + intros q Hq. cbn. apply lookup_insert_is_Some'. right. by apply (hi_list _ _ Hh).
    + intros q loc1. cbn. rewrite lookup_insert_Some. intros [[<- <-]|[Hne E1]].
      * destruct (hi_loc _ _ Hh _ _ El) as (H1 & H2 & H3). split; [done|]. split; [done|]. cbn. unfold unlink.
        intros s [Hs Hins]%list_elem_of_filter. rewrite lookup_delete_ne by done. by apply H3.
      * destruct (hi_loc _ _ Hh _ _ E1) as (H1 & H2 & H3). split; [done|]. split; [done|]. cbn. intros s Hs.
        destruct (H3 s Hs) as (x' & Ex' & Hx'). exists x'. rewrite lookup_delete_ne; [done|]. congruence.
    + intros s x'. cbn. intros [Hne Es]%lookup_delete_Some. destruct (hi_sess _ _ Hh _ _ Es) as ((loc1 & E1 & Hin1) & H2).
      split; [|done]. cbn. destruct (decide (hs_loc x' = hs_loc x)) as [Heq|]; [|exists loc1; by rewrite lookup_insert_ne].
      rewrite Heq in *. eexists. rewrite lookup_insert_eq. split; [done|]. cbn. unfold unlink. apply list_elem_of_filter. split; [done|]. congruence.
  - intros s x'. cbn. intros [Hne Es]%lookup_delete_Some Heq. destruct (hi_sess _ _ Hh _ _ Es) as (_ & (cx' & E' & _ & H) & _).
    rewrite Heq in E'. congruence.
  - intros rc Hrc. replace rc with p by congruence. done.
Qed.

(** *** A connection with channels *)

Lemma rtsp_disconnect_leaving locs c cx st rc :
  tcp_inv locs st → sv_conns (tc_server st) !! c = Some cx → cn_proto_state cx = Some rc → cn_proto cx = CONN_PROTO_RTSP →
  returns (rtsp_conn_disconnect (tc_server st) c) (λ sv, leaving locs c cx (put_sv st sv)).
Proof.
  intros Hi E Hst Hp. destruct (ti_running _ _ Hi) as [Hs Hd]. pose proof (ti_typed _ _ Hi _ _ E) as Ht. unfold conn_typed in Ht.
  rewrite Hst, Hp in Ht. destruct (rtsp_conn_disconnect_ok _ _ _ _ (se_inv _ _ Hs) (se_idle _ _ Hs) E Hst Ht) as (sv1 & -> & Hc & H1 & H2).
  apply returns_Ok. set (sv' := with_rconns sv1 _) in *. change (tc_server (put_sv st sv')) with sv'.
  assert (sv_wire sv' = sv_wire (tc_server st)) as Hw by apply (cl_wire _ _ Hc).
  assert (∀ c, sv_conns sv' !! c = sv_conns (tc_server st) !! c) as Hconns by (intros; by rewrite Hw).
  assert (∀ p, is_Some (sv_rconns sv' !! p) ↔ p ≠ rc ∧ is_Some (sv_rconns (tc_server st) !! p)) as Hr.
  { intros p. unfold sv'. sv_cbn. rewrite lookup_delete_is_Some, (cl_rconns _ _ Hc). naive_solver. }
  split; change (tc_server (put_sv st sv')) with sv'.
  - split; [|by rewrite Hw]. apply (same_tracks_served _ _ _ Hs); try done.
    + apply (cl_tracks _ _ Hc).
    + intros c' cx'. rewrite Hconns. apply Hs.
    + intros e y Ey. eapply (se_eps _ _ Hs), (cl_eps _ _ Hc), Ey.
    + intros r y Ey. eapply (se_ids _ _ Hs), (cl_rtsps _ _ Hc), Ey.
  - apply Hi.
  - destruct (ti_list _ _ Hi) as [Hnd Hl]. split; [done|]. intros c'. rewrite Hconns. apply Hl.
  - by rewrite Hconns.
  - intros c' cx'. rewrite Hconns. apply Hi.
  - intros c' cx' Hne. rewrite Hconns. intros E'. pose proof (ti_typed _ _ Hi _ _ E') as Ht'. unfold conn_typed in *.
    destruct (cn_proto_state cx') as [rc'|] eqn:Est; [|done]. destruct (cn_proto cx'); try done. apply Hr. split; [|done]. intros ->.
    destruct Ht as [t Et]. destruct (iv_rconn _ (se_inv _ _ Hs) _ _ Et) as (_ & c0 & cx0 & _ & _ & U & _). apply Hne.
    by rewrite (U _ _ E' Est), (U _ _ E Hst).
  - apply (kept_http (tc_server st)); [| | |apply Hi].
    + intros c' cx' E'. exists (cn_ring cx'). rewrite Hconns, E'. by destruct cx'.
    + intros p [_ H]%Hr. by left.
    + by rewrite <- (cl_fresh _ _ Hc).
  - intros s x Es Heq. destruct (hi_sess _ _ (ti_http _ _ Hi) _ _ Es) as (_ & (cx' & E' & H & _) & _). rewrite Heq in E'. congruence.
  - intros rc' Hrc. replace rc' with rc by congruence. unfold sv'. sv_cbn. apply lookup_delete_eq.
Qed.

Lemma drop_conn_ok locs st c :
  tcp_inv locs st → is_Some (sv_conns (tc_server st) !! c) → returns (drop_conn st c) (tcp_inv locs).
Proof.
  intros Hi [cx E]. unfold drop_conn. rewrite (deref_Ok _ _ _ E), bind_Ok.
  assert (returns (match cn_proto_state cx, cn_proto cx with
       | Some _, CONN_PROTO_HTTP => w ← http_conn_disconnect (tc_web st) c; Ok (put_web st w)
       | Some _, CONN_PROTO_RTSP => sv ← rtsp_conn_disconnect (tc_server st) c; Ok (put_sv st sv)
       | _, _ => Ok st
       end) (leaving locs c cx)) as H.
  { pose proof (ti_typed _ _ Hi _ _ E) as Ht. unfold conn_typed in Ht. destruct (cn_proto_state cx) as [p|] eqn:Est.
    - destruct (cn_proto cx) eqn:Ep; [done|..].
      + eapply returns_bind; [by eapply rtsp_disconnect_leaving|]. intros. by apply returns_Ok.
      + eapply returns_bind; [by eapply http_disconnect_leaving|]. intros. by apply returns_Ok.
    - apply returns_Ok. by apply plain_leaving. }
  eapply returns_bind; [exact H|]. intros st1 H1. apply returns_Ok. exact (leaving_gone _ _ _ _ H1).
Qed.
