(* ===== verification/TcpStep.v ===== *)
(** * What arrives on a connection

    Requests, interleaved packets and tunnels on a connection keep the invariant of
    [TcpSafe], and so does reading from it in any portions. *)

From Stdlib Require Import String.
From S2P Require Import Prelude CString Pmsg HttpAuth SendBuf Base64 Frame Stream Rtcp Rtp RtpMedia Server ServerInv ServerOps Reply Rtsp RtspSafe Live LiveSafe Http Tcp TcpSafe.

Local Open Scope Z_scope.
Local Open Scope c_scope.

(** The connection is there and between two groups of base64. *)
Definition ready (locs : list rtsp_location) (c : nat) (st : tcp_state) : Prop :=
  tcp_inv locs st ∧ settled (tc_server st) c.

Lemma ready_handled locs c w l : ready locs c (MkTcp w l) ↔ handled locs l c w.
Proof. done. Qed.

Lemma ready_conn locs c st : ready locs c st → is_Some (sv_conns (tc_server st) !! c).
Proof. intros [_ (cx & -> & _)]. done. Qed.

(** ** Tunnels *)

Lemma tunnel_error_ok locs c st text : ready locs c st → returns (tunnel_error st c text) (ready locs c).
Proof.
  destruct st as [w l]. intros Hh%ready_handled. unfold tunnel_error, tc_server. cbn [tc_web].
  eapply returns_bind; [by eapply send_on_handled|]. intros sv [Hh1 _].
  eapply returns_bind; [by apply (set_drop_after_handled locs (put_server w sv) l c)|]. intros sv2 Hh2. by apply returns_Ok.
Qed.

Lemma find_cookie_ok sv l t :
  (∀ c, c ∈ l → is_Some (sv_conns sv !! c)) → returns (find_cookie sv l t) (λ r, ∀ c, r = Some c → is_Some (sv_conns sv !! c)).
Proof.
  intros H. induction l as [|c l IH]; [by apply returns_Ok|]. cbn [find_cookie]. destruct (H c) as [cx E]; [by left|].
  rewrite (deref_Ok _ _ _ E), bind_Ok. destruct (streq _ _); [|apply IH; intros; apply H; by right].
  apply returns_Ok. intros c' [= <-]. by rewrite E.
Qed.

Lemma wf_tunnel cx t : wf_conn cx → wf_conn (with_tunnel cx t).
Proof.
  intros (H1 & H2 & H3 & _). split; [done|]. split; [done|]. split; [done|]. intros _.
  exists (take (cn_req_len cx) (cn_req_buf cx)), []. cbn. split_and!; [by rewrite app_nil_r| |done|split; [simpl; lia|constructor]|].
  - rewrite length_take, H1. cbn [length]. lia.
  - rewrite H1. lia.
Qed.

Lemma update_ready locs st c c' f cx :
  ready locs c st → sv_conns (tc_server st) !! c' = Some cx →
  cn_proto_state (f cx) = cn_proto_state cx → cn_proto (f cx) = cn_proto cx → cn_ring (f cx) = cn_ring cx →
  wf_conn (f cx) → (c' = c → cn_base64_count (f cx) <= 0) →
  returns (update_conn st c' f) (λ st', ready locs c st' ∧ is_Some (sv_conns (tc_server st') !! c)).
Proof.
  intros [Hi (cx0 & E0 & Hc)] E H1 H2 H3 H4 H5.
  eapply returns_mono; [eapply update_conn_ok; try done|].
  { rewrite H3. apply (se_rings _ _ (proj1 (ti_running _ _ Hi)) c' cx E). }
  intros st' [Hi' ->]. assert (settled (tc_server (put_sv st (set_conn_at (tc_server st) c' (f cx)))) c) as Hs.
  { change (tc_server (put_sv st ?sv)) with sv. unfold settled. sv_cbn. destruct (decide (c' = c)) as [->|].
    - exists (f cx). rewrite lookup_insert_eq. auto.
    - exists cx0. by rewrite lookup_insert_ne. }
  split; [done|]. destruct Hs as (? & -> & _). done.
Qed.

Lemma handle_QT_tunnel_ok locs c st req post :
  ready locs c st → plain c (tc_server st) → returns (handle_QT_tunnel st c req post) (λ p, ready locs c p.2).
Proof.
  intros Hr (cx & E & Hp & Hn). unfold handle_QT_tunnel.
  assert (∀ text, returns (st ← tunnel_error st c text; Ok (false, st)) (λ p, ready locs c p.2)) as Herr.
  { intros text. eapply returns_bind; [by apply tunnel_error_ok|]. intros st' H. by apply returns_Ok. }
  destruct (get_header _ _) as [t|]; [|done]. destruct (_ <? _)%nat; [done|]. destruct post; cbn [negb].
  - destruct Hr as [Hi Hs]. destruct (ti_list _ _ Hi) as [_ Hl].
    eapply returns_bind; [apply find_cookie_ok; intros c'; apply Hl|]. intros [cg|] Hg; [|done].
    destruct (Hg cg eq_refl) as [g Eg]. rewrite (deref_Ok _ _ _ E), bind_Ok.
    eapply returns_bind; [eapply (update_ready locs st c cg); try done|].
    { apply (ti_conn _ _ Hi _ _ Eg). }
    { intros ->. destruct Hs as (cx' & E' & H). cbn. congruence. }
    intros st1 [Hr1 [cx1 E1]]. eapply returns_bind; [eapply (update_ready locs st1 c c); try done|].
    { apply (ti_conn _ _ (proj1 Hr1) _ _ E1). }
    { intros _. destruct (proj2 Hr1) as (cx' & E' & H). cbn. congruence. }
    intros st2 [Hr2 _]. by apply returns_Ok.
  - destruct st as [w l]. apply ready_handled in Hr. unfold tc_server at 1. cbn [tc_web].
    eapply returns_bind; [by apply (send_on_handled locs w l c)|]. intros sv [[Hi Hs] (cx' & r & E' & ->)].
    assert (cx' = cx) as -> by (unfold tc_server in E; cbn in E; congruence).
    set (st1 := put_sv _ _). assert (sv_conns (tc_server st1) !! c = Some (with_ring cx r)) as E1.
    { unfold st1. change (tc_server (put_sv ?s ?sv)) with sv. sv_cbn. apply lookup_insert_eq. }
    unfold update_conn. rewrite (deref_Ok _ _ _ E1), !bind_Ok. apply returns_Ok. cbn [snd]. split.
    + eapply conn_put; try done.
      * apply (se_rings _ _ (proj1 (ti_running _ _ Hi)) c _ E1).
      * apply wf_tunnel, (ti_conn _ _ Hi _ _ E1).
      * unfold conn_typed. cbn. by rewrite Hn.
    + exists (with_tunnel (with_ring cx r) t). split; [apply conn_at_put|done].
Qed.

(** ** Requests *)

(** The buffer is a string, as the TCP layer leaves it. *)
Definition ended (cx : conn) : Prop := cn_req_buf cx !! cn_req_len cx = Some 0.

Lemma take_string_ended d n : d !! n = Some 0 → ∃ s rest, take_string d = Some s ∧ take n d = s ++ rest.
Proof.
  revert n. induction d as [|x d IH]; intros n E; [done|]. cbn [take_string]. destruct (Z.eqb_spec x 0) as [->|Hx].
  { exists [], (take n (0 :: d)). done. }
  destruct n as [|n]; [cbn in E; congruence|]. cbn in E. destruct (IH _ E) as (s & rest & -> & Ht).
  exists (x :: s), rest. cbn. by rewrite Ht.
Qed.

Lemma strstr_Some s t r : strstr s t = Some r → ∃ rest, s = take (length s - length r) s ++ t ++ rest.
Proof.
  induction s as [|x s IH]; cbn [strstr].
  - case_bool_decide as H; [|done]. intros [= <-]. exists []. by rewrite take_nil in H; subst t.
  - case_bool_decide as H.
    + intros [= <-]. rewrite Nat.sub_diag. exists (drop (length t) (x :: s)). cbn [take app]. by rewrite <- H at 1; rewrite take_drop.
    + intros E. destruct (IH E) as (rest & Hs). assert (length r <= length s)%nat as Hl.
      { clear -E. revert E. induction s as [|y s IH]; cbn [strstr]; case_bool_decide; try done; intros; [by simplify_eq..|].
        cbn. apply IH in E. lia. }
      exists rest. cbn [length]. rewrite Nat.sub_succ_l by done. cbn [take app]. by rewrite Hs at 1.
Qed.

Definition message (cx : conn) : pmsg := MkPmsg (take (cn_req_len cx) (cn_req_buf cx)) (cn_req_len cx) [] None None.

(** The path is within the arrays it is copied to or compared with; a connection that
    streams over HTTP asks for nothing more. *)
Definition fits (cx : conn) (uri : list Z) : Prop :=
  match cn_proto cx with
  | CONN_PROTO_START => False
  | CONN_PROTO_RTSP => path_fits uri ∧ (length uri < 511)%nat
  | CONN_PROTO_HTTP => uri_fits uri ∧ cn_proto_state cx = None
  end.

(** A message that is complete has at most 32 lines of headers, and is a request if it
    is a message at all. *)
Definition request_ok (cx : conn) : Prop :=
  match strstr (req_string cx) (crlf ++ crlf) with
  | None => True
  | Some r =>
      (nlf (take (length (req_string cx) - length r) (req_string cx)) <= MAX_FIELDS)%nat ∧
      match parse_pmsg (message cx) with
      | Ok (req, _) => match p_sl req with Some (PMSG_REQ _ uri) => fits cx (str_of req uri) | _ => False end
      | _ => True
      end
  end.

Lemma message_safe cx r :
  wf_conn cx → ended cx → strstr (req_string cx) (crlf ++ crlf) = Some r →
  (nlf (take (length (req_string cx) - length r) (req_string cx)) <= MAX_FIELDS)%nat →
  safe (parse_pmsg (message cx)) (λ _, True).
Proof.
  intros (Hl & Hn & _) He Es Hf. destruct (take_string_ended _ _ He) as (s & rest & Et & Ed).
  assert (req_string cx = s) as Er by (unfold req_string; by rewrite Et). rewrite Er in *. destruct (strstr_Some _ _ _ Es) as (rest' & Hs).
  set (pre := take _ s) in *. assert (take (cn_req_len cx) (cn_req_buf cx) = pre ++ [CR; LF; CR; LF] ++ (rest' ++ rest)) as E.
  { rewrite Ed, Hs. app_eq. }
  assert (cn_req_len cx = length (pre ++ [CR; LF; CR; LF] ++ (rest' ++ rest))) as Elen by (rewrite <- E, length_take; lia).
  unfold message. rewrite E. rewrite Elen. by apply parse_pmsg_line_safe.
Qed.

Section requests.
Context (locs : list rtsp_location) (c : nat) (v : env).
Hypothesis Hblock : ∀ n, length (v_block v n) = 512%nat.

Lemma http_msg_ready st req method uri :
  p_sl req = Some (PMSG_REQ method uri) → uri_fits (str_of req uri) →
  ready locs c st → plain c (tc_server st) →
  returns (w ← http_handle_msg (tc_web st) c req v; Ok (true, put_web st w)) (λ p, ready locs c p.2).
Proof using Hblock.
  intros Hm Hu. destruct st as [w l]. intros Hr%ready_handled Hp. eapply returns_bind; [by eapply (http_handle_msg_ok locs l c)|].
  intros w' Hw. by apply returns_Ok.
Qed.

Lemma tunnel_or_http_ok st req header post method uri :
  p_sl req = Some (PMSG_REQ method uri) → uri_fits (str_of req uri) →
  ready locs c st → plain c (tc_server st) →
  returns (tunnel_or_http st c req header post v) (λ p, ready locs c p.2).
Proof using Hblock.
  intros Hm Hu Hr Hp. unfold tunnel_or_http. cbv zeta. pose proof (http_msg_ready st req method uri Hm Hu Hr Hp) as Hhttp.
  destruct (get_header _ _) as [t|]; [|done]. destruct (strcaseeq _ _); [|done].
  eapply returns_bind; [by apply handle_QT_tunnel_ok|]. intros [g st'] H. by apply returns_Ok.
Qed.

Lemma rtsp_msg_ready st cx req method uri :
  p_sl req = Some (PMSG_REQ method uri) → path_fits (str_of req uri) → (length (str_of req uri) < 511)%nat →
  ready locs c st → sv_conns (tc_server st) !! c = Some cx → cn_proto cx = CONN_PROTO_RTSP →
  returns (r ← rtsp_handle_msg locs (wb_rtsp (tc_web st)) c req v; Ok (true, put_rtsp st r)) (λ p, ready locs c p.2).
Proof using Hblock.
  intros Hm Hpath Hu [Hi (cx' & E' & Hc)] E Hp. assert (cx' = cx) as -> by congruence.
  eapply returns_bind; [eapply (rtsp_handle_msg_ok locs c req v method uri); try done|].
  { split; [apply (ti_running _ _ Hi)|apply Hi]. }
  { by eapply (tcp_conn_ok locs st). }
  intros r Hr. apply returns_Ok. split; [by eapply rtsp_request_ok|]. cbn [snd].
  destruct Hr as [_ Hs]. destruct (sr_self _ _ _ Hs _ E) as (ring & p & E1 & _). by eexists.
Qed.

Lemma handle_request_ok st cx r :
  ready locs c st → sv_conns (tc_server st) !! c = Some cx → ended cx →
  strstr (req_string cx) (crlf ++ crlf) = Some r → request_ok cx →
  returns (handle_request locs st c v) (λ p, ready locs c p.2).
Proof using Hblock.
  intros Hr E He Es Hreq. unfold request_ok in Hreq. rewrite Es in Hreq. destruct Hreq as [Hn Hreq].
  pose proof (ti_conn _ _ (proj1 Hr) _ _ E) as Hwf. pose proof (message_safe _ _ Hwf He Es Hn) as Hsafe.
  unfold handle_request. rewrite (deref_Ok _ _ _ E), bind_Ok.
  eapply returns_bind; [apply rd_returns; destruct Hwf as (-> & _); unfold REQ_BUF_SIZE; lia|]. intros b _.
  destruct (b =? 0); [by apply returns_Ok|]. change (MkPmsg _ _ _ _ _) with (message cx).
  destruct (parse_pmsg (message cx)) as [[req n]| | |]; [|by apply returns_Ok|done..].
  destruct (p_sl req) as [[method uri|]|] eqn:Hm; [|done..]. rename Hreq into Hfit. unfold req_method. rewrite Hm, bind_Ok.
  unfold fits in Hfit. destruct (cn_proto cx) eqn:Ep; [done|..].
  - destruct Hfit as [H1 H2]. by eapply rtsp_msg_ready.
  - destruct Hfit as [H1 H2]. assert (plain c (tc_server st)) as Hp by (exists cx; done).
    destruct (strcaseeq _ _); [by eapply tunnel_or_http_ok|]. destruct (strcaseeq _ _); [by eapply tunnel_or_http_ok|].
    by eapply http_msg_ready.
Qed.
End requests.

(** ** What is in the buffer *)

(** An interleaved packet comes only when channels are set up. *)
Definition asks (cx : conn) : Prop :=
  match cn_proto cx with
  | CONN_PROTO_RTSP => if bool_decide (cn_req_buf cx !! 0%nat = Some 36) then is_Some (cn_proto_state cx) else request_ok cx
  | _ => request_ok cx
  end.

(** The protocol the buffer is taken for. *)
Definition recognised (cx : conn) : option conn_proto :=
  match cn_proto cx with
  | CONN_PROTO_START =>
      match strchr (req_string cx) LF with
      | None => None
      | Some a => first_line_proto (take (length (req_string cx) - length a) (req_string cx))
      end
  | p => Some p
  end.

Definition input_ok (cx : conn) : Prop :=
  match recognised cx with Some p => asks (with_proto cx p) | None => True end.

Lemma wf_emptied cx : wf_conn cx → cn_base64_count cx <= 0 → wf_conn (with_input cx (cn_req_buf cx) 0 (cn_base64_count cx)).
Proof.
  intros (H1 & H2 & H3 & _) Hc. split; [done|]. split; [cbn; unfold REQ_BUF_SIZE; lia|]. split; [constructor|]. cbn. intros Hc0.
  exists [], []. replace (cn_base64_count cx) with 0 by lia. split_and!; try done; [split; [simpl; lia|constructor]|lia].
Qed.

Lemma emptied_ok locs c st :
  ready locs c st → returns (update_conn st c (λ cx, with_input cx (cn_req_buf cx) 0 (cn_base64_count cx))) (ready locs c).
Proof.
  intros Hr. pose proof Hr as [Hi (cx & E & Hc)]. eapply returns_mono; [eapply (update_ready locs st c c _ cx); try done|by intros ? []].
  apply wf_emptied; [apply (ti_conn _ _ Hi _ _ E)|done].
Qed.

Lemma calm_ready locs c st sv' :
  ready locs c st → running locs sv' → calm (tc_server st) sv' → ready locs c (put_sv st sv').
Proof.
  intros [Hi (cx & E & Hc)] Hr Hcalm. split; [by apply calm_tcp|]. pose proof (ca_conns _ _ Hcalm c) as H. rewrite E in H.
  destruct H as [r E']. by exists (with_ring cx r).
Qed.

Section parsing.
Context (locs : list rtsp_location) (c : nat) (v : env).
Hypothesis Hblock : ∀ n, length (v_block v n) = 512%nat.

Lemma try_request_ok st cx :
  ready locs c st → sv_conns (tc_server st) !! c = Some cx → ended cx → request_ok cx →
  returns (try_request locs st c cx v) (λ p, p.1 ≠ Again ∧ ready locs c p.2).
Proof using Hblock.
  intros Hr E He Hq. unfold try_request. destruct (strstr _ _) as [r|] eqn:Es; [|by apply returns_Ok].
  eapply returns_bind; [by eapply handle_request_ok|]. intros [ok st1] Hr1. cbn [snd] in Hr1. destruct ok; [|by apply returns_Ok].
  eapply returns_bind; [by apply emptied_ok|]. intros st2 Hr2. by apply returns_Ok.
Qed.

Lemma interleaved_ok st cx chan n :
  ready locs c st → sv_conns (tc_server st) !! c = Some cx → cn_proto cx = CONN_PROTO_RTSP → is_Some (cn_proto_state cx) →
  0 <= chan → (Z.to_nat n + 4 <= cn_req_len cx)%nat →
  returns (sv ← interleave_recv (tc_server st) c chan (take (Z.to_nat n) (drop 4 (cn_req_buf cx))) (v_clock v);
           st ← update_conn (put_sv st sv) c (λ cx, with_input cx (cn_req_buf cx) 0 (cn_base64_count cx));
           Ok (Wait, st)) (λ p, p.1 ≠ Again ∧ ready locs c p.2).
Proof using.
  intros Hr E Hp [rc Est] Hch Hn. pose proof Hr as [Hi _]. destruct (ti_conn _ _ Hi _ _ E) as (H1 & H2 & H3 & _).
  eapply returns_bind; [eapply (interleave_recv_ok locs); [apply Hi|done| |done|]|].
  - assert (take (Z.to_nat n) (drop 4 (cn_req_buf cx)) = take (Z.to_nat n) (drop 4 (take (cn_req_len cx) (cn_req_buf cx)))) as ->.
    { rewrite skipn_firstn_comm, take_take. f_equal. lia. }
    by apply Forall_take, Forall_drop.
  - exists rc. split; [done|]. pose proof (ti_typed _ _ Hi _ _ E) as Ht. unfold conn_typed in Ht. by rewrite Est, Hp in Ht.
  - intros sv [Hrun Hs]. eapply returns_bind; [apply emptied_ok; apply calm_ready; [done|done|by apply streamed_calm]|].
    intros st2 Hr2. by apply returns_Ok.
Qed.

Lemma parse_known_ok st cx :
  ready locs c st → sv_conns (tc_server st) !! c = Some cx → ended cx → cn_proto cx ≠ CONN_PROTO_START → asks cx →
  returns (parse_client_data locs st c v) (λ p, p.1 ≠ Again ∧ ready locs c p.2).
Proof using Hblock.
  intros Hr E He Hs Ha. unfold parse_client_data. rewrite (deref_Ok _ _ _ E), bind_Ok. unfold asks in Ha.
  destruct (ti_conn _ _ (proj1 Hr) _ _ E) as (H1 & H2 & H3 & _).
  destruct (cn_proto cx) eqn:Ep; [done| |by apply try_request_ok].
  destruct (Nat.ltb_spec (cn_req_len cx) 4); [by apply returns_Ok|].
  destruct (lookup_lt_is_Some_2 (cn_req_buf cx) 0) as [b0 E0]; [lia|]. rewrite (rd_Ok _ _ _ E0), bind_Ok.
  rewrite E0 in Ha. destruct (Z.eqb_spec b0 36) as [->|Hb].
  2: { apply try_request_ok; try done. rewrite bool_decide_eq_false_2 in Ha by congruence. done. }
  rewrite bool_decide_eq_true_2 in Ha by done.
  destruct (lookup_lt_is_Some_2 (cn_req_buf cx) 1) as [chan E1]; [lia|]. rewrite (rd_Ok _ _ _ E1), bind_Ok.
  assert (0 <= chan) as Hch.
  { rewrite <- (lookup_take_lt _ (cn_req_len cx)) in E1 by lia. eapply Forall_lookup in E1; [|exact H3]. by apply E1. }
  destruct (GET_16 (drop 2 (cn_req_buf cx))) as [n|] eqn:Eg.
  2: { exfalso. destruct (cn_req_buf cx) as [|? [|? [|? [|? ?]]]]; cbn in H1, Eg; unfold REQ_BUF_SIZE in *; lia || done. }
  destruct (Z.ltb_spec (Z.of_nat (cn_req_len cx)) (n + 4)); [by apply returns_Ok|]. apply interleaved_ok; try done. lia.
Qed.

Lemma ready_proto st cx p :
  ready locs c st → sv_conns (tc_server st) !! c = Some cx → cn_proto cx = CONN_PROTO_START →
  returns (update_conn st c (λ cx, with_proto cx p))
    (λ st', ready locs c st' ∧ sv_conns (tc_server st') !! c = Some (with_proto cx p)).
Proof using.
  intros [Hi (cx' & E' & Hc)] E Hp. assert (cx' = cx) as -> by congruence.
  unfold update_conn. rewrite (deref_Ok _ _ _ E), bind_Ok. apply returns_Ok. split; [|apply conn_at_put].
  split; [|exists (with_proto cx p); split; [apply conn_at_put|done]]. eapply conn_put; try done.
  - apply (se_rings _ _ (proj1 (ti_running _ _ Hi)) c _ E).
  - apply (ti_conn _ _ Hi _ _ E).
  - pose proof (ti_typed _ _ Hi _ _ E) as Ht. unfold conn_typed in *. cbn. rewrite Hp in Ht. by destruct (cn_proto_state cx).
Qed.

Lemma parse_all_S fuel st :
  parse_all (S fuel) locs st c v =
  '(r, st) ← parse_client_data locs st c v;
  match r with Again => parse_all fuel locs st c v | Wait => Ok (true, st) | Reject => Ok (false, st) end.
Proof using. done. Qed.

Lemma parse_all_known st cx fuel :
  ready locs c st → sv_conns (tc_server st) !! c = Some cx → ended cx → cn_proto cx ≠ CONN_PROTO_START → asks cx →
  returns (parse_all (S fuel) locs st c v) (λ p, ready locs c p.2).
Proof using Hblock.
  intros. rewrite parse_all_S. eapply returns_bind; [by eapply parse_known_ok|]. intros [[] st'] [Hp Hr]; cbn in *; [|by apply returns_Ok..|done].
  by apply returns_Ok.
Qed.

Lemma first_line_known line p : first_line_proto line = Some p → p ≠ CONN_PROTO_START.
Proof using. unfold first_line_proto. repeat case_match; congruence. Qed.

Lemma parse_all_ok st cx :
  ready locs c st → sv_conns (tc_server st) !! c = Some cx → ended cx → input_ok cx →
  returns (parse_all 2 locs st c v) (λ p, ready locs c p.2).
Proof using Hblock.
  intros Hr E He Hin. unfold input_ok, recognised in Hin. destruct (cn_proto cx) eqn:Ep.
  - rewrite parse_all_S. unfold parse_client_data. rewrite (deref_Ok _ _ _ E), bind_Ok, Ep.
    destruct (strchr _ _) as [a|]; [|rewrite bind_Ok; by apply returns_Ok].
    destruct (first_line_proto _) as [p|] eqn:Ef; [|rewrite bind_Ok; by apply returns_Ok].
    destruct (ready_proto st cx p Hr E Ep) as (st' & -> & Hr' & E'). rewrite !bind_Ok.
    eapply (parse_all_known st' (with_proto cx p) 0); try done. by eapply first_line_known.
  - eapply parse_all_known; try done; [congruence|]. rewrite <- Ep in Hin. by destruct cx.
  - eapply parse_all_known; try done; [congruence|]. rewrite <- Ep in Hin. by destruct cx.
Qed.
End parsing.

(** ** Reading *)

(** The connection with the NUL behind the input. *)
Definition terminated (cx : conn) : conn :=
  with_input cx (<[cn_req_len cx := 0]> (cn_req_buf cx)) (cn_req_len cx) (cn_base64_count cx).

(** The bytes fit, and what they complete is acceptable. *)
Definition data_ok (cx : conn) (d : list Z) : Prop :=
  (cn_req_len cx + length d < REQ_BUF_SIZE)%nat ∧ Forall is_byte d ∧
  match store_input cx d with
  | Ok cx => if (cn_req_len cx =? REQ_BUF_SIZE - 1)%nat || (0 <? cn_base64_count cx) then True else input_ok (terminated cx)
  | _ => True
  end.

Lemma holds_bytes buf len count out rest :
  holds buf len count out rest → Forall is_byte (take len buf) → Forall is_byte out ∧ Forall is_byte rest.
Proof. intros (-> & _) H. by apply Forall_app in H. Qed.

Lemma store_input_ok cx d :
  wf_conn cx → (cn_req_len cx + length d < REQ_BUF_SIZE)%nat → Forall is_byte d →
  returns (store_input cx d) (λ cx', wf_conn cx' ∧ ∃ buf len count, cx' = with_input cx buf len count).
Proof.
  intros (H1 & H2 & H3 & H4) Hd Hb. unfold store_input. destruct (Nat.ltb_spec (REQ_BUF_SIZE - cn_req_len cx - 1) (length d)); [lia|].
  destruct (Z.leb_spec 0 (cn_base64_count cx)) as [Hc|Hc].
  - destruct (H4 Hc) as (out & rest & Hh). destruct (holds_bytes _ _ _ _ _ Hh H3) as [Ho Hr].
    pose proof (tunnel_read_spec _ _ _ d _ _ Hh ltac:(lia)) as Hspec. pose proof Hh as (_ & _ & _ & Hpart & _).
    pose proof (decode_bytes d rest Hpart Hr Hb) as Hbytes. destruct (decode rest d) as [o r].
    destruct Hspec as (buf' & len' & count' & -> & Hl & Hh' & Hle). destruct Hbytes as [Hbo Hbr]. rewrite bind_Ok. apply returns_Ok.
    split; [|by eexists _, _, _]. split; [by rewrite <- H1|]. split; [cbn; lia|]. cbn. pose proof Hh' as (Ht & _). split.
    + rewrite Ht. apply Forall_app. split; [by apply Forall_app|done].
    + intros _. exists (out ++ o), r. by rewrite Nat2Z.id.
  - apply returns_Ok. split; [|by eexists _, _, _]. split; [cbn; rewrite splice_length; lia|]. split; [cbn; lia|]. cbn. split; [|lia].
    rewrite splice_take_all by lia. by apply Forall_app.
Qed.

Lemma update_conn_eq st c cx f :
  sv_conns (tc_server st) !! c = Some cx → update_conn st c f = Ok (put_sv st (set_conn_at (tc_server st) c (f cx))).
Proof. intros E. unfold update_conn. by rewrite (deref_Ok _ _ _ E), bind_Ok. Qed.

Lemma update_inv locs st c cx cx' :
  tcp_inv locs st → sv_conns (tc_server st) !! c = Some cx → cn_proto_state cx' = cn_proto_state cx → cn_proto cx' = cn_proto cx →
  cn_ring cx' = cn_ring cx → wf_conn cx' →
  tcp_inv locs (put_sv st (set_conn_at (tc_server st) c cx')).
Proof.
  intros Hi E H1 H2 H3 H4. eapply conn_put; try done.
  - rewrite H3. apply (se_rings _ _ (proj1 (ti_running _ _ Hi)) c _ E).
  - eapply conn_typed_same; [done..|]. by apply Hi.
Qed.

Lemma wf_terminated cx : wf_conn cx → wf_conn (terminated cx) ∧ ended (terminated cx).
Proof.
  intros (H1 & H2 & H3 & H4). unfold terminated, ended. cbn. split; [|apply list_lookup_insert_eq; lia].
  assert (take (cn_req_len cx) (<[cn_req_len cx:=0]> (cn_req_buf cx)) = take (cn_req_len cx) (cn_req_buf cx)) as Et
    by (apply take_insert_ge; lia).
  split; [cbn; by rewrite length_insert|]. split; [done|]. cbn. rewrite Et. split; [done|]. intros Hc. destruct (H4 Hc) as (out & rest & Hh).
  exists out, rest. destruct Hh as (T1 & T2 & T3 & T4 & T5). split_and!; try done; [by rewrite Et|by rewrite length_insert].
Qed.

(** A result of [read] on connection [c] that the server can take. *)
Definition turn_ok (st : tcp_state) (c : nat) (r : read_result) (v : env) : Prop :=
  match r with
  | ReadData d => (∀ n, length (v_block v n) = 512%nat) ∧ ∃ cx, sv_conns (tc_server st) !! c = Some cx ∧ data_ok cx d
  | _ => True
  end.

Lemma data_turn_ok locs st c second d v :
  tcp_inv locs st → turn_ok st c (ReadData d) v →
  returns (read_turn locs st c second (ReadData d) v) (λ p, tcp_inv locs p.2 ∧ (p.1 = true → is_Some (sv_conns (tc_server p.2) !! c))).
Proof.
  intros Hi (Hblock & cx & E & Hlen & Hb & Hok). cbn [read_turn]. rewrite (deref_Ok _ _ _ E), bind_Ok.
  destruct (store_input_ok cx d (ti_conn _ _ Hi _ _ E) Hlen Hb) as (cx' & Est & Hwf & Hcx'). rewrite Est in Hok |- *. rewrite bind_Ok.
  assert (cn_proto_state cx' = cn_proto_state cx ∧ cn_proto cx' = cn_proto cx ∧ cn_ring cx' = cn_ring cx) as (S1 & S2 & S3)
    by (by destruct Hcx' as (? & ? & ? & ->)). clear Hcx'.
  rewrite (update_conn_eq _ _ _ _ E), bind_Ok. set (st1 := put_sv st _).
  assert (tcp_inv locs st1) as Hi1 by (by eapply update_inv).
  assert (sv_conns (tc_server st1) !! c = Some cx') as E1 by apply conn_at_put.
  assert (returns (st ← drop_conn st1 c; Ok (false, st)) (λ p, tcp_inv locs p.2 ∧ (p.1 = true → is_Some (sv_conns (tc_server p.2) !! c)))) as Hdrop.
  { eapply returns_bind; [apply drop_conn_ok; [done|by rewrite E1]|]. intros st2 H2. by apply returns_Ok. }
  destruct (Nat.eqb_spec (cn_req_len cx') (REQ_BUF_SIZE - 1)); [done|]. cbn [orb] in Hok.
  destruct (Z.ltb_spec 0 (cn_base64_count cx')); [apply returns_Ok; split; [done|intros _; by exists cx']|].
  destruct Hwf as (W1 & W2 & Wrest). rewrite wr_Ok by lia. rewrite bind_Ok, (update_conn_eq _ _ _ _ E1), bind_Ok.
  change (with_input cx' _ _ _) with (terminated cx'). destruct (wf_terminated cx') as [Hwt Het]; [done|].
  set (st2 := put_sv st1 _). assert (tcp_inv locs st2) as Hi2 by (by eapply update_inv).
  assert (sv_conns (tc_server st2) !! c = Some (terminated cx')) as E2 by apply conn_at_put.
  eapply returns_bind; [eapply (parse_all_ok locs c v Hblock st2 (terminated cx')); try done|].
  { split; [done|]. exists (terminated cx'). split; [done|]. cbn. lia. }
  intros [ok st3] Hr3. cbn [snd] in Hr3. destruct ok.
  - apply returns_Ok. split; [apply Hr3|]. intros _. by eapply ready_conn.
  - eapply returns_bind; [apply drop_conn_ok; [apply Hr3|by eapply ready_conn]|]. intros st4 H4. by apply returns_Ok.
Qed.

Lemma read_turn_ok locs st c second r v :
  tcp_inv locs st → is_Some (sv_conns (tc_server st) !! c) → turn_ok st c r v →
  returns (read_turn locs st c second r v) (λ p, tcp_inv locs p.2 ∧ (p.1 = true → is_Some (sv_conns (tc_server p.2) !! c))).
Proof.
  intros Hi [cx E] Ht. destruct r as [d| |]; [by apply data_turn_ok|by apply returns_Ok|]. cbn [read_turn]. destruct second.
  - rewrite (update_conn_eq _ _ _ _ E), bind_Ok. apply returns_Ok. split; [|done].
    eapply update_inv; try done. apply (ti_conn _ _ Hi _ _ E).
  - eapply returns_bind; [apply drop_conn_ok; [done|by rewrite E]|]. intros st2 H2. by apply returns_Ok.
Qed.

(** The results of the [read] calls of one [do_read], the last one ending it. *)
Fixpoint reads_ok (locs : list rtsp_location) (st : tcp_state) (c : nat) (second : bool) (rs : list (read_result * env)) : Prop :=
  match rs with
  | [] => False
  | (r, v) :: rs =>
      turn_ok st c r v ∧
      match read_turn locs st c second r v with Ok (true, st) => reads_ok locs st c second rs | _ => True end
  end.

Lemma do_read_ok locs st c second rs :
  tcp_inv locs st → is_Some (sv_conns (tc_server st) !! c) → reads_ok locs st c second rs →
  returns (do_read locs st c second rs) (tcp_inv locs).
Proof.
  revert st. induction rs as [|[r v] rs IH]; intros st Hi Hc; [done|]. intros [Ht Hrs]. cbn [do_read].
  destruct (read_turn_ok locs st c second r v Hi Hc Ht) as ([more st'] & E & Hi' & Hc'). rewrite E in Hrs |- *. rewrite bind_Ok.
  destruct more; [|by apply returns_Ok]. apply IH; [done|by apply Hc'|done].
Qed.

(** ** Writing and accepting *)

Lemma on_writable_ok locs st c cx ws :
  tcp_inv locs st → sv_conns (tc_server st) !! c = Some cx → (∃ r, conn_write ws (cn_ring cx) (cn_drop_after cx) = Ok r) →
  returns (on_writable st c ws) (tcp_inv locs).
Proof.
  intros Hi E [[[b r] out] Ew]. unfold on_writable. rewrite (deref_Ok _ _ _ E), bind_Ok, Ew, bind_Ok.
  assert (wf_ring r) as Hr.
  { pose proof (se_rings _ _ (proj1 (ti_running _ _ Hi)) c _ E) as Hw. unfold conn_write in Ew.
    destruct (drain ws (cn_ring cx) []) as [[[ok r'] out']| | |] eqn:Ed; try done. cbn in Ew. apply drain_Ok in Ed as [Hr' _]; [|done].
    destruct ok; [destruct (cn_drop_after cx)|]; injection Ew as <- <- <-; done. }
  rewrite (update_conn_eq _ _ _ _ E), bind_Ok. set (st1 := put_sv _ _).
  assert (tcp_inv locs st1) as Hi1.
  { eapply conn_put; try done; [apply (ti_conn _ _ Hi _ _ E)|]. apply (conn_typed_same _ _ _ cx); [done..|]. by apply Hi. }
  destruct b; [|by apply returns_Ok]. apply drop_conn_ok; [done|]. unfold st1. by rewrite conn_at_put.
Qed.

Lemma accept_http sv h cx : server_inv sv → http_inv sv h → http_inv (renewed sv (sv_fresh sv) cx) h.
Proof.
  intros Hi Hh. split; [apply Hh|apply Hh|]. intros s x Es. destruct (hi_sess _ _ Hh _ _ Es) as (H1 & (cx1 & E1 & H2) & H3 & H4).
  split; [done|]. unfold renewed. sv_cbn. split; [|split; [lia|done]]. exists cx1. split; [|done].
  pose proof (conn_old _ _ _ Hi E1). rewrite lookup_insert_ne; [done|lia].
Qed.

Lemma do_accept_ok locs st fd addr junk_req junk_send :
  tcp_inv locs st → length junk_req = REQ_BUF_SIZE → junk_send ≠ [] →
  tcp_inv locs (do_accept st fd addr junk_req junk_send).
Proof.
  intros Hi Hq Hsend. unfold do_accept. destruct (fd <? 0); [done|]. cbn [malloc]. cbv zeta.
  set (cx := MkConn _ _ _ _ _ _ _ _ _ _ _ _). set (c := sv_fresh (tc_server st)).
  change (set_conn_at _ c cx) with (renewed (tc_server st) c cx). pose proof (se_inv _ _ (proj1 (ti_running _ _ Hi))) as Hsi.
  assert (sv_conns (tc_server st) !! c = None) as Hnone by (apply (iv_fresh _ Hsi c); unfold c; lia).
  assert (∀ c' cx', sv_conns (renewed (tc_server st) c cx) !! c' = Some cx' →
    c' = c ∧ cx' = cx ∨ sv_conns (tc_server st) !! c' = Some cx') as Hback.
  { intros c' cx'. unfold renewed. sv_cbn. rewrite lookup_insert_Some. naive_solver. }
  split.
  - apply renewed_running; [done|unfold c; lia|congruence|done|apply Hi|]. destruct junk_send; [done|]. split; cbn; lia.
  - apply Hi.
  - destruct (ti_list _ _ Hi) as [Hnd Hl]. cbn [tc_list put_sv put_web]. split.
    + apply NoDup_cons. split; [|done]. rewrite Hl, Hnone. by intros [].
    + intros c'. change (tc_server (MkTcp _ _)) with (renewed (tc_server st) c cx). unfold renewed. sv_cbn.
      rewrite elem_of_cons, Hl, lookup_insert_is_Some'. naive_solver.
  - intros c' cx' [[-> ->]|E]%Hback; [|by apply (ti_conn _ _ Hi c')]. split; [done|]. split; [cbn; unfold REQ_BUF_SIZE; lia|].
    split; [constructor|cbn; lia].
  - intros c' cx' [[-> ->]|E]%Hback; [done|]. apply (ti_typed _ _ Hi _ _ E).
  - apply accept_http; [done|apply Hi].
Qed.
