(* ===== verification/Config.v ===== *)
(** * Setting the server up ([live.c], [http.c], [rtp-jpeg.c])

    The directives of the configuration file that make live sources, their tracks and
    locations, and HTTP locations.  The return value of a directive is looked at by
    nobody, so the next one finds what the last one left.  The files' blocks are taken
    apart: a directive names the object of its block. *)

From Stdlib Require Import String.
From S2P Require Import Prelude CString Pmsg HttpAuth SendBuf Base64 Frame Stream Rtcp Rtp RtpMedia Server ServerInv ServerOps Reply Rtsp RtspSafe Live LiveSafe Http Tcp TcpSafe.

Local Open Scope Z_scope.
Local Open Scope c_scope.

(** ** Media *)

(** [junk] is the structure as [malloc] leaves it. *)
Definition new_rtp_media_jpeg_stream (fincr fbase : Z) (junk : rtp_jpeg) : outcome rtp_jpeg :=
  let n := 90000 * fincr in
  if (n <? - 2 ^ 31) || (2 ^ 31 <=? n) || (fbase =? 0) then Undef else
  Ok (MkJpeg (j_type junk) (j_width junk) (j_height junk) (j_luma_table junk) (j_chroma_table junk) (j_quant junk)
        (j_scan_data junk) (j_scan_data_len junk) false (Z.quot n fbase) 0 (j_bHasDRI junk) (j_DRI junk)).

(** ** Live sources *)

Definition live_start_block (sv : server) : nat * server :=
  let '(k, sv) := malloc sv in
  (k, set_source_at sv k (MkSource [] (replicate MAX_TRACKS (MkTrack None false None)) 1400 (2 ^ 32 - 1) 0)).

Definition live_end_block (sv : server) (k : nat) : outcome bool :=
  src ← deref (sv_sources sv) k;
  tr ← rd (lv_track src) 0;
  Ok (match tr_rtp tr with Some _ => true | None => false end).

Definition track_formats : list Z :=
  [FORMAT_MPEG4; FORMAT_MPV; FORMAT_H263; FORMAT_JPEG; FORMAT_PCM; FORMAT_ALAW; FORMAT_MPA; FORMAT_H264;
   FORMAT_ADPCM; FORMAT_ULAW; FORMAT_AAC; FORMAT_G726].

(** [for (t = 0; t < MAX_TRACKS && source->track[t].rtp; ++t)]. *)
Fixpoint free_track (trs : list live_track) (t : nat) : nat :=
  match trs with
  | tr :: trs => match tr_rtp tr with Some _ => free_track trs (S t) | None => t end
  | [] => t
  end.

(** The medium for a stream of the given format; most are switched off. *)
Definition new_media (format : Z) (rate : outcome (Z * Z)) (junk : rtp_jpeg) : outcome (option media) :=
  if format =? FORMAT_JPEG then
    '(fincr, fbase) ← rate; m ← new_rtp_media_jpeg_stream fincr fbase junk; Ok (Some (MediaJpeg m))
  else if (format =? FORMAT_PCM) || (format =? FORMAT_ALAW) || (format =? FORMAT_ULAW) then
    '(channels, r) ← rate; m ← new_rtp_media_rawaudio_stream format channels r; Ok (Some (MediaRaw m))
  else Ok None.

Definition put_track (src : live_source) (t : nat) (tr : live_track) : live_source :=
  with_tracks src (<[t := tr]> (lv_track src)).

(** [set_track]; [false] is -1. *)
Definition live_set_track (sv : server) (k : nat) (name : list Z) (rate : nat → Z * Z) (junk : rtp_jpeg)
    : outcome (bool * server) :=
  src ← deref (sv_sources sv) k;
  let t := free_track (lv_track src) 0 in
  if (t =? MAX_TRACKS)%nat then Ok (false, sv) else
  tr ← rd (lv_track src) t;
  '(d, w) ← connect_to_stream (sv_streams sv) name (track_id k t) track_formats;
  let put (m : option media) := set_source_at (with_streams sv w) k (put_track src t (MkTrack d (tr_ready tr) m)) in
  match d with
  | None => Ok (false, put None)
  | Some d =>
      x ← deref (st_dests w) d;
      s ← deref (st_streams w) (d_stream x);
      m ← new_media (s_format s) (get_framerate (st_fresh w) w rate (d_stream x)) junk;
      match m with
      | None => Ok (false, put None)
      | Some m =>
          w ← set_waiting (st_fresh w) w d 1;
          Ok (true, with_streams (put (Some m)) w)
      end
  end.

Definition live_set_path (locs : list rtsp_location) (k : nat) (path : list Z) (auth : option (list Z * list Z * list Z))
    (junk : list Z) : outcome (list rtsp_location) :=
  match auth with
  | None => new_rtsp_location locs path None None None k junk
  | Some (realm, username, password) => new_rtsp_location locs path (Some realm) (Some username) (Some password) k junk
  end.

Definition live_set_mtu (sv : server) (k : nat) (n : Z) : outcome server :=
  src ← deref (sv_sources sv) k;
  Ok (set_source_at sv k (MkSource (lv_sess_list src) (lv_track src) n (lv_max_conn src) (lv_cur_conn src))).

Definition live_set_conn (sv : server) (k : nat) (n : Z) : outcome server :=
  src ← deref (sv_sources sv) k;
  Ok (set_source_at sv k (MkSource (lv_sess_list src) (lv_track src) (lv_max_trans_size src) (u32 n) (lv_cur_conn src))).

(** ** The invariant while the file is read *)

(** No track has had a frame; the inputs of HTTP locations are destinations. *)
Definition unready (sv : server) : Prop :=
  ∀ k src t tr, sv_sources sv !! k = Some src → lv_track src !! t = Some tr → tr_ready tr = false.

Definition dest_of (w : streams) (d : nat) : Prop := ∃ x n, st_dests w !! d = Some x ∧ d_process x = Client n.

Record booted (locs : list rtsp_location) (st : tcp_state) : Prop := {
  bo_inv : tcp_inv locs st;
  bo_unready : unready (tc_server st);
  bo_inputs p loc d : ht_locs (wb_http (tc_web st)) !! p = Some loc → hl_input loc = Some d → dest_of (sv_streams (tc_server st)) d;
  bo_locs p : is_Some (ht_locs (wb_http (tc_web st)) !! p) → (p < sv_fresh (tc_server st))%nat }.

Lemma unready_idle sv : unready sv → idle sv nowhere.
Proof. intros H k src t tr d Ek Et _ Hr. by rewrite (H _ _ _ _ Ek Et) in Hr. Qed.

(** *** Streams grow *)

(** The destinations stay, but for their flags. *)
Definition dests_stay (w w' : streams) : Prop :=
  ∀ d x, st_dests w !! d = Some x → ∃ v, st_dests w' !! d = Some (MkDest (d_stream x) v (d_process x)).

#[export] Instance dests_stay_preorder : PreOrder dests_stay.
Proof.
  split; [intros w d x E; exists (d_waiting x); by destruct x|].
  intros a b c A B d x E. destruct (A d x E) as [v Ev]. destruct (B _ _ Ev) as [v' Ev']. by exists v'.
Qed.

Lemma dest_of_kept w w' d : dests_stay w w' → dest_of w d → dest_of w' d.
Proof. intros H (x & n & E & Hp). destruct (H d x E) as [v Ev]. by exists (MkDest (d_stream x) v (d_process x)), n. Qed.

Lemma new_dest_kept w s p d w' : streams_inv w None → new_dest w s p = Ok (d, w') → dests_stay w w'.
Proof.
  intros Hi. unfold new_dest. destruct (st_streams w !! s) as [x|]; [|done]. intros [= <- <-] d' x' E. exists (d_waiting x'). cbn.
  destruct (si_dests _ _ Hi _ _ E) as (Hlt & _). rewrite lookup_insert_ne by lia. rewrite E. by destruct x'.
Qed.

Lemma new_convert_kept w base format s w' :
  streams_inv w None → new_convert_stream w base format = Ok (s, w') → dests_stay w w'.
Proof.
  intros Hi. unfold new_convert_stream, new_dest. destruct (st_streams w !! base) as [b|]; [|done]. cbv zeta. cbn [st_streams st_fresh st_dests].
  destruct (<[st_fresh w := _]> (st_streams w) !! base) as [x|]; [|done]. rewrite bind_Ok. cbn [st_streams].
  destruct (_ !! st_fresh w) as [y|]; [|done]. intros [= <- <-] d' x' E. exists (d_waiting x'). cbn.
  destruct (si_dests _ _ Hi _ _ E) as (Hlt & _). rewrite lookup_insert_ne by lia. rewrite E. by destruct x'.
Qed.

(** No stream becomes an encoder's. *)
Definition sources_stay (w w' : streams) : Prop :=
  ∀ s x', st_streams w' !! s = Some x' → s_set_running x' = RunSource →
    ∃ x, st_streams w !! s = Some x ∧ s_set_running x = RunSource.

#[export] Instance sources_stay_preorder : PreOrder sources_stay.
Proof. split; [intros w s x E Hr; by exists x|]. intros a b c A B s x E Hr. destruct (B s x E Hr) as (y & Ey & Hy). eauto. Qed.

Lemma new_dest_sources w s p d w' : new_dest w s p = Ok (d, w') → sources_stay w w'.
Proof.
  unfold new_dest. destruct (st_streams w !! s) as [x|] eqn:E; [|done]. intros [= <- <-] s1 x1. cbn.
  rewrite lookup_insert_Some. intros [[<- <-]|[_ E1]] Hr; [by exists x|by exists x1].
Qed.

Lemma new_convert_sources w base format s w' : new_convert_stream w base format = Ok (s, w') → sources_stay w w'.
Proof.
  unfold new_convert_stream, new_dest. destruct (st_streams w !! base) as [b|]; [|done]. cbv zeta. cbn [st_streams st_fresh st_dests].
  destruct (<[st_fresh w := _]> (st_streams w) !! base) as [x|] eqn:Eb; [|done]. rewrite bind_Ok. cbn [st_streams].
  destruct (_ !! st_fresh w) as [y|]; [|done]. intros [= <- <-] s1 x1. cbn.
  rewrite lookup_insert_Some. intros [[<- <-]|[Hne E1]]; [done|]. revert E1. rewrite lookup_insert_Some.
  intros [[<- <-]|[Hne' E1]] Hr; [rewrite lookup_insert_ne in Eb by done; by exists x|].
  rewrite lookup_insert_ne in E1 by done. by exists x1.
Qed.

Lemma connect_ok w name k formats :
  streams_inv w None →
  ∃ r w', connect_to_stream w name k formats = Ok (r, w') ∧ streams_inv w' None ∧ dests_stay w w' ∧ sources_stay w w' ∧
    ∀ d, r = Some d → ∃ s, st_dests w' !! d = Some (MkDest s 0 (Client k)).
Proof.
  intros Hi. unfold connect_to_stream.
  destruct (find_stream_ok w (stream_list w) name formats) as [(r1 & E1 & Hr1) (r2 & E2 & Hr2)]; [apply (si_list _ _ Hi)|].
  rewrite E1, bind_Ok. destruct r1 as [s|].
  - destruct (Hr1 s eq_refl) as [sx E]. destruct (new_dest_inv w s sx k Hi E) as (w' & Ed & Hi' & Hd & _).
    rewrite Ed, bind_Ok. exists (Some (st_fresh w)), w'. split; [done|]. split; [done|]. split; [by eapply new_dest_kept|].
    split; [by eapply new_dest_sources|]. intros d [= <-]. by exists s.
  - rewrite E2, bind_Ok. destruct r2 as [s|]; [|by exists None, w]. destruct (Hr2 s eq_refl) as [sx E].
    destruct (new_convert_stream_inv w s sx FORMAT_RAW_RGB24 Hi E) as (w1 & ox & Ec & Hi1 & Eo). rewrite Ec, bind_Ok.
    destruct (new_dest_inv w1 _ ox k Hi1 Eo) as (w' & Ed & Hi' & Hd & _). rewrite Ed, bind_Ok. eexists _, _. split; [done|].
    split; [done|]. split; [etrans; [by eapply new_convert_kept|by eapply new_dest_kept]|].
    split; [etrans; [by eapply new_convert_sources|by eapply new_dest_sources]|]. intros d [= <-]. by eexists.
Qed.

Lemma set_waiting_kept w d x n v :
  streams_inv w None → st_dests w !! d = Some x → d_process x = Client n →
  ∃ w', set_waiting (st_fresh w) w d v = Ok w' ∧ streams_inv w' None ∧ dests_stay w w' ∧ sources_stay w w'.
Proof.
  intros Hi E Hp. destruct (si_dests _ _ Hi _ _ E) as (_ & _ & (sx & Es & _) & _). destruct (si_streams _ _ Hi _ _ Es) as [Hlt _].
  destruct (set_waiting_inv (st_fresh w) w None d x v Hi E Hlt) as (w' & Ew & Hi' & (HS & _ & _ & Hf) & _); [done|congruence|].
  exists w'. split; [done|]. split; [done|]. split; [|intros s x' Ex Hr; exists x'; by rewrite <- HS]. intros d' x' E'. destruct (Hf d' x' E') as (v' & Ev & _). by exists v'.
Qed.

(** What the encoders say of their streams: positive numbers, the first small enough for
    the timestamps. *)
Definition rate_ok (r : Z * Z) : Prop := 0 < r.1 ∧ 90000 * r.1 < 2 ^ 31 ∧ 0 < r.2 < 2 ^ 31.

Definition rates_ok (w : streams) (rate : nat → Z * Z) : Prop :=
  ∀ s x, st_streams w !! s = Some x → s_set_running x = RunSource → rate_ok (rate s).

Lemma get_framerate_ok fuel w rate s :
  streams_inv w None → is_Some (st_streams w !! s) → (s < fuel)%nat → rates_ok w rate →
  returns (get_framerate fuel w rate s) rate_ok.
Proof.
  intros Hi. revert s. induction fuel as [|fuel IH]; intros s [x Es] Hf Hr; [lia|]. cbn [get_framerate].
  rewrite Es. destruct (si_streams _ _ Hi _ _ Es) as (_ & _ & H).
  destruct (s_set_running x) as [ | |d] eqn:Ex; [done|apply returns_Ok; by eapply Hr|]. destruct H as (y & Ed & _ & Hlt).
  rewrite Ed. destruct (si_dests _ _ Hi _ _ Ed) as (_ & _ & (sx & Esx & _) & _).
  apply IH; [by rewrite Esx|lia|done].
Qed.

Lemma new_media_ok format rate junk :
  returns rate rate_ok → returns (new_media format rate junk) (λ m, ∀ m', m = Some m' → wf_media m').
Proof.
  intros ([a b] & -> & Ha & Hn & Hb). unfold new_media. cbn [fst snd] in *.
  destruct (format =? FORMAT_JPEG).
  - rewrite bind_Ok. unfold new_rtp_media_jpeg_stream. cbv zeta. destruct (Z.ltb_spec (90000 * a) (- 2 ^ 31)); [lia|].
    destruct (Z.leb_spec (2 ^ 31) (90000 * a)); [lia|]. destruct (Z.eqb_spec b 0); [lia|]. cbn [orb]. rewrite bind_Ok. apply returns_Ok.
    by intros m' [= <-].
  - destruct (_ || _ || _); [|by apply returns_Ok]. rewrite bind_Ok. unfold new_rtp_media_rawaudio_stream. destruct (Z.eqb_spec a 0); [lia|].
    rewrite bind_Ok. apply returns_Ok. intros m' [= <-]. cbn. pose proof (Z.quot_pos b a ltac:(lia) ltac:(lia)).
    pose proof (Z.quot_le_upper_bound b a b ltac:(lia)). nia.
Qed.

(** *** Sources change *)

Section sourced.
Context (sv : server) (w : streams) (k : nat) (src' : live_source).
Hypothesis Hi : server_inv sv.
Hypothesis Hw : streams_inv w None.
Hypothesis Hkept : dests_stay (sv_streams sv) w.
Hypothesis Hfresh : (k < sv_fresh sv)%nat.
Hypothesis Hold : ∀ src, sv_sources sv !! k = Some src →
  lv_sess_list src' = lv_sess_list src ∧ ∀ t, has_media src t → has_media src' t.
Abbreviation sv' := (set_source_at (with_streams sv w) k src').
Hypothesis Hwf : wf_source sv' k src'.

Lemma sourced_has k1 src1 :
  sv_sources sv !! k1 = Some src1 → ∃ src2, sv_sources sv' !! k1 = Some src2 ∧ lv_sess_list src2 = lv_sess_list src1 ∧
    ∀ t1, has_media src1 t1 → has_media src2 t1.
Proof using Hold.
  intros E. sv_cbn. destruct (decide (k1 = k)) as [->|Hne].
  - rewrite lookup_insert_eq. destruct (Hold _ E). by exists src'.
  - rewrite lookup_insert_ne by done. by exists src1.
Qed.

Lemma sourced_inv : server_inv sv'.
Proof using All.
  split; try apply Hi; try done.
  - intros l ls E. destruct (iv_live _ Hi _ _ E) as [H1 (src1 & Ek1 & Hin)]. split; [exact H1|].
    destruct (sourced_has _ _ Ek1) as (src2 & Ek2 & El & _). exists src2. by rewrite El.
  - intros k1 src1. sv_cbn. destruct (decide (k1 = k)) as [->|Hne]; [rewrite lookup_insert_eq; by intros [= <-]|].
    rewrite lookup_insert_ne by done. intros E. destruct (iv_source _ Hi _ _ E) as (W1 & W2 & W3 & W4 & W5).
    split_and!; try done. intros t tr Et Hm. destruct (W4 t tr Et Hm) as (d & x & Ed & Ex & Hp).
    destruct (Hkept d x Ex) as [v Ev]. by exists d, (MkDest (d_stream x) v (d_process x)).
  - intros e y E. destruct (iv_ep _ Hi _ _ E) as [(x & ls & src1 & t1 & E1 & E2 & E3 & E4 & E5 & E6) Htr].
    destruct (sourced_has _ _ E5) as (src2 & Ek2 & _ & Hmed). split; [|exact Htr].
    exists x, ls, src2, t1. split_and!; try done. by apply Hmed.
  - intros p Hp. destruct (iv_fresh _ Hi p Hp) as (F1 & F2 & F3 & F4 & F5 & F6 & F7). unfold unused. sv_cbn.
    split_and!; try done. rewrite lookup_insert_ne; [done|lia].
Qed.

Lemma sourced_booted locs st :
  booted locs st → tc_server st = sv → 145 <= lv_max_trans_size src' →
  (∀ t tr, lv_track src' !! t = Some tr → tr_ready tr = false ∧ ∀ m, tr_rtp tr = Some m → wf_media m) →
  booted locs (put_sv st sv').
Proof using All.
  intros [Ht Hu Hin Hlo] Esv Hmtu Htr. destruct (ti_running _ _ Ht) as [Hs Hd]. rewrite Esv in Hs, Hd, Hu.
  assert (unready sv') as Hu'.
  { intros k1 src1 t tr. sv_cbn. rewrite lookup_insert_Some. intros [[<- <-]|[_ E]]; [apply Htr|by eapply Hu]. }
  rewrite Esv in Hlo. split; [|exact Hu'| |exact Hlo]; [|intros p loc d El Ed; eapply dest_of_kept; [exact Hkept|]; rewrite <- Esv; by eapply Hin].
  apply calm_tcp; [done| |].
  2: { rewrite Esv. split; sv_cbn; [|done|by left|done]. intros c. sv_cbn. destruct (sv_conns sv !! c) as [cx|]; [|done].
       exists (cn_ring cx). by destruct cx. }
  split; [|exact Hd]. split; try apply Hs.
  - apply sourced_inv.
  - by apply unready_idle.
  - intros k1 src1. sv_cbn. rewrite lookup_insert_Some. intros [[<- <-]|[_ E]]; [done|by eapply (se_mtu _ _ Hs)].
  - intros k1 src1 t tr m. sv_cbn. rewrite lookup_insert_Some. intros [[<- <-]|[_ E]]; [|by eapply (se_media _ _ Hs)].
    intros Et. by apply (Htr t tr Et).
  - eapply Forall_impl; [apply (se_locs _ _ Hs)|]. intros loc (? & ? & ? & H). split_and!; try done. sv_cbn.
    apply lookup_insert_is_Some'. by right.
Qed.
End sourced.

(** An allocation, or new streams, alone. *)
Lemma same_calm sv w fresh :
  (sv_fresh sv <= fresh)%nat →
  calm sv (MkServer (sv_wire sv) (sv_rconns sv) (sv_sessions sv) (sv_sess_list sv) (sv_rtsps sv) (sv_rtsp_list sv)
             (sv_lives sv) (sv_sources sv) (sv_eps sv) w fresh).
Proof.
  intros H. split; cbn; [|done|by left|done]. intros c. destruct (sv_conns sv !! c) as [cx|]; [|done].
  exists (cn_ring cx). by destruct cx.
Qed.

Lemma malloc_inv sv : server_inv sv → server_inv (malloc sv).2.
Proof.
  intros Hi. split; try apply Hi.
  - intros p Hp. sv_cbn. apply (iv_fresh _ Hi p). lia.
  - intros c x rc E1 E2. pose proof (iv_proto _ Hi _ _ _ E1 E2). sv_cbn. lia.
Qed.

Lemma malloc_booted locs st : booted locs st → booted locs (put_sv st (malloc (tc_server st)).2).
Proof.
  intros [Ht Hu Hin Hlo]. destruct (ti_running _ _ Ht) as [Hs Hd]. split; [|done|done|].
  - apply calm_tcp; [done| |apply same_calm; lia]. split; [|exact Hd]. split; try apply Hs. apply malloc_inv, Hs.
  - intros p Hp. change (tc_server (put_sv st ?sv)) with sv. sv_cbn. specialize (Hlo p Hp). lia.
Qed.

Lemma streams_booted locs st w :
  booted locs st → streams_inv w None → dests_stay (sv_streams (tc_server st)) w →
  booted locs (put_sv st (with_streams (tc_server st) w)).
Proof.
  intros [Ht Hu Hin Hlo] Hw Hk. destruct (ti_running _ _ Ht) as [Hs Hd]. split; [|done| |done].
  - apply calm_tcp; [done| |apply same_calm; lia]. split; [|exact Hd]. split; try apply Hs; [|by apply unready_idle].
    pose proof (se_inv _ _ Hs) as []. split; try done. intros k src E. destruct (iv_source k src E) as (H1 & H2 & H3 & H4 & H5).
    split_and!; try done. intros t tr Et Hm. destruct (H4 t tr Et Hm) as (d & x & Ed & Ex & Hp). destruct (Hk d x Ex) as [v Ev].
    by exists d, (MkDest (d_stream x) v (d_process x)).
  - intros p loc d El Ed. eapply dest_of_kept; [exact Hk|by eapply Hin].
Qed.

(** The stream of an encoder: [new_stream], and its functions set. *)
Definition source_added (w : streams) (name : list Z) (format : Z) : streams :=
  MkStreams (st_fresh w :: stream_list w) (<[st_fresh w := MkStream name format [] RunSource]> (st_streams w))
    (st_dests w) (st_running w) (S (st_fresh w)).

Lemma new_source_eq w name format :
  (length name < 256)%nat →
  let w1 := MkStreams (st_fresh w :: stream_list w) (<[st_fresh w := MkStream name format [] RunNull]> (st_streams w))
              (st_dests w) (st_running w) (S (st_fresh w)) in
  new_stream w name format = Ok (st_fresh w, w1) ∧ set_source w1 (st_fresh w) = Ok (source_added w name format).
Proof.
  intros Hl w1. unfold new_stream, set_source. rewrite (proj2 (Nat.leb_gt _ _) Hl). split; [done|]. unfold w1. cbn [st_streams].
  rewrite lookup_insert_eq. unfold set_stream, source_added. cbn. by rewrite insert_insert_eq.
Qed.

Lemma source_added_booted locs st name format :
  booted locs st → (length name < 256)%nat →
  booted locs (put_sv st (with_streams (tc_server st) (source_added (sv_streams (tc_server st)) name format))).
Proof.
  intros Hb Hl. pose proof (se_inv _ _ (proj1 (ti_running _ _ (bo_inv _ _ Hb)))) as Hi.
  destruct (new_source_inv (sv_streams (tc_server st)) name format (iv_streams _ Hi) Hl) as (w & Ew & Hw). cbn [stream_step] in Ew.
  destruct (new_source_eq (sv_streams (tc_server st)) name format Hl) as [E1 E2]. rewrite E1, bind_Ok, E2 in Ew. injection Ew as <-.
  apply streams_booted; [done|done|]. intros d x E. exists (d_waiting x). cbn. rewrite E. by destruct x.
Qed.

(** *** Directives of live sources *)

Lemma live_start_block_ok locs st :
  booted locs st → booted locs (put_sv st (live_start_block (tc_server st)).2).
Proof.
  intros Hb. set (st1 := put_sv st (malloc (tc_server st)).2). pose proof (malloc_booted _ _ Hb) as Hb1. fold st1 in Hb1.
  set (src := MkSource [] (replicate MAX_TRACKS (MkTrack None false None)) 1400 (2 ^ 32 - 1) 0).
  pose proof (se_inv _ _ (proj1 (ti_running _ _ (bo_inv _ _ Hb)))) as Hi.
  assert (∀ t tr, lv_track src !! t = Some tr → tr = MkTrack None false None) as Htr.
  { intros t tr E. apply lookup_replicate in E as [-> _]. done. }
  change (live_start_block (tc_server st)).2 with
    (set_source_at (with_streams (tc_server st1) (sv_streams (tc_server st1))) (sv_fresh (tc_server st)) src).
  apply (sourced_booted (tc_server st1) (sv_streams (tc_server st1)) (sv_fresh (tc_server st)) src) with (st := st1); try done.
  - by apply malloc_inv.
  - apply (iv_streams _ Hi).
  - cbn. lia.
  - intros src1 E. destruct (iv_fresh _ Hi (sv_fresh (tc_server st))) as (_ & _ & _ & _ & _ & H & _); [lia|]. cbn in E. congruence.
  - split_and!; [constructor|by intros l ?%not_elem_of_nil|done| |].
    + intros t tr E [m Hm]. by rewrite (Htr _ _ E) in Hm.
    + intros t t' _ (tr & E & [m Hm]). by rewrite (Htr _ _ E) in Hm.
  - intros t tr E. rewrite (Htr _ _ E). done.
Qed.

(** A directive that changes a number of the source. *)
Lemma numbers_ok locs st k src n conn :
  booted locs st → sv_sources (tc_server st) !! k = Some src → 145 <= n →
  booted locs (put_sv st (set_source_at (tc_server st) k (MkSource (lv_sess_list src) (lv_track src) n conn (lv_cur_conn src)))).
Proof.
  intros Hb E Hn. pose proof (ti_running _ _ (bo_inv _ _ Hb)) as [Hs _]. pose proof (se_inv _ _ Hs) as Hi.
  set (src' := MkSource _ _ _ _ _).
  change (set_source_at _ _ _) with (set_source_at (with_streams (tc_server st) (sv_streams (tc_server st))) k src').
  apply sourced_booted; try done.
  - apply (iv_streams _ Hi).
  - destruct (Nat.lt_ge_cases k (sv_fresh (tc_server st))) as [|Hge]; [done|]. destruct (iv_fresh _ Hi _ Hge) as (_ & _ & _ & _ & _ & H & _). congruence.
  - intros src1 E1. assert (src1 = src) as -> by congruence. done.
  - apply (iv_source _ Hi _ _ E).
  - intros t tr Et. split; [by eapply (bo_unready _ _ Hb)|]. intros m Hm. by eapply (se_media _ _ Hs).
Qed.

Lemma free_track_spec trs i :
  let t := free_track trs i in
  (i <= t <= i + length trs)%nat ∧
  (∀ j tr, (i + j < t)%nat → trs !! j = Some tr → is_Some (tr_rtp tr)) ∧
  (∀ tr, trs !! (t - i)%nat = Some tr → tr_rtp tr = None).
Proof.
  revert i. induction trs as [|tr trs IH]; intros i; cbn [free_track length].
  { split_and!; [lia..|lia|done]. }
  destruct (tr_rtp tr) as [m|] eqn:Em.
  - destruct (IH (S i)) as (H1 & H2 & H3). split; [lia|]. split.
    + intros [|j] tr' Hj; [intros [= <-]; by rewrite Em|]. apply H2. lia.
    + intros tr'. replace (free_track trs (S i) - i)%nat with (S (free_track trs (S i) - S i)) by lia. apply H3.
  - split; [lia|]. split; [intros; lia|]. rewrite Nat.sub_diag. by intros tr' [= <-].
Qed.

Section put_track.
Context (locs : list rtsp_location) (st : tcp_state) (k : nat) (src : live_source) (tr : live_track) (w : streams).
Abbreviation sv := (tc_server st).
Abbreviation t := (free_track (lv_track src) 0).
Hypothesis Hb : booted locs st.
Hypothesis Ek : sv_sources sv !! k = Some src.
Hypothesis Et : lv_track src !! t = Some tr.
Hypothesis Hw : streams_inv w None.
Hypothesis Hkept : dests_stay (sv_streams sv) w.

Lemma put_track_media tr' t1 :
  has_media (put_track src t tr') t1 ↔ (t1 = t ∧ is_Some (tr_rtp tr')) ∨ (t1 ≠ t ∧ has_media src t1).
Proof using Et.
  unfold has_media, put_track. cbn [with_tracks lv_track]. destruct (decide (t1 = t)) as [->|Hne].
  - rewrite list_lookup_insert_eq by (by eapply lookup_lt_Some). naive_solver.
  - rewrite list_lookup_insert_ne by done. naive_solver.
Qed.

Lemma free_has t1 : has_media src t1 ↔ (t1 < t)%nat.
Proof using Hb Ek Et.
  destruct (free_track_spec (lv_track src) 0) as (H1 & H2 & H3). rewrite Nat.sub_0_r in H3. split.
  - intros Hm. destruct (Nat.lt_ge_cases t1 t) as [|Hge]; [done|]. pose proof (se_inv _ _ (proj1 (ti_running _ _ (bo_inv _ _ Hb)))) as Hi.
    destruct (iv_source _ Hi _ _ Ek) as (_ & _ & _ & _ & Hdown). destruct (Hdown _ _ Hge Hm) as (tr1 & E1 & [m Em]).
    by rewrite (H3 _ E1) in Em.
  - intros Hlt. destruct (lookup_lt_is_Some_2 (lv_track src) t1) as [tr1 E1]; [apply lookup_lt_Some in Et; lia|].
    exists tr1. split; [done|]. by eapply (H2 t1).
Qed.

Lemma put_track_booted d m :
  (∀ m', m = Some m' → wf_media m' ∧ ∃ d' x, d = Some d' ∧ st_dests w !! d' = Some x ∧ d_process x = Client (track_id k t)) →
  booted locs (put_sv st (set_source_at (with_streams sv w) k (put_track src t (MkTrack d (tr_ready tr) m)))).
Proof using All.
  intros Hm. pose proof (ti_running _ _ (bo_inv _ _ Hb)) as [Hs _]. pose proof (se_inv _ _ Hs) as Hi.
  destruct (iv_source _ Hi _ _ Ek) as (W1 & W2 & W3 & W4 & W5). set (tr' := MkTrack _ _ _).
  assert (∀ t1 tr1, lv_track (put_track src t tr') !! t1 = Some tr1 → t1 = t ∧ tr1 = tr' ∨ lv_track src !! t1 = Some tr1) as Hback.
  { intros t1 tr1. unfold put_track. cbn [with_tracks lv_track]. intros H%list_lookup_insert_Some. naive_solver. }
  apply sourced_booted; try done.
  - destruct (Nat.lt_ge_cases k (sv_fresh sv)) as [|Hge]; [done|]. destruct (iv_fresh _ Hi _ Hge) as (_ & _ & _ & _ & _ & H & _). congruence.
  - intros src1 E1. assert (src1 = src) as -> by congruence. split; [done|]. intros t1 H1. apply put_track_media. right.
    split; [|done]. apply free_has in H1. lia.
  - split; [exact W1|]. split; [exact W2|]. split; [unfold put_track; cbn; by rewrite length_insert|]. split.
    + intros t1 tr1 [[-> ->]|E1]%Hback Hm1.
      * destruct m as [m'|]; [|by destruct Hm1]. destruct (Hm m' eq_refl) as (_ & d' & x & -> & E & Hp). by exists d', x.
      * destruct (W4 t1 tr1 E1 Hm1) as (d1 & x1 & Ed & Ex & Hp). destruct (Hkept d1 x1 Ex) as [v Ev].
        by exists d1, (MkDest (d_stream x1) v (d_process x1)).
    + intros t1 t2 Hle. rewrite !put_track_media, !free_has. destruct (decide (t2 = t)) as [->|]; [|lia].
      intros [[-> H]|[Hne H]]; [by left|lia].
  - apply (se_mtu _ _ Hs _ _ Ek).
  - intros t1 tr1 [[-> ->]|E1]%Hback.
    + split; [apply (bo_unready _ _ Hb k src _ tr Ek Et)|]. intros m' Em. by apply (Hm m' Em).
    + split; [by eapply (bo_unready _ _ Hb)|]. intros m' Em. by eapply (se_media _ _ Hs).
Qed.
End put_track.

(** The sources stay, and no stream becomes an encoder's. *)
Definition same_sources (sv sv' : server) : Prop :=
  sv_fresh sv' = sv_fresh sv ∧ sources_stay (sv_streams sv) (sv_streams sv') ∧
  ∀ k, is_Some (sv_sources sv !! k) → is_Some (sv_sources sv' !! k).

Lemma put_same_sources sv w k src : sources_stay (sv_streams sv) w → same_sources sv (set_source_at (with_streams sv w) k src).
Proof. intros H. split; [done|]. split; [done|]. intros k1 H1. cbn. apply lookup_insert_is_Some'. by right. Qed.

Lemma live_set_track_ok locs st k name rate junk :
  booted locs st → is_Some (sv_sources (tc_server st) !! k) → rates_ok (sv_streams (tc_server st)) rate →
  returns (live_set_track (tc_server st) k name rate junk) (λ p, booted locs (put_sv st p.2) ∧ same_sources (tc_server st) p.2).
Proof.
  intros Hb [src Ek] Hr. unfold live_set_track. rewrite (deref_Ok _ _ _ Ek), bind_Ok. cbv zeta.
  pose proof (se_inv _ _ (proj1 (ti_running _ _ (bo_inv _ _ Hb)))) as Hi. destruct (iv_source _ Hi _ _ Ek) as (_ & _ & Hlen & _).
  set (t := free_track (lv_track src) 0). destruct (Nat.eqb_spec t MAX_TRACKS) as [|Hne]; [apply returns_Ok; split; [by destruct st as [[[]]]|done]|].
  destruct (free_track_spec (lv_track src) 0) as (Hle & _). destruct (lookup_lt_is_Some_2 (lv_track src) t) as [tr Et]; [fold t in Hle; lia|].
  rewrite (rd_Ok _ _ _ Et), bind_Ok.
  destruct (connect_ok (sv_streams (tc_server st)) name (track_id k t) track_formats (iv_streams _ Hi)) as (d & w & -> & Hw & Hk & Hsk & Hd).
  rewrite bind_Ok. destruct d as [d|]; [|apply returns_Ok; split; [by eapply put_track_booted|by apply put_same_sources]].
  destruct (Hd d eq_refl) as [s Ed]. rewrite (deref_Ok _ _ _ Ed), bind_Ok. cbn [d_stream].
  destruct (si_dests _ _ Hw _ _ Ed) as (_ & _ & (sx & Es & _) & _). cbn [d_stream] in Es. rewrite (deref_Ok _ _ _ Es), bind_Ok.
  destruct (si_streams _ _ Hw _ _ Es) as [Hlt _].
  eapply returns_bind; [apply new_media_ok; apply get_framerate_ok; [done|by rewrite Es|done|]|].
  { intros s1 x1 E1 Hr1. destruct (Hsk s1 x1 E1 Hr1) as (x0 & E0 & H0). by eapply Hr. }
  intros [m|] Hm; [|apply returns_Ok; split; [by eapply put_track_booted|by apply put_same_sources]].
  destruct (set_waiting_kept w d _ (track_id k t) 1 Hw Ed eq_refl) as (w' & -> & Hw' & Hk' & Hsk'). rewrite bind_Ok. apply returns_Ok. cbn [snd].
  destruct (Hk' _ _ Ed) as [v Ed']. change (with_streams ?x w') with
    (set_source_at (with_streams (tc_server st) w') k (put_track src t (MkTrack (Some d) (tr_ready tr) (Some m)))).
  split; [|apply put_same_sources; by etrans]. eapply put_track_booted; try done; [by etrans|]. intros m' [= <-]. split; [by apply Hm|]. by eexists _, _.
Qed.

Lemma init_location_ok path junk :
  length junk = 256%nat → (length path < 256)%nat → returns (init_location path junk) (λ a, length a = 256%nat).
Proof.
  intros Hj Hp. unfold init_location. destruct (Nat.leb_spec (length junk) (length path)); [lia|]. apply returns_Ok.
  rewrite splice_length; [done|]. rewrite length_app. cbn. lia.
Qed.

Definition auth_ok (auth : option (list Z * list Z * list Z)) : Prop :=
  match auth with
  | None => True
  | Some (realm, username, password) =>
      (length realm < 128)%nat ∧ no_nul realm ∧ (length username < 128)%nat ∧ (length password < 128)%nat
  end.

Lemma copy_128_ok s : (length s < 128)%nat → copy_128 (Some s) = Ok s.
Proof. intros H. unfold copy_128. destruct (Nat.leb_spec 128 (length s)); [lia|done]. Qed.

Lemma live_set_path_ok locs st k path auth junk :
  booted locs st → is_Some (sv_sources (tc_server st) !! k) → length junk = 256%nat → (length path < 256)%nat → auth_ok auth →
  returns (live_set_path locs k path auth junk) (λ locs', booted locs' st).
Proof.
  intros Hb Hk Hj Hp Ha. assert (∀ loc, wf_location (tc_server st) loc → booted (loc :: locs) st) as Hcons.
  { intros loc Hl. destruct Hb as [[[[H1 H2 H3 H4 H5 H6 H7 H8] Hd] I2 I3 I4 I5 I6] B2 B3 B4].
    split; [|done..]. split; [|done..]. split; [|done]. split; try done. by constructor. }
  destruct (init_location_ok path junk Hj Hp) as (a & Ea & Hla). unfold live_set_path, new_rtsp_location.
  destruct auth as [[[realm username] password]|]; rewrite Ea, bind_Ok.
  - destruct Ha as (A1 & A2 & A3 & A4). rewrite !copy_128_ok, !bind_Ok by done. apply returns_Ok. by apply Hcons.
  - cbn [copy_128]. rewrite !bind_Ok. apply returns_Ok, Hcons. split_and!; try done; [cbn; lia|constructor].
Qed.

(** *** Directives of HTTP locations *)

Lemma http_booted locs st h :
  booted locs st → http_inv (tc_server st) h → ht_sess h = ht_sess (wb_http (tc_web st)) →
  (∀ p loc d, ht_locs h !! p = Some loc → hl_input loc = Some d → dest_of (sv_streams (tc_server st)) d) →
  (∀ p, is_Some (ht_locs h !! p) → (p < sv_fresh (tc_server st))%nat) →
  booted locs (put_web st (put_http (tc_web st) h)).
Proof.
  intros [Ht Hu Hin Hlo] Hh Hs Hd Hp. split; [|done..]. destruct st as [web l]. by apply (put_http_inv locs web l h).
Qed.

Lemma http_start_block_ok locs st junk :
  booted locs st → length junk = 256%nat →
  returns (http_start_block (tc_web st) junk) (λ p, booted locs (put_web st p.2)).
Proof.
  intros Hb Hj. unfold http_start_block. cbn [malloc]. destruct (init_location_ok [] junk Hj) as (a & -> & Ha); [cbn; lia|].
  rewrite bind_Ok. apply returns_Ok. cbn [snd]. set (p := sv_fresh (wb_server (tc_web st))).
  pose proof (malloc_booted _ _ Hb) as Hb1. set (st1 := put_sv st _) in Hb1.
  set (loc := MkHttpLoc a None None 0 [] false). set (h := wb_http (tc_web st)).
  change (booted locs (put_web st1 (put_http (tc_web st1) (MkHttp (p :: ht_loc_list h) (<[p := loc]> (ht_locs h)) (ht_sess h))))).
  pose proof (ti_http _ _ (bo_inv _ _ Hb1)) as Hh. change (wb_http (tc_web st1)) with h in Hh.
  assert (ht_locs h !! p = None) as Hnone.
  { destruct (ht_locs h !! p) as [x|] eqn:E; [|done]. pose proof (bo_locs _ _ Hb p) as Hlt. change (wb_http (tc_web st)) with h in Hlt.
    rewrite E in Hlt. specialize (Hlt ltac:(by eexists)). unfold p, tc_server in Hlt. lia. }
  apply http_booted; [done| |done| |].
  - split; cbn [ht_locs ht_loc_list ht_sess].
    + intros q [->|Hq]%elem_of_cons; [by rewrite lookup_insert_eq|]. apply lookup_insert_is_Some'. right. by apply (hi_list _ _ Hh).
    + intros q loc1. rewrite lookup_insert_Some. intros [[<- <-]|[_ E]]; [|by apply (hi_loc _ _ Hh)].
      split; [done|]. split; [done|]. by intros s ?%not_elem_of_nil.
    + intros s x Es. destruct (hi_sess _ _ Hh _ _ Es) as ((loc1 & E1 & Hin) & Hrest). split; [|done].
      exists loc1. cbn. rewrite lookup_insert_ne; [done|]. congruence.
  - cbn. intros q loc1 d. rewrite lookup_insert_Some. intros [[<- <-]|[_ E]]; [done|]. by apply (bo_inputs _ _ Hb1 q).
  - cbn. intros q. rewrite lookup_insert_is_Some'. intros [<-|Hq]; [unfold p, tc_server; cbn; lia|]. by apply (bo_locs _ _ Hb1).
Qed.

(** A directive that changes a location. *)
Lemma loc_booted locs st p loc loc' :
  booted locs st → ht_locs (wb_http (tc_web st)) !! p = Some loc →
  hl_sess_list loc' = hl_sess_list loc → length (hl_path loc') = 256%nat → hl_frame loc' = hl_frame loc →
  hl_length_with_jfif loc' = hl_length_with_jfif loc →
  (∀ d, hl_input loc' = Some d → dest_of (sv_streams (tc_server st)) d) →
  booted locs (put_web st (put_http (tc_web st) (set_loc (wb_http (tc_web st)) p loc'))).
Proof.
  intros Hb E H1 H2 H3 H4 H5. pose proof (ti_http _ _ (bo_inv _ _ Hb)) as Hh. apply http_booted; [done| |done| |].
  - eapply set_loc_http; try done. destruct (hi_loc _ _ Hh _ _ E) as (_ & Hp & _). unfold wf_picture in *. by rewrite H3, H4.
  - intros q loc1 d. cbn. rewrite lookup_insert_Some. intros [[<- <-]|[_ E1]]; [apply H5|by apply (bo_inputs _ _ Hb q)].
  - intros q. cbn. rewrite lookup_insert_is_Some'. intros [<-|Hq]; apply (bo_locs _ _ Hb); [by rewrite E|done].
Qed.

Lemma http_set_input_ok locs st p name client :
  booted locs st → is_Some (ht_locs (wb_http (tc_web st)) !! p) →
  returns (http_set_input (tc_web st) p name client) (λ r, booted locs (put_web st r.2)).
Proof.
  intros Hb [loc E]. pose proof (se_inv _ _ (proj1 (ti_running _ _ (bo_inv _ _ Hb)))) as Hi. unfold http_set_input.
  rewrite (deref_Ok _ _ _ E), bind_Ok. cbv zeta.
  destruct (connect_ok (sv_streams (tc_server st)) name client [FORMAT_JPEG] (iv_streams _ Hi)) as (d & w & Ec & Hw & Hk & _ & Hd).
  change (wb_server (tc_web st)) with (tc_server st). rewrite Ec, bind_Ok. apply returns_Ok. cbn [snd].
  pose proof (streams_booted _ _ _ Hb Hw Hk) as Hb1. set (st1 := put_sv st _) in Hb1.
  apply (loc_booted locs st1 p loc); try done.
  - apply (hi_loc _ _ (ti_http _ _ (bo_inv _ _ Hb)) _ _ E).
  - cbn. intros d' ->. destruct (Hd d' eq_refl) as [s Es]. by eexists _, _.
Qed.

Lemma http_set_path_ok locs st p path :
  booted locs st → is_Some (ht_locs (wb_http (tc_web st)) !! p) → (length path < 256)%nat →
  returns (http_set_path (tc_web st) p path) (λ w, booted locs (put_web st w)).
Proof.
  intros Hb [loc E] Hp. destruct (hi_loc _ _ (ti_http _ _ (bo_inv _ _ Hb)) _ _ E) as (Hl & _). unfold http_set_path.
  rewrite (deref_Ok _ _ _ E), bind_Ok. eapply returns_bind; [by apply init_location_ok|]. intros a Ha. apply returns_Ok.
  apply (loc_booted locs st p loc); try done. cbn. intros d. by apply (bo_inputs _ _ Hb p).
Qed.

Lemma http_set_mode_ok locs st p mode :
  booted locs st → is_Some (ht_locs (wb_http (tc_web st)) !! p) →
  returns (http_set_mode (tc_web st) p mode) (λ r, booted locs (put_web st r.2)).
Proof.
  intros Hb [loc E]. destruct (hi_loc _ _ (ti_http _ _ (bo_inv _ _ Hb)) _ _ E) as (Hl & _). unfold http_set_mode.
  rewrite (deref_Ok _ _ _ E), bind_Ok. cbv zeta.
  destruct (strcaseeq mode (lit "single")); [|destruct (strcaseeq mode (lit "stream"))]; apply returns_Ok; cbn [snd];
    [..|by destruct st]; (apply (loc_booted locs st p loc); try done; cbn; intros d; by apply (bo_inputs _ _ Hb p)).
Qed.

Lemma http_end_block_ok locs st p :
  booted locs st → is_Some (ht_locs (wb_http (tc_web st)) !! p) →
  returns (http_end_block (tc_web st) p) (λ r, booted locs (put_web st r.2)).
Proof.
  intros Hb [loc E]. pose proof (se_inv _ _ (proj1 (ti_running _ _ (bo_inv _ _ Hb)))) as Hi. unfold http_end_block.
  rewrite (deref_Ok _ _ _ E), bind_Ok. destruct (hl_input loc) as [d|] eqn:Ed; [|apply returns_Ok; by destruct st].
  case_bool_decide; [apply returns_Ok; by destruct st|]. destruct (bo_inputs _ _ Hb _ _ _ E Ed) as (x & n & Ex & Hp).
  destruct (set_waiting_kept _ d x n 1 (iv_streams _ Hi) Ex Hp) as (w' & Ew & Hw' & Hk' & _).
  change (wb_server (tc_web st)) with (tc_server st). cbv zeta. rewrite Ew, bind_Ok. apply returns_Ok.
  by apply (streams_booted locs st w').
Qed.

(** ** The configuration file *)

(** [NewStream] is an encoder or an input with its output; the other directives name the
    source or location of their block. *)
Inductive directive :=
| NewStream (name : list Z) (format : Z)
| LiveStart
| LiveTrack (k : nat) (name : list Z) (junk : rtp_jpeg)
| LivePath (k : nat) (path : list Z) (auth : option (list Z * list Z * list Z)) (junk : list Z)
| LiveMtu (k : nat) (n : Z)
| LiveConn (k : nat) (n : Z)
| LiveEnd (k : nat)
| HttpStart (junk : list Z)
| HttpInput (p : nat) (name : list Z) (client : nat)
| HttpPath (p : nat) (path : list Z)
| HttpMode (p : nat) (mode : list Z)
| HttpEnd (p : nat).

Definition configure (rate : nat → Z * Z) (locs : list rtsp_location) (st : tcp_state) (d : directive)
    : outcome (list rtsp_location * tcp_state) :=
  let sv := tc_server st in
  let web := tc_web st in
  match d with
  | NewStream name format =>
      '(s, w) ← new_stream (sv_streams sv) name format;
      w ← set_source w s;
      Ok (locs, put_sv st (with_streams sv w))
  | LiveStart => Ok (locs, put_sv st (live_start_block sv).2)
  | LiveTrack k name junk => '(_, sv) ← live_set_track sv k name rate junk; Ok (locs, put_sv st sv)
  | LivePath k path auth junk => locs ← live_set_path locs k path auth junk; Ok (locs, st)
  | LiveMtu k n => sv ← live_set_mtu sv k n; Ok (locs, put_sv st sv)
  | LiveConn k n => sv ← live_set_conn sv k n; Ok (locs, put_sv st sv)
  | LiveEnd k => _ ← live_end_block sv k; Ok (locs, st)
  | HttpStart junk => '(_, w) ← http_start_block web junk; Ok (locs, put_web st w)
  | HttpInput p name client => '(_, w) ← http_set_input web p name client; Ok (locs, put_web st w)
  | HttpPath p path => w ← http_set_path web p path; Ok (locs, put_web st w)
  | HttpMode p mode => '(_, w) ← http_set_mode web p mode; Ok (locs, put_web st w)
  | HttpEnd p => '(_, w) ← http_end_block web p; Ok (locs, put_web st w)
  end.

(** Names, paths and passwords are shorter than their arrays, the MTU has room for the
    headers of a JPEG packet, and the block is open. *)
Definition directive_ok (st : tcp_state) (d : directive) : Prop :=
  let source k := is_Some (sv_sources (tc_server st) !! k) in
  let location p := is_Some (ht_locs (wb_http (tc_web st)) !! p) in
  match d with
  | NewStream name _ => (length name < 256)%nat
  | LiveStart => True
  | LiveTrack k _ _ => source k
  | LivePath k path auth junk => source k ∧ length junk = 256%nat ∧ (length path < 256)%nat ∧ auth_ok auth
  | LiveMtu k n => source k ∧ 145 <= n
  | LiveConn k _ => source k
  | LiveEnd k => source k
  | HttpStart junk => length junk = 256%nat
  | HttpInput p _ _ => location p
  | HttpPath p path => location p ∧ (length path < 256)%nat
  | HttpMode p _ => location p
  | HttpEnd p => location p
  end.

Fixpoint configure_all (rate : nat → Z * Z) (locs : list rtsp_location) (st : tcp_state) (ds : list directive)
    : outcome (list rtsp_location * tcp_state) :=
  match ds with
  | [] => Ok (locs, st)
  | d :: ds => '(locs, st) ← configure rate locs st d; configure_all rate locs st ds
  end.

Fixpoint directives_ok (rate : nat → Z * Z) (locs : list rtsp_location) (st : tcp_state) (ds : list directive) : Prop :=
  match ds with
  | [] => True
  | d :: ds =>
      directive_ok st d ∧
      match configure rate locs st d with Ok (locs, st) => directives_ok rate locs st ds | _ => True end
  end.

(** The server before the file is read; [w] is the network. *)
Definition empty_server (udp : nat → bool) (writes : nat → list write_result) : tcp_state :=
  MkTcp (MkWeb (MkRtsp (MkServer (MkWire ∅ udp writes []) ∅ ∅ [] ∅ [] ∅ ∅ ∅ no_streams 0)
                 (MkSecret [] false) []) (MkHttp [] ∅ ∅)) [].

Lemma empty_booted udp writes :
  drained (MkWire ∅ udp writes []) → booted [] (empty_server udp writes).
Proof.
  intros Hd. split; [|done|done|by intros p [x E]]. split; [|done| |done|done|].
  - split; [|exact Hd]. split; try done. split; try done.
    all: first [apply no_streams_inv | intros x; split; [by intros ?%not_elem_of_nil|by intros [y E]]].
  - split; [constructor|]. intros c. split; [by intros ?%not_elem_of_nil|by intros [x E]].
  - split; try done. by intros p ?%not_elem_of_nil.
Qed.

Lemma configure_ok rate locs st d :
  booted locs st → (∀ s, rate_ok (rate s)) → directive_ok st d →
  returns (configure rate locs st d) (λ p, booted p.1 p.2).
Proof.
  intros Hb Hr Hd. pose proof (ti_running _ _ (bo_inv _ _ Hb)) as [Hs _]. pose proof (se_inv _ _ Hs) as Hi.
  destruct d; cbn [configure directive_ok] in *; cbv zeta.
  - destruct (new_source_eq (sv_streams (tc_server st)) name format Hd) as [-> Es]. rewrite bind_Ok, Es, bind_Ok.
    by apply returns_Ok, source_added_booted.
  - by apply returns_Ok, live_start_block_ok.
  - eapply returns_bind; [apply live_set_track_ok; [done|done|by intros s x _ _]|]. intros [ok sv] [H _]. by apply returns_Ok.
  - destruct Hd as (H1 & H2 & H3 & H4). eapply returns_bind; [by eapply live_set_path_ok|]. intros locs' H. by apply returns_Ok.
  - destruct Hd as [[src E] Hn]. unfold live_set_mtu. rewrite (deref_Ok _ _ _ E), !bind_Ok. by apply returns_Ok, numbers_ok.
  - destruct Hd as [src E]. unfold live_set_conn. rewrite (deref_Ok _ _ _ E), !bind_Ok. apply returns_Ok, numbers_ok; try done.
    apply (se_mtu _ _ Hs _ _ E).
  - destruct Hd as [src E]. unfold live_end_block. rewrite (deref_Ok _ _ _ E), bind_Ok. destruct (iv_source _ Hi _ _ E) as (_ & _ & Hl & _).
    destruct (lookup_lt_is_Some_2 (lv_track src) 0) as [tr Et]; [rewrite Hl; unfold MAX_TRACKS; lia|].
    rewrite (rd_Ok _ _ _ Et), !bind_Ok. by apply returns_Ok.
  - eapply returns_bind; [by apply http_start_block_ok|]. intros [p w] H. by apply returns_Ok.
  - eapply returns_bind; [by apply http_set_input_ok|]. intros [ok w] H. by apply returns_Ok.
  - destruct Hd. eapply returns_bind; [by apply http_set_path_ok|]. intros w H'. by apply returns_Ok.
  - eapply returns_bind; [by apply http_set_mode_ok|]. intros [ok w] H. by apply returns_Ok.
  - eapply returns_bind; [by apply http_end_block_ok|]. intros [ok w] H. by apply returns_Ok.
Qed.

Lemma configure_all_ok rate locs st ds :
  booted locs st → (∀ s, rate_ok (rate s)) → directives_ok rate locs st ds →
  returns (configure_all rate locs st ds) (λ p, booted p.1 p.2).
Proof.
  intros Hb Hr. revert locs st Hb. induction ds as [|d ds IH]; intros locs st Hb Hok; [by apply returns_Ok|].
  destruct Hok as [Hd Hds]. cbn [configure_all]. destruct (configure_ok rate locs st d Hb Hr Hd) as ([locs' st'] & E & Hb').
  rewrite E in Hds |- *. rewrite bind_Ok. by apply IH.
Qed.
