(* ===== verification/System.v ===== *)
(** * The server as a whole

    The events the main loop dispatches -- connections, input, output, frames, timers,
    datagrams -- as one step function, and the theorem that a configured server takes any
    sequence of them. *)

From Stdlib Require Import String.
From S2P Require Import Prelude CString Pmsg HttpAuth SendBuf Base64 Frame Stream Rtcp Rtp RtpMedia Server ServerInv ServerOps Reply Rtsp RtspSafe Live LiveSafe Http Tcp TcpSafe TcpStep Config.

Local Open Scope Z_scope.
Local Open Scope c_scope.

(** ** Events *)

Inductive event :=
| EvAccept (fd : Z) (addr junk_req junk_send : list Z)
| EvRead (c : nat) (second : bool) (rs : list (read_result * env))
| EvWritable (c : nat) (ws : list write_result)
| EvFrame (k t : nat) (f : live_frame) (cs : nat → nat → clock)
| EvPicture (p : nat) (f : live_frame)
| EvReport (e : nat) (c : clock)
| EvRtp (e : nat) (ret : Z) (c : clock)
| EvRtcp (e : nat) (ret : Z) (buf : list Z) (c : clock).

Definition step (locs : list rtsp_location) (st : tcp_state) (ev : event) : outcome tcp_state :=
  let sv := tc_server st in
  match ev with
  | EvAccept fd addr junk_req junk_send => Ok (do_accept st fd addr junk_req junk_send)
  | EvRead c second rs => do_read locs st c second rs
  | EvWritable c ws => on_writable st c ws
  | EvFrame k t f cs => sv ← next_live_frame sv k t f cs; Ok (put_sv st sv)
  | EvPicture p f => w ← jpeg_next_frame (tc_web st) p f; Ok (put_web st w)
  | EvReport e c => sv ← rtcp_fire sv e c; Ok (put_sv st sv)
  | EvRtp e ret c => sv ← on_udp_rtp sv e ret c; Ok (put_sv st sv)
  | EvRtcp e ret buf c => sv ← on_udp_rtcp sv e ret buf c; Ok (put_sv st sv)
  end.

Fixpoint run (locs : list rtsp_location) (st : tcp_state) (evs : list event) : outcome tcp_state :=
  match evs with
  | [] => Ok st
  | ev :: evs => st ← step locs st ev; run locs st evs
  end.

(** Events come from objects that are there, the system calls have returned, and what is
    read stays within the limits of [TcpStep] and [LiveSafe]. *)
Definition event_ok (locs : list rtsp_location) (st : tcp_state) (ev : event) : Prop :=
  let sv := tc_server st in
  match ev with
  | EvAccept _ _ junk_req junk_send => length junk_req = REQ_BUF_SIZE ∧ junk_send ≠ []
  | EvRead c second rs => is_Some (sv_conns sv !! c) ∧ reads_ok locs st c second rs
  | EvWritable c ws => ∃ cx, sv_conns sv !! c = Some cx ∧ ∃ r, conn_write ws (cn_ring cx) (cn_drop_after cx) = Ok r
  | EvFrame k t f cs =>
      ∃ src tr m pk, sv_sources sv !! k = Some src ∧ lv_track src !! t = Some tr ∧ tr_rtp tr = Some m ∧ frame_ok m f pk
  | EvPicture p f => is_Some (ht_locs (wb_http (tc_web st)) !! p) ∧ picture_ok f
  | EvReport e _ => is_Some (sv_eps sv !! e)
  | EvRtp e _ _ => is_Some (sv_eps sv !! e)
  | EvRtcp e _ buf _ => is_Some (sv_eps sv !! e) ∧ Forall is_byte buf
  end.

Fixpoint events_ok (locs : list rtsp_location) (st : tcp_state) (evs : list event) : Prop :=
  match evs with
  | [] => True
  | ev :: evs => event_ok locs st ev ∧ match step locs st ev with Ok st => events_ok locs st evs | _ => True end
  end.

Lemma stream_event locs st (o : outcome server) :
  tcp_inv locs st → returns o (λ sv', running locs sv' ∧ streamed (tc_server st) sv') →
  returns (sv ← o; Ok (put_sv st sv)) (tcp_inv locs).
Proof.
  intros Hi Ho. eapply returns_bind; [exact Ho|]. intros sv' [Hr Hs]. apply returns_Ok, calm_tcp; [done|done|by apply streamed_calm].
Qed.

Lemma step_ok locs st ev : tcp_inv locs st → event_ok locs st ev → returns (step locs st ev) (tcp_inv locs).
Proof.
  intros Hi Hev. pose proof (ti_running _ _ Hi) as Hr. destruct ev; cbn [step event_ok] in *; cbv zeta.
  - destruct Hev. by apply returns_Ok, do_accept_ok.
  - destruct Hev. by apply do_read_ok.
  - destruct Hev as (cx & E & Hw). by eapply on_writable_ok.
  - destruct Hev as (src & tr & m & pk & E1 & E2 & E3 & Hf). apply stream_event; [done|].
    eapply returns_mono; [by eapply next_live_frame_ok|]. by intros sv' (H1 & H2 & _).
  - destruct Hev. destruct st as [w l]. eapply returns_bind; [by apply (jpeg_next_frame_ok locs l)|]. intros w' Hw. by apply returns_Ok.
  - by apply stream_event, rtcp_fire_ok.
  - by apply stream_event, on_udp_rtp_ok.
  - destruct Hev. by apply stream_event, on_udp_rtcp_ok.
Qed.

Lemma run_ok locs st evs : tcp_inv locs st → events_ok locs st evs → returns (run locs st evs) (tcp_inv locs).
Proof.
  revert st. induction evs as [|ev evs IH]; intros st Hi Hok; [by apply returns_Ok|]. destruct Hok as [Hev Hevs].
  cbn [run]. destruct (step_ok locs st ev Hi Hev) as (st' & E & Hi'). rewrite E in Hevs |- *. rewrite bind_Ok. by apply IH.
Qed.

(** ** The server *)

(** Reading the file, and then the main loop. *)
Definition serve (rate : nat → Z * Z) (udp : nat → bool) (writes : nat → list write_result)
    (ds : list directive) (evs : list event) : outcome (list rtsp_location * tcp_state) :=
  '(locs, st) ← configure_all rate [] (empty_server udp writes) ds;
  st ← run locs st evs;
  Ok (locs, st).

Definition session_ok (rate : nat → Z * Z) (udp : nat → bool) (writes : nat → list write_result)
    (ds : list directive) (evs : list event) : Prop :=
  directives_ok rate [] (empty_server udp writes) ds ∧
  match configure_all rate [] (empty_server udp writes) ds with Ok (locs, st) => events_ok locs st evs | _ => True end.


(** ** In every reachable state *)

Section reachable.
Context (rate : nat → Z * Z) (udp : nat → bool) (writes : nat → list write_result).
Context (ds : list directive) (evs : list event) (locs : list rtsp_location) (st : tcp_state).
Hypothesis Hd : drained (MkWire ∅ udp writes []).
Hypothesis Hr : ∀ s, rate_ok (rate s).
Hypothesis Hok : session_ok rate udp writes ds evs.
Hypothesis Hserve : serve rate udp writes ds evs = Ok (locs, st).

Lemma reachable_inv : tcp_inv locs st.
Proof using All.
  destruct Hok as [Hds Hevs]. revert Hserve. unfold serve.
  destruct (configure_all_ok rate [] _ ds (empty_booted udp writes Hd) Hr Hds) as ([locs1 st1] & E & Hb). rewrite E in Hevs |- *.
  rewrite bind_Ok. destruct (run_ok locs1 st1 evs (bo_inv _ _ Hb) Hevs) as (st' & -> & Hi). rewrite bind_Ok. by intros [= <- <-].
Qed.


End reachable.

(** ** A session *)

(** A microphone, a client that sets its track up over the connection, plays, and goes. *)
Definition demo_env : env :=
  MkEnv (λ n, Z.of_nat n) (λ _, (1000, 0)) (λ _, replicate 512 0) 0 false
    (MkSockets (λ k, 10 + Z.of_nat k) (λ _, Bound) true true (Some 7)) 0 default_range (λ _, true).

Definition demo_file : list directive :=
  [NewStream (lit "mic") FORMAT_PCM; LiveStart;
   LiveTrack 0 (lit "mic") (MkJpeg 0 0 0 0 0 [None; None; None; None] [] 0 false 0 0 false 0);
   LivePath 0 (lit "/live") None (replicate 256 0);
   LivePath 0 (lit "/priv") (Some (lit "home", lit "me", lit "secret")) (replicate 256 0);
   LiveMtu 0 1000].

Definition demo_request (lines : list (list Z)) : event :=
  EvRead 1 false [(ReadData (concat (map (λ s, s ++ crlf) lines) ++ crlf), demo_env); (ReadAgain, demo_env)].

Definition demo_frame (d : list Z) : event :=
  EvFrame 0 0 (MkLiveFrame (d ++ []) (Z.of_nat (length d)) 0 0) (λ _ _ _, (0, 0)).

Definition demo_id : list Z := lit "0A0B0C0D0E0F101112131415161718".

Definition demo_accept : event := EvAccept 5 (lit "10.0.0.2") (replicate 4096 0) (replicate 1000 0).
Definition demo_setup : event :=
  demo_request [lit "SETUP rtsp://cam/live/track0 RTSP/1.0"; lit "CSeq: 1"; lit "Transport: RTP/AVP/TCP;interleaved=0-1"].
Definition demo_play : event := demo_request [lit "PLAY rtsp://cam/live RTSP/1.0"; lit "CSeq: 2"; lit "Session: " ++ demo_id].
Definition demo_gone : event := EvRead 1 false [(ReadEnd, demo_env)].

Definition demo_rate : nat → Z * Z := λ _, (1, 8000).
Definition demo_udp : nat → bool := λ _, true.
Definition demo_writes : nat → list write_result := λ _, [SendBuf.Again; Failed].

Definition demo_state (evs : list event) : tcp_state :=
  match serve demo_rate demo_udp demo_writes demo_file evs with
  | Ok (_, st) => st
  | _ => empty_server demo_udp demo_writes
  end.

Definition demo_conn (evs : list event) : option conn := sv_conns (tc_server (demo_state evs)) !! 1%nat.

Definition demo_locs : list rtsp_location :=
  match configure_all demo_rate [] (empty_server demo_udp demo_writes) demo_file with Ok (locs, _) => locs | _ => [] end.

Lemma events_ok_cons locs st st' ev evs :
  event_ok locs st ev → step locs st ev = Ok st' → events_ok locs st' evs → events_ok locs st (ev :: evs).
Proof. intros H1 H2 H3. cbn [events_ok]. rewrite H2. done. Qed.

(** A request that arrives in one piece. *)
Lemma request_event locs st cx lines st' :
  sv_conns (tc_server st) !! 1%nat = Some cx →
  data_ok cx (concat (map (λ s, s ++ crlf) lines) ++ crlf) →
  read_turn locs st 1 false (ReadData (concat (map (λ s, s ++ crlf) lines) ++ crlf)) demo_env = Ok (true, st') →
  event_ok locs st (demo_request lines).
Proof.
  intros E Hd Ht. split; [by rewrite E|]. cbn [reads_ok]. rewrite Ht. split; [|done]. split; [done|]. by exists cx.
Qed.

Definition demo_events : list event :=
  [demo_accept; demo_frame [1; 2; 3; 4]; demo_setup; demo_play; demo_frame [5; 6; 7; 8; 9; 10]; demo_gone].

Lemma demo_frame_ok n d :
  (n < 6)%nat → event_ok demo_locs (demo_state (take n demo_events)) (demo_frame d).
Proof.
  intros Hn. assert (∃ src tr m, sv_sources (tc_server (demo_state (take n demo_events))) !! 0%nat = Some src ∧
    lv_track src !! 0%nat = Some tr ∧ tr_rtp tr = Some (MediaRaw m) ∧
    ra_rate m = 8000 ∧ ra_channels m = 1 ∧ ra_sampsize m = 2) as (src & tr & m & E1 & E2 & E3 & E4 & E5 & E6).
  { do 6 (destruct n as [|n]; [by vm_compute; eexists _, _, _; split_and!|]). lia. }
  destruct (raw_frame_ok m d [] 0 0) as [pk Hpk]; [cbn; lia|lia|lia|lia|].
  exists src, tr, (MediaRaw m), pk. split_and!; try done.
Qed.

Lemma demo_data_ok n lines :
  match demo_conn (take n demo_events) with
  | Some cx => data_ok cx (concat (map (λ s, s ++ crlf) lines) ++ crlf)
  | None => False
  end →
  match read_turn demo_locs (demo_state (take n demo_events)) 1 false
          (ReadData (concat (map (λ s, s ++ crlf) lines) ++ crlf)) demo_env with
  | Ok (true, _) => True
  | _ => False
  end → event_ok demo_locs (demo_state (take n demo_events)) (demo_request lines).
Proof.
  unfold demo_conn. destruct (sv_conns _ !! _) as [cx|] eqn:E; [|done]. intros Hd.
  destruct (read_turn _ _ _ _ _ _) as [[[] st']| | |] eqn:Et; try done. intros _. by eapply request_event.
Qed.

Lemma demo_session_ok : session_ok demo_rate demo_udp demo_writes demo_file demo_events.
Proof.
  split; [vm_compute; split_and!; try lia; try done; try (by eexists); by repeat constructor|].
  assert (configure_all demo_rate [] (empty_server demo_udp demo_writes) demo_file = Ok (demo_locs, demo_state [])) as -> by by vm_compute.
  apply (events_ok_cons _ _ (demo_state (take 1 demo_events))); [split; [done|done]|by vm_compute|].
  apply (events_ok_cons _ _ (demo_state (take 2 demo_events))); [apply (demo_frame_ok 1); lia|by vm_compute|].
  apply (events_ok_cons _ _ (demo_state (take 3 demo_events))); [apply (demo_data_ok 2); [|by vm_compute]|by vm_compute|].
  { vm_compute. split_and!; [lia|repeat (constructor; [split; done|]); constructor|lia..]. }
  apply (events_ok_cons _ _ (demo_state (take 4 demo_events))); [apply (demo_data_ok 3); [|by vm_compute]|by vm_compute|].
  { vm_compute. split_and!; [lia|repeat (constructor; [split; done|]); constructor|lia..]. }
  apply (events_ok_cons _ _ (demo_state (take 5 demo_events))); [apply (demo_frame_ok 4); lia|by vm_compute|].
  apply (events_ok_cons _ _ (demo_state (take 6 demo_events))); [|by vm_compute|done].
  split; [by vm_compute; eexists|]. split; [done|]. by vm_compute.
Qed.

Lemma demo_drained : drained (MkWire ∅ demo_udp demo_writes []).
Proof.
  intros n c _. unfold tcp_conn_flush, demo_writes. cbn [wi_writes drain]. destruct (_ =? _)%nat; [by eexists|]. by eexists.
Qed.

Lemma demo_rate_ok s : rate_ok (demo_rate s).
Proof. unfold rate_ok, demo_rate. cbn. lia. Qed.

Lemma events_ok_take locs st evs n : events_ok locs st evs → events_ok locs st (take n evs).
Proof.
  revert st n. induction evs as [|ev evs IH]; intros st [|n]; try done. cbn [events_ok take]. intros [H1 H2]. split; [done|].
  destruct (step locs st ev); try done. by apply IH.
Qed.


Lemma demo_served n : serve demo_rate demo_udp demo_writes demo_file (take n demo_events) = Ok (demo_locs, demo_state (take n demo_events)).
Proof.
  destruct demo_session_ok as [Hds Hevs]. unfold demo_state, demo_locs, serve.
  destruct (configure_all_ok demo_rate [] _ demo_file (empty_booted _ _ demo_drained) demo_rate_ok Hds) as ([locs st] & E & Hb).
  rewrite E in Hevs |- *. rewrite bind_Ok.
  destruct (run_ok locs st (take n demo_events) (bo_inv _ _ Hb) (events_ok_take _ _ _ _ Hevs)) as (st' & E' & Hi). by rewrite E', !bind_Ok.
Qed.

Lemma demo_prefix_ok n : session_ok demo_rate demo_udp demo_writes demo_file (take n demo_events).
Proof.
  destruct demo_session_ok as [Hds Hevs]. split; [done|]. destruct (configure_all _ _ _ _) as [[locs st]| | |]; try done.
  by apply events_ok_take.
Qed.

(** The invariant holds at each moment of the session. *)
Lemma demo_inv n : tcp_inv demo_locs (demo_state (take n demo_events)).
Proof. apply (reachable_inv _ _ _ _ _ _ _ demo_drained demo_rate_ok (demo_prefix_ok n) (demo_served n)). Qed.


