(* ===== verification/RtspSpec.v ===== *)
(** * What the RTSP requests promise

    Locations are found by their address, a protected location gives nothing away, PLAY
    starts the encoders, TEARDOWN ends one session and no other.  Also where the code does
    less than it should. *)

From Stdlib Require Import String.
From S2P Require Import Prelude CString Pmsg HttpAuth SendBuf Base64 Frame Stream Rtcp Rtp RtpMedia Server ServerInv ServerOps Reply Rtsp RtspSafe Live LiveSafe Http Tcp TcpSafe TcpStep Config System.

Local Open Scope Z_scope.
Local Open Scope c_scope.

(** ** Protected locations *)

Section protected.
Context (locs : list rtsp_location) (st : rtsp_state) (c : nat) (req : pmsg) (v : env).
Context (loc : rtsp_location) (ret : Z).
Hypothesis Hblock : ∀ n, length (v_block v n) = 512%nat.
Hypothesis Hrealm : lo_realm loc ≠ [].
Hypothesis Hcheck : check_digest_response (rt_secret st) (v_clock v 0%nat).1 req (lo_realm loc) (lo_username loc) (lo_password loc) = Ok ret.
Hypothesis Hret : ret <= 0.

(** The request is answered with a challenge, and nothing else happens. *)
Definition refused (st' : rtsp_state) : Prop :=
  sent c (rt_server st) (rt_server st') ∧ rt_log st' = rt_log st ++ [(401, 0)].

Lemma check_auth_refuses :
  good locs st → is_Some (sv_conns (rt_server st) !! c) → wf_location (rt_server st) loc →
  returns (check_auth st c req loc v) (λ p, p.1 = false ∧ refused p.2).
Proof using All.
  intros Hg Hc (_ & Hr & Hn & _). unfold check_auth. destruct (lo_realm loc) as [|b realm] eqn:E; [done|]. rewrite <- E in *.
  unfold rtsp_verify_auth. rewrite Hcheck, bind_Ok. rewrite (proj2 (Z.ltb_ge _ _)) by lia. cbv zeta.
  eapply returns_bind.
  { apply challenge_ok with (code := 401); [apply Hg|done|done|]. apply create_reply_reply; [done|no_nul]. }
  intros [[[ok m] sec] r'] [Hm Hsec]. cbn [fst snd rt_server log_request rt_log] in *. eapply returns_bind.
  { eapply send_reply_ok; [apply Hg|done|exact Hm|lia|done]. }
  intros [b' sv] (H1 & H2 & H3). apply returns_Ok. split; [done|]. split; [exact H3|done].
Qed.
End protected.


(** A DESCRIBE that is refused leaves a session behind: the session is opened before
    the credentials are looked at and not ended when they fail, and as no client ever
    learns of it, nobody can end it. *)
Theorem describe_refused_leaks locs st c req v method uri loc track src ret :
  (∀ n, length (v_block v n) = 512%nat) → p_sl req = Some (PMSG_REQ method uri) → path_fits (str_of req uri) →
  good locs st → is_Some (sv_conns (rt_server st) !! c) →
  find_rtsp_location locs (str_of req uri) true false = Ok (Some loc, track) → lo_realm loc ≠ [] →
  sv_sources (rt_server st) !! lo_private loc = Some src → lv_cur_conn src < lv_max_conn src →
  check_digest_response (rt_secret st) (v_clock v 0%nat).1 req (lo_realm loc) (lo_username loc) (lo_password loc) = Ok ret →
  ret <= 0 →
  returns (handle_DESCRIBE locs st c req v) (λ st', rt_log st' = rt_log st ++ [(401, 0)] ∧
    ∃ s x, sv_sessions (rt_server st) !! s = None ∧ sv_sessions (rt_server st') !! s = Some x ∧ ss_control x = None ∧
      ∀ r y, sv_rtsps (rt_server st') !! r = Some y → rs_sess y ≠ s).
Proof.
  intros Hb Hsl Hpath Hg Hc Hf Hr Ek Hconn Hcheck Hret. unfold handle_DESCRIBE, req_uri. rewrite Hsl, bind_Ok.
  pose proof (find_rtsp_location_ok locs (rt_server st) (str_of req uri) true false (se_locs _ _ (proj1 Hg)) Hpath) as Hloc.
  rewrite Hf in Hloc |- *. rewrite bind_Ok. destruct Hloc as (p & [= <-] & Hloc). specialize (Hloc loc eq_refl). cbv zeta.
  rewrite (live_open_eq _ _ _ _ Ek), (proj2 (Z.leb_gt _ _)), bind_Ok by lia.
  pose proof Hg as [Hs Hk]. destruct (opened_served locs c (rt_server st) _ src (v_clock v 0%nat).1 Hs Ek) as [Hs1 Hv1].
  set (sv1 := opened _ _ _ _) in *. set (s := S (sv_fresh (rt_server st))).
  destruct (check_auth_refuses locs (with_server st sv1) c req v loc ret Hb Hr Hcheck Hret) as ([ok st'] & -> & Hok & Hsent & Hlog).
  { by split. }
  { cbn [rt_server with_server]. destruct Hc as [cx E]. destruct (sr_self _ _ _ Hv1 _ E) as (? & ? & -> & _). done. }
  { cbn [rt_server with_server]. destruct Hloc as (L1 & L2 & L3 & L4). split_and!; try done. unfold sv1, opened. sv_cbn. apply lookup_insert_is_Some'. by right. }
  cbn in Hok. subst ok. rewrite bind_Ok. apply returns_Ok. split; [done|].
  cbn [snd] in Hsent. destruct (sent_same _ _ _ Hsent) as (-> & _ & _ & -> & _). cbn [rt_server with_server].
  pose proof (iv_fresh _ (se_inv _ _ Hs) s ltac:(unfold s; lia)) as (_ & _ & Hnone & _).
  exists s. eexists. split; [done|]. split; [unfold sv1, opened; sv_cbn; apply lookup_insert_eq|]. split; [done|].
  intros r y Ey Heq. destruct (iv_rtsp _ (se_inv _ _ Hs) r y Ey) as (x & Ex & _). rewrite Heq in Ex. congruence.
Qed.

(** ** Addresses *)

Lemma strrchr_none s ch : Forall (λ x, x ≠ ch) s → strrchr s ch = None.
Proof. induction 1 as [|x s Hx Hs IH]; [done|]. cbn [strrchr]. rewrite IH. by destruct (Z.eqb_spec x ch). Qed.

Lemma strrchr_app s ch rest : Forall (λ x, x ≠ ch) rest → strrchr (s ++ ch :: rest) ch = Some (ch :: rest).
Proof.
  intros Hr. induction s as [|x s IH]; cbn [app strrchr].
  - rewrite strrchr_none by done. by rewrite Z.eqb_refl.
  - by rewrite IH.
Qed.

Lemma udec_no_slash n : 0 <= n → Forall (λ x, x ≠ 47) (udec n).
Proof.
  intros Hn. destruct (udec_spec n Hn) as (_ & Hd & _). eapply Forall_impl; [exact Hd|]. intros x Hx ->. done.
Qed.

(** The address of track [n] below [path]. *)
Definition track_uri (host path : list Z) (n : Z) : list Z := lit "rtsp://" ++ host ++ path ++ lit "/track" ++ dec n.

Lemma track_uri_path host path n :
  Forall (λ x, x ≠ 47) host → head path = Some 47 →
  get_local_path (track_uri host path n) = Some (path ++ lit "/track" ++ dec n).
Proof.
  intros Hh Hp. unfold get_local_path, track_uri. unfold strncaseeq.
  rewrite bool_decide_eq_true_2 by done.
  rewrite drop_app_ge by done. change (7 - length (lit "rtsp://"))%nat with 0%nat. rewrite drop_0.
  destruct path as [|x path]; [done|]. injection Hp as ->. cbn [app]. by rewrite strchr_app.
Qed.

Lemma split_track_of path n :
  0 <= n <= 2147483647 → split_track (path ++ lit "/track" ++ dec n) = (n, length path).
Proof.
  intros Hn. unfold split_track. rewrite dec_udec by lia. change (lit "/track" ++ udec n) with (47 :: lit "track" ++ udec n).
  rewrite strrchr_app. 2: { apply Forall_app. split; [by repeat constructor|]. apply udec_no_slash. lia. }
  change (strneq (47 :: lit "track" ++ udec n) (lit "/track") 6) with true.
  change (drop 6 (47 :: lit "track" ++ udec n)) with (udec n).
  rewrite <- (app_nil_r (udec n)), strtol_udec, app_nil_r by done. rewrite bool_decide_eq_true_2 by done.
  f_equal. rewrite length_app. lia.
Qed.

(** The address [rtsp://host/path/track<n>] leads to the location of [/path] and to
    track [n], for every number and host name, if no location before it in the list is a
    prefix of the address. *)
Theorem track_found pre loc post host path junk n :
  Forall (λ x, x ≠ 47) host → head path = Some 47 → last path ≠ Some 47 → no_nul path → (length path < 256)%nat →
  lo_path loc = path ++ 0 :: junk → 0 <= n <= 2147483647 →
  Forall (λ l, strneq (path ++ lit "/track" ++ dec n) (loc_string l) (length (loc_string l)) = false) pre →
  find_rtsp_location (pre ++ loc :: post) (track_uri host path n) true true = Ok (Some loc, n).
Proof.
  intros Hh Hp Hlast Hnul Hlen Hloc Hn Hpre. unfold find_rtsp_location. rewrite track_uri_path by done.
  rewrite split_track_of by done. cbv zeta.
  assert ((path ++ lit "/track" ++ dec n) !! (length path - 1)%nat ≠ Some 47) as Hne.
  { rewrite lookup_app_l by (destruct path; [done|cbn; lia]). rewrite last_lookup in Hlast.
    by replace (length path - 1)%nat with (pred (length path)) by lia. }
  rewrite (bool_decide_eq_false_2 _ Hne), andb_false_r. rewrite (proj2 (Nat.leb_gt _ _)) by lia. cbn [andb].
  assert (loc_string loc = path) as Hs by (unfold loc_string; by rewrite Hloc, take_string_app).
  induction Hpre as [|l pre Hl Hpre IH]; cbn [app node_find_location].
  - rewrite Hs. unfold strneq. rewrite bool_decide_eq_true_2 by (by rewrite take_app_length, firstn_all).
    rewrite (rd_Ok _ _ 0), !bind_Ok; [done|]. rewrite Hloc, lookup_app_r by lia. by rewrite Nat.sub_diag.
  - by rewrite Hl.
Qed.

(** The comparison looks at the configured path where the requested one ends, not
    where it ends itself: in an array that is zero behind its string, a location is found
    for any longer path, [/liveness] for [/live]. *)
Theorem longer_path_found loc locs path rest :
  no_nul path → (length path + length rest < 256)%nat → lo_path loc = path ++ replicate (256 - length path) 0 →
  node_find_location (loc :: locs) (path ++ rest) (length (path ++ rest)) = Ok (Some loc).
Proof.
  intros Hnul Hlen Hloc. assert (loc_string loc = path) as Hs.
  { unfold loc_string. rewrite Hloc. destruct (256 - length path)%nat as [|k] eqn:E; [lia|]. cbn [replicate]. by rewrite take_string_app. }
  cbn [node_find_location]. rewrite Hs. unfold strneq. rewrite bool_decide_eq_true_2 by (by rewrite take_app_length, firstn_all).
  rewrite (rd_Ok _ _ 0), bind_Ok; [done|]. rewrite Hloc, lookup_app_r, length_app by (rewrite length_app; lia).
  apply lookup_replicate. split; [done|lia].
Qed.

(** ** PLAY *)

(** The frames of stream [s] come to destination [d], from it or through converters. *)
Inductive feeds (w : streams) : nat → nat → Prop :=
| feeds_direct s sx d : st_streams w !! s = Some sx → d ∈ s_dest_list sx → feeds w s d
| feeds_convert s sx d x out d' :
    st_streams w !! s = Some sx → d ∈ s_dest_list sx → st_dests w !! d = Some x → d_process x = ConvertTo out →
    feeds w out d' → feeds w s d'.

Lemma feeds_listens w s d x k :
  streams_inv w None → feeds w s d → st_dests w !! d = Some x → d_process x = Client k → is_waiting w d = true → listens w s d.
Proof.
  intros Hi Hf. induction Hf as [s sx d Es Hin|s sx d x' out d' Es Hin Ed Ep Hf IH]; intros Ex Hp Hw.
  - destruct (si_streams _ _ Hi _ _ Es) as (_ & Hl & _). destruct (Hl d Hin) as (x1 & E1 & Hs). assert (x1 = x) as -> by congruence.
    eapply listens_client; [done|done|]. rewrite Ex. destruct x as [s' wt p]. cbn in *. subst. f_equal. f_equal.
    unfold is_waiting in Hw. rewrite Ex in Hw. cbn in Hw. destruct (si_dests _ _ Hi _ _ Ex) as (_ & H01 & _). cbn in H01.
    destruct H01 as [-> | ->]; done.
  - eapply listens_convert; [done..|]. by apply IH.
Qed.

(** The encoder or input [s] has been told to run. *)
Definition runs (w : streams) (s : nat) : Prop := truth (default 0 (st_running w !! s)) = true.

Lemma waiting_runs w s sx d x k :
  streams_inv w None → st_streams w !! s = Some sx → s_set_running sx = RunSource → feeds w s d →
  st_dests w !! d = Some x → d_process x = Client k → is_waiting w d = true → runs w s.
Proof.
  intros Hi Es Hr Hf Ex Hp Hw. unfold runs. pose proof (si_told _ _ Hi _ _ Es ltac:(done)) as Ht. unfold told in Ht. rewrite Hr in Ht.
  rewrite Ht. apply (waiting_listens w s sx Hi Es). exists d. by eapply feeds_listens.
Qed.

(** The tracks a session has set up are connected to streams. *)
Lemma set_up_client sv s x ls src t e tr d :
  server_inv sv → sv_sessions sv !! s = Some x → sv_lives sv !! ss_private x = Some ls → sv_sources sv !! ls_source ls = Some src →
  ss_ep x !! t = Some (Some e) → lv_track src !! t = Some tr → tr_stream tr = Some d →
  ∃ y k, st_dests (sv_streams sv) !! d = Some y ∧ d_process y = Client k.
Proof.
  intros Hi Ex El Ek Et Etr Ed. destruct (iv_session _ Hi _ _ Ex) as (_ & _ & _ & Hep). destruct (Hep t e Et) as (y & Ey & Hy).
  destruct (iv_ep _ Hi _ _ Ey) as [(x2 & ls2 & src2 & t2 & E1 & E2 & Hu & E3 & E4 & Hm) _]. rewrite Hy in E1.
  assert (x2 = x) as -> by congruence. assert (ls2 = ls) as -> by congruence. assert (src2 = src) as -> by congruence.
  rewrite <- (Hu t Et) in Hm. destruct Hm as (tr2 & Et2 & Hmed). assert (tr2 = tr) as -> by congruence.
  destruct (iv_source _ Hi _ _ Ek) as (_ & _ & _ & Htr & _). destruct (Htr t tr Etr Hmed) as (d2 & y2 & Ed2 & Ey2 & Hp).
  assert (d2 = d) as -> by congruence. eauto.
Qed.

(** C8: PLAY on a session the client names starts it: the session plays, and every encoder
    or input whose frames come -- directly or through converters -- to a track that is set
    up in the session has been told to run. *)
Theorem play_wakes locs st c req v method uri rs y :
  (∀ n, length (v_block v n) = 512%nat) → p_sl req = Some (PMSG_REQ method uri) →
  good locs st → is_Some (sv_conns (rt_server st) !! c) → named_session st req = Ok (Some (rs, y)) →
  returns (handle_PLAY st c req v) (λ st', ∃ x ls src,
    sv_sessions (rt_server st') !! rs_sess y = Some x ∧ sv_lives (rt_server st') !! ss_private x = Some ls ∧
    ls_playing ls = true ∧ sv_sources (rt_server st') !! ls_source ls = Some src ∧
    ∀ t e tr d s sx, ss_ep x !! t = Some (Some e) → lv_track src !! t = Some tr → tr_stream tr = Some d →
      st_streams (sv_streams (rt_server st')) !! s = Some sx → s_set_running sx = RunSource →
      feeds (sv_streams (rt_server st')) s d → runs (sv_streams (rt_server st')) s).
Proof.
  intros Hb Hsl Hg Hc Hn. unfold handle_PLAY. destruct (named_session_ok locs st req Hg) as (r & E & Hr). rewrite Hn in E.
  injection E as <-. rewrite Hn, bind_Ok. destruct (Hr rs y eq_refl) as (Ey & [x Ex] & Hid). cbv zeta. destruct Hg as [Hs Hk].
  pose proof (se_inv _ _ Hs) as Hi. destruct (iv_session _ Hi _ _ Ex) as (_ & (ls & El & Els) & _).
  destruct (iv_live _ Hi _ _ El) as (_ & src & Ek & _).
  destruct (live_play_ok _ _ _ _ _ Hi (se_idle _ _ Hs) Ex El Ek) as (w & Ep & Hi' & Hid' & Hf & Hw).
  destruct (live_play_served locs c (rt_server st) (rs_sess y) Hs) as (sv & Ep' & Hs' & Hv'); [by rewrite Ex|].
  rewrite Ep in Ep'. injection Ep' as <-. rewrite Ep, bind_Ok. set (sv := with_streams _ w) in *.
  change (0 <=? -10000) with false. rewrite andb_false_r, bind_Ok.
  eapply returns_mono.
  { apply (finish_reply locs c (log_request (with_server st sv) 200 0) _ 200); [done| | |lia|done].
    - destruct Hc as [cx E]. cbn [rt_server with_server log_request]. destruct (sr_self _ _ _ Hv' _ E) as (? & ? & -> & _). done.
    - apply add_header_reply; [|no_nul..]. apply create_reply_reply; [done|no_nul]. }
  intros st' [_ Hsent]. cbn [rt_server with_server log_request] in Hsent.
  destruct (sent_same _ _ _ Hsent) as (-> & _ & -> & _ & -> & _ & ->).
  exists x, (MkLive (ls_sess ls) (ls_source ls) true). eexists. unfold sv, played. sv_cbn.
  split; [done|]. split; [apply lookup_insert_eq|]. split; [done|]. split; [apply lookup_insert_eq|]. cbn [lv_track].
  intros t e tr d s sx Et Etr Ed Es Hrun Hfeeds. pose proof (Hw t e tr d Et Etr Ed) as Hwait.
  destruct (set_up_client _ _ _ _ _ _ _ _ _ Hi Ex El Ek Et Etr Ed) as (z & k & Ez & Hz).
  destruct (proj2 Hf d z Ez) as [wt Ez']. by eapply (waiting_runs w s sx d _ k (iv_streams _ Hi')).
Qed.

(** ** TEARDOWN *)

Lemma others_sent sv sv1 sv2 s l c : others sv sv1 s l → sent c sv1 sv2 → others sv sv2 s l.
Proof.
  intros [O1 O2 O3 O4] Hsent. destruct (sent_same _ _ _ Hsent) as (E1 & E2 & E3 & _ & E5 & _).
  split; rewrite ?E1, ?E2, ?E3; try done. intros k src. rewrite E5. apply O4.
Qed.

(** C9: TEARDOWN of a session -- on the address of the presentation, not of a track -- ends
    it and nothing else: the session, its endpoints and its identifier are gone, so that
    no later request or packet finds them, and every other session, live session and
    endpoint is as it was. *)
Theorem teardown_ends locs st c req v method uri loc track rs y x :
  (∀ n, length (v_block v n) = 512%nat) → p_sl req = Some (PMSG_REQ method uri) →
  good locs st → is_Some (sv_conns (rt_server st) !! c) →
  find_rtsp_location locs (str_of req uri) false true = Ok (Some loc, track) → track < 0 →
  named_session st req = Ok (Some (rs, y)) → sv_sessions (rt_server st) !! rs_sess y = Some x →
  returns (handle_TEARDOWN locs st c req v) (λ st',
    sv_sessions (rt_server st') !! rs_sess y = None ∧
    (∀ e z, sv_eps (rt_server st') !! e = Some z → e_session z ≠ rs_sess y) ∧
    (∀ r z, sv_rtsps (rt_server st') !! r = Some z → rs_sess z ≠ rs_sess y) ∧
    others (rt_server st) (rt_server st') (rs_sess y) (ss_private x)).
Proof.
  intros Hb Hsl Hg Hc Hf Ht Hn Ex. unfold handle_TEARDOWN, req_uri. rewrite Hsl, bind_Ok, Hf, bind_Ok.
  rewrite (proj2 (Z.leb_gt _ _)) by lia. rewrite Hn, bind_Ok. destruct (named_session_ok locs st req Hg) as (r & E & Hr).
  rewrite Hn in E. injection E as <-. destruct (Hr rs y eq_refl) as (Ey & _ & Hid). cbv zeta.
  rewrite (proj2 (Z.ltb_lt _ _)) by lia. rewrite bind_Ok. pose proof Hg as [Hs Hk].
  destruct (live_teardown_ok (rt_server st) (rs_sess y) x None (se_inv _ _ Hs) (se_idle _ _ Hs) Ex)
    as (sv & E & Hi & Hidle & Hcl & _ & Hgone & Hoth). rewrite E, bind_Ok. specialize (Hgone eq_refl).
  destruct (closing_served locs c _ _ Hs Hcl Hi Hidle) as [Hs' Hv'].
  eapply returns_mono.
  { apply (finish_reply locs c (log_request (with_server st sv) 200 0) _ 200); [done| | |lia|done].
    - destruct Hc as [cx E']. cbn [rt_server with_server log_request]. destruct (sr_self _ _ _ Hv' _ E') as (? & ? & -> & _). done.
    - apply add_header_reply; [|no_nul..]. apply create_reply_reply; [done|no_nul]. }
  intros st' [[[Hg' _] _] Hsent]. cbn [rt_server with_server log_request] in Hsent.
  assert (sv_sessions (rt_server st') !! rs_sess y = None) as Hnone by (by destruct (sent_same _ _ _ Hsent) as (-> & _)).
  pose proof (se_inv _ _ Hg') as Hi'. split; [done|]. split; [|split; [|by eapply others_sent]].
  - intros e z Ez Heq. destruct (iv_ep _ Hi' _ _ Ez) as [(x1 & _ & _ & _ & E1 & _) _]. rewrite Heq in E1. congruence.
  - intros r z Ez Heq. destruct (iv_rtsp _ Hi' _ _ Ez) as (x1 & E1 & _). rewrite Heq in E1. congruence.
Qed.

(** ** Witnesses *)

Definition w_req (lines : list (list Z)) : pmsg :=
  let d := concat (map (λ s, s ++ crlf) lines) ++ crlf in
  match parse_pmsg (MkPmsg d (length d) [] None None) with Ok (m, _) => m | _ => MkPmsg [] 0 [] None None end.

Definition w_setup : pmsg :=
  w_req [lit "SETUP rtsp://cam/priv/track0 RTSP/1.0"; lit "CSeq: 1"; lit "Transport: RTP/AVP/TCP;interleaved=0-1"].
Definition w_describe : pmsg := w_req [lit "DESCRIBE rtsp://cam/priv RTSP/1.0"; lit "CSeq: 1"].
Definition w_play : pmsg := w_req [lit "PLAY rtsp://cam/live RTSP/1.0"; lit "CSeq: 2"; lit "Session: " ++ demo_id].
Definition w_teardown : pmsg := w_req [lit "TEARDOWN rtsp://cam/live RTSP/1.0"; lit "CSeq: 3"; lit "Session: " ++ demo_id].

Definition w_state (n : nat) : rtsp_state := wb_rtsp (tc_web (demo_state (take n demo_events))).

Lemma w_good n : good demo_locs (w_state n).
Proof. pose proof (demo_inv n) as H. split; [apply (ti_running _ _ H)|apply (ti_secret _ _ H)]. Qed.

Definition w_uri (req : pmsg) : nat := match p_sl req with Some (PMSG_REQ _ u) => u | _ => 0%nat end.
Definition w_method (req : pmsg) : nat := match p_sl req with Some (PMSG_REQ m _) => m | _ => 0%nat end.
Definition w_loc : rtsp_location := default (MkLocation [] [] [] [] 0) (head demo_locs).
Definition w_rtsp : nat * rtsp_session :=
  match named_session (w_state 3) w_play with Ok (Some p) => p | _ => (0%nat, MkRtspSession [] 0) end.
Definition w_sess : session :=
  default (MkSession [] 0 None [] 0) (sv_sessions (rt_server (w_state 4)) !! rs_sess w_rtsp.2).


Lemma describe_refused_leaks_witness :
  returns (handle_DESCRIBE demo_locs (w_state 2) 1 w_describe demo_env) (λ st', rt_log st' = rt_log (w_state 2) ++ [(401, 0)] ∧
    ∃ s x, sv_sessions (rt_server (w_state 2)) !! s = None ∧ sv_sessions (rt_server st') !! s = Some x ∧ ss_control x = None ∧
      ∀ r y, sv_rtsps (rt_server st') !! r = Some y → rs_sess y ≠ s).
Proof.
  eapply (describe_refused_leaks demo_locs (w_state 2) 1 w_describe demo_env (w_method w_describe) (w_uri w_describe) w_loc (-1) _ (-1)).
  - done.
  - by vm_compute.
  - vm_compute. lia.
  - apply w_good.
  - vm_compute. by eexists.
  - by vm_compute.
  - by vm_compute.
  - by vm_compute.
  - by vm_compute.
  - by vm_compute.
  - lia.
Defined.

Lemma track_found_witness :
  find_rtsp_location ([MkLocation (lit "/cam" ++ [0]) [] [] [] 1] ++ MkLocation (lit "/live" ++ [0; 7]) [] [] [] 3 :: [])
    (track_uri (lit "10.0.0.1:554") (lit "/live") 1) true true = Ok (Some (MkLocation (lit "/live" ++ [0; 7]) [] [] [] 3), 1).
Proof.
  apply (track_found [MkLocation (lit "/cam" ++ [0]) [] [] [] 1] (MkLocation (lit "/live" ++ [0; 7]) [] [] [] 3) []
    (lit "10.0.0.1:554") (lit "/live") [7] 1).
  - by repeat constructor.
  - done.
  - done.
  - by repeat constructor.
  - cbn. lia.
  - done.
  - lia.
  - by repeat constructor.
Defined.

Lemma longer_path_found_witness :
  node_find_location [MkLocation (lit "/live" ++ replicate 251 0) [] [] [] 3] (lit "/live" ++ lit "ness") 9 =
  Ok (Some (MkLocation (lit "/live" ++ replicate 251 0) [] [] [] 3)).
Proof.
  apply (longer_path_found (MkLocation (lit "/live" ++ replicate 251 0) [] [] [] 3) [] (lit "/live") (lit "ness"));
    [by repeat constructor|cbn; lia|done].
Defined.

Lemma play_wakes_witness :
  returns (handle_PLAY (w_state 3) 1 w_play demo_env) (λ st', ∃ x ls src,
    sv_sessions (rt_server st') !! rs_sess w_rtsp.2 = Some x ∧ sv_lives (rt_server st') !! ss_private x = Some ls ∧
    ls_playing ls = true ∧ sv_sources (rt_server st') !! ls_source ls = Some src ∧
    ∀ t e tr d s sx, ss_ep x !! t = Some (Some e) → lv_track src !! t = Some tr → tr_stream tr = Some d →
      st_streams (sv_streams (rt_server st')) !! s = Some sx → s_set_running sx = RunSource →
      feeds (sv_streams (rt_server st')) s d → runs (sv_streams (rt_server st')) s).
Proof.
  apply (play_wakes demo_locs (w_state 3) 1 w_play demo_env (w_method w_play) (w_uri w_play) w_rtsp.1 w_rtsp.2).
  - done.
  - by vm_compute.
  - apply w_good.
  - vm_compute. by eexists.
  - by vm_compute.
Defined.

Lemma teardown_ends_witness :
  returns (handle_TEARDOWN demo_locs (w_state 4) 1 w_teardown demo_env) (λ st',
    sv_sessions (rt_server st') !! rs_sess w_rtsp.2 = None ∧
    (∀ e z, sv_eps (rt_server st') !! e = Some z → e_session z ≠ rs_sess w_rtsp.2) ∧
    (∀ r z, sv_rtsps (rt_server st') !! r = Some z → rs_sess z ≠ rs_sess w_rtsp.2) ∧
    others (rt_server (w_state 4)) (rt_server st') (rs_sess w_rtsp.2) (ss_private w_sess)).
Proof.
  eapply (teardown_ends demo_locs (w_state 4) 1 w_teardown demo_env (w_method w_teardown) (w_uri w_teardown) _ (-1) w_rtsp.1).
  - done.
  - by vm_compute.
  - apply w_good.
  - vm_compute. by eexists.
  - by vm_compute.
  - lia.
  - by vm_compute.
  - by vm_compute.
Defined.
