(* ===== verification/LiveSpec.v ===== *)
(** * What the clients receive

    A frame that reaches a live track goes out to every client that plays the track, as the
    RTP packets of its medium, on the transport the client chose; what others get is not
    touched.  Also what becomes of a picture asked for over HTTP, and of the first frame
    of a track somebody plays already. *)

From Stdlib Require Import String.
From S2P Require Import Prelude CString Pmsg HttpAuth SendBuf Base64 Frame Stream Rtcp Rtp RtpMedia Server ServerInv ServerOps Reply Rtsp RtspSafe Live LiveSafe Http Tcp TcpSafe TcpStep Config System RtspSpec.

Local Open Scope Z_scope.
Local Open Scope c_scope.

(** ** Frames *)

(** The RTP packets of a frame cut into [ps], as a receiver decodes them. *)
Definition frame_packets (ep : rtp_endpoint) (ps : list packet) : list rtp_packet :=
  expected ep (ep_seqnum ep) (with_clocks ps (λ _ _, (0, 0))).

Lemma expected_clocks ep seq ps cs cs' : expected ep seq (with_clocks ps cs) = expected ep seq (with_clocks ps cs').
Proof.
  revert seq cs cs'. induction ps as [|[[v ts] m] ps IH]; intros seq cs cs'; [done|]. cbn [with_clocks expected]. f_equal. apply IH.
Qed.

(** What of the traffic [log] the client of [ep] gets on its RTP transport: exactly the
    packets over UDP, and on a connection those that found room in its buffer. *)
Definition carried (ep : rtp_endpoint) (ps : list packet) (log : list (dest * list Z)) : Prop :=
  match ep_trans ep with
  | RTP_TRANS_NONE => True
  | RTP_TRANS_UDP _ fd1 fd2 =>
      fd1 ≠ fd2 → map rtp_decode (map snd (filter (λ p, p.1 = Socket fd1) log)) = map Some (frame_packets ep ps)
  | RTP_TRANS_INTER c a _ =>
      map rtp_decode (map snd (filter (λ p, p.1 = Channel c a) log)) `sublist_of` map Some (frame_packets ep ps)
  end.

Lemma filtered_part {A} (P : A → Prop) `{∀ x, Decision (P x)} (f : A → list Z) (l l' out : list _) :
  map f (filter P (l ++ l')) = map f (filter P l) ++ out → map f (filter P l') = out.
Proof. rewrite filter_app, map_app. intros E. by apply app_inv_head in E. Qed.

Lemma channels_differ sv e y c a b :
  server_inv sv → sv_eps sv !! e = Some y → ep_trans (e_ep y) = RTP_TRANS_INTER c a b → a ≠ b.
Proof.
  intros Hi E Ht ->. destruct (iv_ep _ Hi _ _ E) as [_ H]. rewrite Ht in H.
  destruct H as [(cx & rc & tbl & E1 & E2 & E3 & E4) (cx' & rc' & tbl' & E1' & E2' & E3' & E4')]. simplify_eq.
Qed.

Lemma frame_sent_carried sv0 sv sv' ps e y y' :
  server_inv sv0 → sv_eps sv0 !! e = Some y → wf_ep (e_ep y) → frame_sent sv sv' ps y y' →
  ∃ before during after, wi_log (sv_wire sv') = wi_log (sv_wire sv) ++ before ++ during ++ after ∧ carried (e_ep y) ps during.
Proof.
  intros Hi Ey Hw (_ & w & cs & w' & [before E1] & Es & [during E2] & [after E3]).
  exists before, during, after. split; [rewrite E3, E2, E1; app_eq|]. unfold carried, frame_packets.
  destruct (ep_trans (e_ep y)) as [|port fd1 fd2|c a b] eqn:Et; [done| |].
  - intros Hne. destruct (send_calls_udp w (e_ep y) _ port fd1 fd2 _ w' Hw Et Hne Es) as (out & Eo & Ed).
    unfold to_socket in Eo. cbn [packets wire_transport] in Eo. rewrite E2 in Eo. apply filtered_part in Eo. rewrite Eo, Ed.
    by rewrite (expected_clocks _ _ ps cs (λ _ _, (0, 0))).
  - pose proof (channels_differ _ _ _ _ _ _ Hi Ey Et) as Hne.
    destruct (send_calls_inter w (e_ep y) _ c a b _ _ w' Hw Et Hne Es) as (out & Eo & Ed).
    unfold to_channel in Eo. cbn [packets wire_transport] in Eo. rewrite E2 in Eo. apply filtered_part in Eo. rewrite Eo.
    by rewrite (expected_clocks _ _ ps (λ _ _, (0, 0)) cs).
Qed.


(** ** Pictures over HTTP *)

(** The picture of a location as it goes out, with a JFIF header if it has none. *)
Definition picture_bytes (loc : http_location) : list Z :=
  match hl_frame loc with
  | None => []
  | Some (d, len) =>
      if len <? hl_length_with_jfif loc then add_jfif ++ take (Z.to_nat (len - 2)) (drop 2 d) else take (Z.to_nat len) d
  end.

Lemma picture_length loc d len :
  wf_picture loc → hl_frame loc = Some (d, len) → Z.of_nat (length (picture_bytes loc)) = hl_length_with_jfif loc.
Proof.
  unfold wf_picture, picture_bytes. intros H E. rewrite E in *. destruct H as (Hl & _ & [Hj|Hj]); rewrite Hj.
  - rewrite Z.ltb_irrefl, length_take. lia.
  - rewrite (proj2 (Z.ltb_lt _ _)) by lia. rewrite length_app, length_take, length_drop. cbn [length add_jfif]. lia.
Qed.

(** The send buffer of [c] has [d] behind what it had. *)
Definition queued (sv : server) (c : nat) (d : list Z) (sv' : server) : Prop :=
  ∃ cx r, sv_conns sv !! c = Some cx ∧ sv' = set_conn_at sv c (with_ring cx r) ∧ wf_ring r ∧
    queue r = queue (cn_ring cx) ++ d ∧ length (send_buf r) = length (send_buf (cn_ring cx)).

Definition room (sv : server) (c : nat) (n : nat) : Prop :=
  ∃ cx, sv_conns sv !! c = Some cx ∧ wf_ring (cn_ring cx) ∧ (n <= avail_send_buf (cn_ring cx))%nat.

Lemma queued_nil sv c cx : sv_conns sv !! c = Some cx → wf_ring (cn_ring cx) → queued sv c [] sv.
Proof.
  intros E Hw. destruct (sent_refl c sv) as (cx' & r & E' & Esv); [by rewrite E|]. assert (cx' = cx) as -> by congruence.
  exists cx, r. assert (r = cn_ring cx) as ->.
  { apply (f_equal (λ s, sv_conns s !! c)) in Esv. revert Esv. sv_cbn. rewrite E, lookup_insert_eq. intros [= ->]. done. }
  split_and!; try done. by rewrite app_nil_r.
Qed.

(** Sending what fits. *)
Lemma queued_on sv c d0 d sv1 n :
  room sv c n → queued sv c d0 sv1 → (length d0 + length d <= n)%nat → returns (send_on sv1 c d) (queued sv c (d0 ++ d)).
Proof.
  intros (cx & E & Hw & Hn) (cx' & r & E' & -> & Hr & Hq & Hl) Hlen. assert (cx' = cx) as -> by congruence.
  unfold send_on. rewrite (deref_Ok _ c (with_ring cx r)) by (sv_cbn; apply lookup_insert_eq). rewrite bind_Ok. apply returns_Ok.
  pose proof (send_data_queue r d Hr) as H. cbn [cn_ring with_ring]. destruct (send_data r d) as [ok r'].
  destruct H as (-> & Hr' & Hq' & Hl'). exists cx, r'. split; [done|]. split.
  { cbn [snd]. unfold set_conn_at, with_conns. sv_cbn. by rewrite insert_insert_eq. }
  split; [done|]. split; [|congruence]. rewrite Hq', Hq, (proj2 (Nat.leb_le _ _)); [app_eq|].
  pose proof (avail_queue _ Hw) as H1. pose proof (avail_queue _ Hr) as H2. rewrite Hq, length_app in H2. lia.
Qed.

Lemma picture_queued sv c loc d len d0 sv1 n :
  room sv c n → queued sv c d0 sv1 → wf_picture loc → hl_frame loc = Some (d, len) →
  (length d0 + length (picture_bytes loc) <= n)%nat →
  returns (send_frame_with_jfif sv1 c loc) (queued sv c (d0 ++ picture_bytes loc)).
Proof.
  intros Hroom Hq Hp Ef Hn. unfold send_frame_with_jfif, picture_bytes, wf_picture in *. rewrite Ef in *. destruct Hp as (Hl & _).
  unfold send_bytes, bytes_at. destruct (len <? _).
  - rewrite length_app in Hn. eapply returns_bind; [apply (queued_on sv c d0 _ sv1 n); [done|done|lia]|]. intros sv2 H2.
    rewrite (proj2 (Z.ltb_ge _ _)) by lia. cbn [orb]. rewrite (proj2 (Z.ltb_ge _ _)) by (rewrite length_drop; lia). rewrite bind_Ok, app_assoc.
    eapply queued_on; [done|done|]. rewrite length_app. lia.
  - rewrite (proj2 (Z.ltb_ge _ _)) by lia. cbn [orb]. rewrite (proj2 (Z.ltb_ge _ _)) by lia. rewrite bind_Ok. by eapply queued_on.
Qed.


(** ** The first frame *)

(** The client sets its track up and plays before the microphone has given a frame. *)
Definition early_events : list event := [demo_accept; demo_setup; demo_play; demo_frame [1; 2; 3; 4]].

(** The first frame of a track puts its stream to rest even when a session plays the
    track: the client gets that frame and no other, though its session goes on playing. *)
Theorem first_frame_starves :
  ∃ locs st, serve demo_rate demo_udp demo_writes demo_file early_events = Ok (locs, st) ∧
    plays (tc_server st) 0 2 ∧ is_waiting (sv_streams (tc_server st)) 1 = false ∧
    ¬ runs (sv_streams (tc_server st)) 0.
Proof.
  destruct (serve demo_rate demo_udp demo_writes demo_file early_events) as [[locs st]| | |] eqn:E; [|by vm_compute in E..].
  exists locs, st. split; [done|]. revert E. vm_compute. intros [= <- <-]. split; [by eexists _, _, _|]. done.
Qed.

(** ** Where the limits on input come from *)

(** The client has made itself known with a request. *)
Definition after_options (d : list Z) : list event :=
  [demo_accept; demo_frame [1; 2; 3; 4]; demo_request [lit "OPTIONS rtsp://cam/ RTSP/1.0"; lit "CSeq: 1"];
   EvRead 1 false [(ReadData d, demo_env); (ReadAgain, demo_env)]].

Definition options_message : list Z := lit "OPTIONS * RTSP/1.0" ++ crlf ++ crlf.
Definition status_message : list Z := lit "RTSP/1.0 200 OK" ++ crlf ++ crlf.
Definition early_packet : list Z := [36; 0; 0; 4; 1; 2; 3; 4].
Definition long_describe : list Z :=
  lit "DESCRIBE rtsp://cam/" ++ replicate 300 97 ++ lit " RTSP/1.0" ++ crlf ++ lit "CSeq: 2" ++ crlf ++ crlf.


(** ** Witnesses *)

Definition w_sv : server := tc_server (demo_state (take 4 demo_events)).


Definition w_loc_http : http_location := MkHttpLoc (lit "/img") None (Some ([0xff; 0xd8; 0xff; 0xdb; 1; 2], 6)) 24 [] true.

