(* ===== verification/Spook.v ===== *)
(** * The program ([RTSPServer.c], [spook.c])

    [main]: the options of the command line, the modules that register their directives,
    and the configuration that is made by running those directives -- encoders first, then
    the live sources that listen to them.  The state of the program at that time is the
    server of [Config] with the encoders, the frame pool and the ports that are listened
    on. *)

From Stdlib Require Import String.
From S2P Require Import Prelude CString Pmsg HttpAuth SendBuf Base64 Frame Stream Rtcp Rtp RtpMedia ConfParse Encoder Server ServerInv ServerOps Reply Rtsp RtspSafe Live LiveSafe Http Tcp TcpSafe TcpStep Config System.

Local Open Scope Z_scope.
Local Open Scope c_scope.

(** ** State *)

(** [s->private] of the stream of an encoder. *)
Inductive private := PrivAlaw (en : nat) | PrivJpeg (en : nat).

Record boot := MkBoot {
  b_locs : list rtsp_location;
  b_tcp : tcp_state;
  b_jpegs : gmap nat jpeg_encoder;
  b_alaws : gmap nat alaw_encoder;
  b_private : gmap nat private;
  b_heap : option frame_heap;
  b_ports : list Z;
  b_range : port_range }.

(** What the system and [malloc] answer: whether [/dev/urandom] can be read, the results of
    [socket], [bind] and [listen], and the contents of new blocks. *)
Record boot_env := MkBootEnv {
  be_urandom : bool;
  be_socket : Z; be_bind : Z; be_listen : Z;
  be_frame : nat → frame;
  be_path : nat → list Z;
  be_jpeg : nat → rtp_jpeg }.

Definition b_server (b : boot) : server := tc_server (b_tcp b).

Definition put_boot (b : boot) (sv : server) : boot :=
  MkBoot (b_locs b) (put_sv (b_tcp b) sv) (b_jpegs b) (b_alaws b) (b_private b) (b_heap b) (b_ports b) (b_range b).
Definition put_jpeg (b : boot) (en : nat) (e : jpeg_encoder) : boot :=
  MkBoot (b_locs b) (b_tcp b) (<[en := e]> (b_jpegs b)) (b_alaws b) (b_private b) (b_heap b) (b_ports b) (b_range b).
Definition put_alaw (b : boot) (en : nat) (e : alaw_encoder) : boot :=
  MkBoot (b_locs b) (b_tcp b) (b_jpegs b) (<[en := e]> (b_alaws b)) (b_private b) (b_heap b) (b_ports b) (b_range b).
Definition put_private (b : boot) (s : nat) (p : private) : boot :=
  MkBoot (b_locs b) (b_tcp b) (b_jpegs b) (b_alaws b) (<[s := p]> (b_private b)) (b_heap b) (b_ports b) (b_range b).

(** [get_framerate] of an encoder's stream. *)
Definition rate_of (b : boot) (s : nat) : Z * Z :=
  match b_private b !! s with
  | Some (PrivJpeg _) => jpeg_get_framerate
  | Some (PrivAlaw en) => match b_alaws b !! en with Some e => alaw_get_framerate e | None => (0, 0) end
  | None => (0, 0)
  end.

(** ** Directives *)

Definition arg_num (t : list token) (i : nat) : outcome Z := x ← rd t i; v_num x.
Definition arg_str (t : list token) (i : nat) : outcome (list Z) := x ← rd t i; v_str x.

(** [void *d]. *)
Definition data (d : option nat) : outcome nat := match d with Some p => Ok p | None => Undef end.

Section directives.
Context (v : boot_env).

Abbreviation handler := (list token → option nat → boot → outcome (Z * boot)).

(** The global directives; [config_rtprange] ends the program when the range is too small. *)
Definition port_directive : handler := λ t d b,
  n ← arg_num t 1;
  if config_port n (be_socket v) (be_bind v) (be_listen v)
  then Ok (0, MkBoot (b_locs b) (b_tcp b) (b_jpegs b) (b_alaws b) (b_private b) (b_heap b) (n :: b_ports b) (b_range b))
  else Ok (-1, b).

Definition rtprange_directive : handler := λ t d b,
  lo ← arg_num t 1; hi ← arg_num t 2;
  match config_rtprange lo hi with
  | None => Fail
  | Some r => Ok (0, MkBoot (b_locs b) (b_tcp b) (b_jpegs b) (b_alaws b) (b_private b) (b_heap b) (b_ports b) r)
  end.

Definition config_frameheap : handler := λ t d b,
  count ← arg_num t 1;
  size ← (if (length t =? 3)%nat then arg_num t 2 else Ok (352 * 288 * 3));
  h ← init_frame_heap size (Z.to_nat count) (be_frame v);
  Ok (0, MkBoot (b_locs b) (b_tcp b) (b_jpegs b) (b_alaws b) (b_private b) (Some h) (b_ports b) (b_range b)).

Definition global_statements : list (statement boot) :=
  [MkStatement (lit "port") port_directive 1 1 [TOKEN_NUM];
   MkStatement (lit "rtprange") rtprange_directive 2 2 [TOKEN_NUM; TOKEN_NUM];
   MkStatement (lit "frameheap") config_frameheap 1 2 [TOKEN_NUM; TOKEN_NUM]].

(** [encoder jpeg]. *)
Definition jpeg_block_start (b : boot) : outcome (option nat * boot) :=
  let '(en, sv) := malloc (b_server b) in
  Ok (Some en, put_jpeg (put_boot b sv) en jpeg_start_block).

Definition jpeg_block_end (d : option nat) (b : boot) : outcome (Z * boot) :=
  en ← data d; e ← deref (b_jpegs b) en;
  '(ret, e) ← jpeg_end_block e; Ok (ret, put_jpeg b en e).

Definition jpeg_output : handler := λ t d b,
  en ← data d; e ← deref (b_jpegs b) en; name ← arg_str t 1;
  '(e, w) ← jpeg_set_output (sv_streams (b_server b)) e name;
  let b := put_jpeg (put_boot b (with_streams (b_server b) w)) en e in
  Ok (0, match je_output e with Some s => put_private b s (PrivJpeg en) | None => b end).

Definition jpeg_number (set : jpeg_encoder → Z → jpeg_encoder) : handler := λ t d b,
  en ← data d; e ← deref (b_jpegs b) en; n ← arg_num t 1; Ok (0, put_jpeg b en (set e n)).

Definition set_pipe_num : handler := λ t d b, Ok (0, b).

Definition jpeg_statements : list (statement boot) :=
  [MkStatement (lit "output") jpeg_output 1 1 [TOKEN_STR];
   MkStatement (lit "bitrate") (jpeg_number set_bitrate_num) 1 1 [TOKEN_NUM];
   MkStatement (lit "pipe") set_pipe_num 1 1 [TOKEN_NUM];
   MkStatement (lit "vin_planner_width") (jpeg_number set_vin_planner_width) 1 1 [TOKEN_NUM];
   MkStatement (lit "vin_planner_height") (jpeg_number set_vin_planner_height) 1 1 [TOKEN_NUM];
   MkStatement (lit "vin_packet_width") (jpeg_number set_vin_packet_width) 1 1 [TOKEN_NUM];
   MkStatement (lit "vin_packet_height") (jpeg_number set_vin_packet_height) 1 1 [TOKEN_NUM];
   MkStatement (lit "jpeg_width") (jpeg_number set_jpeg_width) 1 1 [TOKEN_NUM];
   MkStatement (lit "jpeg_height") (jpeg_number set_jpeg_height) 1 1 [TOKEN_NUM];
   MkStatement (lit "jpeg_packet") (jpeg_number set_jpeg_packet) 1 1 [TOKEN_NUM];
   MkStatement (lit "overlapping") (jpeg_number set_overlapping) 1 1 [TOKEN_NUM]].

(** [encoder alaw]. *)
Definition alaw_block_start (b : boot) : outcome (option nat * boot) :=
  let '(en, sv) := malloc (b_server b) in
  Ok (Some en, put_alaw (put_boot b sv) en alaw_start_block).

Definition alaw_block_end (d : option nat) (b : boot) : outcome (Z * boot) :=
  en ← data d; e ← deref (b_alaws b) en;
  '(ret, e) ← alaw_end_block e; Ok (ret, put_alaw b en e).

Definition alaw_output : handler := λ t d b,
  en ← data d; e ← deref (b_alaws b) en; name ← arg_str t 1;
  '(e, w) ← alaw_set_output (sv_streams (b_server b)) e name;
  let b := put_alaw (put_boot b (with_streams (b_server b) w)) en e in
  Ok (0, match ae_output e with Some s => put_private b s (PrivAlaw en) | None => b end).

Definition alaw_statements : list (statement boot) := [MkStatement (lit "output") alaw_output 1 1 [TOKEN_STR]].

(** [rtsp-handler live]. *)
Definition live_block_start (b : boot) : outcome (option nat * boot) :=
  let '(k, sv) := live_start_block (b_server b) in Ok (Some k, put_boot b sv).

Definition live_block_end (d : option nat) (b : boot) : outcome (Z * boot) :=
  k ← data d; ok ← live_end_block (b_server b) k; Ok (if (ok : bool) then 0 else -1, b).

Definition set_track : handler := λ t d b,
  k ← data d; name ← arg_str t 1;
  '(ok, sv) ← live_set_track (b_server b) k name (rate_of b) (be_jpeg v (st_fresh (sv_streams (b_server b))));
  Ok (if (ok : bool) then 0 else -1, put_boot b sv).

Definition set_path : handler := λ t d b,
  k ← data d;
  let add path auth :=
    locs ← live_set_path (b_locs b) k path auth (be_path v (length (b_locs b)));
    Ok (0, MkBoot locs (b_tcp b) (b_jpegs b) (b_alaws b) (b_private b) (b_heap b) (b_ports b) (b_range b)) in
  if (length t =? 2)%nat then path ← arg_str t 1; add path None
  else if (length t =? 5)%nat then
    path ← arg_str t 1; realm ← arg_str t 2; user ← arg_str t 3; password ← arg_str t 4;
    add path (Some (realm, user, password))
  else Ok (-1, b).

Definition set_mtu : handler := λ t d b,
  k ← data d; n ← arg_num t 1; sv ← live_set_mtu (b_server b) k n; Ok (0, put_boot b sv).

Definition set_conn : handler := λ t d b,
  k ← data d; n ← arg_num t 1; sv ← live_set_conn (b_server b) k n; Ok (0, put_boot b sv).

Definition live_statements : list (statement boot) :=
  [MkStatement (lit "track") set_track 1 1 [TOKEN_STR];
   MkStatement (lit "path") set_path 1 4 [TOKEN_STR; TOKEN_STR; TOKEN_STR; TOKEN_STR];
   MkStatement (lit "mtu") set_mtu 1 1 [TOKEN_NUM];
   MkStatement (lit "conn") set_conn 1 1 [TOKEN_NUM]].

(** ** [spook_init] *)

(** [init_random]: the seed is not part of the state, [random()] is a parameter of the
    operations that use it. *)
Definition init_random : bool := be_urandom v.

Definition global_context : config_context boot := MkContext [] [] None None global_statements.

Definition jpeg_context : config_context boot :=
  MkContext (lit "encoder") (lit "jpeg") (Some jpeg_block_start) (Some jpeg_block_end) jpeg_statements.
Definition alaw_context : config_context boot :=
  MkContext (lit "encoder") (lit "alaw") (Some alaw_block_start) (Some alaw_block_end) alaw_statements.
Definition live_context : config_context boot :=
  MkContext (lit "rtsp-handler") (lit "live") (Some live_block_start) (Some live_block_end) live_statements.

Definition jpeg_init (ccs : list (config_context boot)) : outcome (list (config_context boot)) :=
  register_config_context ccs jpeg_context.
Definition alaw_init (ccs : list (config_context boot)) : outcome (list (config_context boot)) :=
  register_config_context ccs alaw_context.
Definition live_init (ccs : list (config_context boot)) : outcome (list (config_context boot)) :=
  register_config_context ccs live_context.

(** [None] is -1. *)
Definition spook_init : outcome (option (list (config_context boot))) :=
  if negb init_random then Ok None else
  ccs ← jpeg_init [global_context];
  ccs ← alaw_init ccs;
  ccs ← live_init ccs;
  Ok (Some ccs).

(** ** The configuration ([rtsp_config.h]) *)

Definition DEF_MAX_MJPEG_CAM : nat := 4.

Definition eRTSP_AUDIOMASK_NONE : Z := 0.
Definition eRTSP_AUDIOMASK_ALAW : Z := 1.
Definition eRTSP_AUDIOMASK_ULAW : Z := 2.
Definition eRTSP_AUDIOMASK_DVIADPCM : Z := 4.
Definition eRTSP_AUDIOMASK_AAC : Z := 8.
Definition eRTSP_AUDIOMASK_G726 : Z := 16.
Definition eRTSP_AUDIOMASK_MP3 : Z := 32.

(** Of the H.264 camera, whose configuration is compiled out, only the audio mask is read. *)
Record S_RTSP_CONFIG := MkConfig {
  m_uiFrameSize : Z;
  m_uiFrameCnt : Z;
  m_uiMJPGCamBitRate : Z;
  m_szMJPGCamPath : option (list Z);
  m_eMJPGCamAudio : Z;
  m_eH264CamAudio : Z;
  m_uiNumMJPEGCams : Z;
  m_uiRTPDataTransSize : Z;
  m_szAuthRealm : option (list Z);
  m_szAuthUserName : option (list Z);
  m_szAuthPassword : option (list Z);
  m_szAudioStreamPath : option (list Z);
  m_eAudioStreamAudio : Z;
  m_auiMJPGMaxConnNum : list Z;
  m_uiVinPlannerWidth : Z; m_uiVinPlannerHeight : Z;
  m_uiVinPacketWidth : Z; m_uiVinPacketHeight : Z;
  m_uiJpegWidth : Z; m_uiJpegHeight : Z;
  m_uiJpegPacketPipe : Z;
  m_uiOverlapping : Z }.

(** ** [spook_config] *)

(** A string in double quotes. *)
Definition quoted (s : list Z) : list Z := [dquote] ++ s ++ [dquote].

(** [strcpy] and [sprintf] into [tokens[i].v.str]; [strcpy] of [NULL] is undefined. *)
Definition copy_token (s : list Z) : outcome token := if (256 <=? length s)%nat then Undef else Ok (tok_str s).
Definition copy_option (s : option (list Z)) : outcome token := match s with Some s => copy_token s | None => Undef end.

Context (ccs : list (config_context boot)).

(** [run_context_statement], whose result nobody looks at. *)
Definition run_statement (ctx d : option nat) (t : list token) (b : boot) : outcome boot :=
  '(_, b) ← run_context_statement ccs ctx d t (length t) b; Ok b.

(** A directive with a number, the fields being [uint32_t] and the token an [int]. *)
Definition run_number (ctx d : option nat) (name : string) (n : Z) (b : boot) : outcome boot :=
  run_statement ctx d [tok_str (lit name); tok_num (i32 n)] b.

Definition compressed (i : nat) : list Z := quoted (lit "compressed" ++ dec (Z.of_nat i)).

(** The loop of [jpeg_config] over the cameras from [i]; [ret] is [i32Ret]. *)
Fixpoint jpeg_cameras (cfg : S_RTSP_CONFIG) (ctx : option nat) (n i : nat) (ret : Z) (b : boot) : outcome (Z * boot) :=
  match n with
  | O => Ok (ret, b)
  | S n =>
      '(d, b) ← run_context_start_block ccs ctx b;
      match d with
      | None => Ok (-1, b)
      | Some _ =>
          name ← copy_token (compressed i);
          b ← run_statement ctx d [tok_str (lit "output"); name] b;
          b ← run_number ctx d "bitrate" (m_uiMJPGCamBitRate cfg) b;
          b ← run_number ctx d "pipe" (Z.of_nat i) b;
          b ← run_number ctx d "vin_planner_width" (m_uiVinPlannerWidth cfg) b;
          b ← run_number ctx d "vin_planner_height" (m_uiVinPlannerHeight cfg) b;
          b ← run_number ctx d "vin_packet_width" (m_uiVinPacketWidth cfg) b;
          b ← run_number ctx d "vin_packet_height" (m_uiVinPacketHeight cfg) b;
          b ← run_number ctx d "jpeg_width" (m_uiJpegWidth cfg) b;
          b ← run_number ctx d "jpeg_height" (m_uiJpegHeight cfg) b;
          b ← run_number ctx d "jpeg_packet" (m_uiJpegPacketPipe cfg) b;
          b ← run_number ctx d "overlapping" (m_uiOverlapping cfg) b;
          '(ret, b) ← run_context_end_block ccs ctx d b;
          if ret <? 0 then Ok (ret, b) else jpeg_cameras cfg ctx n (S i) ret b
      end
  end.

Definition jpeg_config (cfg : S_RTSP_CONFIG) (b : boot) : outcome (Z * boot) :=
  match find_context ccs (lit "encoder") (lit "jpeg") with
  | None => Ok (-1, b)
  | ctx => jpeg_cameras cfg ctx (Z.to_nat (m_uiNumMJPEGCams cfg)) 0 0 b
  end.

(** [alaw_config], [ulaw_config] and the others are the same but for the name. *)
Definition audio_config (name : string) (b : boot) : outcome (Z * boot) :=
  match find_context ccs (lit "encoder") (lit name) with
  | None => Ok (-1, b)
  | ctx =>
      '(d, b) ← run_context_start_block ccs ctx b;
      match d with
      | None => Ok (-1, b)
      | Some _ =>
          b ← run_statement ctx d [tok_str (lit "output"); tok_str (quoted (lit name))] b;
          run_context_end_block ccs ctx d b
      end
  end.

Definition alaw_config (b : boot) : outcome (Z * boot) := audio_config "alaw" b.
Definition ulaw_config (b : boot) : outcome (Z * boot) := audio_config "ulaw" b.
Definition adpcm_config (b : boot) : outcome (Z * boot) := audio_config "adpcm" b.
Definition aac_config (b : boot) : outcome (Z * boot) := audio_config "aac" b.
Definition g726_config (b : boot) : outcome (Z * boot) := audio_config "g726" b.
Definition mp3_config (b : boot) : outcome (Z * boot) := audio_config "mp3" b.

(** The audio stream of a mask; without a known bit the token keeps its string. *)
Definition audio_name (mask : Z) (prev : list Z) : list Z :=
  if truth (mask .& eRTSP_AUDIOMASK_ALAW) then quoted (lit "alaw")
  else if truth (mask .& eRTSP_AUDIOMASK_ULAW) then quoted (lit "ulaw")
  else if truth (mask .& eRTSP_AUDIOMASK_DVIADPCM) then quoted (lit "adpcm")
  else if truth (mask .& eRTSP_AUDIOMASK_AAC) then quoted (lit "aac")
  else if truth (mask .& eRTSP_AUDIOMASK_G726) then quoted (lit "g726")
  else if truth (mask .& eRTSP_AUDIOMASK_MP3) then quoted (lit "mp3")
  else prev.

(** [Path], with the realm and its user if there is one. *)
Definition run_path (cfg : S_RTSP_CONFIG) (ctx d : option nat) (path : list Z) (b : boot) : outcome boot :=
  p ← copy_token path;
  match m_szAuthRealm cfg with
  | None => run_statement ctx d [tok_str (lit "Path"); p] b
  | Some realm =>
      r ← copy_token realm;
      u ← copy_option (m_szAuthUserName cfg);
      w ← copy_option (m_szAuthPassword cfg);
      run_statement ctx d [tok_str (lit "Path"); p; r; u; w] b
  end.

(** The path of camera [i]. *)
Definition camera_path (cfg : S_RTSP_CONFIG) (i : nat) : list Z :=
  match i, m_szMJPGCamPath cfg with
  | O, Some p => p
  | O, None => lit "/webcam"
  | _, Some p => p ++ lit "-" ++ dec (Z.of_nat i)
  | _, None => lit "/webcam-" ++ dec (Z.of_nat i)
  end.

(** The loop of [mjpg_live_config] over the cameras from [i]. *)
Fixpoint live_cameras (cfg : S_RTSP_CONFIG) (ctx : option nat) (n i : nat) (b : boot) : outcome (Z * boot) :=
  match n with
  | O => Ok (0, b)
  | S n =>
      '(d, b) ← run_context_start_block ccs ctx b;
      match d with
      | None => Ok (-1, b)
      | Some _ =>
          b ← run_path cfg ctx d (camera_path cfg i) b;
          name ← copy_token (compressed i);
          b ← run_statement ctx d [tok_str (lit "Track"); name] b;
          b ← (if m_eMJPGCamAudio cfg =? eRTSP_AUDIOMASK_NONE then Ok b else
               run_statement ctx d [tok_str (lit "Track"); tok_str (audio_name (m_eMJPGCamAudio cfg) (compressed i))] b);
          b ← run_number ctx d "mtu" (m_uiRTPDataTransSize cfg) b;
          n_conn ← rd (m_auiMJPGMaxConnNum cfg) i;
          b ← run_number ctx d "conn" n_conn b;
          '(_, b) ← run_context_end_block ccs ctx d b;
          live_cameras cfg ctx n (S i) b
      end
  end.

Definition mjpg_live_config (cfg : S_RTSP_CONFIG) (b : boot) : outcome (Z * boot) :=
  match find_context ccs (lit "rtsp-handler") (lit "live") with
  | None => Ok (-1, b)
  | ctx => live_cameras cfg ctx (Z.to_nat (m_uiNumMJPEGCams cfg)) 0 b
  end.

Definition audio_live_config (cfg : S_RTSP_CONFIG) (b : boot) : outcome (Z * boot) :=
  match find_context ccs (lit "rtsp-handler") (lit "live") with
  | None => Ok (-1, b)
  | ctx =>
      '(d, b) ← run_context_start_block ccs ctx b;
      match d with
      | None => Ok (-1, b)
      | Some _ =>
          let path := match m_szAudioStreamPath cfg with Some p => p | None => lit "/audio" end in
          b ← run_path cfg ctx d path b;
          b ← run_statement ctx d [tok_str (lit "Track"); tok_str (audio_name (m_eAudioStreamAudio cfg) path)] b;
          b ← run_number ctx d "mtu" (m_uiRTPDataTransSize cfg) b;
          '(_, b) ← run_context_end_block ccs ctx d b;
          Ok (0, b)
      end
  end.

(** One of the encoders that the masks ask for: [configed] is [eAudioConfiged]. *)
Definition need_audio (needed bit : Z) (config : boot → outcome (Z * boot)) (configed : Z) (b : boot) : outcome (Z * boot) :=
  if truth (needed .& bit) then
    '(ret, b) ← config b; Ok (if ret <? 0 then configed else configed .| bit, b)
  else Ok (configed, b).

(** [spook_config]; a stream that cannot be configured is only reported. *)
Definition spook_config (cfg : S_RTSP_CONFIG) (b : boot) : outcome (Z * boot) :=
  '(ret, b) ← config_frameheap [MkToken 0 VNone; tok_num (i32 (m_uiFrameCnt cfg)); tok_num (i32 (m_uiFrameSize cfg))] None b;
  if ret <? 0 then Ok (-1, b) else
  '(ret, b) ← port_directive [MkToken 0 VNone; tok_num 554] None b;
  if ret <? 0 then Ok (-1, b) else
  '(jpeg, b) ← jpeg_config cfg b;
  let needed := m_eMJPGCamAudio cfg .| m_eH264CamAudio cfg .| m_eAudioStreamAudio cfg in
  '(a, b) ← need_audio needed eRTSP_AUDIOMASK_ALAW alaw_config eRTSP_AUDIOMASK_NONE b;
  '(a, b) ← need_audio needed eRTSP_AUDIOMASK_ULAW ulaw_config a b;
  '(a, b) ← need_audio needed eRTSP_AUDIOMASK_DVIADPCM adpcm_config a b;
  '(a, b) ← need_audio needed eRTSP_AUDIOMASK_AAC aac_config a b;
  '(a, b) ← need_audio needed eRTSP_AUDIOMASK_G726 g726_config a b;
  '(a, b) ← need_audio needed eRTSP_AUDIOMASK_MP3 mp3_config a b;
  b ← (if (jpeg =? 0) && ((m_eMJPGCamAudio cfg =? eRTSP_AUDIOMASK_NONE) || truth (m_eMJPGCamAudio cfg .& a))
       then '(_, b) ← mjpg_live_config cfg b; Ok b else Ok b);
  b ← (if truth (m_eAudioStreamAudio cfg .& a) then '(_, b) ← audio_live_config cfg b; Ok b else Ok b);
  Ok (0, b).
End directives.

(** ** The command line *)

Definition s_sConfig : S_RTSP_CONFIG :=
  MkConfig 80000 8 4000000 None eRTSP_AUDIOMASK_ALAW eRTSP_AUDIOMASK_NONE 1 1400 None None None None
    eRTSP_AUDIOMASK_NONE (replicate DEF_MAX_MJPEG_CAM 0) 640 480 8 8 640 480 0 0.

(** [exit] and [return] of [main], or a configuration to go on with. *)
Inductive options := Configured (cfg : S_RTSP_CONFIG) | Exit (code : Z).

(** A width or height, made a multiple of eight; 0 ends the program. *)
Definition dimension (arg : list Z) : option Z :=
  let n := u32 (strtol arg).1 in
  if n =? 0 then None else Some (if truth (n mod 8) then n .& (2 ^ 32 - 8) else n).

Definition with_size (cfg : S_RTSP_CONFIG) (pw ph kw kh jw jh : Z) : S_RTSP_CONFIG :=
  MkConfig (m_uiFrameSize cfg) (m_uiFrameCnt cfg) (m_uiMJPGCamBitRate cfg) (m_szMJPGCamPath cfg) (m_eMJPGCamAudio cfg)
    (m_eH264CamAudio cfg) (m_uiNumMJPEGCams cfg) (m_uiRTPDataTransSize cfg) (m_szAuthRealm cfg) (m_szAuthUserName cfg)
    (m_szAuthPassword cfg) (m_szAudioStreamPath cfg) (m_eAudioStreamAudio cfg) (m_auiMJPGMaxConnNum cfg)
    pw ph kw kh jw jh (m_uiJpegPacketPipe cfg) (m_uiOverlapping cfg).

Definition with_flags (cfg : S_RTSP_CONFIG) (bitrate packet overlapping : Z) : S_RTSP_CONFIG :=
  MkConfig (m_uiFrameSize cfg) (m_uiFrameCnt cfg) bitrate (m_szMJPGCamPath cfg) (m_eMJPGCamAudio cfg)
    (m_eH264CamAudio cfg) (m_uiNumMJPEGCams cfg) (m_uiRTPDataTransSize cfg) (m_szAuthRealm cfg) (m_szAuthUserName cfg)
    (m_szAuthPassword cfg) (m_szAudioStreamPath cfg) (m_eAudioStreamAudio cfg) (m_auiMJPGMaxConnNum cfg)
    (m_uiVinPlannerWidth cfg) (m_uiVinPlannerHeight cfg) (m_uiVinPacketWidth cfg) (m_uiVinPacketHeight cfg)
    (m_uiJpegWidth cfg) (m_uiJpegHeight cfg) packet overlapping.

(** One option of [getopt], with its argument. *)
Definition set_option (cfg : S_RTSP_CONFIG) (opt : Z) (arg : list Z) : options :=
  let pw := m_uiVinPlannerWidth cfg in let ph := m_uiVinPlannerHeight cfg in
  let kw := m_uiVinPacketWidth cfg in let kh := m_uiVinPacketHeight cfg in
  let jw := m_uiJpegWidth cfg in let jh := m_uiJpegHeight cfg in
  let sized (f : Z → S_RTSP_CONFIG) := match dimension arg with Some n => Configured (f n) | None => Exit (-1) end in
  if opt =? 119 then sized (λ n, with_size cfg n ph kw kh jw jh)
  else if opt =? 100 then sized (λ n, with_size cfg pw n kw kh jw jh)
  else if opt =? 120 then sized (λ n, with_size cfg pw ph n kh jw jh)
  else if opt =? 121 then sized (λ n, with_size cfg pw ph kw n jw jh)
  else if opt =? 105 then sized (λ n, with_size cfg pw ph kw kh n jh)
  else if opt =? 101 then sized (λ n, with_size cfg pw ph kw kh jw n)
  else if opt =? 98 then
    let n := u32 (strtol arg).1 in
    Configured (if n =? 0 then cfg else with_flags cfg n (m_uiJpegPacketPipe cfg) (m_uiOverlapping cfg))
  else if opt =? 112 then Configured (with_flags cfg (m_uiMJPGCamBitRate cfg) 1 (m_uiOverlapping cfg))
  else if opt =? 111 then Configured (with_flags cfg (m_uiMJPGCamBitRate cfg) (m_uiJpegPacketPipe cfg) 1)
  else Exit 0.

Fixpoint parse_options (cfg : S_RTSP_CONFIG) (opts : list (Z * list Z)) : options :=
  match opts with
  | [] => Configured cfg
  | (opt, arg) :: opts =>
      match set_option cfg opt arg with Configured cfg => parse_options cfg opts | Exit code => Exit code end
  end.

(** What [main] fills in after the options. *)
Definition fill_config (cfg : S_RTSP_CONFIG) : S_RTSP_CONFIG :=
  let or (x : option (list Z)) (s : string) := match x with Some p => Some p | None => Some (lit s) end in
  MkConfig (m_uiFrameSize cfg) (m_uiFrameCnt cfg) (m_uiMJPGCamBitRate cfg) (or (m_szMJPGCamPath cfg) "/cam1/mpeg4"%string)
    (m_eMJPGCamAudio cfg) (m_eH264CamAudio cfg) (m_uiNumMJPEGCams cfg) (m_uiRTPDataTransSize cfg) (m_szAuthRealm cfg)
    (or (m_szAuthUserName cfg) ""%string) (or (m_szAuthPassword cfg) ""%string) (or (m_szAudioStreamPath cfg) "/audio"%string)
    (m_eAudioStreamAudio cfg) (replicate DEF_MAX_MJPEG_CAM 2) (m_uiVinPlannerWidth cfg) (m_uiVinPlannerHeight cfg)
    (m_uiVinPacketWidth cfg) (m_uiVinPacketHeight cfg) (m_uiJpegWidth cfg) (m_uiJpegHeight cfg)
    (m_uiJpegPacketPipe cfg) (m_uiOverlapping cfg).

(** The program before [spook_init]. *)
Definition empty_boot (udp : nat → bool) (writes : nat → list write_result) : boot :=
  MkBoot [] (empty_server udp writes) ∅ ∅ ∅ None [] default_range.

(** [main] up to [spook_run]: its exit code, or the program that enters the event loop. *)
Definition main (v : boot_env) (udp : nat → bool) (writes : nat → list write_result) (opts : list (Z * list Z))
    : outcome (Z + boot) :=
  match parse_options s_sConfig opts with
  | Exit code => Ok (inl code)
  | Configured cfg =>
      r ← spook_init v;
      match r with
      | None => Ok (inl (-2))
      | Some ccs =>
          '(ret, b) ← spook_config v ccs (fill_config cfg) (empty_boot udp writes);
          Ok (if ret <? 0 then inl (-3) else inr b)
      end
  end.

(** ** Statements *)

Lemma arg_num_eq t i n : t !! i = Some (tok_num n) → arg_num t i = Ok n.
Proof. intros E. unfold arg_num. by rewrite (rd_Ok _ _ _ E), bind_Ok. Qed.

Lemma arg_str_eq t i s : t !! i = Some (tok_str s) → arg_str t i = Ok s.
Proof. intros E. unfold arg_str. by rewrite (rd_Ok _ _ _ E), bind_Ok. Qed.

Section booting.
Context (v : boot_env).

(** What [spook_init] registers. *)
Definition contexts : list (config_context boot) := [global_context v; jpeg_context; alaw_context; live_context v].

Lemma spook_init_eq : spook_init v = Ok (if be_urandom v then Some contexts else None).
Proof. unfold spook_init, init_random. by destruct (be_urandom v). Qed.

Lemma run_statement_eq i cc d name args s b :
  contexts !! i = Some cc → find_statement (cc_statements cc) name (Z.of_nat (length args)) args = Ok (Some s) →
  run_statement contexts (Some i) (Some d) (tok_str name :: args) b =
  ('(_, b) ← s_process s (tok_str name :: args) (Some d) b; Ok b).
Proof.
  intros Ec Es. unfold run_statement, run_context_statement. rewrite (rd_Ok _ _ _ Ec), bind_Ok. unfold process_statement.
  rewrite (rd_Ok _ 0 (tok_str name)), bind_Ok by done. cbn [tok_str t_type t_v v_str negb Z.eqb Pos.eqb TOKEN_STR].
  rewrite bind_Ok. cbn [length drop]. rewrite drop_0. replace (S (length args) - 1)%nat with (length args) by lia.
  rewrite firstn_all. replace (Z.of_nat (S (length args)) - 1) with (Z.of_nat (length args)) by lia. rewrite Es, bind_Ok.
  cbn [take]. rewrite firstn_all. by destruct (s_process s _ _ b) as [[]| | |].
Qed.

(** A directive of the JPEG encoder with a number. *)
Lemma jpeg_number_eq name set n b en e :
  find_statement jpeg_statements (lit name) 1 [tok_num (i32 n)] = Ok (Some (MkStatement (lit name) (jpeg_number set) 1 1 [TOKEN_NUM])) →
  b_jpegs b !! en = Some e →
  run_number contexts (Some 1%nat) (Some en) name n b = Ok (put_jpeg b en (set e (i32 n))).
Proof.
  intros Ef Ee. unfold run_number. rewrite (run_statement_eq 1 jpeg_context en (lit name) [tok_num (i32 n)] _ b eq_refl Ef). cbn [s_process].
  unfold jpeg_number. cbn [data]. rewrite bind_Ok, (deref_Ok _ _ _ Ee), !bind_Ok. done.
Qed.

(** ** Cameras *)

(** The encoder of camera [i], which feeds the stream [s]. *)
Definition camera_encoder (cfg : S_RTSP_CONFIG) (s : nat) (x : exchanger) : jpeg_encoder :=
  MkJpegEnc (Some s) (Some x) (i32 (m_uiMJPGCamBitRate cfg)) (u32 (i32 (m_uiVinPlannerWidth cfg)))
    (u32 (i32 (m_uiVinPlannerHeight cfg))) (u32 (i32 (m_uiVinPacketWidth cfg))) (u32 (i32 (m_uiVinPacketHeight cfg)))
    (u32 (i32 (m_uiJpegWidth cfg))) (u32 (i32 (m_uiJpegHeight cfg))) (u32 (i32 (m_uiJpegPacketPipe cfg)))
    (u32 (i32 (m_uiOverlapping cfg))).

Definition camera_added (cfg : S_RTSP_CONFIG) (i : nat) (x : exchanger) (b : boot) : boot :=
  let en := sv_fresh (b_server b) in
  let s := st_fresh (sv_streams (b_server b)) in
  let w := source_added (sv_streams (b_server b)) (compressed i) FORMAT_JPEG in
  put_private (put_jpeg (put_boot b (with_streams (malloc (b_server b)).2 w)) en (camera_encoder cfg s x)) s (PrivJpeg en).

Lemma compressed_short i : (i < 10)%nat → (length (compressed i) < 256)%nat.
Proof. intros H. do 10 (destruct i as [|i]; [vm_compute; lia|]). lia. Qed.

Lemma put_put_jpeg b en e e' : put_jpeg (put_jpeg b en e) en e' = put_jpeg b en e'.
Proof. unfold put_jpeg. cbn. by rewrite insert_insert_eq. Qed.

Lemma jpeg_output_eq name b en e :
  b_jpegs b !! en = Some e → (length name < 256)%nat →
  run_statement contexts (Some 1%nat) (Some en) [tok_str (lit "output"); tok_str name] b =
  let s := st_fresh (sv_streams (b_server b)) in
  Ok (put_private (put_jpeg (put_boot b (with_streams (b_server b) (source_added (sv_streams (b_server b)) name FORMAT_JPEG))) en
    (MkJpegEnc (Some s) (je_ex e) (je_bitrate e) (je_u32VinPlannerWidth e) (je_u32VinPlannerHeight e) (je_u32VinPacketWidth e)
       (je_u32VinPacketHeight e) (je_u32JpegWidth e) (je_u32JpegHeight e) (je_u32JpegPacketPipe e) (je_u32Overlapping e))) s (PrivJpeg en)).
Proof.
  intros Ee Hl.
  rewrite (run_statement_eq 1 jpeg_context en (lit "output") [tok_str name] (MkStatement (lit "output") jpeg_output 1 1 [TOKEN_STR]) _ eq_refl eq_refl).
  cbn [s_process]. unfold jpeg_output at 1. cbn [data]. rewrite bind_Ok, (deref_Ok _ _ _ Ee), bind_Ok.
  rewrite (arg_str_eq [_; tok_str name] 1 name eq_refl), bind_Ok. unfold jpeg_set_output.
  destruct (new_source_eq (sv_streams (b_server b)) name FORMAT_JPEG Hl) as [-> Es]. by rewrite bind_Ok, Es, !bind_Ok.
Qed.

Lemma jpeg_pipe_eq n b en : run_number contexts (Some 1%nat) (Some en) "pipe" n b = Ok b.
Proof.
  unfold run_number.
  by rewrite (run_statement_eq 1 jpeg_context en (lit "pipe") [tok_num (i32 n)] (MkStatement (lit "pipe") set_pipe_num 1 1 [TOKEN_NUM]) _ eq_refl eq_refl).
Qed.

Lemma jpeg_camera_eq cfg n i ret b x :
  (i < 10)%nat → new_exchanger 8 = Ok x →
  jpeg_cameras contexts cfg (Some 1%nat) (S n) i ret b = jpeg_cameras contexts cfg (Some 1%nat) n (S i) 0 (camera_added cfg i x b).
Proof.
  intros Hi Hx. pose proof (compressed_short i Hi) as Hl. cbn [jpeg_cameras]. unfold run_context_start_block at 1.
  rewrite (rd_Ok _ 1 jpeg_context), bind_Ok by done. cbn [jpeg_context cc_start_block]. unfold jpeg_block_start.
  set (en := sv_fresh (b_server b)). change (malloc (b_server b)) with (en, (malloc (b_server b)).2).
  cbv beta iota. rewrite bind_Ok. unfold copy_token. rewrite (proj2 (Nat.leb_gt _ _) Hl), bind_Ok.
  rewrite (jpeg_output_eq _ _ en jpeg_start_block) by (apply lookup_insert_eq || done). cbv zeta. rewrite bind_Ok.
  erewrite jpeg_number_eq; [|reflexivity|apply lookup_insert_eq]. rewrite bind_Ok, jpeg_pipe_eq, bind_Ok.
  do 8 (erewrite jpeg_number_eq; [|reflexivity|apply lookup_insert_eq]; rewrite bind_Ok).
  unfold run_context_end_block at 1. rewrite (rd_Ok _ 1 jpeg_context), bind_Ok by done. cbn [jpeg_context cc_end_block].
  unfold jpeg_block_end. cbn [data]. rewrite bind_Ok. erewrite deref_Ok by apply lookup_insert_eq. rewrite bind_Ok.
  unfold jpeg_end_block. cbn [je_output set_bitrate_num set_vin_planner_width set_vin_planner_height set_vin_packet_width
    set_vin_packet_height set_jpeg_width set_jpeg_height set_jpeg_packet set_overlapping].
  rewrite Hx, !bind_Ok. change (0 <? 0) with false. cbv iota. f_equal. rewrite !put_put_jpeg.
  unfold camera_added, put_private, put_jpeg. cbn [b_jpegs put_boot b_locs b_tcp b_alaws b_private b_heap b_ports b_range].
  by rewrite !insert_insert_eq.
Qed.

(** ** Sound *)

Definition alaw_added (x : exchanger) (b : boot) : boot :=
  let en := sv_fresh (b_server b) in
  let s := st_fresh (sv_streams (b_server b)) in
  let w := source_added (sv_streams (b_server b)) (quoted (lit "alaw")) FORMAT_ALAW in
  put_private (put_alaw (put_boot b (with_streams (malloc (b_server b)).2 w)) en
    (MkAlaw (Some s) (Some x) DEF_AUDIO_CHANNEL DEF_AUDIO_SAMPLERATE)) s (PrivAlaw en).

Lemma alaw_config_eq b x : new_exchanger 4 = Ok x → alaw_config contexts b = Ok (0, alaw_added x b).
Proof.
  intros Hx. unfold alaw_config, audio_config. change (find_context _ _ _) with (Some 2%nat). cbv iota.
  unfold run_context_start_block. rewrite (rd_Ok _ 2 alaw_context), bind_Ok by done. cbn [alaw_context cc_start_block].
  unfold alaw_block_start. set (en := sv_fresh (b_server b)). change (malloc (b_server b)) with (en, (malloc (b_server b)).2).
  cbv beta iota. rewrite bind_Ok. set (name := quoted (lit "alaw")).
  rewrite (run_statement_eq 2 alaw_context en (lit "output") [tok_str name] (MkStatement (lit "output") alaw_output 1 1 [TOKEN_STR]) _ eq_refl eq_refl).
  cbn [s_process]. unfold alaw_output at 1. cbn [data]. rewrite bind_Ok. erewrite deref_Ok by apply lookup_insert_eq. rewrite bind_Ok.
  rewrite (arg_str_eq [_; tok_str name] 1 name eq_refl), bind_Ok. unfold alaw_set_output.
  set (b1 := put_alaw _ en alaw_start_block).
  destruct (new_source_eq (sv_streams (b_server b1)) name FORMAT_ALAW) as [-> Es]; [vm_compute; lia|]. rewrite bind_Ok, Es, !bind_Ok.
  unfold run_context_end_block. rewrite (rd_Ok _ 2 alaw_context), bind_Ok by done. cbn [alaw_context cc_end_block].
  unfold alaw_block_end. cbn [data]. rewrite bind_Ok. erewrite deref_Ok by apply lookup_insert_eq. rewrite bind_Ok.
  unfold alaw_end_block. cbn [ae_output]. rewrite Hx, !bind_Ok.
  unfold alaw_added, b1, put_private, put_alaw. cbn [b_alaws put_boot b_locs b_tcp b_jpegs b_private b_heap b_ports b_range].
  by rewrite !insert_insert_eq.
Qed.

(** The other codecs are not registered. *)
Lemma no_codec name b : find_context contexts (lit "encoder") (lit name) = None → audio_config contexts name b = Ok (-1, b).
Proof. intros E. unfold audio_config. by rewrite E. Qed.

(** ** The invariant of the configuration *)

Record boot_inv (b : boot) : Prop := {
  bi_booted : booted (b_locs b) (b_tcp b);
  bi_rates : rates_ok (sv_streams (b_server b)) (rate_of b) }.

Lemma source_added_lookup w name format s x :
  st_streams (source_added w name format) !! s = Some x → s = st_fresh w ∨ s ≠ st_fresh w ∧ st_streams w !! s = Some x.
Proof. cbn. rewrite lookup_insert_Some. intros [[-> _]|[]]; [by left|right; by split]. Qed.

Lemma encoder_added_booted b name format :
  booted (b_locs b) (b_tcp b) → (length name < 256)%nat →
  booted (b_locs b) (put_sv (b_tcp b) (with_streams (malloc (b_server b)).2 (source_added (sv_streams (b_server b)) name format))).
Proof. intros H%malloc_booted Hl. by apply (source_added_booted _ (put_sv (b_tcp b) (malloc (b_server b)).2)). Qed.

Lemma camera_added_ok cfg i x b : (i < 10)%nat → boot_inv b → boot_inv (camera_added cfg i x b).
Proof.
  intros Hi [Hb Hr]. pose proof (compressed_short i Hi). split; [by apply (encoder_added_booted b)|].
  intros s y E Hs. unfold rate_of. cbn. destruct (source_added_lookup _ _ _ _ _ E) as [->|[Hne E0]]; [by rewrite lookup_insert_eq|].
  rewrite lookup_insert_ne by done. by apply (Hr s y).
Qed.

Lemma alaw_added_ok x b : boot_inv b → boot_inv (alaw_added x b).
Proof.
  intros [Hb Hr]. split; [apply (encoder_added_booted b); [done|vm_compute; lia]|]. intros s y E Hs. unfold rate_of. cbn.
  destruct (source_added_lookup _ _ _ _ _ E) as [->|[Hne E0]]; [by rewrite lookup_insert_eq, lookup_insert_eq|].
  rewrite lookup_insert_ne by done. specialize (Hr s y E0 Hs). unfold rate_of in Hr.
  destruct (b_private b !! s) as [[en|en]|]; [|done..]. destruct (decide (en = sv_fresh (b_server b))) as [->|Hn].
  - by rewrite lookup_insert_eq.
  - by rewrite lookup_insert_ne.
Qed.

(** While the block of the source [k] is open. *)
Definition boot_live (k : nat) (b : boot) : Prop := boot_inv b ∧ is_Some (sv_sources (b_server b) !! k).

(** The server changes, but no encoder. *)
Lemma put_boot_ok k b sv :
  boot_live k b → booted (b_locs b) (put_sv (b_tcp b) sv) → same_sources (b_server b) sv → boot_live k (put_boot b sv).
Proof.
  intros [[_ Hr] Hk] Hb (_ & Hst & Hs). split; [|by apply Hs]. split; [exact Hb|]. intros s x E Hx.
  destruct (Hst s x E Hx) as (y & Ey & Hy). by apply (Hr s y).
Qed.

Lemma live_start_ok b : boot_inv b → returns (run_context_start_block contexts (Some 3%nat) b) (λ r, ∃ k, r.1 = Some k ∧ boot_live k r.2).
Proof.
  intros [Hb Hr]. unfold run_context_start_block. rewrite (rd_Ok _ 3 (live_context v)), bind_Ok by done. cbn [live_context cc_start_block].
  unfold live_block_start. change (live_start_block (b_server b)) with (sv_fresh (b_server b), (live_start_block (b_server b)).2).
  cbv iota beta. apply returns_Ok. eexists. split; [done|]. split; [|cbn; by rewrite lookup_insert_eq].
  split; [by apply (live_start_block_ok _ (b_tcp b))|]. exact Hr.
Qed.

Lemma live_end_ok k b : boot_live k b → returns (run_context_end_block contexts (Some 3%nat) (Some k) b) (λ r, boot_inv r.2).
Proof.
  intros [Hb [src E]]. unfold run_context_end_block. rewrite (rd_Ok _ 3 (live_context v)), bind_Ok by done. cbn [live_context cc_end_block].
  unfold live_block_end. cbn [data]. rewrite bind_Ok. unfold live_end_block. rewrite (deref_Ok _ _ _ E), bind_Ok.
  destruct (iv_source _ (se_inv _ _ (proj1 (ti_running _ _ (bo_inv _ _ (bi_booted _ Hb))))) _ _ E) as (_ & _ & Hl & _).
  destruct (lookup_lt_is_Some_2 (lv_track src) 0) as [tr Et]; [rewrite Hl; unfold MAX_TRACKS; lia|].
  rewrite (rd_Ok _ _ _ Et), !bind_Ok. by apply returns_Ok.
Qed.

(** A directive of the live source. *)
Lemma live_statement_ok k name args s b :
  find_statement (live_statements v) name (Z.of_nat (length args)) args = Ok (Some s) →
  returns (s_process s (tok_str name :: args) (Some k) b) (λ r, boot_live k r.2) →
  returns (run_statement contexts (Some 3%nat) (Some k) (tok_str name :: args) b) (boot_live k).
Proof.
  intros Ef Hr. rewrite (run_statement_eq 3 (live_context v) _ _ _ _ _ eq_refl Ef).
  eapply returns_bind; [exact Hr|]. intros [ret b'] H. by apply returns_Ok.
Qed.

Lemma live_track_ok k name b :
  boot_live k b → returns (run_statement contexts (Some 3%nat) (Some k) [tok_str (lit "Track"); tok_str name] b) (boot_live k).
Proof.
  intros Hb. eapply live_statement_ok; [reflexivity|]. cbn [s_process]. unfold set_track. cbn [data]. rewrite bind_Ok.
  rewrite (arg_str_eq [_; tok_str name] 1 name eq_refl), bind_Ok.
  eapply returns_bind; [apply (live_set_track_ok (b_locs b) (b_tcp b)); apply Hb|]. intros [ok sv] [H1 H2]. by apply returns_Ok, put_boot_ok.
Qed.

Lemma same_put_source sv k src : same_sources sv (set_source_at sv k src).
Proof. by apply (put_same_sources sv (sv_streams sv)). Qed.

Lemma live_mtu_ok k n b :
  boot_live k b → 145 <= i32 n → returns (run_number contexts (Some 3%nat) (Some k) "mtu" n b) (boot_live k).
Proof.
  intros Hb Hn. eapply live_statement_ok; [reflexivity|]. cbn [s_process]. unfold set_mtu. cbn [data]. rewrite bind_Ok.
  rewrite (arg_num_eq [_; tok_num (i32 n)] 1 (i32 n) eq_refl), bind_Ok. destruct Hb as [Hb [src E]]. unfold live_set_mtu.
  rewrite (deref_Ok _ _ _ E), !bind_Ok. apply returns_Ok, put_boot_ok; [by split|apply numbers_ok; [apply Hb|done|done]|apply same_put_source].
Qed.

Lemma live_conn_ok k n b : boot_live k b → returns (run_number contexts (Some 3%nat) (Some k) "conn" n b) (boot_live k).
Proof.
  intros Hb. eapply live_statement_ok; [reflexivity|]. cbn [s_process]. unfold set_conn. cbn [data]. rewrite bind_Ok.
  rewrite (arg_num_eq [_; tok_num (i32 n)] 1 (i32 n) eq_refl), bind_Ok. destruct Hb as [Hb [src E]]. unfold live_set_conn.
  rewrite (deref_Ok _ _ _ E), !bind_Ok. apply returns_Ok, put_boot_ok; [by split| |apply same_put_source].
  apply numbers_ok; [apply Hb|done|]. eapply (se_mtu _ _ (proj1 (ti_running _ _ (bo_inv _ _ (bi_booted _ Hb))))), E.
Qed.

(** Strings that fit: paths in 256 bytes, with the number of the camera, and the realm and
    its user in 128.  [count] frames are more than none, a packet has room for the JPEG
    headers, and each camera has its limit of connections. *)
Record wf_config (cfg : S_RTSP_CONFIG) : Prop := {
  wc_count : 0 < i32 (m_uiFrameCnt cfg);
  wc_mtu : 145 <= i32 (m_uiRTPDataTransSize cfg);
  wc_cams : (Z.to_nat (m_uiNumMJPEGCams cfg) <= length (m_auiMJPGMaxConnNum cfg))%nat;
  wc_conns : length (m_auiMJPGMaxConnNum cfg) = DEF_MAX_MJPEG_CAM;
  wc_cam_path p : m_szMJPGCamPath cfg = Some p → (length p < 254)%nat;
  wc_audio_path p : m_szAudioStreamPath cfg = Some p → (length p < 256)%nat;
  wc_auth realm : m_szAuthRealm cfg = Some realm →
    (length realm < 128)%nat ∧ no_nul realm ∧
    ∃ u w, m_szAuthUserName cfg = Some u ∧ m_szAuthPassword cfg = Some w ∧ (length u < 128)%nat ∧ (length w < 128)%nat }.

Hypothesis Hpath : ∀ n, length (be_path v n) = 256%nat.

Lemma copy_token_ok s : (length s < 256)%nat → copy_token s = Ok (tok_str s).
Proof. intros H. unfold copy_token. by rewrite (proj2 (Nat.leb_gt _ _) H). Qed.

(** Both forms of [Path]. *)
Lemma add_path_ok k path auth b :
  boot_live k b → (length path < 256)%nat → auth_ok auth →
  returns (locs ← live_set_path (b_locs b) k path auth (be_path v (length (b_locs b)));
           Ok (0, MkBoot locs (b_tcp b) (b_jpegs b) (b_alaws b) (b_private b) (b_heap b) (b_ports b) (b_range b)))
    (λ r, boot_live k r.2).
Proof using Hpath.
  intros [[Hb Hr] Hk] Hp Ha. eapply returns_bind; [by eapply live_set_path_ok|]. intros locs H. by apply returns_Ok.
Qed.

Lemma run_path_ok cfg k path b :
  wf_config cfg → boot_live k b → (length path < 256)%nat → returns (run_path contexts cfg (Some 3%nat) (Some k) path b) (boot_live k).
Proof using Hpath.
  intros Hc Hb Hp. unfold run_path. rewrite (copy_token_ok _ Hp), bind_Ok. destruct (m_szAuthRealm cfg) as [realm|] eqn:Er.
  - destruct (wc_auth _ Hc _ Er) as (H1 & H2 & u & w & Eu & Ew & H3 & H4). rewrite Eu, Ew. unfold copy_option.
    rewrite !copy_token_ok, !bind_Ok by lia. eapply live_statement_ok; [reflexivity|]. cbn [s_process]. unfold set_path. cbn [data].
    rewrite bind_Ok. cbv zeta. change (length _ =? 2)%nat with false. change (length _ =? 5)%nat with true. cbv iota.
    set (t := [_; _; _; _; _]). rewrite (arg_str_eq t 1 path eq_refl), (arg_str_eq t 2 realm eq_refl), (arg_str_eq t 3 u eq_refl),
      (arg_str_eq t 4 w eq_refl), !bind_Ok. by apply add_path_ok.
  - eapply live_statement_ok; [reflexivity|]. cbn [s_process]. unfold set_path. cbn [data]. rewrite bind_Ok. cbv zeta.
    change (length _ =? 2)%nat with true. cbv iota. rewrite (arg_str_eq [_; tok_str path] 1 path eq_refl), bind_Ok. by apply add_path_ok.
Qed.

Lemma camera_path_short cfg i : wf_config cfg → (i < 10)%nat → (length (camera_path cfg i) < 256)%nat.
Proof.
  intros Hc Hi. assert (length (dec (Z.of_nat i)) = 1%nat) as Hd by (do 10 (destruct i as [|i]; [done|]); lia).
  unfold camera_path. pose proof (wc_cam_path _ Hc) as H.
  destruct i, (m_szMJPGCamPath cfg) as [p|]; try (specialize (H p eq_refl)); rewrite ?length_app, ?Hd; cbn; lia.
Qed.

Lemma live_cameras_ok cfg n i b :
  wf_config cfg → (i + n <= length (m_auiMJPGMaxConnNum cfg))%nat → boot_inv b →
  returns (live_cameras contexts cfg (Some 3%nat) n i b) (λ r, boot_inv r.2).
Proof using Hpath.
  intros Hc. pose proof (wc_conns _ Hc) as Hl. unfold DEF_MAX_MJPEG_CAM in Hl. revert i b.
  induction n as [|n IH]; intros i b Hi Hb; [by apply returns_Ok|]. cbn [live_cameras].
  eapply returns_bind; [by apply live_start_ok|]. intros [d b1] (k & [= ->] & H1). cbn [snd] in H1.
  eapply returns_bind; [apply run_path_ok; [done|done|apply camera_path_short; [done|lia]]|]. intros b2 H2.
  rewrite copy_token_ok, bind_Ok by (apply compressed_short; lia). eapply returns_bind; [by apply live_track_ok|]. intros b3 H3.
  apply returns_bind with (P := boot_live k); [destruct (_ =? _); [by apply returns_Ok|by apply live_track_ok]|]. intros b4 H4.
  eapply returns_bind; [apply live_mtu_ok; [done|apply Hc]|]. intros b5 H5.
  destruct (lookup_lt_is_Some_2 (m_auiMJPGMaxConnNum cfg) i) as [c Ec]; [lia|]. rewrite (rd_Ok _ _ _ Ec), bind_Ok.
  eapply returns_bind; [by apply live_conn_ok|]. intros b6 H6. eapply returns_bind; [by apply live_end_ok|]. intros [ret b7] H7.
  apply IH; [lia|done].
Qed.

Lemma jpeg_cameras_ok cfg n i ret b :
  (i + n <= 10)%nat → boot_inv b → 0 <= ret → returns (jpeg_cameras contexts cfg (Some 1%nat) n i ret b) (λ r, boot_inv r.2).
Proof.
  revert i ret b. induction n as [|n IH]; intros i ret b Hi Hb Hret; [by apply returns_Ok|].
  destruct (new_exchanger 8) as [x| | |] eqn:Ex; [|done..]. rewrite (jpeg_camera_eq _ _ _ _ _ x) by (lia || done).
  apply IH; [lia| |lia]. apply camera_added_ok; [lia|done].
Qed.

Lemma mjpg_live_config_ok cfg b : wf_config cfg → boot_inv b → returns (mjpg_live_config contexts cfg b) (λ r, boot_inv r.2).
Proof using Hpath.
  intros Hc Hb. unfold mjpg_live_config. change (find_context _ _ _) with (Some 3%nat). cbv iota. apply live_cameras_ok; [done|apply Hc|done].
Qed.

Lemma audio_live_config_ok cfg b : wf_config cfg → boot_inv b → returns (audio_live_config contexts cfg b) (λ r, boot_inv r.2).
Proof using Hpath.
  intros Hc Hb. unfold audio_live_config. change (find_context _ _ _) with (Some 3%nat). cbv iota.
  eapply returns_bind; [by apply live_start_ok|]. intros [d b1] (k & [= ->] & H1). cbn [snd] in H1. cbv zeta.
  eapply returns_bind; [apply run_path_ok; [done|done|]|].
  { pose proof (wc_audio_path _ Hc) as H. destruct (m_szAudioStreamPath cfg) as [p|]; [by apply H|cbn; lia]. }
  intros b2 H2. eapply returns_bind; [by apply live_track_ok|]. intros b3 H3.
  eapply returns_bind; [apply live_mtu_ok; [done|apply Hc]|]. intros b4 H4. eapply returns_bind; [by apply live_end_ok|].
  intros [ret b5] H5. by apply returns_Ok.
Qed.

Lemma need_audio_ok needed bit config a b :
  boot_inv b → (∀ b, boot_inv b → returns (config b) (λ r, boot_inv r.2)) →
  returns (need_audio needed bit config a b) (λ r, boot_inv r.2).
Proof.
  intros Hb Hc. unfold need_audio. destruct (truth _); [|by apply returns_Ok]. eapply returns_bind; [by apply Hc|].
  intros [ret b'] H. by apply returns_Ok.
Qed.

Lemma alaw_config_ok b : boot_inv b → returns (alaw_config contexts b) (λ r, boot_inv r.2).
Proof.
  intros Hb. destruct (new_exchanger 4) as [x| | |] eqn:Ex; [|done..]. rewrite (alaw_config_eq _ x Ex). by apply returns_Ok, alaw_added_ok.
Qed.

Lemma no_codec_ok name b :
  find_context contexts (lit "encoder") (lit name) = None → boot_inv b → returns (audio_config contexts name b) (λ r, boot_inv r.2).
Proof. intros E Hb. rewrite (no_codec _ _ E). by apply returns_Ok. Qed.

Lemma spook_config_ok cfg b :
  wf_config cfg → boot_inv b → returns (spook_config v contexts cfg b) (λ r, boot_inv r.2).
Proof using Hpath.
  intros Hc Hb. unfold spook_config, config_frameheap. pose proof (wc_count _ Hc). set (t := [_; _; _]).
  rewrite (arg_num_eq t 1 _ eq_refl), (arg_num_eq t 2 _ eq_refl), bind_Ok. change (length t =? 3)%nat with true. cbv iota. rewrite bind_Ok.
  destruct (Z.to_nat (i32 (m_uiFrameCnt cfg))) as [|n] eqn:En; [lia|]. cbn [init_frame_heap]. rewrite !bind_Ok. change (0 <? 0) with false. cbv iota.
  apply returns_bind with (P := λ r, boot_inv r.2).
  { unfold port_directive. rewrite (arg_num_eq [_; tok_num 554] 1 554 eq_refl), bind_Ok. destruct (config_port _ _ _ _); apply returns_Ok; by destruct Hb. }
  intros [r1 b1] H1. destruct (r1 <? 0); [by apply returns_Ok|].
  apply returns_bind with (P := λ r, boot_inv r.2).
  { unfold jpeg_config. change (find_context _ _ _) with (Some 1%nat). cbv iota. pose proof (wc_cams _ Hc). rewrite (wc_conns _ Hc) in *.
    unfold DEF_MAX_MJPEG_CAM in *. apply jpeg_cameras_ok; [lia|done|done]. }
  intros [r2 b2] H2. cbv zeta. eapply returns_bind; [apply need_audio_ok; [done|apply alaw_config_ok]|]. intros [a3 b3] H3.
  do 5 (eapply returns_bind; [apply need_audio_ok; [eassumption|intros ? ?; by apply no_codec_ok]|]; intros [? ?] ?).
  apply returns_bind with (P := boot_inv).
  { destruct (_ && _); [|by apply returns_Ok]. eapply returns_bind; [by apply mjpg_live_config_ok|]. intros [] ?. by apply returns_Ok. }
  intros b8 H8. apply returns_bind with (P := boot_inv).
  { destruct (truth _); [|by apply returns_Ok]. eapply returns_bind; [by apply audio_live_config_ok|]. intros [] ?. by apply returns_Ok. }
  intros b9 H9. by apply returns_Ok.
Qed.
End booting.

(** ** The command line *)

Lemma land_8 n : 0 <= n < 2 ^ 32 → n .& (2 ^ 32 - 8) = 8 * (n / 8).
Proof.
  intros Hn. change (2 ^ 32 - 8) with (Z.land (Z.ones 32) (Z.lnot (Z.ones 3))).
  rewrite Z.land_assoc, Z.land_ones, (Z.mod_small n) by lia. rewrite <- Z.ldiff_land, Z.ldiff_ones_r, Z.shiftl_mul_pow2, Z.shiftr_div_pow2 by lia. change (2 ^ 3) with 8. lia.
Qed.

Definition size_ok (n : Z) : Prop := 0 <= n < 2 ^ 32 ∧ n mod 8 = 0.

Lemma dimension_ok arg n : dimension arg = Some n → size_ok n.
Proof.
  unfold dimension. cbv zeta. pose proof (u32_range (strtol arg).1) as Hr. set (m := u32 _) in *. destruct (m =? 0); [done|].
  unfold truth. destruct (Z.eqb_spec (m mod 8) 0) as [E|E]; intros [= <-]; [by split|]. unfold size_ok. rewrite land_8 by lia.
  pose proof (Z.div_mod m 8 ltac:(lia)). pose proof (Z.mod_pos_bound m 8 ltac:(lia)). split; [lia|]. rewrite Z.mul_comm. by apply Z.mod_mul.
Qed.

(** The options change the sizes, the bit rate and the two flags. *)
Definition from_command_line (cfg : S_RTSP_CONFIG) : Prop :=
  ∃ rate pw ph kw kh jw jh packet overlapping,
    cfg = MkConfig 80000 8 rate None eRTSP_AUDIOMASK_ALAW eRTSP_AUDIOMASK_NONE 1 1400 None None None None
            eRTSP_AUDIOMASK_NONE (replicate DEF_MAX_MJPEG_CAM 0) pw ph kw kh jw jh packet overlapping ∧
    Forall size_ok [pw; ph; kw; kh; jw; jh].

Ltac option_case := unfold from_command_line, with_size, with_flags; cbn; repeat eexists; by rewrite !Forall_cons.

Lemma set_option_ok cfg opt arg :
  from_command_line cfg → match set_option cfg opt arg with Configured cfg' => from_command_line cfg' | Exit code => code = 0 ∨ code = -1 end.
Proof.
  intros (rate & pw & ph & kw & kh & jw & jh & packet & overlapping & -> & Hs).
  assert (∀ f : Z → S_RTSP_CONFIG, (∀ n, size_ok n → from_command_line (f n)) →
    match (match dimension arg with Some n => Configured (f n) | None => Exit (-1) end) with
    | Configured cfg' => from_command_line cfg' | Exit code => code = 0 ∨ code = -1 end) as Hsized.
  { intros f Hf. destruct (dimension arg) as [n|] eqn:E; [by apply Hf, (dimension_ok arg)|by right]. }
  unfold set_option. cbv zeta. rewrite !Forall_cons in Hs. destruct Hs as (H1 & H2 & H3 & H4 & H5 & H6 & _).
  do 6 (destruct (opt =? _); [apply Hsized; intros n Hn; option_case|]).
  destruct (opt =? 98); [destruct (_ =? 0); option_case|]. do 2 (destruct (opt =? _); [option_case|]). by left.
Qed.

Lemma parse_options_ok opts cfg :
  from_command_line cfg → match parse_options cfg opts with Configured cfg' => from_command_line cfg' | Exit code => code = 0 ∨ code = -1 end.
Proof.
  revert cfg. induction opts as [|[opt arg] opts IH]; intros cfg Hc; [done|]. cbn [parse_options].
  pose proof (set_option_ok cfg opt arg Hc). destruct (set_option cfg opt arg); [by apply IH|done].
Qed.

Lemma defaults_ok : from_command_line s_sConfig.
Proof. repeat eexists. by rewrite !Forall_cons. Qed.

Lemma fill_config_ok cfg : from_command_line cfg → wf_config (fill_config cfg).
Proof.
  intros (rate & pw & ph & kw & kh & jw & jh & packet & overlapping & -> & _).
  split; cbn; try done; try lia; try (intros p [= <-]; cbn; lia).
Qed.

(** ** The device *)

(** Track [t] of [src] sends what the encoder [p] puts into the stream [name]. *)
Definition track_of (b : boot) (src : live_source) (t : nat) (name : list Z) (format : Z) (p : private) (m : media) : Prop :=
  let w := sv_streams (b_server b) in
  ∃ d s, lv_track src !! t = Some (MkTrack (Some d) false (Some m)) ∧
    st_dests w !! d = Some (MkDest s 1 (Client (track_id (sv_fresh (b_server b) - 1) t))) ∧
    st_streams w !! s = Some (MkStream name format [d] RunSource) ∧ b_private b !! s = Some p.

(** One location without a password, whose source has a track of JPEG at thirty frames a
    second and a track of A-law at 8 kHz, for at most two clients. *)
Definition serves (b : boot) (e : jpeg_encoder) : Prop :=
  ∃ loc src en en' x j,
    b_locs b = [loc] ∧ loc_string loc = lit "/cam1/mpeg4" ∧ lo_realm loc = [] ∧
    sv_sources (b_server b) = {[lo_private loc := src]} ∧ length (lv_track src) = MAX_TRACKS ∧
    lv_max_trans_size src = 1400 ∧ lv_max_conn src = 2 ∧ lv_cur_conn src = 0 ∧
    b_jpegs b = {[en := e]} ∧
    b_alaws b = {[en' := MkAlaw (je_output e ≫= λ s, Some (S s)) (Some x) 1 8000]} ∧
    track_of b src 0 (compressed 0) FORMAT_JPEG (PrivJpeg en) (MediaJpeg j) ∧ j_init_done j = false ∧ j_ts_incr j = 3000 ∧
    track_of b src 1 (quoted (lit "alaw")) FORMAT_ALAW (PrivAlaw en') (MediaRaw (MkRaw [] 0 FORMAT_ALAW 1 1 8000 0)).

Lemma run_path_eq v cfg k path a b :
  (length path < 256)%nat → m_szAuthRealm cfg = None → init_location path (be_path v (length (b_locs b))) = Ok a →
  run_path (contexts v) cfg (Some 3%nat) (Some k) path b =
  Ok (MkBoot (MkLocation a [] [] [] k :: b_locs b) (b_tcp b) (b_jpegs b) (b_alaws b) (b_private b) (b_heap b) (b_ports b) (b_range b)).
Proof.
  intros Hp Hr Ha. unfold run_path. rewrite Hr, (copy_token_ok _ Hp), bind_Ok.
  rewrite (run_statement_eq v 3 (live_context v) k (lit "Path") [tok_str path]
    (MkStatement (lit "path") (set_path v) 1 4 [TOKEN_STR; TOKEN_STR; TOKEN_STR; TOKEN_STR]) _ eq_refl eq_refl).
  cbn [s_process]. unfold set_path. cbn [data]. rewrite bind_Ok. cbv zeta. change (length _ =? 2)%nat with true. cbv iota.
  rewrite (arg_str_eq [_; tok_str path] 1 path eq_refl), bind_Ok. unfold live_set_path, new_rtsp_location. by rewrite Ha, !bind_Ok.
Qed.

Section device.
Context (v : boot_env) (udp : nat → bool) (writes : nat → list write_result).
Context (h : frame_heap) (e : jpeg_encoder) (x : exchanger) (a : list Z) (rate pw ph kw kh jw jh packet overlapping : Z).
Hypothesis Ha : init_location (lit "/cam1/mpeg4") (be_path v 0) = Ok a.
Hypothesis He : je_output e = Some 0%nat.

Abbreviation cfg := (MkConfig 80000 8 rate (Some (lit "/cam1/mpeg4")) eRTSP_AUDIOMASK_ALAW eRTSP_AUDIOMASK_NONE 1 1400
  None (Some []) (Some []) (Some (lit "/audio")) eRTSP_AUDIOMASK_NONE (replicate DEF_MAX_MJPEG_CAM 2) pw ph kw kh jw jh packet overlapping).

(** After [jpeg_config] and [alaw_config]. *)
Definition with_encoders : boot :=
  let b := MkBoot [] (empty_server udp writes) ∅ ∅ ∅ (Some h) [554] default_range in
  alaw_added x (put_private (put_jpeg (put_boot b (with_streams (malloc (b_server b)).2
    (source_added (sv_streams (b_server b)) (compressed 0) FORMAT_JPEG))) 0 e) 0 (PrivJpeg 0)).

Lemma loc_string_eq k : loc_string (MkLocation a [] [] [] k) = lit "/cam1/mpeg4".
Proof using Ha.
  revert Ha. unfold init_location. case_match; [done|]. intros [= <-]. reflexivity.
Qed.

Lemma cameras_live : ∃ b, live_cameras (contexts v) cfg (Some 3%nat) 1 0 with_encoders = Ok (0, b) ∧
  b_heap b = Some h ∧ b_ports b = [554] ∧ serves b e.
Proof using Ha He.
  cbn [live_cameras].
  change (run_context_start_block (contexts v) (Some 3%nat) with_encoders) with
    (Ok (Some 2%nat, put_boot with_encoders (live_start_block (b_server with_encoders)).2)).
  rewrite bind_Ok. cbv iota. change (camera_path cfg 0) with (lit "/cam1/mpeg4").
  rewrite (run_path_eq v cfg 2 (lit "/cam1/mpeg4") a) by (exact Ha || reflexivity || (vm_compute; lia)). rewrite bind_Ok.
  eexists. split; [vm_compute; reflexivity|]. split; [reflexivity|]. split; [reflexivity|]. unfold serves.
  rewrite He. eexists _, _, 0%nat, 1%nat, _, _. split; [reflexivity|]. split; [apply loc_string_eq|]. split; [reflexivity|].
  split; [reflexivity|]. split; [reflexivity|]. split; [reflexivity|]. split; [reflexivity|]. split; [reflexivity|].
  split; [reflexivity|]. split; [reflexivity|]. split; [exists 2%nat, 0%nat; repeat split; reflexivity|].
  split; [reflexivity|]. split; [reflexivity|]. exists 3%nat, 1%nat; repeat split; reflexivity.
Qed.
End device.

Lemma init_location_fits path junk : (length path < length junk)%nat → ∃ a, init_location path junk = Ok a.
Proof. intros H. unfold init_location. rewrite (proj2 (Nat.leb_gt _ _) H). by eexists. Qed.

Lemma need_audio_yes needed bit config a b b' :
  truth (needed .& bit) = true → config b = Ok (0, b') → need_audio needed bit config a b = Ok (a .| bit, b').
Proof. intros H E. unfold need_audio. by rewrite H, E. Qed.

Lemma need_audio_no needed bit config a b : truth (needed .& bit) = false → need_audio needed bit config a b = Ok (a, b).
Proof. intros H. unfold need_audio. by rewrite H. Qed.

(** [spook_config] for what the command line gives. *)
Lemma device_config v udp writes cfg :
  from_command_line cfg → length (be_path v 0) = 256%nat → config_port 554 (be_socket v) (be_bind v) (be_listen v) = true →
  ∃ b h x, spook_config v (contexts v) (fill_config cfg) (empty_boot udp writes) = Ok (0, b) ∧
    b_heap b = Some h ∧ length (h_slots h) = 8%nat ∧ b_ports b = [554] ∧ serves b (camera_encoder cfg 0 x).
Proof.
  intros (rate & pw & ph & kw & kh & jw & jh & packet & overlapping & -> & _) Hj Hport.
  destruct (init_location_fits (lit "/cam1/mpeg4") (be_path v 0)) as [a Ha]; [rewrite Hj; vm_compute; lia|].
  unfold spook_config, config_frameheap. set (t := [_; _; _]).
  rewrite (arg_num_eq t 1 _ eq_refl), (arg_num_eq t 2 _ eq_refl), bind_Ok. change (length t =? 3)%nat with true. cbv iota. rewrite bind_Ok.
  set (o := init_frame_heap _ _ _). assert (∃ h, o = Ok h ∧ length (h_slots h) = 8%nat) as (h & -> & Hh) by (by eexists).
  rewrite !bind_Ok. change (0 <? 0) with false. cbv iota. unfold port_directive.
  rewrite (arg_num_eq [_; tok_num 554] 1 554 eq_refl), bind_Ok, Hport, bind_Ok. change (0 <? 0) with false. cbv iota.
  unfold jpeg_config. change (find_context _ _ _) with (Some 1%nat). cbv iota.
  destruct (new_exchanger 8) as [x8| | |] eqn:E8; [|done..]. destruct (new_exchanger 4) as [x4| | |] eqn:E4; [|done..].
  change (Z.to_nat (m_uiNumMJPEGCams _)) with 1%nat. rewrite (jpeg_camera_eq v _ _ _ _ _ x8) by (lia || done).
  cbn [jpeg_cameras]. rewrite bind_Ok. cbv zeta. erewrite (need_audio_yes _ eRTSP_AUDIOMASK_ALAW); [|reflexivity|by apply alaw_config_eq]. rewrite bind_Ok.
  do 5 (rewrite need_audio_no by reflexivity; rewrite bind_Ok).
  change (_ && _) with true. cbv iota. unfold mjpg_live_config. change (find_context _ _ _) with (Some 3%nat). cbv iota.
  set (cfg := MkConfig 80000 _ _ _ _ _ _ _ _ _ _ _ _ _ _ _ _ _ _ _ _ _). set (e := camera_encoder cfg 0 x8).
  destruct (cameras_live v udp writes h e x4 a rate pw ph kw kh jw jh packet overlapping Ha eq_refl) as (b & Eb & H1 & H2 & H3).
  exists b, h, x8. split; [|by rewrite H1]. change (Z.to_nat (m_uiNumMJPEGCams _)) with 1%nat.
  match type of Eb with ?l = _ => change (live_cameras _ _ _ _ _ _) with l end. by rewrite Eb, !bind_Ok.
Qed.

(** What [main] needs of the outside: connections can be written to, and [malloc] gives
    blocks of the size asked for. *)
Definition outside_ok (v : boot_env) (udp : nat → bool) (writes : nat → list write_result) : Prop :=
  drained (MkWire ∅ udp writes []) ∧ ∀ n, length (be_path v n) = 256%nat.

Lemma empty_boot_ok udp writes : drained (MkWire ∅ udp writes []) → boot_inv (empty_boot udp writes).
Proof. intros H. split; [by apply empty_booted|done]. Qed.

Lemma sizes_kept n : size_ok n → size_ok (u32 (i32 n)).
Proof.
  intros [Hn H8]. assert (u32 (i32 n) = n) as -> by (unfold u32, i32; width_lia). by split.
Qed.

Lemma encoder_sizes cfg s x :
  from_command_line cfg →
  let e := camera_encoder cfg s x in
  Forall size_ok [je_u32VinPlannerWidth e; je_u32VinPlannerHeight e; je_u32VinPacketWidth e; je_u32VinPacketHeight e;
                  je_u32JpegWidth e; je_u32JpegHeight e].
Proof.
  intros (rate & pw & ph & kw & kh & jw & jh & packet & overlapping & -> & Hs). cbn.
  rewrite !Forall_cons in Hs |- *. destruct_and!. split_and!; by try apply sizes_kept.
Qed.

(** C3: The program comes up as a camera.  For every command line and whatever the system
    answers, [main] either ends with the documented code -- 0 or -1 from the options, -2
    without [/dev/urandom], -3 when port 554 cannot be listened on -- or enters the main
    loop with eight frames in the pool, listening on port 554, and with exactly one
    location, [/cam1/mpeg4], that needs no password and has two tracks, JPEG from the
    encoder that the options describe, at 30 frames a second, and A-law sound at 8 kHz;
    every width and height of the encoder is a multiple of 8. *)
Theorem device_serves v udp writes opts :
  outside_ok v udp writes →
  match parse_options s_sConfig opts with
  | Exit code => main v udp writes opts = Ok (inl code) ∧ (code = 0 ∨ code = -1)
  | Configured cfg =>
      if negb (be_urandom v) then main v udp writes opts = Ok (inl (-2)) else
      if negb (config_port 554 (be_socket v) (be_bind v) (be_listen v)) then main v udp writes opts = Ok (inl (-3)) else
      ∃ b h x, let e := camera_encoder cfg 0 x in
        main v udp writes opts = Ok (inr b) ∧ booted (b_locs b) (b_tcp b) ∧
        b_heap b = Some h ∧ length (h_slots h) = 8%nat ∧ b_ports b = [554] ∧ serves b e ∧
        Forall size_ok [je_u32VinPlannerWidth e; je_u32VinPlannerHeight e; je_u32VinPacketWidth e; je_u32VinPacketHeight e;
                        je_u32JpegWidth e; je_u32JpegHeight e]
  end.
Proof.
  intros [Hd Hj]. pose proof (parse_options_ok opts _ defaults_ok) as Ho. unfold main. destruct (parse_options s_sConfig opts) as [cfg|code]; [|done].
  rewrite spook_init_eq, bind_Ok. destruct (be_urandom v); cbn [negb]; [|done].
  pose proof (spook_config_ok v Hj (fill_config cfg) (empty_boot udp writes) (fill_config_ok _ Ho) (empty_boot_ok _ _ Hd)) as (r & Er & Hr).
  destruct (config_port 554 _ _ _) eqn:Ep; cbn [negb].
  - destruct (device_config v udp writes cfg Ho (Hj 0%nat) Ep) as (b & h & x & Eb & H1 & H2 & H3 & H4). exists b, h, x. cbv zeta.
    rewrite Eb in Er |- *. injection Er as <-. rewrite bind_Ok. split_and!; try done; [apply Hr|by apply encoder_sizes].
  - unfold spook_config, config_frameheap. set (t := [_; _; _]). destruct Ho as (rate & pw & ph & kw & kh & jw & jh & packet & overlapping & -> & _).
    rewrite (arg_num_eq t 1 _ eq_refl), (arg_num_eq t 2 _ eq_refl), bind_Ok. change (length t =? 3)%nat with true. cbv iota. rewrite bind_Ok.
    set (o := init_frame_heap _ _ _). assert (∃ h, o = Ok h) as (h & ->) by (by eexists). rewrite !bind_Ok. change (0 <? 0) with false. cbv iota.
    unfold port_directive. by rewrite (arg_num_eq [_; tok_num 554] 1 554 eq_refl), bind_Ok, Ep.
Qed.


(** ** An example *)

Definition demo_boot_env : boot_env :=
  MkBootEnv true 3 0 0 (λ _, MkFrame 0 0 None 0 0 0 0 0 0 0 0 []) (λ _, replicate 256 0)
    (λ _, MkJpeg 0 0 0 0 0 [None; None; None; None] [] 0 false 0 0 false 0).

Lemma demo_outside : outside_ok demo_boot_env demo_udp demo_writes.
Proof. split; [apply demo_drained|done]. Qed.

(** [-i 323 -e 240 -o]. *)
Definition demo_opts : list (Z * list Z) := [(105, lit "323"); (101, lit "240"); (111, [])].

Lemma device_serves_witness :
  ∃ b h x e, main demo_boot_env demo_udp demo_writes demo_opts = Ok (inr b) ∧ b_heap b = Some h ∧ serves b e ∧
    e = MkJpegEnc (Some 0%nat) (Some x) 4000000 640 480 8 8 320 240 0 1.
Proof.
  destruct (device_serves demo_boot_env demo_udp demo_writes demo_opts demo_outside) as (b & h & x & H1 & _ & H2 & _ & _ & H3 & _).
  exists b, h, x. eexists. split; [exact H1|]. split; [exact H2|]. split; [exact H3|]. by vm_compute.
Defined.

Definition demo_device : boot :=
  match main demo_boot_env demo_udp demo_writes demo_opts with Ok (inr b) => b | _ => empty_boot demo_udp demo_writes end.

